(* ===== verification/_CoqProject ===== *)
-Q . S2P
Prelude.v
Errors.v
Phase.v
Json.v
SDK.v
Capacity.v
Billing.v
Types.v
Store.v
Kinds.v
Provision.v
Sys.v
Classes.v
Lease.v
Engine.v
Scheduler.v
Reconcile.v
Discovery.v
App.v
Spec.v
Abs.v
Refine.v
System.v
Via.v
Handlers.v
Demo.v
Safety.v
Process.v
LeaseFacts.v
SchedulerFacts.v
EngineFacts.v
ReconcileFacts.v
Labels.v
Marshal.v
Fake.v
FakeFacts.v
Manager.v
Health.v
AppFacts.v
Text.v
TextFacts.v
Url.v
Auth.v
Queries.v
Wire.v
ClientTypes.v
Client.v
Api.v
Remote.v
ApiFacts.v
RemoteFacts.v
EnvelopeFacts.v
Cli.v
CliFacts.v
Config.v
Serve.v
ServeFacts.v
Pacer.v
SecretRef.v
Observer.v
Cloud.v
Hetzner.v
Droplets.v
Docker.v
Ec2.v
ComputeEngine.v
Database.v
Contract.v
Calls.v
DriverReads.v
DriverFacts.v
Once.v
Reads.v
OnceRun.v
FakeHonest.v
HetznerOnce.v
Conformance.v
CloudInit.v
CloudInitFacts.v
