(* ===== verification/Prelude.v ===== *)
(** * Fleetplane: a verification development

    Fleetplane is a control plane for machines and volumes: clients create,
    delete, lease and park resources over HTTP; pools keep replicas; a journal
    of operations in SQLite is driven against cloud drivers. This library
    translates the Go program under src/ into Rocq, component by component, and
    proves what makes it correct. Go names are kept: a method [T.M] is the
    definition [T_M] or, where no clash arises, [M].

    ** How the program is modelled

    Every handler is a computation [M S A := S → result A * S] (Errors.v): a
    Go function that fails half-way keeps the effects it already had. The
    tables are finite maps from primary keys, SQL statements are functions on
    them (Store.v), and [Tx] rolls back on error as [Store.Tx] does. Around the
    tables a handler sees [Sys] (Sys.v): the state of the clouds, and the
    in-memory state of engine, scheduler and reconciler. Clouds, identifier
    generation, randomness, digests and the network are parameters, stated as
    type classes ([Providers], [ULID], [Rand], [Network]); the drivers of the
    repository are instances over the vendor's client, and the in-memory
    provider (Fake.v) needs none.

    Goroutines meet only in the database and in the level triggers. So each
    transaction body is a definition of its own, [kstep] (System.v) has one
    rule per transaction on arguments that may have gone stale, and its closure
    is every interleaving of the process with itself, with crashes anywhere
    between two transactions. Handlers are shown to move along [kstep].

    ** The files

    - Prelude: machine integers, tables, sorting, sums, strings. Errors: the
      provider errors (pkg/sdk/provider/errors.go) and the monad. Phase: internal/phase. Json:
      documents, time.ParseDuration. SDK: the driver interface
      (pkg/sdk/provider). Capacity, Billing: internal/capacity,
      internal/billing. Types, Store: internal/storage and its SQLite
      statements. Kinds: pkg/kinds. Provision: internal/provision.
    - Sys, Classes, Lease, Engine, Scheduler, Reconcile, Discovery, App: the
      kernel, one file per package (internal/lease, internal/operations,
      internal/scheduler, internal/reconcile, internal/app).
    - Spec: the abstract lifecycle protocol and its invariants by rule
      induction. Abs, Refine, System: the abstraction function and the proof
      that every transaction is a step of the protocol. Via, Handlers: every
      handler runs along the transactions. Safety: the invariants, read off
      the tables. Process: the goroutines of internal/boot, round by round.
      Demo: a small concrete run, input of witnesses.
    - LeaseFacts, SchedulerFacts, EngineFacts, ReconcileFacts, AppFacts: what
      each handler achieves, on every branch.
    - Labels: the label codecs of providers/gcp and providers/digitalocean.
      Marshal: encoding/json of specs and durations. Fake, FakeFacts:
      providers/fake. Manager: the driver registry and
      internal/app/providers.go. Health: internal/app/health.go.
    - Text: what the API uses of encoding/json, time, strings and hex. Auth:
      crypto/sha256, tokens and permissions (internal/api/auth.go). Wire:
      request bodies and envelopes (pkg/apiclient). Queries: the read-only
      queries of internal/app. Api, ApiFacts: the route table, middleware and
      handlers of internal/api, and the mutation gate. Config: internal/config
      and the wiring of internal/boot. Pacer: providers/pacing. SecretRef:
      pkg/sdk/secretref. Observer: internal/app/cost.go and stats.go.
    - Contract: what the kernel asks of the clouds, a class. Once:
      the process and the clouds as one transition system with crashes, lost
      replies and late requests, and its invariant. Reads, OnceRun: the
      handlers run along it. FakeHonest: the in-memory provider keeps the
      contract, with the inputs of the witnesses.
    - TextFacts: what is printed as JSON text is read back. Url: what the
      client and the server use of net/url (escapes, queries, targets), with
      its round trips.
    - ClientTypes: pkg/apiclient/types.go and types_more.go, the wire types
      with their JSON forms both ways. Client: client.go and client_more.go,
      every method as its request and the reading of its answer; the exchange
      is the class [RoundTrip]. Remote: the server of Api.v as that exchange,
      the type of the client's calls, and the command each stands for.
      RemoteFacts: every call reaches its command. EnvelopeFacts: what the
      server writes is what the client reads.
    - Cli: internal/cli but for cloud-init (CloudInit) and serve (Serve), which
      are no clients of the API; each command as a program over the client that
      prints lines, rows and documents; files, the YAML library and
      floats read as [any] are the classes [Files], [Manifests], [Floats].
      CliFacts: exit codes, watch against the running server, the request
      resources create makes.
    - Serve: App.Listen, Serve and the handlers and loops of
      internal/boot/boot.go, as events of one process. ServeFacts: what such a
      process keeps.
    - Cloud: what the cloud drivers share. Hetzner, Droplets, Docker, Ec2,
      ComputeEngine: providers/hetzner, digitalocean, docker, aws and gcp, each
      an adapter whose vendor client is a type class ([Hcloud], [Godo],
      [EngineAPI], [EC2], [GCE]) with one method per vendor call the source
      makes: a call answers a failure or a value and moves the vendor's state.
    - Calls: what a driver's program does to the outside world and what it can
      return, and which call it made last, with the rules for bind, the gate and
      the branches. DriverReads:
      reading changes nothing, a delete, stop or start touches the named machine
      only. DriverFacts: operation data, and what success means; and the
      inputs on which a driver falls short of the contract. HetznerOnce: the
      Hetzner driver keeps the contract over a service that keeps the laws of
      the class [HcloudLaws], and the whole process on it, with a small service
      as the witness that the laws can hold.
    - Database: the database handle of internal/storage/sqlite
      (db.go, store.go): pools, migrations, transactions, backup, over
      database/sql and goose as the class [Sql].
    - Conformance: pkg/sdk/conformance, the suite's subtests as programs over
      a driver, and the suite on the repository's drivers.
      CloudInit, CloudInitFacts: fleetplane cloud-init
      (internal/cli/cloudinit.go), with the YAML library as the class [Yaml].


    ** What the theorems show

    - Interleaving: whatever rounds run in whatever order, every commit is a
      step of the protocol ([Process.process_refines_protocol]); hence the
      invariants of Safety.v at every commit: a leased machine is kept, an
      exclusive lease is alone, bound acquisitions and active leases are in
      bijection, a phase in transition and its open operation imply each other,
      one operation per resource, legal histories.
    - Functional behaviour: reservation, ranking, release, expiry, crash
      recovery, the decision table after a failed call, verification of creates
      of unknown outcome, deletion gates, idempotent commands, a reconcile cycle
      and its budget, health, instance construction.
    - The in-memory provider: a create lands once, is found by its label, and
      ends; what the kernel planned is what is built.
    - Arithmetic and text: billing windows, backoff, durations, JSON and label
      round trips.
    - Creates happen once: on clouds that keep the contract every machine of
      the installation belongs to one dispatched create of the journal, and a
      create has one, and one more for each time the engine took it for absent
      too early ([Once.create_at_most_once]), through crashes, lost replies,
      late requests and retries. Too early is an empty listing that was behind,
      or one made while a request was still on its way: the rule [C_miss],
      which records it, against [C_search]. The code's handlers run along that
      system, and where listings are complete there is no such time
      ([OnceRun.process_creates_once]); [OnceRun.in_time] says it of a run. The
      contract: a create adds at most the machine it is for, an error that
      claims no effect had none, a complete listing shows the machine searched
      for if there is one. The in-memory provider is proved to keep it.
    - The drivers: reading issues no changing call and a delete, stop or start
      only the one on the named machine; success is reported only with the
      machine at the goal of that action as the last call read it, but for a
      delete that found nothing to delete; the stored operation data comes
      back; on Hetzner Cloud, under the documented laws of its API and with
      listings that catch up within the verify window, creates happen once from
      the API request down to the servers
      ([HetznerOnce.hetzner_creates_once]). DigitalOcean and Docker keep the
      contract only up to the gaps of DriverFacts; EC2 and Compute Engine are
      not yet held against it.
    - The database handle: no pool is left behind by a failed Open, and a newer
      schema is left alone ([Database.open_guarded]).
    - The conformance suite: the in-memory provider passes all of it; the
      drivers that number their machines fail one subtest whatever they hold.
    - Bootstrapping: the token of a rendered cloud-init document opens the
      service it starts, and its environment file reads back.
    - The edges: an HTTP request is at most one command, run for the principal
      its token proves, with the permission that command needs, or for anyone
      where no token is configured; routing is unambiguous; an accepted configuration boots into exactly its classes and
      tokens. A serving process runs commands only between a completed recovery
      and the signal to stop ([ServeFacts.serving_gated]).
    - From end to end: every method of the client is one command of the
      service, through URL escapes, queries, JSON bodies, routing and the
      permission check ([RemoteFacts.client_is_service]); the envelopes come
      back field by field ([EnvelopeFacts.envelopes_read_back]); the watch
      command tells what the rows of the database say, through all those layers
      ([CliFacts.watch_follows_the_rows]); an exit code tells which error a
      command met.


    ** Bounds, fuel and clocks

    Durations are int64 nanoseconds and wrap where the code computes with them;
    Unix-millisecond timestamps are exact integers. Recursion is structural,
    except loops with a proved bound: the boundary search of Billing.v, the
    digits of Marshal.v, the pages of the searches in Engine.v and Discovery.v
    (at most the number the code allows). The page loops of the drivers, which
    the code does not bound, take fuel. Go's map order is the key order,
    except where the theorems quantify over orders (Labels.v). The clock stands
    still within one handler and moves between rounds. Jitter is exact instead
    of rounded to a float64.

    ** Not modelled

    Error texts, log lines, metrics and event details (nothing reads them
    back); context cancellation, but for the timeout of the watch command; test
    hooks. SQLite itself and the SQL of the
    migrations; CHECK constraints hold by typing. The vendor client libraries
    and clouds behind the drivers, which live outside the repository: they are
    parameters, and the kernel's theorems hold for every driver. The parser of
    command lines (cobra), the alignment of tables, the dashboard's assets, the
    Prometheus exporter and the profiler. Paths that the mux cleans or redirects
    before it routes them. EC2 and Compute Engine
    are modelled, but not yet held against the contract of Contract.v, and the
    page loops of the drivers take fuel: that a cloud ends its pages is an
    assumption about the cloud.
*)

From stdpp Require Import base gmap strings list sorting.
From Stdlib Require Import ZArith Lia Ascii String.

Declare Scope fp_scope.
Delimit Scope fp_scope with fp.
Open Scope Z_scope.

Create HintDb fp discriminated.

(** ** Machine integers *)

(** Go's [int64] (and [time.Duration], [int] on a 64-bit target): the value is
    a [Z]; arithmetic that may leave the range wraps around. *)
Definition min64 : Z := - 2 ^ 63.
Definition max64 : Z := 2 ^ 63 - 1.
Definition wrap64 (z : Z) : Z := (z + 2 ^ 63) mod 2 ^ 64 - 2 ^ 63.
Definition add64 (a b : Z) : Z := wrap64 (a + b).
Definition sub64 (a b : Z) : Z := wrap64 (a - b).
Definition mul64 (a b : Z) : Z := wrap64 (a * b).
(** [a << n] for a non-negative shift count. *)
Definition shl64 (a n : Z) : Z := wrap64 (Z.shiftl a n).

Definition in64 (z : Z) : Prop := min64 ≤ z ≤ max64.
#[global] Instance in64_dec z : Decision (in64 z).
Proof. unfold in64. apply _. Defined.

Lemma wrap64_range z : in64 (wrap64 z).
Proof.
  unfold in64, wrap64, min64, max64.
  pose proof (Z.mod_pos_bound (z + 2 ^ 63) (2 ^ 64) ltac:(lia)). lia.
Qed.

Lemma wrap64_id z : in64 z → wrap64 z = z.
Proof.
  unfold in64, wrap64, min64, max64. intros ?. rewrite Z.mod_small; lia.
Qed.

Lemma wrap64_wrap64 z : wrap64 (wrap64 z) = wrap64 z.
Proof. apply wrap64_id, wrap64_range. Qed.

Lemma wrap64_add_l a b : wrap64 (wrap64 a + b) = wrap64 (a + b).
Proof.
  unfold wrap64. f_equal.
  replace ((a + 2 ^ 63) mod 2 ^ 64 - 2 ^ 63 + b + 2 ^ 63)
    with ((a + 2 ^ 63) mod 2 ^ 64 + b) by lia.
  rewrite Zplus_mod_idemp_l. f_equal. lia.
Qed.

Lemma wrap64_add_r a b : wrap64 (a + wrap64 b) = wrap64 (a + b).
Proof. rewrite Z.add_comm, wrap64_add_l. f_equal. lia. Qed.

Ltac in64 := unfold in64, min64, max64 in *; lia.

(** Go's [time] constants, in nanoseconds. *)
Definition Nanosecond : Z := 1.
Definition Microsecond : Z := 1000.
Definition Millisecond : Z := 1000000.
Definition Second : Z := 1000000000.
Definition Minute : Z := 60 * Second.
Definition Hour : Z := 60 * Minute.
(** [Duration.Milliseconds]: truncated division of the nanosecond count. *)
Definition Milliseconds (d : Z) : Z := Z.quot d Millisecond.

(** ** Options as the columns that may be NULL *)

Definition is_none {A} (o : option A) : bool :=
  match o with None => true | Some _ => false end.
Definition is_some {A} (o : option A) : bool := negb (is_none o).

(** [COALESCE(a, b)]. *)
Definition coalesce {A} (a b : option A) : option A :=
  match a with Some _ => a | None => b end.

Lemma is_none_true {A} (o : option A) : is_none o = true ↔ o = None.
Proof. destruct o; naive_solver. Qed.
Lemma is_none_false {A} (o : option A) : is_none o = false ↔ o ≠ None.
Proof. destruct o; naive_solver. Qed.

(** ** Tables: finite maps from a primary key, listed in key order *)

(** SQLite's BINARY collation compares text bytewise. *)
Definition str_le (a b : string) : Prop := String.leb a b = true.
#[global] Instance str_le_dec : RelDecision str_le.
Proof. intros a b. unfold str_le. apply _. Defined.

Lemma str_le_trans : Transitive str_le.
Proof.
  intros x. unfold str_le, String.leb. induction x as [|a x IH]; intros [|b y] [|c z]; simpl; try done.
  unfold Ascii.compare.
  destruct (N.compare_spec (Ascii.N_of_ascii a) (Ascii.N_of_ascii b)),
    (N.compare_spec (Ascii.N_of_ascii b) (Ascii.N_of_ascii c)),
    (N.compare_spec (Ascii.N_of_ascii a) (Ascii.N_of_ascii c)); try done; try lia.
  intros; by eapply IH.
Qed.
Lemma str_le_total x y : str_le x y ∨ str_le y x.
Proof. apply String.leb_total. Qed.
Lemma str_le_antisym x y : str_le x y → str_le y x → x = y.
Proof. apply String.leb_antisym. Qed.

Definition key_le {A} (x y : string * A) : Prop := str_le x.1 y.1.
#[global] Instance key_le_dec {A} : RelDecision (@key_le A).
Proof. intros x y. unfold key_le. apply _. Defined.

(** [SELECT * FROM m ORDER BY id]. *)
Definition rows {A} (m : gmap string A) : list A :=
  (merge_sort key_le (map_to_list m)).*2.

Lemma elem_of_rows {A} (m : gmap string A) x :
  x ∈ rows m ↔ ∃ k, m !! k = Some x.
Proof.
  unfold rows. rewrite list_elem_of_fmap. split.
  - intros ([k y] & -> & Hy). exists k. apply elem_of_map_to_list.
    by rewrite <-(merge_sort_Permutation key_le).
  - intros [k Hk]. exists (k, x). split; [done|].
    rewrite (merge_sort_Permutation key_le). by apply elem_of_map_to_list.
Qed.

(** [SELECT * FROM m WHERE P ORDER BY id]. *)
Definition select {A} (P : A → bool) (m : gmap string A) : list A :=
  filter (λ x, P x = true) (rows m).

Lemma elem_of_select {A} (P : A → bool) (m : gmap string A) x :
  x ∈ select P m ↔ P x = true ∧ ∃ k, m !! k = Some x.
Proof. unfold select. by rewrite list_elem_of_filter, elem_of_rows. Qed.

(** [ORDER BY f]: a stable sort on an integer column; rows with equal keys keep
    the order of their ids (SQLite leaves it open, no theorem depends on it). *)
Definition by_key {A} (f : A → Z) (x y : A) : Prop := f x ≤ f y.
#[global] Instance by_key_dec {A} (f : A → Z) : RelDecision (by_key f).
Proof. intros x y. unfold by_key. apply _. Defined.
Definition order_by {A} (f : A → Z) (l : list A) : list A := merge_sort (by_key f) l.

Lemma elem_of_order_by {A} (f : A → Z) l x : x ∈ order_by f l ↔ x ∈ l.
Proof. unfold order_by. by rewrite (merge_sort_Permutation (by_key f)). Qed.

Lemma order_by_Permutation {A} (f : A → Z) l : order_by f l ≡ₚ l.
Proof. apply merge_sort_Permutation. Qed.

(** [LIMIT n]. *)
Definition limit {A} (n : Z) (l : list A) : list A :=
  if decide (n < 0) then l else take (Z.to_nat n) l.

Lemma elem_of_limit {A} n (l : list A) x : x ∈ limit n l → x ∈ l.
Proof. unfold limit. case_decide; [done|]. rewrite elem_of_take. intros (i & Hi & _). by eapply list_elem_of_lookup_2. Qed.

(** Rows listed by a query are distinct rows. *)
Lemma rows_NoDup {A} (f : A → string) (m : gmap string A) :
  (∀ k x, m !! k = Some x → f x = k) → NoDup (f <$> rows m).
Proof.
  intros Hk. unfold rows.
  assert (∀ l : list (string * A), (∀ kx, kx ∈ l → f kx.2 = kx.1) → f <$> l.*2 = l.*1) as Heq.
  { induction l as [|kx l IH]; intros Hl; [done|]. simpl. f_equal; [apply Hl; left|].
    apply IH. intros y Hy. apply Hl. by right. }
  rewrite Heq.
  - rewrite (merge_sort_Permutation key_le). apply NoDup_fst_map_to_list.
  - intros [k x]. rewrite (merge_sort_Permutation key_le). intros Hin%elem_of_map_to_list.
    by apply Hk.
Qed.

Lemma batch_NoDup {A} (f : A → string) (g : A → Z) (P : A → bool) n (m : gmap string A) :
  (∀ k x, m !! k = Some x → f x = k) → NoDup (f <$> limit n (order_by g (select P m))).
Proof.
  intros Hk. assert (NoDup (f <$> order_by g (select P m))) as Hnd.
  { rewrite order_by_Permutation. unfold select.
    eapply sublist_NoDup; [|apply fmap_sublist, sublist_filter]. by apply rows_NoDup. }
  unfold limit. case_decide; [done|].
  eapply sublist_NoDup; [exact Hnd|]. apply fmap_sublist, sublist_take.
Qed.

(** Membership as a bool, for [IN (...)] lists and Go's switch on strings. *)
Definition mem {A} `{EqDecision A} (x : A) (l : list A) : bool := bool_decide (x ∈ l).

Lemma mem_true {A} `{EqDecision A} (x : A) l : mem x l = true ↔ x ∈ l.
Proof. unfold mem. apply bool_decide_eq_true. Qed.

(** ** Finite sums *)

Definition zsum (l : list Z) : Z := foldr Z.add 0 l.

Lemma zsum_app l k : zsum (l ++ k) = zsum l + zsum k.
Proof. induction l; simpl; lia. Qed.
Lemma zsum_Permutation l k : l ≡ₚ k → zsum l = zsum k.
Proof. induction 1; simpl; lia. Qed.
Lemma zsum_nonneg l : Forall (λ z, 0 ≤ z) l → 0 ≤ zsum l.
Proof. induction 1; simpl; lia. Qed.

(** ** Characters of a string *)

Fixpoint str_all (p : ascii → bool) (s : string) : bool :=
  match s with EmptyString => true | String c s => p c && str_all p s end.

Lemma str_all_impl (p q : ascii → bool) s :
  (∀ c, p c = true → q c = true) → str_all p s = true → str_all q s = true.
Proof.
  intros Hpq. induction s as [|c s IH]; simpl; [done|]. intros [??]%andb_true_iff.
  rewrite Hpq, IH; done.
Qed.
Lemma str_all_app p s t : str_all p (s +:+ t) = str_all p s && str_all p t.
Proof. induction s as [|c s IH]; simpl; [done|]. by rewrite IH, andb_assoc. Qed.
