(* ===== verification/Errors.v ===== *)
(** * Errors and the state-and-error monad

    The typed provider errors of [pkg/sdk/provider/errors.go], the Go errors
    the kernel tells apart with [errors.Is]/[errors.As], and the monad every
    handler is written in: a computation takes a state and returns a result
    with the state it leaves behind, on success and on failure alike (a Go
    function that fails half-way keeps the effects it already had). *)

From stdpp Require Import base gmap strings list.
From S2P Require Import Prelude.

(** ** Provider errors (pkg/sdk/provider/errors.go) *)

(** Go's [ErrorClass] is a string: a driver may report a class outside the
    declared constants, hence the last constructor. *)
Inductive ErrorClass :=
| ErrRetryable | ErrRateLimited | ErrConflict | ErrNotFound
| ErrInvalid | ErrQuota | ErrTerminal
| ErrOtherClass (s : string).
#[global] Instance ErrorClass_eq_dec : EqDecision ErrorClass.
Proof. solve_decision. Defined.

Inductive SideEffect := EffectNone | EffectMaybe | EffectUnset.
#[global] Instance SideEffect_eq_dec : EqDecision SideEffect.
Proof. solve_decision. Defined.

(** [provider.Error]; [Cause] is dropped, nothing in the kernel reads it. *)
Record Error := MkError {
  er_Class : ErrorClass;
  er_SideEffect : SideEffect;
  er_Code : string;
  er_Message : string;
  er_Provider : string;
  er_RequestID : string;
  er_RetryAfter : Z
}.

Definition class_string (c : ErrorClass) : string :=
  match c with
  | ErrRetryable => "retryable" | ErrRateLimited => "rate_limited"
  | ErrConflict => "conflict" | ErrNotFound => "not_found"
  | ErrInvalid => "invalid" | ErrQuota => "quota" | ErrTerminal => "terminal"
  | ErrOtherClass s => s
  end.

(** The [Error] method of [*Error]. *)
Definition Error_string (e : Error) : string :=
  let s := (class_string (er_Class e) +:+ ": " +:+ er_Message e)%string in
  let s := if decide (er_Provider e = "") then s
           else (er_Provider e +:+ ": " +:+ s)%string in
  if decide (er_Code e = "")
  then if decide (er_RequestID e = "") then s
       else (s +:+ " (request_id=" +:+ er_RequestID e +:+ ")")%string
  else let s := (s +:+ " (code=" +:+ er_Code e)%string in
       let s := if decide (er_RequestID e = "") then s
                else (s +:+ ", request_id=" +:+ er_RequestID e)%string in
       (s +:+ ")")%string.

(** ** Go errors, up to what [errors.Is] and [errors.As] distinguish

    [fmt.Errorf("%w: ...", e)] is [e]: the added text is not modelled. *)
Inductive err :=
| EProvider (e : Error)
| EContext                         (* context.Canceled, DeadlineExceeded *)
| ENotFound | EConflict | EStale   (* internal/storage/store.go *)
| EInsufficient | ENoCapacity      (* internal/scheduler *)
| EParkUnsupported                 (* internal/provision/park.go *)
| EIdemMismatch | EInFlight (op : string) | EValidation
| EAlreadyThere | EClassExists | EClassConfigOwned   (* internal/app *)
| EOther (msg : string).           (* any other error *)
#[global] Instance Error_eq_dec : EqDecision Error.
Proof. solve_decision. Defined.
#[global] Instance err_eq_dec : EqDecision err.
Proof. solve_decision. Defined.

Definition Classify (e : err) : ErrorClass :=
  match e with
  | EProvider pe => er_Class pe
  | EContext => ErrRetryable
  | _ => ErrRetryable
  end.

Definition IsClass (e : err) (c : ErrorClass) : bool := bool_decide (Classify e = c).

Definition Effect (e : err) : SideEffect :=
  match e with
  | EProvider pe =>
      if decide (er_SideEffect pe = EffectNone) then EffectNone else EffectMaybe
  | _ => EffectMaybe
  end.

(** [(d, true)] is [Some d]. *)
Definition RetryAfterOf (e : err) : option Z :=
  match e with
  | EProvider pe => if decide (0 < er_RetryAfter pe) then Some (er_RetryAfter pe) else None
  | _ => None
  end.

Lemma Effect_cases e : Effect e = EffectNone ∨ Effect e = EffectMaybe.
Proof. destruct e as [pe| | | | | | | | | | | | | |]; simpl; try case_decide; auto. Qed.

(** ** Results and the monad *)

Inductive result (A : Type) := Ok (a : A) | Err (e : err).
Arguments Ok {A} a.
Arguments Err {A} e.

Lemma Ok_inj {A} (a b : A) : Ok a = Ok b → a = b.
Proof. by intros [= ->]. Qed.

Definition M (S A : Type) : Type := S → result A * S.

Definition retM {S A} (a : A) : M S A := λ s, (Ok a, s).
Definition failM {S A} (e : err) : M S A := λ s, (Err e, s).
Definition bindM {S A B} (m : M S A) (k : A → M S B) : M S B := λ s,
  match m s with
  | (Ok a, s') => k a s'
  | (Err e, s') => (Err e, s')
  end.
Definition getsM {S A} (f : S → A) : M S A := λ s, (Ok (f s), s).
Definition modifyM {S} (f : S → S) : M S unit := λ s, (Ok tt, f s).
(** [v, err := m]: the caller looks at the error itself. *)
Definition tryM {S A} (m : M S A) : M S (result A) := λ s,
  let '(r, s') := m s in (Ok r, s').
(** [_ = m]. *)
Definition ignoreM {S A} (m : M S A) : M S unit := λ s, (Ok tt, (m s).2).
Definition liftR {S A} (r : result A) : M S A := λ s, (r, s).

Notation "x <- m ;; k" := (bindM m (fun x => k))
  (at level 100, m at next level, right associativity) : fp_scope.
Notation "m ;;; k" := (bindM m (fun _ => k))
  (at level 100, right associativity) : fp_scope.
Open Scope fp_scope.

(** [if cond { return err }]. *)
Definition refuse {S} (c : bool) (e : err) : M S unit :=
  if c then failM e else retM tt.

(** A loop that stops at the first error. *)
Fixpoint forM_ {S A} (l : list A) (f : A → M S unit) : M S unit :=
  match l with
  | [] => retM tt
  | x :: l => f x ;;; forM_ l f
  end.

(** ** Weakest preconditions and preserved properties *)

Definition wp {S A} (m : M S A) (s : S) (Q : result A → S → Prop) : Prop :=
  Q (m s).1 (m s).2.

(** [keeps I m]: every run of [m], failing ones included, preserves [I]. *)
Definition keeps {S A} (I : S → Prop) (m : M S A) : Prop := ∀ s, I s → I (m s).2.

(** [pure m]: [m] only reads. *)
Definition pure {S A} (m : M S A) : Prop := ∀ s, (m s).2 = s.

Section monad.
Context {S A B : Type}.
Implicit Types (m : M S A) (k : A → M S B) (I : S → Prop).

Lemma wp_conseq m s (Q Q' : result A → S → Prop) :
  wp m s Q → (∀ r s', Q r s' → Q' r s') → wp m s Q'.
Proof. unfold wp. auto. Qed.

Lemma wp_bind m k s (Q : result B → S → Prop) :
  wp m s (λ r s', match r with Ok a => wp (k a) s' Q | Err e => Q (Err e) s' end) →
  wp (bindM m k) s Q.
Proof. unfold wp, bindM. destruct (m s) as [[a|e] s']; auto. Qed.

Lemma bindM_Ok m k s b s' :
  bindM m k s = (Ok b, s') → ∃ a s1, m s = (Ok a, s1) ∧ k a s1 = (Ok b, s').
Proof. unfold bindM. destruct (m s) as [[a|e] s1]; naive_solver. Qed.

Lemma bindM_eq m k s a s1 : m s = (Ok a, s1) → bindM m k s = k a s1.
Proof. unfold bindM. by intros ->. Qed.

Lemma bindM_err m k s e s1 : m s = (Err e, s1) → bindM m k s = (Err e, s1).
Proof. unfold bindM. by intros ->. Qed.

Lemma keeps_bind I m k : keeps I m → (∀ a, keeps I (k a)) → keeps I (bindM m k).
Proof.
  intros Hm Hk s Hs. specialize (Hm s Hs). unfold bindM.
  destruct (m s) as [[a|e] s']; simpl in *; [by apply Hk|done].
Qed.

Lemma keeps_pure I m : pure m → keeps I m.
Proof. intros Hm s Hs. by rewrite Hm. Qed.

Lemma keeps_try I m : keeps I m → keeps I (tryM m).
Proof. intros Hm s Hs. specialize (Hm s Hs). unfold tryM. by destruct (m s). Qed.

Lemma keeps_ignore I m : keeps I m → keeps I (ignoreM m).
Proof. intros Hm s Hs. by apply Hm. Qed.

Lemma keeps_and I J m : keeps I m → keeps J m → keeps (λ s, I s ∧ J s) m.
Proof. intros HI HJ s [??]. split; auto. Qed.

Lemma pure_ret (a : A) : pure (S := S) (retM a).
Proof. done. Qed.
Lemma pure_fail e : pure (S := S) (A := A) (failM e).
Proof. done. Qed.
Lemma pure_gets (f : S → A) : pure (getsM f).
Proof. done. Qed.
Lemma pure_liftR (r : result A) : pure (S := S) (liftR r).
Proof. done. Qed.
Lemma pure_bind m k : pure m → (∀ a, pure (k a)) → pure (bindM m k).
Proof.
  intros Hm Hk s. specialize (Hm s). unfold bindM.
  destruct (m s) as [[a|e] s']; simpl in *; subst; [apply Hk|done].
Qed.
Lemma pure_try m : pure m → pure (tryM m).
Proof. intros Hm s. specialize (Hm s). unfold tryM. by destruct (m s). Qed.
End monad.

Lemma bindM_assoc {S A B C} (m : M S A) (k : A → M S B) (h : B → M S C) s :
  bindM (bindM m k) h s = bindM m (λ a, bindM (k a) h) s.
Proof. unfold bindM. by destruct (m s) as [[?|?] ?]. Qed.

Lemma keeps_forM {S X} (I : S → Prop) (l : list X) (f : X → M S unit) :
  (∀ x, x ∈ l → keeps I (f x)) → keeps I (forM_ l f).
Proof.
  induction l as [|x l IH]; intros Hf; simpl; [by intros s Hs|].
  apply keeps_bind; [apply Hf; set_solver|].
  intros _. apply IH. intros y Hy. apply Hf. set_solver.
Qed.

Lemma pure_refuse {S} c e : pure (S := S) (refuse c e).
Proof. by destruct c. Qed.

#[export] Hint Resolve pure_ret pure_fail pure_gets pure_liftR pure_bind
  pure_try pure_refuse keeps_pure keeps_bind keeps_try keeps_ignore : fp.

(** Runs a successful bind: turns [bindM m k s = (Ok b, s')] into its steps. *)
Ltac inv_bind H :=
  let a := fresh "a" in let s1 := fresh "s" in let H1 := fresh "Hm" in
  apply bindM_Ok in H as (a & s1 & H1 & H).

(** Splits every [match] and [if] a goal or hypothesis is stuck on. *)
Ltac split_match :=
  repeat match goal with
  | H : context [match ?x with _ => _ end] |- _ => destruct x eqn:?; simplify_eq/=
  | |- context [match ?x with _ => _ end] => destruct x eqn:?; simplify_eq/=
  end.
