(* ===== verification/Phase.v ===== *)
(** * Resource phases (internal/phase/phase.go)

    The orchestration phases, their legal-transition table and what the table
    makes reachable. *)

From stdpp Require Import base gmap strings list relations.
From S2P Require Import Prelude.

Inductive Phase :=
| Unknown | Provisioning | Ready | Allocated | Draining | Deleting | Failed
| Orphaned | Parking | Parked | Starting.
#[global] Instance Phase_eq_dec : EqDecision Phase.
Proof. solve_decision. Defined.

(** The string constants. *)
Definition phase_string (p : Phase) : string :=
  match p with
  | Unknown => "unknown" | Provisioning => "provisioning" | Ready => "ready"
  | Allocated => "allocated" | Draining => "draining" | Deleting => "deleting"
  | Failed => "failed" | Orphaned => "orphaned" | Parking => "parking"
  | Parked => "parked" | Starting => "starting"
  end.

(** [All]: every phase, in the order of the storage CHECK constraint. *)
Definition All : list Phase :=
  [Unknown; Provisioning; Ready; Allocated; Draining; Deleting; Failed;
   Orphaned; Parking; Parked; Starting].

(** [Valid]: Go's [Phase] is a string type, a request may carry any string. *)
Definition Valid (s : string) : bool :=
  existsb (λ q, bool_decide (s = phase_string q)) All.

(** [transitions]. *)
Definition transitions (p : Phase) : list Phase :=
  match p with
  | Unknown => [Ready; Orphaned; Deleting]
  | Provisioning => [Ready; Failed; Orphaned]
  | Ready => [Allocated; Draining; Orphaned; Deleting; Parking]
  | Allocated => [Ready; Draining; Orphaned]
  | Draining => [Ready; Deleting]
  | Deleting => [Failed]
  | Failed => [Deleting]
  | Orphaned => [Ready; Parked]
  | Parking => [Parked; Ready]
  | Parked => [Starting; Deleting; Orphaned]
  | Starting => [Ready; Parked; Failed]
  end.

Fixpoint phase_in (to : Phase) (l : list Phase) : bool :=
  match l with
  | [] => false
  | q :: l => if decide (q = to) then true else phase_in to l
  end.

(** [CanTransition]. *)
Definition CanTransition (from to : Phase) : bool := phase_in to (transitions from).

(** The table as a step relation. *)
Definition phase_step (p q : Phase) : Prop := CanTransition p q = true.
#[global] Instance phase_step_dec : RelDecision phase_step.
Proof. intros p q. unfold phase_step. apply _. Defined.

(** A property that is decided by trying every phase. *)
Lemma phase_ind_bool (P : Phase → bool) : forallb P All = true → ∀ p, P p = true.
Proof.
  intros H p. rewrite forallb_forall in H. apply H. apply list_elem_of_In.
  destruct p; vm_compute; repeat constructor.
Qed.

Lemma phase_string_inj p q : phase_string p = phase_string q → p = q.
Proof. by destruct p, q. Qed.

Lemma Valid_spec s : Valid s = true ↔ ∃ p, s = phase_string p.
Proof.
  unfold Valid. rewrite existsb_exists. split.
  - intros (q & _ & Hq). exists q. by apply bool_decide_eq_true in Hq.
  - intros [p ->]. exists p. split; [|by apply bool_decide_eq_true].
    apply list_elem_of_In. destruct p; vm_compute; repeat constructor.
Qed.

(** A set closed under the table is closed under reachability. *)
Lemma closed_reachable (P : Phase → bool) p q :
  forallb (λ a, negb (P a) || forallb P (transitions a)) All = true →
  P p = true → rtc phase_step p q → P q = true.
Proof.
  intros Hcl Hp. induction 1 as [|p r q Hpr _ IH]; [done|]. apply IH.
  pose proof (phase_ind_bool _ Hcl p) as H. simpl in H. rewrite Hp in H. simpl in H.
  rewrite forallb_forall in H. apply H. clear -Hpr.
  unfold phase_step, CanTransition in Hpr.
  induction (transitions p) as [|a l IH]; [done|].
  simpl in Hpr. destruct (decide (a = r)); [by left|right; by apply IH].
Qed.

(** No phase steps to itself, and every phase has a way out: terminality is
    the tombstone, never a phase. *)
Lemma phase_no_self_loop p : CanTransition p p = false.
Proof. by destruct p. Qed.
Lemma phase_progress p : ∃ q, phase_step p q.
Proof. exists (hd Unknown (transitions p)). by destruct p. Qed.
