(* ===== verification/Json.v ===== *)
(** * JSON documents and Go durations

    The documents users send (specs, pool manifests, constraints) as syntax
    trees, with the parts of [encoding/json] and [time.ParseDuration] the
    repository relies on. *)

From stdpp Require Import base gmap strings list.
From Stdlib Require Import Ascii.
From S2P Require Import Prelude Errors.

(** A number literal is kept as its integer value; one with a fraction, an
    exponent or digits beyond any integer type is [JFloat]. *)
Inductive json :=
| JNull
| JBool (b : bool)
| JInt (z : Z)
| JFloat (lit : string)
| JStr (s : string)
| JArr (l : list json)
| JObj (fields : list (string * json)).

(** [json.RawMessage]: empty, a document, or text that is not JSON. *)
Inductive raw := RawEmpty | RawDoc (j : json) | RawBad (text : string).

(** [json.Unmarshal] starts with a syntax check; empty input is an error. *)
Definition parse_raw (r : raw) : result json :=
  match r with RawDoc j => Ok j | _ => Err (EOther "json: syntax error") end.

Definition type_error {A} : result A := Err (EOther "json: cannot unmarshal").

(** ** Decoding into Go values

    A decoder takes the value already in the destination: JSON [null] leaves
    it alone (for maps and pointers it stores nil). *)

Definition dec_string (j : json) (old : string) : result string :=
  match j with JStr s => Ok s | JNull => Ok old | _ => type_error end.
Definition dec_bool (j : json) (old : bool) : result bool :=
  match j with JBool b => Ok b | JNull => Ok old | _ => type_error end.
Definition dec_int64 (j : json) (old : Z) : result Z :=
  match j with
  | JInt z => if decide (in64 z) then Ok z else type_error
  | JNull => Ok old
  | _ => type_error
  end.

(** Struct fields match object keys without regard to (ASCII) case. *)
Definition lower_ascii (c : ascii) : ascii :=
  let n := nat_of_ascii c in
  if (65 <=? n)%nat && (n <=? 90)%nat then ascii_of_nat (n + 32) else c.
Fixpoint fold_name (s : string) : string :=
  match s with
  | EmptyString => EmptyString
  | String c s => String (lower_ascii c) (fold_name s)
  end.
Definition key_match (k name : string) : bool :=
  bool_decide (fold_name k = fold_name name).

(** A field is decoded once per matching key, in document order; a type error
    in any of them is the decoder's error. *)
Fixpoint dec_field {A} (name : string) (d : json → A → result A)
    (fields : list (string * json)) (old : A) : result A :=
  match fields with
  | [] => Ok old
  | (k, j) :: fields =>
      if key_match k name
      then match d j old with Ok a => dec_field name d fields a | Err e => Err e end
      else dec_field name d fields old
  end.

(** The fields of a document decoded into a struct: an object, or [null],
    which decodes to the struct unchanged. *)
Definition dec_object (j : json) : result (list (string * json)) :=
  match j with JObj fs => Ok fs | JNull => Ok [] | _ => type_error end.

(** A pointer to a struct: [null] is nil, anything else decodes into a fresh
    (or the already allocated) value. *)
Definition dec_ptr {A} (zero : A) (d : json → A → result A) (j : json)
    (old : option A) : result (option A) :=
  match j with
  | JNull => Ok None
  | _ => match d j (default zero old) with Ok a => Ok (Some a) | Err e => Err e end
  end.

(** A map with decoded elements: each key stores a value decoded from zero, a
    later duplicate overwrites. *)
Fixpoint dec_map_fields {A} (zero : A) (d : json → A → result A)
    (fields : list (string * json)) (m : gmap string A) : result (gmap string A) :=
  match fields with
  | [] => Ok m
  | (k, j) :: fields =>
      match d j zero with
      | Ok a => dec_map_fields zero d fields (<[k := a]> m)
      | Err e => Err e
      end
  end.
Definition dec_map {A} (zero : A) (d : json → A → result A) (j : json)
    : result (gmap string A) :=
  match j with
  | JObj fs => dec_map_fields zero d fs ∅
  | JNull => Ok ∅
  | _ => type_error
  end.

(** ** time.ParseDuration *)

Definition is_digit (c : ascii) : bool :=
  let n := nat_of_ascii c in (48 <=? n)%nat && (n <=? 57)%nat.
Definition digit (c : ascii) : Z := Z.of_nat (nat_of_ascii c) - 48.

(** [leadingInt]: fails when the value passes [1 << 63]. *)
Fixpoint leadingInt (s : string) (x : Z) : option (Z * string) :=
  match s with
  | String c s' =>
      if is_digit c then
        if decide (2 ^ 63 / 10 < x) then None
        else let x := x * 10 + digit c in
             if decide (2 ^ 63 < x) then None else leadingInt s' x
      else Some (x, s)
  | EmptyString => Some (x, s)
  end.

(** [leadingFraction]: digits past the int64 range are skipped. *)
Fixpoint leadingFraction (s : string) (x scale : Z) (overflow : bool) : Z * Z * string :=
  match s with
  | String c s' =>
      if is_digit c then
        if overflow then leadingFraction s' x scale true
        else if decide ((2 ^ 63 - 1) / 10 < x) then leadingFraction s' x scale true
        else let y := x * 10 + digit c in
             if decide (2 ^ 63 < y) then leadingFraction s' x scale true
             else leadingFraction s' y (scale * 10) false
      else (x, scale, s)
  | EmptyString => (x, scale, s)
  end.

Fixpoint take_unit (s : string) : string * string :=
  match s with
  | String c s' =>
      if is_digit c || bool_decide (c = "."%char) then (EmptyString, s)
      else let '(u, rest) := take_unit s' in (String c u, rest)
  | EmptyString => (EmptyString, EmptyString)
  end.

(** The two spellings of the micro sign are the UTF-8 bytes of U+00B5 and
    U+03BC followed by "s". *)
Definition micro_sign : string :=
  String (ascii_of_nat 194) (String (ascii_of_nat 181) "s").
Definition micro_mu : string :=
  String (ascii_of_nat 206) (String (ascii_of_nat 188) "s").
Definition unitMap (u : string) : option Z :=
  if mem u ["ns"%string] then Some Nanosecond
  else if mem u ["us"%string; micro_sign; micro_mu] then Some Microsecond
  else if mem u ["ms"%string] then Some Millisecond
  else if mem u ["s"%string] then Some Second
  else if mem u ["m"%string] then Some Minute
  else if mem u ["h"%string] then Some Hour
  else None.

(** The loop over "number unit" groups; each group consumes at least one
    byte, so the length of the input is fuel enough. The fraction is computed
    exactly where Go multiplies float64 values. *)
Fixpoint duration_groups (fuel : nat) (s : string) (d : Z) : option Z :=
  match s, fuel with
  | EmptyString, _ => Some d
  | String c _, S fuel =>
      if negb (is_digit c || bool_decide (c = "."%char)) then None else
      match leadingInt s 0 with
      | None => None
      | Some (v, s1) =>
          let pre := negb (String.length s1 =? String.length s)%nat in
          let '(f, scale, s2, post) :=
            match s1 with
            | String "." s1' =>
                let '(f, scale, s2) := leadingFraction s1' 0 1 false in
                (f, scale, s2, negb (String.length s2 =? String.length s1')%nat)
            | _ => (0, 1, s1, false)
            end in
          if negb pre && negb post then None else
          let '(u, rest) := take_unit s2 in
          match unitMap u with
          | None => None
          | Some unit =>
              if decide (2 ^ 63 / unit < v) then None else
              let v := v * unit + (if decide (0 < f) then f * unit / scale else 0) in
              if decide (2 ^ 63 < v) then None else
              if decide (2 ^ 63 < d + v) then None else
              duration_groups fuel rest (d + v)
          end
      end
  | _, O => None
  end.

Definition ParseDuration (s : string) : result Z :=
  let '(neg, s) :=
    match s with
    | String "-" s' => (true, s')
    | String "+" s' => (false, s')
    | _ => (false, s)
    end in
  let bad := Err (EOther "time: invalid duration") in
  if decide (s = "0") then Ok 0 else
  if decide (s = "") then bad else
  match duration_groups (String.length s) s 0 with
  | None => bad
  | Some d => if neg then Ok (- d)
              else if decide (max64 < d) then bad else Ok d
  end.

(** [compute.Duration.UnmarshalJSON]: called for [null] too, which decodes
    into the empty string and then fails to parse. *)
Definition dec_duration (j : json) (old : Z) : result Z :=
  match dec_string j "" with
  | Ok s => ParseDuration s
  | Err e => Err e
  end.
