(* ===== verification/SDK.v ===== *)
(** * The provider SDK (pkg/sdk/provider)

    The types the kernel and the drivers share, and the interfaces they meet
    at. A driver is a record of operations over a provider state [P]: the
    cloud behind it is not part of the repository, so the kernel's theorems
    quantify over every driver. *)

From stdpp Require Import base gmap strings list.
From S2P Require Import Prelude Errors Json.

(** ** Labels (labels.go) *)

Definition LabelManaged : string := "fleetplane.io/managed".
Definition LabelOwner : string := "fleetplane.io/owner".
Definition LabelID : string := "fleetplane.io/id".
Definition LabelOp : string := "fleetplane.io/op".
Definition LabelClass : string := "fleetplane.io/class".

Definition IdentityLabels (ownerID resourceID opID : string) : gmap string string :=
  {[ LabelManaged := "true"%string; LabelOwner := ownerID;
     LabelID := resourceID; LabelOp := opID ]}.

(** [m[k]] on a Go map of strings: the zero value when absent. *)
Definition map_get (m : gmap string string) (k : string) : string :=
  default ""%string (m !! k).

(** ** Billing and parking policies (billing.go, parking.go) *)

Record BillingPolicy := MkBilling {
  MinimumDuration : Z;
  BillingIncrement : Z;
  TerminationBuffer : Z
}.
Definition zeroBilling : BillingPolicy := MkBilling 0 0 0.

Definition FineGrained (p : BillingPolicy) : bool :=
  bool_decide (MinimumDuration p ≤ 0) && bool_decide (BillingIncrement p ≤ 0).

Record ParkPolicy := MkPark { pk_Supported : bool; pk_StartEstimate : Z }.
Definition zeroPark : ParkPolicy := MkPark false 0.

(** ** Resource types (provider.go) *)

(** A JSON column the program writes with [json.Marshal] of a value of type
    [A]: absent, the value it decodes to, or text that does not decode. *)
Inductive jcol (A : Type) := JNone | JVal (a : A) | JBad.
Arguments JNone {A}.
Arguments JVal {A} a.
Arguments JBad {A}.
#[global] Instance jcol_eq_dec {A} `{EqDecision A} : EqDecision (jcol A).
Proof. solve_decision. Defined.

(** [COALESCE(?, column)] on such a column. *)
Definition jcoalesce {A} (a b : jcol A) : jcol A :=
  match a with JNone => b | _ => a end.

Record ExternalRef := MkRef { ref_ID : string; ref_Extra : gmap string string }.
#[global] Instance ExternalRef_eq_dec : EqDecision ExternalRef.
Proof. solve_decision. Defined.

Inductive ObservedPhase :=
| PhasePending | PhaseRunning | PhaseStopped | PhaseDeleting | PhaseGone | PhaseUnknown.
#[global] Instance ObservedPhase_eq_dec : EqDecision ObservedPhase.
Proof. solve_decision. Defined.

Record Address := MkAddress { ad_Network : string; ad_Addr : string }.

(** [ObservedAt] is dropped: the kernel stamps observations itself. *)
Record ObservedResource := MkObs {
  ob_Ref : ExternalRef;
  ob_Kind : string;
  ob_FleetplaneID : string;
  ob_CreateOpID : string;
  ob_Owned : bool;
  ob_Phase : ObservedPhase;
  ob_ProviderState : string;
  ob_Capacity : gmap string Z;
  ob_Addresses : list Address;
  ob_Labels : gmap string string;
  ob_Extensions : option json
}.

Inductive DiscoverScope := ScopeOwned | ScopeAll.
#[global] Instance DiscoverScope_eq_dec : EqDecision DiscoverScope.
Proof. solve_decision. Defined.
Record DiscoverRequest := MkDiscover {
  dr_Scope : DiscoverScope; dr_Selector : gmap string string }.

(** [Params] is the driver's private payload, a JSON document the kernel only
    stores. *)
Record Action := MkAction {
  ac_ActionID : string;
  ac_Kind : string;
  ac_ResourceID : string;
  ac_Ref : option ExternalRef;
  ac_Params : option json;
  ac_Destructive : bool
}.

Record OperationRef := MkOpRef {
  or_ActionID : string; or_Ref : option ExternalRef; or_Data : option string }.

Inductive OperationState := PvPending | PvRunning | PvSucceeded | PvFailed | PvUnknown.
#[global] Instance OperationState_eq_dec : EqDecision OperationState.
Proof. solve_decision. Defined.

Record OperationStatus := MkStatus {
  os_State : OperationState;
  os_Ref : option ExternalRef;
  os_Resource : option ObservedResource;
  os_Failure : option Error;
  os_RetryAfter : Z
}.

Record Descriptor := MkDescriptor {
  de_Driver : string;
  de_Instance : string;
  de_Kinds : list string;
  de_SupportsLabelDiscovery : bool
}.

Record DesiredState := MkDesired {
  ds_Name : string; ds_Spec : raw; ds_Labels : gmap string string }.
Record PlanRequest := MkPlanReq {
  pr_ResourceID : string; pr_Desired : option DesiredState;
  pr_Observed : option ObservedResource }.

(** ** The interfaces *)

(** [ResourceDriver]: [Plan] is documented pure, so it has no state. *)
Record ResourceDriver (P : Type) := MkDriver {
  Discover : DiscoverRequest → M P (list ObservedResource);
  Get : ExternalRef → M P ObservedResource;
  Plan : PlanRequest → result (list Action);
  Apply : Action → M P OperationRef;
  ObserveOperation : OperationRef → M P OperationStatus
}.
Arguments Discover {P}.
Arguments Get {P}.
Arguments Plan {P}.
Arguments Apply {P}.
Arguments ObserveOperation {P}.

(** [Provider], with the optional capabilities [BillingAware] and [ParkAware]
    as [None] when the driver does not implement them. *)
Record Provider (P : Type) := MkProvider {
  pv_Descriptor : Descriptor;
  pv_ResourceDriver : string → option (ResourceDriver P);
  pv_Billing : option (string → BillingPolicy);
  pv_Parking : option (string → ParkPolicy)
}.
Arguments pv_Descriptor {P}.
Arguments pv_ResourceDriver {P}.
Arguments pv_Billing {P}.
Arguments pv_Parking {P}.

(** What the kernel needs of the instance manager ([provision.Providers], a
    superset of [operations.Providers]). *)
Class Providers (P : Type) := {
  Instance_ : string → option (Provider P);
  Billing_ : string → string → BillingPolicy * bool;
  Parking_ : string → string → ParkPolicy
}.
