(* ===== verification/Capacity.v ===== *)
(** * Allocation arithmetic (internal/capacity/capacity.go)

    Capacity vectors per dimension, the fit test and the best-fit score, and
    the stored acquisition request. Amounts are int64 and wrap. *)

From stdpp Require Import base gmap strings list.
From S2P Require Import Prelude Errors SDK.

(** [Vector]: a Go map; iteration order never matters below. *)
Abbreviation Vector := (gmap string Z).

(** [m[k]] on a map of integers. *)
Definition amount (v : Vector) (dim : string) : Z := default 0 (v !! dim).

(** [Parse] of a capacity column (written by [json.Marshal]). *)
Definition Parse (col : jcol Vector) : result Vector :=
  match col with
  | JNone => Ok ∅
  | JVal v => Ok v
  | JBad => Err (EOther "capacity")
  end.

(** The loop of [WantFromConstraints] over the decoded constraints, each a
    dimension and its [min]. *)
Definition WantFromConstraints (col : jcol Vector) : result Vector :=
  match col with
  | JNone => Ok ∅
  | JBad => Err (EOther "constraints")
  | JVal c =>
      if forallb (λ '(_, m), bool_decide (0 ≤ m)) (map_to_list c)
      then Ok (filter (λ '(_, m), 0 < m) c)
      else Err (EOther "constraints: min must be >= 0")
  end.

(** [Fits]: want fits into total minus used, dimension by dimension. *)
Definition Fits (total used want : Vector) : bool :=
  forallb (λ '(dim, w),
    match total !! dim with
    | None => false
    | Some t => negb (bool_decide (sub64 t (amount used dim) < w))
    end) (map_to_list want).

(** [FreeAfter]. *)
Definition FreeAfter (total used want : Vector) : Z :=
  foldl (λ free '(dim, t),
    add64 free (sub64 (sub64 t (amount used dim)) (amount want dim)))
    0 (map_to_list total).

(** [for k, v := range lc { used[k] += v }], the accumulation the scheduler
    and the lease store share. *)
Definition accumulate (used lc : Vector) : Vector :=
  union_with (λ a b, Some (add64 a b)) used lc.

Definition sum_vectors (l : list Vector) : Vector := foldl accumulate ∅ l.

(** [Request]: the payload of [acquisitions.constraints_json]. Its inner
    constraints are the user's JSON, decoded to dimension and min. *)
Record Request := MkRequest {
  rq_Exclusive : bool;
  rq_Constraints : jcol Vector;
  rq_MaxWaitMs : Z
}.
#[global] Instance Request_eq_dec : EqDecision Request.
Proof. solve_decision. Defined.
Definition zeroRequest : Request := MkRequest false JNone 0.

(** [ParseRequest]: the request, the wanted capacity and the exclusivity. *)
Definition ParseRequest (col : jcol Request) : result (Request * Vector * bool) :=
  match (match col with JNone => Ok zeroRequest | JVal r => Ok r
         | JBad => Err (EOther "acquisition constraints") end) with
  | Err e => Err e
  | Ok req =>
      match WantFromConstraints (rq_Constraints req) with
      | Err e => Err e
      | Ok want => Ok (req, want, rq_Exclusive req || bool_decide (want = ∅))
      end
  end.

(** ** Facts the scheduler builds on *)

Definition vec_in64 (v : Vector) : Prop := map_Forall (λ _, in64) v.
Definition vec_nonneg (v : Vector) : Prop := map_Forall (λ _ z, 0 ≤ z) v.
Definition vec_pos (v : Vector) : Prop := map_Forall (λ _ z, 0 < z) v.

Lemma Fits_spec total used want :
  Fits total used want = true ↔
  ∀ dim w, want !! dim = Some w →
    ∃ t, total !! dim = Some t ∧ w ≤ sub64 t (amount used dim).
Proof.
  unfold Fits. rewrite forallb_forall. split.
  - intros H dim w Hw. specialize (H (dim, w)). simpl in H.
    rewrite <-list_elem_of_In, elem_of_map_to_list in H. specialize (H Hw).
    destruct (total !! dim) as [t|]; [|done]. exists t. split; [done|].
    apply negb_true_iff, bool_decide_eq_false in H. lia.
  - intros H [dim w]. rewrite <-list_elem_of_In, elem_of_map_to_list. intros Hw.
    destruct (H dim w Hw) as (t & -> & Ht).
    apply negb_true_iff, bool_decide_eq_false. lia.
Qed.

(** With sane amounts a fit is a fit: nothing wraps. *)
Lemma Fits_exact total used want dim w :
  Fits total used want = true → want !! dim = Some w →
  vec_in64 total → vec_nonneg total →
  0 ≤ amount used dim → in64 (amount used dim) →
  ∃ t, total !! dim = Some t ∧ amount used dim + w ≤ t.
Proof.
  intros HF Hw Hin Hnn H0 Hi. rewrite Fits_spec in HF.
  destruct (HF _ _ Hw) as (t & Ht & Hle). exists t. split; [done|].
  specialize (Hin _ _ Ht). specialize (Hnn _ _ Ht). simpl in *.
  unfold sub64 in Hle. rewrite wrap64_id in Hle; [lia|]. in64.
Qed.

Lemma WantFromConstraints_pos col want :
  WantFromConstraints col = Ok want → vec_pos want.
Proof.
  unfold WantFromConstraints. destruct col as [|c|]; intros H; simplify_eq.
  - apply map_Forall_empty.
  - destruct (forallb _ _); simplify_eq. intros k z Hz.
    apply map_lookup_filter_Some in Hz. naive_solver.
Qed.

Lemma ParseRequest_pos col req want ex :
  ParseRequest col = Ok (req, want, ex) → vec_pos want.
Proof.
  unfold ParseRequest. intros H. repeat case_match; simplify_eq.
  all: eauto using WantFromConstraints_pos.
Qed.

(** A request without a dimensioned demand is for the whole machine. *)
Lemma ParseRequest_shared col req want :
  ParseRequest col = Ok (req, want, false) → want ≠ ∅.
Proof.
  unfold ParseRequest. intros H. repeat case_match; simplify_eq.
  all: match goal with H : _ || _ = false |- _ =>
         apply orb_false_iff in H as [_ H]; by apply bool_decide_eq_false in H end.
Qed.

Lemma amount_accumulate used lc dim :
  vec_in64 used → vec_in64 lc →
  amount (accumulate used lc) dim = add64 (amount used dim) (amount lc dim).
Proof.
  intros Hu Hl. unfold amount, accumulate, add64. rewrite lookup_union_with.
  destruct (used !! dim) as [a|] eqn:Ea, (lc !! dim) as [b|] eqn:Eb; simpl; try done.
  - rewrite Z.add_0_r, wrap64_id; [done|]. by apply Hu in Ea.
  - rewrite wrap64_id; [done|]. by apply Hl in Eb.
Qed.

Lemma accumulate_in64 used lc :
  vec_in64 used → vec_in64 lc → vec_in64 (accumulate used lc).
Proof.
  intros Hu Hl k z Hz. unfold accumulate in Hz. rewrite lookup_union_with in Hz.
  destruct (used !! k) as [a|] eqn:Ea, (lc !! k) as [b|] eqn:Eb; simpl in Hz;
    simplify_eq.
  - apply wrap64_range.
  - by apply Hu in Ea.
  - by apply Hl in Eb.
Qed.

(** The accumulated total, dimension by dimension. *)
Lemma amount_foldl l v dim :
  vec_in64 v → Forall vec_in64 l →
  amount (foldl accumulate v l) dim
  = wrap64 (amount v dim + zsum ((λ w, amount w dim) <$> l)) ∧
  vec_in64 (foldl accumulate v l).
Proof.
  intros Hv Hl. revert v Hv. induction Hl as [|w l Hw _ IH]; intros v Hv; simpl.
  - split; [|done]. rewrite Z.add_0_r, wrap64_id; [done|].
    unfold amount. destruct (v !! dim) eqn:E; simpl; [by apply Hv in E|in64].
  - destruct (IH (accumulate v w)) as [-> ?]; [by apply accumulate_in64|].
    split; [|done]. rewrite amount_accumulate by done. unfold add64.
    by rewrite wrap64_add_l, Z.add_assoc.
Qed.

Lemma amount_sum_vectors l dim :
  Forall vec_in64 l →
  amount (sum_vectors l) dim = wrap64 (zsum ((λ w, amount w dim) <$> l)).
Proof.
  intros Hl. destruct (amount_foldl l ∅ dim) as [H _]; [apply map_Forall_empty|done|].
  unfold sum_vectors. rewrite H. unfold amount. by rewrite lookup_empty.
Qed.

Lemma amount_pos want dim : vec_pos want → 0 ≤ amount want dim.
Proof.
  intros H. unfold amount. destruct (want !! dim) eqn:E; simpl; [|lia].
  specialize (H _ _ E). simpl in H. lia.
Qed.
