(* ===== verification/Billing.v ===== *)
(** * Billing windows (internal/billing/billing.go)

    The canonical [Paid] function, its discontinuities, the termination
    window, the adaptive buffer and the paid/useful accounting. Durations are
    int64 nanoseconds and wrap; Unix-millisecond timestamps are exact. *)

From stdpp Require Import base gmap strings list sorting sets.
From S2P Require Import Prelude Errors SDK.

Definition Paid (lifetime : Z) (p : BillingPolicy) : Z :=
  let lifetime := if decide (lifetime < 0) then 0 else lifetime in
  let billed :=
    if decide (0 < BillingIncrement p) then
      let n := Z.quot lifetime (BillingIncrement p) in
      let n := if decide (lifetime = 0 ∨ Z.rem lifetime (BillingIncrement p) ≠ 0)
               then add64 n 1 else n in
      let n := if decide (n = 0) then 1 else n in
      mul64 n (BillingIncrement p)
    else lifetime in
  if decide (billed < MinimumDuration p) then MinimumDuration p else billed.

(** The [for k := ...; ; k++] loop of [NextBoundary]; [None] is out of fuel. *)
Fixpoint boundary_loop (fuel : nat) (createdAtMs : Z) (p : BillingPolicy) (k : Z)
    : option Z :=
  match fuel with
  | O => None
  | S fuel =>
      let t := mul64 k (BillingIncrement p) in
      if decide (Paid (sub64 t Millisecond) p < Paid (add64 t Millisecond) p)
      then Some (createdAtMs + Milliseconds t)
      else if decide (add64 (MinimumDuration p) (BillingIncrement p) < t)
      then Some (createdAtMs + Milliseconds t)
      else boundary_loop fuel createdAtMs p (add64 k 1)
  end.

(** Enough iterations to pass the minimum ([boundary_loop_least]). *)
Definition boundary_fuel (p : BillingPolicy) : nat :=
  Z.to_nat (MinimumDuration p / BillingIncrement p + 2).

(** The time since creation, clamped at zero. *)
Definition elapsed_since (createdAtMs nowMs : Z) : Z :=
  let elapsed := mul64 (nowMs - createdAtMs) Millisecond in
  if decide (elapsed < 0) then 0 else elapsed.

(** [None] is Go's [ok = false]. *)
Definition NextBoundary (createdAtMs : Z) (p : BillingPolicy) (nowMs : Z) : option Z :=
  let elapsed := elapsed_since createdAtMs nowMs in
  if decide (0 < BillingIncrement p) then
    boundary_loop (boundary_fuel p) createdAtMs p
      (add64 (Z.quot elapsed (BillingIncrement p)) 1)
  else if decide (0 < MinimumDuration p ∧ elapsed < MinimumDuration p) then
    Some (createdAtMs + Milliseconds (MinimumDuration p))
  else None.

Definition EffectiveBuffer (p : BillingPolicy) (sweepInterval : Z) : Z :=
  let floor := add64 (mul64 2 sweepInterval) (5 * Second) in
  if decide (floor < TerminationBuffer p) then TerminationBuffer p else floor.

Record Window := MkWindow { BoundaryMs : Z; StartMs : Z; CutoffMs : Z }.

Definition TerminationWindow (createdAtMs : Z) (p : BillingPolicy) (nowMs buffer cutoff : Z)
    : option Window :=
  match NextBoundary createdAtMs p nowMs with
  | None => None
  | Some b =>
      let cutoff := if decide (cutoff ≤ 0 ∨ buffer < cutoff)
                    then Z.quot buffer 2 else cutoff in
      Some (MkWindow b (b - Milliseconds buffer) (b - Milliseconds cutoff))
  end.

Inductive Decision := Keep | Terminate | Crossed.
#[global] Instance Decision_eq_dec : EqDecision Decision.
Proof. solve_decision. Defined.

Definition Decide (w : Window) (nowMs : Z) : Decision :=
  if decide (nowMs < StartMs w) then Keep
  else if decide (nowMs ≤ CutoffMs w) then Terminate
  else Crossed.

Definition AdaptiveBuffer (observed : list Z) (floor margin cap : Z) : Z :=
  let buf :=
    match observed with
    | [] => floor
    | _ =>
        let s := merge_sort Z.le observed in
        let p95 := nth (Z.to_nat (Z.of_nat (length s) * 95 / 100)) s 0 in
        if decide (floor < add64 p95 margin) then add64 p95 margin else floor
    end in
  if decide (0 < cap ∧ cap < buf) then cap else buf.

Record Interval := MkInterval { iv_StartMs : Z; iv_EndMs : Z }.

(** Open and overlong spans end now. *)
Definition clip (nowMs : Z) (iv : Interval) : Interval :=
  if decide (iv_EndMs iv = 0 ∨ nowMs < iv_EndMs iv)
  then MkInterval (iv_StartMs iv) nowMs else iv.

(** The merge loop over the spans sorted by start. *)
Fixpoint merge_spans (total curStart curEnd : Z) (l : list Interval) : Z :=
  match l with
  | [] => total + (curEnd - curStart)
  | iv :: l =>
      if decide (curEnd < iv_StartMs iv)
      then merge_spans (total + (curEnd - curStart)) (iv_StartMs iv) (iv_EndMs iv) l
      else if decide (curEnd < iv_EndMs iv)
      then merge_spans total curStart (iv_EndMs iv) l
      else merge_spans total curStart curEnd l
  end.

Definition UsefulMillis (spans : list Interval) (nowMs : Z) : Z :=
  match order_by iv_StartMs (clip nowMs <$> spans) with
  | [] => 0
  | iv :: l =>
      let total := merge_spans 0 (iv_StartMs iv) (iv_EndMs iv) l in
      if decide (total < 0) then 0 else total
  end.

(** ** Where nothing wraps *)

(** A billing policy as providers state them: whole milliseconds, far below
    the int64 range (2^60 ns is more than 36 years). *)
Record sane_policy (p : BillingPolicy) : Prop := {
  sane_min : 0 ≤ MinimumDuration p ≤ 2 ^ 60;
  sane_inc : 0 ≤ BillingIncrement p ≤ 2 ^ 60;
  sane_min_ms : Z.rem (MinimumDuration p) Millisecond = 0;
  sane_inc_ms : Z.rem (BillingIncrement p) Millisecond = 0
}.

(** The rounded-up multiple of the increment a lifetime is billed for. *)
Definition round_up (x inc : Z) : Z :=
  if decide (x = 0) then inc else (x + inc - 1) / inc * inc.

Lemma round_up_bounds x inc : 0 < inc → 0 < x → x ≤ round_up x inc < x + inc.
Proof.
  intros Hi Hx. unfold round_up. case_decide; [lia|].
  pose proof (Z.div_mod (x + inc - 1) inc ltac:(lia)).
  pose proof (Z.mod_pos_bound (x + inc - 1) inc ltac:(lia)). nia.
Qed.

Lemma round_up_unique x inc k : 0 < inc → (k - 1) * inc < x ≤ k * inc → 0 < x →
  round_up x inc = k * inc.
Proof.
  intros Hi Hx Hp. pose proof (round_up_bounds x inc Hi Hp) as Hb.
  unfold round_up in *. case_decide; [lia|].
  set (q := (x + inc - 1) / inc) in *. f_equal. nia.
Qed.

(** [Paid] as docs/11 states it. *)
Lemma Paid_increment x p :
  0 < BillingIncrement p ≤ 2 ^ 61 → 0 ≤ x ≤ 2 ^ 62 →
  Paid x p = Z.max (MinimumDuration p) (round_up x (BillingIncrement p)).
Proof.
  intros Hi Hx. unfold Paid. set (inc := BillingIncrement p) in *.
  rewrite (decide_False (P := x < 0)), (decide_True (P := 0 < inc)) by lia.
  rewrite Z.quot_div_nonneg, Z.rem_mod_nonneg by lia.
  assert (Hn : mul64 (let n := if decide (x = 0 ∨ x mod inc ≠ 0)
      then add64 (x / inc) 1 else x / inc in if decide (n = 0) then 1 else n) inc
      = round_up x inc).
  { pose proof (Z.div_mod x inc ltac:(lia)) as Hd.
    pose proof (Z.mod_pos_bound x inc ltac:(lia)).
    assert (0 ≤ x / inc ≤ x) by (split; [apply Z.div_pos; lia|]; nia).
    simpl. destruct (decide (x = 0 ∨ x mod inc ≠ 0)) as [Hc|Hc].
    - unfold add64. rewrite (wrap64_id (x / inc + 1)) by in64.
      rewrite decide_False by lia. unfold mul64. rewrite wrap64_id by (in64 || nia).
      destruct (decide (x = 0)) as [->|].
      + unfold round_up. rewrite decide_True by done. rewrite Zdiv_0_l. ring.
      + symmetry. apply round_up_unique; [lia| |lia]. destruct Hc; [done|]. nia.
    - assert (x ≠ 0 ∧ x mod inc = 0) as [??] by lia.
      rewrite decide_False by nia. unfold mul64. rewrite wrap64_id by (in64 || nia).
      symmetry. apply round_up_unique; nia. }
  simpl in Hn. rewrite Hn. clear Hn. case_decide; lia.
Qed.

Lemma Paid_fine x p :
  BillingIncrement p ≤ 0 → 0 ≤ x → Paid x p = Z.max (MinimumDuration p) x.
Proof.
  intros Hi Hx. unfold Paid.
  rewrite (decide_False (P := x < 0)), (decide_False (P := 0 < _)) by lia.
  case_decide; lia.
Qed.

(** A negative lifetime is billed as zero. *)
Lemma Paid_neg x p : x < 0 → Paid x p = Paid 0 p.
Proof. intros Hx. unfold Paid. by rewrite (decide_True (P := x < 0)). Qed.

Lemma ms_exact d : Z.rem d Millisecond = 0 → d = Milliseconds d * Millisecond.
Proof.
  intros H. unfold Milliseconds, Millisecond in *.
  pose proof (Z.quot_rem d 1000000 ltac:(lia)). lia.
Qed.

(** The jump test of the loop, at a multiple of the increment, is exactly
    "the next increment passes the minimum". *)
Lemma jump_test k p :
  sane_policy p → 0 < BillingIncrement p → 1 ≤ k → k * BillingIncrement p ≤ 2 ^ 61 →
  let t := k * BillingIncrement p in
  (Paid (t - Millisecond) p < Paid (t + Millisecond) p
   ↔ MinimumDuration p < t + BillingIncrement p).
Proof.
  intros [Hm Hi _ Hims] Hpos Hk Hle t.
  pose proof (ms_exact _ Hims) as He. unfold Millisecond in *.
  set (inc := BillingIncrement p) in *. set (m := Milliseconds inc) in *.
  assert (1 ≤ m) by lia. assert (inc ≤ t) by nia.
  assert (Hhi : Paid (t + 1000000) p = Z.max (MinimumDuration p) (t + inc)).
  { rewrite Paid_increment by (unfold inc in *; lia). fold inc. f_equal.
    rewrite (round_up_unique _ inc (k + 1)); nia. }
  assert (Hlo : Paid (t - 1000000) p ≤ Z.max (MinimumDuration p) t).
  { destruct (decide (t - 1000000 = 0)) as [E|E].
    - rewrite E, Paid_increment by (unfold inc in *; lia). fold inc.
      unfold round_up. rewrite decide_True by done. lia.
    - rewrite Paid_increment by (unfold inc in *; lia). fold inc.
      pose proof (round_up_bounds (t - 1000000) inc ltac:(lia) ltac:(lia)).
      assert (round_up (t - 1000000) inc ≤ t); [|lia].
      unfold round_up in *. rewrite decide_False in * by done.
      set (q := (t - 1000000 + inc - 1) / inc) in *. assert (q ≤ k) by nia. nia. }
  assert (Hlo' : MinimumDuration p ≤ Paid (t - 1000000) p).
  { rewrite Paid_increment by (unfold inc in *; lia). lia. }
  rewrite Hhi. lia.
Qed.

(** The loop terminates within its fuel and stops at the first multiple of
    the increment, from [k] on, whose successor passes the minimum. *)
Lemma boundary_loop_least fuel created p k :
  sane_policy p → 0 < BillingIncrement p → 1 ≤ k → k * BillingIncrement p ≤ 2 ^ 61 →
  MinimumDuration p < (k + Z.of_nat fuel) * BillingIncrement p → (0 < fuel)%nat →
  ∃ k', k ≤ k' ∧ MinimumDuration p < (k' + 1) * BillingIncrement p ∧
    (k < k' → k' * BillingIncrement p ≤ MinimumDuration p) ∧
    boundary_loop fuel created p k = Some (created + Milliseconds (k' * BillingIncrement p)).
Proof.
  intros Hs Hpos. pose proof (sane_min _ Hs). pose proof (sane_inc _ Hs).
  pose proof (ms_exact _ (sane_inc_ms _ Hs)) as He.
  revert k. induction fuel as [|fuel IH]; intros k Hk Hle Hf Hf0; [lia|].
  assert (k ≤ k * BillingIncrement p) by nia.
  assert (Millisecond ≤ BillingIncrement p).
  { unfold Millisecond in *. lia. }
  assert (BillingIncrement p ≤ k * BillingIncrement p) by nia.
  cbn [boundary_loop]. unfold mul64, sub64, add64.
  rewrite (wrap64_id (k * _)) by in64.
  rewrite !(wrap64_id (k * _ - _)), !(wrap64_id (k * _ + _))
    by (unfold Millisecond in *; in64).
  pose proof (jump_test k p Hs Hpos Hk Hle) as Hj. simpl in Hj.
  destruct (decide (Paid _ p < Paid _ p)) as [HP|HP].
  - exists k. apply Hj in HP. repeat split; try lia.
  - assert (k * BillingIncrement p + BillingIncrement p ≤ MinimumDuration p) by lia.
    rewrite wrap64_id by in64. rewrite decide_False by lia.
    rewrite wrap64_id by in64. destruct fuel as [|fuel']; [lia|].
    destruct (IH (k + 1)) as (k' & ? & ? & Hk' & ->); [lia..|].
    exists k'. repeat split; try lia. intros _.
    destruct (decide (k' = k + 1)) as [->|]; [lia|apply Hk'; lia].
Qed.

(** The instants a boundary computation is asked about: created and now are
    within 2^60 ns of one another. *)
Definition sane_span (createdAtMs nowMs : Z) : Prop :=
  0 ≤ nowMs - createdAtMs ∧ (nowMs - createdAtMs) * Millisecond ≤ 2 ^ 60.

Lemma elapsed_sane c n : sane_span c n → elapsed_since c n = (n - c) * Millisecond.
Proof.
  intros [H1 H2]. unfold elapsed_since, mul64, Millisecond in *.
  rewrite wrap64_id by in64. rewrite decide_False; lia.
Qed.

Lemma Milliseconds_mul x : Milliseconds (x * Millisecond) = x.
Proof. unfold Milliseconds, Millisecond. apply Z.quot_mul. lia. Qed.

(** What [NextBoundary] computes when the policy has an increment. *)
Lemma NextBoundary_increment created p now :
  sane_policy p → 0 < BillingIncrement p → sane_span created now →
  let e := (now - created) * Millisecond in
  let inc := BillingIncrement p in
  ∃ k, NextBoundary created p now = Some (created + Milliseconds (k * inc)) ∧
    e / inc + 1 ≤ k ∧ MinimumDuration p < (k + 1) * inc ∧
    (e / inc + 1 < k → k * inc ≤ MinimumDuration p).
Proof.
  intros Hs Hpos Hsp e inc. pose proof (sane_min _ Hs). pose proof (sane_inc _ Hs).
  unfold NextBoundary. rewrite elapsed_sane by done. fold e. destruct Hsp as [H1 H2].
  assert (0 ≤ e ≤ 2 ^ 60) by (unfold e, Millisecond in *; lia).
  rewrite decide_True by done. rewrite Z.quot_div_nonneg by lia. fold inc.
  pose proof (Z.div_mod e inc ltac:(lia)) as Hd.
  pose proof (Z.mod_pos_bound e inc ltac:(lia)).
  assert (0 ≤ e / inc) by (apply Z.div_pos; lia).
  assert (e / inc * inc ≤ e) by nia.
  unfold add64. rewrite wrap64_id by (in64 || nia).
  destruct (boundary_loop_least (boundary_fuel p) created p (e / inc + 1))
    as (k & Hk1 & Hk2 & Hk3 & ->); [done|done|lia|fold inc; lia| | |].
  - unfold boundary_fuel. fold inc.
    pose proof (Z.div_mod (MinimumDuration p) inc ltac:(lia)).
    pose proof (Z.mod_pos_bound (MinimumDuration p) inc ltac:(lia)).
    assert (0 ≤ MinimumDuration p / inc) by (apply Z.div_pos; lia).
    rewrite Z2Nat.id by lia. nia.
  - unfold boundary_fuel.
    assert (0 ≤ MinimumDuration p / BillingIncrement p) by (apply Z.div_pos; lia). lia.
  - exists k. auto.
Qed.

(** Past the boundary of an increment policy [Paid] jumps, up to it [Paid] is
    flat. *)
Lemma boundary_flat e inc k p x :
  0 < inc → inc = BillingIncrement p → sane_policy p → 0 ≤ e →
  e / inc + 1 ≤ k → (e / inc + 1 < k → k * inc ≤ MinimumDuration p) →
  k * inc ≤ 2 ^ 62 → e < x ≤ k * inc → Paid x p = Paid (k * inc) p.
Proof.
  intros Hi -> Hs He Hk Hmin Hle Hx. pose proof (sane_inc _ Hs).
  pose proof (sane_min _ Hs). set (inc := BillingIncrement p) in *.
  pose proof (Z.div_mod e inc ltac:(lia)). pose proof (Z.mod_pos_bound e inc ltac:(lia)).
  rewrite !Paid_increment by (fold inc; lia). fold inc.
  rewrite (round_up_unique (k * inc) inc k) by nia.
  destruct (decide (k = e / inc + 1)) as [->|].
  - rewrite (round_up_unique x inc (e / inc + 1)) by nia. done.
  - pose proof (round_up_bounds x inc Hi ltac:(lia)).
    assert (round_up x inc ≤ k * inc); [|lia].
    unfold round_up in *. rewrite decide_False in * by lia.
    set (q := (x + inc - 1) / inc) in *. assert (q ≤ k) by nia. nia.
Qed.

(** The boundary is the next instant strictly after now at which the bill
    increases: [Paid] is constant from now up to the boundary and strictly
    larger at every later lifetime; without a boundary the bill is
    fine-grained (it follows the lifetime exactly). *)
Theorem NextBoundary_next created p now :
  sane_policy p → sane_span created now →
  let e := (now - created) * Millisecond in
  match NextBoundary created p now with
  | Some b =>
      let t := (b - created) * Millisecond in
      now < b ∧ (∀ x, e < x ≤ t → Paid x p = Paid t p) ∧
      (∀ x, t < x ≤ 2 ^ 62 → Paid t p < Paid x p)
  | None => ∀ x, e ≤ x ≤ 2 ^ 62 → Paid x p = x
  end.
Proof.
  intros Hs Hsp e. pose proof (sane_min _ Hs). pose proof (sane_inc _ Hs).
  assert (0 ≤ e ≤ 2 ^ 60) by (destruct Hsp; unfold e, Millisecond in *; lia).
  destruct (decide (0 < BillingIncrement p)) as [Hpos|Hpos].
  - destruct (NextBoundary_increment created p now Hs Hpos Hsp) as (k & -> & Hk & Hj & Hm).
    fold e in Hk, Hm |- *. set (inc := BillingIncrement p) in *.
    pose proof (Z.div_mod e inc ltac:(lia)). pose proof (Z.mod_pos_bound e inc ltac:(lia)).
    assert (Ht : (created + Milliseconds (k * inc) - created) * Millisecond = k * inc).
    { assert (Hki : k * inc = k * Milliseconds inc * Millisecond).
      { rewrite (ms_exact inc (sane_inc_ms _ Hs)) at 1. apply Z.mul_assoc. }
      rewrite Hki, Milliseconds_mul. lia. }
    simpl. rewrite Ht. assert (k * inc ≤ 2 ^ 61).
    { destruct (decide (e / inc + 1 < k)) as [Hlt|]; [specialize (Hm Hlt); lia|nia]. }
    split; [|split].
    + assert (e < k * inc) by nia. unfold e in *. unfold Millisecond in *. lia.
    + intros x Hx. apply (boundary_flat e inc); auto; lia.
    + intros x Hx. rewrite !Paid_increment by (fold inc; nia). fold inc.
      rewrite (round_up_unique (k * inc) inc k) by nia.
      pose proof (round_up_bounds x inc Hpos ltac:(nia)) as Hb.
      assert ((k + 1) * inc ≤ round_up x inc); [|lia].
      unfold round_up in *. rewrite decide_False in * by nia.
      set (q := (x + inc - 1) / inc) in *. assert (k + 1 ≤ q) by nia. nia.
  - unfold NextBoundary. rewrite elapsed_sane by done. fold e.
    rewrite (decide_False (P := 0 < BillingIncrement p)) by done. case_decide as Hc.
    + simpl. replace ((created + Milliseconds (MinimumDuration p) - created) * Millisecond)
        with (MinimumDuration p)
        by (rewrite (ms_exact _ (sane_min_ms _ Hs)) at 1; lia).
      pose proof (ms_exact _ (sane_min_ms _ Hs)).
      split; [unfold e, Millisecond in *; lia|].
      split; intros x Hx; rewrite !Paid_fine by lia; lia.
    + intros x Hx. rewrite Paid_fine by lia. lia.
Qed.

Definition hourly : BillingPolicy := MkBilling (2 * Hour) Hour Minute.
Lemma hourly_sane : sane_policy hourly.
Proof. split; vm_compute; intuition congruence. Defined.
Lemma NextBoundary_next_witness :
  NextBoundary 1000 hourly 61000 = Some 7201000 ∧
  Paid (Hour + Millisecond) hourly = Paid (7200000 * Millisecond) hourly.
Proof.
  assert (Hb : NextBoundary 1000 hourly 61000 = Some 7201000) by (vm_compute; reflexivity).
  split; [exact Hb|].
  pose proof (NextBoundary_next 1000 hourly 61000 hourly_sane
    ltac:(split; vm_compute; congruence)) as H.
  cbv zeta in H. rewrite Hb in H. destruct H as (_ & H & _).
  change (7200000 * Millisecond) with ((7201000 - 1000) * Millisecond). apply H.
  split; vm_compute; congruence.
Defined.

Lemma Milliseconds_mono c d : 0 ≤ c ≤ d → 0 ≤ Milliseconds c ≤ Milliseconds d.
Proof.
  intros H. unfold Milliseconds, Millisecond. rewrite !Z.quot_div_nonneg by lia.
  split; [apply Z.div_pos; lia|apply Z.div_le_mono; lia].
Qed.

(** ** The useful time is the measure of the union of the spans *)

(** The milliseconds [s, e). *)
Definition ms_span (s e : Z) : gset Z := list_to_set (seqZ s (e - s)).
Definition ms_union (l : list Interval) : gset Z :=
  ⋃ ((λ iv, ms_span (iv_StartMs iv) (iv_EndMs iv)) <$> l).

Lemma elem_of_ms_span t s e : t ∈ ms_span s e ↔ s ≤ t < e.
Proof. unfold ms_span. rewrite elem_of_list_to_set, elem_of_seqZ. lia. Qed.

Lemma size_ms_span s e : s ≤ e → Z.of_nat (size (ms_span s e)) = e - s.
Proof.
  intros H. unfold ms_span. rewrite size_list_to_set by apply NoDup_seqZ.
  rewrite length_seqZ. lia.
Qed.

Lemma elem_of_ms_union t l :
  t ∈ ms_union l ↔ ∃ iv, iv ∈ l ∧ iv_StartMs iv ≤ t < iv_EndMs iv.
Proof.
  unfold ms_union. rewrite elem_of_union_list. split.
  - intros (X & HX & Ht). apply list_elem_of_fmap in HX as (iv & -> & Hiv).
    exists iv. by rewrite <-elem_of_ms_span.
  - intros (iv & Hiv & Ht). eexists. split; [apply list_elem_of_fmap; eauto|].
    by apply elem_of_ms_span.
Qed.

Definition wf_span (iv : Interval) : Prop := iv_StartMs iv ≤ iv_EndMs iv.

(** The merge loop adds, to the total so far, the measure of the current span
    and the remaining ones. *)
Lemma merge_spans_measure l total s e :
  s ≤ e → Forall wf_span l → Sorted (by_key iv_StartMs) l →
  Forall (λ iv, s ≤ iv_StartMs iv) l →
  merge_spans total s e l = total + Z.of_nat (size (ms_span s e ∪ ms_union l)).
Proof.
  revert total s e. induction l as [|iv l IH]; intros total s e Hse Hwf Hsrt Hs; simpl.
  - unfold ms_union. simpl. rewrite union_empty_r_L, size_ms_span; lia.
  - apply Forall_cons in Hwf as [Hiv Hwf]. apply Forall_cons in Hs as [Hsiv Hs].
    apply Sorted_StronglySorted in Hsrt; [|intros ???; unfold by_key; lia].
    apply StronglySorted_inv in Hsrt as [Hsrt Hall].
    apply StronglySorted_Sorted in Hsrt. unfold by_key in Hall.
    assert (Hu : ms_union (iv :: l) = ms_span (iv_StartMs iv) (iv_EndMs iv) ∪ ms_union l)
      by done.
    rewrite Hu. unfold wf_span in Hiv. repeat case_decide.
    + rewrite IH by done. rewrite (size_union (ms_span s e)).
      { rewrite Nat2Z.inj_add, size_ms_span by done. lia. }
      apply elem_of_disjoint. intros t. rewrite elem_of_union, !elem_of_ms_span, elem_of_ms_union.
      rewrite Forall_forall in Hall. intros Ht [?|(i & Hi & ?)]; [lia|].
      specialize (Hall _ Hi). lia.
    + rewrite IH by (done || lia). do 3 f_equal. apply set_eq. intros t.
      rewrite !elem_of_union, !elem_of_ms_span. destruct (decide (t < e)); intuition lia.
    + rewrite IH by (done || lia). do 3 f_equal. apply set_eq. intros t.
      rewrite !elem_of_union, !elem_of_ms_span. destruct (decide (t < e)); intuition lia.
Qed.



(** ** The termination window and the buffers *)

(** The three decisions partition time at the window: before the start the
    machine is kept, a delete is dispatched only between start and cutoff,
    never after the boundary, and past the cutoff the boundary is given up. *)
Theorem TerminationWindow_decides created p now buffer cutoff w :
  sane_policy p → sane_span created now →
  2 * Millisecond ≤ buffer →
  TerminationWindow created p now buffer cutoff = Some w →
  now < BoundaryMs w ∧ StartMs w ≤ CutoffMs w ≤ BoundaryMs w ∧
  (Decide w now = Keep ↔ now < StartMs w) ∧
  (Decide w now = Terminate ↔ StartMs w ≤ now ≤ CutoffMs w) ∧
  (Decide w now = Crossed ↔ CutoffMs w < now).
Proof.
  intros Hs Hsp Hb Hw. unfold TerminationWindow in Hw.
  pose proof (NextBoundary_next created p now Hs Hsp) as Hn.
  destruct (NextBoundary created p now) as [b|]; simplify_eq/=. cbv zeta in Hn.
  destruct Hn as [Hn _].
  set (c := if decide (cutoff ≤ 0 ∨ buffer < cutoff) then Z.quot buffer 2 else cutoff).
  assert (Hc : 0 ≤ c ≤ buffer).
  { unfold c. case_decide; [|lia]. unfold Millisecond in *.
    rewrite Z.quot_div_nonneg by lia. split; [apply Z.div_pos; lia|].
    apply Z.div_le_upper_bound; lia. }
  pose proof (Milliseconds_mono _ _ Hc) as Hm. unfold Decide. simpl.
  repeat case_decide; repeat split; intros; try lia; try discriminate; try done;
    exfalso; lia.
Qed.

(** With the kernel's buffer floor the window is wide enough that a sweep
    running at the configured interval cannot step over it. *)
Theorem EffectiveBuffer_window_hit created p now interval w :
  sane_policy p → 0 ≤ interval ≤ 2 ^ 60 → TerminationBuffer p ≤ 2 ^ 62 →
  TerminationWindow created p now (EffectiveBuffer p interval) 0 = Some w →
  StartMs w + Milliseconds interval < CutoffMs w.
Proof.
  intros Hs Hi Ht Hw. unfold TerminationWindow in Hw.
  destruct (NextBoundary created p now) as [b|]; simplify_eq/=.
  set (B := EffectiveBuffer p interval) in *.
  assert (HB : 2 * interval + 5 * Second ≤ B ≤ 2 ^ 62).
  { unfold B, EffectiveBuffer, add64, mul64, Second.
    rewrite (wrap64_id (2 * interval)) by in64. rewrite wrap64_id by in64.
    case_decide; lia. }
  clearbody B. unfold Milliseconds, Second, Millisecond in *.
  rewrite !(Z.quot_div_nonneg B), !Z.quot_div_nonneg by (try apply Z.div_pos; lia).
  pose proof (Z.div_mod B 2 ltac:(lia)). pose proof (Z.mod_pos_bound B 2 ltac:(lia)).
  assert (interval / 1000000 + 2000 ≤ B / 2 / 1000000).
  { rewrite <-(Z.div_add _ 2000) by lia. apply Z.div_le_mono; lia. }
  assert (2 * (B / 2 / 1000000) ≤ B / 1000000).
  { rewrite Z.div_div by lia. replace (2 * 1000000) with (1000000 * 2) by lia.
    rewrite <-Z.div_div by lia. pose proof (Z.mul_div_le (B / 1000000) 2). lia. }
  lia.
Qed.

Lemma EffectiveBuffer_window_hit_witness :
  ∃ w, TerminationWindow 0 hourly 61000 (EffectiveBuffer hourly (15 * Second)) 0 = Some w ∧
    StartMs w + 15000 < CutoffMs w.
Proof.
  eexists. split; [vm_compute; reflexivity|].
  apply (EffectiveBuffer_window_hit 0 hourly 61000 (15 * Second) _ hourly_sane
    ltac:(split; vm_compute; congruence) ltac:(vm_compute; congruence)).
  vm_compute. reflexivity.
Defined.

Lemma TerminationWindow_decides_witness :
  TerminationWindow 0 hourly 7150000 Minute 0 = Some (MkWindow 7200000 7140000 7170000) ∧
  Decide (MkWindow 7200000 7140000 7170000) 7150000 = Terminate.
Proof.
  assert (Hw : TerminationWindow 0 hourly 7150000 Minute 0
    = Some (MkWindow 7200000 7140000 7170000)) by (vm_compute; reflexivity).
  split; [exact Hw|].
  apply (TerminationWindow_decides 0 hourly 7150000 Minute 0 _ hourly_sane
    ltac:(split; vm_compute; congruence) ltac:(vm_compute; congruence) Hw).
  split; vm_compute; congruence.
Defined.
