(* ===== verification/Types.v ===== *)
(** * Storage types (internal/storage/types.go) and the world

    The persisted records, the database they live in, and the world the
    transactions run in. Every table is a finite map from its primary key.
    JSON columns hold the value they decode to ([jcol]) when the program
    writes them, a document ([raw]) when a user does, and text when nothing
    reads them back. The [with_] functions are Go's field assignments. *)

From stdpp Require Import base gmap strings list.
From S2P Require Import Prelude Errors Json Phase SDK Capacity.

Inductive Ownership := OwnershipManaged | OwnershipAdopted | OwnershipObserved.
#[global] Instance Ownership_eq_dec : EqDecision Ownership.
Proof. solve_decision. Defined.

Inductive OpState :=
| OpJournaled | OpInFlight | OpExternalAccepted | OpVerifying | OpUncertain
| OpSucceeded | OpFailed | OpAborted.
#[global] Instance OpState_eq_dec : EqDecision OpState.
Proof. solve_decision. Defined.

Definition Terminal (s : OpState) : bool :=
  bool_decide (s = OpSucceeded) || bool_decide (s = OpFailed) || bool_decide (s = OpAborted).

Inductive OpKind := OpKindCreate | OpKindDelete | OpKindStop | OpKindStart.
#[global] Instance OpKind_eq_dec : EqDecision OpKind.
Proof. solve_decision. Defined.

Inductive LeaseState := LeaseActive | LeaseReleased | LeaseExpired.
#[global] Instance LeaseState_eq_dec : EqDecision LeaseState.
Proof. solve_decision. Defined.

Inductive AcqState :=
| AcqPending | AcqProvisioning | AcqBound | AcqFailed | AcqReleased | AcqExpired.
#[global] Instance AcqState_eq_dec : EqDecision AcqState.
Proof. solve_decision. Defined.

Inductive IdemState := IdemInProgress | IdemCompleted | IdemFailed.
#[global] Instance IdemState_eq_dec : EqDecision IdemState.
Proof. solve_decision. Defined.

Inductive BeginOutcome := BeginNew | BeginInProgress | BeginCompleted | BeginMismatch.
#[global] Instance BeginOutcome_eq_dec : EqDecision BeginOutcome.
Proof. solve_decision. Defined.

(** [Resource]; times are Unix milliseconds, labels live in resource_labels. *)
Record Resource := MkResource {
  r_ID : string;
  r_Name : string;
  r_Kind : string;
  r_Provider : string;
  r_Class : string;
  r_PoolID : option string;
  r_Ownership : Ownership;
  r_Phase : Phase;
  r_ExternalID : option string;
  r_ExternalRef : jcol ExternalRef;
  r_Generation : Z;
  r_ObservedGeneration : Z;
  r_Spec : raw;
  r_Extension : option json;
  r_Capacity : jcol Vector;
  r_ExclusiveAlloc : bool;
  r_DeleteProtected : bool;
  r_Labels : gmap string string;
  r_ReadyAt : option Z;
  r_LastLeaseEndedAt : option Z;
  r_DrainStartedAt : option Z;
  r_ParkedAt : option Z;
  r_CreatedAt : Z;
  r_UpdatedAt : Z;
  r_DeletedAt : option Z
}.

Definition with_r_Name (v : string) (x : Resource) : Resource := MkResource (r_ID x) v
    (r_Kind x) (r_Provider x) (r_Class x) (r_PoolID x) (r_Ownership x) (r_Phase x)
    (r_ExternalID x) (r_ExternalRef x) (r_Generation x) (r_ObservedGeneration x) (r_Spec x)
    (r_Extension x) (r_Capacity x) (r_ExclusiveAlloc x) (r_DeleteProtected x) (r_Labels x)
    (r_ReadyAt x) (r_LastLeaseEndedAt x) (r_DrainStartedAt x) (r_ParkedAt x) (r_CreatedAt x)
    (r_UpdatedAt x) (r_DeletedAt x).
Definition with_r_PoolID (v : option string) (x : Resource) : Resource := MkResource (r_ID
    x) (r_Name x) (r_Kind x) (r_Provider x) (r_Class x) v (r_Ownership x) (r_Phase x)
    (r_ExternalID x) (r_ExternalRef x) (r_Generation x) (r_ObservedGeneration x) (r_Spec x)
    (r_Extension x) (r_Capacity x) (r_ExclusiveAlloc x) (r_DeleteProtected x) (r_Labels x)
    (r_ReadyAt x) (r_LastLeaseEndedAt x) (r_DrainStartedAt x) (r_ParkedAt x) (r_CreatedAt x)
    (r_UpdatedAt x) (r_DeletedAt x).
Definition with_r_Phase (v : Phase) (x : Resource) : Resource := MkResource (r_ID x) (r_Name
    x) (r_Kind x) (r_Provider x) (r_Class x) (r_PoolID x) (r_Ownership x) v (r_ExternalID x)
    (r_ExternalRef x) (r_Generation x) (r_ObservedGeneration x) (r_Spec x) (r_Extension x)
    (r_Capacity x) (r_ExclusiveAlloc x) (r_DeleteProtected x) (r_Labels x) (r_ReadyAt x)
    (r_LastLeaseEndedAt x) (r_DrainStartedAt x) (r_ParkedAt x) (r_CreatedAt x) (r_UpdatedAt
    x) (r_DeletedAt x).
Definition with_r_ExternalID (v : option string) (x : Resource) : Resource := MkResource
    (r_ID x) (r_Name x) (r_Kind x) (r_Provider x) (r_Class x) (r_PoolID x) (r_Ownership x)
    (r_Phase x) v (r_ExternalRef x) (r_Generation x) (r_ObservedGeneration x) (r_Spec x)
    (r_Extension x) (r_Capacity x) (r_ExclusiveAlloc x) (r_DeleteProtected x) (r_Labels x)
    (r_ReadyAt x) (r_LastLeaseEndedAt x) (r_DrainStartedAt x) (r_ParkedAt x) (r_CreatedAt x)
    (r_UpdatedAt x) (r_DeletedAt x).
Definition with_r_ExternalRef (v : jcol ExternalRef) (x : Resource) : Resource := MkResource
    (r_ID x) (r_Name x) (r_Kind x) (r_Provider x) (r_Class x) (r_PoolID x) (r_Ownership x)
    (r_Phase x) (r_ExternalID x) v (r_Generation x) (r_ObservedGeneration x) (r_Spec x)
    (r_Extension x) (r_Capacity x) (r_ExclusiveAlloc x) (r_DeleteProtected x) (r_Labels x)
    (r_ReadyAt x) (r_LastLeaseEndedAt x) (r_DrainStartedAt x) (r_ParkedAt x) (r_CreatedAt x)
    (r_UpdatedAt x) (r_DeletedAt x).
Definition with_r_ObservedGeneration (v : Z) (x : Resource) : Resource := MkResource (r_ID
    x) (r_Name x) (r_Kind x) (r_Provider x) (r_Class x) (r_PoolID x) (r_Ownership x)
    (r_Phase x) (r_ExternalID x) (r_ExternalRef x) (r_Generation x) v (r_Spec x)
    (r_Extension x) (r_Capacity x) (r_ExclusiveAlloc x) (r_DeleteProtected x) (r_Labels x)
    (r_ReadyAt x) (r_LastLeaseEndedAt x) (r_DrainStartedAt x) (r_ParkedAt x) (r_CreatedAt x)
    (r_UpdatedAt x) (r_DeletedAt x).
Definition with_r_Generation (v : Z) (x : Resource) : Resource := MkResource (r_ID x)
    (r_Name x) (r_Kind x) (r_Provider x) (r_Class x) (r_PoolID x) (r_Ownership x) (r_Phase
    x) (r_ExternalID x) (r_ExternalRef x) v (r_ObservedGeneration x) (r_Spec x) (r_Extension
    x) (r_Capacity x) (r_ExclusiveAlloc x) (r_DeleteProtected x) (r_Labels x) (r_ReadyAt x)
    (r_LastLeaseEndedAt x) (r_DrainStartedAt x) (r_ParkedAt x) (r_CreatedAt x) (r_UpdatedAt
    x) (r_DeletedAt x).
Definition with_r_Spec (v : raw) (x : Resource) : Resource := MkResource (r_ID x) (r_Name x)
    (r_Kind x) (r_Provider x) (r_Class x) (r_PoolID x) (r_Ownership x) (r_Phase x)
    (r_ExternalID x) (r_ExternalRef x) (r_Generation x) (r_ObservedGeneration x) v
    (r_Extension x) (r_Capacity x) (r_ExclusiveAlloc x) (r_DeleteProtected x) (r_Labels x)
    (r_ReadyAt x) (r_LastLeaseEndedAt x) (r_DrainStartedAt x) (r_ParkedAt x) (r_CreatedAt x)
    (r_UpdatedAt x) (r_DeletedAt x).
Definition with_r_Extension (v : option json) (x : Resource) : Resource := MkResource
    (r_ID x) (r_Name x) (r_Kind x) (r_Provider x) (r_Class x) (r_PoolID x) (r_Ownership x)
    (r_Phase x) (r_ExternalID x) (r_ExternalRef x) (r_Generation x) (r_ObservedGeneration x)
    (r_Spec x) v (r_Capacity x) (r_ExclusiveAlloc x) (r_DeleteProtected x) (r_Labels x)
    (r_ReadyAt x) (r_LastLeaseEndedAt x) (r_DrainStartedAt x) (r_ParkedAt x) (r_CreatedAt x)
    (r_UpdatedAt x) (r_DeletedAt x).
Definition with_r_Capacity (v : jcol Vector) (x : Resource) : Resource := MkResource (r_ID
    x) (r_Name x) (r_Kind x) (r_Provider x) (r_Class x) (r_PoolID x) (r_Ownership x)
    (r_Phase x) (r_ExternalID x) (r_ExternalRef x) (r_Generation x) (r_ObservedGeneration x)
    (r_Spec x) (r_Extension x) v (r_ExclusiveAlloc x) (r_DeleteProtected x) (r_Labels x)
    (r_ReadyAt x) (r_LastLeaseEndedAt x) (r_DrainStartedAt x) (r_ParkedAt x) (r_CreatedAt x)
    (r_UpdatedAt x) (r_DeletedAt x).
Definition with_r_DeleteProtected (v : bool) (x : Resource) : Resource := MkResource (r_ID
    x) (r_Name x) (r_Kind x) (r_Provider x) (r_Class x) (r_PoolID x) (r_Ownership x)
    (r_Phase x) (r_ExternalID x) (r_ExternalRef x) (r_Generation x) (r_ObservedGeneration x)
    (r_Spec x) (r_Extension x) (r_Capacity x) (r_ExclusiveAlloc x) v (r_Labels x) (r_ReadyAt
    x) (r_LastLeaseEndedAt x) (r_DrainStartedAt x) (r_ParkedAt x) (r_CreatedAt x)
    (r_UpdatedAt x) (r_DeletedAt x).
Definition with_r_Labels (v : gmap string string) (x : Resource) : Resource := MkResource
    (r_ID x) (r_Name x) (r_Kind x) (r_Provider x) (r_Class x) (r_PoolID x) (r_Ownership x)
    (r_Phase x) (r_ExternalID x) (r_ExternalRef x) (r_Generation x) (r_ObservedGeneration x)
    (r_Spec x) (r_Extension x) (r_Capacity x) (r_ExclusiveAlloc x) (r_DeleteProtected x) v
    (r_ReadyAt x) (r_LastLeaseEndedAt x) (r_DrainStartedAt x) (r_ParkedAt x) (r_CreatedAt x)
    (r_UpdatedAt x) (r_DeletedAt x).
Definition with_r_ReadyAt (v : option Z) (x : Resource) : Resource := MkResource (r_ID x)
    (r_Name x) (r_Kind x) (r_Provider x) (r_Class x) (r_PoolID x) (r_Ownership x) (r_Phase
    x) (r_ExternalID x) (r_ExternalRef x) (r_Generation x) (r_ObservedGeneration x) (r_Spec
    x) (r_Extension x) (r_Capacity x) (r_ExclusiveAlloc x) (r_DeleteProtected x) (r_Labels
    x) v (r_LastLeaseEndedAt x) (r_DrainStartedAt x) (r_ParkedAt x) (r_CreatedAt x)
    (r_UpdatedAt x) (r_DeletedAt x).
Definition with_r_LastLeaseEndedAt (v : option Z) (x : Resource) : Resource := MkResource
    (r_ID x) (r_Name x) (r_Kind x) (r_Provider x) (r_Class x) (r_PoolID x) (r_Ownership x)
    (r_Phase x) (r_ExternalID x) (r_ExternalRef x) (r_Generation x) (r_ObservedGeneration x)
    (r_Spec x) (r_Extension x) (r_Capacity x) (r_ExclusiveAlloc x) (r_DeleteProtected x)
    (r_Labels x) (r_ReadyAt x) v (r_DrainStartedAt x) (r_ParkedAt x) (r_CreatedAt x)
    (r_UpdatedAt x) (r_DeletedAt x).
Definition with_r_DrainStartedAt (v : option Z) (x : Resource) : Resource := MkResource
    (r_ID x) (r_Name x) (r_Kind x) (r_Provider x) (r_Class x) (r_PoolID x) (r_Ownership x)
    (r_Phase x) (r_ExternalID x) (r_ExternalRef x) (r_Generation x) (r_ObservedGeneration x)
    (r_Spec x) (r_Extension x) (r_Capacity x) (r_ExclusiveAlloc x) (r_DeleteProtected x)
    (r_Labels x) (r_ReadyAt x) (r_LastLeaseEndedAt x) v (r_ParkedAt x) (r_CreatedAt x)
    (r_UpdatedAt x) (r_DeletedAt x).
Definition with_r_ParkedAt (v : option Z) (x : Resource) : Resource := MkResource (r_ID x)
    (r_Name x) (r_Kind x) (r_Provider x) (r_Class x) (r_PoolID x) (r_Ownership x) (r_Phase
    x) (r_ExternalID x) (r_ExternalRef x) (r_Generation x) (r_ObservedGeneration x) (r_Spec
    x) (r_Extension x) (r_Capacity x) (r_ExclusiveAlloc x) (r_DeleteProtected x) (r_Labels
    x) (r_ReadyAt x) (r_LastLeaseEndedAt x) (r_DrainStartedAt x) v (r_CreatedAt x)
    (r_UpdatedAt x) (r_DeletedAt x).
Definition with_r_UpdatedAt (v : Z) (x : Resource) : Resource := MkResource (r_ID x) (r_Name
    x) (r_Kind x) (r_Provider x) (r_Class x) (r_PoolID x) (r_Ownership x) (r_Phase x)
    (r_ExternalID x) (r_ExternalRef x) (r_Generation x) (r_ObservedGeneration x) (r_Spec x)
    (r_Extension x) (r_Capacity x) (r_ExclusiveAlloc x) (r_DeleteProtected x) (r_Labels x)
    (r_ReadyAt x) (r_LastLeaseEndedAt x) (r_DrainStartedAt x) (r_ParkedAt x) (r_CreatedAt x)
    v (r_DeletedAt x).
Definition with_r_DeletedAt (v : option Z) (x : Resource) : Resource := MkResource (r_ID x)
    (r_Name x) (r_Kind x) (r_Provider x) (r_Class x) (r_PoolID x) (r_Ownership x) (r_Phase
    x) (r_ExternalID x) (r_ExternalRef x) (r_Generation x) (r_ObservedGeneration x) (r_Spec
    x) (r_Extension x) (r_Capacity x) (r_ExclusiveAlloc x) (r_DeleteProtected x) (r_Labels
    x) (r_ReadyAt x) (r_LastLeaseEndedAt x) (r_DrainStartedAt x) (r_ParkedAt x) (r_CreatedAt
    x) (r_UpdatedAt x) v.

(** [ObservedSnapshot]; status, raw object and error are opaque text. *)
Record Snapshot := MkSnapshot {
  sn_ResourceID : string;
  sn_ObservedAt : Z;
  sn_ProviderPhase : ObservedPhase;
  sn_Raw : option ObservedResource
}.


(** [Operation]: one journal entry. *)
Record Operation := MkOperation {
  o_ID : string;
  o_ParentID : option string;
  o_IdemScope : option string;
  o_IdemKey : option string;
  o_Kind : OpKind;
  o_ResourceID : option string;
  o_PoolID : option string;
  o_Provider : string;
  o_Action : jcol Action;
  o_State : OpState;
  o_Attempt : Z;
  o_ExternalOp : jcol OperationRef;
  o_ExternalRef : jcol ExternalRef;
  o_ErrorClass : option ErrorClass;
  o_ErrorDetail : option err;
  o_NextAttemptAt : option Z;
  o_VerifyDeadlineAt : option Z;
  o_CreatedAt : Z;
  o_UpdatedAt : Z;
  o_TerminalAt : option Z
}.

Definition with_o_PoolID (v : option string) (x : Operation) : Operation := MkOperation
    (o_ID x) (o_ParentID x) (o_IdemScope x) (o_IdemKey x) (o_Kind x) (o_ResourceID x) v
    (o_Provider x) (o_Action x) (o_State x) (o_Attempt x) (o_ExternalOp x) (o_ExternalRef x)
    (o_ErrorClass x) (o_ErrorDetail x) (o_NextAttemptAt x) (o_VerifyDeadlineAt x)
    (o_CreatedAt x) (o_UpdatedAt x) (o_TerminalAt x).
Definition with_o_IdemScope (v : option string) (x : Operation) : Operation := MkOperation
    (o_ID x) (o_ParentID x) v (o_IdemKey x) (o_Kind x) (o_ResourceID x) (o_PoolID x)
    (o_Provider x) (o_Action x) (o_State x) (o_Attempt x) (o_ExternalOp x) (o_ExternalRef x)
    (o_ErrorClass x) (o_ErrorDetail x) (o_NextAttemptAt x) (o_VerifyDeadlineAt x)
    (o_CreatedAt x) (o_UpdatedAt x) (o_TerminalAt x).
Definition with_o_IdemKey (v : option string) (x : Operation) : Operation := MkOperation
    (o_ID x) (o_ParentID x) (o_IdemScope x) v (o_Kind x) (o_ResourceID x) (o_PoolID x)
    (o_Provider x) (o_Action x) (o_State x) (o_Attempt x) (o_ExternalOp x) (o_ExternalRef x)
    (o_ErrorClass x) (o_ErrorDetail x) (o_NextAttemptAt x) (o_VerifyDeadlineAt x)
    (o_CreatedAt x) (o_UpdatedAt x) (o_TerminalAt x).
Definition with_o_State (v : OpState) (x : Operation) : Operation := MkOperation (o_ID x)
    (o_ParentID x) (o_IdemScope x) (o_IdemKey x) (o_Kind x) (o_ResourceID x) (o_PoolID x)
    (o_Provider x) (o_Action x) v (o_Attempt x) (o_ExternalOp x) (o_ExternalRef x)
    (o_ErrorClass x) (o_ErrorDetail x) (o_NextAttemptAt x) (o_VerifyDeadlineAt x)
    (o_CreatedAt x) (o_UpdatedAt x) (o_TerminalAt x).
Definition with_o_Attempt (v : Z) (x : Operation) : Operation := MkOperation (o_ID x)
    (o_ParentID x) (o_IdemScope x) (o_IdemKey x) (o_Kind x) (o_ResourceID x) (o_PoolID x)
    (o_Provider x) (o_Action x) (o_State x) v (o_ExternalOp x) (o_ExternalRef x)
    (o_ErrorClass x) (o_ErrorDetail x) (o_NextAttemptAt x) (o_VerifyDeadlineAt x)
    (o_CreatedAt x) (o_UpdatedAt x) (o_TerminalAt x).
Definition with_o_ExternalOp (v : jcol OperationRef) (x : Operation) : Operation :=
    MkOperation (o_ID x) (o_ParentID x) (o_IdemScope x) (o_IdemKey x) (o_Kind x)
    (o_ResourceID x) (o_PoolID x) (o_Provider x) (o_Action x) (o_State x) (o_Attempt x) v
    (o_ExternalRef x) (o_ErrorClass x) (o_ErrorDetail x) (o_NextAttemptAt x)
    (o_VerifyDeadlineAt x) (o_CreatedAt x) (o_UpdatedAt x) (o_TerminalAt x).
Definition with_o_ExternalRef (v : jcol ExternalRef) (x : Operation) : Operation :=
    MkOperation (o_ID x) (o_ParentID x) (o_IdemScope x) (o_IdemKey x) (o_Kind x)
    (o_ResourceID x) (o_PoolID x) (o_Provider x) (o_Action x) (o_State x) (o_Attempt x)
    (o_ExternalOp x) v (o_ErrorClass x) (o_ErrorDetail x) (o_NextAttemptAt x)
    (o_VerifyDeadlineAt x) (o_CreatedAt x) (o_UpdatedAt x) (o_TerminalAt x).
Definition with_o_ErrorClass (v : option ErrorClass) (x : Operation) : Operation :=
    MkOperation (o_ID x) (o_ParentID x) (o_IdemScope x) (o_IdemKey x) (o_Kind x)
    (o_ResourceID x) (o_PoolID x) (o_Provider x) (o_Action x) (o_State x) (o_Attempt x)
    (o_ExternalOp x) (o_ExternalRef x) v (o_ErrorDetail x) (o_NextAttemptAt x)
    (o_VerifyDeadlineAt x) (o_CreatedAt x) (o_UpdatedAt x) (o_TerminalAt x).
Definition with_o_ErrorDetail (v : option err) (x : Operation) : Operation := MkOperation
    (o_ID x) (o_ParentID x) (o_IdemScope x) (o_IdemKey x) (o_Kind x) (o_ResourceID x)
    (o_PoolID x) (o_Provider x) (o_Action x) (o_State x) (o_Attempt x) (o_ExternalOp x)
    (o_ExternalRef x) (o_ErrorClass x) v (o_NextAttemptAt x) (o_VerifyDeadlineAt x)
    (o_CreatedAt x) (o_UpdatedAt x) (o_TerminalAt x).
Definition with_o_NextAttemptAt (v : option Z) (x : Operation) : Operation := MkOperation
    (o_ID x) (o_ParentID x) (o_IdemScope x) (o_IdemKey x) (o_Kind x) (o_ResourceID x)
    (o_PoolID x) (o_Provider x) (o_Action x) (o_State x) (o_Attempt x) (o_ExternalOp x)
    (o_ExternalRef x) (o_ErrorClass x) (o_ErrorDetail x) v (o_VerifyDeadlineAt x)
    (o_CreatedAt x) (o_UpdatedAt x) (o_TerminalAt x).
Definition with_o_VerifyDeadlineAt (v : option Z) (x : Operation) : Operation := MkOperation
    (o_ID x) (o_ParentID x) (o_IdemScope x) (o_IdemKey x) (o_Kind x) (o_ResourceID x)
    (o_PoolID x) (o_Provider x) (o_Action x) (o_State x) (o_Attempt x) (o_ExternalOp x)
    (o_ExternalRef x) (o_ErrorClass x) (o_ErrorDetail x) (o_NextAttemptAt x) v (o_CreatedAt
    x) (o_UpdatedAt x) (o_TerminalAt x).
Definition with_o_UpdatedAt (v : Z) (x : Operation) : Operation := MkOperation (o_ID x)
    (o_ParentID x) (o_IdemScope x) (o_IdemKey x) (o_Kind x) (o_ResourceID x) (o_PoolID x)
    (o_Provider x) (o_Action x) (o_State x) (o_Attempt x) (o_ExternalOp x) (o_ExternalRef x)
    (o_ErrorClass x) (o_ErrorDetail x) (o_NextAttemptAt x) (o_VerifyDeadlineAt x)
    (o_CreatedAt x) v (o_TerminalAt x).
Definition with_o_TerminalAt (v : option Z) (x : Operation) : Operation := MkOperation (o_ID
    x) (o_ParentID x) (o_IdemScope x) (o_IdemKey x) (o_Kind x) (o_ResourceID x) (o_PoolID x)
    (o_Provider x) (o_Action x) (o_State x) (o_Attempt x) (o_ExternalOp x) (o_ExternalRef x)
    (o_ErrorClass x) (o_ErrorDetail x) (o_NextAttemptAt x) (o_VerifyDeadlineAt x)
    (o_CreatedAt x) (o_UpdatedAt x) v.

(** [Lease]. *)
Record Lease := MkLease {
  l_ID : string;
  l_AcquisitionID : string;
  l_ResourceID : string;
  l_Holder : string;
  l_Capacity : jcol Vector;
  l_Exclusive : bool;
  l_State : LeaseState;
  l_ExpiresAt : option Z;
  l_CreatedAt : Z;
  l_EndedAt : option Z
}.

Definition with_l_State (v : LeaseState) (x : Lease) : Lease := MkLease (l_ID x)
    (l_AcquisitionID x) (l_ResourceID x) (l_Holder x) (l_Capacity x) (l_Exclusive x) v
    (l_ExpiresAt x) (l_CreatedAt x) (l_EndedAt x).
Definition with_l_EndedAt (v : option Z) (x : Lease) : Lease := MkLease (l_ID x)
    (l_AcquisitionID x) (l_ResourceID x) (l_Holder x) (l_Capacity x) (l_Exclusive x)
    (l_State x) (l_ExpiresAt x) (l_CreatedAt x) v.

(** [Acquisition]. *)
Record Acquisition := MkAcquisition {
  a_ID : string;
  a_Actor : string;
  a_Kind : string;
  a_Class : string;
  a_Constraints : jcol Request;
  a_Quantity : Z;
  a_TTLSeconds : Z;
  a_State : AcqState;
  a_LeaseID : option string;
  a_PendingResourceID : option string;
  a_CreatedAt : Z;
  a_UpdatedAt : Z
}.

Definition with_a_State (v : AcqState) (x : Acquisition) : Acquisition := MkAcquisition
    (a_ID x) (a_Actor x) (a_Kind x) (a_Class x) (a_Constraints x) (a_Quantity x)
    (a_TTLSeconds x) v (a_LeaseID x) (a_PendingResourceID x) (a_CreatedAt x) (a_UpdatedAt
    x).
Definition with_a_LeaseID (v : option string) (x : Acquisition) : Acquisition :=
    MkAcquisition (a_ID x) (a_Actor x) (a_Kind x) (a_Class x) (a_Constraints x) (a_Quantity
    x) (a_TTLSeconds x) (a_State x) v (a_PendingResourceID x) (a_CreatedAt x) (a_UpdatedAt
    x).
Definition with_a_PendingResourceID (v : option string) (x : Acquisition) : Acquisition :=
    MkAcquisition (a_ID x) (a_Actor x) (a_Kind x) (a_Class x) (a_Constraints x) (a_Quantity
    x) (a_TTLSeconds x) (a_State x) (a_LeaseID x) v (a_CreatedAt x) (a_UpdatedAt x).
Definition with_a_UpdatedAt (v : Z) (x : Acquisition) : Acquisition := MkAcquisition (a_ID
    x) (a_Actor x) (a_Kind x) (a_Class x) (a_Constraints x) (a_Quantity x) (a_TTLSeconds x)
    (a_State x) (a_LeaseID x) (a_PendingResourceID x) (a_CreatedAt x) v.

(** [ClassRecord]; [Source] is "config" or "api". *)
Record ClassRecord := MkClass {
  c_Name : string;
  c_Kind : string;
  c_Provider : string;
  c_Spec : raw;
  c_ReclaimIdleAfterMs : option Z;
  c_ReclaimPark : string;
  c_ReclaimDeleteAfterMs : option Z;
  c_QueueMaxWaitMs : option Z;
  c_Source : string;
  c_CreatedAt : Z;
  c_UpdatedAt : Z
}.

Definition with_c_CreatedAt (v : Z) (x : ClassRecord) : ClassRecord := MkClass (c_Name x)
    (c_Kind x) (c_Provider x) (c_Spec x) (c_ReclaimIdleAfterMs x) (c_ReclaimPark x)
    (c_ReclaimDeleteAfterMs x) (c_QueueMaxWaitMs x) (c_Source x) v (c_UpdatedAt x).

(** [Pool]. *)
Record Pool := MkPool {
  p_ID : string;
  p_Name : string;
  p_Kind : string;
  p_Spec : raw;
  p_Generation : Z;
  p_ObservedGeneration : Z;
  p_Paused : bool;
  p_CreatedAt : Z;
  p_UpdatedAt : Z
}.

Definition with_p_Name (v : string) (x : Pool) : Pool := MkPool (p_ID x) v (p_Kind x)
    (p_Spec x) (p_Generation x) (p_ObservedGeneration x) (p_Paused x) (p_CreatedAt x)
    (p_UpdatedAt x).
Definition with_p_Spec (v : raw) (x : Pool) : Pool := MkPool (p_ID x) (p_Name x) (p_Kind x)
    v (p_Generation x) (p_ObservedGeneration x) (p_Paused x) (p_CreatedAt x) (p_UpdatedAt
    x).
Definition with_p_Generation (v : Z) (x : Pool) : Pool := MkPool (p_ID x) (p_Name x) (p_Kind
    x) (p_Spec x) v (p_ObservedGeneration x) (p_Paused x) (p_CreatedAt x) (p_UpdatedAt x).
Definition with_p_Paused (v : bool) (x : Pool) : Pool := MkPool (p_ID x) (p_Name x) (p_Kind
    x) (p_Spec x) (p_Generation x) (p_ObservedGeneration x) v (p_CreatedAt x) (p_UpdatedAt
    x).
Definition with_p_UpdatedAt (v : Z) (x : Pool) : Pool := MkPool (p_ID x) (p_Name x) (p_Kind
    x) (p_Spec x) (p_Generation x) (p_ObservedGeneration x) (p_Paused x) (p_CreatedAt x) v.

(** [Event]; [Intent], [Plan] and [Details] are audit text no code reads, only the ids they
    carry are kept. *)
Record Event := MkEvent {
  e_TS : Z;
  e_Actor : string;
  e_IdemKey : string;
  e_Type : string;
  e_ResourceID : option string;
  e_PoolID : option string;
  e_OperationID : option string;
  e_Provider : string;
  e_Outcome : string
}.


(** [IdemRecord]; [Result] is the stored response body. *)
Record IdemRecord := MkIdem {
  i_Scope : string;
  i_Key : string;
  i_RequestHash : string;
  i_State : IdemState;
  i_OperationID : option string;
  i_HTTPStatus : Z;
  i_Result : option string;
  i_CreatedAt : Z;
  i_CompletedAt : option Z;
  i_ExpiresAt : option Z
}.

Definition with_i_State (v : IdemState) (x : IdemRecord) : IdemRecord := MkIdem (i_Scope x)
    (i_Key x) (i_RequestHash x) v (i_OperationID x) (i_HTTPStatus x) (i_Result x)
    (i_CreatedAt x) (i_CompletedAt x) (i_ExpiresAt x).
Definition with_i_HTTPStatus (v : Z) (x : IdemRecord) : IdemRecord := MkIdem (i_Scope x)
    (i_Key x) (i_RequestHash x) (i_State x) (i_OperationID x) v (i_Result x) (i_CreatedAt x)
    (i_CompletedAt x) (i_ExpiresAt x).
Definition with_i_Result (v : option string) (x : IdemRecord) : IdemRecord := MkIdem
    (i_Scope x) (i_Key x) (i_RequestHash x) (i_State x) (i_OperationID x) (i_HTTPStatus x) v
    (i_CreatedAt x) (i_CompletedAt x) (i_ExpiresAt x).
Definition with_i_CompletedAt (v : option Z) (x : IdemRecord) : IdemRecord := MkIdem
    (i_Scope x) (i_Key x) (i_RequestHash x) (i_State x) (i_OperationID x) (i_HTTPStatus x)
    (i_Result x) (i_CreatedAt x) v (i_ExpiresAt x).
Definition with_i_ExpiresAt (v : option Z) (x : IdemRecord) : IdemRecord := MkIdem (i_Scope
    x) (i_Key x) (i_RequestHash x) (i_State x) (i_OperationID x) (i_HTTPStatus x) (i_Result
    x) (i_CreatedAt x) (i_CompletedAt x) v.

(** [ProviderInstanceRecord]. *)
Record ProviderInstanceRecord := MkProviderInstance {
  pi_Name : string;
  pi_Driver : string;
  pi_Config : raw;
  pi_Enabled : bool;
  pi_CreatedAt : Z;
  pi_UpdatedAt : Z
}.


(** The checkpoint payloads: the pool failure backoff and the instance identity. *)
Record Checkpoint := MkCheckpoint {
  ck_FailureAttempt : Z;
  ck_FailureBackoffTill : Z;
  ck_OwnerID : string
}.

Definition with_ck_FailureAttempt (v : Z) (x : Checkpoint) : Checkpoint := MkCheckpoint v
    (ck_FailureBackoffTill x) (ck_OwnerID x).
Definition with_ck_FailureBackoffTill (v : Z) (x : Checkpoint) : Checkpoint := MkCheckpoint
    (ck_FailureAttempt x) v (ck_OwnerID x).

(** The tables of internal/storage/sqlite/migrations. [Events] is the append-only audit log,
    newest first. *)
Record DB := MkDB {
  db_Resources : gmap string Resource;
  db_Observed : gmap string Snapshot;
  db_Pools : gmap string Pool;
  db_Classes : gmap string ClassRecord;
  db_Acquisitions : gmap string Acquisition;
  db_Leases : gmap string Lease;
  db_Operations : gmap string Operation;
  db_Idempotency : gmap (string * string) IdemRecord;
  db_Events : list Event;
  db_Checkpoints : gmap string (jcol Checkpoint);
  db_ProviderInstances : gmap string ProviderInstanceRecord
}.

Definition with_db_Resources (v : gmap string Resource) (x : DB) : DB := MkDB v (db_Observed
    x) (db_Pools x) (db_Classes x) (db_Acquisitions x) (db_Leases x) (db_Operations x)
    (db_Idempotency x) (db_Events x) (db_Checkpoints x) (db_ProviderInstances x).
Definition with_db_Observed (v : gmap string Snapshot) (x : DB) : DB := MkDB (db_Resources
    x) v (db_Pools x) (db_Classes x) (db_Acquisitions x) (db_Leases x) (db_Operations x)
    (db_Idempotency x) (db_Events x) (db_Checkpoints x) (db_ProviderInstances x).
Definition with_db_Pools (v : gmap string Pool) (x : DB) : DB := MkDB (db_Resources x)
    (db_Observed x) v (db_Classes x) (db_Acquisitions x) (db_Leases x) (db_Operations x)
    (db_Idempotency x) (db_Events x) (db_Checkpoints x) (db_ProviderInstances x).
Definition with_db_Classes (v : gmap string ClassRecord) (x : DB) : DB := MkDB (db_Resources
    x) (db_Observed x) (db_Pools x) v (db_Acquisitions x) (db_Leases x) (db_Operations x)
    (db_Idempotency x) (db_Events x) (db_Checkpoints x) (db_ProviderInstances x).
Definition with_db_Acquisitions (v : gmap string Acquisition) (x : DB) : DB := MkDB
    (db_Resources x) (db_Observed x) (db_Pools x) (db_Classes x) v (db_Leases x)
    (db_Operations x) (db_Idempotency x) (db_Events x) (db_Checkpoints x)
    (db_ProviderInstances x).
Definition with_db_Leases (v : gmap string Lease) (x : DB) : DB := MkDB (db_Resources x)
    (db_Observed x) (db_Pools x) (db_Classes x) (db_Acquisitions x) v (db_Operations x)
    (db_Idempotency x) (db_Events x) (db_Checkpoints x) (db_ProviderInstances x).
Definition with_db_Operations (v : gmap string Operation) (x : DB) : DB := MkDB
    (db_Resources x) (db_Observed x) (db_Pools x) (db_Classes x) (db_Acquisitions x)
    (db_Leases x) v (db_Idempotency x) (db_Events x) (db_Checkpoints x)
    (db_ProviderInstances x).
Definition with_db_Idempotency (v : gmap (string * string) IdemRecord) (x : DB) : DB := MkDB
    (db_Resources x) (db_Observed x) (db_Pools x) (db_Classes x) (db_Acquisitions x)
    (db_Leases x) (db_Operations x) v (db_Events x) (db_Checkpoints x) (db_ProviderInstances
    x).
Definition with_db_Events (v : list Event) (x : DB) : DB := MkDB (db_Resources x)
    (db_Observed x) (db_Pools x) (db_Classes x) (db_Acquisitions x) (db_Leases x)
    (db_Operations x) (db_Idempotency x) v (db_Checkpoints x) (db_ProviderInstances x).
Definition with_db_Checkpoints (v : gmap string (jcol Checkpoint)) (x : DB) : DB := MkDB
    (db_Resources x) (db_Observed x) (db_Pools x) (db_Classes x) (db_Acquisitions x)
    (db_Leases x) (db_Operations x) (db_Idempotency x) (db_Events x) v (db_ProviderInstances
    x).
Definition with_db_ProviderInstances (v : gmap string ProviderInstanceRecord) (x : DB) : DB
    := MkDB (db_Resources x) (db_Observed x) (db_Pools x) (db_Classes x) (db_Acquisitions x)
    (db_Leases x) (db_Operations x) (db_Idempotency x) (db_Events x) (db_Checkpoints x) v.

(** What a transaction runs in: the tables, the clock ([sdk.Clock], [time.Now]) and the number
    of ULIDs minted so far. *)
Record World := MkWorld {
  w_DB : DB;
  w_Clock : Z;
  w_Minted : nat
}.

Definition with_w_DB (v : DB) (x : World) : World := MkWorld v (w_Clock x) (w_Minted x).
Definition with_w_Clock (v : Z) (x : World) : World := MkWorld (w_DB x) v (w_Minted x).
Definition with_w_Minted (v : nat) (x : World) : World := MkWorld (w_DB x) (w_Clock x) v.

Definition emptyDB : DB := MkDB ∅ ∅ ∅ ∅ ∅ ∅ ∅ ∅ [] ∅ ∅.

(** Updates of one table of the world. *)
Definition up_Resources (f : gmap string Resource → gmap string Resource) (w : World) : World :=
  with_w_DB (with_db_Resources (f (db_Resources (w_DB w))) (w_DB w)) w.
Definition up_Observed (f : gmap string Snapshot → gmap string Snapshot) (w : World) : World :=
  with_w_DB (with_db_Observed (f (db_Observed (w_DB w))) (w_DB w)) w.
Definition up_Pools (f : gmap string Pool → gmap string Pool) (w : World) : World :=
  with_w_DB (with_db_Pools (f (db_Pools (w_DB w))) (w_DB w)) w.
Definition up_Classes (f : gmap string ClassRecord → gmap string ClassRecord) (w : World) : World :=
  with_w_DB (with_db_Classes (f (db_Classes (w_DB w))) (w_DB w)) w.
Definition up_Acquisitions (f : gmap string Acquisition → gmap string Acquisition) (w : World) : World :=
  with_w_DB (with_db_Acquisitions (f (db_Acquisitions (w_DB w))) (w_DB w)) w.
Definition up_Leases (f : gmap string Lease → gmap string Lease) (w : World) : World :=
  with_w_DB (with_db_Leases (f (db_Leases (w_DB w))) (w_DB w)) w.
Definition up_Operations (f : gmap string Operation → gmap string Operation) (w : World) : World :=
  with_w_DB (with_db_Operations (f (db_Operations (w_DB w))) (w_DB w)) w.
Definition up_Idempotency (f : gmap (string * string) IdemRecord → gmap (string * string) IdemRecord) (w : World) : World :=
  with_w_DB (with_db_Idempotency (f (db_Idempotency (w_DB w))) (w_DB w)) w.
Definition up_Events (f : list Event → list Event) (w : World) : World :=
  with_w_DB (with_db_Events (f (db_Events (w_DB w))) (w_DB w)) w.
Definition up_Checkpoints (f : gmap string (jcol Checkpoint) → gmap string (jcol Checkpoint)) (w : World) : World :=
  with_w_DB (with_db_Checkpoints (f (db_Checkpoints (w_DB w))) (w_DB w)) w.
Definition up_ProviderInstances (f : gmap string ProviderInstanceRecord → gmap string ProviderInstanceRecord) (w : World) : World :=
  with_w_DB (with_db_ProviderInstances (f (db_ProviderInstances (w_DB w))) (w_DB w)) w.
