(* ===== verification/Store.v ===== *)
(** * The stores (internal/storage/sqlite)

    Each method of the domain stores, as the SQL statement it runs: the
    WHERE predicate, the columns it writes, the RowsAffected test, and the
    PRIMARY KEY, FOREIGN KEY and UNIQUE constraints of the migrations (a
    violation is [ErrConflict], [mapErr]). CHECK constraints hold by typing.
    A failing statement changes nothing. *)

From stdpp Require Import base gmap strings list.
From S2P Require Import Prelude Errors Json Phase SDK Capacity Types.

(** ** Ids (internal/ids/ids.go)

    The ULID library is outside the repository: [ulid n] is the n-th id this
    process mints. *)
Class ULID := ulid : nat → string.

Definition newID `{ULID} (prefix : string) : M World string := λ w,
  (Ok (prefix +:+ "_" +:+ ulid (w_Minted w))%string, with_w_Minted (S (w_Minted w)) w).

(** [Tx]: commit on success, roll the tables back on error (minted ids stay
    minted). *)
Definition Tx {A} (m : M World A) : M World A := λ w,
  match m w with
  | (Ok a, w') => (Ok a, w')
  | (Err e, w') => (Err e, with_w_DB (w_DB w) w')
  end.

Definition nowM : M World Z := getsM w_Clock.

(** ** Generic statements *)

(** [SELECT ... WHERE id = ?]. *)
Definition row_get {A} (t : DB → gmap string A) (id : string) : M World A := λ w,
  match t (w_DB w) !! id with
  | Some x => (Ok x, w)
  | None => (Err ENotFound, w)
  end.

(** [UPDATE ... SET f WHERE id = ? AND P], failing with [e] on zero rows. *)
Definition row_update {A} (t : DB → gmap string A)
    (up : (gmap string A → gmap string A) → World → World)
    (id : string) (P : A → bool) (f : A → A) (e : err) : M World unit := λ w,
  match t (w_DB w) !! id with
  | Some x => if P x then (Ok tt, up (insert id (f x)) w) else (Err e, w)
  | None => (Err e, w)
  end.

(** [INSERT INTO ...]: [ok] are the constraints beyond the primary key. *)
Definition row_insert {A} (t : DB → gmap string A)
    (up : (gmap string A → gmap string A) → World → World)
    (id : string) (ok : DB → bool) (x : A) : M World unit := λ w,
  match t (w_DB w) !! id with
  | Some _ => (Err EConflict, w)
  | None => if ok (w_DB w) then (Ok tt, up (insert id x) w) else (Err EConflict, w)
  end.

Definition fk {A} (t : gmap string A) (ref : option string) : bool :=
  match ref with None => true | Some id => is_some (t !! id) end.

Definition exists_row {A} (P : string → A → bool) (m : gmap string A) : bool :=
  existsb (λ '(k, x), P k x) (map_to_list m).

(** ** Resources (resources.go) *)

(** The partial unique index [ux_res_ext] over live rows. *)
Definition ext_taken (id prov ext : string) (m : gmap string Resource) : bool :=
  exists_row (λ k r, negb (bool_decide (k = id)) && is_none (r_DeletedAt r)
    && bool_decide (r_Provider r = prov) && bool_decide (r_ExternalID r = Some ext)) m.

Definition Resources_Create (r : Resource) : M World unit :=
  row_insert db_Resources up_Resources (r_ID r) (λ db,
    fk (db_Pools db) (r_PoolID r) &&
    match r_ExternalID r with
    | Some ext => negb (is_none (r_DeletedAt r))
                  || negb (ext_taken (r_ID r) (r_Provider r) ext (db_Resources db))
    | None => true
    end) r.

Definition Resources_Get (id : string) : M World Resource := row_get db_Resources id.

Definition Resources_GetByExternalID (p ext : string) : M World Resource := λ w,
  match select (λ r, bool_decide (r_Provider r = p) && bool_decide (r_ExternalID r = Some ext)
                     && is_none (r_DeletedAt r)) (db_Resources (w_DB w)) with
  | r :: _ => (Ok r, w)
  | [] => (Err ENotFound, w)
  end.

Record ResourceFilter := MkFilter {
  f_Kind : string;
  f_Provider : string;
  f_PoolID : option string;
  f_Poolless : bool;
  f_Class : string;
  f_Phases : list Phase;
  f_Ownership : list Ownership;
  f_Labels : gmap string string;
  f_IncludeDeleted : bool
}.
Definition noFilter : ResourceFilter := MkFilter "" "" None false "" [] [] ∅ false.

(** An empty filter field does not constrain. *)
Definition unset_or (s : string) (b : bool) : bool := bool_decide (s = "") || b.

Definition filter_match (f : ResourceFilter) (r : Resource) : bool :=
  (f_IncludeDeleted f || is_none (r_DeletedAt r)) &&
  unset_or (f_Kind f) (bool_decide (r_Kind r = f_Kind f)) &&
  unset_or (f_Provider f) (bool_decide (r_Provider r = f_Provider f)) &&
  match f_PoolID f with Some p => bool_decide (r_PoolID r = Some p) | None => true end &&
  (negb (f_Poolless f) || is_none (r_PoolID r)) &&
  unset_or (f_Class f) (bool_decide (r_Class r = f_Class f)) &&
  match f_Phases f with [] => true | ps => mem (r_Phase r) ps end &&
  match f_Ownership f with [] => true | os => mem (r_Ownership r) os end &&
  forallb (λ '(k, v), bool_decide (r_Labels r !! k = Some v)) (map_to_list (f_Labels f)).

Definition Resources_List (f : ResourceFilter) : M World (list Resource) :=
  getsM (λ w, select (filter_match f) (db_Resources (w_DB w))).

Definition live (r : Resource) : bool := is_none (r_DeletedAt r).

Definition Resources_UpdateSpec (r : Resource) (expectGen : Z) : M World unit :=
  row_update db_Resources up_Resources (r_ID r)
    (λ cur, bool_decide (r_Generation cur = expectGen) && live cur)
    (λ cur,
      let cur := with_r_Spec (r_Spec r) (with_r_Extension (r_Extension r)
        (with_r_Capacity (r_Capacity r) (with_r_Name (r_Name r)
        (with_r_DeleteProtected (r_DeleteProtected r)
        (with_r_Generation (r_Generation cur + 1)
        (with_r_UpdatedAt (r_UpdatedAt r) cur)))))) in
      if decide (r_Labels r = ∅) then cur else with_r_Labels (r_Labels r) cur)
    EStale.

(** The columns [CASPhase] sets. *)
Definition cas_row (from to : Phase) (atMillis : Z) (r : Resource) : Resource :=
  let r := with_r_UpdatedAt atMillis (with_r_Phase to r) in
  let r := if decide (to = Ready ∧ from ≠ Allocated)
           then with_r_ReadyAt (Some atMillis) r else r in
  let r := if decide (to = Draining) then with_r_DrainStartedAt (Some atMillis) r else r in
  let r := if decide (to = Parked) then with_r_ParkedAt (Some atMillis) r else r in
  if decide (to = Ready) then with_r_ParkedAt None r else r.

Definition Resources_CASPhase (id : string) (from to : Phase) (atMillis : Z) : M World unit :=
  row_update db_Resources up_Resources id
    (λ r, bool_decide (r_Phase r = from) && live r) (cas_row from to atMillis) EConflict.

Definition Resources_SetObservedGeneration (id : string) (gen : Z) : M World unit :=
  row_update db_Resources up_Resources id (λ _, true) (with_r_ObservedGeneration gen) ENotFound.

(** The unique index makes the update of a live row fail when another live
    row of the instance already has the external id. *)
Definition Resources_SetExternalRef (id ext : string) (ref : jcol ExternalRef) : M World unit := λ w,
  match db_Resources (w_DB w) !! id with
  | Some r =>
      if live r && ext_taken id (r_Provider r) ext (db_Resources (w_DB w))
      then (Err EConflict, w)
      else (Ok tt, up_Resources (insert id (with_r_ExternalID (Some ext) (with_r_ExternalRef ref r))) w)
  | None => (Err ENotFound, w)
  end.

Definition Resources_SetProviderFacts (id : string) (extension : option json)
    (capacity : jcol Vector) (atMillis : Z) : M World unit :=
  row_update db_Resources up_Resources id (λ _, true)
    (λ r, with_r_Extension (coalesce extension (r_Extension r))
      (with_r_Capacity (jcoalesce capacity (r_Capacity r)) (with_r_UpdatedAt atMillis r)))
    ENotFound.

Definition Resources_SetLastLeaseEnded (id : string) (atMillis : Z) : M World unit :=
  row_update db_Resources up_Resources id (λ _, true)
    (λ r, with_r_LastLeaseEndedAt (Some atMillis) (with_r_UpdatedAt atMillis r)) ENotFound.

Definition Resources_SetDeleteProtected (id : string) (protected : bool) (atMillis : Z) : M World unit :=
  row_update db_Resources up_Resources id live
    (λ r, with_r_DeleteProtected protected (with_r_UpdatedAt atMillis r)) ENotFound.

Definition Resources_MarkDeleted (id : string) (atMillis : Z) : M World unit :=
  row_update db_Resources up_Resources id live
    (λ r, with_r_DeletedAt (Some atMillis) (with_r_UpdatedAt atMillis r)) ENotFound.

(** [INSERT ... ON CONFLICT DO UPDATE], with the foreign key on resources. *)
Definition Resources_PutObserved (s : Snapshot) : M World unit := λ w,
  if is_some (db_Resources (w_DB w) !! sn_ResourceID s)
  then (Ok tt, up_Observed (insert (sn_ResourceID s) s) w) else (Err EConflict, w).

Definition Resources_GetObserved (id : string) : M World Snapshot := row_get db_Observed id.

(** ** Leases and acquisitions (leases.go) *)

Definition active (l : Lease) : bool := bool_decide (l_State l = LeaseActive).
Definition active_on (res : string) (l : Lease) : bool :=
  bool_decide (l_ResourceID l = res) && active l.

Definition Leases_Insert (l : Lease) : M World unit :=
  row_insert db_Leases up_Leases (l_ID l) (λ db,
    fk (db_Acquisitions db) (Some (l_AcquisitionID l)) &&
    fk (db_Resources db) (Some (l_ResourceID l)) &&
    negb (active l && l_Exclusive l &&
          exists_row (λ _ k, active_on (l_ResourceID l) k && l_Exclusive k) (db_Leases db))) l.

Definition Leases_Get (id : string) : M World Lease := row_get db_Leases id.

Definition Leases_ActiveByResource (res : string) : M World (list Lease) :=
  getsM (λ w, select (active_on res) (db_Leases (w_DB w))).

Definition Leases_ByResource (res : string) : M World (list Lease) :=
  getsM (λ w, order_by l_CreatedAt
    (select (λ l, bool_decide (l_ResourceID l = res)) (db_Leases (w_DB w)))).

Definition Leases_CountActive (res : string) : M World Z :=
  getsM (λ w, Z.of_nat (length (select (active_on res) (db_Leases (w_DB w))))).

(** The aggregation loop of [SumActive]. *)
Fixpoint sum_leases (ls : list Lease) (sum : Vector) : result Vector :=
  match ls with
  | [] => Ok sum
  | l :: ls =>
      match l_Capacity l with
      | JVal c => sum_leases ls (accumulate sum c)
      | _ => Err (EOther "lease capacity")
      end
  end.

Definition Leases_SumActive (res : string) : M World Vector :=
  ls <- Leases_ActiveByResource res ;;
  liftR (sum_leases ls ∅).

Definition Leases_Transition (id : string) (from to : LeaseState) (atMillis : Z) : M World unit :=
  row_update db_Leases up_Leases id (λ l, bool_decide (l_State l = from))
    (λ l, with_l_State to
      (if decide (to = LeaseReleased ∨ to = LeaseExpired)
       then with_l_EndedAt (Some atMillis) l else l)) EConflict.

Definition Leases_Expiring (nowMillis lim : Z) : M World (list Lease) :=
  getsM (λ w, limit lim (order_by (λ l, default 0 (l_ExpiresAt l))
    (select (λ l, active l && match l_ExpiresAt l with
                              | Some t => bool_decide (t ≤ nowMillis) | None => false end)
      (db_Leases (w_DB w))))).

Definition Acquisitions_Insert (a : Acquisition) : M World unit :=
  row_insert db_Acquisitions up_Acquisitions (a_ID a) (λ _, true) a.

Definition Acquisitions_Get (id : string) : M World Acquisition := row_get db_Acquisitions id.

Definition Acquisitions_Transition (id : string) (from to : AcqState) (atMillis : Z) : M World unit :=
  row_update db_Acquisitions up_Acquisitions id (λ a, bool_decide (a_State a = from))
    (λ a, with_a_State to (with_a_UpdatedAt atMillis a)) EConflict.

Definition bindable (a : Acquisition) : bool :=
  bool_decide (a_State a = AcqPending) || bool_decide (a_State a = AcqProvisioning).

Definition Acquisitions_Bind (id lease : string) (atMillis : Z) : M World unit :=
  row_update db_Acquisitions up_Acquisitions id bindable
    (λ a, with_a_State AcqBound (with_a_LeaseID (Some lease)
      (with_a_PendingResourceID None (with_a_UpdatedAt atMillis a)))) EConflict.

Definition Acquisitions_SetPendingResource (id res : string) : M World unit :=
  row_update db_Acquisitions up_Acquisitions id (λ _, true)
    (with_a_PendingResourceID (Some res)) ENotFound.

(** No RowsAffected test here: zero rows are fine. *)
Definition Acquisitions_ClearPendingResource (id : string) : M World unit := λ w,
  (Ok tt, up_Acquisitions (alter (with_a_PendingResourceID None) id) w).

Definition Acquisitions_ListByState (states : list AcqState) : M World (list Acquisition) :=
  match states with
  | [] => retM []
  | _ => getsM (λ w, select (λ a, mem (a_State a) states) (db_Acquisitions (w_DB w)))
  end.

(** ** Operations (operations.go) *)

Definition open (o : Operation) : bool := is_none (o_TerminalAt o).

(** The partial unique index [op_active_per_resource]. *)
Definition res_busy (res : option string) (m : gmap string Operation) : bool :=
  match res with
  | None => false
  | Some r => exists_row (λ _ o, open o && bool_decide (o_ResourceID o = Some r)) m
  end.

Definition Operations_Append (o : Operation) : M World unit :=
  if decide (o_State o = OpJournaled)
  then row_insert db_Operations up_Operations (o_ID o) (λ db,
    fk (db_Operations db) (o_ParentID o) && fk (db_Resources db) (o_ResourceID o) &&
    fk (db_Pools db) (o_PoolID o) &&
    negb (open o && res_busy (o_ResourceID o) (db_Operations db))) o
  else failM EConflict.

Definition Operations_Get (id : string) : M World Operation := row_get db_Operations id.

(** The columns the UPDATE of [Transition] writes; whatever else [mut] changed
    in memory is lost. *)
Definition persist (o cur : Operation) : Operation :=
  with_o_State (o_State o) (with_o_Attempt (o_Attempt o)
  (with_o_ExternalOp (o_ExternalOp o) (with_o_ExternalRef (o_ExternalRef o)
  (with_o_ErrorClass (o_ErrorClass o) (with_o_ErrorDetail (o_ErrorDetail o)
  (with_o_NextAttemptAt (o_NextAttemptAt o) (with_o_VerifyDeadlineAt (o_VerifyDeadlineAt o)
  (with_o_UpdatedAt (o_UpdatedAt o) (with_o_TerminalAt (o_TerminalAt o) cur))))))))).

(** The operation as [Transition] hands it to [mut]. *)
Definition transitioned (now : Z) (to : OpState) (o : Operation) : Operation :=
  let o := with_o_UpdatedAt now (with_o_State to o) in
  if Terminal to && is_none (o_TerminalAt o) then with_o_TerminalAt (Some now) o else o.

Definition Operations_Transition (id : string) (from to : OpState)
    (mut : Operation → Operation) : M World unit :=
  cur <- Operations_Get id ;;
  if decide (o_State cur = from)
  then now <- nowM ;;
       row_update db_Operations up_Operations id (λ o, bool_decide (o_State o = from))
         (persist (mut (transitioned now to cur))) EConflict
  else failM EConflict.

Definition due_op (nowMillis : Z) (o : Operation) : bool :=
  open o && mem (o_State o) [OpJournaled; OpExternalAccepted; OpVerifying] &&
  match o_NextAttemptAt o with None => true | Some t => bool_decide (t ≤ nowMillis) end.

Definition Operations_Due (nowMillis lim : Z) : M World (list Operation) :=
  getsM (λ w, limit lim (order_by o_CreatedAt (select (due_op nowMillis) (db_Operations (w_DB w))))).

Definition Operations_NonTerminal : M World (list Operation) :=
  getsM (λ w, order_by o_CreatedAt (select open (db_Operations (w_DB w)))).

(** The query filters on a column [provider]; the table of 0002_domain.sql
    has [provider_instance] and no such column, so preparing it fails. *)
Definition Operations_RecentTerminal (prov : string) (kind : OpKind) (lim : Z)
  : M World (list Operation) := failM (EOther "no such column: provider").

Definition Operations_CountPending (pool : string) (kind : OpKind) : M World Z :=
  getsM (λ w, Z.of_nat (length (select (λ o, open o && bool_decide (o_PoolID o = Some pool)
                                              && bool_decide (o_Kind o = kind))
                                (db_Operations (w_DB w))))).

(** ** Pools (misc.go) *)

Definition name_taken (id name : string) (m : gmap string Pool) : bool :=
  exists_row (λ k p, negb (bool_decide (k = id)) && bool_decide (p_Name p = name)) m.

Definition Pools_Upsert (p : Pool) : M World unit := λ w,
  if name_taken (p_ID p) (p_Name p) (db_Pools (w_DB w)) then (Err EConflict, w)
  else let row := match db_Pools (w_DB w) !! p_ID p with
                  | None => p
                  | Some cur => MkPool (p_ID cur) (p_Name p) (p_Kind p) (p_Spec p)
                      (p_Generation cur + 1) (p_ObservedGeneration cur) (p_Paused p)
                      (p_CreatedAt cur) (p_UpdatedAt p)
                  end in
       (Ok tt, up_Pools (insert (p_ID p) row) w).

Definition Pools_Get (id : string) : M World Pool := row_get db_Pools id.

Definition Pools_GetByName (name : string) : M World Pool := λ w,
  match select (λ p, bool_decide (p_Name p = name)) (db_Pools (w_DB w)) with
  | p :: _ => (Ok p, w)
  | [] => (Err ENotFound, w)
  end.

Definition Pools_List : M World (list Pool) := getsM (λ w, rows (db_Pools (w_DB w))).

Definition Pools_SetPaused (id : string) (paused : bool) (atMillis : Z) : M World unit :=
  row_update db_Pools up_Pools id (λ _, true)
    (λ p, with_p_Paused paused (with_p_UpdatedAt atMillis p)) ENotFound.

Definition points_at (id : string) (ref : option string) : bool := bool_decide (ref = Some id).

(** Clears the pool pointers of tombstones and of terminal operations, then
    deletes; the foreign keys refuse while anything else points here. *)
Definition Pools_Delete (id : string) : M World unit := λ w,
  let w1 := up_Resources (fmap (λ r,
    if points_at id (r_PoolID r) && negb (live r) then with_r_PoolID None r else r)) w in
  let w2 := up_Operations (fmap (λ o,
    if points_at id (o_PoolID o) && negb (open o) then with_o_PoolID None o else o)) w1 in
  if is_none (db_Pools (w_DB w2) !! id) then (Err ENotFound, w2)
  else if exists_row (λ _ r, points_at id (r_PoolID r)) (db_Resources (w_DB w2))
       || exists_row (λ _ o, points_at id (o_PoolID o)) (db_Operations (w_DB w2))
  then (Err EConflict, w2)
  else (Ok tt, up_Pools (delete id) w2).

(** ** Events, checkpoints and provider instances (misc.go)

    Event ids are dropped with the events' texts: nothing refers to one. *)

Definition Events_Append (ev : Event) : M World unit := modifyM (up_Events (cons ev)).

Definition Checkpoints_Get (controller : string) : M World (jcol Checkpoint) :=
  row_get db_Checkpoints controller.

Definition Checkpoints_Put (controller : string) (cp : jcol Checkpoint) : M World unit :=
  modifyM (up_Checkpoints (insert controller cp)).

Definition ProviderInstances_Upsert (r : ProviderInstanceRecord) : M World unit :=
  modifyM (up_ProviderInstances (λ m,
    insert (pi_Name r) (match m !! pi_Name r with
      | None => r
      | Some cur => MkProviderInstance (pi_Name r) (pi_Driver r) (pi_Config r) (pi_Enabled r)
                      (pi_CreatedAt cur) (pi_UpdatedAt r)
      end) m)).

Definition ProviderInstances_Get (name : string) : M World ProviderInstanceRecord :=
  row_get db_ProviderInstances name.

Definition ProviderInstances_List : M World (list ProviderInstanceRecord) :=
  getsM (λ w, rows (db_ProviderInstances (w_DB w))).

(** ** Classes (classes.go): keyed by name *)

Definition Classes_Upsert (c : ClassRecord) : M World unit :=
  modifyM (up_Classes (λ m,
    insert (c_Name c) (match m !! c_Name c with
      | None => c
      | Some cur => with_c_CreatedAt (c_CreatedAt cur) c
      end) m)).

Definition Classes_Get (name : string) : M World ClassRecord := row_get db_Classes name.

Definition Classes_List : M World (list ClassRecord) := getsM (λ w, rows (db_Classes (w_DB w))).

Definition Classes_ListBySource (source : string) : M World (list ClassRecord) :=
  getsM (λ w, select (λ c, bool_decide (c_Source c = source)) (db_Classes (w_DB w))).

Definition Classes_Delete (name : string) : M World unit := λ w,
  match db_Classes (w_DB w) !! name with
  | Some _ => (Ok tt, up_Classes (delete name) w)
  | None => (Err ENotFound, w)
  end.

(** ** Idempotency records (idempotency.go) *)

Definition nsStr (s : string) : option string := if decide (s = "") then None else Some s.

Definition Idempotency_get (scope key : string) : M World IdemRecord := λ w,
  match db_Idempotency (w_DB w) !! (scope, key) with
  | Some r => (Ok r, w)
  | None => (Err ENotFound, w)
  end.

Definition Idempotency_Begin (scope key requestHash op : string)
  : M World (BeginOutcome * IdemRecord) :=
  now <- nowM ;;
  inserted <- (λ w, match db_Idempotency (w_DB w) !! (scope, key) with
     | Some _ => (Ok false, w)
     | None => (Ok true, up_Idempotency (insert (scope, key)
         (MkIdem scope key requestHash IdemInProgress (nsStr op) 0 None now None None)) w)
     end) ;;
  r <- Idempotency_get scope key ;;
  retM (if inserted : bool then BeginNew
        else if decide (i_RequestHash r = requestHash)
        then if decide (i_State r = IdemInProgress) then BeginInProgress else BeginCompleted
        else BeginMismatch, r).

Definition Idempotency_finish (scope key : string) (st : IdemState) (httpStatus : Z)
    (res : option string) (expiresAt : Z) : M World unit := λ w,
  match db_Idempotency (w_DB w) !! (scope, key) with
  | Some r =>
      if decide (i_State r = IdemInProgress)
      then (Ok tt, up_Idempotency (insert (scope, key)
             (with_i_State st (with_i_HTTPStatus httpStatus (with_i_Result res
             (with_i_CompletedAt (Some (w_Clock w)) (with_i_ExpiresAt (Some expiresAt) r)))))) w)
      else (Err EConflict, w)
  | None => (Err EConflict, w)
  end.

Definition Idempotency_Complete (scope key : string) (httpStatus : Z)
    (res : option string) (expiresAt : Z) : M World unit :=
  Idempotency_finish scope key IdemCompleted httpStatus res expiresAt.

Definition Idempotency_Fail (scope key : string) (httpStatus : Z)
    (res : option string) (expiresAt : Z) : M World unit :=
  Idempotency_finish scope key IdemFailed httpStatus res expiresAt.

(** A record [GC] may drop: expired, and its operation (if any) is terminal. *)
Definition collectable (nowMillis : Z) (ops : gmap string Operation) (r : IdemRecord) : bool :=
  match i_ExpiresAt r with Some t => bool_decide (t < nowMillis) | None => false end &&
  match i_OperationID r with
  | None => true
  | Some o => match ops !! o with Some op => negb (open op) | None => false end
  end.

(** SQLite leaves open which records a LIMIT keeps. *)
Definition Idempotency_GC (nowMillis lim : Z) : M World Z := λ w,
  let gone := limit lim (filter (λ kr,
      collectable nowMillis (db_Operations (w_DB w)) kr.2 = true)
      (map_to_list (db_Idempotency (w_DB w)))) in
  (Ok (Z.of_nat (length gone)),
   up_Idempotency (λ m, foldr (λ kr m, delete kr.1 m) m gone) w).
