(* ===== verification/Kinds.v ===== *)
(** * Resource kinds (pkg/kinds)

    The machine and volume specs a user writes, their decoding and validation,
    the registry the kernel consults, and the readiness probe's choice of
    address and verdict. *)

From stdpp Require Import base gmap strings list.
From Stdlib Require Import Ascii.
From S2P Require Import Prelude Errors Json SDK.

(** ** compute.machine (pkg/kinds/compute) *)

Module compute.

Definition Kind : string := "compute.machine".

Record TCPProbe := MkTCP { tcp_Port : Z; tcp_Timeout : Z }.
Record HTTPProbe := MkHTTP {
  http_Port : Z; http_Path : string; http_ExpectStatus : Z; http_Timeout : Z }.
Record ReadinessSpec := MkReadiness {
  TCP : option TCPProbe;
  HTTP : option HTTPProbe;
  InitialDelay : Z; Period : Z; Budget : Z; SuccessThreshold : Z
}.
Record MachineSpec := MkMachine {
  ServerType : string; Image : string; Location : string; UserData : string;
  Labels : gmap string string; Readiness : option ReadinessSpec
}.

Definition DefaultProbeTimeout : Z := 3 * Second.
Definition DefaultProbeBudget : Z := 5 * Minute.

(** [err1 <- r ;; k] on plain results. *)
Definition andThen {A B} (r : result A) (k : A → result B) : result B :=
  match r with Ok a => k a | Err e => Err e end.
Notation "x ?<- r ; k" := (andThen r (fun x => k))
  (at level 100, r at next level, right associativity) : fp_scope.

Definition dec_tcp (j : json) (p : TCPProbe) : result TCPProbe :=
  fs ?<- dec_object j ;
  port ?<- dec_field "port" dec_int64 fs (tcp_Port p) ;
  timeout ?<- dec_field "timeout" dec_duration fs (tcp_Timeout p) ;
  Ok (MkTCP port timeout).

Definition dec_http (j : json) (p : HTTPProbe) : result HTTPProbe :=
  fs ?<- dec_object j ;
  port ?<- dec_field "port" dec_int64 fs (http_Port p) ;
  path ?<- dec_field "path" dec_string fs (http_Path p) ;
  expect ?<- dec_field "expectStatus" dec_int64 fs (http_ExpectStatus p) ;
  timeout ?<- dec_field "timeout" dec_duration fs (http_Timeout p) ;
  Ok (MkHTTP port path expect timeout).

Definition zeroReadiness : ReadinessSpec := MkReadiness None None 0 0 0 0.

Definition dec_readiness (j : json) (r : ReadinessSpec) : result ReadinessSpec :=
  fs ?<- dec_object j ;
  tcp ?<- dec_field "tcp" (dec_ptr (MkTCP 0 0) dec_tcp) fs (TCP r) ;
  http ?<- dec_field "http" (dec_ptr (MkHTTP 0 "" 0 0) dec_http) fs (HTTP r) ;
  delay ?<- dec_field "initialDelay" dec_duration fs (InitialDelay r) ;
  period ?<- dec_field "period" dec_duration fs (Period r) ;
  budget ?<- dec_field "budget" dec_duration fs (Budget r) ;
  threshold ?<- dec_field "successThreshold" dec_int64 fs (SuccessThreshold r) ;
  Ok (MkReadiness tcp http delay period budget threshold).

(** A later "labels" object adds to the map an earlier one made. *)
Definition dec_labels (j : json) (m : gmap string string) : result (gmap string string) :=
  match j with
  | JObj fs => dec_map_fields "" dec_string fs m
  | JNull => Ok ∅
  | _ => type_error
  end.

Definition zeroMachine : MachineSpec := MkMachine "" "" "" "" ∅ None.

(** [json.Unmarshal] into a [MachineSpec]. *)
Definition dec_machine (j : json) (s : MachineSpec) : result MachineSpec :=
  fs ?<- dec_object j ;
  serverType ?<- dec_field "serverType" dec_string fs (ServerType s) ;
  image ?<- dec_field "image" dec_string fs (Image s) ;
  location ?<- dec_field "location" dec_string fs (Location s) ;
  userData ?<- dec_field "userData" dec_string fs (UserData s) ;
  labels ?<- dec_field "labels" dec_labels fs (Labels s) ;
  readiness ?<- dec_field "readiness" (dec_ptr zeroReadiness dec_readiness) fs (Readiness s) ;
  Ok (MkMachine serverType image location userData labels readiness).

Definition invalid {A} : result A := Err (EOther "compute.machine").

Definition bad_port (p : Z) : bool := bool_decide (p ≤ 0) || bool_decide (65535 < p).

(** [ReadinessSpec.Validate]. *)
Definition Validate_readiness (r : ReadinessSpec) : result unit :=
  match TCP r, HTTP r with
  | None, None => invalid
  | Some _, Some _ => invalid
  | Some t, None => if bad_port (tcp_Port t) then invalid else Ok tt
  | None, Some h =>
      if bad_port (http_Port h) then invalid
      else match http_Path h with
           | String "/"%char _ => Ok tt
           | _ => invalid
           end
  end.

(** [MachineSpec.Validate]. *)
Definition Validate (s : MachineSpec) : result unit :=
  if decide (ServerType s = "") then invalid
  else if decide (Image s = "") then invalid
  else match Readiness s with
       | Some r => Validate_readiness r
       | None => Ok tt
       end.

Definition ParseSpec (r : raw) : result MachineSpec :=
  j ?<- parse_raw r ;
  s ?<- dec_machine j zeroMachine ;
  _ ?<- Validate s ;
  Ok s.

(** [pickAddress]: public IPv4, then public IPv6, then private, then any. *)
Fixpoint first_addr (P : Address → bool) (addrs : list Address) : option string :=
  match addrs with
  | [] => None
  | a :: addrs =>
      if P a && negb (bool_decide (ad_Addr a = "")) then Some (ad_Addr a)
      else first_addr P addrs
  end.

Fixpoint by_preference (order : list string) (addrs : list Address) : option string :=
  match order with
  | [] => first_addr (λ _, true) addrs
  | want :: order =>
      match first_addr (λ a, bool_decide (ad_Network a = want)) addrs with
      | Some s => Some s
      | None => by_preference order addrs
      end
  end.

Definition pickAddress (addrs : list Address) : string :=
  default "" (by_preference ["public-v4"; "public-v6"; "private"]%string addrs).

(** The network below the probe: whether a TCP connect succeeds, and the
    status code of an HTTP GET, if any answer comes. *)
Class Network := {
  dial : string → Z → Z → bool;
  http_get : string → Z → string → Z → option Z
}.

(** [ProbeOnce]; true is the nil error. *)
Definition ProbeOnce `{Network} (addrs : list Address) (spec : ReadinessSpec) : bool :=
  match TCP spec, HTTP spec with
  | None, None => true
  | tcp, http =>
      let addr := pickAddress addrs in
      if decide (addr = "") then false else
      let or_default t := if decide (t ≤ 0) then DefaultProbeTimeout else t in
      match tcp, http with
      | Some t, _ => dial addr (tcp_Port t) (or_default (tcp_Timeout t))
      | None, Some h =>
          match http_get addr (http_Port h) (http_Path h) (or_default (http_Timeout h)) with
          | None => false
          | Some code =>
              let want := http_ExpectStatus h in
              if bool_decide (0 < want) && negb (bool_decide (code = want)) then false
              else if bool_decide (want = 0) &&
                      (bool_decide (code < 200) || bool_decide (299 < code)) then false
              else true
          end
      | None, None => true
      end
  end.

End compute.

(** ** storage.volume (pkg/kinds/volume) *)

Module volume.
Import compute.

Definition Kind : string := "storage.volume".

Record Spec := MkVolume { SizeGiB : Z; Zone : string; Filesystem : string }.

Definition zeroSpec : Spec := MkVolume 0 "" "".

(** [json.Unmarshal] into a [Spec]. *)
Definition dec_spec (j : json) (s : Spec) : result Spec :=
  fs ?<- dec_object j ;
  size ?<- dec_field "sizeGiB" dec_int64 fs (SizeGiB s) ;
  zone ?<- dec_field "zone" dec_string fs (Zone s) ;
  filesystem ?<- dec_field "filesystem" dec_string fs (Filesystem s) ;
  Ok (MkVolume size zone filesystem).

Definition ParseSpec (r : raw) : result Spec :=
  j ?<- parse_raw r ;
  s ?<- dec_spec j zeroSpec ;
  if decide (SizeGiB s ≤ 0) then Err (EOther "storage.volume spec: sizeGiB must be > 0")
  else Ok s.

End volume.

(** ** The registry (pkg/kinds/kinds.go)

    Both modules register in their [init], before anything can ask. *)

Definition registry : gmap string (raw → result unit) :=
  {[ compute.Kind := λ r, match compute.ParseSpec r with Ok _ => Ok tt | Err e => Err e end;
     volume.Kind := λ r, match volume.ParseSpec r with Ok _ => Ok tt | Err e => Err e end ]}.

(** [kinds.Validate]. *)
Definition Validate (kind : string) (spec : raw) : result unit :=
  match registry !! kind with
  | None => Err (EOther "unknown resource kind")
  | Some v => v spec
  end.

(** ** Facts *)

Lemma first_addr_Some P addrs s :
  compute.first_addr P addrs = Some s →
  s ≠ "" ∧ ∃ a, a ∈ addrs ∧ P a = true ∧ ad_Addr a = s.
Proof.
  induction addrs as [|a addrs IH]; simpl; [done|]. intros H.
  destruct (P a) eqn:EP; simpl in H.
  - case_bool_decide; simpl in H; simplify_eq.
    + destruct (IH H) as (Hs & b & Hb & HPb). split; [done|]. exists b. split; [by apply list_elem_of_further|done].
    + split; [done|]. exists a. split; [apply list_elem_of_here|done].
  - destruct (IH H) as (Hs & b & Hb & HPb). split; [done|]. exists b. split; [by apply list_elem_of_further|done].
Qed.

Lemma first_addr_None P addrs :
  compute.first_addr P addrs = None →
  ∀ a, a ∈ addrs → P a = true → ad_Addr a = "".
Proof.
  induction addrs as [|b addrs IH]; simpl; intros H a Ha HP; [by apply elem_of_nil in Ha|].
  apply elem_of_cons in Ha as [->|Ha].
  - rewrite HP in H. simpl in H. by case_bool_decide.
  - destruct (P b && _); [done|]. eauto.
Qed.
