(* ===== verification/Provision.v ===== *)
(** * Journaling creates, stops and starts (internal/provision)

    [Prepare] plans a create without touching the tables; [Journal],
    [JournalStop] and [JournalStart] are the cores that run inside the
    caller's transaction. *)

From stdpp Require Import base gmap strings list.
From S2P Require Import Prelude Errors Json Phase SDK Capacity Types Store.

Record CreateSpec := MkCreate {
  cs_Kind : string;
  cs_Provider : string;
  cs_Name : string;
  cs_Spec : raw;
  cs_Labels : gmap string string;
  cs_Class : string;
  cs_PoolID : option string
}.

Record Prepared := MkPrepared { Prepared_Resource : Resource; Prepared_Op : Operation }.

(** A fresh operation row in state journaled; [Attempt] and the rest are
    Go's zero values. *)
Definition journaledOp (id : string) (kind : OpKind) (res pool : option string)
    (prov : string) (action : Action) (nowMs : Z) : Operation :=
  MkOperation id None None None kind res pool prov (JVal action) OpJournaled 0
    JNone JNone None None None None nowMs nowMs None.

Section provision.
Context `{ULID} {P : Type} `{Providers P}.

Definition Prepare (ownerID : string) (cs : CreateSpec) (nowMillis : Z)
  : M World Prepared :=
  match Instance_ (cs_Provider cs) with
  | None => failM (EOther "unknown provider instance")
  | Some inst =>
  match pv_ResourceDriver inst (cs_Kind cs) with
  | None => failM (EOther "provider does not drive kind")
  | Some driver =>
  resID <- newID "res" ;;
  opID <- newID "op" ;;
  let name := if decide (cs_Name cs = "") then resID else cs_Name cs in
  let labels := IdentityLabels ownerID resID opID in
  let labels := if decide (cs_Class cs = "") then labels
                else <[LabelClass := cs_Class cs]> labels in
  actions <- liftR (Plan driver (MkPlanReq resID
               (Some (MkDesired name (cs_Spec cs) labels)) None)) ;;
  match actions with
  | [action] =>
      let action := MkAction opID (ac_Kind action) (ac_ResourceID action)
                      (ac_Ref action) (ac_Params action) (ac_Destructive action) in
      retM (MkPrepared
        (MkResource resID name (cs_Kind cs) (cs_Provider cs) (cs_Class cs) (cs_PoolID cs)
           OwnershipManaged Provisioning None JNone 0 0 (cs_Spec cs) None JNone false false
           (cs_Labels cs) None None None None nowMillis nowMillis None)
        (journaledOp opID OpKindCreate (Some resID) (cs_PoolID cs) (cs_Provider cs)
           action nowMillis))
  | _ => failM (EOther "driver planned a wrong number of actions")
  end
  end
  end.

Definition Journal (p : Prepared) (actor idemKey : string) : M World unit :=
  let r := Prepared_Resource p in
  Resources_Create r ;;;
  Operations_Append (Prepared_Op p) ;;;
  Events_Append (MkEvent (r_CreatedAt r) actor idemKey "resource.create" (Some (r_ID r))
    (r_PoolID r) (Some (o_ID (Prepared_Op p))) (r_Provider r) "journaled").

(** The reference the journaled action carries: the stored one, or one
    rebuilt from the external id. *)
Definition refOf (cur : Resource) (ext : string) : ExternalRef :=
  let ref := match r_ExternalRef cur with JVal ref => ref | _ => MkRef "" ∅ end in
  if decide (ref_ID ref = "") then MkRef ext (ref_Extra ref) else ref.

Definition journalPhaseOp (cur : Resource) (nowMs : Z) (actor : string) (from to : Phase)
    (opKind : OpKind) (actionKind : string) : M World Operation :=
  match r_ExternalID cur with
  | None => failM EConflict
  | Some ext =>
      Resources_CASPhase (r_ID cur) from to nowMs ;;;
      opID <- newID "op" ;;
      let action := MkAction opID actionKind (r_ID cur) (Some (refOf cur ext)) None false in
      let op := journaledOp opID opKind (Some (r_ID cur)) (r_PoolID cur) (r_Provider cur)
                  action nowMs in
      Operations_Append op ;;;
      Events_Append (MkEvent nowMs actor "" ("resource." +:+ actionKind) (Some (r_ID cur))
        (r_PoolID cur) (Some opID) (r_Provider cur) "journaled") ;;;
      retM op
  end.

Definition JournalStop (resID : string) (nowMs : Z) (actor : string)
    (requireUnprotected : bool) : M World Operation :=
  cur <- Resources_Get resID ;;
  refuse (negb (live cur) || negb (bool_decide (r_Phase cur = Ready))
          || negb (bool_decide (r_Ownership cur = OwnershipManaged))) EConflict ;;;
  refuse (requireUnprotected && r_DeleteProtected cur) EConflict ;;;
  refuse (negb (pk_Supported (Parking_ (r_Provider cur) (r_Kind cur)))) EParkUnsupported ;;;
  n <- Leases_CountActive resID ;;
  refuse (bool_decide (0 < n)) EConflict ;;;
  journalPhaseOp cur nowMs actor Ready Parking OpKindStop "stop".

Definition JournalStart (resID : string) (nowMs : Z) (actor : string) : M World Operation :=
  cur <- Resources_Get resID ;;
  refuse (negb (live cur) || negb (bool_decide (r_Phase cur = Parked))
          || negb (bool_decide (r_Ownership cur = OwnershipManaged))) EConflict ;;;
  refuse (negb (pk_Supported (Parking_ (r_Provider cur) (r_Kind cur)))) EParkUnsupported ;;;
  journalPhaseOp cur nowMs actor Parked Starting OpKindStart "start".
End provision.
