(* ===== verification/Sys.v ===== *)
(** * The running control plane

    What a handler of the process can touch: the database world, the clouds
    behind the drivers, and the in-memory state of the engine, the scheduler
    and the reconciler. A handler is one sequential run in [M Sys]; what other
    goroutines do between two of its transactions is the subject of the files
    that build on the step relation, not of the handler. *)

From stdpp Require Import base gmap strings list.
From S2P Require Import Prelude Errors SDK Types Store.

Record Sys (P : Type) := MkSys {
  sy_World : World;
  sy_Prov : P;
  (* operations.Engine: the buffered channel [kick] of capacity one *)
  sy_EngineKick : bool;
  (* reconcile.Reconciler: [dirty] (None: a nil map, every pool) and [wake] *)
  sy_Dirty : option (gset string);
  sy_Wake : bool;
  (* scheduler.Scheduler: [queued] and [startFail] (untilMs, attempts) *)
  sy_Queued : gset string;
  sy_StartFail : gmap string (Z * Z);
  (* reconcile.Reconciler: [missedBoundary] and [adaptiveCache] (buffer, computedAt) *)
  sy_Missed : gmap string Z;
  sy_Adaptive : gmap string (Z * Z);
  (* how many times math/rand was asked *)
  sy_Draws : nat
}.
Arguments MkSys {P}.
Arguments sy_World {P}.
Arguments sy_Prov {P}.
Arguments sy_EngineKick {P}.
Arguments sy_Dirty {P}.
Arguments sy_Wake {P}.
Arguments sy_Queued {P}.
Arguments sy_StartFail {P}.
Arguments sy_Missed {P}.
Arguments sy_Adaptive {P}.
Arguments sy_Draws {P}.

Section sys.
Context {P : Type}.
Implicit Types (s : Sys P).

Definition with_sy_World (v : World) s : Sys P := MkSys v (sy_Prov s) (sy_EngineKick s)
  (sy_Dirty s) (sy_Wake s) (sy_Queued s) (sy_StartFail s) (sy_Missed s) (sy_Adaptive s) (sy_Draws s).
Definition with_sy_Prov (v : P) s : Sys P := MkSys (sy_World s) v (sy_EngineKick s)
  (sy_Dirty s) (sy_Wake s) (sy_Queued s) (sy_StartFail s) (sy_Missed s) (sy_Adaptive s) (sy_Draws s).
Definition with_sy_EngineKick (v : bool) s : Sys P := MkSys (sy_World s) (sy_Prov s) v
  (sy_Dirty s) (sy_Wake s) (sy_Queued s) (sy_StartFail s) (sy_Missed s) (sy_Adaptive s) (sy_Draws s).
Definition with_sy_Dirty (v : option (gset string)) s : Sys P := MkSys (sy_World s) (sy_Prov s)
  (sy_EngineKick s) v (sy_Wake s) (sy_Queued s) (sy_StartFail s) (sy_Missed s) (sy_Adaptive s) (sy_Draws s).
Definition with_sy_Wake (v : bool) s : Sys P := MkSys (sy_World s) (sy_Prov s)
  (sy_EngineKick s) (sy_Dirty s) v (sy_Queued s) (sy_StartFail s) (sy_Missed s) (sy_Adaptive s) (sy_Draws s).
Definition with_sy_Queued (v : gset string) s : Sys P := MkSys (sy_World s) (sy_Prov s)
  (sy_EngineKick s) (sy_Dirty s) (sy_Wake s) v (sy_StartFail s) (sy_Missed s) (sy_Adaptive s) (sy_Draws s).
Definition with_sy_StartFail (v : gmap string (Z * Z)) s : Sys P := MkSys (sy_World s) (sy_Prov s)
  (sy_EngineKick s) (sy_Dirty s) (sy_Wake s) (sy_Queued s) v (sy_Missed s) (sy_Adaptive s) (sy_Draws s).
Definition with_sy_Missed (v : gmap string Z) s : Sys P := MkSys (sy_World s) (sy_Prov s)
  (sy_EngineKick s) (sy_Dirty s) (sy_Wake s) (sy_Queued s) (sy_StartFail s) v (sy_Adaptive s) (sy_Draws s).
Definition with_sy_Adaptive (v : gmap string (Z * Z)) s : Sys P := MkSys (sy_World s) (sy_Prov s)
  (sy_EngineKick s) (sy_Dirty s) (sy_Wake s) (sy_Queued s) (sy_StartFail s) (sy_Missed s) v (sy_Draws s).
Definition with_sy_Draws (v : nat) s : Sys P := MkSys (sy_World s) (sy_Prov s)
  (sy_EngineKick s) (sy_Dirty s) (sy_Wake s) (sy_Queued s) (sy_StartFail s) (sy_Missed s) (sy_Adaptive s) v.

(** A statement outside a transaction (its own implicit one), and a call
    of a driver. *)
Definition onWorld {A} (m : M World A) : M (Sys P) A := λ s,
  let '(r, w) := m (sy_World s) in (r, with_sy_World w s).
Definition onProv {A} (m : M P A) : M (Sys P) A := λ s,
  let '(r, p) := m (sy_Prov s) in (r, with_sy_Prov p s).

(** [st.Tx(ctx, func(tx) error { ... })]. *)
Definition inTx {A} (m : M World A) : M (Sys P) A := onWorld (Tx m).

Definition clockNow : M (Sys P) Z := onWorld nowM.

(** ** Level triggers *)

(** [Engine.Kick]: a non-blocking send on a channel of capacity one. *)
Definition engineKick : M (Sys P) unit := modifyM (with_sy_EngineKick true).

(** [Reconciler.Kick]: a nil map already means every pool. *)
Definition poolKick (pool : string) : M (Sys P) unit :=
  modifyM (λ s, with_sy_Wake true
    (with_sy_Dirty (fmap (λ d, {[ pool ]} ∪ d) (sy_Dirty s)) s)).

(** [Reconciler.KickAll]. *)
Definition poolKickAll : M (Sys P) unit :=
  modifyM (λ s, with_sy_Wake true (with_sy_Dirty None s)).
End sys.

(** A loop that goes on after an error and counts the successes. *)
Fixpoint countM {S A} (l : list A) (f : A → M S unit) : M S Z :=
  match l with
  | [] => retM 0
  | x :: l => r <- tryM (f x) ;; n <- countM l f ;;
              retM (match r with Ok _ => 1 + n | Err _ => n end)
  end.

(** ** What a handler does to the world *)

(** [via R m]: every run of [m] moves the world along [R]; reads do not
    move it, so [R] is meant to be reflexive and transitive. *)
Definition via {P A} (R : World → World → Prop) (m : M (Sys P) A) : Prop :=
  ∀ s, R (sy_World s) (sy_World (m s).2).

Section via.
Context {P : Type} (R : World → World → Prop) `{!Reflexive R, !Transitive R}.

Lemma via_ret {A} (a : A) : via (P := P) R (retM a).
Proof. intros s. done. Qed.
Lemma via_fail {A} e : via (P := P) (A := A) R (failM e).
Proof. intros s. done. Qed.
Lemma via_liftR {A} (r : result A) : via (P := P) R (liftR r).
Proof. intros s. done. Qed.
Lemma via_gets {A} (f : Sys P → A) : via R (getsM f).
Proof. intros s. done. Qed.
Lemma via_bind {A B} (m : M (Sys P) A) (k : A → M (Sys P) B) :
  via R m → (∀ a, via R (k a)) → via R (bindM m k).
Proof.
  intros Hm Hk s. specialize (Hm s). unfold bindM.
  destruct (m s) as [[a|e] s']; simpl in *; [|done]. etrans; [done|apply Hk].
Qed.
Lemma via_try {A} (m : M (Sys P) A) : via R m → via R (tryM m).
Proof. intros Hm s. specialize (Hm s). unfold tryM. by destruct (m s). Qed.
Lemma via_ignore {A} (m : M (Sys P) A) : via R m → via R (ignoreM m).
Proof. intros Hm s. apply Hm. Qed.
Lemma via_pure {A} (m : M World A) : pure m → via (P := P) R (onWorld m).
Proof.
  intros Hm s. specialize (Hm (sy_World s)). unfold onWorld.
  destruct (m (sy_World s)); simpl in *. by subst.
Qed.
Lemma via_onWorld {A} (m : M World A) :
  (∀ w, R w (m w).2) → via (P := P) R (onWorld m).
Proof.
  intros Hm s. specialize (Hm (sy_World s)). unfold onWorld.
  by destruct (m (sy_World s)).
Qed.
Lemma via_onProv {A} (m : M P A) : via R (onProv m).
Proof. intros s. unfold onProv. by destruct (m (sy_Prov s)). Qed.
Lemma via_modify (f : Sys P → Sys P) :
  (∀ s, sy_World (f s) = sy_World s) → via R (modifyM f).
Proof. intros Hf s. simpl. by rewrite Hf. Qed.
Lemma via_forM {X} (l : list X) (f : X → M (Sys P) unit) :
  (∀ x, x ∈ l → via R (f x)) → via R (forM_ l f).
Proof.
  induction l as [|x l IH]; intros Hf; simpl; [apply via_ret|].
  apply via_bind; [apply Hf; set_solver|intros _]. apply IH. intros y Hy. apply Hf. set_solver.
Qed.
Lemma via_countM {X} (l : list X) (f : X → M (Sys P) unit) :
  (∀ x, x ∈ l → via R (f x)) → via R (countM l f).
Proof.
  induction l as [|x l IH]; intros Hf; simpl; [apply via_ret|].
  apply via_bind; [apply via_try, Hf; set_solver|intros r].
  apply via_bind; [|intros n; apply via_ret]. apply IH. intros y Hy. apply Hf. set_solver.
Qed.
Lemma via_engineKick : via (P := P) R engineKick.
Proof. by apply via_modify. Qed.
Lemma via_poolKick pool : via (P := P) R (poolKick pool).
Proof. by apply via_modify. Qed.
Lemma via_poolKickAll : via (P := P) R poolKickAll.
Proof. by apply via_modify. Qed.
End via.
