(* ===== verification/Classes.v ===== *)
(** * Classes and pool specs

    [reconcile.Class], [ReclaimPolicy] and [PoolSpec] (internal/reconcile),
    and the storage-backed resolver of the running server
    (internal/app/classes.go). *)

From stdpp Require Import base gmap strings list.
From S2P Require Import Prelude Errors Json SDK Types Store Kinds.

Import compute.

Record ReclaimPolicy := MkReclaim { IdleAfter : Z; Park : string; DeleteAfter : Z }.

(** [ParkEnabled], on a pointer that may be nil. *)
Definition ParkEnabled (p : option ReclaimPolicy) : bool :=
  match p with Some p => negb (bool_decide (Park p = "never")) | None => false end.

Record Class_ := MkClass_ {
  cl_Kind : string; cl_Provider : string; cl_Spec : raw;
  cl_Reclaim : option ReclaimPolicy; cl_QueueMaxWait : Z
}.

Definition positive (o : option Z) : bool :=
  match o with Some z => bool_decide (0 < z) | None => false end.

(** [time.Duration(ms) * time.Millisecond]. *)
Definition msDuration (ms : Z) : Z := mul64 ms Millisecond.

Definition toReconcileClass (rec : ClassRecord) : Class_ :=
  MkClass_ (c_Kind rec) (c_Provider rec) (c_Spec rec)
    (if positive (c_ReclaimIdleAfterMs rec) || negb (bool_decide (c_ReclaimPark rec = ""))
        || positive (c_ReclaimDeleteAfterMs rec)
     then Some (MkReclaim (from_option msDuration 0 (c_ReclaimIdleAfterMs rec))
                  (c_ReclaimPark rec)
                  (from_option msDuration 0 (c_ReclaimDeleteAfterMs rec)))
     else None)
    (if positive (c_QueueMaxWaitMs rec)
     then from_option msDuration 0 (c_QueueMaxWaitMs rec) else 0).

(** [ClassRegistry.Class]: any lookup error is "no such class". *)
Definition lookupClass (name : string) : M World (option Class_) :=
  r <- tryM (Classes_Get name) ;;
  retM (match r with Ok rec => Some (toReconcileClass rec) | Err _ => None end).

(** ** Pool specs *)

Record PoolSpec := MkPoolSpec {
  ps_Class : string; ps_Replicas : Z; ps_MinReady : Z; ps_MinRunning : Z;
  ps_MaxResources : Z; ps_Reclaim : option ReclaimPolicy; ps_Machine : option json;
  ps_Provider : string; ps_Kind : string
}.

Definition dec_reclaim (j : json) (r : ReclaimPolicy) : result ReclaimPolicy :=
  fs ?<- dec_object j ;
  idle ?<- dec_field "idleAfter" dec_duration fs (IdleAfter r) ;
  park ?<- dec_field "park" dec_string fs (Park r) ;
  del ?<- dec_field "deleteAfter" dec_duration fs (DeleteAfter r) ;
  Ok (MkReclaim idle park del).

(** A [*json.RawMessage]: the subdocument itself. *)
Definition dec_rawptr (j : json) (old : option json) : result (option json) :=
  Ok (match j with JNull => None | _ => Some j end).

Definition dec_poolspec (j : json) : result PoolSpec :=
  fs ?<- dec_object j ;
  class ?<- dec_field "class" dec_string fs "" ;
  replicas ?<- dec_field "replicas" dec_int64 fs 0 ;
  minReady ?<- dec_field "minReady" dec_int64 fs 0 ;
  minRunning ?<- dec_field "minRunning" dec_int64 fs 0 ;
  maxResources ?<- dec_field "maxResources" dec_int64 fs 0 ;
  reclaim ?<- dec_field "reclaim" (dec_ptr (MkReclaim 0 "" 0) dec_reclaim) fs None ;
  machine ?<- dec_field "machine" dec_rawptr fs None ;
  provider ?<- dec_field "provider" dec_string fs "" ;
  kind ?<- dec_field "kind" dec_string fs "" ;
  Ok (MkPoolSpec class replicas minReady minRunning maxResources reclaim machine provider kind).

(** [json.Unmarshal(pool.Spec, &spec)]. *)
Definition parsePoolSpec (r : raw) : result PoolSpec :=
  j ?<- parse_raw r ; dec_poolspec j.

(** [classNameOf]: the error is ignored, a partly decoded spec keeps the
    class only if that field decoded; none of the callers gets here with a
    spec that does not decode. *)
Definition classNameOf (p : Pool) : string :=
  match parsePoolSpec (p_Spec p) with Ok spec => ps_Class spec | Err _ => "" end.

Lemma pure_lookupClass name : pure (lookupClass name).
Proof.
  unfold lookupClass. apply pure_bind; [|intros; apply pure_ret].
  apply pure_try. intros w. unfold Classes_Get, row_get. by destruct (_ !! _).
Qed.
