(* ===== verification/Lease.v ===== *)
(** * Leases (internal/lease/manager.go)

    Release, TTL expiry and the way a lease's end frees its resource. The
    transaction bodies are definitions of their own: the step relation of the
    control plane is built from them. *)

From stdpp Require Import base gmap strings list.
From S2P Require Import Prelude Errors Json Phase SDK Capacity Types Store Sys.

(** [endLeaseLocked]: stamps the idle clock, and takes the resource back to
    ready when the lease was the last active one. *)
Definition endLeaseLocked (l : Lease) (nowMs : Z) : M World (option string) :=
  Resources_SetLastLeaseEnded (l_ResourceID l) nowMs ;;;
  res <- Resources_Get (l_ResourceID l) ;;
  active <- Leases_CountActive (l_ResourceID l) ;;
  (if decide (active = 0 ∧ r_Phase res = Allocated)
   then Resources_CASPhase (l_ResourceID l) Allocated Ready nowMs else retM tt) ;;;
  retM (r_PoolID res).

(** What both ends share: the lease row, its acquisition, the resource. *)
Definition finishLease (l : Lease) (to : LeaseState) (acqTo : AcqState) (evType : string)
    (nowMs : Z) : M World (option string) :=
  Leases_Transition (l_ID l) LeaseActive to nowMs ;;;
  racq <- tryM (Acquisitions_Get (l_AcquisitionID l)) ;;
  match racq with
  | Ok acq =>
      if decide (a_State acq = AcqBound)
      then ignoreM (Acquisitions_Transition (a_ID acq) AcqBound acqTo nowMs) else retM tt
  | Err _ => retM tt
  end ;;;
  pid <- endLeaseLocked l nowMs ;;
  Events_Append (MkEvent nowMs "" "" evType (Some (l_ResourceID l)) None None "" "") ;;;
  retM pid.

Definition releaseTx (leaseID : string) (nowMs : Z) : M World (option string) :=
  l <- Leases_Get leaseID ;;
  refuse (negb (bool_decide (l_State l = LeaseActive))) EConflict ;;;
  finishLease l LeaseReleased AcqReleased "lease.released" nowMs.

Definition expireTx (l : Lease) (nowMs : Z) : M World (option string) :=
  finishLease l LeaseExpired AcqExpired "lease.expired" nowMs.

Section lease.
Context {P : Type}.

(** [kick]: the manager always has its reconciler in the server. *)
Definition kick (pool : option string) : M (Sys P) unit :=
  match pool with Some p => poolKick p | None => poolKickAll end.

Definition Release (leaseID : string) : M (Sys P) unit :=
  nowMs <- clockNow ;;
  pid <- inTx (releaseTx leaseID nowMs) ;;
  kick pid.

Definition ReleaseAcquisition (acqID : string) : M (Sys P) unit :=
  acq <- onWorld (Acquisitions_Get acqID) ;;
  match a_State acq with
  | AcqBound =>
      match a_LeaseID acq with
      | None => failM EConflict
      | Some l => Release l
      end
  | AcqPending | AcqProvisioning =>
      nowMs <- clockNow ;;
      inTx (Acquisitions_Transition acqID (a_State acq) AcqReleased nowMs)
  | _ => failM EConflict
  end.

(** [SweepExpired]: a lease whose transaction fails is skipped. *)
Definition SweepExpired : M (Sys P) Z :=
  nowMs <- clockNow ;;
  due <- onWorld (Leases_Expiring nowMs 100) ;;
  countM due (λ l, pid <- inTx (expireTx l nowMs) ;; kick pid).
End lease.
