(* ===== verification/Engine.v ===== *)
(** * The operation engine (internal/operations/engine.go)

    The only component that calls provider mutations, through the journal:
    journaled, in_flight, external_accepted, and the verification of creates
    whose outcome is unknown. One definition per method; the transaction
    bodies come first, under names of their own. Test hooks, logging, metrics
    and context cancellation are not modelled. *)

From stdpp Require Import base gmap strings list.
From S2P Require Import Prelude Errors Json Phase SDK Capacity Types Store Kinds Sys.

(** math/rand: [rand.Float64()] is [draw n / 2^53] at the n-th call. *)
Class Rand := draw : nat → Z.

Record Config := MkConfig {
  PollInterval : Z; VerifyWindow : Z; BackoffBase : Z; BackoffCap : Z; MaxBatch : Z
}.
Definition defaults (c : Config) : Config :=
  let or z d := if decide (z ≤ 0) then d else z in
  MkConfig (or (PollInterval c) (2 * Second)) (or (VerifyWindow c) (120 * Second))
    (or (BackoffBase c) (2 * Second)) (or (BackoffCap c) (5 * Minute)) (or (MaxBatch c) 16).

(** Stop and start are idempotent: they retry by plain re-dispatch. *)
Definition isParkOp (k : OpKind) : bool :=
  match k with OpKindStop | OpKindStart => true | _ => false end.

Definition maxParkOpAttempts : Z := 8.

Definition setErr (class : ErrorClass) (cause : err) (o : Operation) : Operation :=
  with_o_ErrorDetail (Some cause) (with_o_ErrorClass (Some class) o).

(** ** Transaction bodies *)

(** TxB. *)
Definition dispatchTx (id : string) (deadline : Z) : M World unit :=
  Operations_Transition id OpJournaled OpInFlight (λ o,
    with_o_NextAttemptAt None (with_o_VerifyDeadlineAt (Some deadline)
      (with_o_Attempt (o_Attempt o + 1) o))).

(** TxC: the accept-time reference is kept before anything is polled. *)
Definition acceptTx (op : Operation) (opRef : OperationRef) : M World unit :=
  let extRef := match or_Ref opRef with Some r => JVal r | None => JNone end in
  Operations_Transition (o_ID op) OpInFlight OpExternalAccepted (λ o,
    with_o_NextAttemptAt None (with_o_ExternalRef extRef (with_o_ExternalOp (JVal opRef) o))) ;;;
  match o_Kind op, o_ResourceID op, or_Ref opRef with
  | OpKindCreate, Some res, Some ref => Resources_SetExternalRef res (ref_ID ref) extRef
  | _, _, _ => retM tt
  end.

(** A journaled retry or a move to verification after a failed Apply. *)
Definition applyErrorTx (id : string) (to : OpState) (next : Z) (applyErr : err) : M World unit :=
  Operations_Transition id OpInFlight to (λ o,
    setErr (Classify applyErr) applyErr (with_o_NextAttemptAt (Some next) o)).

(** A move with [next_attempt_at] cleared, as the pollers make it. *)
Definition moveTx (id : string) (from to : OpState) : M World unit :=
  Operations_Transition id from to (with_o_NextAttemptAt None).

Definition rescheduleTx (op : Operation) (next : Z) (cause : option err) : M World unit :=
  Operations_Transition (o_ID op) (o_State op) (o_State op) (λ o,
    let o := with_o_NextAttemptAt (Some next) o in
    match cause with Some c => setErr (Classify c) c o | None => o end).

(** Adoption of a verified create by its op label. *)
Definition adoptTx (op : Operation) (obs : ObservedResource) : M World unit :=
  Operations_Transition (o_ID op) OpVerifying OpExternalAccepted (λ o,
    with_o_NextAttemptAt None (with_o_ExternalRef (JVal (ob_Ref obs))
      (with_o_ExternalOp (JVal (MkOpRef (o_ID op) (Some (ob_Ref obs)) None)) o))) ;;;
  match o_ResourceID op with
  | Some res => Resources_SetExternalRef res (ref_ID (ob_Ref obs)) (JVal (ob_Ref obs))
  | None => retM tt
  end.

Definition terminalEvent (op : Operation) (type outcome : string) (nowMs : Z) : Event :=
  MkEvent nowMs "" "" type (o_ResourceID op) None (Some (o_ID op)) (o_Provider op) outcome.

Definition observe (res : string) (nowMs : Z) (ob : ObservedResource) : Snapshot :=
  MkSnapshot res nowMs (ob_Phase ob) (Some ob).

(** TxD of a create and of a start: provider facts, then the phase. *)
Definition succeedRunningTx (op : Operation) (status : OperationStatus) (from : Phase)
    (nowMs : Z) : M World unit :=
  Operations_Transition (o_ID op) (o_State op) OpSucceeded id ;;;
  match o_ResourceID op with
  | Some res =>
      match os_Resource status with
      | Some ob =>
          ignoreM (Resources_PutObserved (observe res nowMs ob)) ;;;
          Resources_SetProviderFacts res (ob_Extensions ob) (JVal (ob_Capacity ob)) nowMs
      | None => retM tt
      end ;;;
      Resources_CASPhase res from Ready nowMs
  | None => retM tt
  end ;;;
  Events_Append (terminalEvent op "operation.succeeded" "succeeded" nowMs).

Definition succeedStopTx (op : Operation) (status : OperationStatus) (nowMs : Z) : M World unit :=
  Operations_Transition (o_ID op) (o_State op) OpSucceeded id ;;;
  match o_ResourceID op with
  | Some res =>
      match os_Resource status with
      | Some ob => ignoreM (Resources_PutObserved (observe res nowMs ob))
      | None => retM tt
      end ;;;
      Resources_CASPhase res Parking Parked nowMs
  | None => retM tt
  end ;;;
  Events_Append (terminalEvent op "operation.succeeded" "succeeded" nowMs).

(** Deletion terminality is the tombstone. *)
Definition succeedDeleteTx (op : Operation) (from : OpState) (nowMs : Z) : M World unit :=
  Operations_Transition (o_ID op) from OpSucceeded id ;;;
  match o_ResourceID op with
  | Some res => Resources_MarkDeleted res nowMs
  | None => retM tt
  end ;;;
  Events_Append (terminalEvent op "operation.succeeded" "succeeded" nowMs).

(** The phase update may fail; the journal entry fails nevertheless. *)
Definition failOpTx (op : Operation) (from : OpState) (cause : err)
    (resFrom resTo : Phase) (nowMs : Z) : M World unit :=
  Operations_Transition (o_ID op) from OpFailed (setErr (Classify cause) cause) ;;;
  match o_ResourceID op with
  | Some res => ignoreM (Resources_CASPhase res resFrom resTo nowMs)
  | None => retM tt
  end ;;;
  Events_Append (terminalEvent op "operation.failed" "failed" nowMs).

(** The phase a failed operation takes its resource from and to. *)
Definition failPhases (k : OpKind) : Phase * Phase :=
  match k with
  | OpKindCreate => (Provisioning, Failed)
  | OpKindDelete => (Deleting, Failed)
  | OpKindStop => (Parking, Ready)
  | OpKindStart => (Starting, Parked)
  end.

(** The delay before any jitter: min(cap, base * 2^attempt), guarded against
    the shift leaving int64. *)
Definition backoffBase (cfg : Config) (attempt : Z) : Z :=
  let d := shl64 (BackoffBase cfg) (Z.min attempt 16) in
  if decide (BackoffCap cfg < d ∨ d ≤ 0) then BackoffCap cfg else d.

(** [float64(d) * (0.5 + u)] for [u = k / 2^53], truncated; exact where Go
    rounds to float64. *)
Definition jitter (d k : Z) : Z := (d * (2 ^ 52 + k)) `div` (2 ^ 53).

(** The retry-after floor and the minimum. *)
Definition floorDelay (d : Z) (cause : option err) : Z :=
  let d := match cause ≫= RetryAfterOf with
           | Some ra => if decide (d < ra) then ra else d
           | None => d
           end in
  if decide (d < 10 * Millisecond) then 10 * Millisecond else d.

Section engine.
Context `{Rand} {P : Type} `{Providers P} `{compute.Network}.
Variable cfg : Config.
(** Wired at boot: the scheduler's, the reconciler's and the cost
    observer's callbacks. *)
Variable OnTerminal : Operation → M (Sys P) unit.

Definition backoff (attempt : Z) (cause : option err) : M (Sys P) Z := λ s,
  (Ok (floorDelay (jitter (backoffBase cfg attempt) (draw (sy_Draws s))) cause),
   with_sy_Draws (S (sy_Draws s)) s).

Definition notifyTerminal (id : string) : M (Sys P) unit :=
  r <- tryM (onWorld (Operations_Get id)) ;;
  match r with Ok op => OnTerminal op | Err _ => retM tt end.

Definition driverAndAction (op : Operation) : M (Sys P) (ResourceDriver P * Action) :=
  match o_Action op with
  | JVal action =>
      match Instance_ (o_Provider op) with
      | None => failM (EOther "provider instance not configured")
      | Some p =>
          kind <- match o_ResourceID op with
                  | Some res =>
                      r <- tryM (onWorld (Resources_Get res)) ;;
                      retM (match r with Ok r => r_Kind r | Err _ => compute.Kind end)
                  | None => retM compute.Kind
                  end ;;
          match pv_ResourceDriver p kind with
          | None => failM (EOther "provider has no driver for kind")
          | Some driver => retM (driver, action)
          end
      end
  | _ => failM (EOther "corrupt journaled action")
  end.

Definition supportsLabelDiscovery (op : Operation) : bool :=
  match Instance_ (o_Provider op) with
  | Some p => de_SupportsLabelDiscovery (pv_Descriptor p)
  | None => false
  end.

Definition failOpPhases (id : string) (from : OpState) (cause : err)
    (resFrom resTo : Phase) : M (Sys P) unit :=
  nowMs <- clockNow ;;
  op <- onWorld (Operations_Get id) ;;
  inTx (failOpTx op from cause resFrom resTo nowMs) ;;;
  notifyTerminal id.

Definition failOp (id : string) (from : OpState) (cause : err) : M (Sys P) unit :=
  op <- onWorld (Operations_Get id) ;;
  let '(resFrom, resTo) := failPhases (o_Kind op) in
  failOpPhases id from cause resFrom resTo.

Definition reschedule (op : Operation) (cause : option err) : M (Sys P) unit :=
  delay <- backoff (o_Attempt op) cause ;;
  nowMs <- clockNow ;;
  inTx (rescheduleTx op (nowMs + Milliseconds delay) cause).

Definition succeedDelete (op : Operation) (from : OpState) : M (Sys P) unit :=
  nowMs <- clockNow ;;
  inTx (succeedDeleteTx op from nowMs) ;;;
  notifyTerminal (o_ID op).

Definition succeedCreate (op : Operation) (status : OperationStatus) : M (Sys P) unit :=
  nowMs <- clockNow ;;
  inTx (succeedRunningTx op status Provisioning nowMs) ;;;
  notifyTerminal (o_ID op).

Definition succeedStart (op : Operation) (status : OperationStatus) : M (Sys P) unit :=
  nowMs <- clockNow ;;
  inTx (succeedRunningTx op status Starting nowMs) ;;;
  notifyTerminal (o_ID op).

Definition succeedStop (op : Operation) (status : OperationStatus) : M (Sys P) unit :=
  nowMs <- clockNow ;;
  inTx (succeedStopTx op status nowMs) ;;;
  notifyTerminal (o_ID op).

Definition handleApplyError (op : Operation) (applyErr : err) : M (Sys P) unit :=
  let class := Classify applyErr in
  nowMs <- clockNow ;;
  let retry :=
    delay <- backoff (o_Attempt op) (Some applyErr) ;;
    inTx (applyErrorTx (o_ID op) OpJournaled (nowMs + Milliseconds delay) applyErr) in
  if decide (o_Kind op = OpKindDelete ∧ class = ErrNotFound)
  then succeedDelete op OpInFlight
  else if isParkOp (o_Kind op) && bool_decide (class = ErrNotFound)
  then failOp (o_ID op) OpInFlight applyErr
  else if isParkOp (o_Kind op) && negb (bool_decide (class = ErrInvalid))
          && negb (bool_decide (class = ErrTerminal))
  then retry
  else if decide (class = ErrInvalid ∨ class = ErrTerminal)
  then failOp (o_ID op) OpInFlight applyErr
  else if decide (Effect applyErr = EffectNone)
  then retry
  else inTx (applyErrorTx (o_ID op) OpVerifying (nowMs + 2000) applyErr).

Definition dispatch (op : Operation) : M (Sys P) unit :=
  r <- tryM (driverAndAction op) ;;
  match r with
  | Err e => failOp (o_ID op) (o_State op) e
  | Ok (driver, action) =>
      if isParkOp (o_Kind op) && bool_decide (maxParkOpAttempts ≤ o_Attempt op)
      then failOp (o_ID op) (o_State op) (EOther "giving up")
      else
        nowMs <- clockNow ;;
        inTx (dispatchTx (o_ID op) (nowMs + Milliseconds (VerifyWindow cfg))) ;;;
        applied <- tryM (onProv (Apply driver action)) ;;
        match applied with
        | Err e => handleApplyError op e
        | Ok opRef => inTx (acceptTx op opRef) ;;; engineKick
        end
  end.

(** [(ready, gateErr)] as [Ok ready] or [Err gateErr]. *)
Definition readinessGate (op : Operation) (status : OperationStatus)
  : M (Sys P) (result bool) :=
  match o_ResourceID op with
  | None => retM (Ok true)
  | Some resID =>
      r <- tryM (onWorld (Resources_Get resID)) ;;
      match r with
      | Err _ => retM (Ok true)
      | Ok res =>
          match compute.ParseSpec (r_Spec res) with
          | Ok spec =>
              match compute.Readiness spec with
              | Some readiness =>
                  if is_none (compute.TCP readiness) && is_none (compute.HTTP readiness)
                  then retM (Ok true)
                  else
                    let budget := if decide (compute.Budget readiness ≤ 0)
                                  then compute.DefaultProbeBudget
                                  else compute.Budget readiness in
                    nowMs <- clockNow ;;
                    if decide (Milliseconds budget < nowMs - o_CreatedAt op)
                    then retM (Err (EOther "readiness probe budget exhausted"))
                    else
                      let addrs := match os_Resource status with
                                   | Some ob => ob_Addresses ob | None => [] end in
                      retM (Ok (compute.ProbeOnce addrs readiness))
              | None => retM (Ok true)
              end
          | Err _ => retM (Ok true)
          end
      end
  end.

Definition poll (op : Operation) : M (Sys P) unit :=
  r <- tryM (driverAndAction op) ;;
  match r with
  | Err e => failOp (o_ID op) (o_State op) e
  | Ok (driver, _) =>
  match o_ExternalOp op with
  | JVal opRef =>
    st <- tryM (onProv (ObserveOperation driver opRef)) ;;
    match st with
    | Err obsErr =>
        if decide (Classify obsErr = ErrNotFound) then
          if decide (o_Kind op = OpKindDelete) then succeedDelete op OpExternalAccepted
          else if isParkOp (o_Kind op) then failOp (o_ID op) OpExternalAccepted obsErr
          else inTx (moveTx (o_ID op) OpExternalAccepted OpVerifying)
        else reschedule op (Some obsErr)
    | Ok status =>
        match os_State status with
        | PvSucceeded =>
            match o_Kind op with
            | OpKindDelete => succeedDelete op OpExternalAccepted
            | OpKindStop => succeedStop op status
            | kind =>
                gate <- readinessGate op status ;;
                match gate with
                | Err gateErr =>
                    if decide (kind = OpKindStart)
                    then failOpPhases (o_ID op) OpExternalAccepted gateErr Starting Failed
                    else failOp (o_ID op) OpExternalAccepted gateErr
                | Ok false => reschedule op None
                | Ok true =>
                    if decide (kind = OpKindStart)
                    then succeedStart op status else succeedCreate op status
                end
            end
        | PvFailed =>
            failOp (o_ID op) OpExternalAccepted
              (match os_Failure status with
               | Some pe => EProvider pe
               | None => EOther "provider reported failure without detail" end)
        | _ => reschedule op None
        end
    end
  | _ => failOp (o_ID op) (o_State op) (EOther "corrupt external op ref")
  end
  end.

Definition verify (op : Operation) : M (Sys P) unit :=
  r <- tryM (driverAndAction op) ;;
  match r with
  | Err e => failOp (o_ID op) (o_State op) e
  | Ok (driver, action) =>
  nowMs <- clockNow ;;
  match o_Kind op with
  | OpKindStop | OpKindStart => inTx (moveTx (o_ID op) OpVerifying OpJournaled)
  | OpKindDelete =>
      match ac_Ref action with
      | None => failOp (o_ID op) OpVerifying (EOther "delete op without ref")
      | Some ref =>
          got <- tryM (onProv (Get driver ref)) ;;
          match got with
          | Err getErr =>
              if IsClass getErr ErrNotFound then succeedDelete op OpVerifying
              else reschedule op (Some getErr)
          | Ok _ => inTx (Operations_Transition (o_ID op) OpVerifying OpJournaled id)
          end
      end
  | OpKindCreate =>
      if negb (supportsLabelDiscovery op)
      then inTx (Operations_Transition (o_ID op) OpVerifying OpUncertain id)
      else
        found <- tryM (onProv (Discover driver
                   (MkDiscover ScopeOwned {[ LabelOp := o_ID op ]}))) ;;
        match found with
        | Err e => reschedule op (Some e)
        | Ok (obs :: _) => inTx (adoptTx op obs) ;;; engineKick
        | Ok [] =>
            if match o_VerifyDeadlineAt op with
               | Some t => bool_decide (nowMs < t) | None => false end
            then reschedule op None
            else inTx (moveTx (o_ID op) OpVerifying OpJournaled)
        end
  end
  end.

(** [drive]: the error is logged. *)
Definition drive (op : Operation) : M (Sys P) unit :=
  match o_State op with
  | OpJournaled => ignoreM (dispatch op)
  | OpExternalAccepted => ignoreM (poll op)
  | OpVerifying => ignoreM (verify op)
  | _ => retM tt
  end.

Definition Step : M (Sys P) Z :=
  nowMs <- clockNow ;;
  due <- onWorld (Operations_Due nowMs (MaxBatch cfg)) ;;
  forM_ due drive ;;;
  retM (Z.of_nat (length due)).

Definition Engine_Resume : M (Sys P) unit :=
  ops <- onWorld Operations_NonTerminal ;;
  forM_ ops (λ op,
    match o_State op with
    | OpInFlight => inTx (moveTx (o_ID op) OpInFlight OpVerifying)
    | _ => retM tt
    end) ;;;
  engineKick.
End engine.
