(* ===== verification/Scheduler.v ===== *)
(** * The scheduler (internal/scheduler/scheduler.go)

    Satisfying an acquisition: rank the machines that fit, reserve one in a
    transaction that re-checks everything, else start a parked machine, else
    queue, else create. The transaction bodies come first. *)

From stdpp Require Import base gmap strings list sorting.
From S2P Require Import Prelude Errors Json Phase SDK Capacity Types Store Classes Provision Sys.
From S2P Require Billing.

(** ** Transaction bodies *)

(** The capacity the active leases of a resource use; [None] when one of
    them is exclusive ([blocked]). A capacity that does not parse counts as
    nothing ([lc, _ := capacity.Parse(...)]). *)
Fixpoint usedBy (ls : list Lease) (used : Vector) : option Vector :=
  match ls with
  | [] => Some used
  | l :: ls =>
      if l_Exclusive l then None
      else usedBy ls (accumulate used (match Parse (l_Capacity l) with Ok lc => lc | Err _ => ∅ end))
  end.

(** The post-insert assertion: [sum[dim] > t] for no dimension. *)
Definition overAllocated (total sum : Vector) : bool :=
  existsb (λ '(dim, t), bool_decide (t < amount sum dim)) (map_to_list total).

(** [reserve]'s transaction. *)
Definition reserveTx (acq : Acquisition) (leaseID resID : string) (want : Vector)
    (exclusive : bool) (nowMs : Z) : M World unit :=
  res <- Resources_Get resID ;;
  refuse (negb (live res)
          || (negb (bool_decide (r_Phase res = Ready)) && negb (bool_decide (r_Phase res = Allocated)))
          || negb (bool_decide (r_Ownership res = OwnershipManaged))) EConflict ;;;
  total <- liftR (Parse (r_Capacity res)) ;;
  active <- Leases_ActiveByResource resID ;;
  refuse (exclusive && negb (bool_decide (active = []))) EInsufficient ;;;
  match usedBy active ∅ with
  | None => failM EInsufficient
  | Some used =>
      refuse (negb (Fits total used want)) EInsufficient ;;;
      let expires := if decide (0 < a_TTLSeconds acq)
                     then Some (nowMs + a_TTLSeconds acq * 1000) else None in
      Leases_Insert (MkLease leaseID (a_ID acq) resID (a_Actor acq) (JVal want) exclusive
                       LeaseActive expires nowMs None) ;;;
      sum <- Leases_SumActive resID ;;
      refuse (overAllocated total sum) EConflict ;;;
      (if decide (r_Phase res = Ready)
       then Resources_CASPhase resID Ready Allocated nowMs else retM tt) ;;;
      Acquisitions_Bind (a_ID acq) leaseID nowMs ;;;
      Events_Append (MkEvent nowMs (a_Actor acq) "" "acquisition.bound" (Some resID) None None
                       "" "bound")
  end.

(** Pre-binding of a fresh create. *)
Definition prebindTx (acq : Acquisition) (p : Prepared) (nowMs : Z) : M World unit :=
  Acquisitions_Transition (a_ID acq) AcqPending AcqProvisioning nowMs ;;;
  Journal p (a_Actor acq) "" ;;;
  Acquisitions_SetPendingResource (a_ID acq) (r_ID (Prepared_Resource p)).

Definition rePendTx (acq : Acquisition) (nowMs : Z) : M World unit :=
  Acquisitions_Transition (a_ID acq) AcqProvisioning AcqPending nowMs ;;;
  Acquisitions_ClearPendingResource (a_ID acq).

(** The transitions out of an open state that write an event. *)
Definition closeAcqTx (acq : Acquisition) (from to : AcqState) (ev : Event) (nowMs : Z)
  : M World unit :=
  Acquisitions_Transition (a_ID acq) from to nowMs ;;;
  Events_Append ev.

(** ** Ranking *)

Record candidate := MkCand { cd_ID : string; cd_score : Z; cd_tier : Z; cd_slack : Z }.

(** The comparator of [sort.Slice]: billing tier, then smallest slack within
    tier 0, then capacity best fit, then id. *)
Definition cand_lt (a b : candidate) : bool :=
  if decide (cd_tier a = cd_tier b) then
    if bool_decide (cd_tier a = 0) && negb (bool_decide (cd_slack a = cd_slack b))
    then bool_decide (cd_slack a < cd_slack b)
    else if decide (cd_score a = cd_score b)
    then bool_decide (cd_ID a ≠ cd_ID b) && bool_decide (str_le (cd_ID a) (cd_ID b))
    else bool_decide (cd_score a < cd_score b)
  else bool_decide (cd_tier a < cd_tier b).

(** Ids are distinct, so a sort by "not greater" is the sort by "less". *)
Definition cand_le (a b : candidate) : Prop := cand_lt b a = false.
#[global] Instance cand_le_dec : RelDecision cand_le.
Proof. intros a b. unfold cand_le. apply _. Defined.

(** The middle of the sorted sample ([ds[len(ds)/2]]). *)
Definition median (ds : list Z) : option Z :=
  merge_sort Z.le ds !! (length ds / 2)%nat.

Definition opDuration (o : Operation) : Z := mul64 (o_UpdatedAt o - o_CreatedAt o) Millisecond.

(** [err == nil && len(ops) > 0] picks the sample, anything else the default. *)
Definition p50 (r : result (list Operation)) (dflt : Z) : Z :=
  match r with
  | Ok ops => default dflt (median (opDuration <$> ops))
  | Err _ => dflt
  end.

(** The hold of the acquisition pre-bound to a machine: [None] skips the
    machine (a hold without end), no pre-bound acquisition means no hold. *)
Definition holdOf (res : string) (acqs : list Acquisition) : option Z :=
  match list_find (λ pa, a_PendingResourceID pa = Some res) acqs with
  | Some (_, pa) => if decide (a_TTLSeconds pa ≤ 0) then None else Some (a_TTLSeconds pa * 1000)
  | None => Some 0
  end.

(** Latest expiry of the blocking leases, unless one has none. *)
Fixpoint freeAt (ls : list Lease) (acc : Z) : option Z :=
  match ls with
  | [] => Some acc
  | l :: ls => match l_ExpiresAt l with
               | None => None
               | Some t => freeAt ls (Z.max acc t)
               end
  end.

(** [better]: the smallest estimate so far, floored at zero. *)
Definition better (best : option Z) (d : Z) : option Z :=
  let d := Z.max d 0 in
  match best with
  | None => Some d
  | Some b => if decide (d < b) then Some d else best
  end.

Definition liveFilter (acq : Acquisition) (phases : list Phase) : ResourceFilter :=
  MkFilter (a_Kind acq) "" None false (a_Class acq) phases [OwnershipManaged] ∅ false.

Section scheduler.
Context `{ULID} {P : Type} `{Providers P}.
Variable ownerID : string.

(** *** Start backoff, in memory *)

Definition underStartBackoff (id : string) (nowMs : Z) : M (Sys P) bool :=
  getsM (λ s, bool_decide (nowMs < (default (0, 0) (sy_StartFail s !! id)).1)).

(** 30 s doubling up to the 10 min cap. *)
Definition startBackoffDelay (attempts : Z) : Z :=
  let d := shl64 (30 * Second) (Z.min (attempts - 1) 5) in
  if decide (10 * Minute < d) then 10 * Minute else d.

Definition bumpStartBackoff (id : string) (nowMs : Z) : M (Sys P) unit :=
  modifyM (λ s,
    let attempts := (default (0, 0) (sy_StartFail s !! id)).2 + 1 in
    with_sy_StartFail
      (<[id := (nowMs + Milliseconds (startBackoffDelay attempts), attempts)]> (sy_StartFail s)) s).

Definition clearStartBackoff (id : string) : M (Sys P) unit :=
  modifyM (λ s, with_sy_StartFail (delete id (sy_StartFail s)) s).

(** *** Candidates *)

(** Where the lease's end falls against the billing boundary. *)
Definition billingTier (acq : Acquisition) (res : Resource) (nowMs : Z) : Z * Z :=
  if decide (0 < a_TTLSeconds acq) then
    let pol := (Billing_ (r_Provider res) (r_Kind res)).1 in
    if FineGrained pol then (2, 0) else
    match Billing.NextBoundary (r_CreatedAt res) pol nowMs with
    | None => (2, 0)
    | Some b =>
        let buffer := Billing.EffectiveBuffer pol (15 * Second) in
        let leaseEnd := nowMs + a_TTLSeconds acq * 1000 in
        let safe := b - Milliseconds buffer in
        if decide (leaseEnd ≤ safe) then (0, safe - leaseEnd)
        else if decide (leaseEnd ≤ b) then (1, 0)
        else (2, 0)
    end
  else (2, 0).

(** One round of the loop of [rankedCandidates]. *)
Definition candidateOf (acq : Acquisition) (want : Vector) (exclusive : bool) (nowMs : Z)
    (res : Resource) (active : list Lease) : option candidate :=
  match Parse (r_Capacity res) with
  | Err _ => None
  | Ok total =>
      if exclusive && negb (bool_decide (active = [])) then None else
      match usedBy active ∅ with
      | None => None
      | Some used =>
          if Fits total used want then
            let '(tier, slack) := billingTier acq res nowMs in
            Some (MkCand (r_ID res) (FreeAfter total used want) tier slack)
          else None
      end
  end.

Definition rankedCandidates (acq : Acquisition) (want : Vector) (exclusive : bool)
  : M World (list candidate) :=
  rs <- Resources_List (liveFilter acq [Ready; Allocated]) ;;
  getsM (λ w, merge_sort cand_le (omap (λ res,
    candidateOf acq want exclusive (w_Clock w) res
      (select (active_on (r_ID res)) (db_Leases (w_DB w)))) rs)).

(** *** Reservation *)

Definition reserve (acq : Acquisition) (resID : string) (want : Vector) (exclusive : bool)
  : M (Sys P) string :=
  leaseID <- onWorld (newID "lease") ;;
  nowMs <- clockNow ;;
  inTx (reserveTx acq leaseID resID want exclusive nowMs) ;;;
  retM leaseID.

(** At most three attempts; conflict and insufficiency go on. *)
Fixpoint tryReserve (n : nat) (acq : Acquisition) (want : Vector) (exclusive : bool)
    (cands : list candidate) : M (Sys P) (option string) :=
  match n, cands with
  | S n, c :: cands =>
      r <- tryM (reserve acq (cd_ID c) want exclusive) ;;
      match r with
      | Ok _ => retM (Some (cd_ID c))
      | Err EConflict | Err EInsufficient => tryReserve n acq want exclusive cands
      | Err e => failM e
      end
  | _, _ => retM None
  end.

(** [observeBound]: metrics aside, a bound acquisition leaves the queue. *)
Definition observeBound (acq : Acquisition) (resID : string) : M (Sys P) unit :=
  if decide (a_PendingResourceID acq = Some resID) then retM tt
  else modifyM (λ s, with_sy_Queued (sy_Queued s ∖ {[ a_ID acq ]}) s).

(** *** Starting parked machines *)

Definition startParkedTx (acq : Acquisition) (resID : string) (nowMs : Z) : M World unit :=
  Acquisitions_Transition (a_ID acq) AcqPending AcqProvisioning nowMs ;;;
  (JournalStart resID nowMs (a_Actor acq) ;;; retM tt) ;;;
  Acquisitions_SetPendingResource (a_ID acq) resID.

Definition parkedCandidate (want : Vector) (nowMs : Z) (startFail : gmap string (Z * Z))
    (res : Resource) : option candidate :=
  if bool_decide (nowMs < (default (0, 0) (startFail !! r_ID res)).1) then None
  else if negb (pk_Supported (Parking_ (r_Provider res) (r_Kind res))) then None
  else match Parse (r_Capacity res) with
       | Err _ => None
       | Ok total =>
           if Fits total ∅ want
           then Some (MkCand (r_ID res) (FreeAfter total ∅ want) 1 0) else None
       end.

Fixpoint tryStart (n : nat) (acq : Acquisition) (nowMs : Z) (cands : list candidate)
  : M (Sys P) bool :=
  match n, cands with
  | S n, c :: cands =>
      r <- tryM (inTx (startParkedTx acq (cd_ID c) nowMs)) ;;
      match r with
      | Ok _ => engineKick ;;; retM true
      | Err EConflict => tryStart n acq nowMs cands
      | Err e => failM e
      end
  | _, _ => retM false
  end.

Definition startParked (acq : Acquisition) (want : Vector) : M (Sys P) bool :=
  rs <- onWorld (Resources_List (liveFilter acq [Parked])) ;;
  nowMs <- clockNow ;;
  cands <- getsM (λ s, merge_sort cand_le
             (omap (parkedCandidate want nowMs (sy_StartFail s)) rs)) ;;
  tryStart 3 acq nowMs cands.

(** *** Queueing *)

Definition markQueued (acq : Acquisition) : M (Sys P) unit :=
  first <- getsM (λ s, bool_decide (a_ID acq ∉ sy_Queued s)) ;;
  modifyM (λ s, with_sy_Queued ({[ a_ID acq ]} ∪ sy_Queued s) s) ;;;
  if first : bool then
    nowMs <- clockNow ;;
    ignoreM (inTx (Events_Append (MkEvent nowMs (a_Actor acq) "" "acquisition.queued"
                                    None None None "" "queued")))
  else retM tt.

Definition startEstimate (prov kind : string) : M World Z :=
  r <- tryM (Operations_RecentTerminal prov OpKindStart 20) ;;
  let hint := pk_StartEstimate (Parking_ prov kind) in
  retM (p50 r (if decide (0 < hint) then hint else 60 * Second)).

Definition provisioningEstimate (prov : string) : M World Z :=
  r <- tryM (Operations_RecentTerminal prov OpKindCreate 20) ;;
  retM (p50 r (90 * Second)).

(** One round of [estimateWait]: what this machine adds to the best wait. *)
Definition estimateOne (acq : Acquisition) (want : Vector) (nowMs : Z) (best : option Z)
    (res : Resource) : M World (option Z) :=
  let prebound (est : M World Z) :=
    if bool_decide (a_Class acq = "") || negb (bool_decide (r_Class res = a_Class acq))
    then retM best
    else
      acqs <- Acquisitions_ListByState [AcqProvisioning] ;;
      match holdOf (r_ID res) acqs with
      | None => retM best
      | Some holdMs => e <- est ;; retM (better best (add64 e (mul64 holdMs Millisecond)))
      end in
  match r_Phase res with
  | Starting => prebound (startEstimate (r_Provider res) (r_Kind res))
  | Provisioning => prebound (provisioningEstimate (r_Provider res))
  | _ =>
      match Parse (r_Capacity res) with
      | Err _ => retM best
      | Ok total =>
          if negb (Fits total ∅ want) then retM best else
          active <- Leases_ActiveByResource (r_ID res) ;;
          match active with
          | [] => retM best
          | _ => retM (match freeAt active 0 with
                       | Some t => better best (mul64 (t - nowMs) Millisecond)
                       | None => best
                       end)
          end
      end
  end.

Fixpoint foldEstimates (acq : Acquisition) (want : Vector) (nowMs : Z) (best : option Z)
    (rs : list Resource) : M World (option Z) :=
  match rs with
  | [] => retM best
  | res :: rs => b <- estimateOne acq want nowMs best res ;; foldEstimates acq want nowMs b rs
  end.

Definition estimateWait (acq : Acquisition) (want : Vector) : M World (option Z) :=
  rs <- Resources_List (liveFilter acq [Ready; Allocated; Provisioning; Starting]) ;;
  nowMs <- nowM ;;
  foldEstimates acq want nowMs None rs.

(** *** Scaling *)

Definition scaleOnDemand (acq : Acquisition) : M (Sys P) Acquisition :=
  if decide (a_Class acq = "") then failM ENoCapacity else
  c <- onWorld (lookupClass (a_Class acq)) ;;
  match c with
  | None => failM (EOther "unknown class")
  | Some cls =>
      nowMs <- clockNow ;;
      p <- onWorld (Prepare ownerID (MkCreate (cl_Kind cls) (cl_Provider cls) "" (cl_Spec cls)
             {[ "fleetplane.io/acquisition" := a_ID acq ]} (a_Class acq) None) nowMs) ;;
      inTx (prebindTx acq p nowMs) ;;;
      engineKick ;;;
      onWorld (Acquisitions_Get (a_ID acq))
  end.

(** *** The ladder *)

Definition Satisfy (acqID : string) : M (Sys P) Acquisition :=
  acq <- onWorld (Acquisitions_Get acqID) ;;
  if negb (bool_decide (a_State acq = AcqPending)) then retM acq else
  rq <- liftR (ParseRequest (a_Constraints acq)) ;;
  let '(req, want, exclusive) := rq in
  cands <- onWorld (rankedCandidates acq want exclusive) ;;
  bound <- tryReserve 3 acq want exclusive cands ;;
  match bound with
  | Some resID => observeBound acq resID ;;; onWorld (Acquisitions_Get acqID)
  | None =>
      resumed <- startParked acq want ;;
      if resumed : bool then onWorld (Acquisitions_Get acqID) else
      nowMs <- clockNow ;;
      let deadline := a_CreatedAt acq + rq_MaxWaitMs req in
      est <- (if bool_decide (0 < rq_MaxWaitMs req) && bool_decide (nowMs < deadline)
              then onWorld (estimateWait acq want) else retM None) ;;
      match est with
      | Some e =>
          if decide (nowMs + Milliseconds e ≤ deadline)
          then markQueued acq ;;; retM acq else scaleOnDemand acq
      | None => scaleOnDemand acq
      end
  end.

(** *** Terminal operations and the sweep *)

Definition wantOf (acq : Acquisition) : result (Vector * bool) :=
  match ParseRequest (a_Constraints acq) with
  | Ok (_, want, exclusive) => Ok (want, exclusive)
  | Err e => Err e
  end.

Definition rePend (acq : Acquisition) (nowMs : Z) : M (Sys P) unit :=
  ignoreM (inTx (rePendTx acq nowMs)).

(** [opKind] and [opState] are what it reads of the operation;
    [a_PendingResourceID acq] is not nil here. *)
Definition resolvePending (acq : Acquisition) (opKind : OpKind) (opState : OpState)
  : M (Sys P) unit :=
  nowMs <- clockNow ;;
  match opState with
  | OpSucceeded =>
      match wantOf acq, a_PendingResourceID acq with
      | Ok (want, exclusive), Some res => ignoreM (reserve acq res want exclusive)
      | _, _ => retM tt
      end
  | OpFailed | OpAborted =>
      if decide (opKind = OpKindStart) then rePend acq nowMs
      else ignoreM (inTx (Acquisitions_Transition (a_ID acq) AcqProvisioning AcqFailed nowMs))
  | _ => retM tt
  end.

Definition Scheduler_HandleOpTerminal (op : Operation) : M (Sys P) unit :=
  match o_ResourceID op with
  | None => retM tt
  | Some resID =>
      if negb (mem (o_Kind op) [OpKindCreate; OpKindStart]) then retM tt else
      (if decide (o_Kind op = OpKindStart) then
         match o_State op with
         | OpSucceeded => clearStartBackoff resID
         | OpFailed | OpAborted => nowMs <- clockNow ;; bumpStartBackoff resID nowMs
         | _ => retM tt
         end
       else retM tt) ;;;
      opened <- onWorld (Acquisitions_ListByState [AcqProvisioning]) ;;
      forM_ opened (λ acq,
        if decide (a_PendingResourceID acq = Some resID)
        then resolvePending acq (o_Kind op) (o_State op) else retM tt)
  end.

Definition timedOut (pendingTimeout since nowMs : Z) : bool :=
  bool_decide (0 < pendingTimeout) && bool_decide (pendingTimeout < nowMs - since).

Definition resumePending (pendingTimeout nowMs : Z) (acq : Acquisition) : M (Sys P) unit :=
  r <- tryM (Satisfy (a_ID acq)) ;;
  match r with
  | Err ENoCapacity =>
      ignoreM (inTx (closeAcqTx acq AcqPending AcqFailed
        (MkEvent nowMs (a_Actor acq) "" "acquisition.failed" None None None "" "no_capacity") nowMs))
  | _ =>
      c <- tryM (onWorld (Acquisitions_Get (a_ID acq))) ;;
      match c with
      | Ok cur =>
          if bool_decide (a_State cur = AcqPending) && timedOut pendingTimeout (a_CreatedAt cur) nowMs
          then ignoreM (inTx (Acquisitions_Transition (a_ID acq) AcqPending AcqExpired nowMs))
          else retM tt
      | Err _ => retM tt
      end
  end.

Definition resumeProvisioning (pendingTimeout nowMs : Z) (acq : Acquisition) : M (Sys P) unit :=
  if timedOut pendingTimeout (a_UpdatedAt acq) nowMs
  then ignoreM (inTx (closeAcqTx acq AcqProvisioning AcqExpired
         (MkEvent nowMs (a_Actor acq) "" "acquisition.expired" (a_PendingResourceID acq)
            None None "" "provisioning_timeout") nowMs))
  else match a_PendingResourceID acq with
  | None => retM tt
  | Some resID =>
      r <- tryM (onWorld (Resources_Get resID)) ;;
      match r with
      | Err _ => retM tt
      | Ok res =>
          match r_Phase res with
          | Ready => resolvePending acq OpKindCreate OpSucceeded
          | Failed => resolvePending acq OpKindCreate OpFailed
          | Parked => rePend acq nowMs
          | _ => retM tt
          end
      end
  end.

Definition Scheduler_Resume (pendingTimeout : Z) : M (Sys P) unit :=
  opened <- onWorld (Acquisitions_ListByState [AcqPending; AcqProvisioning]) ;;
  nowMs <- clockNow ;;
  forM_ opened (λ acq,
    match a_State acq with
    | AcqPending => resumePending pendingTimeout nowMs acq
    | AcqProvisioning => resumeProvisioning pendingTimeout nowMs acq
    | _ => retM tt
    end).
End scheduler.
