(* ===== verification/Reconcile.v ===== *)
(** * The reconciler (internal/reconcile/reconcile.go)

    Poolless reclaim with its billing window, and one convergence cycle of a
    pool, with the deletes and parks they journal. Transaction bodies first. *)

From stdpp Require Import base gmap strings list sorting.
From S2P Require Import Prelude Errors Json Phase SDK Capacity Types Store Classes Provision Sys.
From S2P Require Billing.

Record Config := MkConfig {
  Interval : Z; MaxMutationsPerCycle : Z; FailureBackoffBase : Z; FailureBackoffCap : Z
}.
Definition defaults (c : Config) : Config :=
  let or z d := if decide (z ≤ 0) then d else z in
  MkConfig (or (Interval c) (15 * Second)) (or (MaxMutationsPerCycle c) 5)
    (or (FailureBackoffBase c) (5 * Second)) (or (FailureBackoffCap c) (10 * Minute)).

(** ** Transaction bodies *)

(** [journalDeleteInTx]: ownership, protection and lease gates, then the
    tombstone of a resource that never materialized or the journaled delete. *)
Definition journalDeleteInTx `{ULID} (cur : Resource) (nowMs : Z) (actor : string)
  : M World unit :=
  refuse (negb (bool_decide (r_Ownership cur = OwnershipManaged)) || r_DeleteProtected cur)
    EConflict ;;;
  n <- Leases_CountActive (r_ID cur) ;;
  refuse (bool_decide (0 < n)) EConflict ;;;
  match r_ExternalID cur with
  | None => Resources_MarkDeleted (r_ID cur) nowMs
  | Some ext =>
      Resources_CASPhase (r_ID cur) (r_Phase cur) Deleting nowMs ;;;
      opID <- newID "op" ;;
      let action := MkAction opID "delete" (r_ID cur) (Some (refOf cur ext)) None true in
      Operations_Append (journaledOp opID OpKindDelete (Some (r_ID cur)) (r_PoolID cur)
                           (r_Provider cur) action nowMs) ;;;
      Events_Append (MkEvent nowMs actor "" "resource.delete" (Some (r_ID cur)) (r_PoolID cur)
                       (Some opID) (r_Provider cur) "journaled")
  end.

(** [journalDelete]: the two-step path, after a drain or a failure. *)
Definition journalDeleteTx `{ULID} (resID : string) (nowMs : Z) : M World unit :=
  cur <- Resources_Get resID ;;
  refuse (negb (live cur) || (negb (bool_decide (r_Phase cur = Draining))
                              && negb (bool_decide (r_Phase cur = Failed)))) EConflict ;;;
  journalDeleteInTx cur nowMs "reconciler".

(** [satisfiable]: kind and class match, and an idle machine would fit. *)
Definition satisfiable (acq : Acquisition) (want : Vector) (res : Resource) (total : Vector)
  : bool :=
  bool_decide (a_Kind acq = r_Kind res) &&
  (bool_decide (a_Class acq = "") || bool_decide (a_Class acq = r_Class res)) &&
  Fits total ∅ want.

(** A pending acquisition still inside its queue deadline, with its want. *)
Definition inDeadline (nowMs : Z) (acq : Acquisition) : option (Acquisition * Vector) :=
  match ParseRequest (a_Constraints acq) with
  | Err _ => None
  | Ok (req, want, _) =>
      if bool_decide (0 < rq_MaxWaitMs req)
         && bool_decide (a_CreatedAt acq + rq_MaxWaitMs req < nowMs)
      then None else Some (acq, want)
  end.

(** [costReclaim]: delete with every gate re-checked; queued work blocks it
    when the other ready machines would not do. *)
Definition costReclaimTx `{ULID} (resID : string) (nowMs : Z) (from : Phase) : M World unit :=
  cur <- Resources_Get resID ;;
  refuse (negb (live cur) || negb (bool_decide (r_Phase cur = from))) EConflict ;;;
  pend <- Acquisitions_ListByState [AcqPending] ;;
  let total := match Parse (r_Capacity cur) with Ok t => t | Err _ => ∅ end in
  let satis := length (filter (λ aw, satisfiable aw.1 aw.2 cur total = true)
                         (omap (inDeadline nowMs) pend)) in
  (if decide (0 < satis)%nat then
     others <- Resources_List (MkFilter (r_Kind cur) "" None false (r_Class cur) [Ready]
                                 [OwnershipManaged] ∅ false) ;;
     let remaining := length (filter (λ o, r_ID o ≠ r_ID cur) others) in
     refuse (bool_decide (remaining < satis)%nat) EConflict
   else retM tt) ;;;
  journalDeleteInTx cur nowMs "cost-reclaim".

(** A park or a start journaled on its own. *)
Definition stopTx `{ULID} {P} `{Providers P} (resID : string) (nowMs : Z) (actor : string)
    (requireUnprotected : bool) : M World unit :=
  JournalStop resID nowMs actor requireUnprotected ;;; retM tt.
Definition startTx `{ULID} {P} `{Providers P} (resID : string) (nowMs : Z) (actor : string)
  : M World unit :=
  JournalStart resID nowMs actor ;;; retM tt.

(** ** Pure parts *)

Definition idleSinceOf (r : Resource) : Z :=
  let s := match r_ReadyAt r with Some t => t | None => r_CreatedAt r end in
  match r_LastLeaseEndedAt r with
  | Some t => if decide (s < t) then t else s
  | None => s
  end.

(** [for j := i; j > 0 && f(out[j]) < f(out[j-1]); j-- { swap }]. *)
Fixpoint sink {A} (f : A → Z) (j : nat) (out : list A) : list A :=
  match j with
  | O => out
  | S i =>
      match out !! j, out !! i with
      | Some x, Some y =>
          if decide (f x < f y) then sink f i (<[i := x]> (<[j := y]> out)) else out
      | _, _ => out
      end
  end.

(** [for i := 1; i < len(out); i++ { ... }]. *)
Definition insertionSort {A} (f : A → Z) (out : list A) : list A :=
  foldl (λ out i, sink f i out) out (seq 1 (length out - 1)).

(** What [reclaimable] keeps: its own copy of [idleSinceOf] is the same. *)
Definition idleEnough (policy : option ReclaimPolicy) (nowMs : Z) (res : Resource) : bool :=
  let idleAfter := match policy with Some p => Milliseconds (IdleAfter p) | None => 0 end in
  negb (r_DeleteProtected res) && bool_decide (idleAfter ≤ nowMs - idleSinceOf res).

Definition reclaimable (ready : list Resource) (policy : option ReclaimPolicy) (nowMs : Z)
  : list Resource :=
  insertionSort idleSinceOf (filter (λ res, idleEnough policy nowMs res = true) ready).

Definition parkedAt (r : Resource) : Z := default 0 (r_ParkedAt r).

(** Oldest parked first; rows come in id order, the sort is stable. *)
Definition parkedOldestFirst (l : list Resource) : list Resource := order_by parkedAt l.

(** [claimQueued] over the queued acquisitions, the matched ones flagged. *)
Fixpoint claim (total : Vector) (res : Resource) (queued : list (Acquisition * Vector * bool))
  : option (list (Acquisition * Vector * bool)) :=
  match queued with
  | [] => None
  | (acq, want, matched) :: queued =>
      if matched || negb (satisfiable acq want res total)
      then cons (acq, want, matched) <$> claim total res queued
      else Some ((acq, want, true) :: queued)
  end.

Definition claimQueued (queued : list (Acquisition * Vector * bool)) (res : Resource)
  : option (list (Acquisition * Vector * bool)) :=
  match Parse (r_Capacity res) with
  | Err _ => None
  | Ok total => claim total res queued
  end.

Definition maxDur (a b : Z) : Z := if decide (b < a) then a else b.

Section reconcile.
Context `{ULID} {P : Type} `{Providers P}.
Variable cfg : Config.
Variable ownerID : string.

Definition casPhase (id : string) (from to : Phase) (nowMs : Z) : M (Sys P) unit :=
  inTx (Resources_CASPhase id from to nowMs).
Definition journalDelete (res : Resource) (nowMs : Z) : M (Sys P) unit :=
  inTx (journalDeleteTx (r_ID res) nowMs).
Definition costReclaim (res : Resource) (nowMs : Z) (from : Phase) : M (Sys P) unit :=
  inTx (costReclaimTx (r_ID res) nowMs from).

(** *** Failure backoff, persisted per pool *)

Definition checkpointKey (pool : string) : string := "pool:" +:+ pool.
Definition zeroCheckpoint : Checkpoint := MkCheckpoint 0 0 "".
Definition readCheckpoint (r : result (jcol Checkpoint)) : Checkpoint :=
  match r with Ok (JVal cp) => cp | _ => zeroCheckpoint end.

Definition failureBackoffUntil (pool : string) : M World Z :=
  r <- tryM (Checkpoints_Get (checkpointKey pool)) ;;
  retM (ck_FailureBackoffTill (readCheckpoint r)).

Definition failureDelay (attempt : Z) : Z :=
  let d := shl64 (FailureBackoffBase cfg) (Z.min attempt 12) in
  if decide (FailureBackoffCap cfg < d ∨ d ≤ 0) then FailureBackoffCap cfg else d.

Definition bumpFailureTx (pool : string) : M World unit :=
  r <- tryM (Checkpoints_Get (checkpointKey pool)) ;;
  nowMs <- nowM ;;
  let attempt := ck_FailureAttempt (readCheckpoint r) + 1 in
  Checkpoints_Put (checkpointKey pool)
    (JVal (MkCheckpoint attempt (nowMs + Milliseconds (failureDelay attempt)) "")).

Definition bumpFailureBackoff (pool : string) : M (Sys P) unit :=
  ignoreM (inTx (bumpFailureTx pool)).
Definition resetFailureBackoff (pool : string) : M (Sys P) unit :=
  ignoreM (inTx (Checkpoints_Put (checkpointKey pool) (JVal zeroCheckpoint))).

Definition Reconciler_HandleOpTerminal (op : Operation) : M (Sys P) unit :=
  match o_PoolID op with
  | None => retM tt
  | Some pool =>
      (if decide (o_Kind op = OpKindCreate ∧ o_State op = OpFailed)
       then bumpFailureBackoff pool else retM tt) ;;;
      (if decide (o_Kind op = OpKindCreate ∧ o_State op = OpSucceeded)
       then resetFailureBackoff pool else retM tt) ;;;
      poolKick pool
  end.

(** *** Poolless reclaim *)

Definition queuedAcquisitions (nowMs : Z) : M World (list (Acquisition * Vector * bool)) :=
  pend <- Acquisitions_ListByState [AcqPending] ;;
  retM ((λ aw, (aw.1, aw.2, false)) <$> omap (inDeadline nowMs) pend).

(** The adaptive part of [effectiveBuffer]: first-attempt delete durations
    of the provider, kept for a minute. *)
Definition adaptiveBuffer (prov : string) (pol : BillingPolicy) (base nowMs : Z)
  : M (Sys P) Z :=
  r <- tryM (onWorld (Operations_RecentTerminal prov OpKindDelete 50)) ;;
  let observed := match r with
    | Ok ops => (λ o, mul64 (o_UpdatedAt o - o_CreatedAt o) Millisecond) <$>
                filter (λ o, o_Attempt o ≤ 1) ops
    | Err _ => []
    end in
  let buf := Billing.AdaptiveBuffer observed base Minute (Z.quot (BillingIncrement pol) 2) in
  modifyM (λ s, with_sy_Adaptive (<[prov := (buf, nowMs)]> (sy_Adaptive s)) s) ;;;
  retM (maxDur base buf).

Definition effectiveBuffer (prov kind : string) (pol : BillingPolicy) : M (Sys P) Z :=
  let base := Billing.EffectiveBuffer pol (Interval cfg) in
  if negb (Billing_ prov kind).2 then retM base else
  nowMs <- clockNow ;;
  cached <- getsM (λ s, sy_Adaptive s !! prov) ;;
  match cached with
  | Some (buffer, computedAt) =>
      if decide (nowMs - computedAt < 60000) then retM (maxDur base buffer)
      else adaptiveBuffer prov pol base nowMs
  | None => adaptiveBuffer prov pol base nowMs
  end.

(** Does the billing window say to terminate now? Past the cutoff the
    missed window is noted once. *)
Definition billingAllows (res : Resource) (nowMs : Z) : M (Sys P) bool :=
  let pol := (Billing_ (r_Provider res) (r_Kind res)).1 in
  if FineGrained pol then retM true else
  buffer <- effectiveBuffer (r_Provider res) (r_Kind res) pol ;;
  match Billing.TerminationWindow (r_CreatedAt res) pol nowMs buffer 0 with
  | None => retM true
  | Some w =>
      match Billing.Decide w nowMs with
      | Billing.Keep => retM false
      | Billing.Terminate => retM true
      | Billing.Crossed =>
          modifyM (λ s, with_sy_Missed (<[r_ID res := Billing.BoundaryMs w]> (sy_Missed s)) s) ;;;
          retM false
      end
  end.

Definition forgetMissed (id : string) : M (Sys P) unit :=
  modifyM (λ s, with_sy_Missed (delete id (sy_Missed s)) s).

(** The loop variables of [ReclaimPoolless]. *)
Record Sweep := MkSweep {
  sw_queued : list (Acquisition * Vector * bool);
  sw_budget : Z; sw_costBudget : Z; sw_n : Z
}.

(** [if err := ...; err == nil { n++; costBudget-- }]. *)
Definition costly (sw : Sweep) (m : M (Sys P) unit) : M (Sys P) Sweep :=
  r <- tryM m ;;
  retM (match r with
        | Ok _ => MkSweep (sw_queued sw) (sw_budget sw) (sw_costBudget sw - 1) (sw_n sw + 1)
        | Err _ => sw
        end).

Definition reclaimParked (pol : ReclaimPolicy) (nowMs : Z) (sw : Sweep) (res : Resource)
  : M (Sys P) Sweep :=
  let da := DeleteAfter pol in
  if bool_decide (da ≤ 0) || match r_ParkedAt res with
       | None => true | Some t => bool_decide (nowMs - t < Milliseconds da) end
  then retM sw
  else match claimQueued (sw_queued sw) res with
  | Some queued => retM (MkSweep queued (sw_budget sw) (sw_costBudget sw) (sw_n sw))
  | None => costly sw (costReclaim res nowMs Parked)
  end.

Definition reclaimIdle (pol : ReclaimPolicy) (nowMs : Z) (sw : Sweep) (res : Resource)
  : M (Sys P) Sweep :=
  if decide (IdleAfter pol ≤ 0 ∨ nowMs - idleSinceOf res < Milliseconds (IdleAfter pol))
  then retM sw
  else match claimQueued (sw_queued sw) res with
  | Some queued => retM (MkSweep queued (sw_budget sw) (sw_costBudget sw) (sw_n sw))
  | None =>
      go <- billingAllows res nowMs ;;
      if negb go then retM sw
      else if ParkEnabled (Some pol) && pk_Supported (Parking_ (r_Provider res) (r_Kind res))
      then costly sw (inTx (stopTx (r_ID res) nowMs "reconciler" true) ;;; forgetMissed (r_ID res))
      else costly sw (costReclaim res nowMs Ready ;;; forgetMissed (r_ID res))
  end.

Definition reclaimOne (nowMs : Z) (sw : Sweep) (res : Resource) : M (Sys P) Sweep :=
  if decide (r_Phase res = Draining) then
    if decide (sw_budget sw ≤ 0) then retM sw else
    r <- tryM (journalDelete res nowMs) ;;
    retM (match r with
          | Ok _ => MkSweep (sw_queued sw) (sw_budget sw - 1) (sw_costBudget sw) (sw_n sw + 1)
          | Err _ => sw
          end)
  else
    c <- onWorld (lookupClass (r_Class res)) ;;
    match c ≫= cl_Reclaim with
    | None => retM sw
    | Some pol =>
        if r_DeleteProtected res || bool_decide (sw_costBudget sw ≤ 0) then retM sw
        else if decide (r_Phase res = Parked) then reclaimParked pol nowMs sw res
        else reclaimIdle pol nowMs sw res
    end.

Fixpoint sweepAll (nowMs : Z) (sw : Sweep) (l : list Resource) : M (Sys P) Sweep :=
  match l with
  | [] => retM sw
  | res :: l => sw <- reclaimOne nowMs sw res ;; sweepAll nowMs sw l
  end.

Definition ReclaimPoolless : M (Sys P) Z :=
  rs <- onWorld (Resources_List (MkFilter "" "" None true "" [Ready; Draining; Parked]
                   [OwnershipManaged] ∅ false)) ;;
  nowMs <- clockNow ;;
  queued <- onWorld (queuedAcquisitions nowMs) ;;
  sw <- sweepAll nowMs (MkSweep queued (MaxMutationsPerCycle cfg) 50 0) rs ;;
  retM (sw_n sw).

(** *** One cycle of a pool *)

Record Delta := MkDelta {
  Counted : Z; d_Ready : Z; d_Provisioning : Z; d_Allocated : Z; d_Draining : Z;
  d_Failed : Z; d_Parking : Z; d_Parked : Z; d_Starting : Z;
  Created : Z; Drained : Z; Undrained : Z; Deleted : Z; ParkedNow : Z; Started : Z
}.
Definition zeroDelta : Delta := MkDelta 0 0 0 0 0 0 0 0 0 0 0 0 0 0 0.

(** [for _, x := range l { if stop { break }; if err := body(x); err == nil
    { k++ } }]: every loop variable of the cycle moves by one per success,
    so the count [k] of successes is the state of the loop. *)
Fixpoint attempts {X} (stop : Z → X → bool) (body : X → M (Sys P) unit) (l : list X) (k : Z)
  : M (Sys P) Z :=
  match l with
  | [] => retM k
  | x :: l =>
      if stop k x then retM k
      else r <- tryM (body x) ;;
           attempts stop body l (match r with Ok _ => k + 1 | Err _ => k end)
  end.

(** [template]: kind, provider, machine spec and reclaim policy. *)
Definition template (spec : PoolSpec)
  : M World (string * string * raw * option ReclaimPolicy) :=
  if decide (ps_Class spec = "") then
    match ps_Machine spec with
    | Some m =>
        if decide (ps_Provider spec = "" ∨ ps_Kind spec = "")
        then failM (EOther "pool spec needs either class or kind+provider+machine")
        else retM (ps_Kind spec, ps_Provider spec, RawDoc m, ps_Reclaim spec)
    | None => failM (EOther "pool spec needs either class or kind+provider+machine")
    end
  else
    c <- lookupClass (ps_Class spec) ;;
    match c with
    | None => failM (EOther "unknown class")
    | Some cls => retM (cl_Kind cls, cl_Provider cls, cl_Spec cls,
                        match ps_Reclaim spec with
                        | Some r => Some r | None => cl_Reclaim cls end)
    end.

Definition journalTx (p : Prepared) (actor idemKey : string) : M World unit :=
  Journal p actor idemKey.

Definition createOne (pool : Pool) (kind providerName : string) (machine : raw) (nowMs : Z)
  : M (Sys P) unit :=
  p <- onWorld (Prepare ownerID (MkCreate kind providerName "" machine
         {[ "fleetplane.io/pool" := p_Name pool ]} (classNameOf pool) (Some (p_ID pool))) nowMs) ;;
  inTx (journalTx p "reconciler" "").

(** [for i := 0; i < n; i++ { if err := createOne(...); err != nil { break } }]. *)
Fixpoint creates (n : nat) (create : M (Sys P) unit) : M (Sys P) Z :=
  match n with
  | O => retM 0
  | S n => r <- tryM create ;;
           match r with
           | Ok _ => k <- creates n create ;; retM (k + 1)
           | Err _ => retM 0
           end
  end.

(** The number of creates the cycle may journal. *)
Definition createCount (spec : PoolSpec) (deficit liveTotal budget : Z) : Z :=
  let n := if decide (0 < ps_MaxResources spec
                      ∧ ps_MaxResources spec < add64 liveTotal deficit)
           then sub64 (ps_MaxResources spec) liveTotal else deficit in
  Z.min n budget.

Definition nonpos (z : Z) : bool := bool_decide (z ≤ 0).
Definition kickIf (k : Z) : M (Sys P) unit := if decide (0 < k) then engineKick else retM tt.

Definition inPhase (p : Phase) (l : list Resource) : list Resource :=
  filter (λ r, r_Phase r = p) l.
Definition len {X} (l : list X) : Z := Z.of_nat (length l).

Definition undrainPass (draining : list Resource) (deficit budget nowMs : Z) : M (Sys P) Z :=
  attempts (λ k _, nonpos (deficit - k) || nonpos (budget - k))
    (λ res, casPhase (r_ID res) Draining Ready nowMs) draining 0.

Definition warmUpPass (spec : PoolSpec) (parked : list Resource) (hot budget nowMs : Z)
  : M (Sys P) Z :=
  if decide (0 < ps_MinRunning spec ∧ hot < ps_MinRunning spec ∧ 0 < budget) then
    k <- attempts (λ k _, bool_decide (ps_MinRunning spec ≤ hot + k) || nonpos (budget - k))
           (λ res, inTx (startTx (r_ID res) nowMs "reconciler")) parked 0 ;;
    kickIf k ;;; retM k
  else retM 0.

Definition createPass (spec : PoolSpec) (pool : Pool) (kind prov : string) (machine : raw)
    (deficit liveTotal budget nowMs : Z) : M (Sys P) Z :=
  if decide (0 < deficit ∧ 0 < budget) then
    until <- onWorld (failureBackoffUntil (p_ID pool)) ;;
    if decide (nowMs < until) then retM 0
    else
      k <- creates (Z.to_nat (createCount spec deficit liveTotal budget))
             (createOne pool kind prov machine nowMs) ;;
      kickIf k ;;; retM k
  else retM 0.

Definition deleteParkedPass (parked : list Resource) (surplus budget nowMs : Z) : M (Sys P) Z :=
  if decide (0 < surplus ∧ 0 < budget) then
    attempts (λ k _, nonpos (surplus - k) || nonpos (budget - k))
      (λ res, costReclaim res nowMs Parked) (parkedOldestFirst parked) 0
  else retM 0.

(** The lease count is read outside the transaction, before the CAS. *)
Definition drainOne (res : Resource) (nowMs : Z) : M (Sys P) unit :=
  n <- onWorld (Leases_CountActive (r_ID res)) ;;
  refuse (bool_decide (0 < n)) EConflict ;;;
  casPhase (r_ID res) Ready Draining nowMs.

Definition drainPass (spec : PoolSpec) (ready : list Resource) (reclaim : option ReclaimPolicy)
    (surplus budget nowMs : Z) : M (Sys P) Z :=
  if decide (0 < surplus ∧ 0 < budget) then
    attempts (λ k _, nonpos (surplus - k) || nonpos (budget - k)
                     || bool_decide (len ready - k - 1 < ps_MinReady spec))
      (λ res, drainOne res nowMs) (reclaimable ready reclaim nowMs) 0
  else retM 0.

Definition deletePass (l : list Resource) (budget nowMs : Z) : M (Sys P) Z :=
  attempts (λ k _, nonpos (budget - k)) (λ res, journalDelete res nowMs) l 0.

Definition parkPass (spec : PoolSpec) (ready : list Resource) (reclaim : option ReclaimPolicy)
    (readyLeft hot budget nowMs : Z) : M (Sys P) Z :=
  if bool_decide (0 < ps_MinRunning spec)
     && match reclaim with Some p => bool_decide (0 < IdleAfter p) | None => false end
     && ParkEnabled reclaim && bool_decide (0 < budget) then
    k <- attempts (λ k res, nonpos (budget - k)
                     || bool_decide (readyLeft - k - 1 < ps_MinReady spec)
                     || bool_decide (hot - k - 1 < ps_MinRunning spec)
                     || negb (pk_Supported (Parking_ (r_Provider res) (r_Kind res))))
           (λ res, inTx (stopTx (r_ID res) nowMs "reconciler" true))
           (reclaimable ready reclaim nowMs) 0 ;;
    kickIf k ;;; retM k
  else retM 0.

Definition RunOnce (poolID : string) : M (Sys P) Delta :=
  pool <- onWorld (Pools_Get poolID) ;;
  if p_Paused pool then retM zeroDelta else
  spec <- liftR (parsePoolSpec (p_Spec pool)) ;;
  t <- onWorld (template spec) ;;
  let '(kind, prov, machine, reclaim) := t in
  all <- onWorld (Resources_List (MkFilter "" "" (Some poolID) false "" [] [] ∅ false)) ;;
  let rs p := inPhase p all in
  let counted := len (rs Provisioning) + len (rs Ready) + len (rs Allocated)
                 + len (rs Parking) + len (rs Parked) + len (rs Starting) in
  let hot := len (rs Provisioning) + len (rs Starting) + len (rs Ready) + len (rs Allocated) in
  let budget := MaxMutationsPerCycle cfg in
  nowMs <- clockNow ;;
  let deficit := sub64 (ps_Replicas spec) counted in
  undrained <- undrainPass (rs Draining) deficit budget nowMs ;;
  let '(counted, deficit, budget) :=
    (counted + undrained, deficit - undrained, budget - undrained) in
  started <- warmUpPass spec (rs Parked) hot budget nowMs ;;
  let '(hot, budget) := (hot + started, budget - started) in
  created <- createPass spec pool kind prov machine deficit (len all) budget nowMs ;;
  let budget := budget - created in
  let surplus := sub64 counted (ps_Replicas spec) in
  deletedParked <- deleteParkedPass (rs Parked) surplus budget nowMs ;;
  let '(surplus, budget) := (surplus - deletedParked, budget - deletedParked) in
  drained <- drainPass spec (rs Ready) reclaim surplus budget nowMs ;;
  let budget := budget - drained in
  deletedDrained <- deletePass (rs Draining) budget nowMs ;;
  let budget := budget - deletedDrained in
  deletedFailed <- deletePass (rs Failed) budget nowMs ;;
  let budget := budget - deletedFailed in
  parked <- parkPass spec (rs Ready) reclaim (len (rs Ready) - drained) hot budget nowMs ;;
  let deleted := deletedParked + deletedDrained + deletedFailed in
  kickIf deleted ;;;
  retM (MkDelta counted (len (rs Ready)) (len (rs Provisioning)) (len (rs Allocated))
    (len (rs Draining)) (len (rs Failed)) (len (rs Parking)) (len (rs Parked))
    (len (rs Starting)) created drained undrained deleted parked started).

(** *** The loop *)

(** Is a pool in what a round has to do? A nil map means every pool. *)
Definition todo (dirty : option (gset string)) (pool : string) : bool :=
  match dirty with None => true | Some d => bool_decide (pool ∈ d) end.

(** One turn of [Run], woken by a kick or by the interval's tick: the dirty
    set is taken over before anything is read, so what is kicked meanwhile
    is left for the next turn. *)
Definition Reconciler_round (tick : bool) : M (Sys P) unit :=
  modifyM (λ s, if tick then with_sy_Dirty None s else with_sy_Wake false s) ;;;
  dirty <- getsM sy_Dirty ;;
  modifyM (with_sy_Dirty (Some ∅)) ;;;
  pools <- onWorld Pools_List ;;
  forM_ pools (λ p, if todo dirty (p_ID p) then ignoreM (RunOnce (p_ID p)) else retM tt) ;;;
  n <- tryM ReclaimPoolless ;;
  match n with Ok n => kickIf n | Err _ => retM tt end.
End reconcile.
