(* ===== verification/Discovery.v ===== *)
(** * The discovery sweep (internal/reconcile/discovery.go)

    Observations are refreshed, ghosts collapsed, lost records re-adopted and
    vanished machines orphaned, then tombstoned after a grace period. *)

From stdpp Require Import base gmap strings list.
From S2P Require Import Prelude Errors Json Phase SDK Capacity Types Store Sys Reconcile.

Record DiscoveryConfig := MkDiscovery {
  dc_Interval : Z; dc_OrphanGrace : Z; dc_GhostPolicy : string; dc_AdoptUnlabeled : string
}.
Definition discovery_defaults (c : DiscoveryConfig) : DiscoveryConfig :=
  let or z d := if decide (z ≤ 0) then d else z in
  let ors s d := if decide (s = "") then d else s in
  MkDiscovery (or (dc_Interval c) (30 * Second)) (or (dc_OrphanGrace c) (60 * Second))
    (ors (dc_GhostPolicy c) "delete") (ors (dc_AdoptUnlabeled c) "off").

(** ** Transaction bodies *)

(** [refreshObserved]; the phase read before the transaction decides, the CAS
    inside re-checks it. *)
Definition refreshTx {P} `{Providers P} (res : Resource) (obs : ObservedResource) (nowMs : Z)
  : M World unit :=
  Resources_PutObserved (MkSnapshot (r_ID res) nowMs (ob_Phase obs) (Some obs)) ;;;
  Resources_SetProviderFacts (r_ID res) (ob_Extensions obs) (JVal (ob_Capacity obs)) nowMs ;;;
  if decide (r_Phase res = Orphaned ∧ ob_Phase obs = PhaseRunning)
  then Resources_CASPhase (r_ID res) Orphaned Ready nowMs
  else if bool_decide (r_Phase res = Orphaned) && bool_decide (ob_Phase obs = PhaseStopped)
          && pk_Supported (Parking_ (r_Provider res) (r_Kind res))
  then Resources_CASPhase (r_ID res) Orphaned Parked nowMs
  else retM tt.

Definition mintTx (res : Resource) (event : string) (nowMs : Z) : M World unit :=
  Resources_Create res ;;;
  Events_Append (MkEvent nowMs "discovery" "" ("resource." +:+ event) (Some (r_ID res)) None None
                   (r_Provider res) event).

(** A leased record is never reclaimed, even when the machine is gone. *)
Definition tombstoneTx (res : Resource) (nowMs : Z) : M World unit :=
  n <- Leases_CountActive (r_ID res) ;;
  refuse (bool_decide (0 < n)) EConflict ;;;
  Resources_MarkDeleted (r_ID res) nowMs ;;;
  Events_Append (MkEvent nowMs "discovery" "" "resource.orphan_tombstoned" (Some (r_ID res))
                   None None (r_Provider res) "tombstoned").

(** The last row with a key wins, as in a Go map filled in a loop. *)
Definition index {A} (key : A → option string) (l : list A) : gmap string A :=
  foldl (λ m x, match key x with Some k => <[k := x]> m | None => m end) ∅ l.

Section discovery.
Context `{ULID} {P : Type} `{Providers P}.
Variable dc : DiscoveryConfig.
Variable healthy : string → bool.

Definition refreshObserved (res : Resource) (obs : ObservedResource) (nowMs : Z)
  : M (Sys P) unit := ignoreM (inTx (refreshTx res obs nowMs)).

(** The record [mintRecord] builds: its phase follows the observation. *)
Definition minted (id instance : string) (obs : ObservedResource) (own : Ownership)
    (nowMs : Z) : Resource :=
  let parked := bool_decide (ob_Phase obs = PhaseStopped)
                && pk_Supported (Parking_ instance (ob_Kind obs)) in
  MkResource id (map_get (ob_Labels obs) "name") (ob_Kind obs) instance
    (map_get (ob_Labels obs) LabelClass) None own
    (if parked then Parked else Ready)
    (Some (ref_ID (ob_Ref obs))) (JVal (ob_Ref obs)) 0 0 (RawDoc (JObj []))
    (ob_Extensions obs) (JVal (ob_Capacity obs)) false false (ob_Labels obs)
    None None None (if parked then Some nowMs else None) nowMs nowMs None.

Definition mintRecord (instance : string) (obs : ObservedResource) (own : Ownership)
    (nowMs : Z) (event : string) : M (Sys P) (option Resource) :=
  id <- onWorld (newID "res") ;;
  let res := minted id instance obs own nowMs in
  r <- tryM (inTx (mintTx res event nowMs)) ;;
  retM (match r with Ok _ => Some res | Err _ => None end).

Definition handleGhost (instance : string) (obs : ObservedResource) (nowMs : Z)
  : M (Sys P) unit :=
  m <- mintRecord instance obs OwnershipManaged nowMs "ghost" ;;
  match m with
  | None => retM tt
  | Some res =>
      if negb (bool_decide (dc_GhostPolicy dc = "delete")) then retM tt else
      r <- tryM (casPhase (r_ID res) Ready Draining nowMs) ;;
      match r with
      | Err _ => retM tt
      | Ok _ => d <- tryM (journalDelete res nowMs) ;;
                match d with Ok _ => engineKick | Err _ => retM tt end
      end
  end.

Definition readopt (instance : string) (obs : ObservedResource) (nowMs : Z) : M (Sys P) unit :=
  ignoreM (mintRecord instance obs OwnershipManaged nowMs "readopted").

Definition adoptObserved (instance : string) (obs : ObservedResource) (nowMs : Z)
  : M (Sys P) unit :=
  ignoreM (mintRecord instance obs OwnershipObserved nowMs "observed").

(** What the journal says of a labeled machine without a live record. *)
Inductive Verdict := HandsOff | Ghost | Readopt.

Definition verdict (obs : ObservedResource) (liveByID : gmap string Resource)
    (hasOpenOp : gset string) (createOp : option Operation) : Verdict :=
  if match liveByID !! ob_FleetplaneID obs with
     | Some res => negb (bool_decide (ob_FleetplaneID obs = "")) && is_none (r_ExternalID res)
                   && bool_decide (r_ID res ∈ hasOpenOp)
     | None => false
     end then HandsOff else
  match createOp with
  | None => Readopt
  | Some op =>
      if negb (Terminal (o_State op)) then HandsOff else
      let boundElsewhere :=
        bool_decide (o_State op = OpSucceeded) &&
        match o_ResourceID op ≫= (liveByID !!.) with
        | Some res => match r_ExternalID res with
                      | Some e => negb (bool_decide (e = ref_ID (ob_Ref obs)))
                      | None => false
                      end
        | None => false
        end in
      if boundElsewhere || bool_decide (o_State op = OpFailed)
         || bool_decide (o_State op = OpAborted)
      then Ghost else Readopt
  end.

Definition resolveOwnedUnmatched (instance : string) (obs : ObservedResource)
    (liveByID : gmap string Resource) (hasOpenOp : gset string) (nowMs : Z)
  : M (Sys P) unit :=
  createOp <- (if decide (ob_CreateOpID obs = "") then retM None
               else r <- tryM (onWorld (Operations_Get (ob_CreateOpID obs))) ;;
                    retM (match r with Ok op => Some op | Err _ => None end)) ;;
  match verdict obs liveByID hasOpenOp createOp with
  | HandsOff => retM tt
  | Ghost => handleGhost instance obs nowMs
  | Readopt => readopt instance obs nowMs
  end.

Definition confirmOrphan (driver : ResourceDriver P) (res : Resource) (ext : string)
    (nowMs : Z) : M (Sys P) unit :=
  let ref := match r_ExternalRef res with JVal ref => ref | _ => MkRef "" ∅ end in
  let ref := if decide (ref_ID ref = "") then MkRef ext (ref_Extra ref) else ref in
  got <- tryM (onProv (Get driver ref)) ;;
  match got with
  | Ok _ => retM tt
  | Err e =>
      if negb (IsClass e ErrNotFound) then retM tt
      else if decide (r_Phase res = Orphaned) then
        if decide (nowMs - r_UpdatedAt res < Milliseconds (dc_OrphanGrace dc)) then retM tt
        else ignoreM (inTx (tombstoneTx res nowMs))
      else if negb (CanTransition (r_Phase res) Orphaned) then retM tt
      else
        r <- tryM (casPhase (r_ID res) (r_Phase res) Orphaned nowMs) ;;
        match r with
        | Err _ => retM tt
        | Ok _ => ignoreM (inTx (Events_Append (MkEvent nowMs "discovery" "" "resource.orphaned"
                    (Some (r_ID res)) None None (r_Provider res) "orphaned")))
        end
  end.

Definition sweepObserved (instance : string) (liveByExt liveByID : gmap string Resource)
    (hasOpenOp : gset string) (nowMs : Z) (obs : ObservedResource) : M (Sys P) unit :=
  match liveByExt !! ref_ID (ob_Ref obs) with
  | Some res => refreshObserved res obs nowMs
  | None =>
      if ob_Owned obs then resolveOwnedUnmatched instance obs liveByID hasOpenOp nowMs
      else if decide (dc_AdoptUnlabeled dc = "observed") then adoptObserved instance obs nowMs
      else retM tt
  end.

Definition sweepKind (instance kind : string) (driver : ResourceDriver P) : M (Sys P) unit :=
  let scope := if decide (dc_AdoptUnlabeled dc = "observed") then ScopeAll else ScopeOwned in
  observed <- onProv (Discover driver (MkDiscover scope ∅)) ;;
  all <- onWorld (Resources_List (MkFilter kind instance None false "" [] [] ∅ true)) ;;
  let lives := filter (λ r, live r = true) all in
  let liveByID := index (λ r, Some (r_ID r)) lives in
  let liveByExt := index r_ExternalID lives in
  openOps <- onWorld Operations_NonTerminal ;;
  let hasOpenOp : gset string := list_to_set (omap o_ResourceID openOps) in
  nowMs <- clockNow ;;
  let seen : gset string := list_to_set ((λ obs, ref_ID (ob_Ref obs)) <$> observed) in
  forM_ observed (sweepObserved instance liveByExt liveByID hasOpenOp nowMs) ;;;
  if negb (healthy instance) then retM tt
  else forM_ lives (λ res,
    match r_ExternalID res with
    | Some ext =>
        if decide (ext ∈ seen ∨ r_ID res ∈ hasOpenOp) then retM tt
        else confirmOrphan driver res ext nowMs
    | None => retM tt
    end).

Definition SweepProvider (instance : string) : M (Sys P) unit :=
  match Instance_ instance with
  | None => failM (EOther "unknown provider instance")
  | Some inst =>
      forM_ (de_Kinds (pv_Descriptor inst)) (λ kind,
        match pv_ResourceDriver inst kind with
        | None => retM tt
        | Some driver => sweepKind instance kind driver
        end)
  end.

(** A turn of [RunDiscovery]: every instance, whatever the others answered. *)
Definition Discovery_round (names : list string) : M (Sys P) unit :=
  forM_ names (λ name, ignoreM (SweepProvider name)).
End discovery.
