(* ===== verification/App.v ===== *)
(** * Application services (internal/app)

    The commands the API calls: idempotency around kernel commands, the
    deletion gates, explicit park, start, drain and protection, acquisitions,
    pools, classes, and the resolution of frozen operations. *)

From stdpp Require Import base gmap strings list sorting.
From Stdlib Require Import Ascii.
From S2P Require Import Prelude Errors Json Phase SDK Capacity Types Store Kinds Classes Provision Sys Lease Scheduler Reconcile.

(** [IdemRetention], 48 hours in milliseconds. *)
Definition IdemRetentionMs : Z := 48 * 3600 * 1000.

Record Outcome := MkOutcome { oc_Status : Z; oc_Body : option string; oc_Replayed : bool }.

(** The key of a command; an empty key means no idempotency. *)
Record Idem := MkIdemCmd { id_Key : string; id_Scope : string; id_Hash : string }.
Definition keyed (i : Idem) : bool := negb (bool_decide (id_Key i = "")).

(** ** The idempotent shell around a command *)

(** The [Begin] switch at the top of every keyed transaction: the stored
    outcome when there is one, nothing when the command must run. *)
Definition beginKeyed (i : Idem) (op : string) : M World (option Outcome) :=
  if keyed i then
    b <- Idempotency_Begin (id_Scope i) (id_Key i) (id_Hash i) op ;;
    let '(outcome, rec) := b in
    match outcome with
    | BeginNew => retM None
    | BeginCompleted => retM (Some (MkOutcome (i_HTTPStatus rec) (i_Result rec) true))
    | BeginInProgress => failM (EInFlight (default "" (i_OperationID rec)))
    | BeginMismatch => failM EIdemMismatch
    end
  else retM None.

(** The stored bytes commit with the side effect. *)
Definition completeKeyed (i : Idem) (nowMs : Z) (resp : Z * option string) : M World Outcome :=
  (if keyed i
   then Idempotency_Complete (id_Scope i) (id_Key i) resp.1 resp.2 (nowMs + IdemRetentionMs)
   else retM tt) ;;;
  retM (MkOutcome resp.1 resp.2 false).

(** A keyed transaction: replay, refuse, or run [effect] and store what it
    answers. *)
Definition keyedTx (i : Idem) (op : string) (nowMs : Z) (effect : M World (Z * option string))
  : M World Outcome :=
  b <- beginKeyed i op ;;
  match b with
  | Some out => retM out
  | None => resp <- effect ;; completeKeyed i nowMs resp
  end.

(** ** Deletion gates (service.go) *)

Definition deleteGates (res : Resource) : M World unit :=
  refuse (negb (live res)) ENotFound ;;;
  refuse (negb (bool_decide (r_Ownership res = OwnershipManaged))) EValidation ;;;
  refuse (r_DeleteProtected res) EConflict ;;;
  n <- Leases_CountActive (r_ID res) ;;
  refuse (bool_decide (0 < n)) EConflict.

(** The operation carries the key it was requested under. *)
Definition stampKey (i : Idem) (o : Operation) : Operation :=
  if keyed i then with_o_IdemScope (Some (id_Scope i)) (with_o_IdemKey (Some (id_Key i)) o) else o.

(** The body of [DeleteResource]'s transaction after the key is claimed. *)
Definition deleteTx (resID opID actor : string) (i : Idem) (nowMs : Z)
    (respond : Resource → Z * option string) : M World (Z * option string) :=
  res <- Resources_Get resID ;;
  deleteGates res ;;;
  match r_ExternalID res with
  | None => Resources_MarkDeleted resID nowMs ;;; retM (respond res)
  | Some ext =>
      refuse (negb (CanTransition (r_Phase res) Deleting)) EConflict ;;;
      Resources_CASPhase resID (r_Phase res) Deleting nowMs ;;;
      let action := MkAction opID "delete" resID (Some (refOf res ext)) None true in
      Operations_Append (stampKey i
        (journaledOp opID OpKindDelete (Some resID) None (r_Provider res) action nowMs)) ;;;
      Events_Append (MkEvent nowMs actor (id_Key i) "resource.delete" (Some resID) None
                       (Some opID) (r_Provider res) "journaled") ;;;
      retM (respond res)
  end.

(** ** Explicit phase commands (queries.go) *)

Definition drainTx (id actor : string) (nowMs : Z) : M World unit :=
  res <- Resources_Get id ;;
  refuse (negb (live res)) ENotFound ;;;
  refuse (negb (CanTransition (r_Phase res) Draining)) EConflict ;;;
  Resources_CASPhase (r_ID res) (r_Phase res) Draining nowMs ;;;
  Events_Append (MkEvent nowMs actor "" "resource.drain" (Some (r_ID res)) None None
                   (r_Provider res) "draining").

Definition undrainTx (id actor : string) (nowMs : Z) : M World unit :=
  res <- Resources_Get id ;;
  refuse (negb (live res)) ENotFound ;;;
  refuse (bool_decide (r_Phase res = Ready)) EAlreadyThere ;;;
  refuse (negb (bool_decide (r_Phase res = Draining))) EConflict ;;;
  Resources_CASPhase (r_ID res) Draining Ready nowMs ;;;
  Events_Append (MkEvent nowMs actor "" "resource.undrain" (Some (r_ID res)) None None
                   (r_Provider res) "ready").

Definition protectTx (id : string) (protected : bool) (actor : string) (nowMs : Z)
  : M World unit :=
  res <- Resources_Get id ;;
  refuse (negb (live res)) ENotFound ;;;
  refuse (bool_decide (r_DeleteProtected res = protected)) EAlreadyThere ;;;
  Resources_SetDeleteProtected (r_ID res) protected nowMs ;;;
  Events_Append (MkEvent nowMs actor ""
    (if protected then "resource.protected" else "resource.unprotected") (Some (r_ID res))
    None None (r_Provider res) "applied").

(** ** Frozen operations (resolve.go) *)

Definition resolveEvent (id actor outcome : string) (nowMs : Z) : Event :=
  MkEvent nowMs actor "" "operation.resolve" None None (Some id) "" outcome.

Definition retryVerificationTx (id actor : string) (nowMs : Z) : M World unit :=
  Operations_Transition id OpUncertain OpVerifying (λ o,
    with_o_VerifyDeadlineAt (Some (nowMs + IdemRetentionMs)) (with_o_NextAttemptAt None o)) ;;;
  Events_Append (resolveEvent id actor "retry-verification" nowMs).

Definition markFailedTx (opID actor : string) (nowMs : Z) : M World unit :=
  op <- Operations_Get opID ;;
  Operations_Transition opID OpUncertain OpFailed id ;;;
  match o_ResourceID op with
  | Some res =>
      ignoreM (Resources_CASPhase res
        (if decide (o_Kind op = OpKindDelete) then Deleting else Provisioning) Failed nowMs)
  | None => retM tt
  end ;;;
  Events_Append (resolveEvent opID actor "mark-failed" nowMs).

(** ** Creates (service.go) *)

(** ASCII white space; the Unicode spaces [TrimSpace] also knows are not
    modelled. *)
Definition space (c : ascii) : bool :=
  (let n := nat_of_ascii c in (n =? 32) || ((9 <=? n) && (n <=? 13)))%nat.

(** [bytes.TrimSpace] leaves nothing. *)
Fixpoint blank (s : string) : bool :=
  match s with
  | EmptyString => true
  | String c s => space c && blank s
  end.

Fixpoint trim_left (s : string) : string :=
  match s with
  | String c s' => if space c then trim_left s' else s
  | EmptyString => EmptyString
  end.
Fixpoint trim_right (s : string) : string :=
  match s with
  | EmptyString => EmptyString
  | String c s' => if blank s then EmptyString else String c (trim_right s')
  end.
Definition TrimSpace (s : string) : string := trim_right (trim_left s).

Fixpoint containsAny (cs : list ascii) (s : string) : bool :=
  match s with
  | EmptyString => false
  | String c s => mem c cs || containsAny cs s
  end.

(** [overlayJSON]: a shallow overlay; maps marshal with sorted keys. *)
Definition overlayJSON (base over : raw) : result raw :=
  let nothing := match over with
                 | RawEmpty => true
                 | RawDoc JNull => true
                 | RawBad t => blank t
                 | _ => false
                 end in
  if nothing then Ok base else
  let decode r := match parse_raw r with
                  | Ok j => dec_map JNull (λ j _, Ok j) j
                  | Err e => Err e
                  end in
  match decode base with
  | Err e => Err e
  | Ok b => match decode over with
            | Err e => Err e
            | Ok o => Ok (RawDoc (JObj (merge_sort key_le (map_to_list (o ∪ b)))))
            end
  end.

Record CreateResourceCmd := MkCreateCmd {
  cc_Kind : string; cc_Provider : string; cc_Name : string; cc_Class : string;
  cc_Spec : raw; cc_Labels : gmap string string; cc_Actor : string; cc_Idem : Idem
}.

Record AcquireCmd := MkAcquireCmd {
  aq_Kind : string; aq_Class : string;
  aq_HasConstraints : bool;   (* len(Constraints) > 0 *)
  aq_Constraints : jcol Vector;
  aq_Exclusive : bool; aq_Quantity : Z; aq_TTL : Z; aq_MaxWait : Z;
  aq_Actor : string; aq_Idem : Idem
}.

(** The acceptance transaction of [Acquire]. *)
Definition acquireTx (acq : Acquisition) (i : Idem) (nowMs : Z)
    (respond : Acquisition → Z * option string) : M World Outcome :=
  keyedTx i "" nowMs (
    Acquisitions_Insert acq ;;;
    Events_Append (MkEvent nowMs (a_Actor acq) (id_Key i) "acquisition.requested" None None None
                     "" "pending") ;;;
    retM (respond acq)).

Definition createTx (p : Prepared) (actor : string) (i : Idem) (nowMs : Z)
    (respond : Resource → Z * option string) : M World Outcome :=
  keyedTx i (o_ID (Prepared_Op p)) nowMs (
    Journal p actor (id_Key i) ;;;
    retM (respond (Prepared_Resource p))).

(** ** Pools (pools.go) *)

Record UpsertPoolCmd := MkPoolCmd {
  up_ID : string; up_Name : string; up_Spec : raw; up_Actor : string }.

Definition poolSpecOk (spec : PoolSpec) (classKnown : bool) : bool :=
  bool_decide (0 ≤ ps_Replicas spec) &&
  bool_decide (0 ≤ ps_MinRunning spec ≤ ps_Replicas spec) &&
  negb (match ps_Reclaim spec with Some r => bool_decide (0 < DeleteAfter r) | None => false end) &&
  (if decide (ps_Class spec = "")
   then is_some (ps_Machine spec) && negb (bool_decide (ps_Provider spec = ""))
        && negb (bool_decide (ps_Kind spec = ""))
   else classKnown).

Definition upsertPoolTx `{ULID} (cmd : UpsertPoolCmd) (kind : string) (nowMs : Z)
  : M World Pool :=
  pool <- (if decide (up_ID cmd = "") then
             r <- tryM (Pools_GetByName (up_Name cmd)) ;;
             match r with
             | Ok p => retM p
             | Err _ => id <- newID "pool" ;;
                        retM (MkPool id (up_Name cmd) kind RawEmpty 1 0 false nowMs 0)
             end
           else
             p <- Pools_Get (up_ID cmd) ;;
             retM (if decide (up_Name cmd = "") then p else with_p_Name (up_Name cmd) p)) ;;
  let pool := with_p_Spec (up_Spec cmd) (with_p_UpdatedAt nowMs pool) in
  Pools_Upsert pool ;;;
  Events_Append (MkEvent nowMs (up_Actor cmd) "" "pool.upserted" None (Some (p_ID pool)) None ""
                   "applied") ;;;
  retM pool.

Definition setPausedTx (id : string) (paused : bool) (actor : string) (nowMs : Z) : M World unit :=
  Pools_SetPaused id paused nowMs ;;;
  Events_Append (MkEvent nowMs actor "" (if paused then "pool.paused" else "pool.resumed") None
                   (Some id) None "" "applied").

Definition deletePoolTx (id actor : string) (nowMs : Z) : M World unit :=
  p <- Pools_Get id ;;
  match parsePoolSpec (p_Spec p) with
  | Err _ => failM EValidation
  | Ok spec =>
      refuse (bool_decide (0 < ps_Replicas spec)) EConflict ;;;
      members <- Resources_List (MkFilter "" "" (Some id) false "" [] [] ∅ false) ;;
      refuse (negb (bool_decide (members = []))) EConflict ;;;
      Pools_Delete (p_ID p) ;;;
      Events_Append (MkEvent nowMs actor "" "pool.deleted" None (Some (p_ID p)) None "" "deleted")
  end.

(** ** Classes (classes.go) *)

Record UpsertClassCmd := MkClassCmd {
  uc_Name : string; uc_Kind : string; uc_Provider : string; uc_Template : raw;
  uc_ReclaimIdle : Z; uc_ReclaimPark : string; uc_ReclaimDel : Z; uc_QueueMaxWait : Z;
  uc_Actor : string; uc_MustCreate : bool
}.

Definition msIfPositive (d : Z) : option Z :=
  if decide (0 < d) then Some (Milliseconds d) else None.

Definition upsertClassTx (rec : ClassRecord) (cmd : UpsertClassCmd) (nowMs : Z)
  : M World ClassRecord :=
  r <- tryM (Classes_Get (c_Name rec)) ;;
  rec <- match r with
         | Ok cur =>
             if decide (c_Source cur = "config") then failM EClassConfigOwned
             else if uc_MustCreate cmd then failM EClassExists
             else retM (with_c_CreatedAt (c_CreatedAt cur) rec)
         | Err ENotFound => retM rec
         | Err e => failM e
         end ;;
  Classes_Upsert rec ;;;
  Events_Append (MkEvent nowMs (uc_Actor cmd) "" "class.upserted" None None None "" "ok") ;;;
  retM rec.

Definition references (name : string) (p : Pool) : bool :=
  match parsePoolSpec (p_Spec p) with
  | Ok spec => bool_decide (ps_Class spec = name)
  | Err _ => false
  end.

Definition deleteClassTx (name actor : string) (nowMs : Z) : M World unit :=
  rec <- Classes_Get name ;;
  refuse (bool_decide (c_Source rec = "config")) EClassConfigOwned ;;;
  pools <- Pools_List ;;
  refuse (existsb (references name) pools) EConflict ;;;
  Classes_Delete name ;;;
  Events_Append (MkEvent nowMs actor "" "class.deleted" None None None "" "ok").

(** The config file's class as a row. *)
Definition configClass (name : string) (cls : Class_) (nowMs : Z) : ClassRecord :=
  MkClass name (cl_Kind cls) (cl_Provider cls) (cl_Spec cls)
    (cl_Reclaim cls ≫= λ r, msIfPositive (IdleAfter r))
    (match cl_Reclaim cls with Some r => Park r | None => "" end)
    (cl_Reclaim cls ≫= λ r, msIfPositive (DeleteAfter r))
    (msIfPositive (cl_QueueMaxWait cls)) "config" nowMs nowMs.

(** [SeedConfigClasses]: prune the config rows that left the file, then
    upsert the file's (in Go's map order, which does not matter). *)
Definition SeedConfigClasses (classes : gmap string Class_) (nowMs : Z) : M World unit :=
  existing <- Classes_ListBySource "config" ;;
  forM_ existing (λ rec,
    if decide (is_Some (classes !! c_Name rec)) then retM tt else Classes_Delete (c_Name rec)) ;;;
  forM_ (map_to_list classes) (λ '(name, cls), Classes_Upsert (configClass name cls nowMs)).

Section service.
Context `{ULID} {P : Type} `{Providers P}.
Variable ownerID : string.
Variable pendingTimeoutMs : Z.

Definition CreateResource (cmd : CreateResourceCmd) (respond : Resource → Z * option string)
  : M (Sys P) Outcome :=
  cmd <- (if decide (cc_Class cmd = "") then retM cmd else
    r <- tryM (onWorld (Classes_Get (cc_Class cmd))) ;;
    match r with
    | Err ENotFound => failM EValidation
    | Err e => failM e
    | Ok rec =>
        refuse (negb (bool_decide (cc_Kind cmd = "")) && negb (bool_decide (cc_Kind cmd = c_Kind rec)))
          EValidation ;;;
        refuse (negb (bool_decide (cc_Provider cmd = ""))
                && negb (bool_decide (cc_Provider cmd = c_Provider rec))) EValidation ;;;
        match overlayJSON (c_Spec rec) (cc_Spec cmd) with
        | Err _ => failM EValidation
        | Ok merged => retM (MkCreateCmd (c_Kind rec) (c_Provider rec) (cc_Name cmd)
                               (cc_Class cmd) merged (cc_Labels cmd) (cc_Actor cmd) (cc_Idem cmd))
        end
    end) ;;
  match Validate (cc_Kind cmd) (cc_Spec cmd) with
  | Err _ => failM EValidation
  | Ok _ =>
  match Instance_ (cc_Provider cmd) with
  | None => failM EValidation
  | Some inst =>
  match pv_ResourceDriver inst (cc_Kind cmd) with
  | None => failM EValidation
  | Some _ =>
    nowMs <- clockNow ;;
    p <- onWorld (Prepare ownerID (MkCreate (cc_Kind cmd) (cc_Provider cmd) (cc_Name cmd)
           (cc_Spec cmd) (cc_Labels cmd) (cc_Class cmd) None) nowMs) ;;
    let p := MkPrepared (Prepared_Resource p) (stampKey (cc_Idem cmd) (Prepared_Op p)) in
    out <- inTx (createTx p (cc_Actor cmd) (cc_Idem cmd) nowMs respond) ;;
    (if oc_Replayed out then retM tt else engineKick) ;;;
    retM out
  end
  end
  end.

(** [View] is a read-only transaction. *)
Definition DeleteResource (resID actor : string) (dryRun : bool) (i : Idem)
    (respond : Resource → Z * option string) : M (Sys P) Outcome :=
  opID <- onWorld (newID "op") ;;
  nowMs <- clockNow ;;
  if dryRun then
    onWorld (res <- Resources_Get resID ;;
             deleteGates res ;;;
             retM (MkOutcome (respond res).1 (respond res).2 false))
  else
    out <- inTx (keyedTx i opID nowMs (deleteTx resID opID actor i nowMs respond)) ;;
    (if oc_Replayed out then retM tt else engineKick) ;;;
    retM out.

Definition ParkResource (id actor : string) : M (Sys P) unit :=
  res <- onWorld (Resources_Get id) ;;
  refuse (mem (r_Phase res) [Parking; Parked]) EAlreadyThere ;;;
  nowMs <- clockNow ;;
  inTx (stopTx id nowMs actor false) ;;;
  engineKick.

Definition StartResource (id actor : string) : M (Sys P) unit :=
  res <- onWorld (Resources_Get id) ;;
  refuse (mem (r_Phase res) [Starting; Ready; Allocated]) EAlreadyThere ;;;
  nowMs <- clockNow ;;
  inTx (startTx id nowMs actor) ;;;
  engineKick.

Definition DrainResource (id actor : string) : M (Sys P) unit :=
  nowMs <- clockNow ;; inTx (drainTx id actor nowMs).
Definition UndrainResource (id actor : string) : M (Sys P) unit :=
  nowMs <- clockNow ;; inTx (undrainTx id actor nowMs).
Definition SetResourceProtected (id : string) (protected : bool) (actor : string)
  : M (Sys P) unit :=
  nowMs <- clockNow ;; inTx (protectTx id protected actor nowMs).

Definition ResolveOperation (id action actor : string) : M (Sys P) unit :=
  nowMs <- clockNow ;;
  if decide (action = "retry-verification")
  then inTx (retryVerificationTx id actor nowMs) ;;; engineKick
  else if decide (action = "mark-failed") then inTx (markFailedTx id actor nowMs)
  else failM EValidation.

(** The queue budget: the request's, else the class's, clamped to leave
    the sweep headroom below the pending timeout. *)
Definition clampWait (maxWait : Z) : Z :=
  if decide (0 < pendingTimeoutMs ∧ pendingTimeoutMs - 10000 < Milliseconds maxWait)
  then Z.max 0 (mul64 (pendingTimeoutMs - 10000) Millisecond) else maxWait.

(** [json.Marshal] of the request fails on constraints that are not JSON. *)
Definition Acquire (cmd : AcquireCmd) (respond : Acquisition → Z * option string)
  : M (Sys P) Outcome :=
  let quantity := if decide (aq_Quantity cmd = 0) then 1 else aq_Quantity cmd in
  refuse (negb (bool_decide (quantity = 1))) EValidation ;;;
  let kind := if decide (aq_Kind cmd = "") then "compute.machine"%string else aq_Kind cmd in
  refuse (bool_decide (aq_Class cmd = "") && negb (aq_HasConstraints cmd)) EValidation ;;;
  nowMs <- clockNow ;;
  acqID <- onWorld (newID "acq") ;;
  wait <- (if decide (aq_MaxWait cmd ≤ 0 ∧ aq_Class cmd ≠ "") then
             c <- onWorld (lookupClass (aq_Class cmd)) ;;
             retM (match c with Some cls => cl_QueueMaxWait cls | None => aq_MaxWait cmd end)
           else retM (aq_MaxWait cmd)) ;;
  let req := MkRequest (aq_Exclusive cmd) (aq_Constraints cmd) (Milliseconds (clampWait wait)) in
  let acq := MkAcquisition acqID (aq_Actor cmd) kind (aq_Class cmd) (JVal req) 1
               (Z.quot (aq_TTL cmd) Second) AcqPending None None nowMs nowMs in
  out <- inTx (acquireTx acq (aq_Idem cmd) nowMs respond) ;;
  if oc_Replayed out then retM out else
  r <- tryM (Satisfy ownerID acqID) ;;
  match r with
  | Err ENoCapacity =>
      nowMs <- clockNow ;;
      ignoreM (inTx (Acquisitions_Transition acqID AcqPending AcqFailed nowMs))
  | _ => retM tt
  end ;;;
  retM out.

(** [Service.Release]: safe to retry. *)
Definition Service_Release (id : string) : M (Sys P) unit :=
  acq <- onWorld (Acquisitions_Get id) ;;
  if mem (a_State acq) [AcqReleased; AcqExpired] then retM tt
  else ReleaseAcquisition (a_ID acq).

(** [GetPool]: by id, else by name. *)
Definition GetPool (id : string) : M World Pool :=
  r <- tryM (Pools_Get id) ;;
  match r with Ok p => retM p | Err _ => Pools_GetByName id end.

Definition UpsertPool (cmd : UpsertPoolCmd) : M (Sys P) Pool :=
  refuse (bool_decide (up_Name cmd = "") && bool_decide (up_ID cmd = "")) EValidation ;;;
  match parsePoolSpec (up_Spec cmd) with
  | Err _ => failM EValidation
  | Ok spec =>
      c <- onWorld (lookupClass (ps_Class spec)) ;;
      refuse (negb (poolSpecOk spec (is_some c))) EValidation ;;;
      nowMs <- clockNow ;;
      pool <- inTx (upsertPoolTx cmd (ps_Kind spec) nowMs) ;;
      poolKick (p_ID pool) ;;;
      retM pool
  end.

Definition SetPoolPaused (id : string) (paused : bool) (actor : string) : M (Sys P) unit :=
  pool <- onWorld (GetPool id) ;;
  refuse (bool_decide (p_Paused pool = paused)) EAlreadyThere ;;;
  nowMs <- clockNow ;;
  inTx (setPausedTx (p_ID pool) paused actor nowMs) ;;;
  if paused then retM tt else poolKick (p_ID pool).

Definition DeletePool (id actor : string) : M (Sys P) unit :=
  pool <- onWorld (GetPool id) ;;
  nowMs <- clockNow ;;
  inTx (deletePoolTx (p_ID pool) actor nowMs).

Definition ReconcilePool (id : string) : M (Sys P) unit :=
  pool <- onWorld (GetPool id) ;;
  refuse (p_Paused pool) EConflict ;;;
  poolKick (p_ID pool).

(** The template is validated at definition time. *)
Definition UpsertClass (cmd : UpsertClassCmd) : M (Sys P) ClassRecord :=
  let name := TrimSpace (uc_Name cmd) in
  refuse (bool_decide (name = "") || (63 <? String.length name)%nat
          || containsAny [" "; "009"; "010"; "/"]%char name) EValidation ;;;
  match Validate (uc_Kind cmd) (uc_Template cmd) with
  | Err _ => failM EValidation
  | Ok _ =>
      refuse (is_none (Instance_ (P := P) (uc_Provider cmd))) EValidation ;;;
      refuse (bool_decide (uc_ReclaimIdle cmd < 0) || bool_decide (uc_ReclaimDel cmd < 0)
              || bool_decide (uc_QueueMaxWait cmd < 0)) EValidation ;;;
      refuse (negb (mem (uc_ReclaimPark cmd) [""; "auto"; "never"]%string)) EValidation ;;;
      refuse (bool_decide (0 < pendingTimeoutMs)
              && bool_decide (pendingTimeoutMs < Milliseconds (uc_QueueMaxWait cmd))) EValidation ;;;
      nowMs <- clockNow ;;
      inTx (upsertClassTx (MkClass name (uc_Kind cmd) (uc_Provider cmd)
              (uc_Template cmd) (msIfPositive (uc_ReclaimIdle cmd)) (uc_ReclaimPark cmd)
              (msIfPositive (uc_ReclaimDel cmd)) (msIfPositive (uc_QueueMaxWait cmd)) "api"
              nowMs nowMs) cmd nowMs)
  end.

Definition DeleteClass (name actor : string) : M (Sys P) unit :=
  nowMs <- clockNow ;; inTx (deleteClassTx name actor nowMs).
End service.
