(* ===== verification/Spec.v ===== *)
(** * The lifecycle protocol, abstractly

    What the kernel promises about resources, operations, leases and
    acquisitions, without tables, timestamps or JSON: a small state and one
    rule per kind of event. [Refine.v] shows that every transaction of the
    program is one of these steps, so what is proved here of every reachable
    abstract state holds of the database at every commit, however the
    goroutines of the process interleave and wherever it crashes. *)

From stdpp Require Import base gmap strings list relations.
From S2P Require Import Prelude Phase Types.

(** A resource: its phase, whether it is live (no tombstone), and whether it
    has materialized at its provider. *)
Record ares := MkARes { ar_phase : Phase; ar_live : bool; ar_ext : bool }.

(** An active lease. *)
Record alease := MkALease { al_acq : string; al_res : string; al_exclusive : bool }.

(** An acquisition: waiting, holding a lease, or over. *)
Inductive aacq := AOpen | ABound (lease : string) | AClosed.

(** An operation; [ao_open] is [terminal_at IS NULL]. *)
Record aop := MkAOp {
  ao_kind : OpKind; ao_res : option string; ao_state : OpState; ao_attempt : Z; ao_open : bool }.

Record Fleet := MkFleet {
  fl_res : gmap string ares;
  fl_leases : gmap string alease;
  fl_acqs : gmap string aacq;
  fl_ops : gmap string aop
}.

(** ** The journal's state machine (ADR-017) *)

(** Moves between open states. *)
Definition op_move (st st' : OpState) : bool :=
  match st, st' with
  | OpJournaled, OpInFlight => true
  | OpInFlight, (OpExternalAccepted | OpJournaled | OpVerifying) => true
  | OpExternalAccepted, (OpVerifying | OpExternalAccepted) => true
  | OpVerifying, (OpExternalAccepted | OpJournaled | OpUncertain | OpVerifying) => true
  | OpUncertain, OpVerifying => true
  | _, _ => false
  end.

(** The states an operation can succeed from, and fail from. *)
Definition op_succeeds (st : OpState) : bool :=
  match st with OpInFlight | OpExternalAccepted | OpVerifying => true | _ => false end.
Definition op_fails (st : OpState) : bool :=
  match st with
  | OpJournaled | OpInFlight | OpExternalAccepted | OpVerifying | OpUncertain => true
  | _ => false
  end.

(** A whole step of the machine. *)
Definition op_step (st st' : OpState) : bool :=
  op_move st st' || (op_succeeds st && bool_decide (st' = OpSucceeded))
  || (op_fails st && bool_decide (st' = OpFailed)).

Definition is_park (k : OpKind) : bool :=
  match k with OpKindStop | OpKindStart => true | _ => false end.

(** The phase an open operation of a kind holds its resource in; creates hold
    no phase: their resource may be tombstoned under them. *)
Definition held_phase (k : OpKind) : option Phase :=
  match k with
  | OpKindDelete => Some Deleting
  | OpKindStop => Some Parking
  | OpKindStart => Some Starting
  | OpKindCreate => None
  end.

Definition held (p : Phase) : bool :=
  match p with Deleting | Parking | Starting => true | _ => false end.

(** ** Rules *)

Definition on_res (r : string) (l : alease) : Prop := al_res l = r.
Definition no_lease (s : Fleet) (r : string) : Prop :=
  ∀ k l, fl_leases s !! k = Some l → al_res l ≠ r.
Definition no_open_op (s : Fleet) (r : string) : Prop :=
  ∀ k o, fl_ops s !! k = Some o → ao_open o = true → ao_res o ≠ Some r.

Definition set_res (r : string) (x : ares) (s : Fleet) : Fleet :=
  MkFleet (<[r := x]> (fl_res s)) (fl_leases s) (fl_acqs s) (fl_ops s).
Definition set_op (o : string) (x : aop) (s : Fleet) : Fleet :=
  MkFleet (fl_res s) (fl_leases s) (fl_acqs s) (<[o := x]> (fl_ops s)).
Definition set_acq (a : string) (x : aacq) (s : Fleet) : Fleet :=
  MkFleet (fl_res s) (fl_leases s) (<[a := x]> (fl_acqs s)) (fl_ops s).
Definition set_lease (l : string) (x : alease) (s : Fleet) : Fleet :=
  MkFleet (fl_res s) (<[l := x]> (fl_leases s)) (fl_acqs s) (fl_ops s).
Definition del_lease (l : string) (s : Fleet) : Fleet :=
  MkFleet (fl_res s) (delete l (fl_leases s)) (fl_acqs s) (fl_ops s).

(** The move a journaled operation makes with its resource. *)
Definition journals (k : OpKind) (p q : Phase) : Prop :=
  match k with
  | OpKindDelete => phase_step p Deleting ∧ q = Deleting
  | OpKindStop => p = Ready ∧ q = Parking
  | OpKindStart => p = Parked ∧ q = Starting
  | OpKindCreate => False
  end.

(** What success makes of the resource. *)
Definition done_res (k : OpKind) (x x' : ares) : Prop :=
  match k with
  | OpKindCreate => ar_phase x = Provisioning ∧ ar_live x = true ∧ x' = MkARes Ready true (ar_ext x)
  | OpKindStart => ar_phase x = Starting ∧ ar_live x = true ∧ x' = MkARes Ready true (ar_ext x)
  | OpKindStop => ar_phase x = Parking ∧ ar_live x = true ∧ x' = MkARes Parked true (ar_ext x)
  | OpKindDelete => ar_live x = true ∧ x' = MkARes (ar_phase x) false (ar_ext x)
  end.

(** Where failure takes a resource that is still where its operation put it. *)
Definition fail_move (k : OpKind) (p q : Phase) : bool :=
  match k, p, q with
  | OpKindCreate, Provisioning, Failed => true
  | OpKindDelete, Deleting, Failed => true
  | OpKindStop, Parking, Ready => true
  | OpKindStart, Starting, (Parked | Failed) => true
  | _, _, _ => false
  end.
Definition fail_res (q : Phase) (p : Phase) (x : ares) : ares :=
  if decide (ar_phase x = p ∧ ar_live x = true) then MkARes q true (ar_ext x) else x.

(** The end of a lease frees an allocated resource when it was the last. *)
Definition end_res (last : Prop) (y y' : ares) : Prop :=
  (ar_phase y = Allocated ∧ last ∧ ar_live y = true ∧ y' = MkARes Ready true (ar_ext y))
  ∨ (y' = y ∧ ¬ (ar_phase y = Allocated ∧ last)).

Inductive astep : Fleet → Fleet → Prop :=
| R_skip s : astep s s
| R_create s r o
    (Hr : fl_res s !! r = None) (Ho : fl_ops s !! o = None) :
    astep s (set_op o (MkAOp OpKindCreate (Some r) OpJournaled 0 true)
              (set_res r (MkARes Provisioning true false) s))
| R_mint s r p
    (Hr : fl_res s !! r = None) (Hp : p = Ready ∨ p = Parked) :
    astep s (set_res r (MkARes p true true) s)
| R_phase s r p q e
    (Hr : fl_res s !! r = Some (MkARes p true e)) (Hpq : phase_step p q)
    (Hp : held p = false) (Hq : held q = false) (Hqa : q ≠ Allocated) :
    astep s (set_res r (MkARes q true e) s)
| R_journal s k r o p q
    (Hr : fl_res s !! r = Some (MkARes p true true)) (Hpq : journals k p q)
    (Hl : k = OpKindStart ∨ no_lease s r) (Hop : no_open_op s r) (Ho : fl_ops s !! o = None) :
    astep s (set_op o (MkAOp k (Some r) OpJournaled 0 true) (set_res r (MkARes q true true) s))
| R_move s o x st
    (Ho : fl_ops s !! o = Some x) (Hopen : ao_open x = true)
    (Hst : op_move (ao_state x) st = true)
    (Hu : st = OpUncertain → ao_kind x = OpKindCreate) (Hi : st ≠ OpInFlight) :
    astep s (set_op o (MkAOp (ao_kind x) (ao_res x) st (ao_attempt x) true) s)
| R_dispatch s o x
    (Ho : fl_ops s !! o = Some x) (Hopen : ao_open x = true) (Hst : ao_state x = OpJournaled)
    (Hn : is_park (ao_kind x) = true → ao_attempt x < 8) :
    astep s (set_op o (MkAOp (ao_kind x) (ao_res x) OpInFlight (ao_attempt x + 1) true) s)
| R_accept s o x r y
    (Ho : fl_ops s !! o = Some x) (Hopen : ao_open x = true) (Hk : ao_kind x = OpKindCreate)
    (Hor : ao_res x = Some r) (Hr : fl_res s !! r = Some y)
    (Hst : op_move (ao_state x) OpExternalAccepted = true) :
    astep s (set_res r (MkARes (ar_phase y) (ar_live y) true)
              (set_op o (MkAOp (ao_kind x) (ao_res x) OpExternalAccepted (ao_attempt x) true) s))
| R_done s o x r y y'
    (Ho : fl_ops s !! o = Some x) (Hopen : ao_open x = true)
    (Hst : op_succeeds (ao_state x) = true)
    (Hor : ao_res x = Some r) (Hr : fl_res s !! r = Some y) (Hy : done_res (ao_kind x) y y') :
    astep s (set_res r y' (set_op o (MkAOp (ao_kind x) (ao_res x) OpSucceeded (ao_attempt x) false) s))
| R_fail s o x r y p q
    (Ho : fl_ops s !! o = Some x) (Hopen : ao_open x = true) (Hst : op_fails (ao_state x) = true)
    (Hor : ao_res x = Some r) (Hr : fl_res s !! r = Some y)
    (Hpq : fail_move (ao_kind x) p q = true) :
    astep s (set_res r (fail_res q p y)
              (set_op o (MkAOp (ao_kind x) (ao_res x) OpFailed (ao_attempt x) false) s))
| R_request s a (Ha : fl_acqs s !! a = None) : astep s (set_acq a AOpen s)
| R_close s a (Ha : fl_acqs s !! a = Some AOpen) : astep s (set_acq a AClosed s)
| R_bind s l a r p e excl
    (Hl : fl_leases s !! l = None) (Ha : fl_acqs s !! a = Some AOpen)
    (Hr : fl_res s !! r = Some (MkARes p true e)) (Hp : p = Ready ∨ p = Allocated)
    (Hex : excl = true → no_lease s r)
    (Hsh : ∀ k x, fl_leases s !! k = Some x → al_res x = r → al_exclusive x = false) :
    astep s (set_acq a (ABound l) (set_res r (MkARes Allocated true e)
              (set_lease l (MkALease a r excl) s)))
| R_end s l x y y'
    (Hl : fl_leases s !! l = Some x) (Hr : fl_res s !! al_res x = Some y)
    (Ha : fl_acqs s !! al_acq x = Some (ABound l))
    (Hy : end_res (no_lease (del_lease l s) (al_res x)) y y') :
    astep s (set_res (al_res x) y' (set_acq (al_acq x) AClosed (del_lease l s)))
| R_tombstone s r p e
    (Hr : fl_res s !! r = Some (MkARes p true e)) (Hl : no_lease s r)
    (Hp : e = false ∨ p = Orphaned) :
    astep s (set_res r (MkARes p false e) s).

Definition emptyFleet : Fleet := MkFleet ∅ ∅ ∅ ∅.

Definition areachable (s : Fleet) : Prop := rtc astep emptyFleet s.

(** ** The invariant *)

(** An open operation holds [r] in phase [p]. *)
Definition owned (ops : gmap string aop) (r : string) (p : Phase) : Prop :=
  ∃ o x, ops !! o = Some x ∧ ao_open x = true ∧ ao_res x = Some r
         ∧ held_phase (ao_kind x) = Some p.

Record Inv (s : Fleet) : Prop := {
  (* a leased machine is live, and neither being deleted nor being stopped *)
  inv_lease_res l x : fl_leases s !! l = Some x →
    ∃ p e, fl_res s !! al_res x = Some (MkARes p true e) ∧ p ≠ Deleting ∧ p ≠ Parking;
  (* an exclusive lease is the only one on its machine *)
  inv_exclusive l l' x x' : fl_leases s !! l = Some x → fl_leases s !! l' = Some x' →
    al_res x = al_res x' → al_exclusive x = true → l = l';
  (* bound acquisitions and active leases are in bijection *)
  inv_bound a l : fl_acqs s !! a = Some (ABound l) →
    ∃ x, fl_leases s !! l = Some x ∧ al_acq x = a;
  inv_lease_acq l x : fl_leases s !! l = Some x → fl_acqs s !! al_acq x = Some (ABound l);
  (* an allocated machine has a lease *)
  inv_allocated r e : fl_res s !! r = Some (MkARes Allocated true e) →
    ∃ l x, fl_leases s !! l = Some x ∧ al_res x = r;
  (* every operation is about a resource on record *)
  inv_op_res o x : fl_ops s !! o = Some x →
    ∃ r y, ao_res x = Some r ∧ fl_res s !! r = Some y;
  inv_op_open o x : fl_ops s !! o = Some x → ao_open x = negb (Terminal (ao_state x));
  (* one open operation per resource *)
  inv_one_op o o' x x' : fl_ops s !! o = Some x → fl_ops s !! o' = Some x' →
    ao_open x = true → ao_open x' = true → ao_res x = ao_res x' → o = o';
  (* an open delete, stop or start holds its machine in its phase ... *)
  inv_held o x p : fl_ops s !! o = Some x → ao_open x = true → held_phase (ao_kind x) = Some p →
    ∃ r, ao_res x = Some r ∧ fl_res s !! r = Some (MkARes p true true);
  (* ... and a machine in such a phase has the operation that gets it out *)
  inv_owner r p e : fl_res s !! r = Some (MkARes p true e) → held p = true →
    owned (fl_ops s) r p;
  (* only creates freeze *)
  inv_uncertain o x : fl_ops s !! o = Some x → ao_state x = OpUncertain →
    ao_kind x = OpKindCreate;
  (* stop and start are dispatched at most eight times *)
  inv_attempts o x : fl_ops s !! o = Some x →
    0 ≤ ao_attempt x ∧ (is_park (ao_kind x) = true → ao_attempt x ≤ 8)
}.

(** * The lifecycle protocol: invariants and histories

    The invariant [Inv] holds of every reachable abstract state, and
    what one step can do to a resource or an operation. *)

(** Lookups of updated maps: in a hypothesis, and in the goal. *)
Ltac lk := repeat match goal with
  | H : <[_ := _]> _ !! _ = Some _ |- _ => apply lookup_insert_Some in H as [[? ?]|[? ?]]
  | H : delete _ _ !! _ = Some _ |- _ => apply lookup_delete_Some in H as [? ?]
  end; simplify_eq/=.
Ltac lg := repeat match goal with
  | |- context [<[?i := _]> _ !! ?j] => rewrite (lookup_insert _ i j); case_decide
  | |- context [delete ?i _ !! ?j] => rewrite (lookup_delete _ i j); case_decide
  end; simplify_eq/=.

Lemma step_lease_res s s' : Inv s → astep s s' → 
  ∀ l x, fl_leases s' !! l = Some x →
    ∃ p e, fl_res s' !! al_res x = Some (MkARes p true e) ∧ p ≠ Deleting ∧ p ≠ Parking.
Proof.
  intros HI Hst l0 x0. pose proof (inv_lease_res s HI l0 x0) as IH.
  destruct Hst; simpl; intros Hl0; lk.
  all: try (specialize (IH ltac:(done)) as (p0 & e0 & Hr0 & Hd & Hpk)).
  all: lg; try by eauto.
  - destruct q; eauto; done.
  - destruct k; simpl in *; [done|..]; destruct_and?; simplify_eq;
      solve [by repeat econstructor | destruct Hl as [|Hn]; [done|by destruct (Hn _ _ Hl0)]].
  - pose proof (inv_held s HI o x) as Hh. destruct (ao_kind x); simpl in *; destruct_and?; simplify_eq/=;
      try by repeat econstructor.
    destruct (Hh Deleting) as (r0&?&?); [done..|]. simplify_eq.
  - unfold fail_res. case_decide; [|eauto]. simpl in *. destruct (ao_kind x), p, q; eauto; naive_solver.
  - destruct Hy as [(?&?&?&->)|(->&?)]; [by repeat econstructor|].
    replace (al_res x0) with (al_res x) in Hr0. simplify_eq. eauto 10.
  - by destruct (Hl _ _ Hl0).
Qed.

Lemma step_exclusive s s' : Inv s → astep s s' → 
  ∀ l l' x x', fl_leases s' !! l = Some x → fl_leases s' !! l' = Some x' →
    al_res x = al_res x' → al_exclusive x = true → l = l'.
Proof.
  intros HI Hst l0 l1 x0 x1. pose proof (inv_exclusive s HI l0 l1 x0 x1) as IH.
  destruct Hst; simpl; intros Hl0 Hl1; lk; try by eauto.
  - intros Hr0 Hx. by rewrite (Hsh _ _ ltac:(eassumption) Hr0) in Hx.
  - intros Hr0 Hx. edestruct (Hex Hx); eauto.
Qed.

Lemma step_bound s s' : Inv s → astep s s' → 
  ∀ a l, fl_acqs s' !! a = Some (ABound l) →
    ∃ x, fl_leases s' !! l = Some x ∧ al_acq x = a.
Proof.
  intros HI Hst a0 l0. pose proof (inv_bound s HI a0 l0) as IH.
  destruct Hst; simpl; intros Hl0; lk; try by eauto.
  all: lg; eauto.
  all: destruct IH as (?&?&?); auto; simplify_eq; eauto.
Qed.

Lemma step_lease_acq s s' : Inv s → astep s s' → 
  ∀ l x, fl_leases s' !! l = Some x → fl_acqs s' !! al_acq x = Some (ABound l).
Proof.
  intros HI Hst l0 x0. pose proof (inv_lease_acq s HI l0 x0) as IH.
  destruct Hst; simpl; intros Hl0; lk; try by eauto.
  all: lg; eauto; try (specialize (IH ltac:(done))); congruence.
Qed.

Lemma not_no_lease s r :
  ¬ no_lease s r → ∃ l x, fl_leases s !! l = Some x ∧ al_res x = r.
Proof.
  intros H. destruct (map_not_Forall (λ _ x, al_res x ≠ r) (fl_leases s)) as [(l & x & Hx & Hr) _].
  - done.
  - exists l, x. split; [done|]. by destruct (decide (al_res x = r)).
Qed.

Lemma step_allocated s s' : Inv s → astep s s' → 
  ∀ r e, fl_res s' !! r = Some (MkARes Allocated true e) →
    ∃ l x, fl_leases s' !! l = Some x ∧ al_res x = r.
Proof.
  intros HI Hst r0 e0. pose proof (inv_allocated s HI r0) as IH.
  destruct Hst; simpl; intros Hr0; lk; try by eauto.
  - by destruct Hp.
  - by destruct k; simpl in Hpq; destruct_and?.
  - destruct y; simpl in *; simplify_eq. eauto.
  - destruct (ao_kind x); simpl in Hy; destruct_and?; simplify_eq/=.
  - unfold fail_res in *. case_decide; simplify_eq; [|eauto].
    destruct (ao_kind x), p; simplify_eq/=.
  - exists l. eexists. lg; eauto.
  - destruct (IH _ ltac:(done)) as (l0 & x0 & Hl0 & <-). exists l0, x0. split; [|done]. lg; done.
  - destruct Hy as [(?&?&?&?)|[<- Hn]]; simplify_eq.
    destruct (not_no_lease (del_lease l s) (al_res x)) as (l0 & x0 & Hl0 & Hr1); [naive_solver|eauto].
  - destruct (IH _ ltac:(done)) as (l0 & x0 & Hl0 & Hr1). exists l0, x0. split; [|done]. lg; done.
Qed.

Lemma insert_some {A} (m : gmap string A) k v r y :
  m !! r = Some y → ∃ y', <[k := v]> m !! r = Some y'.
Proof. intros H. rewrite lookup_insert. case_decide; eauto. Qed.

Lemma step_op_res s s' : Inv s → astep s s' →
  ∀ o x, fl_ops s' !! o = Some x → ∃ r y, ao_res x = Some r ∧ fl_res s' !! r = Some y.
Proof.
  intros HI Hst o0 x0. pose proof (inv_op_res s HI) as IH.
  destruct Hst; simpl; intros Ho0; lk; try (by eauto).
  all: try (eexists _, _; split; [done|apply lookup_insert_eq]).
  all: try (destruct (IH _ _ Ho) as (r1 & y1 & Hr1 & Hy1); eauto; fail).
  all: match goal with H : fl_ops _ !! ?o' = Some ?x' |- context [ao_res ?x'] =>
    destruct (IH _ _ H) as (r1 & y1 & Hr1 & Hy1) end.
  all: exists r1; rewrite Hr1; edestruct (insert_some (A := ares)) as [? ->]; eauto.
Qed.

Lemma step_op_open s s' : Inv s → astep s s' →
  ∀ o x, fl_ops s' !! o = Some x → ao_open x = negb (Terminal (ao_state x)).
Proof.
  intros HI Hst o0 x0. pose proof (inv_op_open s HI o0 x0) as IH.
  destruct Hst; simpl; intros Ho0; lk; try (by eauto).
  all: by destruct (ao_state x), st.
Qed.

Lemma step_one_op s s' : Inv s → astep s s' →
  ∀ o o' x x', fl_ops s' !! o = Some x → fl_ops s' !! o' = Some x' →
    ao_open x = true → ao_open x' = true → ao_res x = ao_res x' → o = o'.
Proof.
  intros HI Hst o0 o1 x0 x1. pose proof (inv_one_op s HI) as IH.
  pose proof (inv_op_res s HI) as Hres.
  destruct Hst; simpl; intros Ho0 Ho1; lk; try (by eauto); intros Hop0 Hop1 Heq; simplify_eq.
  all: try by eauto.
  all: try match goal with H : fl_ops _ !! _ = Some ?x, Hr : fl_res _ !! _ = None |- _ =>
    destruct (Hres _ _ H) as (?&?&?&?); congruence end.
  all: match goal with H : fl_ops _ !! _ = Some ?x, Ho : ao_open ?x = true |- _ =>
    by destruct (Hop _ _ H Ho) end.
Qed.

Lemma step_held s s' : Inv s → astep s s' →
  ∀ o x p, fl_ops s' !! o = Some x → ao_open x = true → held_phase (ao_kind x) = Some p →
    ∃ r, ao_res x = Some r ∧ fl_res s' !! r = Some (MkARes p true true).
Proof.
  intros HI Hst o0 x0 p0. pose proof (inv_held s HI) as IH.
  pose proof (inv_one_op s HI) as H1.
  assert (Hheld : held_phase (ao_kind x0) = Some p0 → held p0 = true ∧ p0 ≠ Orphaned ∧ p0 ≠ Provisioning)
    by (destruct (ao_kind x0); naive_solver).
  destruct Hst; simpl; intros Ho0 Hop0 Hk0; lk.
  all: try match goal with H : fl_ops _ !! _ = Some ?x', Hx : ao_open ?x' = true |- context [ao_res ?x'] =>
    destruct (IH _ _ p0 H Hx ltac:(done)) as (r1 & Hr1 & Hy1); exists r1; rewrite Hr1;
    split; [done|]; destruct (Hheld Hk0) as (Hh1 & Hh2 & Hh3)
   end; lg; eauto; try congruence.
  - exists r. split; [done|]. lg. by destruct k; simpl in *; destruct_and?; simplify_eq.
  - match goal with H : fl_ops _ !! _ = Some x0 |- _ => by destruct (Hop _ _ H Hop0) end.
  - assert (o = o0) by (eapply H1; eauto; congruence). done.
  - assert (o = o0) by (eapply H1; eauto; congruence). done.
  - by destruct Hp; subst.
  - destruct Hy as [(Hya&_)|[-> _]]; [|congruence].
    by simplify_eq/=.
  - by destruct Hp.
Qed.

Lemma owned_insert (m : gmap string aop) o v r p :
  owned m r p →
  (∀ x, m !! o = Some x → ao_open x = true → ao_res x = Some r →
     held_phase (ao_kind x) = Some p →
     ao_open v = true ∧ ao_res v = Some r ∧ held_phase (ao_kind v) = Some p) →
  owned (<[o := v]> m) r p.
Proof.
  intros (o1 & x1 & Ho1 & Hop1 & Hr1 & Hk1) Hv. destruct (decide (o = o1)) as [->|].
  - exists o1, v. rewrite lookup_insert_eq. eauto.
  - exists o1, x1. rewrite lookup_insert_ne by done. eauto.
Qed.

(** The owner of a held resource is the one open operation on it. *)
Lemma owner_unique s o x r y p : Inv s →
  fl_ops s !! o = Some x → ao_open x = true → ao_res x = Some r →
  fl_res s !! r = Some y → ar_live y = true → ar_phase y = p → held p = true →
  held_phase (ao_kind x) = Some p.
Proof.
  intros HI Ho Hop Hor Hr Hl <- Hp. destruct y as [p l e]; simpl in *; subst.
  destruct (inv_owner s HI r p e Hr Hp) as (o1 & x1 & Ho1 & Hop1 & Hr1 & Hk1).
  assert (o = o1) as -> by (eapply (inv_one_op s HI); eauto; congruence).
  congruence.
Qed.

Lemma step_owner s s' : Inv s → astep s s' →
  ∀ r p e, fl_res s' !! r = Some (MkARes p true e) → held p = true → owned (fl_ops s') r p.
Proof.
  intros HI Hst r0 p0 e0. pose proof (inv_owner s HI r0 p0) as IH.
  destruct Hst; simpl; intros Hr0 Hh; lk.
  all: try match goal with H : fl_res _ !! ?r = Some _, IH' : ∀ e, fl_res _ !! ?r = Some _ → _ |- owned _ ?r _ =>
    specialize (IH _ H Hh) end.
  all: try (by eauto); try (apply owned_insert; [done|intros x1 Hx1 ???; simplify_eq/=; by split_and?; congruence]).
  - by destruct Hp; subst.
  - congruence.
  - exists o. eexists. rewrite lookup_insert_eq. split_and!; [done..|].
    by destruct k; simpl in *; destruct_and?; simplify_eq.
  - destruct y; simpl in *; subst. apply owned_insert; [by eauto|]. intros x1 Hx1; simplify_eq; eauto.
  - destruct (ao_kind x); simpl in Hy; decompose [and] Hy; by simplify_eq/=.
  - match goal with H : fail_res _ _ _ = _ |- _ => unfold fail_res in H; destruct (decide _) as [Hd|Hd] in H; simplify_eq/= end.
    + by destruct (ao_kind x), p, p0.
    + pose proof (owner_unique s o x r0 _ p0 HI Ho Hopen Hor Hr eq_refl eq_refl Hh) as Hk.
      destruct Hd. split; [|done]. by destruct (ao_kind x), p; simplify_eq/=.
  - destruct Hy as [(?&?&?&?)|[<- _]]; simplify_eq/=. eauto.
Qed.

Lemma step_uncertain s s' : Inv s → astep s s' →
  ∀ o x, fl_ops s' !! o = Some x → ao_state x = OpUncertain → ao_kind x = OpKindCreate.
Proof.
  intros HI Hst o0 x0. pose proof (inv_uncertain s HI o0 x0) as IH.
  destruct Hst; simpl; intros Ho0 Hst0; lk; by eauto.
Qed.

Lemma step_attempts s s' : Inv s → astep s s' →
  ∀ o x, fl_ops s' !! o = Some x →
    0 ≤ ao_attempt x ∧ (is_park (ao_kind x) = true → ao_attempt x ≤ 8).
Proof.
  intros HI Hst o0 x0. pose proof (inv_attempts s HI o0) as IH.
  destruct Hst; simpl; intros Ho0; lk; try (by eauto); try lia.
  all: destruct (IH _ Ho); split; [lia|]; intros Hk; specialize (Hn Hk); lia.
Qed.

Lemma Inv_empty : Inv emptyFleet.
Proof. split; simpl; intros; by rewrite lookup_empty in *. Qed.

Lemma Inv_step s s' : Inv s → astep s s' → Inv s'.
Proof.
  intros HI Hst. split; [by eapply step_lease_res|by eapply step_exclusive
    |by eapply step_bound|by eapply step_lease_acq|by eapply step_allocated
    |by eapply step_op_res|by eapply step_op_open|by eapply step_one_op|by eapply step_held
    |by eapply step_owner|by eapply step_uncertain|by eapply step_attempts].
Qed.

Lemma Inv_reachable s : areachable s → Inv s.
Proof.
  intros H. unfold areachable in H.
  apply (rtc_ind_r Inv emptyFleet) in H; eauto using Inv_empty, Inv_step.
Qed.

(** ** Histories *)

(** What can become of a resource: its phase moves along the table, a
    tombstone is final, and it does not dematerialize. *)
Definition res_evolves (x x' : ares) : Prop :=
  rtc phase_step (ar_phase x) (ar_phase x') ∧
  (ar_live x = false → ar_live x' = false ∧ ar_phase x' = ar_phase x) ∧
  (ar_ext x = true → ar_ext x' = true).

#[export] Instance res_evolves_preorder : PreOrder res_evolves.
Proof.
  split.
  - intros x. repeat split; [apply rtc_refl|done..].
  - intros x y z (H1 & H2 & H3) (H4 & H5 & H6). split_and!; [by etrans| |by auto].
    intros Hl. destruct (H2 Hl) as [Hy Hp]. destruct (H5 Hy) as [??]. split; congruence.
Qed.

Lemma step_res s s' r x :
  astep s s' → fl_res s !! r = Some x → ∃ x', fl_res s' !! r = Some x' ∧ res_evolves x x'.
Proof.
  intros Hst Hx. destruct Hst; simpl; try (by exists x; split; [|reflexivity]); try rename r0 into r1;
    try rewrite lookup_insert; try case_decide; simplify_eq; try (by exists x; split; [|reflexivity]).
  all: eexists; split; [done|]; unfold res_evolves; simpl.
  all: try (split_and!; [|done|done]).
  all: try (apply rtc_refl || by apply rtc_once).
  - apply rtc_once. destruct k; simpl in Hpq; destruct_and?; subst; done.
  - destruct y as [p l e]. destruct (ao_kind x0); simpl in Hy; decompose [and] Hy; simplify_eq/=;
      (split_and!; [first [by apply rtc_refl|by apply rtc_once]|done|done]).
  - unfold fail_res. case_decide as Hd; [|by split_and!].
    destruct y as [p' l e], Hd as [-> ->]; simpl in *.
    split_and!; [|done|done]. apply rtc_once. by destruct (ao_kind x0), p, q.
  - destruct Hp as [->| ->]; [by apply rtc_once|apply rtc_refl].
  - destruct y as [p l' e], Hy as [(?&_&?&->)|[-> _]];
      simplify_eq/=;
      (split_and!; [first [by apply rtc_refl|by apply rtc_once]|done|done]).
Qed.

(** What can become of an operation: kind and resource stay, a terminal one
    is frozen, an open one moves along the journal's machine, and attempts
    only grow. *)
Definition op_evolves (x x' : aop) : Prop :=
  ao_kind x' = ao_kind x ∧ ao_res x' = ao_res x ∧
  (ao_open x = false → x' = x) ∧
  rtc (λ a b, op_step a b = true) (ao_state x) (ao_state x') ∧
  ao_attempt x ≤ ao_attempt x'.

#[export] Instance op_evolves_preorder : PreOrder op_evolves.
Proof.
  split.
  - intros x. split_and!; try done; apply rtc_refl.
  - intros x y z (H1 & H2 & H3 & H4 & H5) (H6 & H7 & H8 & H9 & H10).
    split_and!; [congruence|congruence| |by etrans|lia].
    intros Hx. rewrite (H3 Hx) in *. auto.
Qed.

Lemma step_ops s s' o x :
  astep s s' → fl_ops s !! o = Some x → ∃ x', fl_ops s' !! o = Some x' ∧ op_evolves x x'.
Proof.
  intros Hst Hx. destruct Hst; simpl; try (by exists x; split; [|reflexivity]);
    try rewrite lookup_insert; try case_decide; simplify_eq;
    try (by exists x; split; [|reflexivity]).
  all: eexists; split; [done|]; unfold op_evolves; simpl.
  all: split_and!; try done; try lia; try congruence.
  all: apply rtc_once; unfold op_step; try rewrite Hst; try done.
  all: by rewrite ?orb_true_r.
Qed.

Lemma steps_res s s' r x :
  rtc astep s s' → fl_res s !! r = Some x → ∃ x', fl_res s' !! r = Some x' ∧ res_evolves x x'.
Proof.
  intros Hst. revert x. induction Hst as [|s1 s2 s3 H12 _ IH]; intros x0 Hx.
  - by exists x0.
  - destruct (step_res _ _ _ _ H12 Hx) as (y & Hy & ?).
    destruct (IH _ Hy) as (z & ? & ?). exists z. split; [done|]. by etrans.
Qed.

Lemma steps_ops s s' o x :
  rtc astep s s' → fl_ops s !! o = Some x → ∃ x', fl_ops s' !! o = Some x' ∧ op_evolves x x'.
Proof.
  intros Hst. revert x. induction Hst as [|s1 s2 s3 H12 _ IH]; intros x0 Hx.
  - by exists x0.
  - destruct (step_ops _ _ _ _ H12 Hx) as (y & Hy & ?).
    destruct (IH _ Hy) as (z & ? & ?). exists z. split; [done|]. by etrans.
Qed.
