(* ===== verification/Abs.v ===== *)
(** * From the tables to the abstract fleet

    The abstraction function, and what each successful store statement does
    to it. A failing statement changes nothing, and a failing transaction is
    rolled back, so only successes matter. *)

From stdpp Require Import base gmap strings list.
From S2P Require Import Prelude Errors Json Phase SDK Capacity Types Store Spec.

Definition abs_res (r : Resource) : ares :=
  MkARes (r_Phase r) (live r) (is_some (r_ExternalID r)).
Definition abs_lease (l : Lease) : option alease :=
  if active l then Some (MkALease (l_AcquisitionID l) (l_ResourceID l) (l_Exclusive l)) else None.
Definition abs_acq (a : Acquisition) : aacq :=
  match a_State a with
  | AcqPending | AcqProvisioning => AOpen
  | AcqBound => ABound (default "" (a_LeaseID a))
  | _ => AClosed
  end.
Definition abs_op (o : Operation) : aop :=
  MkAOp (o_Kind o) (o_ResourceID o) (o_State o) (o_Attempt o) (open o).

Definition abs (db : DB) : Fleet :=
  MkFleet (abs_res <$> db_Resources db) (omap abs_lease (db_Leases db))
    (abs_acq <$> db_Acquisitions db) (abs_op <$> db_Operations db).

(** Rows sit under their own ids. *)
Record keyed (db : DB) : Prop := {
  keyed_res k r : db_Resources db !! k = Some r → r_ID r = k;
  keyed_lease k l : db_Leases db !! k = Some l → l_ID l = k;
  keyed_acq k a : db_Acquisitions db !! k = Some a → a_ID a = k;
  keyed_op k o : db_Operations db !! k = Some o → o_ID o = k
}.

Lemma abs_res_lookup db k r :
  db_Resources db !! k = Some r → fl_res (abs db) !! k = Some (abs_res r).
Proof. intros H. simpl. by rewrite lookup_fmap, H. Qed.
Lemma abs_op_lookup db k o :
  db_Operations db !! k = Some o → fl_ops (abs db) !! k = Some (abs_op o).
Proof. intros H. simpl. by rewrite lookup_fmap, H. Qed.
Lemma abs_acq_lookup db k a :
  db_Acquisitions db !! k = Some a → fl_acqs (abs db) !! k = Some (abs_acq a).
Proof. intros H. simpl. by rewrite lookup_fmap, H. Qed.
Lemma abs_lease_lookup db k l :
  db_Leases db !! k = Some l → active l = true →
  fl_leases (abs db) !! k = Some (MkALease (l_AcquisitionID l) (l_ResourceID l) (l_Exclusive l)).
Proof. intros H Ha. simpl. rewrite lookup_omap, H. simpl. unfold abs_lease. by rewrite Ha. Qed.
Lemma abs_lease_inv db k x :
  fl_leases (abs db) !! k = Some x →
  ∃ l, db_Leases db !! k = Some l ∧ active l = true ∧
       x = MkALease (l_AcquisitionID l) (l_ResourceID l) (l_Exclusive l).
Proof.
  simpl. rewrite lookup_omap. intros H. apply bind_Some in H as (l & Hl & Hx).
  unfold abs_lease in Hx. destruct (active l) eqn:E; simplify_eq. eauto.
Qed.
Lemma abs_op_inv db k x :
  fl_ops (abs db) !! k = Some x → ∃ o, db_Operations db !! k = Some o ∧ x = abs_op o.
Proof. simpl. rewrite lookup_fmap. intros H. apply fmap_Some in H. naive_solver. Qed.

(** [abs] of the updated tables. *)
Lemma abs_up_res (w : World) k r :
  abs (w_DB (up_Resources (insert k r) w)) = set_res k (abs_res r) (abs (w_DB w)).
Proof. unfold abs, set_res; simpl. by rewrite fmap_insert. Qed.
Lemma abs_up_op (w : World) k o :
  abs (w_DB (up_Operations (insert k o) w)) = set_op k (abs_op o) (abs (w_DB w)).
Proof. unfold abs, set_op; simpl. by rewrite fmap_insert. Qed.
Lemma abs_up_acq (w : World) k a :
  abs (w_DB (up_Acquisitions (insert k a) w)) = set_acq k (abs_acq a) (abs (w_DB w)).
Proof. unfold abs, set_acq; simpl. by rewrite fmap_insert. Qed.
Lemma abs_up_lease (w : World) k l x : abs_lease l = Some x →
  abs (w_DB (up_Leases (insert k l) w)) = set_lease k x (abs (w_DB w)).
Proof. intros H. unfold abs, set_lease; simpl. by rewrite (omap_insert_Some _ _ _ _ _ H). Qed.
Lemma abs_up_lease_end (w : World) k l : abs_lease l = None →
  abs (w_DB (up_Leases (insert k l) w)) = del_lease k (abs (w_DB w)).
Proof.
  intros H. unfold abs, del_lease; simpl. rewrite (omap_insert_None _ _ _ _ H). done.
Qed.

Lemma set_res_id k x s : fl_res s !! k = Some x → set_res k x s = s.
Proof. destruct s. unfold set_res; simpl. intros H. by rewrite insert_id. Qed.
Lemma set_op_id k x s : fl_ops s !! k = Some x → set_op k x s = s.
Proof. destruct s. unfold set_op; simpl. intros H. by rewrite insert_id. Qed.
Lemma set_acq_id k x s : fl_acqs s !! k = Some x → set_acq k x s = s.
Proof. destruct s. unfold set_acq; simpl. intros H. by rewrite insert_id. Qed.

(** ** Generic statements *)

Lemma refuse_ok {S} c e (w : S) u w' : refuse c e w = (Ok u, w') → c = false ∧ w' = w.
Proof. destruct c; unfold refuse, failM, retM; intros H; simplify_eq; done. Qed.
Lemma ret_ok {S A} (a : A) (w : S) b w' : retM a w = (Ok b, w') → b = a ∧ w' = w.
Proof. intros H. unfold retM in H. by simplify_eq. Qed.
Lemma gets_ok {S A} (f : S → A) w b w' : getsM f w = (Ok b, w') → b = f w ∧ w' = w.
Proof. intros H. unfold getsM in H. by simplify_eq. Qed.
Lemma liftR_ok {S A} (r : result A) (w : S) b w' : liftR r w = (Ok b, w') → r = Ok b ∧ w' = w.
Proof. intros H. unfold liftR in H. by simplify_eq. Qed.
Lemma modify_ok {S} (f : S → S) w u w' : modifyM f w = (Ok u, w') → w' = f w.
Proof. intros H. unfold modifyM in H. by simplify_eq. Qed.
Lemma newID_ok `{ULID} p w id w' :
  newID p w = (Ok id, w') → id = (p +:+ "_" +:+ ulid (w_Minted w))%string ∧ w_DB w' = w_DB w.
Proof. intros Hn. unfold newID in Hn. by simplify_eq. Qed.

Lemma row_get_ok {A} (t : DB → gmap string A) id w x w' :
  row_get t id w = (Ok x, w') → t (w_DB w) !! id = Some x ∧ w' = w.
Proof. unfold row_get. intros H. destruct (_ !! _) eqn:E; by simplify_eq. Qed.
Lemma row_update_ok {A} (t : DB → gmap string A) up id (P : A → bool) f e w u w' :
  row_update t up id P f e w = (Ok u, w') →
  ∃ x, t (w_DB w) !! id = Some x ∧ P x = true ∧ w' = up (insert id (f x)) w.
Proof. unfold row_update. intros H. destruct (_ !! _) eqn:E; [destruct (P _) eqn:EP|]; naive_solver. Qed.
Lemma row_insert_ok {A} (t : DB → gmap string A) up id ok x w u w' :
  row_insert t up id ok x w = (Ok u, w') →
  t (w_DB w) !! id = None ∧ ok (w_DB w) = true ∧ w' = up (insert id x) w.
Proof. unfold row_insert. intros H. destruct (_ !! _) eqn:E; [|destruct (ok _) eqn:EP]; naive_solver. Qed.

(** An updating statement that fails leaves the world alone. *)
Lemma row_update_err {A} (t : DB → gmap string A) up id (P : A → bool) f e w e' w' :
  row_update t up id P f e w = (Err e', w') → w' = w.
Proof. unfold row_update. intros H. repeat case_match; by simplify_eq. Qed.

Lemma fk_Some {A} (m : gmap string A) k : fk m (Some k) = true → ∃ x, m !! k = Some x.
Proof. simpl. unfold is_some. destruct (m !! k); simpl; [eauto|done]. Qed.

Lemma exists_row_false {A} (P : string → A → bool) m :
  exists_row P m = false → ∀ k x, m !! k = Some x → P k x = false.
Proof.
  unfold exists_row. intros H k x Hk. destruct (P k x) eqn:E; [|done].
  assert (existsb (λ '(k, x), P k x) (map_to_list m) = true) as Hc; [|congruence].
  apply existsb_exists. exists (k, x). split; [|done].
  apply list_elem_of_In. by apply elem_of_map_to_list.
Qed.

(** ** Resources *)

Lemma CASPhase_ok id p q t w u w' :
  Resources_CASPhase id p q t w = (Ok u, w') →
  ∃ e, fl_res (abs (w_DB w)) !! id = Some (MkARes p true e) ∧
       abs (w_DB w') = set_res id (MkARes q true e) (abs (w_DB w)).
Proof.
  intros H. apply row_update_ok in H as (r & Hr & HP & ->).
  apply andb_true_iff in HP as [HP Hl]. apply bool_decide_eq_true in HP.
  exists (is_some (r_ExternalID r)). rewrite (abs_res_lookup _ _ _ Hr), abs_up_res.
  unfold abs_res. rewrite HP, Hl. split; [done|]. f_equal.
  rewrite <-Hl. unfold cas_row. by repeat case_decide.
Qed.

Lemma MarkDeleted_ok id t w u w' :
  Resources_MarkDeleted id t w = (Ok u, w') →
  ∃ p e, fl_res (abs (w_DB w)) !! id = Some (MkARes p true e) ∧
         abs (w_DB w') = set_res id (MkARes p false e) (abs (w_DB w)).
Proof.
  intros H. apply row_update_ok in H as (r & Hr & Hl & ->).
  exists (r_Phase r), (is_some (r_ExternalID r)).
  rewrite (abs_res_lookup _ _ _ Hr), abs_up_res. unfold abs_res. by rewrite Hl.
Qed.

Lemma SetExternalRef_ok id ext ref w u w' :
  Resources_SetExternalRef id ext ref w = (Ok u, w') →
  ∃ y, fl_res (abs (w_DB w)) !! id = Some y ∧
       abs (w_DB w') = set_res id (MkARes (ar_phase y) (ar_live y) true) (abs (w_DB w)).
Proof.
  unfold Resources_SetExternalRef. intros H.
  destruct (_ !! _) as [r|] eqn:Hr; [|by simplify_eq]. case_match; [by simplify_eq|].
  exists (abs_res r). rewrite (abs_res_lookup _ _ _ Hr). simplify_eq. by rewrite abs_up_res.
Qed.

(** Statements the abstraction does not see. *)
Lemma res_aside id r r' w :
  db_Resources (w_DB w) !! id = Some r → abs_res r' = abs_res r →
  abs (w_DB (up_Resources (insert id r') w)) = abs (w_DB w).
Proof.
  intros Hr Heq. rewrite abs_up_res, Heq. apply set_res_id. by apply abs_res_lookup.
Qed.

Lemma SetProviderFacts_ok id ext cap t w u w' :
  Resources_SetProviderFacts id ext cap t w = (Ok u, w') → abs (w_DB w') = abs (w_DB w).
Proof.
  intros H. apply row_update_ok in H as (r & Hr & _ & ->). by eapply res_aside.
Qed.
Lemma SetLastLeaseEnded_ok id t w u w' :
  Resources_SetLastLeaseEnded id t w = (Ok u, w') → abs (w_DB w') = abs (w_DB w).
Proof.
  intros H. apply row_update_ok in H as (r & Hr & _ & ->). by eapply res_aside.
Qed.
Lemma SetDeleteProtected_ok id b t w u w' :
  Resources_SetDeleteProtected id b t w = (Ok u, w') → abs (w_DB w') = abs (w_DB w).
Proof.
  intros H. apply row_update_ok in H as (r & Hr & _ & ->). by eapply res_aside.
Qed.
Lemma PutObserved_abs s w : abs (w_DB (Resources_PutObserved s w).2) = abs (w_DB w).
Proof. unfold Resources_PutObserved. by case_match. Qed.
Lemma Events_ok ev w u w' : Events_Append ev w = (Ok u, w') → abs (w_DB w') = abs (w_DB w).
Proof. intros H. apply modify_ok in H. by subst. Qed.

Lemma Create_ok r w u w' :
  Resources_Create r w = (Ok u, w') →
  fl_res (abs (w_DB w)) !! r_ID r = None ∧
  abs (w_DB w') = set_res (r_ID r) (abs_res r) (abs (w_DB w)).
Proof.
  intros H. apply row_insert_ok in H as (Hn & _ & ->). split; [|apply abs_up_res].
  simpl. by rewrite lookup_fmap, Hn.
Qed.

Lemma Get_res_ok id w r w' :
  Resources_Get id w = (Ok r, w') → db_Resources (w_DB w) !! id = Some r ∧ w' = w.
Proof. apply row_get_ok. Qed.

(** ** Leases and acquisitions *)

Lemma CountActive_ok r w n w' :
  Leases_CountActive r w = (Ok n, w') → bool_decide (0 < n) = false →
  w' = w ∧ no_lease (abs (w_DB w)) r.
Proof.
  intros H Hn. apply gets_ok in H as [-> ->]. split; [done|].
  apply bool_decide_eq_false in Hn. intros k x Hx Hr.
  apply abs_lease_inv in Hx as (l & Hl & Ha & ->). simpl in Hr.
  assert (l ∈ select (active_on r) (db_Leases (w_DB w))) as Hin.
  { apply elem_of_select. unfold active_on. rewrite Ha. split; [|eauto].
    by rewrite bool_decide_eq_true_2. }
  destruct (select _ _); [by apply elem_of_nil in Hin|]. simpl in Hn. lia.
Qed.

(** The active leases of a resource, read as a list. *)
Lemma active_on_spec (w : World) r l :
  l ∈ select (active_on r) (db_Leases (w_DB w)) ↔
  ∃ k, db_Leases (w_DB w) !! k = Some l ∧ active l = true ∧ l_ResourceID l = r.
Proof.
  rewrite elem_of_select. unfold active_on. rewrite andb_true_iff, bool_decide_eq_true.
  naive_solver.
Qed.

Lemma Insert_lease_ok l w u w' :
  Leases_Insert l w = (Ok u, w') → active l = true →
  fl_leases (abs (w_DB w)) !! l_ID l = None ∧
  abs (w_DB w') = set_lease (l_ID l) (MkALease (l_AcquisitionID l) (l_ResourceID l) (l_Exclusive l))
                    (abs (w_DB w)).
Proof.
  intros H Ha. apply row_insert_ok in H as (Hn & _ & ->). split.
  - simpl. by rewrite lookup_omap, Hn.
  - apply abs_up_lease. unfold abs_lease. by rewrite Ha.
Qed.

Lemma Transition_lease_ok id to t w u w' :
  Leases_Transition id LeaseActive to t w = (Ok u, w') → to ≠ LeaseActive →
  ∃ l, db_Leases (w_DB w) !! id = Some l ∧ active l = true ∧
       abs (w_DB w') = del_lease id (abs (w_DB w)).
Proof.
  intros H Hto. apply row_update_ok in H as (l & Hl & HP & ->).
  exists l. split; [done|]. split; [done|]. apply abs_up_lease_end.
  unfold abs_lease, active. simpl. by rewrite bool_decide_eq_false_2.
Qed.

Lemma Insert_acq_ok a w u w' :
  Acquisitions_Insert a w = (Ok u, w') →
  fl_acqs (abs (w_DB w)) !! a_ID a = None ∧
  abs (w_DB w') = set_acq (a_ID a) (abs_acq a) (abs (w_DB w)).
Proof.
  intros H. apply row_insert_ok in H as (Hn & _ & ->). split; [|apply abs_up_acq].
  simpl. by rewrite lookup_fmap, Hn.
Qed.

(** The acquisition states an acquisition is waiting in. *)
Definition waiting (s : AcqState) : bool :=
  match s with AcqPending | AcqProvisioning => true | _ => false end.
Definition over (s : AcqState) : bool :=
  match s with AcqFailed | AcqReleased | AcqExpired => true | _ => false end.

Lemma Transition_acq_ok id from to t w u w' :
  Acquisitions_Transition id from to t w = (Ok u, w') → waiting from = true →
  fl_acqs (abs (w_DB w)) !! id = Some AOpen ∧
  (waiting to = true → abs (w_DB w') = abs (w_DB w)) ∧
  (over to = true → abs (w_DB w') = set_acq id AClosed (abs (w_DB w))).
Proof.
  intros H Hw. apply row_update_ok in H as (a & Ha & HP & ->).
  apply bool_decide_eq_true in HP. subst.
  assert (abs_acq a = AOpen) as Hopen by (unfold abs_acq; by destruct (a_State a)).
  rewrite (abs_acq_lookup _ _ _ Ha), abs_up_acq, Hopen. split; [done|]. split; intros Hto.
  - apply set_acq_id. rewrite (abs_acq_lookup _ _ _ Ha). f_equal. rewrite Hopen.
    unfold abs_acq; simpl. by destruct to.
  - f_equal. unfold abs_acq; simpl. by destruct to.
Qed.

Lemma Bind_ok id l t w u w' :
  Acquisitions_Bind id l t w = (Ok u, w') →
  fl_acqs (abs (w_DB w)) !! id = Some AOpen ∧
  abs (w_DB w') = set_acq id (ABound l) (abs (w_DB w)).
Proof.
  intros H. apply row_update_ok in H as (a & Ha & HP & ->).
  rewrite (abs_acq_lookup _ _ _ Ha), abs_up_acq. split; [|done].
  unfold bindable in HP. unfold abs_acq.
  apply orb_true_iff in HP as [HP|HP]; apply bool_decide_eq_true in HP; by rewrite HP.
Qed.

Lemma SetPending_ok id r w u w' :
  Acquisitions_SetPendingResource id r w = (Ok u, w') → abs (w_DB w') = abs (w_DB w).
Proof.
  intros H. apply row_update_ok in H as (a & Ha & _ & ->). rewrite abs_up_acq.
  apply set_acq_id. by rewrite (abs_acq_lookup _ _ _ Ha).
Qed.

Lemma ClearPending_abs id w :
  abs (w_DB (Acquisitions_ClearPendingResource id w).2) = abs (w_DB w).
Proof.
  unfold abs; simpl. f_equal. apply map_eq. intros k.
  rewrite !lookup_fmap. destruct (decide (id = k)) as [->|].
  - rewrite lookup_alter_eq. by destruct (_ !! k).
  - by rewrite lookup_alter_ne.
Qed.

(** ** Operations *)

Lemma Append_ok o w u w' :
  Operations_Append o w = (Ok u, w') → open o = true →
  o_State o = OpJournaled ∧
  fl_ops (abs (w_DB w)) !! o_ID o = None ∧
  (∀ r, o_ResourceID o = Some r → no_open_op (abs (w_DB w)) r) ∧
  abs (w_DB w') = set_op (o_ID o) (abs_op o) (abs (w_DB w)).
Proof.
  unfold Operations_Append. case_decide as Hst; [|by intros]. intros H Ho.
  apply row_insert_ok in H as (Hn & Hok & ->). split; [done|]. split_and!.
  - simpl. by rewrite lookup_fmap, Hn.
  - intros r Hr k x Hx Hop Hxr. apply abs_op_inv in Hx as (o' & Ho' & ->). simpl in *.
    apply andb_true_iff in Hok as [_ Hok]. rewrite Ho, Hr in Hok. simpl in Hok.
    apply negb_true_iff in Hok. eapply exists_row_false in Hok; [|done].
    simpl in Hok. rewrite Hop in Hok. simpl in Hok. by apply bool_decide_eq_false in Hok.
  - apply abs_up_op.
Qed.

Lemma Transition_op_ok id from to mut w u w' :
  Operations_Transition id from to mut w = (Ok u, w') →
  ∃ o, db_Operations (w_DB w) !! id = Some o ∧ o_State o = from ∧
       abs (w_DB w') =
         set_op id (abs_op (persist (mut (transitioned (w_Clock w) to o)) o)) (abs (w_DB w)).
Proof.
  unfold Operations_Transition. intros H. inv_bind H. apply row_get_ok in Hm as [Ho ->].
  case_decide; [|done]. inv_bind H. apply gets_ok in Hm as [-> ->].
  apply row_update_ok in H as (o & Ho' & _ & ->). rewrite Ho in Ho'. simplify_eq.
  exists o. rewrite abs_up_op. done.
Qed.

Lemma Get_op_ok id w o w' :
  Operations_Get id w = (Ok o, w') → db_Operations (w_DB w) !! id = Some o ∧ w' = w.
Proof. apply row_get_ok. Qed.

(** [mut] leaves alone what the abstraction sees. *)
Definition schedules (mut : Operation → Operation) : Prop :=
  ∀ o, o_State (mut o) = o_State o ∧ o_Attempt (mut o) = o_Attempt o
       ∧ o_TerminalAt (mut o) = o_TerminalAt o.

Lemma transition_abs mut now to o :
  schedules mut → open o = true →
  abs_op (persist (mut (transitioned now to o)) o) =
  MkAOp (o_Kind o) (o_ResourceID o) to (o_Attempt o) (negb (Terminal to)).
Proof.
  intros Hs Ho. destruct (Hs (transitioned now to o)) as (H1 & H2 & H3).
  unfold abs_op, persist, open. simpl. rewrite H1, H2, H3. unfold transitioned.
  unfold open in Ho. apply is_none_true in Ho.
  by destruct (Terminal to); simpl; rewrite ?Ho.
Qed.
