(* ===== verification/Refine.v ===== *)
(** * The transactions refine the lifecycle protocol

    [kstep] has one constructor per transaction body of the program, run on
    whatever arguments a handler may have read before; [kstep_refines] shows
    each is a step of [Spec.v], so every invariant proved there holds after
    every commit. *)

From stdpp Require Import base gmap strings list relations.
From S2P Require Import Prelude Errors Json Phase SDK Capacity Types Store Kinds Classes Provision Sys Lease Engine Scheduler Reconcile Discovery App Spec Abs.

Notation fleet w := (abs (w_DB w)).

(** ** Keys are kept by every statement *)

Definition keyedW (w : World) : Prop := keyed (w_DB w).

Lemma keyed_res_up k r w : keyedW w → r_ID r = k → keyedW (up_Resources (insert k r) w).
Proof.
  intros [H1 H2 H3 H4] Hr. split; simpl; try done.
  intros k' r' [[<- <-]|[_ H]]%lookup_insert_Some; auto.
Qed.
Lemma keyed_lease_up k l w : keyedW w → l_ID l = k → keyedW (up_Leases (insert k l) w).
Proof.
  intros [H1 H2 H3 H4] Hr. split; simpl; try done.
  intros k' r' [[<- <-]|[_ H]]%lookup_insert_Some; auto.
Qed.
Lemma keyed_acq_up k a w : keyedW w → a_ID a = k → keyedW (up_Acquisitions (insert k a) w).
Proof.
  intros [H1 H2 H3 H4] Hr. split; simpl; try done.
  intros k' r' [[<- <-]|[_ H]]%lookup_insert_Some; auto.
Qed.
Lemma keyed_op_up k o w : keyedW w → o_ID o = k → keyedW (up_Operations (insert k o) w).
Proof.
  intros [H1 H2 H3 H4] Hr. split; simpl; try done.
  intros k' r' [[<- <-]|[_ H]]%lookup_insert_Some; auto.
Qed.

Lemma keeps_res_update id P f e :
  (∀ r, r_ID (f r) = r_ID r) → keeps keyedW (row_update db_Resources up_Resources id P f e).
Proof.
  intros Hf w Hw. unfold row_update. destruct (_ !! _) eqn:E; [|done]. case_match; [|done].
  simpl. apply keyed_res_up; [done|]. rewrite Hf. by apply (keyed_res _ Hw).
Qed.
Lemma keeps_lease_update id P f e :
  (∀ l, l_ID (f l) = l_ID l) → keeps keyedW (row_update db_Leases up_Leases id P f e).
Proof.
  intros Hf w Hw. unfold row_update. destruct (_ !! _) eqn:E; [|done]. case_match; [|done].
  simpl. apply keyed_lease_up; [done|]. rewrite Hf. by apply (keyed_lease _ Hw).
Qed.
Lemma keeps_acq_update id P f e :
  (∀ a, a_ID (f a) = a_ID a) → keeps keyedW (row_update db_Acquisitions up_Acquisitions id P f e).
Proof.
  intros Hf w Hw. unfold row_update. destruct (_ !! _) eqn:E; [|done]. case_match; [|done].
  simpl. apply keyed_acq_up; [done|]. rewrite Hf. by apply (keyed_acq _ Hw).
Qed.

Lemma keeps_CASPhase id p q t : keeps keyedW (Resources_CASPhase id p q t).
Proof. apply keeps_res_update. intros r. unfold cas_row. by repeat case_decide. Qed.
Lemma keeps_MarkDeleted id t : keeps keyedW (Resources_MarkDeleted id t).
Proof. by apply keeps_res_update. Qed.
Lemma keeps_SetProviderFacts id e c t : keeps keyedW (Resources_SetProviderFacts id e c t).
Proof. by apply keeps_res_update. Qed.
Lemma keeps_SetLastLeaseEnded id t : keeps keyedW (Resources_SetLastLeaseEnded id t).
Proof. by apply keeps_res_update. Qed.
Lemma keeps_SetDeleteProtected id b t : keeps keyedW (Resources_SetDeleteProtected id b t).
Proof. by apply keeps_res_update. Qed.
Lemma keeps_SetExternalRef id e r : keeps keyedW (Resources_SetExternalRef id e r).
Proof.
  intros w Hw. unfold Resources_SetExternalRef. destruct (_ !! _) eqn:E; [|done].
  case_match; [done|]. simpl. apply keyed_res_up; [done|]. by apply (keyed_res _ Hw) in E.
Qed.
Lemma keeps_PutObserved s : keeps keyedW (Resources_PutObserved s).
Proof. intros w [????]. unfold Resources_PutObserved. by case_match. Qed.
Lemma keeps_Create r : keeps keyedW (Resources_Create r).
Proof.
  intros w Hw. unfold Resources_Create, row_insert. case_match; [done|].
  case_match; [|done]. simpl. by apply keyed_res_up.
Qed.
Lemma keeps_Events ev : keeps keyedW (Events_Append ev).
Proof. by intros w [????]. Qed.
Lemma keeps_Insert_lease l : keeps keyedW (Leases_Insert l).
Proof.
  intros w Hw. unfold Leases_Insert, row_insert. case_match; [done|].
  case_match; [|done]. simpl. by apply keyed_lease_up.
Qed.
Lemma keeps_Transition_lease id p q t : keeps keyedW (Leases_Transition id p q t).
Proof. apply keeps_lease_update. intros l. simpl. by case_decide. Qed.
Lemma keeps_Insert_acq a : keeps keyedW (Acquisitions_Insert a).
Proof.
  intros w Hw. unfold Acquisitions_Insert, row_insert. case_match; [done|].
  simpl. by apply keyed_acq_up.
Qed.
Lemma keeps_Transition_acq id p q t : keeps keyedW (Acquisitions_Transition id p q t).
Proof. by apply keeps_acq_update. Qed.
Lemma keeps_Bind id l t : keeps keyedW (Acquisitions_Bind id l t).
Proof. by apply keeps_acq_update. Qed.
Lemma keeps_SetPending id r : keeps keyedW (Acquisitions_SetPendingResource id r).
Proof. by apply keeps_acq_update. Qed.
Lemma keeps_ClearPending id : keeps keyedW (Acquisitions_ClearPendingResource id).
Proof.
  intros w [H1 H2 H3 H4]. split; simpl; try done. intros k a.
  rewrite lookup_alter. case_decide; subst; [|apply H3].
  destruct (_ !! k) eqn:E; simpl; intros; simplify_eq. by apply H3 in E.
Qed.
Lemma keeps_Append o : keeps keyedW (Operations_Append o).
Proof.
  intros w Hw. unfold Operations_Append. case_decide; [|done]. unfold row_insert.
  case_match; [done|]. case_match; [|done]. simpl. by apply keyed_op_up.
Qed.
Lemma keeps_Transition_op id p q mut : keeps keyedW (Operations_Transition id p q mut).
Proof.
  unfold Operations_Transition, Operations_Get, row_get. intros w Hw.
  unfold bindM. destruct (_ !! _) as [o|] eqn:E; [|done]. case_decide; [|done]. simpl.
  unfold row_update. rewrite E. case_match; [|done]. simpl. apply keyed_op_up; [done|].
  by apply (keyed_op _ Hw) in E.
Qed.
Lemma keeps_newID `{ULID} p : keeps keyedW (newID p).
Proof. by intros w [????]. Qed.
Lemma keeps_reads {A} (m : M World A) : pure m → keeps keyedW m.
Proof. apply keeps_pure. Qed.

Lemma pure_row_get {A} (t : DB → gmap string A) id : pure (row_get t id).
Proof. intros w. unfold row_get. by case_match. Qed.
Lemma pure_Resources_Get id : pure (Resources_Get id).
Proof. apply pure_row_get. Qed.
Lemma pure_Leases_Get id : pure (Leases_Get id).
Proof. apply pure_row_get. Qed.
Lemma pure_Acquisitions_Get id : pure (Acquisitions_Get id).
Proof. apply pure_row_get. Qed.
Lemma pure_Operations_Get id : pure (Operations_Get id).
Proof. apply pure_row_get. Qed.
Lemma pure_Pools_Get id : pure (Pools_Get id).
Proof. apply pure_row_get. Qed.
Lemma pure_CountActive r : pure (Leases_CountActive r).
Proof. apply pure_gets. Qed.
Lemma pure_ActiveByResource r : pure (Leases_ActiveByResource r).
Proof. apply pure_gets. Qed.
Lemma pure_SumActive r : pure (Leases_SumActive r).
Proof. apply pure_bind; [apply pure_gets|intros; apply pure_liftR]. Qed.
Lemma pure_ListByState sts : pure (Acquisitions_ListByState sts).
Proof. by destruct sts. Qed.
Lemma pure_Resources_List f : pure (Resources_List f).
Proof. done. Qed.

#[export] Hint Resolve keeps_CASPhase keeps_MarkDeleted keeps_SetProviderFacts
  keeps_SetLastLeaseEnded keeps_SetDeleteProtected keeps_SetExternalRef keeps_PutObserved
  keeps_Create keeps_Events keeps_Insert_lease keeps_Transition_lease keeps_Insert_acq
  keeps_Transition_acq keeps_Bind keeps_SetPending keeps_ClearPending keeps_Append
  keeps_Transition_op keeps_newID pure_row_get
  pure_Resources_Get pure_Leases_Get pure_Acquisitions_Get pure_Operations_Get pure_Pools_Get
  pure_CountActive pure_ActiveByResource pure_SumActive pure_ListByState pure_Resources_List : fp.

(** Discharges [keeps keyedW body] by structure. *)
Ltac keeps_tac :=
  repeat match goal with
  | |- keeps _ (match ?x with _ => _ end) => destruct x
  | |- keeps _ (bindM _ _) => apply keeps_bind; [|intros ?]
  | |- keeps _ (ignoreM _) => apply keeps_ignore
  | |- keeps _ (tryM _) => apply keeps_try
  | |- keeps _ (let _ := _ in _) => cbv zeta
  | |- keeps _ _ => first [solve [auto with fp] | apply keeps_pure; solve [auto with fp]]
  end.

Lemma keeps_Tx {A} (m : M World A) : keeps keyedW m → keeps keyedW (Tx m).
Proof.
  intros Hm w Hw. specialize (Hm w Hw). unfold Tx. by destruct (m w) as [[?|?] ?].
Qed.

(** ** What a transaction must do *)

Definition refines {A} (m : M World A) (w : World) : Prop :=
  ∀ a w', m w = (Ok a, w') → astep (fleet w) (fleet w').

Lemma refines_Tx {A} (m : M World A) w : refines m w → astep (fleet w) (fleet (Tx m w).2).
Proof.
  intros Hm. unfold Tx. destruct (m w) as [[a|e] w'] eqn:E; simpl; [by eapply Hm|apply R_skip].
Qed.

(** Takes the first statement of a successful sequence apart with its lemma. *)
Tactic Notation "run" hyp(H) "with" uconstr(lem) "as" simple_intropattern(pat) :=
  let a := fresh "a" in let w1 := fresh "w" in let Hm := fresh "Hm" in
  apply bindM_Ok in H as (a & w1 & Hm & H); apply lem in Hm as pat.

(** The guards of an [if] before the next statement. *)
Tactic Notation "guard" hyp(H) "as" simple_intropattern(Hg) :=
  run H with @refuse_ok as [Hg ->].

(** What a handler knows of an operation it has read: only its immutable
    columns are still certain when the transaction runs. *)
Definition same_op (op : Operation) (w : World) : Prop :=
  ∃ cur, db_Operations (w_DB w) !! o_ID op = Some cur ∧
         o_Kind cur = o_Kind op ∧ o_ResourceID cur = o_ResourceID op.
Definition same_lease (l : Lease) (w : World) : Prop :=
  ∃ cur, db_Leases (w_DB w) !! l_ID l = Some cur ∧
         l_AcquisitionID cur = l_AcquisitionID l ∧ l_ResourceID cur = l_ResourceID l.

(** What [Prepare] hands over. *)
Record prepared (p : Prepared) : Prop := {
  prepared_phase : r_Phase (Prepared_Resource p) = Provisioning;
  prepared_live : r_DeletedAt (Prepared_Resource p) = None;
  prepared_ext : r_ExternalID (Prepared_Resource p) = None;
  prepared_kind : o_Kind (Prepared_Op p) = OpKindCreate;
  prepared_res : o_ResourceID (Prepared_Op p) = Some (r_ID (Prepared_Resource p));
  prepared_attempt : o_Attempt (Prepared_Op p) = 0;
  prepared_open : o_TerminalAt (Prepared_Op p) = None
}.

(** ** Leases *)

Lemma close_bound_acq a to t w l u w' :
  keyedW w → fl_acqs (fleet w) !! a = Some (ABound l) → over to = true →
  (racq <- tryM (Acquisitions_Get a) ;;
   match racq with
   | Ok acq => if decide (a_State acq = AcqBound)
               then ignoreM (Acquisitions_Transition (a_ID acq) AcqBound to t) else retM tt
   | Err _ => retM tt
   end) w = (Ok u, w') →
  fleet w' = set_acq a AClosed (fleet w).
Proof.
  intros Hk Ha Hto H. simpl in Ha. rewrite lookup_fmap in Ha.
  apply fmap_Some in Ha as (acq & Ha & Hab).
  assert (a_State acq = AcqBound) as Hst by (unfold abs_acq in Hab; by destruct (a_State acq)).
  pose proof (keyed_acq _ Hk _ _ Ha) as Hid.
  unfold bindM, tryM, Acquisitions_Get, row_get in H. rewrite Ha in H.
  rewrite decide_True in H by done. unfold ignoreM, Acquisitions_Transition, row_update in H.
  rewrite Hid, Ha in H. rewrite bool_decide_eq_true_2 in H by done. simpl in H. simplify_eq.
  rewrite abs_up_acq. f_equal. unfold abs_acq; simpl. by destruct to.
Qed.

Lemma endLease_ok l t w p w' y :
  endLeaseLocked l t w = (Ok p, w') →
  fl_res (fleet w) !! l_ResourceID l = Some y →
  ∃ y', fleet w' = set_res (l_ResourceID l) y' (fleet w) ∧
        end_res (no_lease (fleet w) (l_ResourceID l)) y y'.
Proof.
  unfold endLeaseLocked. intros H Hy.
  run H with SetLastLeaseEnded_ok as H1. rewrite <-H1 in Hy |- *. clear H1.
  run H with Get_res_ok as [Hr ->]. rewrite (abs_res_lookup _ _ _ Hr) in Hy. simplify_eq.
  apply bindM_Ok in H as (n & w1 & Hn & H).
  assert (w1 = w0) as -> by (by apply gets_ok in Hn as [_ ->]).
  apply bindM_Ok in H as (u & w2 & Hc & H). apply ret_ok in H as [_ ->].
  case_decide as Hd.
  - destruct Hd as [-> Hp]. apply CountActive_ok in Hn as [_ Hn]; [|done].
    apply CASPhase_ok in Hc as (e & He & ->). rewrite (abs_res_lookup _ _ _ Hr) in He.
    eexists. split; [done|]. left. injection He. intros <- Hl _.
    unfold abs_res. simpl. by rewrite Hp, Hl.
  - apply ret_ok in Hc as [_ ->]. exists (abs_res a0). split.
    + symmetry. apply set_res_id. by apply abs_res_lookup.
    + right. split; [done|]. intros [Hp Hno]. apply Hd. split; [|done].
      apply gets_ok in Hn as [-> _]. destruct (select _ _) as [|l0 ls] eqn:E; [done|].
      exfalso. assert (l0 ∈ select (active_on (l_ResourceID l)) (db_Leases (w_DB w0))) as Hin
        by (rewrite E; left).
      apply active_on_spec in Hin as (k & Hk & Ha & Hr'). eapply Hno; [by apply abs_lease_lookup|done].
Qed.

Lemma finishLease_refines l to acqTo ev t w :
  keyedW w → Inv (fleet w) → same_lease l w → to ≠ LeaseActive → over acqTo = true →
  refines (finishLease l to acqTo ev t) w.
Proof.
  intros Hk HI (cur & Hcur & Hca & Hcr) Hto Hov p w' H. unfold finishLease in H.
  apply bindM_Ok in H as (u & w1 & Ht & H).
  pose proof (keeps_Transition_lease (l_ID l) LeaseActive to t w Hk) as Hk1. rewrite Ht in Hk1.
  apply Transition_lease_ok in Ht as (cur' & Hcur' & Ha & Hw1); [|done].
  assert (cur' = cur) as -> by congruence.
  set (x := MkALease (l_AcquisitionID l) (l_ResourceID l) (l_Exclusive cur)).
  assert (fl_leases (fleet w) !! l_ID l = Some x) as Hx.
  { unfold x. rewrite <-Hca, <-Hcr. by apply abs_lease_lookup. }
  pose proof (inv_lease_acq _ HI _ _ Hx) as Hacq.
  destruct (inv_lease_res _ HI _ _ Hx) as (q & e & Hres & _).
  rewrite <-bindM_assoc in H. apply bindM_Ok in H as (u2 & w2 & Hc & H).
  apply (close_bound_acq _ _ _ _ (l_ID l)) in Hc; [|done|by rewrite Hw1|done].
  rewrite Hw1 in Hc.
  apply bindM_Ok in H as (pid & w3 & He & H).
  eapply endLease_ok in He as (y' & Hw3 & Hend); [|by rewrite Hc].
  run H with Events_ok as Hev. apply ret_ok in H as [_ ->]. rewrite Hev, Hw3, Hc.
  rewrite Hc in Hend. by apply (R_end _ _ x (MkARes q true e)).
Qed.

Lemma releaseTx_refines id t w : keyedW w → Inv (fleet w) → refines (releaseTx id t) w.
Proof.
  intros Hk HI p w' H. unfold releaseTx in H.
  run H with @row_get_ok as [Hl ->]. guard H as _.
  pose proof (keyed_lease _ Hk _ _ Hl) as Hid.
  refine (finishLease_refines _ _ _ _ _ _ Hk HI _ _ _ _ _ H); [|done|done].
  exists a. by rewrite Hid.
Qed.

Lemma expireTx_refines l t w :
  keyedW w → Inv (fleet w) → same_lease l w → refines (expireTx l t) w.
Proof. intros Hk HI Hl. by apply finishLease_refines. Qed.

(** ** Reservation *)

Lemma usedBy_shared ls u v l : usedBy ls u = Some v → l ∈ ls → l_Exclusive l = false.
Proof.
  revert u. induction ls as [|l' ls IH]; intros u; simpl; [set_solver|].
  destruct (l_Exclusive l') eqn:E; [done|]. intros H [->|Hin]%elem_of_cons; eauto.
Qed.

Lemma SumActive_ok r w v w' : Leases_SumActive r w = (Ok v, w') → w' = w.
Proof.
  unfold Leases_SumActive. intros H. run H with @gets_ok as [-> ->].
  by apply liftR_ok in H as [_ ->].
Qed.

Lemma reserveTx_refines acq l r want ex t w :
  keyedW w → Inv (fleet w) → refines (reserveTx acq l r want ex t) w.
Proof.
  intros Hk HI u w' H. unfold reserveTx in H.
  run H with Get_res_ok as [Hr ->]. guard H as Hg.
  run H with @liftR_ok as [_ ->]. run H with @gets_ok as [-> ->]. guard H as Hex.
  destruct (usedBy _ _) as [used|] eqn:Hu; [|done]. guard H as _. cbv zeta in H.
  run H with Insert_lease_ok as [Hl Hw1]; [|done]. simpl in Hl, Hw1.
  run H with SumActive_ok as ->. guard H as _.
  apply orb_false_iff in Hg as [Hg _]. apply orb_false_iff in Hg as [Hlive Hph].
  apply negb_false_iff in Hlive.
  pose proof (abs_res_lookup _ _ _ Hr) as Hr'. unfold abs_res in Hr'. rewrite Hlive in Hr'.
  apply bindM_Ok in H as ([] & w2 & Hc & H).
  assert (r_Phase a = Ready ∨ r_Phase a = Allocated) as Hp.
  { apply andb_false_iff in Hph as [Hp|Hp]; apply negb_false_iff, bool_decide_eq_true in Hp; auto. }
  assert (fleet w2 = set_res r (MkARes Allocated true (is_some (r_ExternalID a)))
            (set_lease l (MkALease (a_ID acq) r ex) (fleet w))) as Hw2.
  { case_decide as Hd.
    - apply CASPhase_ok in Hc as (e & He & ->). rewrite Hw1 in He |- *. simpl in He.
      change (abs_res <$> _) with (fl_res (fleet w)) in He. rewrite Hr' in He. by simplify_eq.
    - apply ret_ok in Hc as [_ ->]. rewrite Hw1. symmetry. apply set_res_id. simpl.
      change (abs_res <$> _) with (fl_res (fleet w)). rewrite Hr'. by destruct Hp as [?| ->]. }
  run H with Bind_ok as [Ha Hw3]. apply Events_ok in H. rewrite H, Hw3. rewrite Hw2 in Ha |- *.
  apply (R_bind _ _ _ _ (r_Phase a)); try done.
  - intros ->. simpl in Hex. apply negb_false_iff, bool_decide_eq_true in Hex.
    intros k x Hx Hxr. apply abs_lease_inv in Hx as (l0 & Hl0 & Ha0 & ->). simpl in Hxr.
    assert (l0 ∈ select (active_on r) (db_Leases (w_DB w))) as Hin
      by (apply active_on_spec; eauto).
    rewrite Hex in Hin. by apply elem_of_nil in Hin.
  - intros k x Hx Hxr. apply abs_lease_inv in Hx as (l0 & Hl0 & Ha0 & ->). simpl in *.
    apply (usedBy_shared _ _ _ _ Hu). apply active_on_spec. eauto.
Qed.

(** ** Journaling *)

Lemma journaled_abs id k r pool prov ac t :
  abs_op (journaledOp id k (Some r) pool prov ac t) = MkAOp k (Some r) OpJournaled 0 true.
Proof. done. Qed.

Lemma Journal_refines p actor key w : prepared p → refines (Journal p actor key) w.
Proof.
  intros Hp u w' H. unfold Journal in H. cbv zeta in H.
  run H with Create_ok as [Hr Hw1].
  run H with Append_ok as (Hst & Ho & _ & Hw2); [|unfold open; by rewrite (prepared_open _ Hp)].
  apply Events_ok in H. rewrite H, Hw2. rewrite Hw1 in Ho |- *.
  assert (abs_op (Prepared_Op p)
          = MkAOp OpKindCreate (Some (r_ID (Prepared_Resource p))) OpJournaled 0 true) as ->.
  { unfold abs_op, open. rewrite Hst. by destruct Hp as [?? ? -> -> -> ->]. }
  assert (abs_res (Prepared_Resource p) = MkARes Provisioning true false) as ->.
  { unfold abs_res, live. by destruct Hp as [-> -> -> ????]. }
  by apply R_create.
Qed.

(** The three places that journal an operation on an existing resource: a
    CAS of the phase, then the append. *)
Lemma journal_step k r o p q w w1 w2 e :
  fl_res (fleet w) !! r = Some (MkARes p true e) → e = true → journals k p q →
  (k = OpKindStart ∨ no_lease (fleet w) r) →
  fleet w1 = set_res r (MkARes q true e) (fleet w) →
  fl_ops (fleet w1) !! o_ID o = None → no_open_op (fleet w1) r →
  abs_op o = MkAOp k (Some r) OpJournaled 0 true →
  fleet w2 = set_op (o_ID o) (abs_op o) (fleet w1) →
  astep (fleet w) (fleet w2).
Proof.
  intros Hr -> Hj Hl Hw1 Ho Hno Hab ->. rewrite Hw1 in Ho, Hno |- *. rewrite Hab.
  by eapply R_journal.
Qed.

Section bodies.
Context `{ULID} {P : Type} `{Providers P}.

Lemma journalPhaseOp_refines cur t actor p q k ak w :
  db_Resources (w_DB w) !! r_ID cur = Some cur → journals k p q →
  (k = OpKindStart ∨ no_lease (fleet w) (r_ID cur)) →
  refines (journalPhaseOp cur t actor p q k ak) w.
Proof.
  intros Hcur Hj Hl a w' H1. unfold journalPhaseOp in H1.
  destruct (r_ExternalID cur) as [ext|] eqn:Eext; [|done].
  run H1 with CASPhase_ok as (e & He & Hw1).
  run H1 with @newID_ok as [_ HwDB]. cbv zeta in H1. rewrite <-HwDB in Hw1.
  run H1 with Append_ok as (_ & Ho & Hno & Hw2); [|done].
  run H1 with Events_ok as Hev. apply ret_ok in H1 as [_ ->]. rewrite Hev.
  eapply journal_step; try done; [|by apply Hno].
  rewrite (abs_res_lookup _ _ _ Hcur) in He. injection He. unfold abs_res. by rewrite Eext.
Qed.

Lemma CountActive_gate r w n w' :
  Leases_CountActive r w = (Ok n, w') → w' = w.
Proof. by intros [_ ->]%gets_ok. Qed.

Lemma JournalStop_refines r t actor b w :
  keyedW w → refines (JournalStop r t actor b) w.
Proof.
  intros Hk a w' H1. unfold JournalStop in H1.
  run H1 with Get_res_ok as [Hr ->]. guard H1 as _. guard H1 as _. guard H1 as _.
  apply bindM_Ok in H1 as (n & w1 & Hn & H1). pose proof (CountActive_gate _ _ _ _ Hn) as ->.
  guard H1 as Hz. apply CountActive_ok in Hn as [_ Hno]; [|done].
  pose proof (keyed_res _ Hk _ _ Hr) as <-.
  by eapply journalPhaseOp_refines in H1; eauto.
Qed.

Lemma JournalStart_refines r t actor w : keyedW w → refines (JournalStart r t actor) w.
Proof.
  intros Hk a w' H1. unfold JournalStart in H1.
  run H1 with Get_res_ok as [Hr ->]. guard H1 as _. guard H1 as _.
  pose proof (keyed_res _ Hk _ _ Hr) as <-.
  by eapply journalPhaseOp_refines in H1; eauto.
Qed.

Lemma journalDeleteInTx_refines cur t actor w :
  db_Resources (w_DB w) !! r_ID cur = Some cur → phase_step (r_Phase cur) Deleting →
  refines (journalDeleteInTx cur t actor) w.
Proof.
  intros Hcur Hp a w' H1. unfold journalDeleteInTx in H1. guard H1 as _.
  apply bindM_Ok in H1 as (n & w1 & Hn & H1). pose proof (CountActive_gate _ _ _ _ Hn) as ->.
  guard H1 as Hz. apply CountActive_ok in Hn as [_ Hno]; [|done].
  destruct (r_ExternalID cur) as [ext|] eqn:Eext.
  - run H1 with CASPhase_ok as (e & He & Hw1).
    run H1 with @newID_ok as [_ HwDB]. cbv zeta in H1. rewrite <-HwDB in Hw1.
    run H1 with Append_ok as (_ & Ho & Hno' & Hw2); [|done].
    apply Events_ok in H1. rewrite H1.
    eapply (journal_step OpKindDelete); try done; [|by auto|by apply Hno'].
    rewrite (abs_res_lookup _ _ _ Hcur) in He. injection He. unfold abs_res. by rewrite Eext.
  - apply MarkDeleted_ok in H1 as (p & e & He & ->). eapply R_tombstone; [done..|left].
    rewrite (abs_res_lookup _ _ _ Hcur) in He. injection He. unfold abs_res. by rewrite Eext.
Qed.

Lemma journalDeleteTx_refines r t w : keyedW w → refines (journalDeleteTx r t) w.
Proof.
  intros Hk a w' H1. unfold journalDeleteTx in H1.
  run H1 with Get_res_ok as [Hr ->]. guard H1 as Hg.
  pose proof (keyed_res _ Hk _ _ Hr) as <-.
  eapply journalDeleteInTx_refines in H1; eauto.
  apply orb_false_iff in Hg as [_ Hg]. apply andb_false_iff in Hg.
  destruct Hg as [Hg|Hg]; apply negb_false_iff, bool_decide_eq_true in Hg; by rewrite Hg.
Qed.

Lemma costReclaimTx_refines r t from w :
  keyedW w → phase_step from Deleting → refines (costReclaimTx r t from) w.
Proof.
  intros Hk Hp a w' H1. unfold costReclaimTx in H1.
  run H1 with Get_res_ok as [Hr ->]. guard H1 as Hg.
  run H1 with @gets_ok as [_ ->]. cbv zeta in H1.
  apply bindM_Ok in H1 as (u & w1 & Hq & H1).
  assert (w1 = w) as ->.
  { case_decide; [|by apply ret_ok in Hq as [_ ->]].
    run Hq with @gets_ok as [_ ->]. by apply refuse_ok in Hq as [_ ->]. }
  pose proof (keyed_res _ Hk _ _ Hr) as <-.
  eapply journalDeleteInTx_refines in H1; eauto.
  apply orb_false_iff in Hg as [_ Hg]. apply negb_false_iff, bool_decide_eq_true in Hg.
  by rewrite Hg.
Qed.
End bodies.

(** ** The engine's transactions *)

(** A transition whose operation is open, as the protocol sees it. *)
Lemma open_of_state w id o : Inv (fleet w) → db_Operations (w_DB w) !! id = Some o →
  open o = negb (Terminal (o_State o)).
Proof. intros HI Ho. by apply (inv_op_open _ HI _ _ (abs_op_lookup _ _ _ Ho)). Qed.

Lemma schedules_id : schedules id.
Proof. done. Qed.

Lemma transition_refines id from to mut w :
  Inv (fleet w) → schedules mut → op_move from to = true → to ≠ OpInFlight →
  (to = OpUncertain → ∀ o, db_Operations (w_DB w) !! id = Some o → o_Kind o = OpKindCreate) →
  refines (Operations_Transition id from to mut) w.
Proof.
  intros HI Hm Hmv Hto Hu a w' H. apply Transition_op_ok in H as (o & Ho & Hst & ->).
  assert (open o = true) as Hop.
  { rewrite (open_of_state _ _ _ HI Ho), Hst. by destruct from. }
  rewrite (transition_abs _ _ _ _ Hm Hop).
  replace (negb (Terminal to)) with true by (by destruct from, to).
  apply (R_move _ _ (abs_op o)); simpl; [by apply abs_op_lookup|done|by rewrite Hst| |done].
  intros ->. by apply Hu.
Qed.

Lemma dispatchTx_refines id dl w :
  Inv (fleet w) →
  (∀ o, db_Operations (w_DB w) !! id = Some o → isParkOp (o_Kind o) = true → o_Attempt o < 8) →
  refines (dispatchTx id dl) w.
Proof.
  intros HI Hn a w' H. apply Transition_op_ok in H as (o & Ho & Hst & ->).
  assert (open o = true) as Hop by (by rewrite (open_of_state _ _ _ HI Ho), Hst).
  apply is_none_true in Hop as Ht.
  assert (abs_op (persist (with_o_NextAttemptAt None (with_o_VerifyDeadlineAt (Some dl)
            (with_o_Attempt (o_Attempt (transitioned (w_Clock w) OpInFlight o) + 1)
               (transitioned (w_Clock w) OpInFlight o)))) o)
          = MkAOp (o_Kind o) (o_ResourceID o) OpInFlight (o_Attempt o + 1) true) as ->.
  { unfold abs_op, persist, transitioned, open; simpl. by rewrite Ht. }
  apply (R_dispatch _ _ (abs_op o)); simpl; [by apply abs_op_lookup|done|done|].
  intros Hk. apply (Hn _ Ho). done.
Qed.

(** The resource of an operation known to a handler. *)
Lemma same_op_abs op w : Inv (fleet w) → same_op op w →
  ∃ cur r y, db_Operations (w_DB w) !! o_ID op = Some cur ∧ o_Kind cur = o_Kind op ∧
    o_ResourceID op = Some r ∧ o_ResourceID cur = Some r ∧ fl_res (fleet w) !! r = Some y.
Proof.
  intros HI (cur & Hcur & Hk & Hr).
  destruct (inv_op_res _ HI _ _ (abs_op_lookup _ _ _ Hcur)) as (r & y & Hr' & Hy). simpl in Hr'.
  exists cur, r, y. split_and!; try done. congruence.
Qed.

(** Adoption of the accept-time or the discovered reference of a create. *)
Lemma accept_refines op from mut ext ref w :
  Inv (fleet w) → same_op op w → schedules mut → o_Kind op = OpKindCreate →
  op_move from OpExternalAccepted = true →
  refines (Operations_Transition (o_ID op) from OpExternalAccepted mut ;;;
           match o_ResourceID op with
           | Some res => Resources_SetExternalRef res ext ref | None => retM tt end) w.
Proof.
  intros HI Hs Hm Hk Hmv a w' H.
  destruct (same_op_abs _ _ HI Hs) as (cur & r & y & Hcur & Hck & Hr & Hcr & Hy).
  run H with Transition_op_ok as (o & Ho & Hst & Hw1). assert (o = cur) as -> by congruence.
  assert (open cur = true) as Hop.
  { rewrite (open_of_state _ _ _ HI Ho), Hst. by destruct from. }
  rewrite (transition_abs _ _ _ _ Hm Hop) in Hw1. rewrite Hr in H.
  apply SetExternalRef_ok in H as (y' & Hy' & ->). rewrite Hw1 in Hy' |- *. simpl in Hy'.
  change (abs_res <$> _) with (fl_res (fleet w)) in Hy'. rewrite Hy in Hy'. injection Hy' as <-.
  apply (R_accept _ _ (abs_op cur) _ y); simpl; try done; [by apply abs_op_lookup|congruence|by rewrite Hst].
Qed.

Lemma acceptTx_refines op ref w :
  Inv (fleet w) → same_op op w → refines (acceptTx op ref) w.
Proof.
  intros HI Hs a w' H. unfold acceptTx in H. cbv zeta in H.
  assert (refines (Operations_Transition (o_ID op) OpInFlight OpExternalAccepted (λ o,
    with_o_NextAttemptAt None (with_o_ExternalRef
      match or_Ref ref with Some r => JVal r | None => JNone end
      (with_o_ExternalOp (JVal ref) o)))) w) as Hplain by (by apply transition_refines).
  destruct (o_Kind op) eqn:Ek; [destruct (or_Ref ref) as [er|] eqn:Er|..].
  - destruct (same_op_abs _ _ HI Hs) as (cur & r & y & Hcur & Hck & Hr & Hcr & Hy).
    rewrite Hr in H.
    refine (accept_refines op OpInFlight _ (ref_ID er) (JVal er) w HI Hs _ Ek eq_refl a w' _);
      [|rewrite Hr; exact H]. done.
  - run H with Hplain as Hp. destruct (o_ResourceID op); by apply ret_ok in H as [_ ->].
  - run H with Hplain as Hp. by apply ret_ok in H as [_ ->].
  - run H with Hplain as Hp. by apply ret_ok in H as [_ ->].
  - run H with Hplain as Hp. by apply ret_ok in H as [_ ->].
Qed.

Lemma adoptTx_refines op obs w :
  Inv (fleet w) → same_op op w → o_Kind op = OpKindCreate → refines (adoptTx op obs) w.
Proof. intros HI Hs Hk. by apply accept_refines. Qed.

(** Success: the operation closes, the resource moves. *)
Lemma done_step op from mut w w1 w' r y y' :
  Inv (fleet w) → same_op op w → o_ResourceID op = Some r →
  op_succeeds from = true → schedules mut →
  Operations_Transition (o_ID op) from OpSucceeded mut w = (Ok tt, w1) →
  fl_res (fleet w) !! r = Some y → done_res (o_Kind op) y y' →
  fleet w' = set_res r y' (fleet w1) →
  astep (fleet w) (fleet w').
Proof.
  intros HI (cur & Hcur & Hck & Hcr) Hr Hs Hm Ht Hy Hd ->.
  apply Transition_op_ok in Ht as (o & Ho & Hst & Hw1). assert (o = cur) as -> by congruence.
  assert (open cur = true) as Hop.
  { rewrite (open_of_state _ _ _ HI Ho), Hst. by destruct from. }
  rewrite (transition_abs _ _ _ _ Hm Hop) in Hw1. rewrite Hw1.
  apply (R_done _ _ (abs_op cur) _ y); simpl; try done;
    [by apply abs_op_lookup|by rewrite Hst|congruence|by rewrite Hck].
Qed.

(** After the transition the resources are still what they were. *)
Lemma Transition_op_res id from to mut w u w1 :
  Operations_Transition id from to mut w = (Ok u, w1) →
  fl_res (fleet w1) = fl_res (fleet w).
Proof. intros (o & _ & _ & ->)%Transition_op_ok. done. Qed.

Lemma succeedRunningTx_refines op status from t w :
  Inv (fleet w) → same_op op w → op_succeeds (o_State op) = true →
  (o_Kind op = OpKindCreate ∧ from = Provisioning ∨ o_Kind op = OpKindStart ∧ from = Starting) →
  refines (succeedRunningTx op status from t) w.
Proof.
  intros HI Hs Hsu Hk a w' H. unfold succeedRunningTx in H.
  destruct (same_op_abs _ _ HI Hs) as (_ & r & y & _ & _ & Hr & _ & Hy).
  apply bindM_Ok in H as ([] & w1 & Ht & H). rewrite Hr in H.
  pose proof (Transition_op_res _ _ _ _ _ _ _ Ht) as Hres.
  apply bindM_Ok in H as (u & w2 & Hb & Hev). apply Events_ok in Hev.
  apply bindM_Ok in Hb as (u' & w3 & Hf & Hc).
  assert (fleet w3 = fleet w1) as Hw3.
  { destruct (os_Resource status) as [ob|]; [|by apply ret_ok in Hf as [_ ->]].
    apply bindM_Ok in Hf as (u2 & w4 & Hig & Hf). unfold ignoreM in Hig. simplify_eq.
    apply SetProviderFacts_ok in Hf. rewrite Hf. apply PutObserved_abs. }
  apply CASPhase_ok in Hc as (e & He & Hw2). rewrite Hw3 in He, Hw2. rewrite Hres, Hy in He.
  injection He as ->.
  eapply (done_step op _ id _ _ _ _ _ (MkARes Ready true e)); try done; [|by rewrite Hev].
  by destruct Hk as [[-> ->]|[-> ->]].
Qed.

Lemma succeedStopTx_refines op status t w :
  Inv (fleet w) → same_op op w → op_succeeds (o_State op) = true → o_Kind op = OpKindStop →
  refines (succeedStopTx op status t) w.
Proof.
  intros HI Hs Hsu Hk a w' H. unfold succeedStopTx in H.
  destruct (same_op_abs _ _ HI Hs) as (_ & r & y & _ & _ & Hr & _ & Hy).
  apply bindM_Ok in H as ([] & w1 & Ht & H). rewrite Hr in H.
  pose proof (Transition_op_res _ _ _ _ _ _ _ Ht) as Hres.
  apply bindM_Ok in H as (u & w2 & Hb & Hev). apply Events_ok in Hev.
  apply bindM_Ok in Hb as (u' & w3 & Hf & Hc).
  assert (fleet w3 = fleet w1) as Hw3.
  { destruct (os_Resource status) as [ob|]; [|by apply ret_ok in Hf as [_ ->]].
    unfold ignoreM in Hf. simplify_eq. apply PutObserved_abs. }
  apply CASPhase_ok in Hc as (e & He & Hw2). rewrite Hw3 in He, Hw2. rewrite Hres, Hy in He.
  injection He as ->.
  eapply (done_step op _ id _ _ _ _ _ (MkARes Parked true e)); try done; [|by rewrite Hev].
  by rewrite Hk.
Qed.

Lemma succeedDeleteTx_refines op from t w :
  Inv (fleet w) → same_op op w → op_succeeds from = true → o_Kind op = OpKindDelete →
  refines (succeedDeleteTx op from t) w.
Proof.
  intros HI Hs Hsu Hk a w' H. unfold succeedDeleteTx in H.
  destruct (same_op_abs _ _ HI Hs) as (_ & r & y & _ & _ & Hr & _ & Hy).
  apply bindM_Ok in H as ([] & w1 & Ht & H). rewrite Hr in H.
  pose proof (Transition_op_res _ _ _ _ _ _ _ Ht) as Hres.
  apply bindM_Ok in H as (u & w2 & Hb & Hev). apply Events_ok in Hev.
  apply MarkDeleted_ok in Hb as (p & e & He & Hw2). rewrite Hres, Hy in He. injection He as ->.
  eapply (done_step op _ id _ _ _ _ _ (MkARes p false e)); try done; [|by rewrite Hev].
  by rewrite Hk.
Qed.

(** An update of a row that may fail, with its effect on the resource. *)
Lemma ignored_cas r p q t w y :
  fl_res (fleet w) !! r = Some y →
  fleet (Resources_CASPhase r p q t w).2 = set_res r (fail_res q p y) (fleet w).
Proof.
  intros Hy. destruct (Resources_CASPhase r p q t w) as [[u|e] w'] eqn:E; simpl.
  - apply CASPhase_ok in E as (e & He & ->). rewrite Hy in He. injection He as ->.
    unfold fail_res. by rewrite decide_True.
  - pose proof (row_update_err _ _ _ _ _ _ _ _ _ E) as ->. unfold fail_res.
    rewrite decide_False; [by rewrite set_res_id|]. intros [Hp Hl].
    simpl in Hy. rewrite lookup_fmap in Hy. apply fmap_Some in Hy as (x & Hx & ->). simpl in *.
    unfold Resources_CASPhase, row_update in E. rewrite Hx, Hl, bool_decide_eq_true_2 in E by done.
    done.
Qed.

Lemma fail_refines op from mut ev p q t w :
  Inv (fleet w) → same_op op w → op_fails from = true → fail_move (o_Kind op) p q = true →
  schedules mut →
  refines (Operations_Transition (o_ID op) from OpFailed mut ;;;
           match o_ResourceID op with
           | Some res => ignoreM (Resources_CASPhase res p q t) | None => retM tt end ;;;
           Events_Append ev) w.
Proof.
  intros HI Hs Hf Hmv Hm a w' H.
  destruct (same_op_abs _ _ HI Hs) as (cur & r & y & Hcur & Hck & Hr & Hcr & Hy).
  run H with Transition_op_ok as (o & Ho & Hst & Hw1). assert (o = cur) as -> by congruence.
  assert (open cur = true) as Hop.
  { rewrite (open_of_state _ _ _ HI Ho), Hst. by destruct from. }
  rewrite (transition_abs _ _ _ _ Hm Hop) in Hw1. rewrite Hr in H.
  apply bindM_Ok in H as (u & w2 & Hb & Hev). apply Events_ok in Hev. rewrite Hev.
  unfold ignoreM in Hb. injection Hb as <- <-.
  rewrite (ignored_cas _ _ _ _ _ y) by (by rewrite Hw1). rewrite Hw1.
  apply (R_fail _ _ (abs_op cur)); simpl;
    first [done|by apply abs_op_lookup|by rewrite Hst|by rewrite Hck|congruence].
Qed.

Lemma failOpTx_refines op from cause p q t w :
  Inv (fleet w) → same_op op w → op_fails from = true → fail_move (o_Kind op) p q = true →
  refines (failOpTx op from cause p q t) w.
Proof. intros. by apply fail_refines. Qed.

Lemma markFailedTx_refines id actor t w :
  keyedW w → Inv (fleet w) → refines (markFailedTx id actor t) w.
Proof.
  intros Hk HI a w' H. unfold markFailedTx in H. run H with Get_op_ok as [Ho ->].
  pose proof (keyed_op _ Hk _ _ Ho) as <-.
  assert (o_State a0 = OpUncertain → o_Kind a0 = OpKindCreate) as Hu.
  { intros Hu. by apply (inv_uncertain _ HI _ _ (abs_op_lookup _ _ _ Ho)). }
  assert (o_State a0 = OpUncertain) as Hst.
  { apply bindM_Ok in H as (u & w1 & Ht & _). apply Transition_op_ok in Ht as (o & Ho' & Hst & _).
    congruence. }
  rewrite (Hu Hst), decide_False in H by done.
  refine (fail_refines a0 _ _ _ _ _ _ _ HI _ _ _ _ _ _ H); try done; [|by rewrite (Hu Hst)].
  by exists a0.
Qed.

(** ** Statements around a step *)

(** The fleet is not touched. *)
Definition aside {A} (m : M World A) : Prop := ∀ w, fleet (m w).2 = fleet w.

Lemma aside_ok {A} (m : M World A) w a w' : aside m → m w = (Ok a, w') → fleet w' = fleet w.
Proof. intros Hm H. specialize (Hm w). by rewrite H in Hm. Qed.
Lemma aside_bind {A B} (m : M World A) (k : A → M World B) :
  aside m → (∀ a, aside (k a)) → aside (bindM m k).
Proof.
  intros Hm Hk w. specialize (Hm w). unfold bindM.
  destruct (m w) as [[a|e] w']; simpl in *; [|done]. by rewrite Hk.
Qed.
Lemma aside_pure {A} (m : M World A) : pure m → aside m.
Proof. intros Hm w. by rewrite Hm. Qed.
Lemma aside_try {A} (m : M World A) : aside m → aside (tryM m).
Proof. intros Hm w. specialize (Hm w). unfold tryM. by destruct (m w). Qed.
Lemma aside_forM {X} (l : list X) (f : X → M World unit) :
  (∀ x, aside (f x)) → aside (forM_ l f).
Proof. intros Hf. induction l; simpl; [done|]. by apply aside_bind. Qed.

Lemma aside_refines {A} (m : M World A) w : aside m → refines m w.
Proof. intros Hm a w' H. rewrite (aside_ok _ _ _ _ Hm H). apply R_skip. Qed.

Lemma aside_Begin scope key hash op : aside (Idempotency_Begin scope key hash op).
Proof.
  intros w. unfold Idempotency_Begin, nowM, getsM, bindM, Idempotency_get. simpl.
  destruct (db_Idempotency (w_DB w) !! _); simpl; by repeat case_match; simplify_eq/=.
Qed.
Lemma aside_finish scope key st n res exp : aside (Idempotency_finish scope key st n res exp).
Proof. intros w. unfold Idempotency_finish. destruct (_ !! _); [|done]. by case_decide. Qed.
Lemma aside_beginKeyed i op : aside (beginKeyed i op).
Proof.
  unfold beginKeyed. case_match; [|by intros w].
  apply aside_bind; [apply aside_Begin|]. by intros [[] rec] w.
Qed.
Lemma aside_completeKeyed i t resp : aside (completeKeyed i t resp).
Proof.
  unfold completeKeyed. apply aside_bind; [|done]. case_match; [|done]. apply aside_finish.
Qed.

(** Statements that leave the four tables of the protocol alone. *)
Definition quiet {A} (m : M World A) : Prop := ∀ w,
  db_Resources (w_DB (m w).2) = db_Resources (w_DB w) ∧
  db_Leases (w_DB (m w).2) = db_Leases (w_DB w) ∧
  db_Acquisitions (w_DB (m w).2) = db_Acquisitions (w_DB w) ∧
  db_Operations (w_DB (m w).2) = db_Operations (w_DB w).

Lemma quiet_keeps {A} (m : M World A) : quiet m → keeps keyedW m.
Proof.
  intros Hm w [H1 H2 H3 H4]. destruct (Hm w) as (E1 & E2 & E3 & E4).
  split; [rewrite E1|rewrite E2|rewrite E3|rewrite E4]; done.
Qed.
Lemma quiet_aside {A} (m : M World A) : quiet m → aside m.
Proof. intros Hm w. destruct (Hm w) as (E1 & E2 & E3 & E4). unfold abs. by rewrite E1, E2, E3, E4. Qed.
Lemma quiet_pure {A} (m : M World A) : pure m → quiet m.
Proof. intros Hm w. by rewrite Hm. Qed.
Lemma quiet_bind {A B} (m : M World A) (k : A → M World B) :
  quiet m → (∀ a, quiet (k a)) → quiet (bindM m k).
Proof.
  intros Hm Hk w. specialize (Hm w). unfold bindM.
  destruct (m w) as [[a|e] w']; simpl in *; [|done]. destruct (Hk a w') as (E1 & E2 & E3 & E4).
  rewrite E1, E2, E3, E4. done.
Qed.
Lemma quiet_try {A} (m : M World A) : quiet m → quiet (tryM m).
Proof. intros Hm w. specialize (Hm w). unfold tryM. by destruct (m w). Qed.
Lemma quiet_Tx {A} (m : M World A) : quiet m → quiet (Tx m).
Proof. intros Hm w. specialize (Hm w). unfold Tx. by destruct (m w) as [[]]. Qed.
Lemma quiet_forM {X} (l : list X) (f : X → M World unit) : (∀ x, quiet (f x)) → quiet (forM_ l f).
Proof. intros Hf. induction l; simpl; [done|]. by apply quiet_bind. Qed.

Lemma keeps_Begin scope key hash op : keeps keyedW (Idempotency_Begin scope key hash op).
Proof.
  intros w [H1 H2 H3 H4]. unfold Idempotency_Begin, nowM, getsM, bindM, Idempotency_get. simpl.
  destruct (db_Idempotency (w_DB w) !! _); simpl; by repeat case_match; simplify_eq/=.
Qed.
Lemma keeps_finish scope key st n res exp : keeps keyedW (Idempotency_finish scope key st n res exp).
Proof. intros w [????]. unfold Idempotency_finish. destruct (_ !! _); [|done]. by case_decide. Qed.
#[export] Hint Resolve keeps_Begin keeps_finish : fp.

Lemma keyedTx_refines i op t effect w :
  (∀ w', fleet w' = fleet w → keyedW w' → refines effect w') → keyedW w →
  refines (keyedTx i op t effect) w.
Proof.
  intros He Hk a w' H. unfold keyedTx in H.
  apply bindM_Ok in H as (b & w1 & Hb & H).
  assert (keyedW w1) as Hk1.
  { assert (keeps keyedW (beginKeyed i op)) as Hkeep.
    { unfold beginKeyed, Idempotency_Complete. keeps_tac. }
    specialize (Hkeep w Hk). by rewrite Hb in Hkeep. }
  apply aside_ok in Hb; [|apply aside_beginKeyed].
  destruct b as [out|]; [apply ret_ok in H as [_ ->]; rewrite Hb; apply R_skip|].
  apply bindM_Ok in H as (resp & w2 & Hr & H). apply aside_ok in H; [|apply aside_completeKeyed].
  rewrite H, <-Hb. by apply (He _ Hb Hk1 _ _ Hr).
Qed.

Lemma keeps_keyedTx i op t effect : keeps keyedW effect → keeps keyedW (keyedTx i op t effect).
Proof.
  intros He. unfold keyedTx, beginKeyed, completeKeyed, Idempotency_Complete. by keeps_tac.
Qed.

(** ** The scheduler's and the application's transactions *)

Lemma acq_transition_refines id from to t w :
  waiting from = true → to ≠ AcqBound →
  refines (Acquisitions_Transition id from to t) w.
Proof.
  intros Hf Ht a w' H. apply Transition_acq_ok in H as (Ho & Hw & Hov); [|done].
  destruct to; try done.
  - rewrite Hw by done. apply R_skip.
  - rewrite Hw by done. apply R_skip.
  - rewrite Hov by done. by apply R_close.
  - rewrite Hov by done. by apply R_close.
  - rewrite Hov by done. by apply R_close.
Qed.

Lemma closeAcqTx_refines acq from to ev t w :
  waiting from = true → to ≠ AcqBound → refines (closeAcqTx acq from to ev t) w.
Proof.
  intros Hf Ht a w' H. unfold closeAcqTx in H.
  run H with (acq_transition_refines (a_ID acq) from to t w Hf Ht) as Hs.
  apply Events_ok in H. by rewrite H.
Qed.

Lemma rePendTx_refines acq t w : refines (rePendTx acq t) w.
Proof.
  intros a w' H. unfold rePendTx in H. run H with Transition_acq_ok as (Ho & Hw & _); [|done].
  pose proof (ClearPending_abs (a_ID acq) w0) as Hc. rewrite H in Hc. simpl in Hc.
  rewrite Hc, Hw by done. apply R_skip.
Qed.

Lemma prebindTx_refines acq p t w : prepared p → refines (prebindTx acq p t) w.
Proof.
  intros Hp a w' H. unfold prebindTx in H.
  run H with Transition_acq_ok as (_ & Hw & _); [|done]. specialize (Hw eq_refl).
  run H with (Journal_refines p (a_Actor acq) "" _ Hp) as Hs. rewrite Hw in Hs.
  apply SetPending_ok in H. by rewrite H.
Qed.

Lemma keyed_after {A} (m : M World A) w r w' :
  keeps keyedW m → keyedW w → m w = (r, w') → keyedW w'.
Proof. intros Hm Hk H. specialize (Hm w Hk). by rewrite H in Hm. Qed.

Section more_bodies.
Context `{ULID} {P : Type} `{Providers P}.

Lemma stopTx_refines r t actor b w : keyedW w → refines (stopTx r t actor b) w.
Proof.
  intros Hk a w' H1. unfold stopTx in H1.
  run H1 with (JournalStop_refines r t actor b w Hk) as Hs. by apply ret_ok in H1 as [_ ->].
Qed.
Lemma startTx_refines r t actor w : keyedW w → refines (startTx r t actor) w.
Proof.
  intros Hk a w' H1. unfold startTx in H1.
  run H1 with (JournalStart_refines r t actor w Hk) as Hs. by apply ret_ok in H1 as [_ ->].
Qed.

Lemma startParkedTx_refines acq r t w : keyedW w → refines (startParkedTx acq r t) w.
Proof.
  intros Hk a w' H1. unfold startParkedTx in H1.
  apply bindM_Ok in H1 as (u & w1 & Ht & H1).
  pose proof (keyed_after _ _ _ _ (keeps_Transition_acq _ _ _ _) Hk Ht) as Hk1.
  apply Transition_acq_ok in Ht as (_ & Hw & _); [|done]. specialize (Hw eq_refl).
  apply bindM_Ok in H1 as (u2 & w2 & Hst & H1).
  run Hst with (JournalStart_refines r t (a_Actor acq) w1 Hk1) as Hs.
  apply ret_ok in Hst as [_ ->]. apply SetPending_ok in H1. rewrite H1. by rewrite Hw in Hs.
Qed.

Lemma refreshTx_refines res obs t w : refines (refreshTx res obs t) w.
Proof.
  intros a w' H1. unfold refreshTx in H1.
  apply bindM_Ok in H1 as (u & w1 & Hp & H1).
  pose proof (PutObserved_abs (MkSnapshot (r_ID res) t (ob_Phase obs) (Some obs)) w) as Hw1.
  rewrite Hp in Hw1. simpl in Hw1. run H1 with SetProviderFacts_ok as Hw2.
  rewrite Hw1 in Hw2. case_decide.
  - apply CASPhase_ok in H1 as (e & He & ->). rewrite Hw2 in He |- *. by eapply R_phase.
  - case_match.
    + apply CASPhase_ok in H1 as (e & He & ->). rewrite Hw2 in He |- *. by eapply R_phase.
    + apply ret_ok in H1 as [_ ->]. rewrite Hw2. apply R_skip.
Qed.
End more_bodies.

Lemma mintTx_refines res ev t w :
  live res = true → r_ExternalID res ≠ None → r_Phase res = Ready ∨ r_Phase res = Parked →
  refines (mintTx res ev t) w.
Proof.
  intros Hl He Hp a w' H. unfold mintTx in H. run H with Create_ok as [Hn Hw].
  apply Events_ok in H. rewrite H, Hw.
  assert (abs_res res = MkARes (r_Phase res) true true) as ->.
  { unfold abs_res. rewrite Hl. by destruct (r_ExternalID res). }
  by apply R_mint.
Qed.

Lemma tombstoneTx_refines res t w :
  (∀ r, db_Resources (w_DB w) !! r_ID res = Some r → r_Phase r = Orphaned) →
  refines (tombstoneTx res t) w.
Proof.
  intros Ho a w' H. unfold tombstoneTx in H.
  apply bindM_Ok in H as (n & w1 & Hn & H). pose proof (CountActive_gate _ _ _ _ Hn) as ->.
  guard H as Hz. apply CountActive_ok in Hn as [_ Hno]; [|done].
  run H with MarkDeleted_ok as (p & e & He & Hw). apply Events_ok in H. rewrite H, Hw.
  eapply R_tombstone; [done..|right]. simpl in He. rewrite lookup_fmap in He.
  apply fmap_Some in He as (r & Hr & Hab). injection Hab as -> _ _. by apply Ho.
Qed.

Lemma cas_refines r p q t w :
  phase_step p q → held p = false → held q = false → q ≠ Allocated →
  refines (Resources_CASPhase r p q t) w.
Proof. intros Hs Hp Hq Ha a w' (e & He & ->)%CASPhase_ok. by eapply R_phase. Qed.

Lemma drainTx_refines id actor t w : refines (drainTx id actor t) w.
Proof.
  intros a w' H. unfold drainTx in H. run H with Get_res_ok as [Hr ->]. guard H as _.
  guard H as Hc. apply negb_false_iff in Hc.
  run H with CASPhase_ok as (e & He & Hw). apply Events_ok in H. rewrite H, Hw.
  eapply R_phase; try done. by destruct (r_Phase a0).
Qed.

Lemma undrainTx_refines id actor t w : refines (undrainTx id actor t) w.
Proof.
  intros a w' H. unfold undrainTx in H. run H with Get_res_ok as [Hr ->].
  guard H as _. guard H as _. guard H as _.
  run H with CASPhase_ok as (e & He & Hw). apply Events_ok in H. rewrite H, Hw.
  by eapply R_phase.
Qed.

Lemma protectTx_refines id b actor t w : refines (protectTx id b actor t) w.
Proof.
  intros a w' H. unfold protectTx in H. run H with Get_res_ok as [Hr ->].
  guard H as _. guard H as _.
  run H with SetDeleteProtected_ok as Hw. apply Events_ok in H. rewrite H, Hw. apply R_skip.
Qed.

Lemma retryVerificationTx_refines id actor t w :
  Inv (fleet w) → refines (retryVerificationTx id actor t) w.
Proof.
  intros HI a w' H. unfold retryVerificationTx in H.
  apply bindM_Ok in H as (u & w1 & Ht & H). apply Events_ok in H. rewrite H.
  by apply transition_refines in Ht.
Qed.

Lemma deleteTx_refines r o actor i t respond w :
  keyedW w → refines (deleteTx r o actor i t respond) w.
Proof.
  intros Hk a w' H. unfold deleteTx in H. run H with Get_res_ok as [Hr ->].
  apply bindM_Ok in H as (u & w1 & Hg & H). unfold deleteGates in Hg.
  guard Hg as _. guard Hg as _. guard Hg as _.
  apply bindM_Ok in Hg as (n & w2 & Hn & Hg). pose proof (CountActive_gate _ _ _ _ Hn) as ->.
  apply refuse_ok in Hg as [Hz ->]. apply CountActive_ok in Hn as [_ Hno]; [|done].
  pose proof (keyed_res _ Hk _ _ Hr) as Hid. rewrite Hid in Hno.
  destruct (r_ExternalID a0) as [ext|] eqn:Eext.
  - guard H as Hc. apply negb_false_iff in Hc.
    run H with CASPhase_ok as (e & He & Hw1). cbv zeta in H.
    run H with Append_ok as (_ & Ho & Hno' & Hw2); [|by unfold stampKey; case_match].
    run H with Events_ok as Hev. apply ret_ok in H as [_ ->]. rewrite Hev.
    eapply (journal_step OpKindDelete); try done.
    + rewrite (abs_res_lookup _ _ _ Hr) in He. injection He. unfold abs_res. by rewrite Eext.
    + by right.
    + apply Hno'. unfold stampKey. by case_match.
    + unfold stampKey. by case_match.
  - run H with MarkDeleted_ok as (p & e & He & Hw). apply ret_ok in H as [_ ->]. rewrite Hw.
    eapply R_tombstone; [done..|left].
    rewrite (abs_res_lookup _ _ _ Hr) in He. injection He. unfold abs_res. by rewrite Eext.
Qed.

Lemma createTx_refines p actor i t respond w :
  prepared p → keyedW w → refines (createTx p actor i t respond) w.
Proof.
  intros Hp Hk. apply keyedTx_refines; [|done]. intros w1 _ _ a w' H.
  run H with (Journal_refines p actor (id_Key i) w1 Hp) as Hs. by apply ret_ok in H as [_ ->].
Qed.

Lemma acquireTx_refines acq i t respond w :
  a_State acq = AcqPending → keyedW w → refines (acquireTx acq i t respond) w.
Proof.
  intros Hst Hk. apply keyedTx_refines; [|done]. intros w1 _ _ a w' H.
  run H with Insert_acq_ok as [Hn Hw]. run H with Events_ok as Hev.
  apply ret_ok in H as [_ ->]. rewrite Hev, Hw. unfold abs_acq. rewrite Hst. by apply R_request.
Qed.

(** Deleting a pool touches pointers only. *)
Lemma Pools_Delete_aside id : aside (Pools_Delete id) ∧ keeps keyedW (Pools_Delete id).
Proof.
  assert (∀ (w : World) (w' : World),
    (db_Resources (w_DB w') = (λ r, if points_at id (r_PoolID r) && negb (live r)
       then with_r_PoolID None r else r) <$> db_Resources (w_DB w)) →
    (db_Operations (w_DB w') = (λ o, if points_at id (o_PoolID o) && negb (open o)
       then with_o_PoolID None o else o) <$> db_Operations (w_DB w)) →
    db_Leases (w_DB w') = db_Leases (w_DB w) →
    db_Acquisitions (w_DB w') = db_Acquisitions (w_DB w) →
    fleet w' = fleet w ∧ (keyedW w → keyedW w')) as Hgen.
  { intros w w' Hr Ho Hl Ha. split.
    - unfold abs. rewrite Hr, Ho, Hl, Ha. f_equal; rewrite <-map_fmap_compose;
        apply map_fmap_ext; intros k x _; simpl; by case_match.
    - intros [H1 H2 H3 H4]. split; rewrite ?Hr, ?Ho, ?Hl, ?Ha; auto.
      + intros k r. rewrite lookup_fmap. intros (x & Hx & ->)%fmap_Some.
        apply H1 in Hx. by case_match.
      + intros k r. rewrite lookup_fmap. intros (x & Hx & ->)%fmap_Some.
        apply H4 in Hx. by case_match. }
  assert (∀ w, fleet (Pools_Delete id w).2 = fleet w ∧ (keyedW w → keyedW (Pools_Delete id w).2))
    as Hall by (intros w; apply Hgen; unfold Pools_Delete; by repeat case_match).
  split; intros w; apply Hall.
Qed.

Lemma deletePoolTx_aside id actor t : aside (deletePoolTx id actor t).
Proof.
  unfold deletePoolTx. apply aside_bind; [apply aside_pure, pure_row_get|]. intros p.
  destruct (parsePoolSpec _); [|done].
  apply aside_bind; [apply aside_pure, pure_refuse|]. intros _.
  apply aside_bind; [done|]. intros ms. apply aside_bind; [apply aside_pure, pure_refuse|]. intros _.
  apply aside_bind; [apply Pools_Delete_aside|]. done.
Qed.
