(* ===== verification/System.v ===== *)
(** * The control plane as a transition system

    [kstep]: one committed transaction of any goroutine, on arguments that
    may be stale. Its reflexive-transitive closure is every interleaving of
    the process with itself, with crashes between any two transactions. *)

From stdpp Require Import base gmap strings list relations.
From S2P Require Import Prelude Errors Json Phase SDK Capacity Types Store Kinds Classes Provision Sys Lease Engine Scheduler Reconcile Discovery App Spec Abs Refine.

(** Operations are dispatched, and creates put back into the journal, by the
    engine's one goroutine only. A history is tagged with the operations it may
    do this to, and with what is known of the creates it journals. *)
Record Grant := MkGrant { may : string → Prop; journals : Prepared → Prop }.
Definition any_op : Grant := MkGrant (λ _, True) (λ _, True).
Definition no_op : Grant := MkGrant (λ _, False) (λ _, True).

Section system.
Context `{ULID} {P : Type} `{Providers P}.
Context (G : Grant).

Inductive kstep (w : World) : World → Prop :=
(* reads, the clock, minted ids, events, checkpoints, pools, classes,
   idempotency records *)
| K_aside {A : Type} (m : M World A) : quiet m → kstep w (m w).2
(* internal/lease *)
| K_release id t : kstep w (Tx (releaseTx id t) w).2
| K_expire l t : same_lease l w → kstep w (Tx (expireTx l t) w).2
(* internal/operations *)
| K_dispatch id dl : may G id →
    (∀ o, db_Operations (w_DB w) !! id = Some o → isParkOp (o_Kind o) = true → o_Attempt o < 8) →
    kstep w (Tx (dispatchTx id dl) w).2
| K_accept op ref : same_op op w → kstep w (Tx (acceptTx op ref) w).2
| K_transition id from to mut :
    schedules mut → op_move from to = true → to ≠ OpInFlight →
    (to = OpUncertain → ∀ o, db_Operations (w_DB w) !! id = Some o → o_Kind o = OpKindCreate) →
    (to = OpJournaled → may G id ∨ ∀ o, db_Operations (w_DB w) !! id = Some o → o_Kind o ≠ OpKindCreate) →
    kstep w (Tx (Operations_Transition id from to mut) w).2
| K_adopt op obs : same_op op w → o_Kind op = OpKindCreate → kstep w (Tx (adoptTx op obs) w).2
| K_succeedRunning op st from t :
    same_op op w → op_succeeds (o_State op) = true →
    (o_Kind op = OpKindCreate ∧ from = Provisioning ∨ o_Kind op = OpKindStart ∧ from = Starting) →
    kstep w (Tx (succeedRunningTx op st from t) w).2
| K_succeedStop op st t :
    same_op op w → op_succeeds (o_State op) = true → o_Kind op = OpKindStop →
    kstep w (Tx (succeedStopTx op st t) w).2
| K_succeedDelete op from t :
    same_op op w → op_succeeds from = true → o_Kind op = OpKindDelete →
    kstep w (Tx (succeedDeleteTx op from t) w).2
| K_failOp op from cause p q t :
    same_op op w → op_fails from = true → fail_move (o_Kind op) p q = true →
    kstep w (Tx (failOpTx op from cause p q t) w).2
(* internal/scheduler *)
| K_reserve acq l r want ex t : kstep w (Tx (reserveTx acq l r want ex t) w).2
| K_prebind acq p t : prepared p → journals G p → kstep w (Tx (prebindTx acq p t) w).2
| K_startParked acq r t : kstep w (Tx (startParkedTx acq r t) w).2
| K_rePend acq t : kstep w (Tx (rePendTx acq t) w).2
| K_acq id from to t : waiting from = true → to ≠ AcqBound →
    kstep w (Tx (Acquisitions_Transition id from to t) w).2
| K_closeAcq acq from to ev t : waiting from = true → to ≠ AcqBound →
    kstep w (Tx (closeAcqTx acq from to ev t) w).2
(* internal/reconcile *)
| K_cas r p q t : phase_step p q →  held p = false → held q = false → q ≠ Allocated →
    kstep w (Tx (Resources_CASPhase r p q t) w).2
| K_stop r t actor b : kstep w (Tx (stopTx r t actor b) w).2
| K_start r t actor : kstep w (Tx (startTx r t actor) w).2
| K_journalDelete r t : kstep w (Tx (journalDeleteTx r t) w).2
| K_costReclaim r t from : phase_step from Deleting → kstep w (Tx (costReclaimTx r t from) w).2
| K_create p actor key : prepared p → journals G p → kstep w (Tx (journalTx p actor key) w).2
| K_refresh res obs t : kstep w (Tx (refreshTx res obs t) w).2
| K_mint res ev t :
    live res = true → r_ExternalID res ≠ None → r_Phase res = Ready ∨ r_Phase res = Parked →
    kstep w (Tx (mintTx res ev t) w).2
| K_tombstone res t :
    (* the sweep is the only writer that takes a record out of orphaned *)
    (∀ r, db_Resources (w_DB w) !! r_ID res = Some r → r_Phase r = Orphaned) →
    kstep w (Tx (tombstoneTx res t) w).2
(* internal/app *)
| K_apiCreate p actor i t respond : prepared p → journals G p → kstep w (Tx (createTx p actor i t respond) w).2
| K_apiDelete r o actor i t respond :
    kstep w (Tx (keyedTx i o t (deleteTx r o actor i t respond)) w).2
| K_acquire acq i t respond : a_State acq = AcqPending →
    kstep w (Tx (acquireTx acq i t respond) w).2
| K_drain id actor t : kstep w (Tx (drainTx id actor t) w).2
| K_undrain id actor t : kstep w (Tx (undrainTx id actor t) w).2
| K_protect id b actor t : kstep w (Tx (protectTx id b actor t) w).2
| K_retryVerification id actor t : kstep w (Tx (retryVerificationTx id actor t) w).2
| K_markFailed id actor t : kstep w (Tx (markFailedTx id actor t) w).2
| K_deletePool id actor t : kstep w (Tx (deletePoolTx id actor t) w).2.

(** What every committed world satisfies. *)
Definition Good (w : World) : Prop := keyedW w ∧ Inv (fleet w).

(** *** Keys are kept by every body *)

Lemma keeps_finishLease l to acqTo ev t : keeps keyedW (finishLease l to acqTo ev t).
Proof. unfold finishLease, endLeaseLocked. keeps_tac. Qed.
Lemma keeps_reserveTx acq l r want ex t : keeps keyedW (reserveTx acq l r want ex t).
Proof. unfold reserveTx. keeps_tac. Qed.
Lemma keeps_journalPhaseOp cur t actor p q k ak :
  keeps keyedW (journalPhaseOp cur t actor p q k ak).
Proof. unfold journalPhaseOp. keeps_tac. Qed.
Lemma keeps_JournalStop r t actor b : keeps keyedW (JournalStop r t actor b).
Proof. unfold JournalStop. keeps_tac. apply keeps_journalPhaseOp. Qed.
Lemma keeps_JournalStart r t actor : keeps keyedW (JournalStart r t actor).
Proof. unfold JournalStart. keeps_tac. apply keeps_journalPhaseOp. Qed.
Lemma keeps_journalDeleteInTx cur t actor : keeps keyedW (journalDeleteInTx cur t actor).
Proof. unfold journalDeleteInTx. keeps_tac. Qed.
Lemma keeps_Journal p actor key : keeps keyedW (Journal p actor key).
Proof. unfold Journal. keeps_tac. Qed.
Lemma keeps_deleteTx r o actor i t respond : keeps keyedW (deleteTx r o actor i t respond).
Proof. unfold deleteTx, deleteGates. keeps_tac. Qed.
Lemma keeps_deletePoolTx id actor t : keeps keyedW (deletePoolTx id actor t).
Proof. unfold deletePoolTx. keeps_tac. apply Pools_Delete_aside. Qed.

Local Hint Resolve keeps_finishLease keeps_reserveTx keeps_JournalStop keeps_JournalStart
  keeps_journalDeleteInTx keeps_Journal keeps_deleteTx keeps_deletePoolTx keeps_keyedTx : fp.

Lemma kstep_keyed w w' : kstep w w' → keyedW w → keyedW w'.
Proof.
  intros Hst Hk. destruct Hst; try (by apply quiet_keeps);
    try (lazymatch goal with |- keyedW (Tx ?m w).2 => apply (keeps_Tx m); [|done] end).
  all: try (by unfold acceptTx, adoptTx, rescheduleTx, succeedRunningTx, succeedStopTx,
    succeedDeleteTx, failOpTx, prebindTx, startParkedTx, rePendTx, closeAcqTx, stopTx, startTx,
    journalTx, mintTx, drainTx, undrainTx, protectTx, retryVerificationTx, markFailedTx,
    dispatchTx, releaseTx, expireTx, createTx, acquireTx,
    refreshTx, tombstoneTx, journalDeleteTx, costReclaimTx; keeps_tac).
  all: try (apply keeps_keyedTx; keeps_tac).
  all: try (by apply keeps_CASPhase).
Qed.

(** *** Lease rows stay, with the columns that say whose they are *)

Definition leased (k a r : string) (w : World) : Prop :=
  ∃ l, db_Leases (w_DB w) !! k = Some l ∧ l_AcquisitionID l = a ∧ l_ResourceID l = r.

(** A statement that leaves one table alone. *)
Definition spares {T A} (t : DB → T) (m : M World A) : Prop :=
  ∀ w, t (w_DB (m w).2) = t (w_DB w).

Lemma spares_leased {A} k a r (m : M World A) : spares db_Leases m → keeps (leased k a r) m.
Proof. intros Hm w Hw. unfold leased. by rewrite Hm. Qed.

Lemma leased_Insert k a r l : keeps (leased k a r) (Leases_Insert l).
Proof.
  intros w (x & Hx & Ha). unfold Leases_Insert, row_insert.
  destruct (db_Leases (w_DB w) !! l_ID l) eqn:E; [by exists x|]. destruct (_ && _); [|by exists x].
  exists x. simpl. by rewrite lookup_insert_ne by (intros <-; congruence).
Qed.
Lemma leased_Transition k a r id p q t : keeps (leased k a r) (Leases_Transition id p q t).
Proof.
  intros w (x & Hx & Ha). unfold Leases_Transition, row_update.
  destruct (db_Leases (w_DB w) !! id) as [y|] eqn:E; [|by exists x].
  destruct (bool_decide _); [|by exists x]. destruct (decide (id = k)) as [->|].
  - eexists. simpl. rewrite lookup_insert_eq. split; [done|].
    replace y with x by congruence. by case_decide.
  - exists x. simpl. by rewrite lookup_insert_ne.
Qed.
Lemma leased_Tx {A} k a r (m : M World A) : keeps (leased k a r) m → keeps (leased k a r) (Tx m).
Proof. intros Hm w Hw. specialize (Hm w Hw). unfold Tx. by destruct (m w) as [[?|?] ?]. Qed.

(** Discharges [spares] of a statement. *)
Ltac spare := intros ?;
  unfold Resources_CASPhase, Resources_MarkDeleted, Resources_SetProviderFacts,
    Resources_SetLastLeaseEnded, Resources_SetDeleteProtected, Resources_SetExternalRef,
    Resources_PutObserved, Resources_Create, Acquisitions_Insert, Acquisitions_Transition,
    Acquisitions_Bind, Acquisitions_SetPendingResource, Acquisitions_ClearPendingResource,
    Operations_Append, Operations_Transition, Operations_Get, row_get, row_update, row_insert,
    Leases_Insert, Leases_Transition, Idempotency_Begin, Idempotency_finish, Idempotency_get, Pools_Delete, bindM, nowM, getsM, failM;
  repeat (case_match; simplify_eq/=); done.

(** Unfolds a transaction to its statements. *)
Ltac bodies := unfold createTx, acquireTx, keyedTx, beginKeyed, completeKeyed, Idempotency_Complete, deleteTx, deleteGates,
  deletePoolTx, reserveTx, acceptTx, adoptTx, rescheduleTx, succeedRunningTx, succeedStopTx,
  succeedDeleteTx, failOpTx, prebindTx, startParkedTx, rePendTx, closeAcqTx, stopTx, startTx,
  journalTx, mintTx, drainTx, undrainTx, protectTx, retryVerificationTx, markFailedTx,
  dispatchTx, releaseTx, expireTx, finishLease, endLeaseLocked, createTx, acquireTx,
  refreshTx, tombstoneTx, journalDeleteTx, costReclaimTx, JournalStop, JournalStart,
  journalPhaseOp, journalDeleteInTx, Journal in *.

Ltac leased_tac :=
  repeat match goal with
  | |- keeps _ (match ?x with _ => _ end) => destruct x
  | |- keeps _ (bindM _ _) => apply keeps_bind; [|intros ?]
  | |- keeps _ (ignoreM _) => apply keeps_ignore
  | |- keeps _ (tryM _) => apply keeps_try
  | |- keeps _ (let _ := _ in _) => cbv zeta
  | |- keeps _ (Leases_Insert _) => apply leased_Insert
  | |- keeps _ (Leases_Transition _ _ _ _) => apply leased_Transition
  | |- keeps _ _ => first [apply keeps_pure; solve [auto with fp] | apply spares_leased; solve [spare]]
  end.

Lemma kstep_leased w w' k a r : kstep w w' → leased k a r w → leased k a r w'.
Proof.
  intros Hst Hk. destruct Hst;
    try (lazymatch goal with |- leased _ _ _ (Tx ?m w).2 => apply (leased_Tx k a r m); [|done] end).
  { apply (spares_leased k a r m); [|done]. intros w0. apply (H1 w0). }
  all: bodies; leased_tac.
Qed.

(** *** Only a dispatch counts as an attempt *)

Definition attempted (k : string) (n : Z) (w : World) : Prop :=
  ∃ o, db_Operations (w_DB w) !! k = Some o ∧ o_Attempt o = n.

Lemma spares_attempted {A} k n (m : M World A) : spares db_Operations m → keeps (attempted k n) m.
Proof. intros Hm w Hw. unfold attempted. by rewrite Hm. Qed.

Lemma attempted_Append k n o : keeps (attempted k n) (Operations_Append o).
Proof.
  intros w (x & Hx & Ha). unfold Operations_Append. case_decide; [|by exists x]. unfold row_insert.
  destruct (db_Operations (w_DB w) !! o_ID o) eqn:E; [by exists x|]. destruct (_ && _); [|by exists x].
  exists x. simpl. by rewrite lookup_insert_ne by (intros <-; congruence).
Qed.
Lemma attempted_Transition k n id p q mut :
  (id = k → ∀ o, o_Attempt (mut o) = o_Attempt o) →
  keeps (attempted k n) (Operations_Transition id p q mut).
Proof.
  intros Hm w (x & Hx & Ha). unfold Operations_Transition, Operations_Get, row_get, bindM.
  destruct (db_Operations (w_DB w) !! id) as [y|] eqn:E; [|by exists x].
  case_decide; [|by exists x]. simpl. unfold row_update. rewrite E.
  destruct (bool_decide _); [|by exists x]. simpl. destruct (decide (id = k)) as [->|].
  - eexists. simpl. rewrite lookup_insert_eq. split; [done|]. simpl. rewrite Hm by done.
    replace y with x by congruence. unfold transitioned. by case_match.
  - exists x. simpl. by rewrite lookup_insert_ne.
Qed.
Lemma attempted_Tx {A} k n (m : M World A) : keeps (attempted k n) m → keeps (attempted k n) (Tx m).
Proof. intros Hm w Hw. specialize (Hm w Hw). unfold Tx. by destruct (m w) as [[?|?] ?]. Qed.
Lemma attempted_Pools_Delete k n id : keeps (attempted k n) (Pools_Delete id).
Proof.
  intros w (x & Hx & Ha).
  assert (∀ m, m = (λ o, if points_at id (o_PoolID o) && negb (open o) then with_o_PoolID None o else o)
                   <$> db_Operations (w_DB w) → ∃ o, m !! k = Some o ∧ o_Attempt o = n) as Hm.
  { intros m ->. rewrite lookup_fmap, Hx. eexists. split; [done|]. by case_match. }
  unfold Pools_Delete. repeat case_match; by apply Hm.
Qed.

Lemma spares_Leases_Insert l : spares db_Operations (Leases_Insert l).
Proof. intros w. unfold Leases_Insert, row_insert. destruct (_ !! _); [done|]. by destruct (_ && _). Qed.
Lemma spares_Leases_Transition id p q t : spares db_Operations (Leases_Transition id p q t).
Proof.
  intros w. unfold Leases_Transition, row_update. destruct (_ !! _); [|done]. by destruct (bool_decide _).
Qed.

Ltac attempted_tac :=
  repeat match goal with
  | |- keeps _ (match ?x with _ => _ end) => destruct x
  | |- keeps _ (bindM _ _) => apply keeps_bind; [|intros ?]
  | |- keeps _ (ignoreM _) => apply keeps_ignore
  | |- keeps _ (tryM _) => apply keeps_try
  | |- keeps _ (let _ := _ in _) => cbv zeta
  | |- keeps _ (Operations_Append _) => apply attempted_Append
  | |- keeps _ (Operations_Transition _ _ _ _) => apply attempted_Transition; by auto
  | |- keeps _ (Pools_Delete _) => apply attempted_Pools_Delete
  | |- keeps _ _ =>
      first [apply keeps_pure; solve [auto with fp]
        | apply spares_attempted; solve [apply spares_Leases_Insert|apply spares_Leases_Transition|spare]]
  end.

Lemma kstep_attempted w w' k n : kstep w w' → ¬ may G k → attempted k n w → attempted k n w'.
Proof.
  intros Hst HG Hk. destruct Hst;
    try (lazymatch goal with |- attempted _ _ (Tx ?m w).2 => apply (attempted_Tx k n m); [|done] end).
  { apply (spares_attempted k n m); [|done]. intros w0. apply (H1 w0). }
  all: bodies; attempted_tac.
  - apply attempted_Transition. by intros ->.
  - apply attempted_Transition. intros _ o. by match goal with Hm : schedules _ |- _ => apply Hm end.
Qed.

(** *** Every transaction is a step of the protocol *)

Local Hint Resolve releaseTx_refines expireTx_refines dispatchTx_refines acceptTx_refines
  transition_refines adoptTx_refines succeedRunningTx_refines succeedStopTx_refines
  succeedDeleteTx_refines failOpTx_refines reserveTx_refines prebindTx_refines
  startParkedTx_refines rePendTx_refines acq_transition_refines closeAcqTx_refines
  cas_refines stopTx_refines startTx_refines journalDeleteTx_refines costReclaimTx_refines
  Journal_refines refreshTx_refines mintTx_refines tombstoneTx_refines createTx_refines
  acquireTx_refines drainTx_refines undrainTx_refines protectTx_refines
  retryVerificationTx_refines markFailedTx_refines aside_refines deletePoolTx_aside
  deleteTx_refines : fp.

Theorem kstep_refines w w' : Good w → kstep w w' → astep (fleet w) (fleet w').
Proof.
  intros [Hk HI] Hst. destruct Hst;
    try (lazymatch goal with |- astep _ (fleet (Tx ?m w).2) => apply (refines_Tx m) end);
    try (by auto with fp).
  - rewrite quiet_aside by done. apply R_skip.
  - apply keyedTx_refines; auto with fp.
Qed.

Lemma Good_step w w' : Good w → kstep w w' → Good w'.
Proof.
  intros Hg Hst. split; [by eapply kstep_keyed; [|apply Hg]|].
  eapply Inv_step; [apply Hg|]. by apply kstep_refines.
Qed.

Lemma Good_steps w w' : Good w → rtc kstep w w' → Good w'.
Proof. intros Hg Hst. revert Hg. induction Hst; eauto using Good_step. Qed.

(** A simulation: histories of the database are histories of the protocol. *)
Lemma ksteps_refine w w' : Good w → rtc kstep w w' → rtc astep (fleet w) (fleet w').
Proof.
  intros Hg Hst. revert Hg. induction Hst as [|w1 w2 w3 H12 _ IH]; [done|]. intros Hg.
  eapply rtc_l; [by apply kstep_refines|]. apply IH. by eapply Good_step.
Qed.

(** ** What a handler knows stays true *)

Lemma abs_op_back w k x : fl_ops (fleet w) !! k = Some x →
  ∃ o, db_Operations (w_DB w) !! k = Some o ∧ x = abs_op o.
Proof. apply abs_op_inv. Qed.

Lemma leased_steps w w' k a r : rtc kstep w w' → leased k a r w → leased k a r w'.
Proof. induction 1; eauto using kstep_leased. Qed.

Lemma attempted_steps w w' k n :
  ¬ may G k → rtc kstep w w' → attempted k n w → attempted k n w'.
Proof. induction 2; eauto using kstep_attempted. Qed.

Lemma same_lease_steps l w w' : rtc kstep w w' → same_lease l w → same_lease l w'.
Proof. apply leased_steps. Qed.

Lemma same_op_steps op w w' : Good w → rtc kstep w w' → same_op op w → same_op op w'.
Proof.
  intros Hg Hst (cur & Hcur & Hk & Hr).
  destruct (steps_ops _ _ _ _ (ksteps_refine _ _ Hg Hst) (abs_op_lookup _ _ _ Hcur))
    as (x & Hx & Hev1 & Hev2 & _).
  apply abs_op_back in Hx as (o & Ho & ->). exists o. simpl in *. split_and!; [done|congruence..].
Qed.
End system.
Arguments kstep {_ _ _} G.

(** ** Worlds the process can be in *)

Section reach.
Context `{ULID} {P : Type} `{Providers P}.

(** A grant that allows more. *)
Definition wider (G G' : Grant) : Prop :=
  (∀ i, may G i → may G' i) ∧ (∀ p, journals G p → journals G' p).

Lemma kstep_mono (G G' : Grant) w w' : wider G G' → kstep G w w' → kstep G' w w'.
Proof.
  intros [HG Hj] Hst. destruct Hst; try (by constructor; auto).
  apply K_transition; [done..|]. intros Hto. edestruct H5 as [Hm|Hk]; [exact Hto|left; auto|by right].
Qed.
Lemma ksteps_mono (G G' : Grant) w w' : wider G G' → rtc (kstep G) w w' → rtc (kstep G') w w'.
Proof. intros Hb. apply rtc_subrel. intros ??. by apply kstep_mono. Qed.
Lemma wider_any G : wider G any_op.
Proof. by split. Qed.

(** An empty database, as the migrations leave it. *)
Definition fresh (now : Z) : World := MkWorld emptyDB now 0.

Definition reachable (w : World) : Prop := ∃ now, rtc (kstep any_op) (fresh now) w.

Lemma Good_fresh now : Good (fresh now).
Proof. split; [by split; intros|apply Inv_empty]. Qed.

Lemma Good_reachable w : reachable w → Good w.
Proof. intros [now H1]. eapply Good_steps; [|done]. apply Good_fresh. Qed.

Lemma reachable_step w w' : reachable w → kstep any_op w w' → reachable w'.
Proof. intros [now H1] H2. exists now. by eapply rtc_r. Qed.

End reach.
