(* ===== verification/Via.v ===== *)
(** * Rules for runs of handlers

    What it means that a handler moves the database along [kstep], whatever
    its arguments, the clouds' answers and the in-memory state are; the rules
    to compose such runs; what a handler may keep knowing between two of its
    transactions, when other goroutines run; and the tactics that apply them. *)

From stdpp Require Import base gmap strings list relations.
From S2P Require Import Prelude Errors Json Phase SDK Capacity Types Store Kinds Classes Provision Sys Lease Engine Scheduler Reconcile Discovery App Spec Abs Refine System.
From S2P Require Billing.

Create HintDb kst discriminated.
Create HintDb vh discriminated.
#[export] Hint Constructors kstep : kst.
#[export] Hint Extern 1 (phase_step _ _) => reflexivity : kst.
#[export] Hint Extern 1 (_ = _) => reflexivity : kst.
#[export] Hint Extern 1 (_ ≠ _) => discriminate : kst.

(** ** More reads *)

Lemma pure_Checkpoints_Get k : pure (Checkpoints_Get k).
Proof. apply pure_row_get. Qed.
Lemma pure_Classes_Get k : pure (Classes_Get k).
Proof. apply pure_row_get. Qed.
Lemma pure_GetByName n : pure (Pools_GetByName n).
Proof. intros w. unfold Pools_GetByName. by case_match. Qed.
Lemma pure_GetPool id : pure (GetPool id).
Proof.
  apply pure_bind; [apply pure_try, pure_row_get|].
  intros []; [apply pure_ret|apply pure_GetByName].
Qed.
Lemma pure_template spec : pure (template spec).
Proof.
  unfold template. case_decide.
  - repeat case_match; try case_decide; first [apply pure_ret|apply pure_fail].
  - apply pure_bind; [apply pure_lookupClass|]. intros []; first [apply pure_ret|apply pure_fail].
Qed.
Lemma pure_failureBackoffUntil p : pure (failureBackoffUntil p).
Proof. apply pure_bind; [apply pure_try, pure_row_get|]. intros. apply pure_ret. Qed.
Lemma pure_queued t : pure (queuedAcquisitions t).
Proof. done. Qed.
Lemma pure_Pools_List : pure Pools_List.
Proof. done. Qed.
Lemma pure_nowM : pure nowM.
Proof. done. Qed.
Lemma pure_RecentTerminal p k n : pure (Operations_RecentTerminal p k n).
Proof. done. Qed.

Section estimates.
Context {P : Type} `{Providers P}.

Lemma pure_ranked acq want ex : pure (rankedCandidates acq want ex).
Proof. done. Qed.
Lemma pure_startEstimate p k : pure (startEstimate p k).
Proof. done. Qed.
Lemma pure_provisioningEstimate p : pure (provisioningEstimate p).
Proof. done. Qed.
Lemma pure_estimateOne acq want t best res : pure (estimateOne acq want t best res).
Proof.
  unfold estimateOne. cbv zeta.
  assert (∀ est, pure est → pure
    (if bool_decide (a_Class acq = "") || negb (bool_decide (r_Class res = a_Class acq))
     then retM best
     else acqs <- Acquisitions_ListByState [AcqProvisioning] ;;
          match holdOf (r_ID res) acqs with
          | None => retM best
          | Some holdMs => e <- est ;; retM (better best (add64 e (mul64 holdMs Millisecond)))
          end)) as Hpre.
  { intros est He. case_match; [apply pure_ret|]. apply pure_bind; [done|]. intros acqs.
    case_match; [|apply pure_ret]. apply pure_bind; [done|]. intros. apply pure_ret. }
  destruct (r_Phase res); try (by apply Hpre);
    (clear Hpre; destruct (Parse _); [|apply pure_ret]; destruct (negb _); [apply pure_ret|];
     apply pure_bind; [done|]; intros []; apply pure_ret).
Qed.
Lemma pure_foldEstimates acq want t rs best : pure (foldEstimates acq want t best rs).
Proof.
  revert best. induction rs; intros; simpl; [apply pure_ret|].
  apply pure_bind; [apply pure_estimateOne|done].
Qed.
Lemma pure_estimateWait acq want : pure (estimateWait acq want).
Proof.
  unfold estimateWait. apply pure_bind; [done|]. intros rs.
  apply pure_bind; [done|]. intros t. apply pure_foldEstimates.
Qed.
End estimates.

#[export] Hint Resolve pure_Checkpoints_Get pure_Classes_Get pure_GetByName pure_GetPool
  pure_template pure_failureBackoffUntil pure_queued pure_Pools_List pure_nowM pure_RecentTerminal pure_ranked
  pure_estimateWait pure_lookupClass : fp.

Section handlers.
Context `{ULID} {P : Type} `{Providers P}.
Context (G : Grant).

(** ** What a handler may assume *)

(** From a world with the invariants and with the knowledge [K], a history. *)
Definition steps (K : World → Prop) (w w' : World) : Prop :=
  Good w → K w → rtc (kstep G) w w'.

(** Knowledge that other transactions do not invalidate. *)
Class Stable (K : World → Prop) : Prop :=
  stable w w' : Good w → rtc (kstep G) w w' → K w → K w'.

#[global] Instance stable_True : Stable (λ _, True).
Proof. by intros w w' _ _ _. Qed.
#[global] Instance stable_and K L : Stable K → Stable L → Stable (λ w, K w ∧ L w).
Proof. intros HK HL w w' Hg Hst [??]. split; [by eapply HK|by eapply HL]. Qed.
#[global] Instance stable_same_op op : Stable (same_op op).
Proof. intros w w' Hg Hst. by eapply same_op_steps. Qed.

#[global] Instance stable_same_lease l : Stable (same_lease l).
Proof. intros w w' _ Hst. by eapply same_lease_steps. Qed.
#[global] Instance stable_all {X} (l : list X) (K : X → World → Prop) :
  (∀ x, Stable (K x)) → Stable (λ w, ∀ x, x ∈ l → K x w).
Proof. intros HK w w' Hg Hst Hw x Hx. by eapply HK; [..|apply Hw]. Qed.

#[global] Instance steps_refl K : Reflexive (steps K).
Proof. intros w _ _. apply rtc_refl. Qed.
#[global] Instance steps_trans K : Stable K → Transitive (steps K).
Proof.
  intros HK w1 w2 w3 H12 H23 Hg Hw. specialize (H12 Hg Hw). etrans; [done|].
  apply H23; [by eapply Good_steps|by eapply HK].
Qed.

Lemma steps_weaken K w w' : steps (λ _, True) w w' → steps K w w'.
Proof. intros Hs Hg _. by apply Hs. Qed.

Abbreviation runs_if K m := (via (P := P) (steps K) m).
Abbreviation runs m := (via (P := P) (steps (λ _, True)) m).

Lemma runs_weaken {A} K (m : M (Sys P) A) : runs m → runs_if K m.
Proof. intros Hm s. apply steps_weaken, Hm. Qed.

(** Rules: a transaction, an implicit one off the fleet's tables, and a
    read that teaches something. *)
Lemma via_inTx {A} K (m : M World A) :
  (∀ w, Good w → K w → kstep G w (Tx m w).2) → runs_if K (inTx m).
Proof. intros Hm. apply via_onWorld. intros w Hg Hw. apply rtc_once. by apply Hm. Qed.

Lemma via_quiet {A} K (m : M World A) :
  quiet m → runs_if K (onWorld m).
Proof. intros Hq. apply via_onWorld. intros w _ _. apply rtc_once. by apply K_aside. Qed.

Lemma via_bind_ok {A B} R `{!Transitive R} (m : M (Sys P) A) (k : A → M (Sys P) B) :
  via R m → (∀ a s s', m s = (Ok a, s') → via R (k a)) → via R (bindM m k).
Proof.
  intros Hm Hk s. specialize (Hm s). unfold bindM.
  destruct (m s) as [[a|e] s'] eqn:E; simpl in *; [|done]. etrans; [done|].
  by apply (Hk _ _ _ E).
Qed.

Lemma via_learn {A B} K (L : A → World → Prop) `{!Stable K} `{∀ a, Stable (L a)}
    (m : M World A) (k : A → M (Sys P) B) :
  pure m → (∀ w a w', Good w → K w → m w = (Ok a, w') → L a w) →
  (∀ a, runs_if (λ w, K w ∧ L a w) (k a)) → runs_if K (bindM (onWorld m) k).
Proof.
  intros Hm HL Hk s Hg HK. specialize (HL (sy_World s)). specialize (Hm (sy_World s)).
  unfold bindM, onWorld. destruct (m (sy_World s)) as [[a|e] w'] eqn:E; simpl in *; subst.
  - specialize (Hk a (with_sy_World (sy_World s) s)). apply Hk; [done|]. split; [done|]. by eapply HL.
  - apply rtc_refl.
Qed.

(** Reads need no stability: [via eq m] says that [m] leaves the world alone. *)
Lemma via_read {A B} R `{!Reflexive R} (m : M (Sys P) A) (k : A → M (Sys P) B) :
  via eq m → (∀ a, via R (k a)) → via R (bindM m k).
Proof.
  intros Hm Hk s. specialize (Hm s). unfold bindM.
  destruct (m s) as [[a|e] s']; simpl in *; rewrite Hm; [apply Hk|done].
Qed.

(** Knowledge that does not survive [m] is given up. *)
Lemma via_forget {A B} K K' `{!Stable K'} (m : M (Sys P) A) (k : A → M (Sys P) B) :
  (∀ w, K w → K' w) → runs_if K m → (∀ a, runs_if K' (k a)) → runs_if K (bindM m k).
Proof.
  intros HK Hm Hk s Hg Hw. specialize (Hm s Hg Hw). unfold bindM.
  destruct (m s) as [[a|e] s']; simpl in *; [|done]. etrans; [done|].
  apply Hk; [by eapply Good_steps|]. eapply stable; [done..|by apply HK].
Qed.

#[global] Instance stable_const (φ : Prop) : Stable (λ _, φ).
Proof. by intros w w' _ _. Qed.

(** ** Prepared creates *)

Lemma Prepare_ok owner cs t w p w' : Prepare owner cs t w = (Ok p, w') → prepared p.
Proof.
  unfold Prepare. intros Hp. destruct (Instance_ _); [|done]. destruct (pv_ResourceDriver _ _); [|done].
  apply bindM_Ok in Hp as (rid & w1 & _ & Hp). apply bindM_Ok in Hp as (oid & w2 & _ & Hp).
  cbv zeta in Hp. apply bindM_Ok in Hp as (acts & w3 & _ & Hp).
  destruct acts as [|a [|]]; [done| |done]. apply ret_ok in Hp as [-> _]. done.
Qed.

Lemma prepared_stamp p i :
  prepared p → prepared (MkPrepared (Prepared_Resource p) (stampKey i (Prepared_Op p))).
Proof. intros []. unfold stampKey. case_match; done. Qed.

(** The creates an installation plans are ones its history may journal. *)
Definition plans (owner : string) : Prop := ∀ cs t w p w', Prepare owner cs t w = (Ok p, w') →
  journals G p ∧ ∀ i, journals G (MkPrepared (Prepared_Resource p) (stampKey i (Prepared_Op p))).

Lemma quiet_newID p : quiet (newID p).
Proof. by intros w. Qed.
Lemma quiet_Prepare owner cs t : quiet (Prepare owner cs t).
Proof.
  unfold Prepare. destruct (Instance_ _); [|done]. destruct (pv_ResourceDriver _ _); [|done].
  apply quiet_bind; [apply quiet_newID|intros rid].
  apply quiet_bind; [apply quiet_newID|intros oid]. cbv zeta.
  apply quiet_bind; [apply quiet_pure, pure_liftR|intros acts]. by destruct acts as [|? []].
Qed.

(** ** Automation *)

Lemma via_refuse R `{!Reflexive R} c e : via (P := P) R (refuse c e).
Proof. intros s. by destruct c. Qed.
Lemma via_clock R `{!Reflexive R} : via (P := P) R clockNow.
Proof. by apply via_pure; [apply _|]. Qed.

Lemma quiet_Events ev : quiet (Events_Append ev).
Proof. by intros w. Qed.
Lemma quiet_Checkpoints k c : quiet (Checkpoints_Put k c).
Proof. by intros w. Qed.
Lemma quiet_Classes_Upsert c : quiet (Classes_Upsert c).
Proof. by intros w. Qed.
Lemma quiet_Classes_Delete n : quiet (Classes_Delete n).
Proof. intros w. unfold Classes_Delete. by case_match. Qed.
Lemma quiet_Pools_Upsert p : quiet (Pools_Upsert p).
Proof. intros w. unfold Pools_Upsert. by case_match. Qed.
Lemma quiet_SetPaused id b t : quiet (Pools_SetPaused id b t).
Proof. intros w. unfold Pools_SetPaused, row_update. by repeat case_match. Qed.
End handlers.

#[export] Hint Resolve quiet_Events quiet_Checkpoints quiet_Classes_Upsert quiet_Classes_Delete
  quiet_Pools_Upsert quiet_SetPaused quiet_newID : fp.

Ltac quiet_tac := repeat match goal with
  | |- quiet (match ?x with _ => _ end) => destruct x
  | |- quiet (bindM _ _) => apply quiet_bind; [|intros ?]
  | |- quiet (tryM _) => apply quiet_try
  | |- quiet (forM_ _ _) => apply quiet_forM; intros ?
  | |- quiet (let _ := _ in _) => cbv zeta
  | |- quiet _ => first [solve [auto with fp] | apply quiet_pure; solve [auto with fp]]
  end.

(** Takes a handler apart; leaves the transactions whose conditions are not
    closed by the hints. *)
Ltac via_step :=
  match goal with
  | |- via _ (match ?x with _ => _ end) => destruct x eqn:?
  | |- via _ (let _ := _ in _) => cbv zeta
  | |- via _ (bindM _ _) => apply via_bind; [apply _| |intros ?]
  | |- via _ (ignoreM _) => apply via_ignore
  | |- via _ (tryM _) => apply via_try
  | |- via _ (forM_ _ _) => apply via_forM; [apply _..|intros ? ?]
  | |- via _ (countM _ _) => apply via_countM; [apply _..|intros ? ?]
  | |- via _ (retM _) => apply via_ret; apply _
  | |- via _ (failM _) => apply via_fail; apply _
  | |- via _ (liftR _) => apply via_liftR; apply _
  | |- via _ (getsM _) => apply via_gets; apply _
  | |- via _ (refuse _ _) => apply via_refuse; apply _
  | |- via _ (modifyM _) => apply via_modify; [apply _|done]
  | |- via _ clockNow => apply via_clock; apply _
  | |- via _ engineKick => apply via_engineKick; apply _
  | |- via _ (poolKick _) => apply via_poolKick; apply _
  | |- via _ poolKickAll => apply via_poolKickAll; apply _
  | |- via _ (onProv _) => apply via_onProv; apply _
  | |- via _ (onWorld _) => apply via_pure; [apply _|solve [auto with fp]]
  | |- via _ (inTx _) => first [apply via_inTx; intros ? _ _; solve [auto with kst]
      | apply via_quiet, quiet_Tx; solve [quiet_tac]]
  | |- via _ _ => solve [auto with vh]
  end.
Ltac via_tac := repeat via_step.
