(* ===== verification/Handlers.v ===== *)
(** * The handlers run along the transition system

    Every handler of the process, whatever its arguments, the clouds' answers
    and the in-memory state, moves the database along [kstep]; what it read
    earlier may be stale by the time it commits, as other goroutines can run
    between its transactions. So the invariants of [Safety.v] hold after every
    commit of every handler. *)

From stdpp Require Import base gmap strings list relations sorting.
From S2P Require Import Prelude Errors Json Phase SDK Capacity Types Store Kinds Classes Provision Sys Lease Engine Scheduler Reconcile Discovery App Spec Abs Refine System Via.
From S2P Require Billing.

Section handlers.
Context `{ULID} {P : Type} `{Providers P}.
Context (G : Grant) (owner : string).
Hypothesis Hplans : plans G owner.
Abbreviation runs m := (via (P := P) (steps G (λ _, True)) m).

(** ** Leases *)

Lemma kick_runs K p : via (P := P) (steps G K) (kick p).
Proof. unfold kick. via_tac. Qed.
Local Hint Resolve kick_runs : vh.

Lemma Release_runs id : runs (Release id).
Proof. unfold Release. via_tac. Qed.
Local Hint Resolve Release_runs : vh.

Lemma ReleaseAcquisition_runs id : runs (ReleaseAcquisition id).
Proof. unfold ReleaseAcquisition. via_tac. Qed.
Local Hint Resolve ReleaseAcquisition_runs : vh.

Lemma Expiring_rows t n w ls w' :
  keyedW w → Leases_Expiring t n w = (Ok ls, w') → ∀ l, l ∈ ls → same_lease l w.
Proof.
  intros Hk [-> _]%gets_ok l Hl%elem_of_limit. rewrite elem_of_order_by in Hl.
  apply elem_of_select in Hl as (_ & k & Hl). exists l.
  by rewrite (keyed_lease _ Hk _ _ Hl).
Qed.

Lemma SweepExpired_runs : runs SweepExpired.
Proof.
  unfold SweepExpired. via_step; [via_step|].
  apply (via_learn G _ (λ ls w, ∀ l, l ∈ ls → same_lease l w)).
  { apply pure_gets. }
  { intros w ls w' [Hk _] _. by apply Expiring_rows. }
  intros ls. apply via_countM; [apply _..|intros l Hl]. via_step; [|via_tac].
  apply via_inTx. intros w _ [_ Hw]. by apply K_expire, Hw.
Qed.
Local Hint Resolve SweepExpired_runs : vh.

(** ** The scheduler *)

Lemma reserve_runs acq r want ex : runs (reserve acq r want ex).
Proof.
  unfold reserve. apply via_bind; [apply _|apply via_quiet, quiet_newID|].
  intros. via_tac.
Qed.
Local Hint Resolve reserve_runs : vh.

Lemma tryReserve_runs n acq want ex cands : runs (tryReserve n acq want ex cands).
Proof.
  revert cands. induction n as [|n IH]; intros [|c cands]; simpl; via_tac; by apply IH.
Qed.
Lemma tryStart_runs n acq t cands : runs (tryStart n acq t cands).
Proof.
  revert cands. induction n as [|n IH]; intros [|c cands]; simpl; via_tac; by apply IH.
Qed.
Local Hint Resolve tryReserve_runs tryStart_runs : vh.

Lemma startParked_runs acq want : runs (startParked acq want).
Proof. unfold startParked. via_tac. Qed.

Lemma scaleOnDemand_runs acq : runs (scaleOnDemand owner acq).
Proof.
  unfold scaleOnDemand. via_step; [via_tac|]. via_step; [via_tac|]. via_step; [|via_tac].
  via_step; [via_tac|]. apply (via_bind_ok (steps G _)); [apply via_quiet, quiet_Prepare|].
  intros p s s' Hp. unfold onWorld in Hp. destruct (Prepare _ _ _ _) as [r w'] eqn:E.
  simplify_eq. destruct (Hplans _ _ _ _ _ E) as [Hj _]. apply Prepare_ok in E. via_tac.
Qed.
Local Hint Resolve startParked_runs scaleOnDemand_runs : vh.

Lemma Satisfy_runs id : runs (Satisfy owner id).
Proof. unfold Satisfy, observeBound, markQueued. via_tac. Qed.
Local Hint Resolve Satisfy_runs : vh.

Lemma resolvePending_runs acq k st : runs (resolvePending acq k st).
Proof. unfold resolvePending, rePend. via_tac. Qed.
Local Hint Resolve resolvePending_runs : vh.

Lemma Scheduler_HandleOpTerminal_runs op : runs (Scheduler_HandleOpTerminal op).
Proof. unfold Scheduler_HandleOpTerminal, clearStartBackoff, bumpStartBackoff. via_tac. Qed.

Lemma resumePending_runs pt t acq : runs (resumePending owner pt t acq).
Proof. unfold resumePending. via_tac. Qed.
Lemma resumeProvisioning_runs pt t acq : runs (resumeProvisioning pt t acq).
Proof. unfold resumeProvisioning, rePend. via_tac. Qed.
Local Hint Resolve resumePending_runs resumeProvisioning_runs : vh.

Lemma Scheduler_Resume_runs pt : runs (Scheduler_Resume owner pt).
Proof. unfold Scheduler_Resume. via_tac. Qed.

(** ** The reconciler *)

Section reconciler.
Context (cfg : Reconcile.Config).

Lemma Reconciler_HandleOpTerminal_runs op : runs (Reconciler_HandleOpTerminal cfg op).
Proof.
  unfold Reconciler_HandleOpTerminal, bumpFailureBackoff, resetFailureBackoff, bumpFailureTx. via_tac.
Qed.

Lemma adaptiveBuffer_runs p pol b t : runs (adaptiveBuffer p pol b t).
Proof. unfold adaptiveBuffer. via_tac. Qed.
Local Hint Resolve adaptiveBuffer_runs : vh.
Lemma billingAllows_runs r t : runs (billingAllows cfg r t).
Proof. unfold billingAllows, effectiveBuffer. via_tac. Qed.
Local Hint Resolve billingAllows_runs : vh.

Lemma reclaimOne_runs t sw r : runs (reclaimOne cfg t sw r).
Proof.
  unfold reclaimOne, reclaimParked, reclaimIdle, costly, costReclaim, journalDelete, forgetMissed.
  via_tac.
Qed.
Local Hint Resolve reclaimOne_runs : vh.
Lemma sweepAll_runs t sw l : runs (sweepAll cfg t sw l).
Proof. revert sw. induction l as [|r l IH]; intros; simpl; via_tac. Qed.
Local Hint Resolve sweepAll_runs : vh.

Lemma ReclaimPoolless_runs : runs (ReclaimPoolless cfg).
Proof. unfold ReclaimPoolless. via_tac. Qed.

Lemma attempts_runs {X} stop body (l : list X) k :
  (∀ x, runs (body x)) → runs (attempts stop body l k).
Proof.
  intros Hb. revert k. induction l as [|x l IH]; intros; simpl; via_tac; auto.
Qed.
Lemma creates_runs n create : runs create → runs (creates n create).
Proof. intros Hc. induction n; simpl; via_tac. Qed.
Lemma createOne_runs pool k p m t : runs (createOne owner pool k p m t).
Proof.
  unfold createOne. apply (via_bind_ok (steps G _)); [apply via_quiet, quiet_Prepare|].
  intros pr s s' Hp. unfold onWorld in Hp. destruct (Prepare _ _ _ _) as [r w'] eqn:E.
  simplify_eq. destruct (Hplans _ _ _ _ _ E) as [Hj _]. apply Prepare_ok in E. via_tac.
Qed.

Lemma RunOnce_runs pool : runs (RunOnce cfg owner pool).
Proof.
  unfold RunOnce, undrainPass, warmUpPass, createPass, deleteParkedPass, drainPass, deletePass,
    parkPass, kickIf, drainOne, casPhase, costReclaim, journalDelete. via_tac.
  all: first [apply creates_runs, createOne_runs | apply attempts_runs; intros ?; via_tac].
Qed.
Local Hint Resolve RunOnce_runs ReclaimPoolless_runs : vh.

Lemma Reconciler_round_runs tick : runs (Reconciler_round cfg owner tick).
Proof.
  unfold Reconciler_round, kickIf. via_step; [apply via_modify; [apply _|by intros; destruct tick]|].
  via_tac.
Qed.
End reconciler.

(** ** Application commands *)

Section service.
Context (pt : Z).

Lemma CreateResource_runs cmd respond : runs (CreateResource owner cmd respond).
Proof.
  unfold CreateResource. via_step; [via_tac|]. via_step; [|via_tac].
  via_step; [|via_tac]. via_step; [|via_tac]. via_step; [via_tac|].
  apply (via_bind_ok (steps G _)); [apply via_quiet, quiet_Prepare|].
  intros pr s s' Hp. unfold onWorld in Hp. destruct (Prepare _ _ _ _) as [res w'] eqn:E.
  simplify_eq. destruct (Hplans _ _ _ _ _ E) as [_ Hj]. specialize (Hj (cc_Idem a)).
  apply Prepare_ok, (prepared_stamp _ (cc_Idem a)) in E. via_tac.
Qed.

Lemma pure_deleteGates r : pure (deleteGates r).
Proof. unfold deleteGates. repeat (apply pure_bind; [solve [auto with fp]|intros ?]); auto with fp. Qed.
Lemma pure_dryRun id (respond : Resource → Z * option string) : pure
  (res <- Resources_Get id ;; deleteGates res ;;; retM (MkOutcome (respond res).1 (respond res).2 false)).
Proof.
  apply pure_bind; [apply pure_row_get|intros res].
  apply pure_bind; [apply pure_deleteGates|intros _; apply pure_ret].
Qed.
Local Hint Resolve pure_dryRun : fp.

Lemma DeleteResource_runs id actor dry i respond : runs (DeleteResource id actor dry i respond).
Proof.
  unfold DeleteResource. via_step; [apply via_quiet, quiet_newID|]. via_tac.
Qed.
Lemma ParkResource_runs id actor : runs (ParkResource id actor).
Proof. unfold ParkResource. via_tac. Qed.
Lemma StartResource_runs id actor : runs (StartResource id actor).
Proof. unfold StartResource. via_tac. Qed.
Lemma DrainResource_runs id actor : runs (DrainResource id actor).
Proof. unfold DrainResource. via_tac. Qed.
Lemma UndrainResource_runs id actor : runs (UndrainResource id actor).
Proof. unfold UndrainResource. via_tac. Qed.
Lemma SetResourceProtected_runs id b actor : runs (SetResourceProtected id b actor).
Proof. unfold SetResourceProtected. via_tac. Qed.
Lemma ResolveOperation_runs id act actor : runs (ResolveOperation id act actor).
Proof. unfold ResolveOperation. via_tac. Qed.
Lemma Acquire_runs cmd respond : runs (Acquire owner pt cmd respond).
Proof.
  unfold Acquire. cbv zeta. do 3 (via_step; [via_tac|]).
  via_step; [apply via_quiet, quiet_newID|]. via_step; [via_tac|]. via_step; [|via_tac].
  apply via_inTx. intros w _ _. by apply K_acquire.
Qed.
Lemma Service_Release_runs id : runs (Service_Release id).
Proof. unfold Service_Release. via_tac. Qed.
Lemma UpsertPool_runs cmd : runs (UpsertPool cmd).
Proof. unfold UpsertPool, upsertPoolTx. via_tac. Qed.
Lemma SetPoolPaused_runs id b actor : runs (SetPoolPaused id b actor).
Proof. unfold SetPoolPaused, setPausedTx. via_tac. Qed.
Lemma DeletePool_runs id actor : runs (DeletePool id actor).
Proof. unfold DeletePool. via_tac. Qed.
Lemma ReconcilePool_runs id : runs (ReconcilePool id).
Proof. unfold ReconcilePool. via_tac. Qed.
Lemma UpsertClass_runs cmd : runs (UpsertClass pt cmd).
Proof. unfold UpsertClass, upsertClassTx. via_tac. Qed.
Lemma DeleteClass_runs name actor : runs (DeleteClass name actor).
Proof. unfold DeleteClass, deleteClassTx. via_tac. Qed.
Lemma SeedConfigClasses_runs classes t : runs (inTx (SeedConfigClasses classes t)).
Proof. unfold SeedConfigClasses. apply via_quiet, quiet_Tx. quiet_tac. Qed.
End service.
End handlers.

(** * The engine runs along the transition system

    [drive] dispatches at most the operation it was handed, under the attempt
    bound it has read; [Step] drives a batch read at its start, whose other
    members keep their attempts meanwhile. *)

Section engine.
Context `{ULID} {P : Type} `{Providers P} `{Rand} `{compute.Network}.
Context (cfg : Engine.Config) (OnTerminal : Operation → M (Sys P) unit).
Hypothesis OnTerminal_runs : ∀ G op, via (steps G (λ _, True)) (OnTerminal op).
Context (G : Grant).
Abbreviation runs m := (via (P := P) (steps G (λ _, True)) m).
Abbreviation runs_if K m := (via (P := P) (steps G K) m).

Local Hint Resolve OnTerminal_runs : vh.

Lemma driverAndAction_reads op : via (P := P) eq (driverAndAction op).
Proof. unfold driverAndAction. via_tac. Qed.
Lemma readinessGate_reads op st : via (P := P) eq (readinessGate op st).
Proof. unfold readinessGate. via_tac. Qed.
Lemma backoff_reads n c : via (P := P) eq (backoff cfg n c).
Proof. by intros s. Qed.

Lemma notifyTerminal_runs K id : runs_if K (notifyTerminal OnTerminal id).
Proof. apply runs_weaken. unfold notifyTerminal. via_tac. Qed.

Lemma failOpPhases_runs op from cause p q :
  op_fails from = true → fail_move (o_Kind op) p q = true →
  runs_if (same_op op) (failOpPhases OnTerminal (o_ID op) from cause p q).
Proof.
  intros Hf Hm. unfold failOpPhases. via_step; [via_step|].
  apply (via_learn G _ (λ op' w, o_Kind op' = o_Kind op ∧ same_op op' w)).
  { apply pure_row_get. }
  { intros w op' w' [Hk _] (cur & Hcur & Hck & Hcr) [Ho _]%row_get_ok.
    assert (op' = cur) as -> by congruence. split; [done|]. exists cur.
    by rewrite (keyed_op _ Hk _ _ Hcur). }
  intros op'. via_step; [|apply notifyTerminal_runs].
  apply via_inTx. intros w _ [_ [Hk Hs]]. apply K_failOp; [done..|by rewrite Hk].
Qed.

Lemma failOp_runs K id from cause :
  op_fails from = true → runs_if K (failOp OnTerminal id from cause).
Proof.
  intros Hf. apply runs_weaken. unfold failOp.
  apply (via_learn G _ (λ op w, o_ID op = id ∧ same_op op w)).
  { apply pure_row_get. }
  { intros w op w' [Hk _] _ [Ho _]%row_get_ok. split; [by apply (keyed_op _ Hk)|].
    exists op. by rewrite (keyed_op _ Hk _ _ Ho). }
  intros op. destruct (failPhases (o_Kind op)) as [p q] eqn:E.
  intros s Hg [_ [Hid Hs]]. rewrite <-Hid. apply failOpPhases_runs; [done| |done..].
  by destruct (o_Kind op); injection E as <- <-.
Qed.

Lemma reschedule_runs K op cause :
  op_move (o_State op) (o_State op) = true →
  runs_if K (reschedule cfg op cause).
Proof.
  intros Hm. unfold reschedule. apply via_read; [apply _|apply backoff_reads|intros d].
  apply via_read; [apply _|by intros s|intros t]. apply via_inTx. intros w _ _.
  apply K_transition; [by intros o; destruct cause|done|intros E; by rewrite E in Hm..].
Qed.

Lemma succeedDelete_runs op from :
  op_succeeds from = true → o_Kind op = OpKindDelete →
  runs_if (same_op op) (succeedDelete OnTerminal op from).
Proof.
  intros Hs Hk. unfold succeedDelete. via_step; [via_step|].
  via_step; [|apply notifyTerminal_runs]. apply via_inTx. intros w _ Hw. by apply K_succeedDelete.
Qed.
Lemma succeedStop_runs op st :
  op_succeeds (o_State op) = true → o_Kind op = OpKindStop →
  runs_if (same_op op) (succeedStop OnTerminal op st).
Proof.
  intros Hs Hk. unfold succeedStop. via_step; [via_step|].
  via_step; [|apply notifyTerminal_runs]. apply via_inTx. intros w _ Hw. by apply K_succeedStop.
Qed.
Lemma succeedCreate_runs op st :
  op_succeeds (o_State op) = true → o_Kind op = OpKindCreate →
  runs_if (same_op op) (succeedCreate OnTerminal op st).
Proof.
  intros Hs Hk. unfold succeedCreate. via_step; [via_step|].
  via_step; [|apply notifyTerminal_runs]. apply via_inTx. intros w _ Hw.
  apply K_succeedRunning; auto.
Qed.
Lemma succeedStart_runs op st :
  op_succeeds (o_State op) = true → o_Kind op = OpKindStart →
  runs_if (same_op op) (succeedStart OnTerminal op st).
Proof.
  intros Hs Hk. unfold succeedStart. via_step; [via_step|].
  via_step; [|apply notifyTerminal_runs]. apply via_inTx. intros w _ Hw.
  apply K_succeedRunning; auto.
Qed.

(** An operation goes back into the journal: by grant, unless it is no create. *)
Lemma rejournal_runs op from mut :
  may G (o_ID op) ∨ o_Kind op ≠ OpKindCreate → schedules mut → op_move from OpJournaled = true →
  runs_if (same_op op) (inTx (Operations_Transition (o_ID op) from OpJournaled mut)).
Proof.
  intros Hg Hm Hmv. apply via_inTx. intros w _ (cur & Hcur & Hk & _). apply K_transition; [done..|].
  intros _. destruct Hg as [Hg|Hg]; [by left|right]. intros o Ho. congruence.
Qed.

(** A create that is said to have had no effect is retried as it is. *)
Definition retried (op : Operation) (e : err) : Prop :=
  o_Kind op = OpKindCreate ∧ Effect e = EffectNone.

Lemma handleApplyError_runs op e :
  may G (o_ID op) ∨ ¬ retried op e →
  runs_if (same_op op) (handleApplyError cfg OnTerminal op e).
Proof.
  intros Hg. unfold handleApplyError. cbv zeta. via_step; [via_step|].
  assert (∀ t, may G (o_ID op) ∨ o_Kind op ≠ OpKindCreate →
    runs_if (same_op op) (delay <- backoff cfg (o_Attempt op) (Some e) ;;
    inTx (applyErrorTx (o_ID op) OpJournaled (t + Milliseconds delay) e))) as Hretry.
  { intros t Hg'. apply via_read; [apply _|apply backoff_reads|intros d]. by apply rejournal_runs. }
  case_decide as Hd; [apply succeedDelete_runs; [done|apply Hd]|].
  destruct (isParkOp _ && _); [by apply failOp_runs|].
  destruct (isParkOp _ && _ && _) eqn:Hp.
  { apply Hretry. right. intros Hk. by rewrite Hk in Hp. }
  destruct (decide (_ ∨ _)); [by apply failOp_runs|]. destruct (decide (Effect e = EffectNone)) as [He|].
  { apply Hretry. destruct Hg as [Hg|Hg]; [by left|right]. intros Hk. by apply Hg. }
  apply via_inTx. intros w _ _. by apply K_transition.
Qed.

(** What [drive] is handed: the row, as the batch read it. *)
Definition knows (op : Operation) (w : World) : Prop :=
  same_op op w ∧ attempted (o_ID op) (o_Attempt op) w.

Lemma dispatch_runs op :
  may G (o_ID op) → o_State op = OpJournaled → runs_if (knows op) (dispatch cfg OnTerminal op).
Proof.
  intros HG Hst. unfold dispatch. apply via_read; [apply _| |intros r].
  { apply via_try, driverAndAction_reads. }
  destruct r as [[driver act]|e]; [|by apply failOp_runs; rewrite Hst].
  case_match eqn:Ep; [by apply failOp_runs; rewrite Hst|]. apply via_read; [apply _|by intros s|intros t].
  apply (via_forget G _ (same_op op)); [by intros w []| |intros _].
  { apply via_inTx. intros w _ [(cur & Hcur & Hk & _) (cur' & Hcur' & Ha)].
    apply K_dispatch; [done|]. intros o Ho Hpark. assert (o = cur) as -> by congruence.
    assert (cur' = cur) as -> by congruence. rewrite Hk in Hpark. rewrite Hpark in Ep. simpl in Ep.
    apply bool_decide_eq_false in Ep. unfold maxParkOpAttempts in Ep. lia. }
  via_step; [via_tac|]. destruct a as [ref|e]; [|apply handleApplyError_runs; by left].
  via_step; [|via_tac]. apply via_inTx. intros w _ Hw. by apply K_accept.
Qed.

Lemma poll_runs op :
  o_State op = OpExternalAccepted → runs_if (same_op op) (poll cfg OnTerminal op).
Proof.
  intros Hst. unfold poll. apply via_read; [apply _|apply via_try, driverAndAction_reads|intros r].
  destruct r as [[driver act]|e]; [|by apply failOp_runs; rewrite Hst].
  destruct (o_ExternalOp op) as [|ref|]; try (by apply failOp_runs; rewrite Hst).
  apply via_read; [apply _|apply via_try, via_onProv, _|intros [status|e]].
  - destruct (os_State status);
      try first [by apply failOp_runs|by apply reschedule_runs; rewrite Hst].
    assert (∀ g : result bool, o_Kind op = OpKindCreate ∨ o_Kind op = OpKindStart →
      runs_if (same_op op)
        match g with
        | Err gateErr => if decide (o_Kind op = OpKindStart)
            then failOpPhases OnTerminal (o_ID op) OpExternalAccepted gateErr Starting Failed
            else failOp OnTerminal (o_ID op) OpExternalAccepted gateErr
        | Ok false => reschedule cfg op None
        | Ok true => if decide (o_Kind op = OpKindStart)
            then succeedStart OnTerminal op status else succeedCreate OnTerminal op status
        end) as Hgate.
    { intros [[]|e] Hk; [case_decide as Hd|by apply reschedule_runs; rewrite Hst|case_decide as Hd].
      - apply succeedStart_runs; [by rewrite Hst|done].
      - apply succeedCreate_runs; [by rewrite Hst|]. by destruct Hk.
      - apply failOpPhases_runs; [done|by rewrite Hd].
      - by apply failOp_runs. }
    destruct (o_Kind op) eqn:Ek.
    + apply via_read; [apply _|apply readinessGate_reads|intros g]. apply Hgate. auto.
    + apply succeedDelete_runs; done.
    + apply succeedStop_runs; [by rewrite Hst|done].
    + apply via_read; [apply _|apply readinessGate_reads|intros g]. apply Hgate. auto.
  - case_decide; [|by apply reschedule_runs; rewrite Hst].
    case_decide; [by apply succeedDelete_runs|]. destruct (isParkOp _); [by apply failOp_runs|].
    apply via_inTx. intros w _ _. by apply K_transition.
Qed.

Lemma verify_runs op :
  may G (o_ID op) ∨ o_Kind op ≠ OpKindCreate → o_State op = OpVerifying →
  runs_if (same_op op) (verify cfg OnTerminal op).
Proof.
  intros Hg Hst. unfold verify. apply via_read; [apply _|apply via_try, driverAndAction_reads|intros r].
  destruct r as [[driver act]|e]; [|by apply failOp_runs; rewrite Hst].
  apply via_read; [apply _|by intros s|intros t].
  assert (∀ mut, schedules mut →
    runs_if (same_op op) (inTx (Operations_Transition (o_ID op) OpVerifying OpJournaled mut))) as Hback.
  { intros mut Hm. by apply rejournal_runs. }
  destruct (o_Kind op) eqn:Ek; try (by apply Hback).
  - destruct (negb _).
    { apply via_inTx. intros w _ (cur & Hcur & Hk & _). apply K_transition; [done..| |done].
      intros _ o Ho. congruence. }
    apply via_read; [apply _|apply via_try, via_onProv, _|intros [[|obs found]|e]].
    + destruct (match o_VerifyDeadlineAt op with Some _ => _ | None => _ end);
        [by apply reschedule_runs; rewrite Hst|by apply Hback].
    + via_step; [|via_tac]. apply via_inTx. intros w _ Hw. by apply K_adopt.
    + by apply reschedule_runs; rewrite Hst.
  - destruct (ac_Ref act) as [ref|]; [|by apply failOp_runs].
    apply via_read; [apply _|apply via_try, via_onProv, _|intros [got|er]]; [by apply Hback|].
    destruct (IsClass _ _); [by apply succeedDelete_runs|by apply reschedule_runs; rewrite Hst].
Qed.

(** One operation, from the row the batch holds. *)
Lemma drive_runs op : may G (o_ID op) → runs_if (knows op) (drive cfg OnTerminal op).
Proof.
  intros HG. assert (∀ m : M (Sys P) unit, runs_if (same_op op) m → runs_if (knows op) m) as Hw
    by (intros m Hm s Hg [Hs _]; by apply Hm).
  unfold drive. destruct (o_State op) eqn:Hst; try (apply via_ret, _); apply via_ignore.
  - by apply dispatch_runs.
  - by apply Hw, poll_runs.
  - apply Hw, verify_runs; [by left|done].
Qed.

Lemma Engine_Resume_runs : runs Engine_Resume.
Proof.
  unfold Engine_Resume. via_step; [via_tac|]. via_step; [|via_tac].
  apply via_forM; [apply _..|intros op _]. destruct (o_State op); try (apply via_ret, _).
  apply via_inTx. intros w _ _. by apply K_transition.
Qed.
End engine.

(** ** A whole batch *)

Section batch.
Context `{ULID} {P : Type} `{Providers P} `{Rand} `{compute.Network}.
Context (cfg : Engine.Config) (OnTerminal : Operation → M (Sys P) unit).
Hypothesis OnTerminal_runs : ∀ G op, via (steps G (λ _, True)) (OnTerminal op).

Definition dispatching (id : string) : Grant := MkGrant (λ i, i = id) (λ _, True).

Lemma knows_steps id op w w' :
  id ≠ o_ID op → Good w → rtc (kstep (dispatching id)) w w' → knows op w → knows op w'.
Proof.
  intros Hne Hg Hst [H1' H2']. split; [by eapply same_op_steps|].
  eapply attempted_steps; [|done..]. intros Heq. by apply Hne.
Qed.

Lemma any_grant (G : Grant) w w' : rtc (kstep G) w w' → rtc (kstep any_op) w w'.
Proof. apply ksteps_mono, wider_any. Qed.

Lemma drive_all_runs l s :
  NoDup (o_ID <$> l) → Good (sy_World s) → (∀ op, op ∈ l → knows op (sy_World s)) →
  rtc (kstep any_op) (sy_World s) (sy_World (forM_ l (drive cfg OnTerminal) s).2).
Proof.
  revert s. induction l as [|op l IH]; intros s Hnd Hg Hk; [apply rtc_refl|].
  apply NoDup_cons in Hnd as [Hnin Hnd]. simpl.
  assert (rtc (kstep (dispatching (o_ID op))) (sy_World s) (sy_World (drive cfg OnTerminal op s).2))
    as Hd by (apply (drive_runs cfg OnTerminal OnTerminal_runs); [done|done|apply Hk; left]).
  unfold bindM. destruct (drive cfg OnTerminal op s) as [[u|e] s'] eqn:E; simpl in *;
    [|by eapply any_grant].
  etrans; [by eapply any_grant|]. apply IH; [done|by eapply Good_steps|].
  intros op' Hop'. eapply knows_steps; [|done|done|apply Hk; by right].
  intros Heq. apply Hnin. rewrite Heq. by apply list_elem_of_fmap_2.
Qed.

Lemma due_rows t n w :
  keyedW w → let due := limit n (order_by o_CreatedAt (select (due_op t) (db_Operations (w_DB w)))) in
  NoDup (o_ID <$> due) ∧ ∀ op, op ∈ due → knows op w.
Proof.
  intros Hk due. split.
  - apply batch_NoDup. intros k o. apply (keyed_op _ Hk).
  - intros op Hop%elem_of_limit. rewrite elem_of_order_by in Hop.
    apply elem_of_select in Hop as (_ & k & Ho). pose proof (keyed_op _ Hk _ _ Ho) as Hid.
    split; exists op; by rewrite Hid.
Qed.

Lemma Step_runs s :
  Good (sy_World s) → rtc (kstep any_op) (sy_World s) (sy_World (Step cfg OnTerminal s).2).
Proof.
  intros Hg. destruct (due_rows (w_Clock (sy_World s)) (MaxBatch cfg) (sy_World s) (proj1 Hg))
    as [Hnd Hk].
  unfold Step, Operations_Due, clockNow, nowM, onWorld, getsM. unfold bindM at 1 2. simpl.
  set (l := limit _ _) in *. set (s0 := with_sy_World _ (with_sy_World _ s)).
  pose proof (drive_all_runs l s0 Hnd Hg Hk) as Hd. unfold bindM.
  by destruct (forM_ l (drive cfg OnTerminal) s0) as [[u|e] s'].
Qed.
End batch.

(** * The discovery sweep runs along the transition system

    The sweep tombstones the records it read as orphaned, in transactions of
    their own. It is the only writer that takes a record out of orphaned, and
    it does so only for machines it has just seen; so the records it has not
    seen are still orphaned when their turn comes. *)

Section sweep.
Context `{ULID} {P : Type} `{Providers P}.
Context (G : Grant).
Abbreviation runs m := (via (P := P) (steps G (λ _, True)) m).

(** ** Records that stay orphaned *)

Definition orphaned (r : string) (w : World) : Prop :=
  ∃ row, db_Resources (w_DB w) !! r = Some row ∧ r_Phase row = Orphaned.
Definition spare (X : string → Prop) (w w' : World) : Prop := ∀ r, X r → orphaned r w → orphaned r w'.

#[local] Instance spare_refl X : Reflexive (spare X).
Proof. by intros w r. Qed.
#[local] Instance spare_trans X : Transitive (spare X).
Proof. intros w1 w2 w3 H12 H23 r Hr Ho. by apply H23, H12. Qed.

Lemma orphaned_same r w w' : db_Resources (w_DB w') = db_Resources (w_DB w) → orphaned r w → orphaned r w'.
Proof. intros Heq (row & Hr & Hp). exists row. by rewrite Heq. Qed.

Lemma stays_Tx {A} r (m : M World A) : keeps (orphaned r) m → keeps (orphaned r) (Tx m).
Proof. intros Hm w Hw. specialize (Hm w Hw). unfold Tx. by destruct (m w) as [[a|e] w']. Qed.

(** An update of a resource that keeps its phase, or that only fires on rows
    in another phase, or on another row. *)
Lemma keeps_row_update r id (Q : Resource → bool) f e :
  (∀ row, Q row = true → r_Phase row = Orphaned → r = id → r_Phase (f row) = Orphaned) →
  keeps (orphaned r) (row_update db_Resources up_Resources id Q f e).
Proof.
  intros Hf w (row & Hr & Hp). unfold row_update.
  destruct (db_Resources (w_DB w) !! id) as [x|] eqn:Hx; [|by exists row].
  destruct (Q x) eqn:HQ; [|by exists row]. unfold orphaned. simpl.
  destruct (decide (id = r)) as [->|Hne].
  - rewrite lookup_insert_eq. eexists. split; [done|]. apply Hf; [done| |done]. congruence.
  - rewrite lookup_insert_ne by done. by exists row.
Qed.

Lemma keeps_CAS r id p q t : p ≠ Orphaned ∨ id ≠ r → keeps (orphaned r) (Resources_CASPhase id p q t).
Proof.
  intros Hor. apply keeps_row_update. intros row [Hrow _]%andb_true_iff Hp ->.
  apply bool_decide_eq_true in Hrow. destruct Hor; congruence.
Qed.
Lemma stays_MarkDeleted r id t : keeps (orphaned r) (Resources_MarkDeleted id t).
Proof. apply keeps_row_update. by intros row _ Hp _. Qed.
Lemma keeps_Facts r id e c t : keeps (orphaned r) (Resources_SetProviderFacts id e c t).
Proof. apply keeps_row_update. by intros row _ Hp _. Qed.
Lemma stays_PutObserved r s : keeps (orphaned r) (Resources_PutObserved s).
Proof.
  intros w Hw. unfold Resources_PutObserved. destruct (is_some _); [|done]. by eapply orphaned_same.
Qed.
Lemma stays_Create r x : keeps (orphaned r) (Resources_Create x).
Proof.
  intros w (row & Hr & Hp). unfold Resources_Create, row_insert.
  destruct (db_Resources (w_DB w) !! r_ID x) as [y|] eqn:Hx; [by exists row|].
  destruct (_ && _); [|by exists row]. exists row. simpl. rewrite lookup_insert_ne; [done|]. congruence.
Qed.
Lemma stays_Append r o : keeps (orphaned r) (Operations_Append o).
Proof.
  intros w Hw. unfold Operations_Append. case_decide; [|done]. unfold row_insert.
  destruct (db_Operations (w_DB w) !! o_ID o); [done|]. destruct (_ && _); [|done]. by eapply orphaned_same.
Qed.
Lemma stays_Events r ev : keeps (orphaned r) (Events_Append ev).
Proof. intros w Hw. by eapply orphaned_same. Qed.
Lemma stays_newID r p : keeps (orphaned r) (newID p).
Proof. by intros w Hw. Qed.
Local Hint Resolve stays_MarkDeleted keeps_Facts stays_PutObserved stays_Create stays_Append stays_Events
  stays_newID : fp.
Ltac keep := repeat match goal with
  | |- keeps _ (bindM _ _) => apply keeps_bind; [|intros ?]
  | |- keeps _ (match ?x with _ => _ end) => destruct x eqn:?
  | |- keeps _ (let _ := _ in _) => cbv zeta
  | |- keeps _ _ => first [solve [auto with fp] | apply keeps_pure; solve [auto with fp]]
  end.

Lemma keeps_mint r x ev t : keeps (orphaned r) (mintTx x ev t).
Proof. unfold mintTx. keep. Qed.
Lemma keeps_tombstone r x t : keeps (orphaned r) (tombstoneTx x t).
Proof. unfold tombstoneTx. keep. Qed.
Lemma keeps_refresh r x obs t : r_ID x ≠ r → keeps (orphaned r) (refreshTx x obs t).
Proof. intros Hne. unfold refreshTx. keep; apply keeps_CAS; by right. Qed.
Lemma keeps_journalDelete r id t : keeps (orphaned r) (journalDeleteTx id t).
Proof.
  unfold journalDeleteTx. apply keeps_bind; [apply keeps_pure, pure_row_get|intros cur].
  destruct (negb (live cur) || _) eqn:Hc; [by intros w Hw|].
  apply keeps_bind; [by apply keeps_pure|intros _]. unfold journalDeleteInTx.
  assert (r_Phase cur ≠ Orphaned) as Hp.
  { intros Heq. rewrite Heq in Hc. by rewrite orb_true_r in Hc. }
  keep. apply keeps_CAS. by left.
Qed.

(** ** What each part of the sweep spares *)

Lemma spare_inTx {A} X (m : M World A) : (∀ r, X r → keeps (orphaned r) m) → via (P := P) (spare X) (inTx m).
Proof. intros Hm. apply via_onWorld. intros w r Hr. by apply stays_Tx, Hm. Qed.
Lemma spare_onWorld {A} X (m : M World A) : (∀ r, X r → keeps (orphaned r) m) → via (P := P) (spare X) (onWorld m).
Proof. intros Hm. apply via_onWorld. intros w r Hr. by apply Hm. Qed.

Context (dc : DiscoveryConfig) (healthy : string → bool).

Lemma mintRecord_spares X inst obs own t ev : via (P := P) (spare X) (mintRecord inst obs own t ev).
Proof.
  unfold mintRecord. apply via_bind; [apply _|apply spare_onWorld; intros; apply stays_newID|intros id].
  cbv zeta. apply via_bind; [apply _|apply via_try, spare_inTx; intros; apply keeps_mint|].
  intros r. destruct r; apply via_ret; apply _.
Qed.
Lemma handleGhost_spares X inst obs t : via (P := P) (spare X) (handleGhost dc inst obs t).
Proof.
  unfold handleGhost. apply via_bind; [apply _|apply mintRecord_spares|intros [res|]]; [|apply via_ret; apply _].
  destruct (negb _); [apply via_ret; apply _|].
  apply via_bind; [apply _|apply via_try, spare_inTx; intros; apply keeps_CAS; by left|intros [_|e]];
    [|apply via_ret; apply _].
  apply via_bind; [apply _|apply via_try, spare_inTx; intros; apply keeps_journalDelete|intros [_|e]];
    [apply via_engineKick|apply via_ret]; apply _.
Qed.
Lemma resolve_spares X inst obs m ops t : via (P := P) (spare X) (resolveOwnedUnmatched dc inst obs m ops t).
Proof.
  unfold resolveOwnedUnmatched. apply via_bind; [apply _| |intros o].
  { case_decide; [apply via_ret; apply _|]. apply via_bind; [apply _| |intros []; apply via_ret; apply _].
    apply via_try, spare_onWorld. intros r _. apply keeps_pure, pure_row_get. }
  destruct (verdict _ _ _ _); [apply via_ret; apply _|apply handleGhost_spares|].
  apply via_ignore, mintRecord_spares.
Qed.
Lemma sweepObserved_spares (X : string → Prop) inst byExt byID ops t obs :
  (∀ res, byExt !! ref_ID (ob_Ref obs) = Some res → ¬ X (r_ID res)) →
  via (P := P) (spare X) (sweepObserved dc inst byExt byID ops t obs).
Proof.
  intros HX. unfold sweepObserved. destruct (byExt !! _) as [res|] eqn:E.
  - apply via_ignore, spare_inTx. intros r Hr. apply keeps_refresh. intros <-. by eapply HX.
  - destruct (ob_Owned obs); [apply resolve_spares|]. case_decide; [|apply via_ret; apply _].
    apply via_ignore, mintRecord_spares.
Qed.
Lemma confirmOrphan_spares X driver res ext t : via (P := P) (spare X) (confirmOrphan dc driver res ext t).
Proof.
  unfold confirmOrphan. cbv zeta. apply via_bind; [apply _|apply via_try, via_onProv; apply _|intros [ob|e]];
    [apply via_ret; apply _|].
  destruct (negb _); [apply via_ret; apply _|]. case_decide as Hp.
  - case_decide; [apply via_ret; apply _|]. apply via_ignore, spare_inTx. intros. apply keeps_tombstone.
  - destruct (negb _); [apply via_ret; apply _|].
    apply via_bind; [apply _|apply via_try, spare_inTx; intros; apply keeps_CAS; by left|intros [_|e']];
      [|apply via_ret; apply _].
    apply via_ignore, spare_inTx. intros. apply stays_Events.
Qed.

(** ** Runs *)

Lemma mintRecord_runs inst obs own t ev : runs (mintRecord inst obs own t ev).
Proof.
  unfold mintRecord. apply via_bind; [apply _|apply via_quiet, quiet_newID|intros id]. cbv zeta.
  apply via_bind; [apply _| |intros []; apply via_ret; apply _].
  apply via_try, via_inTx. intros w _ _. apply K_mint; [done|done|].
  simpl. case_match; auto.
Qed.
Local Hint Resolve mintRecord_runs : vh.
Lemma handleGhost_runs inst obs t : runs (handleGhost dc inst obs t).
Proof. unfold handleGhost, casPhase, journalDelete. via_tac. Qed.
Local Hint Resolve handleGhost_runs : vh.
Lemma resolve_runs inst obs m ops t : runs (resolveOwnedUnmatched dc inst obs m ops t).
Proof. unfold resolveOwnedUnmatched, readopt. via_tac. Qed.
Local Hint Resolve resolve_runs : vh.
Lemma sweepObserved_runs inst byExt byID ops t obs : runs (sweepObserved dc inst byExt byID ops t obs).
Proof. unfold sweepObserved, refreshObserved, adoptObserved. via_tac. Qed.

(** The conditional run: a record that was read orphaned still is. *)
Definition still (l : list Resource) (w : World) : Prop :=
  ∀ res, res ∈ l → r_Phase res = Orphaned → orphaned (r_ID res) w.
Definition steps_if (l : list Resource) (w w' : World) : Prop :=
  Good w → still l w → rtc (kstep G) w w'.

Lemma confirmOrphan_runs driver res ext t :
  via (P := P) (steps_if [res]) (confirmOrphan dc driver res ext t).
Proof.
  unfold confirmOrphan. cbv zeta. set (ref := if decide _ then _ else _).
  intros s Hg Hst. unfold bindM at 1, tryM at 1.
  destruct (onProv (Get driver ref) s) as [r s1] eqn:E.
  assert (sy_World s1 = sy_World s) as Hw by (unfold onProv in E; destruct (Get driver ref (sy_Prov s)); by simplify_eq).
  destruct r as [ob|e]; [simpl; rewrite Hw; apply rtc_refl|].
  destruct (negb _); [simpl; rewrite Hw; apply rtc_refl|]. case_decide as Hp.
  - case_decide; [simpl; rewrite Hw; apply rtc_refl|]. rewrite <-Hw in Hg, Hst |- *.
    unfold ignoreM, inTx, onWorld. cbn [snd].
    destruct (Tx (tombstoneTx res t) (sy_World s1)) as [r' w'] eqn:E'. simpl.
    replace w' with ((Tx (tombstoneTx res t) (sy_World s1)).2) by (by rewrite E').
    apply rtc_once, K_tombstone. intros row Hrow. destruct (Hst res) as (row' & Hr' & Hp'); [by left|done|].
    congruence.
  - destruct (CanTransition (r_Phase res) Orphaned) eqn:Hcan; [|simpl; rewrite Hw; apply rtc_refl].
    assert (runs (r <- tryM (casPhase (r_ID res) (r_Phase res) Orphaned t) ;;
      match r with
      | Err _ => retM tt
      | Ok _ => ignoreM (inTx (Events_Append (MkEvent t "discovery" "" "resource.orphaned"
                    (Some (r_ID res)) None None (r_Provider res) "orphaned")))
      end)) as Hrun.
    { unfold casPhase. via_step; [|via_tac]. apply via_try, via_inTx. intros w _ _.
      apply K_cas; [done| |done|done]. by destruct (r_Phase res). }
    rewrite <-Hw in Hg. specialize (Hrun s1 Hg I). simpl. rewrite <-Hw. exact Hrun.
Qed.
(** The second loop. *)
Definition confirm (driver : ResourceDriver P) (seen ops : gset string) (t : Z) (res : Resource) : M (Sys P) unit :=
  match r_ExternalID res with
  | Some ext =>
      if decide (ext ∈ seen ∨ r_ID res ∈ ops) then retM tt
      else confirmOrphan dc driver res ext t
  | None => retM tt
  end.
Definition unseen (seen : gset string) (l : list Resource) (r : string) : Prop :=
  ∃ res ext, res ∈ l ∧ r_ID res = r ∧ r_ExternalID res = Some ext ∧ ext ∉ seen.
Definition still_unseen (seen : gset string) (l : list Resource) (w : World) : Prop :=
  ∀ res ext, res ∈ l → r_ExternalID res = Some ext → ext ∉ seen → r_Phase res = Orphaned →
    orphaned (r_ID res) w.

Lemma confirm_all_runs driver seen ops t l s :
  Good (sy_World s) → still_unseen seen l (sy_World s) →
  rtc (kstep G) (sy_World s) (sy_World (forM_ l (confirm driver seen ops t) s).2).
Proof.
  revert s. induction l as [|res l IH]; intros s Hg Hst; simpl; [apply rtc_refl|].
  assert (rtc (kstep G) (sy_World s) (sy_World (confirm driver seen ops t res s).2) ∧
    spare (λ _, True) (sy_World s) (sy_World (confirm driver seen ops t res s).2)) as [Hrun Hsp].
  { unfold confirm. destruct (r_ExternalID res) as [ext|] eqn:Hext; [|split; [apply rtc_refl|done]].
    case_decide as Hd; [split; [apply rtc_refl|done]|]. split; [|apply confirmOrphan_spares].
    apply confirmOrphan_runs; [done|]. intros res' ->%list_elem_of_singleton Hp.
    apply (Hst res ext); [by left|done| |done]. intros Hin. apply Hd. by left. }
  unfold bindM. destruct (confirm driver seen ops t res s) as [[u|e] s1]; simpl in *; [|done].
  etrans; [exact Hrun|]. apply IH; [by eapply Good_steps|].
  intros res' ext Hin He Hs Hp. apply Hsp; [done|]. apply (Hst res' ext); [by right|done..].
Qed.

Lemma index_id_lookup (key : Resource → option string) l k res :
  index key l !! k = Some res → res ∈ l ∧ key res = Some k.
Proof.
  unfold index.
  assert (∀ pre post (m : gmap string Resource), l = pre ++ post → (∀ k res, m !! k = Some res → res ∈ l ∧ key res = Some k) →
    foldl (λ (m : gmap string Resource) x, match key x with Some k => <[k := x]> m | None => m end) m post !! k = Some res →
    res ∈ l ∧ key res = Some k) as Hgen.
  { intros pre post. revert pre. induction post as [|x post IH]; intros pre m Hl Hm; simpl; [apply Hm|].
    apply (IH (pre ++ [x])); [by rewrite <-app_assoc|]. intros k' res'. destruct (key x) as [kx|] eqn:Hk; [|apply Hm].
    rewrite lookup_insert_Some. intros [[<- <-]|[_ ?]]; [|by apply Hm]. split; [|done]. rewrite Hl. set_solver. }
  apply (Hgen [] l ∅); [done|]. intros ? ?. by rewrite lookup_empty.
Qed.

Lemma sweepKind_runs inst kind driver : runs (sweepKind dc healthy inst kind driver).
Proof.
  unfold sweepKind. cbv zeta. set (scope := if decide _ then _ else _).
  apply via_bind; [apply _|apply via_onProv; apply _|intros observed].
  intros s Hg _. unfold bindM at 1, onWorld at 1. unfold Resources_List, getsM. cbv beta iota.
  set (all := select _ _). set (lives := filter _ all).
  assert (∀ res, res ∈ lives → db_Resources (w_DB (sy_World s)) !! r_ID res = Some res) as Hrows.
  { intros res [_ Hin]%list_elem_of_filter. apply elem_of_select in Hin as (_ & k & Hk).
    destruct Hg as [Hkey _]. by rewrite (keyed_res _ Hkey _ _ Hk). }
  set (s0 := with_sy_World (sy_World s) s).
  unfold bindM at 1, onWorld at 1. unfold Operations_NonTerminal, getsM. cbv beta iota.
  set (opens := list_to_set _). set (s1 := with_sy_World (sy_World s0) s0).
  unfold bindM at 1, clockNow, onWorld at 1, nowM, getsM. cbv beta iota.
  set (s2 := with_sy_World (sy_World s1) s1). set (t := w_Clock (sy_World s1)).
  change (sy_World s) with (sy_World s2) in Hg, Hrows |- *. clearbody s2.
  set (seen := list_to_set _ : gset string).
  set (body := sweepObserved dc inst _ _ opens t).
  pose proof (via_forM (steps G (λ _, True)) observed body (λ obs _, sweepObserved_runs _ _ _ _ _ _) s2 Hg I) as Hrun1.
  assert (via (P := P) (spare (unseen seen lives)) (forM_ observed body)) as Hspare.
  { apply via_forM; [apply _..|]. intros obs Hobs. apply sweepObserved_spares. intros res Hres.
    apply index_id_lookup in Hres as [Hin Hext]. intros (res' & ext & Hin' & Hid & Hext' & Hns).
    assert (res' = res) as ->.
    { apply Hrows in Hin, Hin'. rewrite Hid in Hin'. congruence. }
    rewrite Hext in Hext'. injection Hext' as <-. apply Hns. unfold seen. rewrite elem_of_list_to_set.
    by apply (list_elem_of_fmap_2 (λ obs, ref_ID (ob_Ref obs))). }
  specialize (Hspare s2). unfold bindM. destruct (forM_ observed body s2) as [[u|e] s3]; simpl in *; [|done].
  etrans; [exact Hrun1|]. destruct (negb (healthy inst)); [apply rtc_refl|].
  change (rtc (kstep G) (sy_World s3) (sy_World (forM_ lives (confirm driver seen opens t) s3).2)).
  apply confirm_all_runs; [by eapply Good_steps|].
  intros res ext Hin Hext Hns Hp. apply Hspare; [by exists res, ext|].
  exists res. split; [by apply Hrows|done].
Qed.
Local Hint Resolve sweepKind_runs : vh.

Lemma SweepProvider_runs inst : runs (SweepProvider dc healthy inst).
Proof. unfold SweepProvider. via_tac. Qed.

Lemma Discovery_round_runs names : runs (Discovery_round dc healthy names).
Proof.
  unfold Discovery_round. apply via_forM; [apply _..|]. intros name _. apply via_ignore, SweepProvider_runs.
Qed.
End sweep.
