(* ===== verification/Demo.v ===== *)
(** * A small run

    Concrete parameters and a short history of a control plane, the inputs of
    the witnesses: a cloud that accepts everything, two machines created on
    it, the first leased exclusively, the second being parked. *)

From stdpp Require Import base gmap strings list relations pretty.
From S2P Require Import Prelude Errors Json Phase SDK Capacity Types Store Kinds Provision Sys Lease Engine Scheduler Reconcile Discovery App Spec Abs Refine System.

Module Demo.

#[export] Instance numbered : ULID := pretty.

(** The cloud: every call is accepted at once, nothing is ever listed. *)
Definition driver : ResourceDriver unit :=
  MkDriver unit
    (λ _, retM [])
    (λ _, failM (EProvider (MkError ErrNotFound EffectNone "" "" "" "" 0)))
    (λ rq, Ok [MkAction "" "create" (pr_ResourceID rq) None None false])
    (λ a, retM (MkOpRef (ac_ActionID a) (Some (MkRef ("ext-" +:+ ac_ResourceID a) ∅)) None))
    (λ r, retM (MkStatus PvSucceeded (or_Ref r) None None 0)).
Definition cloud : Provider unit :=
  MkProvider unit (MkDescriptor "demo" "demo" [compute.Kind] true) (λ _, Some driver) None None.
#[export] Instance clouds : Providers unit := {|
  Instance_ name := if decide (name = "demo") then Some cloud else None;
  Billing_ _ _ := (MkBilling Hour Minute 0, true);
  Parking_ _ _ := MkPark true Minute
|}.

Definition machine (id : string) : Resource :=
  MkResource id id compute.Kind "demo" "" None OwnershipManaged Provisioning None JNone 0 0
    RawEmpty None (JVal {[ "cpu" := 4 ]}) false false ∅ None None None None 1000 1000 None.
Definition action (id op : string) : Action := MkAction op "create" id None None false.
Definition create (id op : string) : Prepared :=
  MkPrepared (machine id)
    (journaledOp op OpKindCreate (Some id) None "demo" (action id op) 1000).
Definition createOp (id op : string) : Operation := Prepared_Op (create id op).
Definition accepted (id op : string) : OperationRef :=
  MkOpRef op (Some (MkRef ("ext-" +:+ id) ∅)) None.
Definition done : OperationStatus := MkStatus PvSucceeded None None None 0.

Definition request : Acquisition :=
  MkAcquisition "acq" "alice" compute.Kind "" JNone 1 60 AcqPending None None 1000 1000.
Definition unkeyed : Idem := MkIdemCmd "" "" "".

Definition w0 : World := fresh 1000.
Definition w1 : World := (Tx (acquireTx request unkeyed 1000 (λ _, (202, None))) w0).2.
(** A machine, from its journaled create to ready. *)
Definition createRun (id op : string) (w : World) : World :=
  (Tx (journalTx (create id op) "alice" "") w).2.
Definition dispatchRun (op : string) (w : World) : World := (Tx (dispatchTx op 9000) w).2.
Definition acceptRun (id op : string) (w : World) : World :=
  (Tx (acceptTx (createOp id op) (accepted id op)) w).2.
Definition readyRun (id op : string) (w : World) : World :=
  (Tx (succeedRunningTx (with_o_State OpExternalAccepted (createOp id op)) done Provisioning 2000) w).2.
Definition machineRun (id op : string) (w : World) : World :=
  readyRun id op (acceptRun id op (dispatchRun op (createRun id op w))).

Definition w_ready : World := machineRun "r2" "op2" (machineRun "r1" "op1" w1).
Definition w_leased : World :=
  (Tx (reserveTx request "lease" "r1" {[ "cpu" := 2 ]} true 3000) w_ready).2.
Definition w_parking : World := (Tx (stopTx "r2" 4000 "reconciler" true) w_leased).2.
Definition w_released : World := (Tx (releaseTx "lease" 5000) w_parking).2.

Lemma prepared_create id op : prepared (create id op).
Proof. done. Qed.

Definition knows (op : Operation) (w : World) : bool :=
  match db_Operations (w_DB w) !! o_ID op with
  | Some cur => bool_decide (o_Kind cur = o_Kind op ∧ o_ResourceID cur = o_ResourceID op)
  | None => false
  end.
Lemma knows_same_op op w : knows op w = true → same_op op w.
Proof.
  unfold knows. destruct (_ !! _) as [cur|] eqn:E; [|done].
  intros [??]%bool_decide_eq_true. by exists cur.
Qed.

Lemma machineRun_steps id op w :
  same_op (createOp id op) (createRun id op w) →
  same_op (createOp id op) (dispatchRun op (createRun id op w)) →
  same_op (createOp id op) (acceptRun id op (dispatchRun op (createRun id op w))) →
  db_Operations (w_DB (createRun id op w)) !! op = Some (createOp id op) →
  rtc (kstep any_op) w (machineRun id op w).
Proof.
  intros H1 H2 H3 Ho.
  apply (rtc_l _ w (createRun id op w)); [exact (K_create any_op w (create id op) "alice" "" (prepared_create id op) I)|].
  apply (rtc_l _ _ (dispatchRun op (createRun id op w))).
  { refine (K_dispatch any_op _ op 9000 I _). rewrite Ho. intros o [= <-]. discriminate. }
  apply (rtc_l _ _ (acceptRun id op (dispatchRun op (createRun id op w)))).
  { exact (K_accept _ _ (createOp id op) (accepted id op) H2). }
  apply rtc_once.
  refine (K_succeedRunning _ _ (with_o_State OpExternalAccepted (createOp id op)) _ _ _ H3 eq_refl _).
  by left.
Qed.

Lemma steps_ready : rtc (kstep any_op) w0 w_ready.
Proof.
  eapply rtc_l; [by apply (K_acquire _ w0 request unkeyed 1000 (λ _, (202, None)))|].
  fold w1. etrans.
  - apply (machineRun_steps "r1" "op1"); [apply knows_same_op..|]; vm_compute; reflexivity.
  - apply (machineRun_steps "r2" "op2"); [apply knows_same_op..|]; vm_compute; reflexivity.
Qed.

Lemma reach_ready : reachable w_ready.
Proof. exists 1000. apply steps_ready. Qed.
Lemma step_leased : kstep any_op w_ready w_leased.
Proof. apply K_reserve. Qed.
Lemma step_parking : kstep any_op w_leased w_parking.
Proof. apply K_stop. Qed.
Lemma step_released : kstep any_op w_parking w_released.
Proof. apply K_release. Qed.
Lemma reach_leased : reachable w_leased.
Proof. eapply reachable_step; [apply reach_ready|apply step_leased]. Qed.
Lemma reach_parking : reachable w_parking.
Proof. eapply reachable_step; [apply reach_leased|apply step_parking]. Qed.
Lemma reach_released : reachable w_released.
Proof. eapply reachable_step; [apply reach_parking|apply step_released]. Qed.

(** A create whose call is in flight, and one that is being verified. *)
Definition w_flying : World := dispatchRun "op1" (createRun "r1" "op1" w1).
Definition w_verifying : World := (Tx (moveTx "op1" OpInFlight OpVerifying) w_flying).2.
Lemma reach_flying : reachable w_flying.
Proof.
  exists 1000. eapply rtc_l; [by apply (K_acquire _ w0 request unkeyed 1000 (λ _, (202, None)))|].
  fold w1. eapply (rtc_l _ w1 (createRun "r1" "op1" w1)).
  { exact (K_create any_op w1 (create "r1" "op1") "alice" "" (prepared_create "r1" "op1") I). }
  apply rtc_once. refine (K_dispatch any_op _ "op1" 9000 I _).
  intros o Ho. vm_compute in Ho. injection Ho as <-. done.
Qed.
Lemma reach_verifying : reachable w_verifying.
Proof.
  eapply reachable_step; [apply reach_flying|].
  by apply (K_transition _ w_flying "op1" OpInFlight OpVerifying (with_o_NextAttemptAt None)).
Qed.
(** The process around a world, at a time. *)
Definition at_time (now : Z) (w : World) : Sys unit :=
  MkSys (with_w_Clock now w) tt false None false ∅ ∅ ∅ ∅ 0.
Lemma reach_at now w : reachable w → reachable (sy_World (at_time now w)).
Proof.
  intros Hr. apply (reachable_step w); [done|].
  apply (K_aside _ w (modifyM (with_w_Clock now))). intros w'. by split_and!.
Qed.
Definition op_row (w : World) (id : string) : Operation :=
  default (createOp "" "") (db_Operations (w_DB w) !! id).

(** A row the witnesses look at. *)
Definition lease : Lease := MkLease "lease" "acq" "r1" "alice" (JVal {[ "cpu" := 2 ]}) true
  LeaseActive (Some 63000) 3000 None.
Lemma lease_row : db_Leases (w_DB w_leased) !! "lease" = Some lease.
Proof. by vm_compute. Qed.
End Demo.
