(* ===== verification/Safety.v ===== *)
(** * What every committed database satisfies

    The invariants of [Spec.v], read off the tables of any world the
    transactions can produce, in any order and with crashes in between. *)

From stdpp Require Import base gmap strings list relations.
From S2P Require Import Prelude Errors Json Phase SDK Capacity Types Store Kinds Provision Sys Lease Engine Scheduler Reconcile Discovery App Spec Abs Refine System Demo.

(** Rows of the tables, by what they are to the protocol. *)
Definition active_lease (w : World) (k : string) (l : Lease) : Prop :=
  db_Leases (w_DB w) !! k = Some l ∧ l_State l = LeaseActive.
Definition live_row (w : World) (k : string) (r : Resource) : Prop :=
  db_Resources (w_DB w) !! k = Some r ∧ live r = true.
Definition open_op (w : World) (k : string) (o : Operation) : Prop :=
  db_Operations (w_DB w) !! k = Some o ∧ open o = true.

Section safety.
Context `{ULID} {P : Type} `{Providers P}.
Implicit Types (w : World).

Lemma active_lease_abs w k l : active_lease w k l →
  fl_leases (fleet w) !! k = Some (MkALease (l_AcquisitionID l) (l_ResourceID l) (l_Exclusive l)).
Proof. intros [H1 H2]. apply abs_lease_lookup; [done|]. by apply bool_decide_eq_true. Qed.

Lemma abs_active_lease w k x : fl_leases (fleet w) !! k = Some x →
  ∃ l, active_lease w k l ∧ l_AcquisitionID l = al_acq x ∧ l_ResourceID l = al_res x.
Proof.
  intros (l & Hl & Ha & ->)%abs_lease_inv. exists l. split; [|done]. split; [done|].
  by apply bool_decide_eq_true in Ha.
Qed.

Lemma abs_live_row w k p e : fl_res (fleet w) !! k = Some (MkARes p true e) →
  ∃ r, live_row w k r ∧ r_Phase r = p ∧ is_some (r_ExternalID r) = e.
Proof.
  simpl. rewrite lookup_fmap. intros (r & Hr & Hab)%fmap_Some. injection Hab as -> Hl ->.
  by exists r.
Qed.

Lemma live_row_abs w k r : live_row w k r →
  fl_res (fleet w) !! k = Some (MkARes (r_Phase r) true (is_some (r_ExternalID r))).
Proof. intros [H1 H2]. rewrite (abs_res_lookup _ _ _ H1). unfold abs_res. by rewrite H2. Qed.

(** C4: a machine under an active lease is on record, not tombstoned, and
    is neither being deleted nor being stopped: no command, sweep or
    operation takes leased capacity away. *)
Theorem leased_machine_kept w k l :
  reachable w → active_lease w k l →
  ∃ r, live_row w (l_ResourceID l) r ∧ r_Phase r ≠ Deleting ∧ r_Phase r ≠ Parking.
Proof.
  intros [_ HI]%Good_reachable Hl%active_lease_abs.
  destruct (inv_lease_res _ HI _ _ Hl) as (p & e & Hr & Hd & Hpk).
  apply abs_live_row in Hr as (r & Hr & <- & _). eauto.
Qed.

(** C11: an exclusive active lease is the only active lease on its machine. *)
Theorem exclusive_lease_alone w k k' l l' :
  reachable w → active_lease w k l → active_lease w k' l' →
  l_ResourceID l = l_ResourceID l' → l_Exclusive l = true → k = k'.
Proof.
  intros [_ HI]%Good_reachable H1%active_lease_abs H2%active_lease_abs.
  apply (inv_exclusive _ HI _ _ _ _ H1 H2).
Qed.

(** C14: bound acquisitions and active leases are in bijection: a bound
    acquisition points at an active lease of its own, and the acquisition
    of an active lease is bound to it. *)
Theorem bound_iff_leased w :
  reachable w →
  (∀ a acq, db_Acquisitions (w_DB w) !! a = Some acq → a_State acq = AcqBound →
     ∃ l, active_lease w (default "" (a_LeaseID acq)) l ∧ l_AcquisitionID l = a) ∧
  (∀ k l, active_lease w k l →
     ∃ acq, db_Acquisitions (w_DB w) !! l_AcquisitionID l = Some acq ∧
            a_State acq = AcqBound ∧ default "" (a_LeaseID acq) = k).
Proof.
  intros [_ HI]%Good_reachable. split.
  - intros a acq Ha Hst. apply abs_acq_lookup in Ha. unfold abs_acq in Ha. rewrite Hst in Ha.
    destruct (inv_bound _ HI _ _ Ha) as (x & Hx & <-).
    apply abs_active_lease in Hx as (l & Hl & Hla & _). eauto.
  - intros k l Hl%active_lease_abs. pose proof (inv_lease_acq _ HI _ _ Hl) as Ha. simpl in Ha.
    rewrite lookup_fmap in Ha. apply fmap_Some in Ha as (acq & Ha & Hab).
    exists acq. unfold abs_acq in Hab. destruct (a_State acq); simplify_eq. done.
Qed.

(** A machine in phase allocated has an active lease: the last lease to
    end takes it back to ready, so no machine is stranded. *)
Theorem allocated_is_leased w k r :
  reachable w → live_row w k r → r_Phase r = Allocated →
  ∃ j l, active_lease w j l ∧ l_ResourceID l = k.
Proof.
  intros [_ HI]%Good_reachable Hr%live_row_abs Hp. rewrite Hp in Hr.
  destruct (inv_allocated _ HI _ _ Hr) as (j & x & Hx & <-).
  apply abs_active_lease in Hx as (l & Hl & _ & Hlr). eauto.
Qed.

(** C13: at most one operation per resource is open, and every operation, open
    or over, is about a resource on record. *)
Theorem one_open_operation w :
  reachable w →
  (∀ k o, db_Operations (w_DB w) !! k = Some o →
     ∃ r, o_ResourceID o = Some r ∧ is_Some (db_Resources (w_DB w) !! r)) ∧
  (∀ k k' o o', open_op w k o → open_op w k' o' → o_ResourceID o = o_ResourceID o' → k = k').
Proof.
  intros [_ HI]%Good_reachable. split.
  - intros k o H1%abs_op_lookup. destruct (inv_op_res _ HI _ _ H1) as (r & y & Hor & Hy). exists r. split; [done|].
    simpl in Hy. rewrite lookup_fmap in Hy. apply fmap_Some in Hy as (x & -> & _). done.
  - intros k k' o o' [H1 Ho1] [H2 Ho2] Hr. apply abs_op_lookup in H1, H2.
    by apply (inv_one_op _ HI _ _ _ _ H1 H2).
Qed.

(** C12: an open delete, stop or start holds its machine, live and with an
    external id, in deleting, parking or starting; and a live machine in
    one of these phases has the open operation that will get it out. *)
Theorem journal_owns_phase w :
  reachable w →
  (∀ k o p, open_op w k o → held_phase (o_Kind o) = Some p →
     ∃ id r, o_ResourceID o = Some id ∧ live_row w id r ∧ r_Phase r = p ∧
             is_Some (r_ExternalID r)) ∧
  (∀ id r, live_row w id r → held (r_Phase r) = true →
     ∃ k o, open_op w k o ∧ o_ResourceID o = Some id ∧
            held_phase (o_Kind o) = Some (r_Phase r)).
Proof.
  intros [_ HI]%Good_reachable. split.
  - intros k o p [Ho Hop] Hk. apply abs_op_lookup in Ho.
    destruct (inv_held _ HI _ _ _ Ho Hop Hk) as (id & Hid & Hr).
    apply abs_live_row in Hr as (r & Hr & Hp & He). exists id, r. split_and!; try done.
    destruct (r_ExternalID r); [done|discriminate].
  - intros id r Hr%live_row_abs Hh.
    destruct (inv_owner _ HI _ _ _ Hr Hh) as (k & x & Hx & Hop & Hres & Hk).
    apply abs_op_inv in Hx as (o & Ho & ->). exists k, o. by split_and!.
Qed.

(** C22: the journal is well formed: an operation is open exactly while its
    state is not terminal, only creates freeze uncertain, and a stop or a
    start is dispatched at most eight times. *)
Theorem journal_wellformed w k o :
  reachable w → db_Operations (w_DB w) !! k = Some o →
  open o = negb (Terminal (o_State o)) ∧
  (o_State o = OpUncertain → o_Kind o = OpKindCreate) ∧
  (isParkOp (o_Kind o) = true → o_Attempt o ≤ maxParkOpAttempts).
Proof.
  intros [_ HI]%Good_reachable Ho%abs_op_lookup. split_and!.
  - by apply (inv_op_open _ HI _ _ Ho).
  - by apply (inv_uncertain _ HI _ _ Ho).
  - apply (inv_attempts _ HI _ _ Ho).
Qed.

(** C23: along any history a resource stays on record, its phase moves along
    the transition table, a tombstone is final with the phase it was put
    in, and an external id is never lost. *)
Theorem resource_history w w' id r :
  reachable w → rtc (kstep any_op) w w' → db_Resources (w_DB w) !! id = Some r →
  ∃ r', db_Resources (w_DB w') !! id = Some r' ∧
    rtc phase_step (r_Phase r) (r_Phase r') ∧
    (live r = false → live r' = false ∧ r_Phase r' = r_Phase r) ∧
    (is_Some (r_ExternalID r) → is_Some (r_ExternalID r')).
Proof.
  intros Hg%Good_reachable Hst%ksteps_refine Hr%abs_res_lookup; [|done].
  destruct (steps_res _ _ _ _ Hst Hr) as (x & Hx & H1 & H2 & H3).
  simpl in Hx. rewrite lookup_fmap in Hx. apply fmap_Some in Hx as (r' & Hr' & ->).
  exists r'. split_and!; try done. simpl in H3.
  destruct (r_ExternalID r), (r_ExternalID r'); intros [? [=]]; eauto. by specialize (H3 eq_refl).
Qed.

(** Along any history an operation keeps its kind and its resource, a
    terminal one keeps its state, an open one moves along the journal's
    state machine (ADR-017), and attempts only grow. *)
Theorem operation_history w w' id o :
  reachable w → rtc (kstep any_op) w w' → db_Operations (w_DB w) !! id = Some o →
  ∃ o', db_Operations (w_DB w') !! id = Some o' ∧
    o_Kind o' = o_Kind o ∧ o_ResourceID o' = o_ResourceID o ∧
    (open o = false → o_State o' = o_State o ∧ open o' = false ∧ o_Attempt o' = o_Attempt o) ∧
    rtc (λ a b, op_step a b = true) (o_State o) (o_State o') ∧
    o_Attempt o ≤ o_Attempt o'.
Proof.
  intros Hg%Good_reachable Hst%ksteps_refine Ho%abs_op_lookup; [|done].
  destruct (steps_ops _ _ _ _ Hst Ho) as (x & Hx & H1 & H2 & H3 & H4 & H5).
  apply abs_op_inv in Hx as (o' & Ho' & ->). exists o'. split_and!; try done.
  intros Hop. specialize (H3 Hop). 
  split_and!; [apply (f_equal ao_state H3)| |apply (f_equal ao_attempt H3)].
  rewrite <-Hop. apply (f_equal ao_open H3).
Qed.
End safety.

(** ** The demonstration run *)

Import Demo.

Lemma leased_machine_kept_witness :
  ∃ r, live_row w_leased "r1" r ∧ r_Phase r ≠ Deleting ∧ r_Phase r ≠ Parking.
Proof.
  apply (leased_machine_kept w_leased "lease" lease); [apply reach_leased|].
  split; [apply lease_row|reflexivity].
Defined.

Lemma exclusive_lease_alone_witness : "lease" = "lease".
Proof.
  apply (exclusive_lease_alone w_leased "lease" "lease" lease lease);
    [apply reach_leased|split; [apply lease_row|reflexivity]..|reflexivity|reflexivity].
Defined.

Lemma bound_iff_leased_witness :
  ∃ acq, db_Acquisitions (w_DB w_leased) !! "acq" = Some acq ∧
         a_State acq = AcqBound ∧ default "" (a_LeaseID acq) = "lease".
Proof.
  apply (proj2 (bound_iff_leased w_leased reach_leased) "lease" lease).
  split; [apply lease_row|reflexivity].
Defined.

Lemma allocated_is_leased_witness : ∃ j l, active_lease w_leased j l ∧ l_ResourceID l = "r1".
Proof.
  destruct (db_Resources (w_DB w_leased) !! "r1") as [r|] eqn:E; [|vm_compute in E; discriminate].
  apply (allocated_is_leased w_leased "r1" r); [apply reach_leased|split; [exact E|]|];
    vm_compute in E; injection E as <-; reflexivity.
Defined.

(** The create of [r2] is over, its stop is open, and nothing else is. *)
Lemma one_open_operation_witness :
  (∃ o r, db_Operations (w_DB w_parking) !! "op2" = Some o ∧ o_State o = OpSucceeded ∧ o_ResourceID o = Some r ∧
     is_Some (db_Resources (w_DB w_parking) !! r)) ∧
  (∃ o, open_op w_parking "op_0" o ∧ ∀ k o', open_op w_parking k o' → o_ResourceID o = o_ResourceID o' → "op_0" = k).
Proof.
  destruct (one_open_operation w_parking reach_parking) as [Hrec Hone]. split.
  - destruct (db_Operations (w_DB w_parking) !! "op2") as [o|] eqn:E; [|vm_compute in E; discriminate].
    destruct (Hrec "op2" o E) as (r & Hr & Hi). exists o, r. split; [done|]. split; [|by split].
    vm_compute in E; injection E as <-; reflexivity.
  - destruct (db_Operations (w_DB w_parking) !! "op_0") as [o|] eqn:E; [|vm_compute in E; discriminate].
    assert (open_op w_parking "op_0" o) as Ho.
    { split; [exact E|]. vm_compute in E; injection E as <-; reflexivity. }
    exists o. split; [exact Ho|]. intros k o' Ho' Hr. exact (Hone "op_0" k o o' Ho Ho' Hr).
Defined.

Lemma journal_owns_phase_witness :
  ∃ k o, open_op w_parking k o ∧ o_ResourceID o = Some "r2" ∧ held_phase (o_Kind o) = Some Parking.
Proof.
  destruct (db_Resources (w_DB w_parking) !! "r2") as [r|] eqn:E; [|vm_compute in E; discriminate].
  assert (live r = true ∧ r_Phase r = Parking) as [Hl Hp]
    by (vm_compute in E; injection E as <-; done).
  rewrite <-Hp. apply (proj2 (journal_owns_phase w_parking reach_parking) "r2" r (conj E Hl)).
  by rewrite Hp.
Defined.

Lemma journal_wellformed_witness :
  ∃ o, db_Operations (w_DB w_parking) !! "op_0" = Some o ∧ o_Attempt o ≤ maxParkOpAttempts.
Proof.
  destruct (db_Operations (w_DB w_parking) !! "op_0") as [o|] eqn:E; [|vm_compute in E; discriminate].
  exists o. split; [done|]. apply (journal_wellformed w_parking "op_0" o reach_parking E).
  vm_compute in E; injection E as <-; reflexivity.
Defined.

Lemma resource_history_witness :
  ∃ r', db_Resources (w_DB w_released) !! "r1" = Some r' ∧ rtc phase_step Ready (r_Phase r').
Proof.
  destruct (db_Resources (w_DB w_ready) !! "r1") as [r|] eqn:E; [|vm_compute in E; discriminate].
  assert (r_Phase r = Ready) as Hp by (vm_compute in E; injection E as <-; done).
  destruct (resource_history w_ready w_released "r1" r reach_ready) as (r' & Hr' & Hst & _);
    [|exact E|].
  - eapply rtc_l; [apply step_leased|]. eapply rtc_l; [apply step_parking|].
    apply rtc_once, step_released.
  - exists r'. rewrite <-Hp. by split.
Defined.

Lemma operation_history_witness :
  ∃ o', db_Operations (w_DB w_released) !! "op1" = Some o' ∧ o_State o' = OpSucceeded.
Proof.
  destruct (db_Operations (w_DB w_ready) !! "op1") as [o|] eqn:E; [|vm_compute in E; discriminate].
  assert (open o = false ∧ o_State o = OpSucceeded) as [Hop Hs]
    by (vm_compute in E; injection E as <-; done).
  destruct (operation_history w_ready w_released "op1" o reach_ready)
    as (o' & Ho' & _ & _ & Hf & _); [|exact E|].
  - eapply rtc_l; [apply step_leased|]. eapply rtc_l; [apply step_parking|].
    apply rtc_once, step_released.
  - exists o'. split; [done|]. destruct (Hf Hop) as (-> & _). exact Hs.
Defined.
