(* ===== verification/Process.v ===== *)
(** * The process (internal/boot)

    The goroutines of the server and what each of their rounds runs: the API
    commands, the engine's loop, the reconciler's loop, the discovery loop, the
    lease and acquisition sweeps, and what boot runs first. Any sequence of them, from
    an empty database, stays in the worlds [Safety.v] speaks of. *)

From stdpp Require Import base gmap strings list relations.
From S2P Require Import Prelude Errors Json Phase SDK Capacity Types Store Kinds Classes Provision Sys Lease Engine Scheduler Reconcile Discovery App Spec Abs Refine System Via Handlers Demo.

Section process.
Context `{ULID} {P : Type} `{Providers P} `{Rand} `{compute.Network}.

(** What the configuration fixes. *)
Record Boot := MkBoot {
  bt_Engine : Engine.Config;
  bt_Reconcile : Reconcile.Config;
  bt_Discovery : DiscoveryConfig;
  bt_Owner : string;
  bt_PendingTimeout : Z
}.
Context (b : Boot).

(** [engine.OnTerminal]; the cost observer only feeds metrics. *)
Definition onTerminal (op : Operation) : M (Sys P) unit :=
  Reconciler_HandleOpTerminal (bt_Reconcile b) op ;;;
  Scheduler_HandleOpTerminal op.

(** One round of one goroutine. *)
Inductive Activity :=
(* boot, before anything serves *)
| BootResume | BootSeedClasses (classes : gmap string Class_) (nowMs : Z)
(* the loops *)
| EngineRound | ReconcileRound (tick : bool)
| LeaseRound | AcquisitionRound
| DiscoveryRound (names : list string) (healthy : string → bool)
(* the API *)
| ApiCreate (cmd : CreateResourceCmd) (respond : Resource → Z * option string)
| ApiDelete (id actor : string) (dryRun : bool) (i : Idem) (respond : Resource → Z * option string)
| ApiPark (id actor : string) | ApiStart (id actor : string)
| ApiDrain (id actor : string) | ApiUndrain (id actor : string)
| ApiProtect (id : string) (protected : bool) (actor : string)
| ApiResolve (id action actor : string)
| ApiAcquire (cmd : AcquireCmd) (respond : Acquisition → Z * option string)
| ApiRelease (id : string)
| ApiUpsertPool (cmd : UpsertPoolCmd) | ApiPausePool (id : string) (paused : bool) (actor : string)
| ApiDeletePool (id actor : string) | ApiReconcilePool (id : string)
| ApiUpsertClass (cmd : UpsertClassCmd) | ApiDeleteClass (name actor : string).

Definition act (a : Activity) : M (Sys P) unit :=
  match a with
  | BootResume => Engine_Resume
  | BootSeedClasses classes t => inTx (SeedConfigClasses classes t)
  | EngineRound => ignoreM (Step (bt_Engine b) onTerminal)
  | ReconcileRound tick => Reconciler_round (bt_Reconcile b) (bt_Owner b) tick
  | LeaseRound => ignoreM SweepExpired
  | AcquisitionRound => Scheduler_Resume (bt_Owner b) (bt_PendingTimeout b)
  | DiscoveryRound names healthy => Discovery_round (bt_Discovery b) healthy names
  | ApiCreate cmd respond => ignoreM (CreateResource (bt_Owner b) cmd respond)
  | ApiDelete id actor dry i respond => ignoreM (DeleteResource id actor dry i respond)
  | ApiPark id actor => ParkResource id actor
  | ApiStart id actor => StartResource id actor
  | ApiDrain id actor => DrainResource id actor
  | ApiUndrain id actor => UndrainResource id actor
  | ApiProtect id p actor => SetResourceProtected id p actor
  | ApiResolve id action actor => ResolveOperation id action actor
  | ApiAcquire cmd respond =>
      ignoreM (Acquire (bt_Owner b) (bt_PendingTimeout b) cmd respond)
  | ApiRelease id => Service_Release id
  | ApiUpsertPool cmd => ignoreM (UpsertPool cmd)
  | ApiPausePool id p actor => SetPoolPaused id p actor
  | ApiDeletePool id actor => DeletePool id actor
  | ApiReconcilePool id => ReconcilePool id
  | ApiUpsertClass cmd => ignoreM (UpsertClass (bt_PendingTimeout b) cmd)
  | ApiDeleteClass name actor => DeleteClass name actor
  end.

(** Rounds one after the other, the clock set anew before each. *)
Fixpoint run (l : list (Z * Activity)) (s : Sys P) : Sys P :=
  match l with
  | [] => s
  | (now, a) :: l => run l (act a (with_sy_World (with_w_Clock now (sy_World s)) s)).2
  end.

Lemma onTerminal_runs G op : via (steps G (λ _, True)) (onTerminal op).
Proof.
  apply via_bind; [apply _|apply Reconciler_HandleOpTerminal_runs|intros _].
  apply Scheduler_HandleOpTerminal_runs.
Qed.

Lemma act_runs a s :
  Good (sy_World s) → rtc (kstep any_op) (sy_World s) (sy_World (act a s).2).
Proof.
  intros Hg. assert (plans any_op (bt_Owner b)) as Hpl by done. destruct a; simpl;
    try (by apply (Step_runs _ _ onTerminal_runs));
    first [by apply Engine_Resume_runs|by apply SeedConfigClasses_runs|by apply Reconciler_round_runs
      |by apply SweepExpired_runs|by apply Discovery_round_runs|by apply Scheduler_Resume_runs
      |by apply CreateResource_runs|by apply DeleteResource_runs|by apply ParkResource_runs
      |by apply StartResource_runs|by apply DrainResource_runs|by apply UndrainResource_runs
      |by apply SetResourceProtected_runs|by apply ResolveOperation_runs|by apply Acquire_runs
      |by apply Service_Release_runs|by apply UpsertPool_runs|by apply SetPoolPaused_runs
      |by apply DeletePool_runs|by apply ReconcilePool_runs|by apply UpsertClass_runs
      |by apply DeleteClass_runs].
Qed.

Lemma tick now w : kstep any_op w (with_w_Clock now w).
Proof. by apply (K_aside _ w (modifyM (with_w_Clock now))). Qed.

Lemma run_runs l s :
  Good (sy_World s) → rtc (kstep any_op) (sy_World s) (sy_World (run l s)).
Proof.
  revert s. induction l as [|[now a] l IH]; intros s Hg; simpl; [apply rtc_refl|].
  set (s0 := with_sy_World _ s).
  assert (Good (sy_World s0)) as Hg0 by (eapply Good_step; [done|apply tick]).
  eapply rtc_l; [apply (tick now)|]. etrans; [by apply (act_runs a s0)|].
  apply IH. eapply Good_steps; [done|]. by apply act_runs.
Qed.

(** C3: whatever rounds the goroutines and the API run, in whatever order,
    with whatever arguments, answers of the clouds and clock, from a world
    the process can be in: every one of their transactions is a step of the
    lifecycle protocol, and the world stays one the process can be in. *)
Theorem process_refines_protocol l s :
  reachable (sy_World s) →
  reachable (sy_World (run l s)) ∧
  rtc astep (fleet (sy_World s)) (fleet (sy_World (run l s))).
Proof.
  intros Hr. pose proof (Good_reachable _ Hr) as Hg. pose proof (run_runs l s Hg) as Hst.
  split; [|by eapply ksteps_refine]. destruct Hr as [now H0']. exists now. by etrans.
Qed.
End process.

(** ** A run of the whole process *)

Import Demo.

#[local] Instance steady : Rand := λ _, 2 ^ 52.
#[local] Instance offline : compute.Network :=
  {| compute.dial _ _ _ := false; compute.http_get _ _ _ _ := None |}.

Definition boot : Boot :=
  MkBoot (Engine.defaults (Engine.MkConfig 0 0 0 0 0)) (Reconcile.defaults (Reconcile.MkConfig 0 0 0 0))
    (discovery_defaults (MkDiscovery 0 0 "" "")) "owner" 600000.
Definition booted : Sys unit :=
  MkSys (fresh 0) tt false None false ∅ ∅ ∅ ∅ 0.
Definition machineSpec : raw :=
  RawDoc (JObj [("serverType", JStr "small"); ("image", JStr "debian"); ("location", JStr "here")]).
Definition rounds : list (Z * Activity) :=
  [(1000, ApiCreate (MkCreateCmd compute.Kind "demo" "m" "" machineSpec ∅ "alice" unkeyed)
            (λ _, (202, None)));
   (2000, EngineRound); (4000, EngineRound);
   (5000, ApiAcquire (MkAcquireCmd compute.Kind "" true (JVal ∅) true 1 (60 * Second) 0 "alice" unkeyed)
            (λ _, (202, None)));
   (6000, ReconcileRound true); (70000, LeaseRound);
   (80000, DiscoveryRound ["demo"] (λ _, true))].

Lemma process_refines_protocol_witness :
  reachable (sy_World (run boot rounds booted)) ∧
  (λ r, (r_Phase r, r_LastLeaseEndedAt r)) <$> db_Resources (w_DB (sy_World (run boot rounds booted))) !! "res_0"
    = Some (Orphaned, Some 70000).
Proof.
  split; [|vm_compute; reflexivity].
  apply (process_refines_protocol boot rounds booted). exists 0. apply rtc_refl.
Defined.
