(* ===== verification/LeaseFacts.v ===== *)
(** * What the lease manager does

    In a world the process can be in, the end of an active lease cannot fail,
    and it does exactly what it should; so a sweep ends every lease it finds
    due. *)

From stdpp Require Import base gmap strings list relations sorting.
From S2P Require Import Prelude Errors Json Phase SDK Capacity Types Store Kinds Classes Provision Sys Lease Spec Abs Refine System Via Handlers Demo Safety.

(** ** Statements that succeed *)

Lemma row_update_run {A} (t : DB → gmap string A) up id (P : A → bool) f e w x :
  t (w_DB w) !! id = Some x → P x = true →
  row_update t up id P f e w = (Ok tt, up (insert id (f x)) w).
Proof. intros Hx HP. unfold row_update. by rewrite Hx, HP. Qed.
Lemma row_get_run {A} (t : DB → gmap string A) id w x :
  t (w_DB w) !! id = Some x → row_get t id w = (Ok x, w).
Proof. intros Hx. unfold row_get. by rewrite Hx. Qed.
Lemma Tx_run {A} (m : M World A) w a w' : m w = (Ok a, w') → Tx m w = (Ok a, w').
Proof. intros Hm. unfold Tx. by rewrite Hm. Qed.

(** What the end of a lease makes of its row, its acquisition, its machine. *)
Definition ended (to : LeaseState) (t : Z) (l : Lease) : Lease :=
  with_l_State to (with_l_EndedAt (Some t) l).
Definition over_acq (to : AcqState) (t : Z) (a : Acquisition) : Acquisition :=
  with_a_State to (with_a_UpdatedAt t a).
Definition idled (t : Z) (r : Resource) : Resource :=
  with_r_LastLeaseEndedAt (Some t) (with_r_UpdatedAt t r).
Definition freed (last : bool) (t : Z) (r : Resource) : Resource :=
  if last && bool_decide (r_Phase r = Allocated) then cas_row Allocated Ready t (idled t r)
  else idled t r.
(** No other active lease on the machine. *)
Definition is_last (id rid : string) (ls : gmap string Lease) : bool :=
  bool_decide (select (active_on rid) (delete id ls) = []).

Section facts.
Context `{ULID} {P : Type} `{Providers P}.

Lemma select_ended id l to t rid (ls : gmap string Lease) :
  to ≠ LeaseActive → ls !! id = Some l →
  (select (active_on rid) (<[id := ended to t l]> ls) = [] ↔ select (active_on rid) (delete id ls) = []).
Proof.
  intros Hto Hl.
  assert (∀ x, x ∈ select (active_on rid) (<[id := ended to t l]> ls) ↔
               x ∈ select (active_on rid) (delete id ls)) as Hiff.
  { intros x. rewrite !elem_of_select. split; intros (Ha & k & Hk); (split; [done|]); exists k.
    - apply lookup_insert_Some in Hk as [[<- <-]|[Hne Hk]].
      + unfold active_on, active in Ha. simpl in Ha.
        rewrite (bool_decide_eq_false_2 _ Hto), andb_false_r in Ha. done.
      + by rewrite lookup_delete_ne.
    - apply lookup_delete_Some in Hk as [Hne Hk]. by rewrite lookup_insert_ne. }
  split; intros Hnil.
  - destruct (select _ (delete id ls)) as [|x xs]; [done|]. exfalso.
    assert (x ∈ ([] : list Lease)) as Hx by (rewrite <-Hnil; apply Hiff; left). by apply elem_of_nil in Hx.
  - destruct (select _ (<[id:=_]> ls)) as [|x xs]; [done|]. exfalso.
    assert (x ∈ ([] : list Lease)) as Hx by (rewrite <-Hnil; apply Hiff; left). by apply elem_of_nil in Hx.
Qed.

(** The rows an active lease hangs on. *)
Lemma lease_rows w k l : Good w → active_lease w k l →
  ∃ r acq, db_Resources (w_DB w) !! l_ResourceID l = Some r ∧ live r = true ∧
    db_Acquisitions (w_DB w) !! l_AcquisitionID l = Some acq ∧ a_State acq = AcqBound ∧
    a_ID acq = l_AcquisitionID l.
Proof.
  intros [Hk HI] Hl%active_lease_abs.
  destruct (inv_lease_res _ HI _ _ Hl) as (p & e & Hr & _).
  apply abs_live_row in Hr as (r & [Hr Hlive] & _).
  pose proof (inv_lease_acq _ HI _ _ Hl) as Ha. simpl in Ha. rewrite lookup_fmap in Ha.
  apply fmap_Some in Ha as (acq & Ha & Hab). exists r, acq. split_and!; try done.
  - unfold abs_acq in Hab. by destruct (a_State acq).
  - by apply (keyed_acq _ Hk).
Qed.

Lemma count_nil {A} (l : list A) : Z.of_nat (length l) = 0 ↔ l = [].
Proof. destruct l; simpl; split; intros; [done|done|lia|done]. Qed.

Lemma finishLease_run w l to acqTo ev t :
  Good w → active_lease w (l_ID l) l → to = LeaseReleased ∨ to = LeaseExpired →
  ∃ r acq w', db_Resources (w_DB w) !! l_ResourceID l = Some r ∧
    db_Acquisitions (w_DB w) !! l_AcquisitionID l = Some acq ∧
    finishLease l to acqTo ev t w = (Ok (r_PoolID r), w') ∧
    db_Leases (w_DB w') = <[l_ID l := ended to t l]> (db_Leases (w_DB w)) ∧
    db_Acquisitions (w_DB w') = <[l_AcquisitionID l := over_acq acqTo t acq]> (db_Acquisitions (w_DB w)) ∧
    db_Resources (w_DB w') =
      <[l_ResourceID l := freed (is_last (l_ID l) (l_ResourceID l) (db_Leases (w_DB w))) t r]>
        (db_Resources (w_DB w)) ∧
    db_Operations (w_DB w') = db_Operations (w_DB w) ∧ w_Clock w' = w_Clock w.
Proof.
  intros Hg Hact Hto. destruct (lease_rows _ _ _ Hg Hact) as (r & acq & Hr & Hlive & Ha & Hst & Hid).
  destruct Hact as [Hl Hls]. exists r, acq.
  set (w1 := up_Leases (insert (l_ID l) (ended to t l)) w).
  set (w2 := up_Acquisitions (insert (l_AcquisitionID l) (over_acq acqTo t acq)) w1).
  set (w3 := up_Resources (insert (l_ResourceID l) (idled t r)) w2).
  set (last := is_last (l_ID l) (l_ResourceID l) (db_Leases (w_DB w))).
  set (w4 := if last && bool_decide (r_Phase r = Allocated)
             then up_Resources (insert (l_ResourceID l) (freed last t r)) w3 else w3).
  assert (Leases_Transition (l_ID l) LeaseActive to t w = (Ok tt, w1)) as H1.
  { unfold Leases_Transition. rewrite (row_update_run _ _ _ _ _ _ _ l Hl); [|by apply bool_decide_eq_true].
    unfold w1, ended. by rewrite decide_True by done. }
  assert (∀ k, (racq <- tryM (Acquisitions_Get (l_AcquisitionID l)) ;;
    match racq with
    | Ok acq => if decide (a_State acq = AcqBound)
        then ignoreM (Acquisitions_Transition (a_ID acq) AcqBound acqTo t) else retM tt
    | Err _ => retM tt end ;;; k) w1 = (k : M World (option string)) w2) as H2.
  { intros k. unfold bindM at 1, tryM, Acquisitions_Get.
    rewrite (row_get_run db_Acquisitions _ w1 acq Ha). rewrite decide_True by done.
    unfold bindM, ignoreM, Acquisitions_Transition. rewrite Hid.
    rewrite (row_update_run _ _ _ _ _ _ _ acq) by (done || by apply bool_decide_eq_true). done. }
  assert (endLeaseLocked l t w2 = (Ok (r_PoolID r), w4)) as H3.
  { unfold endLeaseLocked.
    rewrite (bindM_eq _ _ _ tt w3) by (by apply (row_update_run _ _ _ _ _ _ w2 r)).
    assert (db_Resources (w_DB w3) !! l_ResourceID l = Some (idled t r)) as Hr3
      by (apply lookup_insert_eq).
    rewrite (bindM_eq _ _ _ (idled t r) w3) by (by apply row_get_run).
    erewrite bindM_eq by done. simpl.
    assert ((Z.of_nat (length (select (active_on (l_ResourceID l)) (db_Leases (w_DB w3)))) = 0
             ∧ r_Phase r = Allocated) ↔ last && bool_decide (r_Phase r = Allocated) = true) as Hd.
    { rewrite count_nil, andb_true_iff, bool_decide_eq_true. unfold last, is_last.
      rewrite bool_decide_eq_true. simpl. rewrite (select_ended _ l) by (done || by destruct Hto; subst).
      done. }
    unfold w4. destruct (last && _) eqn:El.
    - rewrite decide_True by (by apply Hd). unfold bindM at 1, Resources_CASPhase.
      rewrite (row_update_run _ _ _ _ _ _ w3 _ Hr3).
      + unfold retM. unfold freed. by rewrite El.
      + apply andb_true_iff in El as [_ El]. apply andb_true_iff. by split.
    - rewrite decide_False by (intros Hc; by apply Hd in Hc). done. }
  exists (up_Events (cons (MkEvent t "" "" ev (Some (l_ResourceID l)) None None "" "")) w4).
  split_and!; try done.
  - unfold finishLease. rewrite (bindM_eq _ _ _ tt w1 H1). rewrite H2.
    rewrite (bindM_eq _ _ _ _ _ H3). done.
  - unfold w4. by destruct (_ && _).
  - unfold w4. by destruct (_ && _).
  - unfold w4, freed. destruct (last && _) eqn:El; [|done]. simpl. by rewrite insert_insert_eq.
  - unfold w4. by destruct (_ && _).
  - unfold w4. by destruct (_ && _).
Qed.

Lemma Release_run w id t l :
  Good w → active_lease w id l →
  releaseTx id t w = finishLease l LeaseReleased AcqReleased "lease.released" t w.
Proof.
  intros _ [Hl Hst]. unfold releaseTx. rewrite (bindM_eq _ _ _ l w) by (by apply row_get_run).
  unfold bindM at 1. by rewrite bool_decide_eq_true_2.
Qed.

Lemma active_keyed w k l : Good w → active_lease w k l → l_ID l = k.
Proof. intros [Hk _] [Hl _]. by apply (keyed_lease _ Hk). Qed.

(** ** The expiry sweep *)

Definition expire_one (t : Z) (l : Lease) : M (Sys P) unit :=
  pid <- inTx (expireTx l t) ;; kick pid.

Lemma expire_one_run t l s :
  Good (sy_World s) → active_lease (sy_World s) (l_ID l) l →
  ∃ s', expire_one t l s = (Ok tt, s') ∧ Good (sy_World s') ∧
    w_Clock (sy_World s') = w_Clock (sy_World s) ∧
    db_Leases (w_DB (sy_World s')) = <[l_ID l := ended LeaseExpired t l]> (db_Leases (w_DB (sy_World s))).
Proof.
  intros Hg Hact.
  destruct (finishLease_run _ l LeaseExpired AcqExpired "lease.expired" t Hg Hact)
    as (r & acq & w' & Hr & Ha & Hrun & Hls & _ & _ & _ & Hclk); [by right|].
  assert (Tx (expireTx l t) (sy_World s) = (Ok (r_PoolID r), w')) as Htx by (by apply Tx_run).
  assert (same_lease l (sy_World s)) as Hsame by (exists l; split; [apply Hact|done]).
  assert (Good w') as Hg'.
  { eapply (Good_step any_op); [exact Hg|].
    replace w' with (Tx (expireTx l t) (sy_World s)).2 by (by rewrite Htx). by apply K_expire. }
  unfold expire_one, inTx, onWorld, bindM. rewrite Htx.
  destruct (r_PoolID r); eexists; (split; [done|]); simpl; by rewrite Hls.
Qed.

Lemma expire_all_run t ls s :
  Good (sy_World s) → NoDup (l_ID <$> ls) →
  (∀ l, l ∈ ls → active_lease (sy_World s) (l_ID l) l) →
  ∃ s', countM ls (expire_one t) s = (Ok (Z.of_nat (length ls)), s') ∧ Good (sy_World s') ∧
    (∀ l, l ∈ ls → db_Leases (w_DB (sy_World s')) !! l_ID l = Some (ended LeaseExpired t l)) ∧
    (∀ k, k ∉ l_ID <$> ls →
       db_Leases (w_DB (sy_World s')) !! k = db_Leases (w_DB (sy_World s)) !! k).
Proof.
  revert s. induction ls as [|l ls IH]; intros s Hg Hnd Hact.
  { exists s. split_and!; [done|done|by intros l Hl%elem_of_nil|done]. }
  apply NoDup_cons in Hnd as [Hnin Hnd].
  destruct (expire_one_run t l s Hg) as (s1 & H1 & Hg1 & _ & Hl1); [apply Hact; left|].
  destruct (IH s1 Hg1 Hnd) as (s2 & H2 & Hg2 & Hin & Hout).
  { intros l' Hl'. destruct (Hact l') as [Hrow Hst]; [by right|]. split; [|done].
    rewrite Hl1, lookup_insert_ne; [done|]. intros Heq. apply Hnin. rewrite Heq.
    by apply list_elem_of_fmap_2. }
  exists s2. simpl. split_and!; [|done| |].
  - unfold bindM, tryM. rewrite H1, H2. unfold retM. do 2 f_equal. lia.
  - intros l' [->|Hl']%elem_of_cons; [|by apply Hin].
    by rewrite Hout, Hl1, lookup_insert_eq.
  - intros k Hk. rewrite Hout, Hl1, lookup_insert_ne; [done|set_solver|set_solver].
Qed.

(** C24: releasing a lease. An active one ends in one transaction that cannot
    fail: the lease and its acquisition are released, the machine's idle
    clock is stamped, and the machine is ready again when it was allocated
    and this was the last lease on it. A lease that already ended is refused
    and nothing changes. *)
Theorem release_frees w id t l :
  reachable w → db_Leases (w_DB w) !! id = Some l →
  if decide (l_State l = LeaseActive) then
    ∃ r acq w', db_Resources (w_DB w) !! l_ResourceID l = Some r ∧
      db_Acquisitions (w_DB w) !! l_AcquisitionID l = Some acq ∧
      Tx (releaseTx id t) w = (Ok (r_PoolID r), w') ∧
      db_Leases (w_DB w') = <[id := ended LeaseReleased t l]> (db_Leases (w_DB w)) ∧
      db_Acquisitions (w_DB w') =
        <[l_AcquisitionID l := over_acq AcqReleased t acq]> (db_Acquisitions (w_DB w)) ∧
      db_Resources (w_DB w') =
        <[l_ResourceID l := freed (is_last id (l_ResourceID l) (db_Leases (w_DB w))) t r]>
          (db_Resources (w_DB w))
  else Tx (releaseTx id t) w = (Err EConflict, w).
Proof.
  intros Hg%Good_reachable Hl. case_decide as Hst.
  - assert (active_lease w id l) as Hact by done. pose proof (active_keyed _ _ _ Hg Hact) as Hid.
    destruct (finishLease_run w l LeaseReleased AcqReleased "lease.released" t Hg)
      as (r & acq & w' & Hr & Ha & Hrun & H1' & H2' & H3' & _); [by rewrite Hid|by left|].
    exists r, acq, w'. rewrite Hid in *. split_and!; try done.
    apply Tx_run. by rewrite (Release_run w id t l).
  - assert (releaseTx id t w = (Err EConflict, w)) as Hrun.
    { unfold releaseTx. rewrite (bindM_eq _ _ _ l w) by (by apply row_get_run).
      unfold bindM at 1. by rewrite bool_decide_eq_false_2. }
    unfold Tx. rewrite Hrun. by destruct w.
Qed.

(** What an ordered list has in front is not after what it has behind. *)
Lemma order_by_split {A} (f : A → Z) l n x y : x ∈ take n (order_by f l) → y ∈ drop n (order_by f l) → f x ≤ f y.
Proof.
  intros Hx Hy. assert (StronglySorted (by_key f) (take n (order_by f l) ++ drop n (order_by f l))) as Hs.
  { rewrite take_drop. apply StronglySorted_merge_sort; unfold by_key; [intros a b c|intros a b]; lia. }
  exact (StronglySorted_app_1_elem_of _ _ _ x y Hs Hx Hy).
Qed.

(** Whether a lease is due at [t]. *)
Definition is_due (t : Z) (l : Lease) : Prop := active l = true ∧ ∃ e, l_ExpiresAt l = Some e ∧ e ≤ t.

(** C25: a turn of the expiry sweep ends the leases that are due and no other:
    every lease it ends was active with its expiry reached, and is expired at
    the turn's time; every other lease is as it was; the number it answers is
    that of the leases ended, a hundred at most, the earliest expiries first;
    a lease that is due stays only behind a hundred that were due no later. No
    error of one lease stops the turn. *)
Theorem sweep_ends_due (s : Sys P) :
  reachable (sy_World s) →
  let t := w_Clock (sy_World s) in let before := db_Leases (w_DB (sy_World s)) in
  ∃ ended_now s', SweepExpired s = (Ok (Z.of_nat (length ended_now)), s') ∧
    let after := db_Leases (w_DB (sy_World s')) in
    NoDup ended_now ∧ Z.of_nat (length ended_now) ≤ 100 ∧
    (∀ k, k ∈ ended_now → ∃ l, before !! k = Some l ∧ is_due t l ∧ after !! k = Some (ended LeaseExpired t l)) ∧
    (∀ k, k ∉ ended_now → after !! k = before !! k) ∧
    (∀ k l, before !! k = Some l → is_due t l → k ∉ ended_now → Z.of_nat (length ended_now) = 100 ∧
       ∀ k' l', k' ∈ ended_now → before !! k' = Some l' → default 0 (l_ExpiresAt l') ≤ default 0 (l_ExpiresAt l)).
Proof.
  intros Hg%Good_reachable. destruct s as [w pr ek d wk q sf mi ad dr]. simpl in Hg.
  set (s := MkSys w pr ek d wk q sf mi ad dr). cbv zeta. set (t := w_Clock w).
  set (expiry := λ l, default 0 (l_ExpiresAt l)).
  set (all := order_by expiry (select (λ l, active l &&
    match l_ExpiresAt l with Some t' => bool_decide (t' ≤ t) | None => false end) (db_Leases (w_DB w)))).
  assert (∀ l, l ∈ all ↔ is_due t l ∧ ∃ k, db_Leases (w_DB w) !! k = Some l) as Hall.
  { intros l. unfold all, is_due. rewrite elem_of_order_by, elem_of_select, andb_true_iff.
    destruct (l_ExpiresAt l); [rewrite bool_decide_eq_true|]; naive_solver. }
  assert (∀ l, l ∈ limit 100 all → db_Leases (w_DB w) !! l_ID l = Some l ∧ is_due t l) as Hbatch.
  { intros l [Hd [k Hk]]%elem_of_limit%Hall. split; [|done]. by rewrite (keyed_lease _ (proj1 Hg) _ _ Hk). }
  assert (NoDup (l_ID <$> limit 100 all)) as Hnd.
  { apply batch_NoDup. intros k x. apply (keyed_lease _ (proj1 Hg)). }
  destruct (expire_all_run t (limit 100 all) s Hg Hnd) as (s' & Hrun & _ & Hin & Hout).
  { intros l [Hl [Ha _]]%Hbatch. split; [done|]. by apply bool_decide_eq_true in Ha. }
  exists (l_ID <$> limit 100 all), s'. split.
  { rewrite length_fmap. exact Hrun. }
  split_and!; [done| | |exact Hout|].
  - rewrite length_fmap. unfold limit. simpl. rewrite length_take. lia.
  - intros k (l & -> & Hl)%list_elem_of_fmap. destruct (Hbatch l Hl) as [Hrow Hd]. exists l.
    split_and!; [done|done|by apply Hin].
  - intros k l Hk Hd Hnin. assert (l ∈ all) as Hl by (apply Hall; eauto).
    pose proof (keyed_lease _ (proj1 Hg) _ _ Hk) as Hid.
    assert (l ∈ drop 100 all) as Hdrop.
    { pose proof Hl as Hl2. rewrite <-(take_drop 100 all) in Hl2. apply elem_of_app in Hl2 as [Ht|]; [|done].
      exfalso. apply Hnin. rewrite <-Hid. by apply list_elem_of_fmap_2. }
    split.
    + rewrite length_fmap. unfold limit. simpl. rewrite length_take.
      destruct (decide (length all ≤ 100)%nat) as [Hle|]; [|lia]. rewrite drop_ge in Hdrop by done. by apply elem_of_nil in Hdrop.
    + intros k' l' (l2 & -> & Hl2)%list_elem_of_fmap Hk'. destruct (Hbatch l2 Hl2) as [Hrow2 _].
      pose proof (eq_trans (eq_sym Hk') Hrow2) as [= ->]. apply (order_by_split expiry _ 100 l2 l Hl2 Hdrop).
Qed.
End facts.

Import Demo.

Lemma idled_end last t r : r_LastLeaseEndedAt (freed last t r) = Some t.
Proof. unfold freed. by destruct (_ && _). Qed.

Lemma release_frees_witness :
  ∃ r w', Tx (releaseTx "lease" 5000) w_leased = (Ok None, w') ∧
    db_Resources (w_DB w') !! "r1" = Some r ∧ r_LastLeaseEndedAt r = Some 5000.
Proof.
  pose proof (release_frees w_leased "lease" 5000 lease reach_leased lease_row) as Hr.
  rewrite decide_True in Hr by reflexivity.
  destruct Hr as (r & acq & w' & Hr & _ & Hrun & _ & _ & Hres).
  assert (r_PoolID r = None) as Hp by (vm_compute in Hr; injection Hr as <-; reflexivity).
  rewrite Hp in Hrun. eexists _, w'. split; [exact Hrun|]. split.
  - rewrite Hres. apply lookup_insert_eq.
  - apply idled_end.
Defined.

(** The leased machine an hour later. *)
Definition later : Sys unit :=
  MkSys (with_w_Clock 3600000 w_leased) tt false None false ∅ ∅ ∅ ∅ 0.
Lemma sweep_ends_due_witness : ∃ ended_now s', SweepExpired later = (Ok (Z.of_nat (length ended_now)), s') ∧ Z.of_nat (length ended_now) = 1 ∧
  ∀ k, k ∈ ended_now → ∃ l, db_Leases (w_DB (sy_World later)) !! k = Some l ∧ is_due (w_Clock (sy_World later)) l.
Proof.
  destruct (sweep_ends_due later) as (ended_now & s' & Hrun & _ & _ & Hin & _).
  - apply (reachable_step w_leased); [apply reach_leased|].
    apply (K_aside _ w_leased (modifyM (with_w_Clock 3600000))). intros w. by split_and!.
  - exists ended_now, s'. split; [exact Hrun|]. split.
    + assert (match (SweepExpired later).1 with Ok n => n | Err _ => 0 end = 1) as Hn by (vm_compute; reflexivity).
      rewrite Hrun in Hn. exact Hn.
    + intros k Hk. destruct (Hin k Hk) as (l & Hl & Hd & _). exact (ex_intro _ l (conj Hl Hd)).
Defined.
