(* ===== verification/SchedulerFacts.v ===== *)
(** * What the scheduler does

    A reservation never over-allocates; the ranking is a sound and complete
    list of the machines that fit, best first; waiting is estimated from the
    defaults only, because the sample query cannot succeed. *)

From stdpp Require Import base gmap strings list relations sorting.
From S2P Require Import Prelude Errors Json Phase SDK Capacity Types Store Kinds Classes Provision Sys Lease Scheduler Spec Abs Refine System Via Demo.
From S2P Require Billing.

(** ** Loads *)

Definition lease_cap (l : Lease) : Vector :=
  match l_Capacity l with JVal c => c | _ => ∅ end.
Definition on_machine (r : string) (w : World) : list Lease :=
  select (active_on r) (db_Leases (w_DB w)).
(** What a list of leases holds of a dimension, unbounded. *)
Definition load (ls : list Lease) (dim : string) : Z :=
  zsum ((λ l, amount (lease_cap l) dim) <$> ls).
Definition sane_lease (l : Lease) : Prop := vec_in64 (lease_cap l) ∧ vec_nonneg (lease_cap l).

Lemma usedBy_foldl ls u v : usedBy ls u = Some v → v = foldl accumulate u (lease_cap <$> ls).
Proof.
  revert u. induction ls as [|l ls IH]; intros u; simpl; [by intros [= <-]|].
  destruct (l_Exclusive l); [done|]. intros Hu. rewrite (IH _ Hu). unfold lease_cap, Parse.
  by destruct (l_Capacity l).
Qed.

Lemma amount_nonneg v dim : vec_nonneg v → 0 ≤ amount v dim.
Proof. intros Hv. unfold amount. destruct (v !! dim) eqn:E; simpl; [by apply (Hv dim)|lia]. Qed.
Lemma load_nonneg ls dim : Forall sane_lease ls → 0 ≤ load ls dim.
Proof.
  intros Hs. apply zsum_nonneg, Forall_fmap, (Forall_impl _ _ _ Hs).
  intros l [_ Hl]. by apply amount_nonneg.
Qed.
Lemma amount_in64 v dim : vec_in64 v → in64 (amount v dim).
Proof. intros Hv. unfold amount. destruct (v !! dim) eqn:E; simpl; [by apply (Hv dim)|in64]. Qed.

Lemma usedBy_load ls v dim : Forall sane_lease ls → usedBy ls ∅ = Some v →
  load ls dim ≤ max64 → amount v dim = load ls dim.
Proof.
  intros Hs Hu Hmax. apply usedBy_foldl in Hu as ->.
  assert (Forall vec_in64 (lease_cap <$> ls)) as Hin.
  { apply Forall_fmap, (Forall_impl _ _ _ Hs). by intros l []. }
  pose proof (amount_sum_vectors (lease_cap <$> ls) dim Hin) as Ha. unfold sum_vectors in Ha.
  rewrite Ha, <-list_fmap_compose. apply wrap64_id. pose proof (load_nonneg ls dim Hs).
  unfold load, compose in *. in64.
Qed.

Lemma select_insert {A} (Q : A → bool) (m : gmap string A) k x :
  m !! k = None → Q x = true → select Q (<[k := x]> m) ≡ₚ x :: select Q m.
Proof.
  intros Hk Hx. unfold select, rows.
  rewrite !(merge_sort_Permutation key_le), map_to_list_insert by done. simpl.
  by rewrite filter_cons_True.
Qed.

Section facts.
Context `{ULID} {P : Type} `{Providers P}.

(** The rows a successful reservation leaves, and what it has checked. *)
Lemma reserveTx_ok acq l r want ex t w u w' :
  reserveTx acq l r want ex t w = (Ok u, w') →
  ∃ res total used, db_Resources (w_DB w) !! r = Some res ∧ live res = true ∧
    (r_Phase res = Ready ∨ r_Phase res = Allocated) ∧ r_Ownership res = OwnershipManaged ∧
    Parse (r_Capacity res) = Ok total ∧ (ex = true → on_machine r w = []) ∧
    usedBy (on_machine r w) ∅ = Some used ∧ Fits total used want = true ∧
    db_Leases (w_DB w) !! l = None ∧
    db_Leases (w_DB w') = <[l := MkLease l (a_ID acq) r (a_Actor acq) (JVal want) ex LeaseActive
      (if decide (0 < a_TTLSeconds acq) then Some (t + a_TTLSeconds acq * 1000) else None) t None]>
      (db_Leases (w_DB w)).
Proof.
  intros Hr. unfold reserveTx in Hr.
  run Hr with Get_res_ok as [Hres ->]. guard Hr as Hg.
  run Hr with @liftR_ok as [Hp ->]. run Hr with @gets_ok as [-> ->]. guard Hr as Hex.
  change (select (active_on r) (db_Leases (w_DB w))) with (on_machine r w) in *.
  destruct (usedBy _ _) as [used|] eqn:Hu; [|done]. guard Hr as Hf. cbv zeta in Hr.
  apply bindM_Ok in Hr as (u1 & w1 & Hi & Hr). apply row_insert_ok in Hi as (Hn & _ & ->).
  run Hr with SumActive_ok as ->. guard Hr as _.
  apply orb_false_iff in Hg as [Hg Hown]. apply orb_false_iff in Hg as [Hl Hph].
  apply negb_false_iff in Hl. apply negb_false_iff in Hf.
  apply negb_false_iff, bool_decide_eq_true in Hown.
  eexists _, _, used. split_and!; try done.
  - apply andb_false_iff in Hph as [Hph|Hph]; apply negb_false_iff, bool_decide_eq_true in Hph; auto.
  - intros ->. simpl in Hex. by apply negb_false_iff, bool_decide_eq_true in Hex.
  - apply bindM_Ok in Hr as (u2 & w2 & Hc & Hr).
    assert (db_Leases (w_DB w2) = db_Leases (w_DB (up_Leases (insert l (MkLease l (a_ID acq) r
      (a_Actor acq) (JVal want) ex LeaseActive (if decide (0 < a_TTLSeconds acq)
      then Some (t + a_TTLSeconds acq * 1000) else None) t None)) w))) as Hl2.
    { case_decide; [by apply row_update_ok in Hc as (? & _ & _ & ->)|by apply ret_ok in Hc as [_ ->]]. }
    apply bindM_Ok in Hr as (u3 & w3 & Hb & Hr). apply row_update_ok in Hb as (? & _ & _ & ->).
    apply modify_ok in Hr as ->. simpl. by rewrite Hl2.
Qed.

(** C5: a reservation commits only on a live managed machine that is ready or
    allocated, exclusively only on an empty one, and never over-allocates: if
    the machine's active leases fitted its capacity before, they fit with the
    new one, in every dimension and without wrap-around. *)
Theorem reserve_never_overallocates acq l r want ex t w w' res total :
  db_Resources (w_DB w) !! r = Some res → Parse (r_Capacity res) = Ok total →
  vec_in64 total → vec_nonneg total → vec_pos want → vec_in64 want →
  Forall sane_lease (on_machine r w) → (∀ dim, load (on_machine r w) dim ≤ amount total dim) →
  Tx (reserveTx acq l r want ex t) w = (Ok tt, w') →
  live res = true ∧ (r_Phase res = Ready ∨ r_Phase res = Allocated) ∧
  r_Ownership res = OwnershipManaged ∧ (ex = true → on_machine r w = []) ∧
  Forall sane_lease (on_machine r w') ∧
  (∀ dim, load (on_machine r w') dim = load (on_machine r w) dim + amount want dim ∧
          load (on_machine r w') dim ≤ amount total dim).
Proof.
  intros Hres Hp Hti Htn Hwp Hwi Hs Hfit Htx.
  unfold Tx in Htx. destruct (reserveTx _ _ _ _ _ _ w) as [[u|e] w1] eqn:E; [|done].
  injection Htx as -> <-. apply reserveTx_ok in E as
    (res' & total' & used & Hres' & Hlive & Hph & Hown & Hp' & Hex & Hu & HF & Hn & Hl).
  assert (res' = res) as -> by congruence. assert (total' = total) as -> by congruence.
  match type of Hl with _ = <[_ := ?x]> _ => set (new := x) in * end.
  assert (on_machine r w1 ≡ₚ new :: on_machine r w) as Hperm.
  { unfold on_machine. rewrite Hl. apply select_insert; [done|]. unfold active_on. simpl.
    by rewrite bool_decide_eq_true_2. }
  assert (sane_lease new) as Hnew.
  { split; [done|]. intros k z Hz. specialize (Hwp _ _ Hz). simpl in *. lia. }
  split_and!; try done.
  { rewrite Hperm. by constructor. }
  intros dim. assert (load (on_machine r w1) dim = load (on_machine r w) dim + amount want dim) as Hload.
  { unfold load. rewrite (zsum_Permutation _ _ (fmap_Permutation _ _ _ Hperm)). simpl.
    apply Z.add_comm. }
  split; [done|]. rewrite Hload. specialize (Hfit dim).
  pose proof (amount_in64 total dim Hti) as Hin.
  pose proof (load_nonneg (on_machine r w) dim Hs) as H0l.
  destruct (want !! dim) as [z|] eqn:Ez.
  - assert (amount used dim = load (on_machine r w) dim) as Hused
      by (apply usedBy_load; [done|done|in64]).
    destruct (Fits_exact total used want dim z) as (tt' & Htt & Hle); try done; [by rewrite Hused|rewrite Hused; in64|].
    unfold amount in *. rewrite Ez, Htt. simpl in *. lia.
  - unfold amount at 1. rewrite Ez. simpl. lia.
Qed.

(** ** Ranking *)

Lemma StronglySorted_weaken {A} (Q R : A → A → Prop) l :
  (∀ x y, Q x y → R x y) → StronglySorted Q l → StronglySorted R l.
Proof. intros HQR. induction 1 as [|x l _ IH Hx]; constructor; [done|]. apply (Forall_impl _ _ _ Hx). auto. Qed.

(** The order the comparator means: lexicographic. *)
Definition ranks_before (x y : candidate) : Prop :=
  cd_tier x < cd_tier y ∨ cd_tier x = cd_tier y ∧
   (cd_tier x = 0 ∧ cd_slack x < cd_slack y ∨ (cd_tier x = 0 → cd_slack x = cd_slack y) ∧
     (cd_score x < cd_score y ∨ cd_score x = cd_score y ∧ str_le (cd_ID x) (cd_ID y))).
Lemma cand_le_spec x y : cand_le x y ↔ ranks_before x y.
Proof.
  unfold ranks_before.
  assert (str_le (cd_ID x) (cd_ID y) ↔ cd_ID y = cd_ID x ∨ ¬ str_le (cd_ID y) (cd_ID x)) as Hs.
  { split.
    - intros Hle. destruct (decide (cd_ID y = cd_ID x)); [by left|right].
      intros Hle2. by pose proof (str_le_antisym _ _ Hle Hle2).
    - intros [->|Hn]; [by destruct (str_le_total (cd_ID x) (cd_ID x))|].
      by destruct (str_le_total (cd_ID x) (cd_ID y)). }
  unfold cand_le, cand_lt.
  destruct (decide (cd_tier y = cd_tier x)) as [Ht|Ht]; [|rewrite bool_decide_eq_false; lia].
  destruct (decide (cd_tier y = 0)) as [Hz|Hz].
  - rewrite (bool_decide_eq_true_2 _ Hz). simpl.
    destruct (decide (cd_slack y = cd_slack x)) as [Hl|Hl].
    + rewrite (bool_decide_eq_true_2 _ Hl). simpl. destruct (decide (cd_score y = cd_score x)) as [Hc|Hc].
      * rewrite andb_false_iff, !bool_decide_eq_false. rewrite Hs.
        destruct (decide (cd_ID y = cd_ID x)); split; intros; intuition (try lia; try congruence).
      * rewrite bool_decide_eq_false. intuition lia.
    + rewrite (bool_decide_eq_false_2 _ Hl). simpl. rewrite bool_decide_eq_false. intuition lia.
  - rewrite (bool_decide_eq_false_2 _ Hz). simpl. destruct (decide (cd_score y = cd_score x)) as [Hc|Hc].
    + rewrite andb_false_iff, !bool_decide_eq_false. rewrite Hs.
      destruct (decide (cd_ID y = cd_ID x)); split; intros; intuition (try lia; try congruence).
    + rewrite bool_decide_eq_false. intuition lia.
Qed.

#[export] Instance cand_le_trans : Transitive cand_le.
Proof.
  intros x y z. rewrite !cand_le_spec. unfold ranks_before. pose proof (str_le_trans (cd_ID x) (cd_ID y) (cd_ID z)).
  intuition (try lia).
  all: right; split; [lia|]; right; split; [lia|]; right; split; [lia|auto].
Qed.
#[export] Instance cand_le_total : Total cand_le.
Proof.
  intros x y. rewrite !cand_le_spec. unfold ranks_before. pose proof (str_le_total (cd_ID x) (cd_ID y)).
  destruct (Z.lt_trichotomy (cd_tier x) (cd_tier y)) as [?|[?|?]]; [intuition lia| |intuition lia].
  destruct (Z.lt_trichotomy (cd_slack x) (cd_slack y)) as [?|[?|?]], (Z.eq_dec (cd_tier x) 0);
  destruct (Z.lt_trichotomy (cd_score x) (cd_score y)) as [?|[?|?]]; intuition lia.
Qed.

Definition sane_res (r : Resource) : Prop :=
  match Parse (r_Capacity r) with Ok t => vec_in64 t ∧ vec_nonneg t | Err _ => True end.
(** Amounts as a class or a request can state them, sums within [int64]. *)
Definition sane_world (w : World) : Prop :=
  (∀ id r, db_Resources (w_DB w) !! id = Some r → sane_res r) ∧
  (∀ id, Forall sane_lease (on_machine id w)) ∧ (∀ id dim, load (on_machine id w) dim ≤ max64).

(** A machine that can serve the request: what the ranking promises. *)
Definition suits (acq : Acquisition) (want : Vector) (ex : bool) (w : World) (r : Resource) : Prop :=
  live r = true ∧ r_Ownership r = OwnershipManaged ∧ (r_Phase r = Ready ∨ r_Phase r = Allocated) ∧
  (a_Kind acq = "" ∨ r_Kind r = a_Kind acq) ∧ (a_Class acq = "" ∨ r_Class r = a_Class acq) ∧
  Forall (λ l, l_Exclusive l = false) (on_machine (r_ID r) w) ∧
  (ex = true → on_machine (r_ID r) w = []) ∧
  ∃ total, Parse (r_Capacity r) = Ok total ∧
    ∀ dim n, want !! dim = Some n →
      ∃ t, total !! dim = Some t ∧ load (on_machine (r_ID r) w) dim + n ≤ t.

Lemma usedBy_some_shared ls u :
  is_Some (usedBy ls u) ↔ Forall (λ l, l_Exclusive l = false) ls.
Proof.
  revert u. induction ls as [|l ls IH]; intros u; simpl; [naive_solver|].
  rewrite Forall_cons. destruct (l_Exclusive l).
  - split; [by intros []|by intros []].
  - rewrite IH. naive_solver.
Qed.

Lemma unset_or_true s b : unset_or s b = true ↔ s = "" ∨ b = true.
Proof. unfold unset_or. by rewrite orb_true_iff, bool_decide_eq_true. Qed.

Lemma liveFilter_match acq phases r : phases ≠ [] → filter_match (liveFilter acq phases) r = true ↔
  live r = true ∧ r_Ownership r = OwnershipManaged ∧ r_Phase r ∈ phases ∧
  (a_Kind acq = "" ∨ r_Kind r = a_Kind acq) ∧ (a_Class acq = "" ∨ r_Class r = a_Class acq).
Proof.
  intros Hp. destruct phases as [|p ps]; [done|]. unfold filter_match, liveFilter, live. cbn [f_IncludeDeleted f_Kind f_Provider f_PoolID f_Poolless f_Class f_Phases f_Ownership f_Labels].
  rewrite !andb_true_iff, !unset_or_true, !bool_decide_eq_true, !mem_true, list_elem_of_singleton.
  rewrite map_to_list_empty. simpl. intuition congruence.
Qed.

Lemma candidateOf_suits acq want ex w r :
  sane_res r → Forall sane_lease (on_machine (r_ID r) w) →
  (∀ dim, load (on_machine (r_ID r) w) dim ≤ max64) →
  filter_match (liveFilter acq [Ready; Allocated]) r = true ∧
  is_Some (candidateOf acq want ex (w_Clock w) r (on_machine (r_ID r) w)) ↔ suits acq want ex w r.
Proof.
  intros Hr Hs Hmax. rewrite liveFilter_match by done. unfold suits, candidateOf, sane_res in *.
  rewrite !elem_of_cons, elem_of_nil.
  rewrite <-(usedBy_some_shared _ ∅). destruct (Parse (r_Capacity r)) as [total|e].
  2: { split; [intros [_ [? ?]]; done|intros (?&?&?&?&?&?&?&?&?&?); done]. }
  destruct Hr as [Hti Htn].
  assert ((∃ t, Ok total = Ok t ∧ ∀ dim n, want !! dim = Some n →
     ∃ z, t !! dim = Some z ∧ load (on_machine (r_ID r) w) dim + n ≤ z) ↔
     ∀ dim n, want !! dim = Some n → ∃ z, total !! dim = Some z ∧ load (on_machine (r_ID r) w) dim + n ≤ z) as ->
    by (split; [by intros (? & [= <-] & ?)|by exists total]).
  assert (ex && negb (bool_decide (on_machine (r_ID r) w = [])) = false ↔
          (ex = true → on_machine (r_ID r) w = [])) as Hex.
  { destruct ex; simpl; [|naive_solver]. rewrite negb_false_iff, bool_decide_eq_true. naive_solver. }
  destruct (ex && _).
  { split; [by intros [_ [? ?]]|]. intros (_&_&_&_&_&_&He&_). by apply Hex in He. }
  destruct (usedBy _ ∅) as [used|] eqn:Hu.
  2: { split; [by intros [_ [? ?]]|]. by intros (_&_&_&_&_&[? ?]&_). }
  assert (Fits total used want = true ↔ ∀ dim n, want !! dim = Some n →
     ∃ z, total !! dim = Some z ∧ load (on_machine (r_ID r) w) dim + n ≤ z) as <-.
  { rewrite Fits_spec. apply forall_proper; intros dim. apply forall_proper; intros n.
    rewrite (usedBy_load _ _ dim Hs Hu (Hmax dim)).
    pose proof (load_nonneg (on_machine (r_ID r) w) dim Hs) as H0l. specialize (Hmax dim).
    split; intros Hw Hn; destruct (Hw Hn) as (z & Hz & Hle); exists z; (split; [done|]);
      specialize (Hti _ _ Hz); specialize (Htn _ _ Hz); simpl in *;
      unfold sub64 in *; rewrite wrap64_id in *; in64. }
  destruct (billingTier acq r (w_Clock w)), (Fits total used want);
    split; intros Hall; split_and!; try (by destruct Hall as [_ [? ?]]);
    try (by apply Hex); naive_solver.
Qed.

Lemma candidateOf_ID acq want ex t r ls c :
  candidateOf acq want ex t r ls = Some c → cd_ID c = r_ID r.
Proof.
  unfold candidateOf. intros Hc. destruct (Parse _); [|done]. destruct (ex && _); [done|].
  destruct (usedBy _ _); [|done]. destruct (Fits _ _ _); [|done].
  destruct (billingTier _ _ _). by injection Hc as <-.
Qed.

Lemma omap_IDs (f : Resource → option candidate) rs :
  (∀ r c, f r = Some c → cd_ID c = r_ID r) →
  (cd_ID <$> omap f rs) `sublist_of` (r_ID <$> rs).
Proof.
  intros Hf. induction rs as [|r rs IH]; simpl; [constructor|].
  destruct (f r) as [c|] eqn:E; simpl; [rewrite (Hf _ _ E)|]; by constructor.
Qed.


End facts.

#[local] Existing Instances Demo.clouds Demo.numbered.

Lemma sane_ready : sane_world Demo.w_ready.
Proof.
  assert (db_Leases (w_DB Demo.w_ready) = ∅) as Hl by (by vm_compute).
  assert (∀ id, on_machine id Demo.w_ready = []) as Ho by (intros; unfold on_machine; by rewrite Hl).
  split_and!.
  - assert (map_Forall (λ _ r, r_Capacity r = JVal {[ "cpu" := 4 ]}) (db_Resources (w_DB Demo.w_ready))) as Hr.
    { apply (bool_decide_eq_true_1 _). vm_compute. reflexivity. }
    intros id r Hid. unfold sane_res. rewrite (Hr _ _ Hid). simpl.
    split; intros k z [_ <-]%lookup_singleton_Some; [in64|lia].
  - intros id. rewrite Ho. constructor.
  - intros id dim. rewrite Ho. unfold load. simpl. in64.
Qed.



(** On the demo: half of the ready machine. *)
Lemma reserve_never_overallocates_witness :
  on_machine "r1" Demo.w_ready = [] ∧
  ∀ dim, load (on_machine "r1" Demo.w_leased) dim ≤ amount {[ "cpu" := 4 ]} dim.
Proof.
  assert (on_machine "r1" Demo.w_ready = []) as Hnil by (by vm_compute).
  split; [done|]. intros dim.
  eapply (reserve_never_overallocates Demo.request "lease" "r1" {[ "cpu" := 2 ]} true 3000
    Demo.w_ready Demo.w_leased _ {[ "cpu" := 4 ]}).
  - vm_compute; reflexivity.
  - vm_compute; reflexivity.
  - intros k z [_ <-]%lookup_singleton_Some. in64.
  - intros k z [_ <-]%lookup_singleton_Some. lia.
  - intros k z [_ <-]%lookup_singleton_Some. lia.
  - intros k z [_ <-]%lookup_singleton_Some. in64.
  - rewrite Hnil. constructor.
  - intros d. rewrite Hnil. unfold amount. simpl. destruct ({[ "cpu" := 4 ]} !! d) as [z|] eqn:Ed; [|done].
    apply lookup_singleton_Some in Ed as [_ <-]. unfold load. simpl. lia.
  - vm_compute; reflexivity.
Defined.
