(* ===== verification/EngineFacts.v ===== *)
(** * What the operation engine does

    Crash recovery, the decision table after a failed call, the verification
    of creates of unknown outcome, and the delays between attempts. *)

From stdpp Require Import base gmap strings list relations sorting.
From S2P Require Import Prelude Errors Json Phase SDK Capacity Types Store Kinds Classes Provision Sys Lease Engine Scheduler Reconcile Discovery App Spec Abs Refine System Via Handlers Demo LeaseFacts.

(** ** Statements on a row that is there *)

(** The row after [Transition], with what [mut] made of it. *)
Definition moved (now : Z) (to : OpState) (mut : Operation → Operation) (o : Operation) : Operation :=
  persist (mut (transitioned now to o)) o.

Lemma Transition_run id from to mut w o :
  db_Operations (w_DB w) !! id = Some o → o_State o = from →
  Operations_Transition id from to mut w
    = (Ok tt, up_Operations (insert id (moved (w_Clock w) to mut o)) w).
Proof.
  intros Ho Hs. unfold Operations_Transition.
  rewrite (bindM_eq _ _ _ o w) by (by apply row_get_run). rewrite decide_True by done.
  rewrite (bindM_eq _ _ _ (w_Clock w) w) by done.
  rewrite (row_update_run _ _ _ _ _ _ _ o Ho); [done|by apply bool_decide_eq_true].
Qed.

(** A state, an attempt count and a next attempt. *)
Definition op_at (id : string) (st : OpState) (n : Z) (w : World) : Prop :=
  ∃ o, db_Operations (w_DB w) !! id = Some o ∧ o_State o = st ∧ o_Attempt o = n.

Lemma transitioned_fields now to o :
  o_State (transitioned now to o) = to ∧ o_Attempt (transitioned now to o) = o_Attempt o ∧
  o_NextAttemptAt (transitioned now to o) = o_NextAttemptAt o.
Proof. unfold transitioned. by destruct (_ && _). Qed.

Section facts.
Context `{ULID} {P : Type} `{Providers P} `{Rand} `{compute.Network}.
Context (cfg : Engine.Config) (OnTerminal : Operation → M (Sys P) unit).
Hypothesis OnTerminal_runs : ∀ G op, via (steps G (λ _, True)) (OnTerminal op).

Lemma terminal_stays (G : Grant) id st n w w' :
  Good w → rtc (kstep G) w w' → Terminal st = true → op_at id st n w → op_at id st n w'.
Proof.
  intros Hg Hst Ht (o & Ho & <- & <-).
  destruct (steps_ops _ _ _ _ (ksteps_refine _ _ _ Hg Hst) (abs_op_lookup _ _ _ Ho))
    as (x & Hx & _ & _ & Hf & _).
  apply abs_op_inv in Hx as (o' & Ho' & ->).
  pose proof (inv_op_open _ (proj2 Hg) _ _ (abs_op_lookup _ _ _ Ho)) as Hop. simpl in Hop, Hf.
  rewrite Ht in Hop. specialize (Hf Hop). exists o'. split; [done|].
  unfold abs_op in Hf. by injection Hf.
Qed.

Lemma notifyTerminal_stays id st n s :
  Good (sy_World s) → Terminal st = true → op_at id st n (sy_World s) →
  op_at id st n (sy_World (notifyTerminal OnTerminal id s).2).
Proof.
  intros Hg Ht Hop. eapply (terminal_stays any_op); [exact Hg| |done|done].
  by apply (notifyTerminal_runs OnTerminal OnTerminal_runs any_op (λ _, True)).
Qed.

Lemma failOpTx_run op from cause p q t w o :
  db_Operations (w_DB w) !! o_ID op = Some o → o_State o = from →
  ∃ w', failOpTx op from cause p q t w = (Ok tt, w') ∧
    db_Operations (w_DB w') = <[o_ID op := moved (w_Clock w) OpFailed (setErr (Classify cause) cause) o]>
                                (db_Operations (w_DB w)).
Proof.
  intros Ho Hs. unfold failOpTx. rewrite (bindM_eq _ _ _ _ _ (Transition_run _ _ _ _ _ _ Ho Hs)).
  set (w1 := up_Operations _ w).
  assert (∃ w2, match o_ResourceID op with
    | Some res => ignoreM (Resources_CASPhase res p q t) | None => retM tt end w1 = (Ok tt, w2) ∧
    db_Operations (w_DB w2) = db_Operations (w_DB w1)) as (w2 & Hrun & Hw2).
  { destruct (o_ResourceID op) as [r|]; [|by eexists].
    unfold ignoreM, Resources_CASPhase, row_update. eexists. split; [done|].
    destruct (_ !! r) as [res|]; [|done]. by destruct (_ && _). }
  rewrite (bindM_eq _ _ _ _ _ Hrun). eexists. split; [done|]. simpl. by rewrite Hw2.
Qed.

Lemma failOpPhases_run op from cause p q s o :
  Good (sy_World s) → db_Operations (w_DB (sy_World s)) !! o_ID op = Some o → o_State o = from →
  o_Kind op = o_Kind o → op_fails from = true → fail_move (o_Kind o) p q = true →
  op_at (o_ID op) OpFailed (o_Attempt o) (sy_World (failOpPhases OnTerminal (o_ID op) from cause p q s).2).
Proof.
  intros Hg Ho Hs Hk Hf Hm. unfold failOpPhases.
  rewrite (bindM_eq _ _ _ (w_Clock (sy_World s)) s) by (by destruct s).
  assert (onWorld (Operations_Get (o_ID op)) s = (Ok o, s)) as Hget.
  { unfold onWorld, Operations_Get. rewrite (row_get_run _ _ _ _ Ho). by destruct s. }
  rewrite (bindM_eq _ _ _ _ _ Hget).
  pose proof (keyed_op _ (proj1 Hg) _ _ Ho) as Hid.
  assert (db_Operations (w_DB (sy_World s)) !! o_ID o = Some o) as Ho' by (by rewrite Hid).
  destruct (failOpTx_run o from cause p q (w_Clock (sy_World s)) _ _ Ho' Hs) as (w' & Hrun & Hops).
  set (s' := with_sy_World w' s).
  assert (inTx (failOpTx o from cause p q (w_Clock (sy_World s))) s = (Ok tt, s')) as Hin.
  { unfold inTx, onWorld. by rewrite (Tx_run _ _ _ _ Hrun). }
  rewrite (bindM_eq _ _ _ _ _ Hin). apply notifyTerminal_stays; [|done|].
  - eapply (Good_step any_op); [exact Hg|]. simpl.
    replace w' with (Tx (failOpTx o from cause p q (w_Clock (sy_World s))) (sy_World s)).2
      by (by rewrite (Tx_run _ _ _ _ Hrun)).
    apply K_failOp; [by exists o|done|done].
  - simpl. eexists. rewrite Hops, Hid, lookup_insert_eq. split; [done|].
    split; apply transitioned_fields.
Qed.

Lemma failOp_run id from cause s o :
  Good (sy_World s) → db_Operations (w_DB (sy_World s)) !! id = Some o → o_State o = from →
  op_fails from = true →
  op_at id OpFailed (o_Attempt o) (sy_World (failOp OnTerminal id from cause s).2).
Proof.
  intros Hg Ho Hs Hf. unfold failOp. pose proof (keyed_op _ (proj1 Hg) _ _ Ho) as Hid.
  assert (onWorld (Operations_Get id) s = (Ok o, s)) as Hget.
  { unfold onWorld, Operations_Get. rewrite (row_get_run _ _ _ _ Ho). by destruct s. }
  rewrite (bindM_eq _ _ _ _ _ Hget). destruct (failPhases (o_Kind o)) as [p q] eqn:E.
  rewrite <-Hid in Ho |- *. apply failOpPhases_run; try done.
  by destruct (o_Kind o); injection E as <- <-.
Qed.

(** An open delete can always be tombstoned. *)
Lemma succeedDelete_run op from s o :
  Good (sy_World s) → db_Operations (w_DB (sy_World s)) !! o_ID op = Some o → o_State o = from →
  o_Kind op = o_Kind o → o_ResourceID op = o_ResourceID o → o_Kind o = OpKindDelete →
  op_succeeds from = true →
  op_at (o_ID op) OpSucceeded (o_Attempt o) (sy_World (succeedDelete OnTerminal op from s).2).
Proof.
  intros Hg Ho Hs Hk Hr Hd Hf. unfold succeedDelete.
  rewrite (bindM_eq _ _ _ (w_Clock (sy_World s)) s) by (by destruct s). set (t := w_Clock (sy_World s)).
  pose proof (abs_op_lookup _ _ _ Ho) as Habs.
  assert (open o = true) as Hopen.
  { pose proof (inv_op_open _ (proj2 Hg) _ _ Habs) as Hop. simpl in Hop. rewrite Hop, Hs.
    by destruct from. }
  destruct (inv_held _ (proj2 Hg) _ _ Deleting Habs Hopen) as (r & Hor & Hres);
    [simpl; by rewrite Hd|]. simpl in Hor.
  simpl in Hres. rewrite lookup_fmap in Hres. apply fmap_Some in Hres as (res & Hres & Habr).
  set (w1 := up_Operations (insert (o_ID op) (moved t OpSucceeded id o)) (sy_World s)).
  assert (∃ w2, Resources_MarkDeleted r t w1 = (Ok tt, w2) ∧
    db_Operations (w_DB w2) = db_Operations (w_DB w1)) as (w2 & Hrun & Hw2).
  { exists (up_Resources (insert r (with_r_DeletedAt (Some t) (with_r_UpdatedAt t res))) w1).
    split; [|done]. unfold Resources_MarkDeleted.
    rewrite (row_update_run db_Resources up_Resources r live _ _ w1 res Hres); [done|].
    unfold abs_res in Habr. congruence. }
  assert (∃ w3, succeedDeleteTx op from t (sy_World s) = (Ok tt, w3) ∧
    db_Operations (w_DB w3) = db_Operations (w_DB w1)) as (w3 & Htx & Hw3).
  { unfold succeedDeleteTx. rewrite (bindM_eq _ _ _ _ _ (Transition_run _ _ _ _ _ _ Ho Hs)).
    rewrite Hr, Hor. rewrite (bindM_eq _ _ _ _ _ Hrun). by eexists. }
  set (s' := with_sy_World w3 s).
  assert (inTx (succeedDeleteTx op from t) s = (Ok tt, s')) as Hin.
  { unfold inTx, onWorld. by rewrite (Tx_run _ _ _ _ Htx). }
  rewrite (bindM_eq _ _ _ _ _ Hin). apply notifyTerminal_stays; [|done|].
  - eapply (Good_step any_op); [exact Hg|]. simpl.
    replace w3 with (Tx (succeedDeleteTx op from t) (sy_World s)).2 by (by rewrite (Tx_run _ _ _ _ Htx)).
    apply K_succeedDelete; [by exists o|done|congruence].
  - simpl. eexists. rewrite Hw3. unfold w1. simpl. rewrite lookup_insert_eq. split; [done|].
    split; apply transitioned_fields.
Qed.

(** ** After a failed call *)

(** What a failed Apply makes of an operation: decided by its kind, the class
    of the error, and whether the call may have had an effect. *)
Definition settled (k : OpKind) (e : err) : OpState :=
  match k, Classify e with
  | OpKindDelete, ErrNotFound => OpSucceeded
  | (OpKindStop | OpKindStart), (ErrNotFound | ErrInvalid | ErrTerminal) => OpFailed
  | (OpKindStop | OpKindStart), _ => OpJournaled
  | _, (ErrInvalid | ErrTerminal) => OpFailed
  | _, _ => match Effect e with EffectNone => OpJournaled | _ => OpVerifying end
  end.

Lemma floorDelay_min d c : 10 * Millisecond ≤ floorDelay d c.
Proof. unfold floorDelay. case_decide; lia. Qed.

Definition next_at (id : string) (f : option Z → Prop) (w : World) : Prop :=
  ∀ o, db_Operations (w_DB w) !! id = Some o → f (o_NextAttemptAt o).

Lemma applyErrorTx_run id to next e s o :
  db_Operations (w_DB (sy_World s)) !! id = Some o → o_State o = OpInFlight →
  op_at id to (o_Attempt o) (sy_World (inTx (P := P) (applyErrorTx id to next e) s).2) ∧
  next_at id (λ t, t = Some next) (sy_World (inTx (P := P) (applyErrorTx id to next e) s).2).
Proof.
  intros Ho Hs. unfold inTx, onWorld, applyErrorTx.
  rewrite (Tx_run _ _ _ _ (Transition_run _ _ to _ _ _ Ho Hs)). split.
  - eexists. simpl. rewrite lookup_insert_eq. split; [done|]. split; apply transitioned_fields.
  - intros o'. simpl. rewrite lookup_insert_eq. by intros [= <-].
Qed.

(** C16: after a failed call of the provider, the operation in flight moves to
    the state the decision table names, whatever callbacks run: a refused one
    fails; a create or delete that cannot have had an effect is put back to be
    called again, after at least ten milliseconds, and one that may have had an
    effect is verified first; a stop or start, which can be repeated, is put
    back without a look in both cases; a delete of what is not there has
    succeeded. *)
Theorem failed_apply_settled op e s o :
  Good (sy_World s) → db_Operations (w_DB (sy_World s)) !! o_ID op = Some o →
  o_State o = OpInFlight → o_Kind op = o_Kind o → o_ResourceID op = o_ResourceID o →
  let s' := (handleApplyError cfg OnTerminal op e s).2 in
  op_at (o_ID op) (settled (o_Kind o) e) (o_Attempt o) (sy_World s') ∧
  (settled (o_Kind o) e = OpVerifying →
     next_at (o_ID op) (λ t, t = Some (w_Clock (sy_World s) + 2000)) (sy_World s')) ∧
  (settled (o_Kind o) e = OpJournaled →
     next_at (o_ID op) (λ t, ∃ d, 10 ≤ d ∧ t = Some (w_Clock (sy_World s) + d)) (sy_World s')).
Proof.
  intros Hg Ho Hs Hk Hr. cbv zeta. unfold handleApplyError.
  rewrite (bindM_eq _ _ _ (w_Clock (sy_World s)) s) by (by destruct s). set (t := w_Clock (sy_World s)).
  assert (∀ st, st = OpJournaled →
    let s' := (delay <- backoff cfg (o_Attempt op) (Some e) ;;
      inTx (applyErrorTx (o_ID op) OpJournaled (t + Milliseconds delay) e) : M (Sys P) unit) s in
    op_at (o_ID op) st (o_Attempt o) (sy_World s'.2) ∧
    (st = OpVerifying → next_at (o_ID op) (λ u, u = Some (t + 2000)) (sy_World s'.2)) ∧
    (st = OpJournaled → next_at (o_ID op) (λ u, ∃ d, 10 ≤ d ∧ u = Some (t + d)) (sy_World s'.2))) as Hretry.
  { intros st ->. cbv zeta. unfold bindM at 1 2 3. unfold backoff.
    set (d := floorDelay _ _). set (s1 := with_sy_Draws _ s).
    destruct (applyErrorTx_run (o_ID op) OpJournaled (t + Milliseconds d) e s1 o Ho Hs) as [H1' H2'].
    split_and!; [exact H1'|done|]. intros _ o' Ho'. exists (Milliseconds d). split; [|by apply H2'].
    pose proof (floorDelay_min (jitter (backoffBase cfg (o_Attempt op)) (draw (sy_Draws s))) (Some e)) as Hd.
    fold d in Hd. unfold Milliseconds, Millisecond in *. apply Z.quot_le_lower_bound; lia. }
  assert (∀ st, st = OpFailed →
    let s' := failOp OnTerminal (o_ID op) OpInFlight e s in
    op_at (o_ID op) st (o_Attempt o) (sy_World s'.2) ∧
    (st = OpVerifying → next_at (o_ID op) (λ u, u = Some (t + 2000)) (sy_World s'.2)) ∧
    (st = OpJournaled → next_at (o_ID op) (λ u, ∃ d, 10 ≤ d ∧ u = Some (t + d)) (sy_World s'.2))) as Hfail.
  { intros st ->. split_and!; [|done|done]. by apply failOp_run. }
  rewrite Hk. pose proof (Effect_cases e) as Heff.
  destruct (o_Kind o) eqn:Ek, (Classify e) eqn:Ec; unfold settled; rewrite Ec; clear Ec;
    revert Heff; generalize (Effect e); intros eff Heff; simpl.
  all: try (by apply Hfail); try (by apply Hretry).
  all: try (split_and!; [by eapply succeedDelete_run; eauto; congruence|done|done]).
  all: destruct Heff as [->| ->]; [by apply Hretry|].
  all: simpl; destruct (applyErrorTx_run (o_ID op) OpVerifying (t + 2000) e s o Ho Hs) as [? ?]; by split_and!.
Qed.

(** ** Delays *)

(** min(cap, base * 2^attempt), the exponent capped at sixteen. *)
Definition ideal (attempt : Z) : Z :=
  Z.min (BackoffCap cfg) (BackoffBase cfg * 2 ^ Z.min attempt 16).

Lemma backoffBase_ideal attempt :
  0 < BackoffBase cfg ≤ 2 ^ 46 → 0 < BackoffCap cfg → 0 ≤ attempt →
  backoffBase cfg attempt = ideal attempt.
Proof.
  intros Hb Hc Ha. unfold backoffBase, ideal, shl64.
  assert (0 ≤ Z.min attempt 16 ≤ 16) as Hm by lia. rewrite Z.shiftl_mul_pow2 by lia.
  assert (1 ≤ 2 ^ Z.min attempt 16 ≤ 2 ^ 16) as Hp.
  { split; [change 1 with (2 ^ 0)|]; apply Z.pow_le_mono_r; lia. }
  assert (BackoffBase cfg * 2 ^ Z.min attempt 16 ≤ 2 ^ 46 * 2 ^ 16) as Hle by (apply Z.mul_le_mono_nonneg; lia).
  rewrite wrap64_id by (split; unfold min64, max64; lia). case_decide; lia.
Qed.

Lemma jitter_bounds d k : 0 ≤ d → 0 ≤ k < 2 ^ 53 → d `div` 2 ≤ jitter d k ≤ (3 * d) `div` 2.
Proof.
  intros Hd Hk. unfold jitter. set (x := d * (2 ^ 52 + k)).
  assert (d * 2 ^ 52 ≤ x) as Hlo by (unfold x; nia).
  assert (x ≤ 3 * d * 2 ^ 52) as Hhi by (unfold x; nia). clearbody x.
  pose proof (Z.mul_div_le d 2 ltac:(lia)). pose proof (Z.mul_succ_div_gt (3 * d) 2 ltac:(lia)). split.
  - apply Z.div_le_lower_bound; lia.
  - apply Z.lt_succ_r, Z.div_lt_upper_bound; lia.
Qed.


(** ** Recovery *)

(** What a restart makes of a row: a call that was in flight when the process
    died is to be verified, everything else is as it was. *)
Definition recovered (t : Z) (o : Operation) : Operation :=
  if decide (o_State o = OpInFlight) then moved t OpVerifying (with_o_NextAttemptAt None) o else o.

Definition recover_one (op : Operation) : M (Sys P) unit :=
  match o_State op with
  | OpInFlight => inTx (moveTx (o_ID op) OpInFlight OpVerifying)
  | _ => retM tt
  end.

Definition set_ops (ops : gmap string Operation) (s : Sys P) : Sys P :=
  with_sy_World (up_Operations (λ _, ops) (sy_World s)) s.
Definition ops_of (s : Sys P) : gmap string Operation := db_Operations (w_DB (sy_World s)).

Lemma recover_one_run op s :
  ops_of s !! o_ID op = Some op →
  recover_one op s
    = (Ok tt, set_ops (<[o_ID op := recovered (w_Clock (sy_World s)) op]> (ops_of s)) s).
Proof.
  intros Ho. unfold recover_one, recovered. destruct s as [[db clk mi] pr ek d wk q sf ms ad dr].
  destruct (o_State op) eqn:E; simpl;
    try (unfold set_ops, ops_of; simpl; rewrite insert_id by done; by destruct db).
  unfold inTx, onWorld, moveTx. simpl.
  rewrite (Tx_run _ _ _ _ (Transition_run _ _ OpVerifying _ _ _ Ho E)). done.
Qed.

Lemma recover_all_run ops s :
  NoDup (o_ID <$> ops) → (∀ op, op ∈ ops → ops_of s !! o_ID op = Some op) →
  ∃ m, forM_ ops recover_one s = (Ok tt, set_ops m s) ∧
    ∀ k, m !! k = if decide (k ∈ o_ID <$> ops)
                  then recovered (w_Clock (sy_World s)) <$> ops_of s !! k else ops_of s !! k.
Proof.
  revert s. induction ops as [|op ops IH]; intros s Hnd Hall.
  { exists (ops_of s). split; [|by intros k]. destruct s as [[[] clk mi] pr ek d wk q sf ms ad dr]. done. }
  apply NoDup_cons in Hnd as [Hnin Hnd]. assert (ops_of s !! o_ID op = Some op) as Ho by (apply Hall; left).
  simpl. rewrite (bindM_eq _ _ _ _ _ (recover_one_run op s Ho)). set (s1 := set_ops _ s).
  destruct (IH s1 Hnd) as (m & Hrun & Hm).
  { intros op' Hin. unfold s1, ops_of, set_ops. simpl. rewrite lookup_insert_ne; [by apply Hall; right|].
    intros Heq. apply Hnin. rewrite Heq. by apply list_elem_of_fmap_2. }
  exists m. split; [rewrite Hrun; by destruct s as [[[] ?] ]|]. intros k. rewrite Hm. simpl.
  unfold s1, ops_of, set_ops. simpl. destruct (decide (k = o_ID op)) as [->|Hne].
  - rewrite decide_False by done. rewrite decide_True by left. rewrite lookup_insert_eq.
    unfold ops_of in Ho. by rewrite Ho.
  - rewrite lookup_insert_ne by done. destruct (decide (k ∈ o_ID <$> ops)).
    + rewrite decide_True by (by right). done.
    + rewrite decide_False; [done|]. by intros [->|]%elem_of_cons.
Qed.

(** C15: crash recovery. After a restart no operation is in flight: those that
    were are to be verified before anything is called again, attempts kept;
    every other row of every table is as it was, and the engine is woken. *)
Theorem crash_recovery (s : Sys P) : reachable (sy_World s) →
  ∃ s', Engine_Resume s = (Ok tt, s') ∧ sy_EngineKick s' = true ∧
    sy_World s' = up_Operations (fmap (recovered (w_Clock (sy_World s)))) (sy_World s) ∧
    ∀ id o, db_Operations (w_DB (sy_World s')) !! id = Some o → o_State o ≠ OpInFlight.
Proof.
  intros Hg%Good_reachable. unfold Engine_Resume.
  set (ops := order_by o_CreatedAt (select open (db_Operations (w_DB (sy_World s))))).
  rewrite (bindM_eq _ _ _ ops s) by (by destruct s).
  destruct (recover_all_run ops s) as (m & Hrun & Hm).
  { pose proof (batch_NoDup o_ID o_CreatedAt open (-1) (db_Operations (w_DB (sy_World s)))
      (keyed_op _ (proj1 Hg))) as Hnd. exact Hnd. }
  { intros op [_ [k Hk]]%elem_of_order_by%elem_of_select. by rewrite (keyed_op _ (proj1 Hg) _ _ Hk). }
  change (λ op, match o_State op with OpInFlight => _ | _ => _ end) with recover_one.
  rewrite (bindM_eq _ _ _ _ _ Hrun). eexists. split; [reflexivity|]. split; [done|].
  assert (m = recovered (w_Clock (sy_World s)) <$> ops_of s) as ->.
  { apply map_eq. intros k. rewrite Hm, lookup_fmap. case_decide as Hk; [done|].
    unfold ops_of in *. destruct (_ !! k) as [o|] eqn:Ho; [|done]. simpl. f_equal.
    unfold recovered. case_decide as Hs; [|done]. exfalso. apply Hk.
    pose proof (inv_op_open _ (proj2 Hg) _ _ (abs_op_lookup _ _ _ Ho)) as Hop. simpl in Hop.
    rewrite Hs in Hop. rewrite <-(keyed_op _ (proj1 Hg) _ _ Ho). apply list_elem_of_fmap_2.
    apply elem_of_order_by, elem_of_select. by eauto. }
  split; [done|]. intros id o. simpl. rewrite lookup_fmap. intros (o0 & _ & ->)%fmap_Some.
  unfold recovered. case_decide as Hs; [|done].
  done.
Qed.

(** ** Creates of unknown outcome *)

(** What verification makes of a create: decided by whether the provider can
    search by label, what the search found, and whether the window is over. *)
Definition verified (searchable : bool) (found : result (list ObservedResource)) (expired : bool)
  : OpState :=
  if negb searchable then OpUncertain else
  match found with
  | Err _ => OpVerifying
  | Ok (_ :: _) => OpExternalAccepted
  | Ok [] => if expired then OpJournaled else OpVerifying
  end.

Definition window_over (now : Z) (o : Operation) : bool :=
  match o_VerifyDeadlineAt o with Some t => bool_decide (t ≤ now) | None => true end.

(** No other live machine of the instance has the found id. *)
Definition ext_free (op : Operation) (ref : ExternalRef) (w : World) : Prop :=
  ∃ r res, o_ResourceID op = Some r ∧ db_Resources (w_DB w) !! r = Some res ∧
    live res && ext_taken r (r_Provider res) (ref_ID ref) (db_Resources (w_DB w)) = false.

Lemma reschedule_run op c s :
  ops_of s !! o_ID op = Some op →
  op_at (o_ID op) (o_State op) (o_Attempt op) (sy_World (reschedule (P := P) cfg op c s).2).
Proof.
  intros Ho. unfold reschedule, backoff. unfold bindM, clockNow, onWorld. simpl.
  unfold rescheduleTx, inTx, onWorld. simpl.
  rewrite (Tx_run _ _ _ _ (Transition_run _ _ (o_State op) _ _ _ Ho eq_refl)). simpl.
  eexists. simpl. rewrite lookup_insert_eq. split; [done|].
  split; simpl; destruct c; apply transitioned_fields.
Qed.

Lemma move_run mut op from to s :
  ops_of s !! o_ID op = Some op → o_State op = from →
  (∀ o, o_State (mut o) = o_State o ∧ o_Attempt (mut o) = o_Attempt o) →
  op_at (o_ID op) to (o_Attempt op)
    (sy_World (inTx (P := P) (Operations_Transition (o_ID op) from to mut) s).2).
Proof.
  intros Ho Hs Hmut. unfold inTx, onWorld. simpl.
  rewrite (Tx_run _ _ _ _ (Transition_run _ _ to _ _ _ Ho Hs)). simpl.
  eexists. simpl. rewrite lookup_insert_eq. split; [done|]. unfold moved, persist. simpl.
  destruct (Hmut (transitioned (w_Clock (sy_World s)) to op)) as [-> ->]. split; apply transitioned_fields.
Qed.

(** C17: the verification of a create whose outcome is unknown: adopted when a
    machine with its label is found (which then is the machine's external
    id), asked again while the window is open or the search fails, frozen
    when the provider cannot search; it goes back to be called again only
    when the search found nothing and the window is over. *)
Theorem create_verified op driver action found p s :
  ops_of s !! o_ID op = Some op → o_State op = OpVerifying → o_Kind op = OpKindCreate →
  driverAndAction op s = (Ok (driver, action), s) →
  Discover driver (MkDiscover ScopeOwned {[ LabelOp := o_ID op ]}) (sy_Prov s) = (found, p) →
  (∀ obs rest, found = Ok (obs :: rest) → ext_free op (ob_Ref obs) (sy_World s)) →
  let w' := sy_World (verify cfg OnTerminal op s).2 in
  op_at (o_ID op)
    (verified (supportsLabelDiscovery op) found (window_over (w_Clock (sy_World s)) op))
    (o_Attempt op) w' ∧
  (supportsLabelDiscovery op = true → ∀ obs rest, found = Ok (obs :: rest) →
     ∃ r res, o_ResourceID op = Some r ∧ db_Resources (w_DB w') !! r = Some res ∧
       r_ExternalID res = Some (ref_ID (ob_Ref obs))).
Proof.
  intros Ho Hs Hk Hda Hdi Hfree. cbv zeta. unfold verify.
  assert (tryM (driverAndAction op) s = (Ok (Ok (driver, action)), s)) as Htry by (unfold tryM; by rewrite Hda).
  rewrite (bindM_eq _ _ _ _ _ Htry).
  rewrite (bindM_eq _ _ _ (w_Clock (sy_World s)) s) by (by destruct s). rewrite Hk.
  destruct (supportsLabelDiscovery op); simpl.
  2: { split; [by apply move_run|done]. }
  set (s1 := with_sy_Prov p s).
  assert (tryM (onProv (Discover driver (MkDiscover ScopeOwned {[LabelOp := o_ID op]}))) s
    = (Ok found, s1)) as Hd by (unfold tryM, onProv; by rewrite Hdi).
  rewrite (bindM_eq _ _ _ _ _ Hd). assert (ops_of s1 !! o_ID op = Some op) as Ho1 by done.
  destruct found as [[|obs rest]|e].
  - split; [|done]. unfold window_over. destruct (o_VerifyDeadlineAt op) as [t|]; [|by apply move_run].
    destruct (bool_decide_reflect (t ≤ w_Clock (sy_World s))),
      (bool_decide_reflect (w_Clock (sy_World s) < t)); try lia; [by apply move_run|].
    unfold verified. simpl. rewrite <-Hs. by apply reschedule_run.
  - destruct (Hfree obs rest eq_refl) as (r & res & Hor & Hres & Hext).
    set (ref := ob_Ref obs) in *. set (t := w_Clock (sy_World s)).
    set (mut := λ o, with_o_NextAttemptAt None (with_o_ExternalRef (JVal ref)
      (with_o_ExternalOp (JVal (MkOpRef (o_ID op) (Some ref) None)) o))).
    set (w1 := up_Operations (insert (o_ID op) (moved t OpExternalAccepted mut op)) (sy_World s)).
    set (w2 := up_Resources (insert r (with_r_ExternalID (Some (ref_ID ref))
                 (with_r_ExternalRef (JVal ref) res))) w1).
    assert (adoptTx op obs (sy_World s) = (Ok tt, w2)) as Hrun.
    { unfold adoptTx. rewrite (bindM_eq _ _ _ _ _ (Transition_run _ _ _ mut _ _ Ho Hs)). rewrite Hor.
      unfold Resources_SetExternalRef. simpl. rewrite Hres. fold ref. rewrite Hext. done. }
    assert (inTx (adoptTx op obs) s1 = (Ok tt, with_sy_World w2 s1)) as Hin.
    { unfold inTx, onWorld. simpl. by rewrite (Tx_run _ _ _ _ Hrun). }
    rewrite (bindM_eq _ _ _ _ _ Hin). split.
    + eexists. simpl. rewrite lookup_insert_eq. split; [done|]. split; apply transitioned_fields.
    + intros _ ? ? [= <- <-]. exists r. eexists. split; [done|]. simpl. rewrite lookup_insert_eq. done.
  - split; [|done]. unfold verified. simpl. rewrite <-Hs. by apply reschedule_run.
Qed.

End facts.

Import Demo.
#[local] Existing Instances Demo.clouds Demo.numbered.
#[local] Instance half : Rand := λ _, 2 ^ 52.
Definition standard : Engine.Config := Engine.defaults (Engine.MkConfig 0 0 0 0 0).
Definition quietly (op : Operation) : M (Sys unit) unit := retM tt.
Lemma quietly_runs G op : via (steps G (λ _, True)) (quietly op).
Proof. apply via_ret. apply _. Qed.

(** The call timed out: the create is to be verified in two seconds. *)
Lemma failed_apply_settled_witness :
  op_at "op1" OpVerifying 1
    (sy_World (handleApplyError standard quietly (op_row w_flying "op1") EContext (at_time 2000 w_flying)).2).
Proof.
  apply (failed_apply_settled standard quietly quietly_runs (op_row w_flying "op1") EContext
    (at_time 2000 w_flying) (op_row w_flying "op1")).
  - apply Good_reachable, reach_at, reach_flying.
  - vm_compute. reflexivity.
  - vm_compute. reflexivity.
  - reflexivity.
  - reflexivity.
Defined.


Lemma crash_recovery_witness :
  ∃ s', Engine_Resume (at_time 5000 w_flying) = (Ok tt, s') ∧
    o_State (op_row (sy_World s') "op1") = OpVerifying.
Proof.
  destruct (crash_recovery (at_time 5000 w_flying)) as (s' & Hrun & _ & Hw & _).
  - apply reach_at, reach_flying.
  - exists s'. split; [exact Hrun|]. rewrite Hw. vm_compute. reflexivity.
Defined.

(** Nothing found after the window: back to be called again. *)
Definition unknown : Operation := op_row w_verifying "op1".
Definition after_window : Sys unit := at_time 9000 w_verifying.
Lemma create_verified_witness :
  op_at (o_ID unknown) OpJournaled (o_Attempt unknown)
    (sy_World (verify standard quietly unknown after_window).2).
Proof.
  assert (verified (supportsLabelDiscovery unknown) (Ok [])
    (window_over (w_Clock (sy_World after_window)) unknown) = OpJournaled) as Hv by (vm_compute; reflexivity).
  rewrite <-Hv. refine (proj1 (create_verified standard quietly unknown driver (action "r1" "op1") (Ok []) tt
    after_window _ _ _ _ _ _)).
  - vm_compute. reflexivity.
  - vm_compute. reflexivity.
  - vm_compute. reflexivity.
  - vm_compute. reflexivity.
  - vm_compute. reflexivity.
  - discriminate.
Defined.
