(* ===== verification/ReconcileFacts.v ===== *)
(** * What the reconciler does

    A convergence cycle stays within its budget, never overshoots the pool's
    targets and never takes the warm set under its floor; a converged pool is
    left alone; candidates for reclaim are the idle ones, longest idle first. *)

From stdpp Require Import base gmap strings list relations sorting.
From S2P Require Import Prelude Errors Json Phase SDK Capacity Types Store Kinds Classes Provision Sys Reconcile App Spec Abs Refine System Via Demo.

(** ** The insertion sort *)

Section sorting.
Context {A : Type} (f : A → Z).

(** Insertion from the right, past strictly larger elements. *)
Fixpoint insert_right (x : A) (l : list A) : list A :=
  match l with
  | [] => [x]
  | y :: l => if forallb (λ z, bool_decide (f x < f z)) (y :: l) then x :: y :: l
              else y :: insert_right x l
  end.

Lemma insert_right_snoc x y l :
  insert_right x (l ++ [y]) = if decide (f x < f y) then insert_right x l ++ [y] else l ++ [y; x].
Proof.
  induction l as [|z l IH].
  - simpl. case_decide; [by rewrite bool_decide_eq_true_2|by rewrite bool_decide_eq_false_2].
  - cbn [app insert_right]. rewrite IH. clear IH.
    replace (forallb (λ z, bool_decide (f x < f z)) (z :: l ++ [y]))
      with (forallb (λ z, bool_decide (f x < f z)) (z :: l) && bool_decide (f x < f y))
      by (simpl; rewrite forallb_app; simpl; by rewrite andb_true_r, andb_assoc).
    case_decide.
    + rewrite bool_decide_eq_true_2, andb_true_r by done. by destruct (forallb _ _).
    + rewrite bool_decide_eq_false_2, andb_false_r by done. done.
Qed.

Lemma sink_insert pre x post :
  sink f (length pre) (pre ++ x :: post) = insert_right x pre ++ post.
Proof.
  revert post. induction pre as [|y pre IH] using rev_ind; intros post; [done|].
  rewrite insert_right_snoc, length_app. simpl. rewrite Nat.add_1_r. cbn [sink].
  rewrite <-app_assoc. simpl.
  assert ((pre ++ y :: x :: post) !! S (length pre) = Some x) as ->
    by (rewrite lookup_app_r by lia; by replace (S (length pre) - length pre)%nat with 1%nat by lia).
  rewrite (list_lookup_middle pre (x :: post) y) by done.
  case_decide; [|by rewrite <-app_assoc].
  rewrite !insert_app_r_alt by lia. rewrite Nat.sub_diag.
  replace (S (length pre) - length pre)%nat with 1%nat by lia. simpl.
  rewrite IH. by rewrite <-app_assoc.
Qed.

Lemma insertionSort_spec l :
  insertionSort f l = foldl (λ out x, insert_right x out) [] l.
Proof.
  unfold insertionSort.
  assert (∀ n pre post, length pre = n → pre ≠ [] →
    foldl (λ out i, sink f i out) (pre ++ post) (seq n (length post))
    = foldl (λ out x, insert_right x out) pre post) as Hgen.
  { intros n pre post. revert n pre. induction post as [|x post IH]; intros n pre Hn Hpre; simpl.
    - by rewrite app_nil_r.
    - rewrite <-Hn, sink_insert. apply IH; [|destruct pre as [|y pre]; [done|]; cbn [insert_right]; by destruct (forallb _ _)].
      clear. induction pre as [|y pre IH]; [done|]. cbn [insert_right].
      destruct (forallb _ _); simpl; [done|]. by rewrite IH. }
  destruct l as [|x l]; [done|]. simpl. rewrite Nat.sub_0_r. by apply (Hgen 1%nat [x] l).
Qed.

Lemma insert_right_Permutation x l : insert_right x l ≡ₚ x :: l.
Proof.
  induction l as [|y l IH]; [done|]. cbn [insert_right]. destruct (forallb _ _); [done|].
  rewrite IH. apply Permutation_swap.
Qed.

Lemma insert_right_sorted x l :
  StronglySorted (by_key f) l → StronglySorted (by_key f) (insert_right x l).
Proof.
  induction 1 as [|y l Hs IH Hy]; [by repeat constructor|]. cbn [insert_right].
  destruct (forallb _ _) eqn:E.
  - constructor; [by constructor|]. apply Forall_forall. intros z Hz.
    rewrite forallb_forall in E. apply list_elem_of_In in Hz. apply E, bool_decide_eq_true in Hz.
    unfold by_key. lia.
  - constructor; [done|]. rewrite insert_right_Permutation. constructor; [|done].
    unfold by_key in *. destruct (decide (f y ≤ f x)) as [|Hn]; [done|]. exfalso.
    apply not_true_iff_false in E. apply E. apply forallb_forall. intros z Hz%list_elem_of_In.
    apply bool_decide_eq_true. apply elem_of_cons in Hz as [->|Hz]; [lia|].
    rewrite Forall_forall in Hy. specialize (Hy z Hz). simpl in Hy. lia.
Qed.

Lemma filter_none k l : Forall (λ z, f z ≠ k) l → filter (λ z, f z = k) l = [].
Proof. induction 1 as [|z l Hz _ IH]; [done|]. by rewrite filter_cons_False. Qed.

(** Equal keys keep their order. *)
Lemma insert_right_stable k x l :
  filter (λ z, f z = k) (insert_right x l) = filter (λ z, f z = k) (l ++ [x]).
Proof.
  induction l as [|y l IH]; [done|]. cbn [insert_right app]. destruct (forallb _ _) eqn:E.
  - assert (Forall (λ z, f x < f z) (y :: l)) as HF.
    { apply Forall_forall. intros z Hz. rewrite forallb_forall in E. apply list_elem_of_In in Hz.
      by apply E, bool_decide_eq_true in Hz. }
    change (y :: l ++ [x]) with ((y :: l) ++ [x]). rewrite filter_app.
    destruct (decide (f x = k)) as [Hx|Hx].
    + rewrite (filter_cons_True _ x (y :: l)), (filter_cons_True _ x []) by done.
      rewrite (filter_none k (y :: l)); [done|]. apply (Forall_impl _ _ _ HF). intros; lia.
    + rewrite filter_cons_False by done. by rewrite (filter_cons_False _ x []), app_nil_r.
  - rewrite !filter_cons. by rewrite IH.
Qed.

(** It sorts, and it is stable. *)
Lemma insertionSort_sorts l :
  StronglySorted (by_key f) (insertionSort f l) ∧ insertionSort f l ≡ₚ l ∧
  ∀ k, filter (λ z, f z = k) (insertionSort f l) = filter (λ z, f z = k) l.
Proof.
  rewrite insertionSort_spec.
  assert (∀ acc, StronglySorted (by_key f) acc →
    StronglySorted (by_key f) (foldl (λ out x, insert_right x out) acc l) ∧
    foldl (λ out x, insert_right x out) acc l ≡ₚ acc ++ l ∧
    ∀ k, filter (λ z, f z = k) (foldl (λ out x, insert_right x out) acc l)
       = filter (λ z, f z = k) (acc ++ l)) as Hgen.
  { induction l as [|x l IH]; intros acc Hs; simpl; [by rewrite app_nil_r|].
    destruct (IH (insert_right x acc)) as (H1 & H2 & H3); [by apply insert_right_sorted|].
    split_and!; [done| |].
    - rewrite H2, insert_right_Permutation. simpl. by rewrite Permutation_middle.
    - intros k. rewrite H3, !filter_app, insert_right_stable, filter_app, <-app_assoc.
      by rewrite <-filter_app. }
  destruct (Hgen [] ltac:(constructor)) as (?&?&?). done.
Qed.
End sorting.

Section facts.
Context `{ULID} {P : Type} `{Providers P}.
Context (cfg : Reconcile.Config) (owner : string).

(** ** Passes *)

(** A pass stops at its bound: the last success was made before it. *)
Lemma attempts_bound {X} stop (body : X → M (Sys P) unit) l k s k' s' :
  attempts stop body l k s = (Ok k', s') →
  k ≤ k' ∧ k' ≤ k + len l ∧ (k' = k ∨ ∃ x, x ∈ l ∧ stop (k' - 1) x = false).
Proof.
  revert k s. unfold len. induction l as [|x l IH]; intros k s; simpl.
  - intros [= <- <-]. split_and!; [lia..|by left].
  - destruct (stop k x) eqn:Hst; [intros [= <- <-]; split_and!; [lia..|by left]|].
    unfold bindM, tryM. destruct (body x s) as [[u|e] s1]; intros Hr; apply IH in Hr as (H1' & H2' & H3').
    + split_and!; [lia..|]. right. destruct H3' as [->|(y & Hy & Hs)].
      * exists x. split; [left|]. by replace (k + 1 - 1) with k by lia.
      * exists y. split; [by right|done].
    + split_and!; [lia..|]. destruct H3' as [->|(y & Hy & Hs)]; [by left|right].
      exists y. split; [by right|done].
Qed.

Lemma creates_bound n (m : M (Sys P) unit) s k s' :
  creates n m s = (Ok k, s') → 0 ≤ k ≤ Z.of_nat n.
Proof.
  revert s k s'. induction n as [|n IH]; intros s k s'; simpl; [intros [= <- <-]; lia|].
  unfold bindM at 1, tryM. destruct (m s) as [[u|e] s1]; [|intros [= <- <-]; lia].
  intros Hr. apply bindM_Ok in Hr as (k1 & s2 & H1' & H2'). apply IH in H1'.
  injection H2' as <- <-. lia.
Qed.

Lemma attempts_total {X} stop (body : X → M (Sys P) unit) l k s :
  ∃ k' s', attempts stop body l k s = (Ok k', s').
Proof.
  revert k s. induction l as [|x l IH]; intros k s; simpl; [by eexists _, _|].
  destruct (stop k x); [by eexists _, _|]. unfold bindM, tryM. destruct (body x s). apply IH.
Qed.

Lemma nonpos_false z : nonpos z = false ↔ 0 < z.
Proof. unfold nonpos. rewrite bool_decide_eq_false. lia. Qed.

Ltac bools := repeat match goal with
  | H : _ || _ = false |- _ => apply orb_false_iff in H as [? H]
  | H : nonpos _ = false |- _ => apply nonpos_false in H
  | H : bool_decide _ = false |- _ => apply bool_decide_eq_false in H
  end.

Lemma undrainPass_bound l deficit budget t (s : Sys P) k s' :
  undrainPass l deficit budget t s = (Ok k, s') →
  0 ≤ k ≤ Z.max 0 budget ∧ k ≤ Z.max 0 deficit ∧ k ≤ len l.
Proof. intros (?&?&[->|(x&_&Hs)])%attempts_bound; bools; lia. Qed.

Lemma kickIf_ok (k : Z) (s : Sys P) a s' : (kickIf k ;;; retM k) s = (Ok a, s') → a = k.
Proof. unfold kickIf. case_decide; intros Hr; by injection Hr. Qed.

Lemma warmUpPass_bound spec l hot budget t (s : Sys P) k s' :
  warmUpPass spec l hot budget t s = (Ok k, s') →
  0 ≤ k ≤ Z.max 0 budget ∧ k ≤ Z.max 0 (ps_MinRunning spec - hot).
Proof.
  unfold warmUpPass. case_decide; [|intros [= <- <-]; lia].
  intros (k' & s1 & Ha & ->%kickIf_ok)%bindM_Ok. apply attempts_bound in Ha as (?&?&[->|(x&_&Hs)]); bools; lia.
Qed.

Lemma createPass_bound spec pool kind prov m deficit n budget t (s : Sys P) k s' :
  createPass owner spec pool kind prov m deficit n budget t s = (Ok k, s') →
  0 ≤ k ≤ Z.max 0 budget ∧ (0 < k → k ≤ createCount spec deficit n budget).
Proof.
  unfold createPass. case_decide; [|intros [= <- <-]; lia].
  intros (u & s1 & _ & Hr)%bindM_Ok. case_decide; [injection Hr as <- <-; lia|].
  apply bindM_Ok in Hr as (k' & s2 & Ha & ->%kickIf_ok). apply creates_bound in Ha.
  split; [|lia]. unfold createCount in *. lia.
Qed.

Lemma deleteParkedPass_bound l surplus budget t (s : Sys P) k s' :
  deleteParkedPass l surplus budget t s = (Ok k, s') →
  0 ≤ k ≤ Z.max 0 budget ∧ k ≤ Z.max 0 surplus.
Proof.
  unfold deleteParkedPass. case_decide; [|intros [= <- <-]; lia].
  intros (?&?&[->|(x&_&Hs)])%attempts_bound; bools; lia.
Qed.

Lemma drainPass_bound spec l rc surplus budget t (s : Sys P) k s' :
  drainPass spec l rc surplus budget t s = (Ok k, s') →
  0 ≤ k ≤ Z.max 0 budget ∧ k ≤ Z.max 0 surplus ∧ (0 < k → ps_MinReady spec ≤ len l - k).
Proof.
  unfold drainPass. case_decide; [|intros [= <- <-]; lia].
  intros (?&?&[->|(x&_&Hs)])%attempts_bound; bools; lia.
Qed.

Lemma deletePass_bound l budget t (s : Sys P) k s' :
  deletePass l budget t s = (Ok k, s') → 0 ≤ k ≤ Z.max 0 budget.
Proof. intros (?&?&[->|(x&_&Hs)])%attempts_bound; bools; lia. Qed.

Lemma parkPass_bound spec l rc left hot budget t (s : Sys P) k s' :
  parkPass spec l rc left hot budget t s = (Ok k, s') →
  0 ≤ k ≤ Z.max 0 budget ∧
  (0 < k → ps_MinReady spec ≤ left - k ∧ ps_MinRunning spec ≤ hot - k ∧ 0 < ps_MinRunning spec).
Proof.
  unfold parkPass. destruct (_ && bool_decide (0 < budget)) eqn:E; [|intros [= <- <-]; lia].
  apply andb_true_iff in E as [E _]. apply andb_true_iff in E as [E _].
  apply andb_true_iff in E as [E _]. apply bool_decide_eq_true in E.
  intros (k' & s1 & Ha & ->%kickIf_ok)%bindM_Ok. apply attempts_bound in Ha as (?&?&[->|(x&_&Hs)]); bools; lia.
Qed.

(** ** A cycle *)

Definition members (pool : string) (w : World) : list Resource :=
  select (filter_match (MkFilter "" "" (Some pool) false "" [] [] ∅ false)) (db_Resources (w_DB w)).
Definition count (p : Phase) (l : list Resource) : Z := len (inPhase p l).

(** What the passes of one cycle did, and within which bounds. *)
Lemma RunOnce_ok poolID (s : Sys P) d s' pool spec :
  db_Pools (w_DB (sy_World s)) !! poolID = Some pool → p_Paused pool = false →
  parsePoolSpec (p_Spec pool) = Ok spec → RunOnce cfg owner poolID s = (Ok d, s') →
  let all := members poolID (sy_World s) in let n p := count p all in
  let budget := MaxMutationsPerCycle cfg in
  let counted := n Provisioning + n Ready + n Allocated + n Parking + n Parked + n Starting in
  let hot := n Provisioning + n Starting + n Ready + n Allocated in
  let deficit := sub64 (ps_Replicas spec) counted in
  ∃ un st cr dp dr dd df pk,
    d = MkDelta (counted + un) (n Ready) (n Provisioning) (n Allocated) (n Draining) (n Failed)
          (n Parking) (n Parked) (n Starting) cr dr un (dp + dd + df) pk st ∧
    let surplus := sub64 (counted + un) (ps_Replicas spec) in
    (0 ≤ un ≤ Z.max 0 budget ∧ un ≤ Z.max 0 deficit) ∧
    (0 ≤ st ≤ Z.max 0 (budget - un)) ∧
    (0 ≤ cr ≤ Z.max 0 (budget - un - st) ∧
     (0 < cr → cr ≤ createCount spec (deficit - un) (len all) (budget - un - st))) ∧
    (0 ≤ dp ≤ Z.max 0 (budget - un - st - cr) ∧ dp ≤ Z.max 0 surplus) ∧
    (0 ≤ dr ≤ Z.max 0 (budget - un - st - cr - dp) ∧ dr ≤ Z.max 0 (surplus - dp) ∧
     (0 < dr → ps_MinReady spec ≤ n Ready - dr)) ∧
    (0 ≤ dd ≤ Z.max 0 (budget - un - st - cr - dp - dr)) ∧
    (0 ≤ df ≤ Z.max 0 (budget - un - st - cr - dp - dr - dd)) ∧
    (0 ≤ pk ≤ Z.max 0 (budget - un - st - cr - dp - dr - dd - df) ∧
     (0 < pk → ps_MinReady spec ≤ n Ready - dr - pk ∧ ps_MinRunning spec ≤ hot + st - pk)).
Proof.
  intros Hpool Hpaused Hspec Hr. cbv zeta. unfold RunOnce in Hr.
  assert (onWorld (Pools_Get poolID) s = (Ok pool, s)) as Hg.
  { unfold onWorld, Pools_Get, row_get. rewrite Hpool. by destruct s. }
  rewrite (bindM_eq _ _ _ _ _ Hg), Hpaused, Hspec in Hr.
  rewrite (bindM_eq _ _ _ spec s) in Hr by done.
  apply bindM_Ok in Hr as ([[[kind prov] m] rc] & s1 & Ht & Hr).
  assert (s1 = s) as ->.
  { unfold onWorld in Ht. pose proof (pure_template spec (sy_World s)) as Hp.
    destruct (template spec (sy_World s)) as [r w]. injection Ht as _ <-. simpl in Hp. subst. by destruct s. }
  clear Ht. rewrite (bindM_eq _ _ _ (members poolID (sy_World s)) s) in Hr by (by destruct s).
  set (all := members poolID (sy_World s)) in *. cbv zeta in Hr.
  rewrite (bindM_eq _ _ _ (w_Clock (sy_World s)) s) in Hr by (by destruct s).
  set (t := w_Clock (sy_World s)) in *. unfold count.
  apply bindM_Ok in Hr as (un & sa & Hun & Hr). apply undrainPass_bound in Hun as (?&?&?).
  apply bindM_Ok in Hr as (st & sb & Hst & Hr). apply warmUpPass_bound in Hst as (?&?).
  apply bindM_Ok in Hr as (cr & sc & Hcr & Hr). apply createPass_bound in Hcr as (?&?).
  apply bindM_Ok in Hr as (dp & sd & Hdp & Hr). apply deleteParkedPass_bound in Hdp as (?&?).
  apply bindM_Ok in Hr as (dr & se & Hdr & Hr). apply drainPass_bound in Hdr as (?&?&?).
  apply bindM_Ok in Hr as (dd & sf & Hdd & Hr). apply deletePass_bound in Hdd.
  apply bindM_Ok in Hr as (df & sg & Hdf & Hr). apply deletePass_bound in Hdf.
  apply bindM_Ok in Hr as (pk & sh & Hpk & Hr). apply parkPass_bound in Hpk as (?&Hpk).
  apply bindM_Ok in Hr as (u & si & _ & Hr). injection Hr as <- <-.
  exists un, st, cr, dp, dr, dd, df, pk. split; [done|].
  split_and!; try done; try lia; intros; try (by apply Hpk).
Qed.

Lemma RunOnce_cases poolID (s : Sys P) d s' : RunOnce cfg owner poolID s = (Ok d, s') →
  ∃ pool, db_Pools (w_DB (sy_World s)) !! poolID = Some pool ∧
    (p_Paused pool = true ∧ d = zeroDelta ∧ s' = s ∨
     p_Paused pool = false ∧ ∃ spec, parsePoolSpec (p_Spec pool) = Ok spec).
Proof.
  unfold RunOnce. intros (pool & s1 & Hg & Hr)%bindM_Ok. exists pool.
  unfold onWorld, Pools_Get, row_get in Hg.
  destruct (db_Pools (w_DB (sy_World s)) !! poolID) as [pool'|]; [|discriminate].
  injection Hg as -> <-. split; [done|]. destruct (p_Paused pool).
  - left. injection Hr as <- <-. by destruct s.
  - right. split; [done|]. apply bindM_Ok in Hr as (spec & s2 & Hl & _). exists spec.
    apply liftR_ok in Hl as [-> _]. done.
Qed.

Definition mutations (d : Delta) : Z :=
  Created d + Drained d + Undrained d + Deleted d + ParkedNow d + Started d.


Lemma counted_bound l :
  0 ≤ count Provisioning l + count Ready l + count Allocated l + count Parking l + count Parked l
      + count Starting l ≤ 6 * len l.
Proof.
  assert (∀ p, 0 ≤ count p l ≤ len l) as Hc.
  { intros p. unfold count, inPhase, len. pose proof (length_filter (λ r, r_Phase r = p) l). lia. }
  pose proof (Hc Provisioning). pose proof (Hc Ready). pose proof (Hc Allocated).
  pose proof (Hc Parking). pose proof (Hc Parked). pose proof (Hc Starting). lia.
Qed.


(** C29: the machines a cycle drains or parks first: the unprotected ones idle
    for long enough, longest idle first, ties in the order of the listing;
    sorted in place by the code's insertion sort. *)
Theorem longest_idle_first ready policy t :
  let l := reclaimable ready policy t in
  (∀ r, r ∈ l ↔ r ∈ ready ∧ r_DeleteProtected r = false ∧
     match policy with Some p => Milliseconds (IdleAfter p) | None => 0 end ≤ t - idleSinceOf r) ∧
  StronglySorted (by_key idleSinceOf) l ∧
  (NoDup ready → NoDup l) ∧
  ∀ k, filter (λ r, idleSinceOf r = k) l
     = filter (λ r, idleSinceOf r = k) (filter (λ r, idleEnough policy t r = true) ready).
Proof.
  cbv zeta. unfold reclaimable.
  destruct (insertionSort_sorts idleSinceOf (filter (λ r, idleEnough policy t r = true) ready)) as (Hs & Hp & Hf).
  split_and!; [|done| |done].
  - intros r. rewrite Hp, list_elem_of_filter. unfold idleEnough.
    rewrite andb_true_iff, negb_true_iff, bool_decide_eq_true. tauto.
  - intros Hnd. rewrite Hp. by apply NoDup_filter.
Qed.

(** ** A converged pool *)

Lemma attempts_nil {X} stop (body : X → M (Sys P) unit) k s : attempts stop body [] k s = (Ok k, s).
Proof. done. Qed.
Lemma attempts_stopped {X} stop (body : X → M (Sys P) unit) l k s :
  (∀ x, stop k x = true) → attempts stop body l k s = (Ok k, s).
Proof. intros Hst. destruct l; simpl; [done|]. by rewrite Hst. Qed.

(** No member left to bring back, to delete, to start, to create, to drain
    or to park. *)
Definition converged (spec : PoolSpec) (rc : option ReclaimPolicy) (all : list Resource) : Prop :=
  count Provisioning all + count Ready all + count Allocated all + count Parking all
    + count Parked all + count Starting all = ps_Replicas spec ∧
  inPhase Draining all = [] ∧ inPhase Failed all = [] ∧
  ps_MinRunning spec ≤ count Provisioning all + count Starting all + count Ready all + count Allocated all ∧
  (ps_MinRunning spec ≤ 0 ∨ match rc with Some p => IdleAfter p ≤ 0 | None => True end).

(** A pool at its targets is left alone: the cycle succeeds, changes
    nothing, in the tables or in memory, and calls nobody. *)
Theorem converged_pool_untouched poolID (s : Sys P) pool spec kind prov m rc :
  db_Pools (w_DB (sy_World s)) !! poolID = Some pool → p_Paused pool = false →
  parsePoolSpec (p_Spec pool) = Ok spec →
  template spec (sy_World s) = (Ok (kind, prov, m, rc), sy_World s) →
  converged spec rc (members poolID (sy_World s)) →
  ∃ d, RunOnce cfg owner poolID s = (Ok d, s) ∧ mutations d = 0.
Proof.
  intros Hpool Hpaused Hspec Ht (Hcount & Hdr & Hfa & Hhot & Hrc). unfold RunOnce.
  assert (onWorld (Pools_Get poolID) s = (Ok pool, s)) as Hg.
  { unfold onWorld, Pools_Get, row_get. rewrite Hpool. by destruct s. }
  rewrite (bindM_eq _ _ _ _ _ Hg), Hpaused, Hspec. rewrite (bindM_eq _ _ _ spec s) by done.
  assert (onWorld (template spec) s = (Ok (kind, prov, m, rc), s)) as Htp.
  { unfold onWorld. rewrite Ht. by destruct s. }
  rewrite (bindM_eq _ _ _ _ _ Htp).
  rewrite (bindM_eq _ _ _ (members poolID (sy_World s)) s) by (by destruct s).
  set (all := members poolID (sy_World s)) in *. cbv zeta.
  rewrite (bindM_eq _ _ _ (w_Clock (sy_World s)) s) by (by destruct s). unfold count in *.
  rewrite Hcount, Hdr, Hfa. unfold undrainPass. rewrite (bindM_eq _ _ _ 0 s) by done.
  unfold warmUpPass at 1. rewrite decide_False by lia. rewrite (bindM_eq _ _ _ 0 s) by done.
  assert (sub64 (ps_Replicas spec) (ps_Replicas spec) = 0) as H0'
    by (unfold sub64; rewrite Z.sub_diag; by apply wrap64_id).
  unfold createPass at 1. rewrite H0', decide_False by lia. rewrite (bindM_eq _ _ _ 0 s) by done.
  rewrite Z.add_0_r, H0'. unfold deleteParkedPass at 1. rewrite decide_False by lia.
  rewrite (bindM_eq _ _ _ 0 s) by done. unfold drainPass at 1. rewrite decide_False by lia.
  rewrite (bindM_eq _ _ _ 0 s) by done. unfold deletePass.
  rewrite (bindM_eq _ _ _ 0 s) by done. rewrite (bindM_eq _ _ _ 0 s) by done.
  unfold parkPass at 1.
  assert (bool_decide (0 < ps_MinRunning spec) && match rc with
    | Some p => bool_decide (0 < IdleAfter p) | None => false end = false) as ->.
  { apply andb_false_iff. destruct Hrc as [Hm|Hi]; [left; apply bool_decide_eq_false; lia|right].
    destruct rc; [|done]. apply bool_decide_eq_false. lia. }
  rewrite (bindM_eq _ _ _ 0 s) by done. eexists. split; [done|]. done.
Qed.
End facts.

(** ** On a pool of two machines *)

Import Demo.
#[local] Existing Instances Demo.clouds Demo.numbered.

Definition standard : Reconcile.Config := Reconcile.defaults (Reconcile.MkConfig 0 0 0 0).
Definition small : json :=
  JObj [("serverType", JStr "small"); ("image", JStr "debian"); ("location", JStr "here")].
Definition pair : raw := RawDoc (JObj [("replicas", JInt 2); ("kind", JStr compute.Kind);
  ("provider", JStr "demo"); ("machine", small)]).
Definition pairSpec : PoolSpec := MkPoolSpec "" 2 0 0 0 None (Some small) "demo" compute.Kind.
Definition pairPool : Pool := MkPool "pool_0" "pair" compute.Kind pair 1 0 false 1000 1000.
(** The pool as declared, and after its first cycle. *)
Definition pooled : Sys unit :=
  (UpsertPool (MkPoolCmd "" "pair" pair "alice") (at_time 1000 w0)).2.
Definition filled : Sys unit := (RunOnce standard "owner" "pool_0" pooled).2.
Definition firstCycle : Delta := MkDelta 0 0 0 0 0 0 0 0 0 2 0 0 0 0 0.
Lemma first_cycle : RunOnce standard "owner" "pool_0" pooled = (Ok firstCycle, filled).
Proof. vm_compute. reflexivity. Qed.



Lemma converged_pool_untouched_witness :
  ∃ d, RunOnce standard "owner" "pool_0" filled = (Ok d, filled) ∧ mutations d = 0.
Proof.
  apply (converged_pool_untouched standard "owner" "pool_0" filled pairPool pairSpec
    compute.Kind "demo" (RawDoc small) None).
  - vm_compute. reflexivity.
  - reflexivity.
  - vm_compute. reflexivity.
  - vm_compute. reflexivity.
  - split_and!; try (vm_compute; reflexivity).
    + vm_compute. discriminate.
    + left. vm_compute. discriminate.
Defined.
