(* ===== verification/Labels.v ===== *)
(** * Label codecs (providers/gcp/labels.go, providers/digitalocean/tags.go)

    Clouds without a free label store carry the identity labels in an encoding
    of their own. Go ranges over its maps in any order: the order is the list
    a codec is given, and the theorems hold for every order.

    Strings are byte strings. A letter above ASCII becomes one dash, as the
    code writes one per rune: continuation bytes vanish, lead bytes give the
    dash. Invalid UTF-8, and the two letters above ASCII whose lower case is an
    ASCII letter (U+0130, U+212A), are not modelled. *)

From stdpp Require Import base gmap strings list.
From Stdlib Require Import Ascii.
From S2P Require Import Prelude Errors Json SDK.

Definition LabelTest : string := "fleetplane.io/test".
Definition LabelTestRun : string := "fleetplane.io/test-run".

(** ** Bytes *)

Definition in_range (lo hi c : ascii) : bool :=
  ((nat_of_ascii lo <=? nat_of_ascii c) && (nat_of_ascii c <=? nat_of_ascii hi))%nat.
Definition is_lower (c : ascii) : bool := in_range "a" "z" c.
Definition is_upper (c : ascii) : bool := in_range "A" "Z" c.
Definition is_digit (c : ascii) : bool := in_range "0" "9" c.
Definition is_cont (c : ascii) : bool :=
  ((128 <=? nat_of_ascii c) && (nat_of_ascii c <? 192))%nat.
Definition upper_ascii (c : ascii) : ascii :=
  if is_lower c then ascii_of_nat (nat_of_ascii c - 32) else c.

Fixpoint str_map (f : ascii → string) (s : string) : string :=
  match s with
  | EmptyString => EmptyString
  | String c s => f c +:+ str_map f s
  end.

(** [strings.ToLower], [strings.ToUpper]. *)
Definition ToLower (s : string) : string := str_map (λ c, String (lower_ascii c) "") s.
Definition ToUpper (s : string) : string := str_map (λ c, String (upper_ascii c) "") s.

(** [strings.Cut] on a one-byte separator. *)
Fixpoint Cut (sep : ascii) (s : string) : option (string * string) :=
  match s with
  | EmptyString => None
  | String c s => if decide (c = sep) then Some (EmptyString, s)
                  else (λ '(a, b), (String c a, b)) <$> Cut sep s
  end.

(** [strings.CutPrefix]. *)
Fixpoint CutPrefix (p s : string) : option string :=
  match p, s with
  | EmptyString, _ => Some s
  | String a p, String b s => if decide (a = b) then CutPrefix p s else None
  | _, EmptyString => None
  end.

(** A lookup in a literal map. *)
Fixpoint alookup (k : string) (l : list (string * string)) : option string :=
  match l with
  | [] => None
  | (k', v) :: l => if decide (k' = k) then Some v else alookup k l
  end.

(** [for k, v := range m { out[f(k, v)] = g(k, v) }], in the order of [l]. *)
Definition collect {A B} (f : A → string) (g : A → B) (l : list A) : gmap string B :=
  foldl (λ out x, <[f x := g x]> out) ∅ l.

(** ** Google Cloud *)

Module Gcp.

Definition maxLabelLen : nat := 63.

Definition shortNames : list (string * string) :=
  [(LabelManaged, "fp-managed"); (LabelOwner, "fp-owner"); (LabelID, "fp-id"); (LabelOp, "fp-op");
   (LabelClass, "fp-class"); (LabelTest, "fp-test"); (LabelTestRun, "fp-test-run")]%string.
Definition longNames : list (string * string) := (λ kv, (kv.2, kv.1)) <$> shortNames.

Definition restoreCase (short : string) : bool :=
  mem short ["fp-owner"; "fp-id"; "fp-op"; "fp-test-run"]%string.

Definition legal (c : ascii) : bool :=
  is_lower c || is_digit c || bool_decide (c = "-"%char) || bool_decide (c = "_"%char).

Definition sanitizeRunes (s : string) : string :=
  str_map (λ c, if legal c then String c "" else if is_cont c then "" else "-")%string (ToLower s).

Definition truncateLabel (s : string) : string :=
  if (maxLabelLen <? String.length s)%nat then String.substring 0 maxLabelLen s else s.

Definition sanitizeKey (k : string) : string :=
  let s := sanitizeRunes k in
  match s with
  | String c _ => if is_lower c then s else ("u-" +:+ s)%string
  | EmptyString => ("u-" +:+ s)%string
  end.

Definition encodeKey (k : string) : string :=
  match alookup k shortNames with
  | Some short => short
  | None => truncateLabel (sanitizeKey k)
  end.

Definition encodeValue (v : string) : string := truncateLabel (sanitizeRunes v).

Definition encodeLabels (l : list (string * string)) : gmap string string :=
  collect (λ kv, encodeKey kv.1) (λ kv, encodeValue kv.2) l.

(** [^[a-z]+_[0-9a-z]+$]. *)
Definition ulidLike (s : string) : bool :=
  match Cut "_" s with
  | Some (p, q) => negb (bool_decide (p = "")) && str_all is_lower p
                   && negb (bool_decide (q = "")) && str_all (λ c, is_digit c || is_lower c) q
  | None => false
  end.

Definition restoreValue (short v : string) : string :=
  if restoreCase short && ulidLike v then
    match Cut "_" v with
    | Some (prefix, payload) => (prefix +:+ "_" +:+ ToUpper payload)%string
    | None => v
    end
  else v.

(** One round of the loop: the key and the value it stores. *)
Definition decodeKey (k : string) : string :=
  match alookup k longNames with Some long => long | None => k end.
Definition decodeValue (k v : string) : string :=
  match alookup k longNames with Some _ => restoreValue k v | None => v end.

Definition decodeLabels (l : list (string * string)) : gmap string string :=
  collect (λ kv, decodeKey kv.1) (λ kv, decodeValue kv.1 kv.2) l.
End Gcp.

(** ** DigitalOcean *)

Module DigitalOcean.

Definition shortNames : list (string * string) :=
  [(LabelManaged, "managed"); (LabelOwner, "owner"); (LabelID, "id"); (LabelOp, "op");
   (LabelClass, "class"); (LabelTest, "test"); (LabelTestRun, "test-run");
   ("fleetplane.io/pool", "pool")]%string.
Definition longNames : list (string * string) := (λ kv, (kv.2, kv.1)) <$> shortNames.

Definition tagPrefix : string := "fp-".

Definition legal (c : ascii) : bool :=
  is_lower c || is_upper c || is_digit c || bool_decide (c = ":"%char)
  || bool_decide (c = "-"%char) || bool_decide (c = "_"%char).

Definition sanitizeTag (s : string) : string :=
  str_map (λ c, if legal c then String c "" else if is_cont c then "" else "-")%string s.

Definition encodeTag (k v : string) : option string :=
  (λ short, tagPrefix +:+ short +:+ ":" +:+ sanitizeTag v)%string <$> alookup k shortNames.

Definition encodeTags (l : list (string * string)) : list string :=
  omap (λ kv, encodeTag kv.1 kv.2) l.

Definition decodeTag (tag : string) : option (string * string) :=
  body ← CutPrefix tagPrefix tag;
  '(short, value) ← Cut ":" body;
  long ← alookup short longNames;
  Some (long, value).

Definition decodeTags (tags : list string) : gmap string string :=
  collect fst snd (omap decodeTag tags).
End DigitalOcean.

(** ** Facts on bytes *)

Lemma lower_ascii_not_upper c : is_upper c = false → lower_ascii c = c.
Proof.
  unfold is_upper, in_range, lower_ascii. change (nat_of_ascii "A") with 65%nat.
  change (nat_of_ascii "Z") with 90%nat. by intros ->.
Qed.

Lemma upper_lower c : is_lower c = false → upper_ascii (lower_ascii c) = c.
Proof. destruct c as [[] [] [] [] [] [] [] []]; vm_compute; congruence. Qed.

Lemma str_map_id f s : str_all (λ c, bool_decide (f c = String c "")) s = true → str_map f s = s.
Proof.
  induction s as [|c s IH]; simpl; [done|]. intros [Hc Hs]%andb_true_iff.
  apply bool_decide_eq_true in Hc. by rewrite Hc, IH.
Qed.
Lemma append_assoc (r s t : string) : (r +:+ s) +:+ t = r +:+ s +:+ t.
Proof. induction r as [|c r IH]; [done|]. exact (f_equal (String c) IH). Qed.
Lemma str_map_app f s t : str_map f (s +:+ t) = str_map f s +:+ str_map f t.
Proof. induction s as [|c s IH]; simpl; [done|]. by rewrite IH, append_assoc. Qed.

Lemma Cut_app sep s t :
  str_all (λ c, negb (bool_decide (c = sep))) s = true → Cut sep (s +:+ String sep t) = Some (s, t).
Proof.
  induction s as [|c s IH]; simpl; [by rewrite decide_True|].
  intros [Hc Hs]%andb_true_iff. apply negb_true_iff, bool_decide_eq_false in Hc.
  rewrite decide_False by done. by rewrite IH.
Qed.
Lemma CutPrefix_app p s : CutPrefix p (p +:+ s) = Some s.
Proof. induction p as [|c p IH]; simpl; [done|]. by rewrite decide_True. Qed.

(** What a loop that fills a map leaves, when its keys are distinct. *)
Lemma collect_lookup {A B} (f : A → string) (g : A → B) l :
  NoDup (f <$> l) → ∀ k v, collect f g l !! k = Some v ↔ ∃ x, x ∈ l ∧ f x = k ∧ g x = v.
Proof.
  unfold collect. intros Hnd k v.
  assert (∀ m : gmap string B, foldl (λ out x, <[f x := g x]> out) m l !! k = Some v ↔
    (∃ x, x ∈ l ∧ f x = k ∧ g x = v) ∨ (k ∉ f <$> l ∧ m !! k = Some v)) as Hgen.
  { induction l as [|x l IH]; intros m; simpl.
    - split; [intros ?; right; split; [apply not_elem_of_nil|done]|].
      intros [(x & Hx%elem_of_nil & _)|[_ ?]]; done.
    - simpl in Hnd. apply NoDup_cons in Hnd as [Hnin Hnd]. rewrite (IH Hnd), not_elem_of_cons. split.
      + intros [(y & Hy & ?)|[Hk Hm]]; [left; exists y; split; [by right|done]|].
        apply lookup_insert_Some in Hm as [[<- <-]|[Hne Hm]].
        * left. exists x. split; [by left|done].
        * right. done.
      + intros [(y & [->|Hy]%elem_of_cons & <- & <-)|[[Hne Hk] Hm]].
        * right. split; [done|]. by rewrite lookup_insert_eq.
        * left. by exists y.
        * right. split; [done|]. by rewrite lookup_insert_ne. }
  rewrite (Hgen ∅), lookup_empty. naive_solver.
Qed.

(** ** Round trips *)

Module GcpFacts.
Import Gcp.

(** A value the codec keeps: of an id, a prefix and an upper-case payload; of
    anything else, legal characters only. *)
Definition canonical (k v : string) : Prop :=
  (String.length v ≤ 63)%nat ∧
  match alookup k shortNames with
  | Some short =>
      if restoreCase short then
        ∃ p q, v = p +:+ String "_" q ∧ p ≠ ""%string ∧ q ≠ ""%string ∧ str_all is_lower p = true ∧
          str_all (λ c, is_digit c || is_upper c) q = true
      else str_all legal v = true
  | None => False
  end.

Lemma length_str_map f s : (∀ c, f c = String (lower_ascii c) "") →
  String.length (str_map f s) = String.length s.
Proof. intros Hf. induction s as [|c s IH]; simpl; [done|]. rewrite Hf. exact (f_equal S IH). Qed.

Lemma truncate_short s : (String.length s ≤ 63)%nat → truncateLabel s = s.
Proof. intros Hs. unfold truncateLabel, maxLabelLen. destruct (Nat.ltb_spec 63 (String.length s)); [lia|done]. Qed.

(** Alphanumerics, dash and underscore: lowered, then kept. *)
Lemma sanitize_lower s :
  str_all (λ c, legal (lower_ascii c)) s = true → sanitizeRunes s = ToLower s.
Proof.
  intros Hs. unfold sanitizeRunes. apply str_map_id. induction s as [|c s IH]; simpl in *; [done|].
  apply andb_true_iff in Hs as [Hc Hs]. rewrite Hc. rewrite bool_decide_eq_true_2 by done. by apply IH.
Qed.

Lemma ToLower_id s : str_all (λ c, negb (is_upper c)) s = true → ToLower s = s.
Proof.
  intros Hs. apply str_map_id. eapply str_all_impl; [|done]. intros c Hc%negb_true_iff.
  apply bool_decide_eq_true. by rewrite lower_ascii_not_upper.
Qed.

Lemma legal_not_upper c : legal c = true → negb (is_upper c) = true.
Proof. destruct c as [[] [] [] [] [] [] [] []]; vm_compute; congruence. Qed.
Lemma lower_not_upper c : is_lower c = true → negb (is_upper c) = true.
Proof. destruct c as [[] [] [] [] [] [] [] []]; vm_compute; congruence. Qed.
Lemma payload_lower c : is_digit c || is_upper c = true →
  legal (lower_ascii c) = true ∧ is_digit (lower_ascii c) || is_lower (lower_ascii c) = true ∧
  is_lower c = false.
Proof. destruct c as [[] [] [] [] [] [] [] []]; vm_compute; intros; repeat split; congruence. Qed.
Lemma lower_legal c : is_lower c = true → legal (lower_ascii c) = true ∧ c ≠ "_"%char.
Proof. destruct c as [[] [] [] [] [] [] [] []]; vm_compute; intros; split; congruence. Qed.
Lemma legal_lower c : legal c = true → legal (lower_ascii c) = true.
Proof. destruct c as [[] [] [] [] [] [] [] []]; vm_compute; congruence. Qed.

Lemma ToUpper_ToLower s : str_all (λ c, is_digit c || is_upper c) s = true → ToUpper (ToLower s) = s.
Proof.
  induction s as [|c s IH]; [done|]. simpl. intros [Hc Hs]%andb_true_iff.
  change (ToUpper (ToLower (String c s))) with (String (upper_ascii (lower_ascii c)) (ToUpper (ToLower s))).
  destruct (payload_lower c Hc) as (_ & _ & Hl). rewrite (upper_lower c Hl). f_equal. by apply IH.
Qed.

Lemma encode_id p q : str_all is_lower p = true → str_all (λ c, is_digit c || is_upper c) q = true →
  (String.length (p +:+ String "_" q) ≤ 63)%nat →
  encodeValue (p +:+ String "_" q) = p +:+ String "_" (ToLower q).
Proof.
  intros Hp Hq Hlen. unfold encodeValue. rewrite sanitize_lower.
  - rewrite truncate_short by (unfold ToLower; by rewrite length_str_map).
    unfold ToLower at 1. rewrite str_map_app. fold (ToLower p). rewrite ToLower_id.
    + done.
    + eapply str_all_impl; [|done]. apply lower_not_upper.
  - rewrite str_all_app. simpl. apply andb_true_iff. split.
    + eapply str_all_impl; [|done]. intros c Hc. apply (lower_legal c Hc).
    + eapply str_all_impl; [|done]. intros c Hc. apply (payload_lower c Hc).
Qed.

Lemma ulidLike_id p q : p ≠ ""%string → q ≠ ""%string → str_all is_lower p = true →
  str_all (λ c, is_digit c || is_upper c) q = true →
  Cut "_" (p +:+ String "_" (ToLower q)) = Some (p, ToLower q) ∧
  ulidLike (p +:+ String "_" (ToLower q)) = true.
Proof.
  intros Hp Hq Hpl Hql.
  assert (Cut "_" (p +:+ String "_" (ToLower q)) = Some (p, ToLower q)) as Hcut.
  { apply Cut_app. eapply str_all_impl; [|done]. intros c Hc. apply negb_true_iff, bool_decide_eq_false.
    apply (lower_legal c Hc). }
  split; [done|]. unfold ulidLike. rewrite Hcut, Hpl.
  rewrite !bool_decide_eq_false_2; [|by destruct q|done]. simpl.
  clear -Hql. induction q as [|c q IH]; simpl in *; [done|]. apply andb_true_iff in Hql as [Hc Hq].
  apply andb_true_iff. split; [apply (payload_lower c Hc)|by apply IH].
Qed.

Lemma short_of_known k short : alookup k shortNames = Some short →
  encodeKey k = short ∧ alookup short longNames = Some k.
Proof.
  intros Hk. unfold encodeKey. rewrite Hk. split; [done|].
  unfold shortNames in Hk. simpl in Hk. repeat case_decide; simplify_eq; vm_compute; reflexivity.
Qed.

Lemma value_round_trip k v : canonical k v →
  decodeKey (encodeKey k) = k ∧ decodeValue (encodeKey k) (encodeValue v) = v.
Proof.
  intros [Hlen Hv]. destruct (alookup k shortNames) as [short|] eqn:Hk; [|done].
  destruct (short_of_known _ _ Hk) as [-> Hl]. unfold decodeKey, decodeValue. rewrite Hl.
  split; [done|]. unfold restoreValue. destruct (restoreCase short) eqn:Hrc.
  - destruct Hv as (p & q & -> & Hp & Hq & Hpl & Hql). rewrite encode_id by done.
    destruct (ulidLike_id p q Hp Hq Hpl Hql) as [Hcut ->]. simpl. rewrite Hcut. simpl.
    by rewrite ToUpper_ToLower.
  - simpl. unfold encodeValue. rewrite sanitize_lower.
    + rewrite ToLower_id; [by apply truncate_short|]. eapply str_all_impl; [apply legal_not_upper|done].
    + eapply str_all_impl; [apply legal_lower|done].
Qed.

(** Identity labels survive Google Cloud's label alphabet, in whatever
    order Go ranges over the maps on the way there and back. *)
Theorem gcp_labels_round_trip L l l' :
  (∀ k v, L !! k = Some v → canonical k v) →
  l ≡ₚ map_to_list L → l' ≡ₚ map_to_list (encodeLabels l) → decodeLabels l' = L.
Proof.
  intros HL Hl Hl'.
  assert (∀ kv, kv ∈ l ↔ L !! kv.1 = Some kv.2) as Hin.
  { intros [k v]. rewrite Hl. apply elem_of_map_to_list. }
  assert (∀ kv, kv ∈ l → decodeKey (encodeKey kv.1) = kv.1 ∧
     decodeValue (encodeKey kv.1) (encodeValue kv.2) = kv.2) as Hrt.
  { intros kv Hkv. apply value_round_trip, HL, Hin, Hkv. }
  assert (NoDup ((λ kv, encodeKey kv.1) <$> l)) as Hnd.
  { apply NoDup_fmap_2_strong; [|rewrite Hl; apply NoDup_map_to_list].
    intros [k v] [k' v'] Hx Hy Heq. destruct (Hrt _ Hx) as [H1 _], (Hrt _ Hy) as [H2 _]. simpl in *.
    assert (k = k') as -> by congruence. apply Hin in Hx, Hy. simpl in *. congruence. }
  pose proof (collect_lookup _ (λ kv, encodeValue kv.2) l Hnd) as Henc.
  assert (∀ kv', kv' ∈ l' ↔ ∃ kv, kv ∈ l ∧ encodeKey kv.1 = kv'.1 ∧ encodeValue kv.2 = kv'.2) as Hin'.
  { intros [k' v']. rewrite Hl', elem_of_map_to_list. apply Henc. }
  assert (NoDup ((λ kv, decodeKey kv.1) <$> l')) as Hnd'.
  { apply NoDup_fmap_2_strong; [|rewrite Hl'; apply NoDup_map_to_list].
    intros [k v] [k' v'] (x & Hx & Hk1 & Hv1)%Hin' (y & Hy & Hk2 & Hv2)%Hin' Heq. simpl in *.
    destruct (Hrt _ Hx) as [H1 _], (Hrt _ Hy) as [H2 _]. subst. rewrite H1, H2 in Heq.
    apply Hin in Hx, Hy. destruct x, y. simpl in *. simplify_eq. done. }
  apply map_eq. intros k. apply option_eq. intros v.
  unfold decodeLabels. rewrite (collect_lookup _ (λ kv, decodeValue kv.1 kv.2) l' Hnd'). split.
  - intros ([k' v'] & (x & Hx & Hk1 & Hv1)%Hin' & <- & <-). simpl in *. subst.
    destruct (Hrt _ Hx) as [-> ->]. by apply Hin.
  - intros Hk. assert ((k, v) ∈ l) as Hx by (by apply Hin). destruct (Hrt _ Hx) as [H1 H2]. simpl in *.
    exists (encodeKey k, encodeValue v). split; [|done]. apply Hin'. by exists (k, v).
Qed.

(** ** Classes *)

Lemma sanitize_legal s : str_all legal (sanitizeRunes s) = true.
Proof.
  unfold sanitizeRunes. induction (ToLower s) as [|c t IH]; simpl; [done|].
  rewrite str_all_app, IH, andb_true_r. destruct (legal c) eqn:E; simpl; [by rewrite E|].
  by destruct (is_cont c).
Qed.
Lemma substring_legal n s : str_all legal s = true →
  str_all legal (String.substring 0 n s) = true ∧ (String.length (String.substring 0 n s) ≤ n)%nat.
Proof.
  revert n. induction s as [|c s IH]; intros [|n]; simpl; try (split; [done|lia]).
  intros [Hc Hs]%andb_true_iff. destruct (IH n Hs) as [H1 H2]. rewrite Hc, H1. split; [done|lia].
Qed.
Lemma encodeValue_legal v :
  str_all legal (encodeValue v) = true ∧ (String.length (encodeValue v) ≤ 63)%nat.
Proof.
  unfold encodeValue, truncateLabel, maxLabelLen. pose proof (sanitize_legal v) as Hs.
  destruct (Nat.ltb_spec 63 (String.length (sanitizeRunes v))); [by apply substring_legal|done].
Qed.

(** The class a machine was created from comes back from Google Cloud
    exactly when its name is at most 63 characters of the cloud's own
    alphabet; any capital letter is lost. *)
Theorem gcp_class_kept_iff v :
  decodeLabels (map_to_list (encodeLabels [(LabelClass, v)])) = {[ LabelClass := v ]} ↔
  str_all legal v = true ∧ (String.length v ≤ 63)%nat.
Proof.
  assert (decodeLabels (map_to_list (encodeLabels [(LabelClass, v)])) = {[ LabelClass := encodeValue v ]}) as ->.
  { unfold encodeLabels, collect. simpl. rewrite insert_empty, map_to_list_singleton. done. }
  pose proof (encodeValue_legal v) as [Hl Hn]. split.
  - intros Heq. assert (encodeValue v = v) as <-; [|done].
    apply (f_equal (λ m : gmap string string, m !! LabelClass)) in Heq.
    rewrite !lookup_singleton_eq in Heq. by injection Heq.
  - intros [Hv Hlen]. f_equal.
    destruct (value_round_trip LabelClass v) as [_ Hrt]; [by split|]. exact Hrt.
Qed.
End GcpFacts.

Module DigitalOceanFacts.
Import DigitalOcean.

Lemma tag_round_trip k v : alookup k shortNames ≠ None → str_all legal v = true →
  encodeTag k v ≫= decodeTag = Some (k, v).
Proof.
  intros Hk Hv. unfold encodeTag. destruct (alookup k shortNames) as [short|] eqn:Hs; [|done]. simpl.
  assert (sanitizeTag v = v) as ->.
  { apply str_map_id. eapply str_all_impl; [|done]. intros c Hc. apply bool_decide_eq_true. by rewrite Hc. }
  unfold decodeTag. rewrite (CutPrefix_app tagPrefix). simpl.
  assert (Cut ":" (short +:+ String ":" v) = Some (short, v) ∧ alookup short longNames = Some k) as [Hcut Hl].
  { unfold shortNames in Hs. simpl in Hs. repeat case_decide; simplify_eq; split; reflexivity. }
  change (short +:+ ":" +:+ v) with (short +:+ String ":" v). rewrite Hcut.
  change (alookup short longNames ≫= (λ long, Some (long, v)) = Some (k, v)). by rewrite Hl.
Qed.

Lemma tags_of l : (∀ kv, kv ∈ l → alookup kv.1 shortNames ≠ None ∧ str_all legal kv.2 = true) →
  omap decodeTag (encodeTags l) = l.
Proof.
  induction l as [|[k v] l IH]; intros Hl; [done|]. destruct (Hl (k, v)) as [Hk Hv]; [by left|].
  pose proof (tag_round_trip k v Hk Hv) as Hrt. unfold encodeTags. simpl in *.
  destruct (encodeTag k v) as [tag|]; simpl in *; [|done]. rewrite Hrt. f_equal. apply IH.
  intros kv Hkv. apply Hl. by right.
Qed.

(** The reserved labels survive DigitalOcean's flat tags, in whatever
    order Go ranges over the labels, and in whatever order the tags come
    back. *)
Theorem digitalocean_tags_round_trip L l tags :
  (∀ k v, L !! k = Some v → alookup k shortNames ≠ None ∧ str_all legal v = true) →
  l ≡ₚ map_to_list L → tags ≡ₚ encodeTags l → decodeTags tags = L.
Proof.
  intros HL Hl Ht.
  assert (omap decodeTag tags ≡ₚ map_to_list L) as Hp.
  { rewrite Ht, tags_of; [done|]. intros [k v]. rewrite Hl, elem_of_map_to_list. apply HL. }
  unfold decodeTags. apply map_eq. intros k. apply option_eq. intros v.
  rewrite collect_lookup by (rewrite Hp; apply NoDup_fst_map_to_list). split.
  - intros ([k' v'] & Hin & <- & <-). rewrite Hp in Hin. by apply elem_of_map_to_list in Hin.
  - intros Hk. exists (k, v). split; [|done]. rewrite Hp. by apply elem_of_map_to_list.
Qed.
End DigitalOceanFacts.

(** ** The labels the kernel stamps *)

Definition stamped : gmap string string :=
  <[LabelClass := "gpu-large"%string]>
    (IdentityLabels "own_01J9ZK3Q8B" "res_01J9ZK3Q8C" "op_01J9ZK3Q8D").

Lemma gcp_labels_round_trip_witness :
  Gcp.decodeLabels (map_to_list (Gcp.encodeLabels (map_to_list stamped))) = stamped.
Proof.
  apply (GcpFacts.gcp_labels_round_trip stamped (map_to_list stamped)); [|done|done].
  intros k v Hk. unfold stamped, IdentityLabels in Hk.
  repeat (apply lookup_insert_Some in Hk as [[<- <-]|[_ Hk]]); [| | | |by apply lookup_singleton_Some in Hk as [<- <-];
    split; [vm_compute; lia|]; exists "op"%string, "01J9ZK3Q8D"%string; split_and!; done].
  - split; [vm_compute; lia|done].
  - split; [vm_compute; lia|done].
  - split; [vm_compute; lia|]. exists "own"%string, "01J9ZK3Q8B"%string. split_and!; done.
  - split; [vm_compute; lia|]. exists "res"%string, "01J9ZK3Q8C"%string. split_and!; done.
Defined.

Lemma digitalocean_tags_round_trip_witness :
  DigitalOcean.decodeTags (DigitalOcean.encodeTags (map_to_list stamped)) = stamped.
Proof.
  apply (DigitalOceanFacts.digitalocean_tags_round_trip stamped (map_to_list stamped)); [|done|done].
  intros k v Hk. unfold stamped, IdentityLabels in Hk.
  repeat (apply lookup_insert_Some in Hk as [[<- <-]|[_ Hk]]); [done..|].
  by apply lookup_singleton_Some in Hk as [<- <-].
Defined.
