(* ===== verification/Marshal.v ===== *)
(** * Writing specs back as JSON (pkg/kinds)

    What [json.Marshal] makes of the spec types, durations as Go prints them,
    and that decoding gives back what was encoded. A JSON string is the byte
    string it stands for; Go replaces bytes that are not UTF-8, and no string
    that came out of a JSON document has such bytes. *)

From stdpp Require Import base gmap strings list sorting.
From Stdlib Require Import Ascii.
From S2P Require Import Prelude Errors Json SDK Kinds.

Import compute.

(** ** time.Duration.String *)

Definition digit_char (d : Z) : ascii := ascii_of_nat (48 + Z.to_nat d).

(** [fmtInt]: the digits of [v] in front of [acc]. Twenty digits hold every
    uint64; Go's loop runs while [v > 0]. *)
Fixpoint fmtDigits (fuel : nat) (v : Z) (acc : string) : string :=
  match fuel with
  | O => acc
  | S fuel => if decide (0 < v) then fmtDigits fuel (v / 10) (String (digit_char (v mod 10)) acc)
              else acc
  end.
Definition fmtInt (v : Z) (acc : string) : string :=
  if decide (v = 0) then String "0" acc else fmtDigits 20 v acc.

(** [fmtFrac]: [prec] digits of [v] without trailing zeros, and the rest. *)
Fixpoint fracLoop (prec : nat) (v : Z) (print : bool) (acc : string) : bool * string * Z :=
  match prec with
  | O => (print, acc, v)
  | S prec =>
      let d := v mod 10 in
      let print := print || negb (bool_decide (d = 0)) in
      fracLoop prec (v / 10) print (if print then String (digit_char d) acc else acc)
  end.
Definition fmtFrac (prec : nat) (v : Z) (acc : string) : string * Z :=
  let '(print, acc, v) := fracLoop prec v false acc in
  (if print then String "." acc else acc, v).

Definition format (u : Z) : string :=
  if decide (u < Second) then
    if decide (u = 0) then "0s"%string
    else let '(prec, unit) :=
           if decide (u < Microsecond) then (0%nat, "ns"%string)
           else if decide (u < Millisecond) then (3%nat, micro_sign)
           else (6%nat, "ms"%string) in
         let '(acc, u) := fmtFrac prec u unit in fmtInt u acc
  else
    let '(acc, u) := fmtFrac 9 u "s" in
    let acc := fmtInt (u mod 60) acc in
    let u := u / 60 in
    if decide (0 < u) then
      let acc := fmtInt (u mod 60) (String "m" acc) in
      let u := u / 60 in
      if decide (0 < u) then fmtInt u (String "h" acc) else acc
    else acc.

Definition Duration_String (d : Z) : string :=
  if decide (d < 0) then String "-" (format (- d)) else format d.

(** ** Encoders *)

(** [Duration.MarshalJSON]. *)
Definition enc_duration (d : Z) : json := JStr (Duration_String d).

(** [omitempty]. *)
Definition opt_field (keep : bool) (name : string) (j : json) : list (string * json) :=
  if keep then [(name, j)] else [].
Definition opt_string (name s : string) : list (string * json) :=
  opt_field (negb (bool_decide (s = ""%string))) name (JStr s).
Definition opt_int (name : string) (z : Z) : list (string * json) :=
  opt_field (negb (bool_decide (z = 0))) name (JInt z).
Definition opt_duration (name : string) (d : Z) : list (string * json) :=
  opt_field (negb (bool_decide (d = 0))) name (enc_duration d).
Definition opt_ptr {A} (name : string) (enc : A → json) (o : option A) : list (string * json) :=
  match o with Some a => [(name, enc a)] | None => [] end.

(** Maps are written in the order of their keys. *)
Definition sorted_entries {A} (m : gmap string A) : list (string * A) :=
  merge_sort key_le (map_to_list m).
Definition enc_map {A} (enc : A → json) (m : gmap string A) : json :=
  JObj (prod_map id enc <$> sorted_entries m).
Definition opt_map (name : string) (m : gmap string string) : list (string * json) :=
  opt_field (negb (bool_decide (m = ∅))) name (enc_map JStr m).

Definition enc_tcp (p : TCPProbe) : json :=
  JObj ([("port"%string, JInt (tcp_Port p))] ++ opt_duration "timeout" (tcp_Timeout p)).
Definition enc_http (p : HTTPProbe) : json :=
  JObj ([("port"%string, JInt (http_Port p)); ("path"%string, JStr (http_Path p))] ++
        opt_int "expectStatus" (http_ExpectStatus p) ++ opt_duration "timeout" (http_Timeout p)).
Definition enc_readiness (r : ReadinessSpec) : json :=
  JObj (opt_ptr "tcp" enc_tcp (TCP r) ++ opt_ptr "http" enc_http (HTTP r) ++
        opt_duration "initialDelay" (InitialDelay r) ++ opt_duration "period" (Period r) ++
        opt_duration "budget" (Budget r) ++ opt_int "successThreshold" (SuccessThreshold r)).
Definition enc_machine (s : MachineSpec) : json :=
  JObj ([("serverType"%string, JStr (ServerType s)); ("image"%string, JStr (Image s))] ++
        opt_string "location" (Location s) ++ opt_string "userData" (UserData s) ++
        opt_map "labels" (Labels s) ++ opt_ptr "readiness" enc_readiness (Readiness s)).
Definition enc_volume (s : volume.Spec) : json :=
  JObj ([("sizeGiB"%string, JInt (volume.SizeGiB s))] ++
        opt_string "zone" (volume.Zone s) ++ opt_string "filesystem" (volume.Filesystem s)).

Example String_examples :
  Duration_String 5400000000000 = "1h30m0s"%string ∧ Duration_String 1500000 = "1.5ms"%string ∧
  Duration_String (-90000000000) = "-1m30s"%string ∧ Duration_String 7 = "7ns"%string ∧
  ParseDuration (Duration_String min64) = Ok min64 ∧ ParseDuration (Duration_String 3661000000001) = Ok 3661000000001.
Proof. vm_compute. done. Qed.

(** ** Printed durations parse back *)

Module DurationFacts.

Definition is_num (d : Z) : Prop := 0 ≤ d < 10.
Fixpoint render (ds : list Z) (rest : string) : string :=
  match ds with [] => rest | d :: ds => String (digit_char d) (render ds rest) end.
Fixpoint num (ds : list Z) (x : Z) : Z :=
  match ds with [] => x | d :: ds => num ds (x * 10 + d) end.
Definition stops (rest : string) : Prop :=
  match rest with EmptyString => True | String c _ => Json.is_digit c = false end.

Lemma digit_char_spec d : is_num d → Json.is_digit (digit_char d) = true ∧ Json.digit (digit_char d) = d.
Proof.
  intros Hd. assert (d = 0 ∨ d = 1 ∨ d = 2 ∨ d = 3 ∨ d = 4 ∨ d = 5 ∨ d = 6 ∨ d = 7 ∨ d = 8 ∨ d = 9)
    as Hc by (unfold is_num in Hd; lia).
  repeat (destruct Hc as [->|Hc]; [by vm_compute|]). subst. by vm_compute.
Qed.

Lemma num_pow ds x : num ds x = x * 10 ^ Z.of_nat (length ds) + num ds 0.
Proof.
  revert x. induction ds as [|d ds IH]; intros x; cbn [num length]; [lia|].
  rewrite (IH (x * 10 + d)), (IH (0 * 10 + d)), Nat2Z.inj_succ, Z.pow_succ_r by lia. nia.
Qed.
Lemma num_bound ds : Forall is_num ds → 0 ≤ num ds 0 < 10 ^ Z.of_nat (length ds).
Proof.
  induction 1 as [|d ds Hd _ IH]; cbn [num length]; [lia|]. rewrite num_pow, Nat2Z.inj_succ, Z.pow_succ_r by lia.
  unfold is_num in Hd. nia.
Qed.
Lemma num_grows ds x : Forall is_num ds → 0 ≤ x → x ≤ num ds x.
Proof. intros Hd%num_bound Hx. rewrite num_pow. nia. Qed.
Lemma num_snoc ds d x : num (ds ++ [d]) x = num ds x * 10 + d.
Proof. revert x. induction ds as [|e ds IH]; intros x; simpl; [done|]. apply IH. Qed.
Lemma render_snoc ds d s : render (ds ++ [d]) s = render ds (String (digit_char d) s).
Proof. induction ds as [|e ds IH]; simpl; [done|]. by rewrite IH. Qed.
Lemma length_render ds s : String.length (render ds s) = (length ds + String.length s)%nat.
Proof. induction ds; simpl; [done|lia]. Qed.

Lemma leadingInt_render ds rest x :
  Forall is_num ds → 0 ≤ x → num ds x ≤ 2 ^ 63 → stops rest →
  leadingInt (render ds rest) x = Some (num ds x, rest).
Proof.
  intros Hds. revert x. induction Hds as [|d ds Hd Hds IH]; intros x Hx Hn Hr;
    cbn [num render leadingInt] in *.
  - destruct rest as [|c rest]; simpl in *; [done|]. by rewrite Hr.
  - destruct (digit_char_spec d Hd) as [-> ->]. unfold is_num in Hd.
    pose proof (num_grows ds (x * 10 + d) Hds ltac:(lia)) as Hg.
    assert (¬ 2 ^ 63 / 10 < x) as Hov by (change (2 ^ 63 / 10) with 922337203685477580; lia).
    rewrite decide_False by exact Hov. rewrite decide_False by lia. apply IH; lia || done.
Qed.

Lemma leadingFraction_render ds rest x scale :
  Forall is_num ds → 0 ≤ x → num ds x ≤ 2 ^ 60 → stops rest →
  leadingFraction (render ds rest) x scale false =
    (num ds x, scale * 10 ^ Z.of_nat (length ds), rest).
Proof.
  intros Hds. revert x scale. induction Hds as [|d ds Hd Hds IH]; intros x scale Hx Hn Hr;
    cbn [num render leadingFraction length] in *.
  - rewrite Z.mul_1_r. destruct rest as [|c rest]; simpl in *; [done|]. by rewrite Hr.
  - destruct (digit_char_spec d Hd) as [-> ->]. unfold is_num in Hd.
    pose proof (num_grows ds (x * 10 + d) Hds ltac:(lia)) as Hg.
    assert (¬ (2 ^ 63 - 1) / 10 < x) as Hov by (change ((2 ^ 63 - 1) / 10) with 922337203685477580; lia).
    rewrite decide_False by exact Hov. rewrite decide_False by lia.
    rewrite IH by (lia || done). rewrite Nat2Z.inj_succ, Z.pow_succ_r by lia. f_equal. f_equal. lia.
Qed.

Lemma fmtDigits_render fuel v acc : 0 ≤ v < 10 ^ Z.of_nat fuel →
  ∃ ds, Forall is_num ds ∧ fmtDigits fuel v acc = render ds acc ∧ num ds 0 = v ∧ (0 < v → ds ≠ []).
Proof.
  revert v acc. induction fuel as [|fuel IH]; intros v acc Hv; cbn [fmtDigits].
  - exists []. simpl in *. split_and!; [done|done|lia|lia].
  - case_decide; [|exists []; simpl in *; split_and!; [done|done|lia|lia]].
    pose proof (Z.mod_pos_bound v 10 ltac:(lia)) as Hm.
    pose proof (Z.div_mod v 10 ltac:(lia)) as Hdm.
    destruct (IH (v / 10) (String (digit_char (v mod 10)) acc)) as (ds & Hds & Heq & Hn & _).
    { rewrite Nat2Z.inj_succ, Z.pow_succ_r in Hv by lia. lia. }
    exists (ds ++ [v mod 10]). rewrite render_snoc, num_snoc, Hn. split_and!; [|done|lia|by destruct ds].
    apply Forall_app. split; [done|]. by constructor.
Qed.

Lemma fmtInt_render v acc : 0 ≤ v ≤ 2 ^ 63 →
  ∃ ds, Forall is_num ds ∧ fmtInt v acc = render ds acc ∧ num ds 0 = v ∧ ds ≠ [].
Proof.
  intros Hv. unfold fmtInt. case_decide as Hz.
  - subst. exists [0]. split_and!; [by repeat constructor|done..].
  - destruct (fmtDigits_render 20 v acc) as (ds & ? & ? & ? & ?); [split; [lia|]; simpl; lia|].
    exists ds. split_and!; [done..|]. auto with lia.
Qed.

(** [fs] are the digits printed so far, [z] the trailing zeros dropped. *)
Lemma fracLoop_render prec v fs z rest :
  0 ≤ v → Forall is_num fs → 0 ≤ z →
  ∃ fs' z', fracLoop prec v (negb (bool_decide (fs = []))) (render fs rest)
              = (negb (bool_decide (fs' = [])), render fs' rest, v / 10 ^ Z.of_nat prec) ∧
    Forall is_num fs' ∧ 0 ≤ z' ∧ z' + Z.of_nat (length fs') = z + Z.of_nat (length fs) + Z.of_nat prec ∧
    num fs' 0 * 10 ^ z' = num fs 0 * 10 ^ z +
      (v mod 10 ^ Z.of_nat prec) * 10 ^ (z + Z.of_nat (length fs)).
Proof.
  revert v fs z. induction prec as [|prec IH]; intros v fs z Hv Hfs Hz; cbn [fracLoop].
  - exists fs, z. rewrite Z.pow_0_r, Z.div_1_r, Z.mod_1_r. split_and!; [done..|lia|lia].
  - pose proof (Z.mod_pos_bound v 10 ltac:(lia)) as Hd.
    assert (v / 10 ^ Z.of_nat (S prec) = v / 10 / 10 ^ Z.of_nat prec) as ->.
    { rewrite Nat2Z.inj_succ, Z.pow_succ_r, Z.div_div by lia. done. }
    assert (v mod 10 ^ Z.of_nat (S prec) = v mod 10 + 10 * ((v / 10) mod 10 ^ Z.of_nat prec)) as ->.
    { rewrite Nat2Z.inj_succ, Z.pow_succ_r, Z.rem_mul_r by lia. done. }
    destruct (decide (fs = [] ∧ v mod 10 = 0)) as [[-> H0]|Hne].
    + destruct (IH (v / 10) [] (z + 1)) as (fs' & z' & Heq & Hfs' & Hz' & Hlen & Hval); [by apply Z.div_pos|done|lia|].
      exists fs', z'. rewrite !bool_decide_eq_true_2 by done. simpl in *. rewrite Heq, H0.
      split_and!; [done..|lia|]. rewrite Hval, !Z.add_0_r, Z.pow_add_r by lia. lia.
    + destruct (IH (v / 10) (v mod 10 :: fs) z) as (fs' & z' & Heq & Hfs' & Hz' & Hlen & Hval);
        [by apply Z.div_pos|by constructor|lia|].
      exists fs', z'.
      assert (negb (bool_decide (fs = [])) || negb (bool_decide (v mod 10 = 0)) = true) as ->.
      { rewrite orb_true_iff, !negb_true_iff, !bool_decide_eq_false. destruct (decide (fs = [])) as [->|]; [right; intros ?; by apply Hne|by left]. }
      rewrite bool_decide_eq_false_2 in Heq by done. cbn [negb render length num] in Heq, Hlen, Hval. rewrite Heq.
      split_and!; [done..|lia|]. rewrite Hval, num_pow, Nat2Z.inj_succ, Z.add_succ_r, Z.pow_succ_r, !Z.pow_add_r by lia.
      lia.
Qed.

Definition frac_text (fs : list Z) (s : string) : string :=
  match fs with [] => s | _ => String "." (render fs s) end.

Lemma fmtFrac_render prec v acc : 0 ≤ v →
  ∃ fs, Forall is_num fs ∧ fmtFrac prec v acc = (frac_text fs acc, v / 10 ^ Z.of_nat prec) ∧
    (length fs ≤ prec)%nat ∧
    num fs 0 * 10 ^ (Z.of_nat prec - Z.of_nat (length fs)) = v mod 10 ^ Z.of_nat prec.
Proof.
  intros Hv. destruct (fracLoop_render prec v [] 0 acc) as (fs & z & Heq & Hfs & Hz & Hlen & Hval); [done..|].
  exists fs. unfold fmtFrac. rewrite bool_decide_eq_true_2 in Heq by done. simpl in Heq, Hlen, Hval. rewrite Heq.
  split_and!; [done| |lia|].
  - f_equal. by destruct fs.
  - replace (Z.of_nat prec - Z.of_nat (length fs)) with z by lia. lia.
Qed.

(** ** One group *)

Definition starts (rest : string) : Prop :=
  match rest with EmptyString => True | String c _ => Json.is_digit c = true end.
Record unit_text (u : string) (unit : Z) : Prop := {
  ut_map : unitMap u = Some unit;
  ut_pos : 0 < unit;
  ut_head : match u with
            | EmptyString => False
            | String c _ => Json.is_digit c = false ∧ c ≠ "."%char
            end;
  ut_take rest : starts rest → take_unit (u +:+ rest) = (u, rest)
}.

Lemma take_unit_starts rest : starts rest → take_unit rest = (""%string, rest).
Proof. destruct rest; simpl; [done|]. by intros ->. Qed.

Lemma take_unit_cons c s : Json.is_digit c || bool_decide (c = "."%char) = false →
  take_unit (String c s) = let '(u, rest) := take_unit s in (String c u, rest).
Proof. cbn [take_unit]. by intros ->. Qed.

Ltac solve_unit :=
  split; [reflexivity|done|done|]; let r := fresh "rest" in let H := fresh in intros r H;
  unfold micro_sign; cbv [String.append]; rewrite !take_unit_cons by reflexivity;
  by rewrite (take_unit_starts r H).
Lemma unit_ns : unit_text "ns" Nanosecond. Proof. solve_unit. Qed.
Lemma unit_us : unit_text micro_sign Microsecond. Proof. solve_unit. Qed.
Lemma unit_ms : unit_text "ms" Millisecond. Proof. solve_unit. Qed.
Lemma unit_s : unit_text "s" Second. Proof. solve_unit. Qed.
Lemma unit_m : unit_text "m" Minute. Proof. solve_unit. Qed.
Lemma unit_h : unit_text "h" Hour. Proof. solve_unit. Qed.

Lemma unit_stops u unit rest : unit_text u unit → stops (u +:+ rest).
Proof. intros Hu. pose proof (ut_head _ _ Hu) as Hh. destruct u; [done|]. apply Hh. Qed.

Lemma leadingPart_render fs u unit rest s1 :
  Forall is_num fs → (length fs ≤ 9)%nat → unit_text u unit → s1 = frac_text fs (u +:+ rest) →
  match s1 with
  | String "." s1' =>
      let '(f, scale, s2) := leadingFraction s1' 0 1 false in
      (f, scale, s2, negb (String.length s2 =? String.length s1')%nat)
  | _ => (0, 1, s1, false)
  end = (num fs 0, 10 ^ Z.of_nat (length fs), u +:+ rest, negb (bool_decide (fs = []))).
Proof.
  intros Hfs Hlen Hu ->. destruct fs as [|f fs].
  - pose proof (ut_head _ _ Hu) as Hh. destruct u as [|c u]; [done|]. destruct Hh as [_ Hc]. simpl.
    destruct c as [[] [] [] [] [] [] [] []]; try done.
  - cbn [frac_text]. rewrite leadingFraction_render; [|done|lia| |by eapply unit_stops].
    + rewrite Z.mul_1_l, length_render. f_equal. simpl. apply negb_true_iff, Nat.eqb_neq. lia.
    + pose proof (num_bound _ Hfs) as Hb.
      assert (10 ^ Z.of_nat (length (f :: fs)) ≤ 10 ^ 9) by (apply Z.pow_le_mono_r; lia). lia.
Qed.

Lemma group_step ds fs u unit rest d fuel :
  Forall is_num ds → ds ≠ [] → Forall is_num fs → (length fs ≤ 9)%nat →
  unit_text u unit → starts rest → 0 ≤ d →
  d + (num ds 0 * unit + num fs 0 * unit / 10 ^ Z.of_nat (length fs)) ≤ 2 ^ 63 →
  duration_groups (S fuel) (render ds (frac_text fs (u +:+ rest))) d =
  duration_groups fuel rest (d + (num ds 0 * unit + num fs 0 * unit / 10 ^ Z.of_nat (length fs))).
Proof.
  intros Hds Hne Hfs Hlen Hu Hrest Hd Hb.
  pose proof (num_bound _ Hds) as Hnd. pose proof (num_bound _ Hfs) as Hnf. pose proof (ut_pos _ _ Hu) as Hp.
  assert (0 ≤ num fs 0 * unit / 10 ^ Z.of_nat (length fs)) as Hq by (apply Z.div_pos; nia).
  destruct ds as [|d0 ds]; [done|]. pose proof (digit_char_spec d0 (Forall_inv Hds)) as [Hdig _].
  remember (frac_text fs (u +:+ rest)) as tail eqn:Htail.
  assert (stops tail) as Hst.
  { subst tail. destruct fs; simpl; [by eapply unit_stops|done]. }
  cbn [duration_groups render]. rewrite Hdig. cbn [orb negb].
  change (String (digit_char d0) (render ds tail)) with (render (d0 :: ds) tail).
  rewrite leadingInt_render; [|done|lia|nia|done].
  rewrite (leadingPart_render fs u unit rest tail Hfs Hlen Hu Htail), length_render, (ut_take _ _ Hu rest Hrest), (ut_map _ _ Hu).
  replace (String.length tail =? length (d0 :: ds) + String.length tail)%nat with false
    by (symmetry; apply Nat.eqb_neq; simpl; lia).
  cbn [negb andb].
  assert (num (d0 :: ds) 0 ≤ 2 ^ 63 / unit) as Hle by (apply Z.div_le_lower_bound; lia).
  rewrite decide_False by (apply Z.nlt_ge; exact Hle).
  replace (if decide (0 < num fs 0) then num fs 0 * unit / 10 ^ Z.of_nat (length fs) else 0)
    with (num fs 0 * unit / 10 ^ Z.of_nat (length fs)).
  2: { case_decide; [done|]. replace (num fs 0) with 0 by lia. done. }
  rewrite decide_False by lia. rewrite decide_False by lia. done.
Qed.

(** ** Whole durations *)

Definition digit_first (s : string) : Prop :=
  match s with EmptyString => False | String c s => Json.is_digit c = true ∧ s ≠ ""%string end.
Lemma digit_first_starts s : digit_first s → starts s.
Proof. destruct s; [done|]. by intros []. Qed.
Lemma render_first ds s : Forall is_num ds → ds ≠ [] → s ≠ ""%string → digit_first (render ds s).
Proof.
  intros Hds Hne Hs. destruct ds as [|d ds]; [done|]. split; [apply (digit_char_spec d), (Forall_inv Hds)|].
  destruct ds; done.
Qed.
Lemma append_nil_r s : s +:+ "" = s.
Proof. induction s as [|c s IH]; [done|]. exact (f_equal (String c) IH). Qed.
Lemma length_fmtInt v s : 0 ≤ v ≤ 2 ^ 63 → (S (String.length s) ≤ String.length (fmtInt v s))%nat.
Proof.
  intros Hv. destruct (fmtInt_render v s Hv) as (ds & _ & -> & _ & Hne). rewrite length_render.
  destruct ds; [done|]. simpl. lia.
Qed.
Lemma groups_end fuel d : duration_groups fuel "" d = Some d.
Proof. by destruct fuel. Qed.

(** A number without fraction, its unit, and what follows. *)
Lemma int_group v u unit rest d fuel :
  0 ≤ v → 0 ≤ d → d + v * unit ≤ 2 ^ 63 → unit_text u unit → starts rest →
  digit_first (fmtInt v (u +:+ rest)) ∧
  duration_groups (S fuel) (fmtInt v (u +:+ rest)) d = duration_groups fuel rest (d + v * unit).
Proof.
  intros Hv Hd Hb Hu Hrest. pose proof (ut_pos _ _ Hu) as Hp.
  destruct (fmtInt_render v (u +:+ rest)) as (ds & Hds & -> & <- & Hne); [nia|]. split.
  - apply render_first; [done..|]. pose proof (ut_head _ _ Hu). by destruct u.
  - pose proof (group_step ds [] u unit rest d fuel Hds Hne ltac:(constructor) ltac:(simpl; lia) Hu Hrest Hd) as Hg.
    simpl in Hg. rewrite Z.div_1_r, Z.add_0_r in Hg. by apply Hg.
Qed.

(** A number whose fraction was split off with [prec] digits. *)
Lemma frac_group prec u unit w d fuel acc q :
  unit = 10 ^ Z.of_nat prec → (prec ≤ 9)%nat → unit_text u unit →
  0 ≤ w → fmtFrac prec w u = (acc, q) → q = w / unit →
  ∀ v, 0 ≤ v → 0 ≤ d → d + (v * unit + w mod unit) ≤ 2 ^ 63 →
  digit_first (fmtInt v acc) ∧
  duration_groups (S fuel) (fmtInt v acc) d = Some (d + (v * unit + w mod unit)).
Proof.
  intros Hunit Hprec Hu Hw Hf _ v Hv Hd Hb. pose proof (ut_pos _ _ Hu) as Hp.
  destruct (fmtFrac_render prec w u Hw) as (fs & Hfs & Heq & Hlen & Hval).
  rewrite Hf in Heq. injection Heq as -> _.
  pose proof (Z.mod_pos_bound w unit Hp) as Hm.
  assert (num fs 0 * unit / 10 ^ Z.of_nat (length fs) = w mod unit) as Hfrac.
  { rewrite Hunit at 2. rewrite <-Hval, Hunit.
    replace (Z.of_nat prec) with (Z.of_nat prec - Z.of_nat (length fs) + Z.of_nat (length fs)) at 1 by lia.
    rewrite Z.pow_add_r, Z.mul_assoc, Z.div_mul by lia. done. }
  destruct (fmtInt_render v (frac_text fs u)) as (ds & Hds & -> & <- & Hne); [nia|]. split.
  - apply render_first; [done..|]. pose proof (ut_head _ _ Hu). by destruct fs, u.
  - pose proof (group_step ds fs u unit "" d fuel Hds Hne Hfs ltac:(lia) Hu I Hd) as Hg.
    rewrite Hfrac in Hg. rewrite append_nil_r in Hg. rewrite Hg by done. apply groups_end.
Qed.

Lemma length_first s : digit_first s → ∃ n, String.length s = S (S n).
Proof. destruct s as [|c [|c' s]]; [done|by intros [_ ?]|]. intros _. simpl. eauto. Qed.

Lemma seconds_parse w d fuel acc q :
  0 ≤ w → 0 ≤ d → fmtFrac 9 w "s" = (acc, q) →
  d + w mod Minute ≤ 2 ^ 63 →
  digit_first (fmtInt (w / Second mod 60) acc) ∧
  duration_groups (S fuel) (fmtInt (w / Second mod 60) acc) d = Some (d + w mod Minute).
Proof.
  intros Hw Hd Hf Hb. pose proof (Z.mod_pos_bound (w / Second) 60 ltac:(lia)) as Hm.
  assert (w / Second mod 60 * Second + w mod Second = w mod Minute) as Heq.
  { unfold Minute. rewrite (Z.mul_comm 60), Z.rem_mul_r by (unfold Second; lia). lia. }
  rewrite <-Heq in *. eapply (frac_group 9); [done|lia|exact unit_s|done|exact Hf| |lia..].
  destruct (fmtFrac_render 9 w "s" Hw) as (fs & _ & Heq' & _). rewrite Hf in Heq'. by injection Heq'.
Qed.

Lemma fmtFrac_rest prec w u : 0 ≤ w → (fmtFrac prec w u).2 = w / 10 ^ Z.of_nat prec.
Proof. intros Hw. by destruct (fmtFrac_render prec w u Hw) as (fs & _ & -> & _). Qed.

Lemma minutes_parse w d fuel acc q :
  0 ≤ w → 0 ≤ d → fmtFrac 9 w "s" = (acc, q) → d + w mod Hour ≤ 2 ^ 63 →
  let s := fmtInt (w / Minute mod 60) (String "m" (fmtInt (w / Second mod 60) acc)) in
  digit_first s ∧ duration_groups (S (S fuel)) s d = Some (d + w mod Hour).
Proof.
  intros Hw Hd Hf Hb. pose proof (Z.mod_pos_bound (w / Minute) 60 ltac:(lia)) as Hm.
  pose proof (Z.mod_pos_bound w Minute ltac:(done)) as Hm'.
  assert (w / Minute mod 60 * Minute + w mod Minute = w mod Hour) as Heq.
  { unfold Hour. rewrite (Z.mul_comm 60), Z.rem_mul_r by done. lia. }
  rewrite <-Heq in *.
  assert (0 ≤ w / Minute mod 60 * Minute) by (apply Z.mul_nonneg_nonneg; [lia|done]).
  destruct (seconds_parse w (d + w / Minute mod 60 * Minute) fuel acc q Hw) as [Hfst Hsec]; [lia|done|lia|].
  pose proof (int_group (w / Minute mod 60) "m" Minute (fmtInt (w / Second mod 60) acc) d (S fuel)) as Hg.
  destruct Hg as [H1 H2]; [lia|lia|lia|exact unit_m|by apply digit_first_starts|].
  split; [exact H1|]. etrans; [exact H2|]. rewrite Hsec. f_equal. lia.
Qed.

(** Every duration below or at [2^63] nanoseconds. *)
Lemma format_parse u : 0 ≤ u ≤ 2 ^ 63 →
  digit_first (format u) ∧ duration_groups (String.length (format u)) (format u) 0 = Some u.
Proof.
  intros Hu. unfold format. case_decide as Hsec.
  - case_decide as H0; [by subst|].
    assert (∃ prec unit txt, (if decide (u < Microsecond) then (0%nat, "ns"%string)
       else if decide (u < Millisecond) then (3%nat, micro_sign) else (6%nat, "ms"%string)) = (prec, txt) ∧
       unit = 10 ^ Z.of_nat prec ∧ (prec ≤ 9)%nat ∧ unit_text txt unit) as (prec & unit & txt & -> & Hunit & Hp & Htxt).
    { case_decide; [exists 0%nat, Nanosecond, "ns"%string; split_and!; [done|done|lia|exact unit_ns]|].
      case_decide; [exists 3%nat, Microsecond, micro_sign; split_and!; [done|done|lia|exact unit_us]|].
      exists 6%nat, Millisecond, "ms"%string. split_and!; [done|done|lia|exact unit_ms]. }
    pose proof (fmtFrac_rest prec u txt ltac:(lia)) as Hq.
    destruct (fmtFrac prec u txt) as [acc q] eqn:Hf. simpl in Hq. rewrite <-Hunit in Hq.
    pose proof (ut_pos _ _ Htxt) as Hpos. pose proof (Z.div_mod u unit ltac:(lia)) as Hdm.
    assert (0 ≤ q) by (subst q; apply Z.div_pos; lia).
    assert (∀ fuel, digit_first (fmtInt q acc) ∧
      duration_groups (S fuel) (fmtInt q acc) 0 = Some (0 + (q * unit + u mod unit))) as Hg.
    { intros fuel. eapply frac_group; [done|done|done|lia|exact Hf|done|done|lia|]. subst q. lia. }
    destruct (length_first _ (proj1 (Hg 0%nat))) as [n ->]. split; [apply (Hg 0%nat)|].
    rewrite (proj2 (Hg _)). f_equal. subst q. lia.
  - destruct (fmtFrac 9 u "s") as [acc q] eqn:Hf.
    assert (q = u / Second) as -> by (pose proof (fmtFrac_rest 9 u "s" ltac:(lia)) as Hq; by rewrite Hf in Hq).
    rewrite Z.div_div by (unfold Second; lia). change (Second * 60) with Minute.
    case_decide as Hmin.
    + rewrite Z.div_div by (unfold Minute, Second; lia). change (Minute * 60) with Hour.
      pose proof (Z.mod_pos_bound u Hour ltac:(done)) as Hmh. pose proof (Z.div_mod u Hour ltac:(done)) as Hdh.
      pose proof (Z.mod_le u Hour ltac:(lia) ltac:(done)) as Hle.
      assert (u / Hour ≤ 2 ^ 63) by (apply Z.div_le_upper_bound; [done|unfold Hour, Minute, Second; lia]).
      case_decide as Hhr.
      * assert (∀ fuel, let s := fmtInt (u / Hour) (String "h" (fmtInt (u / Minute mod 60)
             (String "m" (fmtInt (u / Second mod 60) acc)))) in
           digit_first s ∧ duration_groups (S (S (S fuel))) s 0 = Some u) as Hg.
        { intros fuel s.
          destruct (minutes_parse u (0 + u / Hour * Hour) fuel acc (u / Second)) as [Hfst Hrest]; [lia|nia|done|lia|].
          destruct (int_group (u / Hour) "h" Hour (fmtInt (u / Minute mod 60)
             (String "m" (fmtInt (u / Second mod 60) acc))) 0 (S (S fuel))) as [H1 H2];
            [lia|lia|lia|exact unit_h|by apply digit_first_starts|].
          split; [exact H1|]. etrans; [exact H2|]. rewrite Hrest. f_equal. lia. }
        split; [apply (Hg 0%nat)|].
        destruct (minutes_parse u 0 0 acc (u / Second)) as [[m Hm]%length_first _]; [lia|nia|done|lia|].
        pose proof (length_fmtInt (u / Hour) (String "h" (fmtInt (u / Minute mod 60)
             (String "m" (fmtInt (u / Second mod 60) acc)))) ltac:(lia)) as Hlen.
        cbn [String.length] in Hlen. rewrite Hm in Hlen.
        destruct (String.length (fmtInt (u / Hour) _)) as [|[|[|n]]]; [lia..|apply Hg].
      * assert (u mod Hour = u) as Hsmall by (apply Z.mod_small; split; [lia|]; apply Z.nle_gt; intros Hge;
          apply Hhr, Z.div_str_pos; split; [done|lia]).
        assert (∀ fuel, let s := fmtInt (u / Minute mod 60) (String "m" (fmtInt (u / Second mod 60) acc)) in
           digit_first s ∧ duration_groups (S (S fuel)) s 0 = Some u) as Hg.
        { intros fuel. pose proof (minutes_parse u 0 fuel acc (u / Second)) as Hg. rewrite Hsmall in Hg.
          apply Hg; lia || done. }
        split; [apply (Hg 0%nat)|]. destruct (length_first _ (proj1 (Hg 0%nat))) as [n ->]. apply Hg.
    + assert (u mod Minute = u) as Hsmall by (apply Z.mod_small; split; [lia|]; apply Z.nle_gt; intros Hge;
        apply Hmin, Z.div_str_pos; split; [done|lia]).
      destruct (seconds_parse u 0 0 acc (u / Second)) as [Hfst _]; [lia|nia|done|lia|].
      split; [done|]. destruct (length_first _ Hfst) as [n ->].
      destruct (seconds_parse u 0 (S n) acc (u / Second)) as [_ Hg]; [lia|nia|done|lia|].
      rewrite Hg, Hsmall. done.
Qed.

Lemma duration_round_trip d : in64 d → ParseDuration (Duration_String d) = Ok d.
Proof.
  intros Hd. unfold in64, min64, max64 in Hd. unfold Duration_String, ParseDuration. case_decide as Hneg.
  - destruct (format_parse (- d) ltac:(lia)) as [Hf Hp]. cbn [fst snd].
    destruct (format (- d)) as [|c s] eqn:Hs; [done|]. destruct Hf as [_ Hne].
    rewrite decide_False by congruence. rewrite decide_False by done. rewrite Hp. f_equal. lia.
  - destruct (format_parse d ltac:(lia)) as [Hf Hp].
    destruct (format d) as [|c s] eqn:Hs; [done|]. destruct Hf as [Hc Hne].
    assert (match String c s with String "-" s' => (true, s') | String "+" s' => (false, s')
            | _ => (false, String c s) end = (false, String c s)) as ->.
    { destruct c as [[] [] [] [] [] [] [] []]; try done. }
    rewrite decide_False by congruence. rewrite decide_False by done. rewrite Hp.
    rewrite decide_False by (unfold max64; lia). done.
Qed.

End DurationFacts.

(** ** Encoded specs decode to themselves *)

Module SpecFacts.

Lemma dec_field_app {A} name (d : json → A → result A) fs gs old :
  dec_field name d (fs ++ gs) old =
  match dec_field name d fs old with Ok a => dec_field name d gs a | Err e => Err e end.
Proof.
  revert old. induction fs as [|[k j] fs IH]; intros old; simpl; [done|].
  destruct (key_match k name); [|apply IH]. by destruct (d j old).
Qed.
Lemma dec_field_cons {A} name k j (d : json → A → result A) fs old :
  dec_field name d ((k, j) :: fs) old =
  if key_match k name then match d j old with Ok a => dec_field name d fs a | Err e => Err e end
  else dec_field name d fs old.
Proof. done. Qed.

Section fields.
Context {A : Type} (name k : string) (d : json → A → result A) (old : A).

Lemma dec_opt_skip b j : key_match k name = false → dec_field name d (opt_field b k j) old = Ok old.
Proof. intros Hk. destruct b; simpl; [by rewrite Hk|done]. Qed.
Lemma dec_string_skip s : key_match k name = false → dec_field name d (opt_string k s) old = Ok old.
Proof. apply dec_opt_skip. Qed.
Lemma dec_int_skip z : key_match k name = false → dec_field name d (opt_int k z) old = Ok old.
Proof. apply dec_opt_skip. Qed.
Lemma dec_duration_skip z : key_match k name = false → dec_field name d (opt_duration k z) old = Ok old.
Proof. apply dec_opt_skip. Qed.
Lemma dec_map_skip m : key_match k name = false → dec_field name d (opt_map k m) old = Ok old.
Proof. apply dec_opt_skip. Qed.
Lemma dec_ptr_skip {B} (enc : B → json) o : key_match k name = false →
  dec_field name d (opt_ptr k enc o) old = Ok old.
Proof. intros Hk. destruct o; simpl; [by rewrite Hk|done]. Qed.
End fields.

Lemma key_match_refl k : key_match k k = true.
Proof. by apply bool_decide_eq_true. Qed.

Lemma dec_opt_string name s : dec_field name dec_string (opt_string name s) "" = Ok s.
Proof. unfold opt_string. case_bool_decide as Hs; simpl; [by subst|]. by rewrite key_match_refl. Qed.
Lemma dec_opt_int name z : in64 z → dec_field name dec_int64 (opt_int name z) 0 = Ok z.
Proof.
  intros Hz. unfold opt_int. case_bool_decide as H0; simpl; [by subst|].
  by rewrite key_match_refl, decide_True.
Qed.
Lemma dec_opt_duration name z : in64 z → dec_field name dec_duration (opt_duration name z) 0 = Ok z.
Proof.
  intros Hz. unfold opt_duration. case_bool_decide as H0; cbn [negb opt_field dec_field]; [by subst|].
  rewrite key_match_refl. unfold dec_duration, enc_duration, dec_string.
  by rewrite DurationFacts.duration_round_trip.
Qed.
Lemma dec_opt_ptr {A} name (enc : A → json) (zero : A) d o :
  (∀ a, o = Some a → d (enc a) zero = Ok a ∧ enc a ≠ JNull) →
  dec_field name (dec_ptr zero d) (opt_ptr name enc o) None = Ok o.
Proof.
  destruct o as [a|]; simpl; [|done]. intros Ho. destruct (Ho a eq_refl) as [Hd Hn].
  rewrite key_match_refl. unfold dec_ptr. simpl. rewrite Hd. by destruct (enc a).
Qed.

Lemma dec_map_fields_list {A} (zero : A) (d : json → A → result A) (enc : A → json) l (m : gmap string A) :
  (∀ a, d (enc a) zero = Ok a) →
  dec_map_fields zero d (prod_map id enc <$> l) m = Ok (foldl (λ m kv, <[kv.1 := kv.2]> m) m l).
Proof.
  intros Hd. revert m. induction l as [|[k a] l IH]; intros m; simpl; [done|].
  rewrite Hd. apply IH.
Qed.
Lemma foldl_inserts {A} (l : list (string * A)) (m : gmap string A) :
  NoDup l.*1 → foldl (λ m kv, <[kv.1 := kv.2]> m) m l = list_to_map l ∪ m.
Proof.
  revert m. induction l as [|[k a] l IH]; intros m Hnd; simpl; [by rewrite map_empty_union|].
  inversion_clear Hnd as [|?? Hk Hl]. rewrite IH by done.
  rewrite <-insert_union_r by (by apply not_elem_of_list_to_map). by rewrite insert_union_l.
Qed.
Lemma sorted_entries_map {A} (m : gmap string A) : list_to_map (sorted_entries m) = m.
Proof.
  unfold sorted_entries. rewrite <-(list_to_map_to_list m) at 2. apply list_to_map_proper.
  - rewrite (merge_sort_Permutation key_le). apply NoDup_fst_map_to_list.
  - apply merge_sort_Permutation.
Qed.
Lemma dec_enc_map {A} (zero : A) d (enc : A → json) (m : gmap string A) :
  (∀ a, d (enc a) zero = Ok a) →
  dec_map_fields zero d (prod_map id enc <$> sorted_entries m) ∅ = Ok m.
Proof.
  intros Hd. rewrite dec_map_fields_list, foldl_inserts, map_union_empty, sorted_entries_map; [done| |done].
  unfold sorted_entries. rewrite (merge_sort_Permutation key_le). apply NoDup_fst_map_to_list.
Qed.

Lemma dec_opt_map name m : dec_field name dec_labels (opt_map name m) ∅ = Ok m.
Proof.
  unfold opt_map. case_bool_decide as Hm; simpl; [by subst|]. rewrite key_match_refl.
  by rewrite (dec_enc_map ""%string dec_string JStr).
Qed.

(** A field of the encoding is found where it was written. *)
Ltac dec_step :=
  first
    [ rewrite dec_field_app
    | rewrite decide_True by done
    | rewrite dec_string_skip by reflexivity | rewrite dec_int_skip by reflexivity
    | rewrite dec_duration_skip by reflexivity | rewrite dec_map_skip by reflexivity
    | rewrite dec_ptr_skip by reflexivity
    | rewrite dec_opt_string | rewrite dec_opt_map
    | rewrite dec_opt_int by done | rewrite dec_opt_duration by done
    | rewrite dec_field_cons;
      match goal with |- context [key_match ?a ?b] =>
        let v := eval vm_compute in (key_match a b) in change (key_match a b) with v
      end; cbn [dec_string dec_int64]
    | progress cbn [dec_field] ].
Ltac dec_fields := unfold andThen; cbn [dec_object]; repeat dec_step.

Record readiness_in_range (r : ReadinessSpec) : Prop := {
  rr_delay : in64 (InitialDelay r); rr_period : in64 (Period r);
  rr_budget : in64 (Budget r); rr_threshold : in64 (SuccessThreshold r);
  rr_tcp p : TCP r = Some p → in64 (tcp_Port p) ∧ in64 (tcp_Timeout p);
  rr_http p : HTTP r = Some p → in64 (http_Port p) ∧ in64 (http_ExpectStatus p) ∧ in64 (http_Timeout p)
}.

Lemma tcp_round_trip p : in64 (tcp_Port p) → in64 (tcp_Timeout p) → dec_tcp (enc_tcp p) (MkTCP 0 0) = Ok p.
Proof.
  destruct p as [port timeout]. cbn [tcp_Port tcp_Timeout]. intros H1 H2. unfold dec_tcp, enc_tcp.
  cbn [tcp_Port tcp_Timeout]. by dec_fields.
Qed.
Lemma http_round_trip p :
  in64 (http_Port p) → in64 (http_ExpectStatus p) → in64 (http_Timeout p) →
  dec_http (enc_http p) (MkHTTP 0 "" 0 0) = Ok p.
Proof.
  destruct p as [port path expect timeout]. cbn [http_Port http_ExpectStatus http_Timeout]. intros H1 H2 H3.
  unfold dec_http, enc_http. cbn [http_Port http_Path http_ExpectStatus http_Timeout]. by dec_fields.
Qed.

Lemma readiness_round_trip r : readiness_in_range r → dec_readiness (enc_readiness r) zeroReadiness = Ok r.
Proof.
  intros [H1 H2 H3 H4 Htcp Hhttp]. destruct r as [tcp http delay period budget threshold].
  cbn [InitialDelay Period Budget SuccessThreshold TCP HTTP] in *.
  unfold dec_readiness, enc_readiness, zeroReadiness.
  cbn [InitialDelay Period Budget SuccessThreshold TCP HTTP].
  assert (dec_field "tcp" (dec_ptr (MkTCP 0 0) dec_tcp) (opt_ptr "tcp" enc_tcp tcp) None = Ok tcp) as Ht.
  { apply dec_opt_ptr. intros p Hp. split; [apply tcp_round_trip; by apply Htcp|done]. }
  assert (dec_field "http" (dec_ptr (MkHTTP 0 "" 0 0) dec_http) (opt_ptr "http" enc_http http) None = Ok http) as Hh.
  { apply dec_opt_ptr. intros p Hp. destruct (Hhttp p Hp) as (?&?&?). split; [by apply http_round_trip|done]. }
  repeat (dec_fields; first [rewrite Ht | rewrite Hh]). by dec_fields.
Qed.

Theorem machine_round_trip s :
  (∀ r, Readiness s = Some r → readiness_in_range r) → dec_machine (enc_machine s) zeroMachine = Ok s.
Proof.
  intros Hr. destruct s as [serverType image location userData labels readiness].
  cbn [Readiness] in Hr. unfold dec_machine, enc_machine, zeroMachine.
  cbn [ServerType Image Location UserData Labels Readiness].
  assert (dec_field "readiness" (dec_ptr zeroReadiness dec_readiness)
            (opt_ptr "readiness" enc_readiness readiness) None = Ok readiness) as Hd.
  { apply dec_opt_ptr. intros r ->. split; [apply readiness_round_trip; by apply Hr|done]. }
  repeat (dec_fields; rewrite Hd). by dec_fields.
Qed.

Lemma volume_round_trip s : in64 (volume.SizeGiB s) → volume.dec_spec (enc_volume s) volume.zeroSpec = Ok s.
Proof.
  destruct s as [size zone filesystem]. cbn [volume.SizeGiB]. intros Hs.
  unfold volume.dec_spec, enc_volume, volume.zeroSpec. cbn [volume.SizeGiB volume.Zone volume.Filesystem].
  by dec_fields.
Qed.

End SpecFacts.

(** ** Decoded specs stay within machine integers *)

Module RangeFacts.

Lemma is_digit_range c : Json.is_digit c = true → 0 ≤ Json.digit c < 10.
Proof.
  unfold Json.is_digit, Json.digit. intros [H1%Nat.leb_le H2%Nat.leb_le]%andb_true_iff. lia.
Qed.

Lemma leadingInt_range s x v rest : 0 ≤ x → leadingInt s x = Some (v, rest) → 0 ≤ v.
Proof.
  revert x. induction s as [|c s IH]; intros x Hx; cbn [leadingInt]; [intros; by simplify_eq|].
  destruct (Json.is_digit c) eqn:Hc; [|intros; by simplify_eq].
  apply is_digit_range in Hc. do 2 (case_decide; [done|]). apply IH. lia.
Qed.
Lemma leadingFraction_range s x scale o f sc rest :
  0 ≤ x → 0 < scale → leadingFraction s x scale o = (f, sc, rest) → 0 ≤ f ∧ 0 < sc.
Proof.
  revert x scale o. induction s as [|c s IH]; intros x scale o Hx Hs; cbn [leadingFraction]; [intros; by simplify_eq|].
  destruct (Json.is_digit c) eqn:Hc; [|intros; by simplify_eq]. apply is_digit_range in Hc.
  destruct o; [by apply IH|]. case_decide; [by apply IH|]. case_decide; [by apply IH|]. apply IH; lia.
Qed.
Lemma unitMap_pos u unit : unitMap u = Some unit → 0 < unit.
Proof. unfold unitMap. repeat (destruct (mem _ _); [by intros [= <-]|]). done. Qed.

Lemma duration_groups_range fuel s d d' :
  0 ≤ d ≤ 2 ^ 63 → duration_groups fuel s d = Some d' → 0 ≤ d' ≤ 2 ^ 63.
Proof.
  revert s d. induction fuel as [|fuel IH]; intros s d Hd; (destruct s as [|c s]; cbn [duration_groups];
    [by intros [= <-]|]); [done|].
  destruct (negb _); [done|]. destruct (leadingInt _ _) as [[v s1]|] eqn:Hv; [|done].
  apply leadingInt_range in Hv; [|lia].
  set (part := match s1 with String "." _ => _ | _ => _ end).
  assert (0 ≤ part.1.1.1 ∧ 0 < part.1.1.2) as Hpart.
  { unfold part. destruct s1 as [|[[] [] [] [] [] [] [] []] s1]; try (split; simpl; lia).
    destruct (leadingFraction s1 0 1 false) as [[f sc] s2] eqn:Hf. simpl.
    by eapply leadingFraction_range in Hf. }
  destruct part as [[[f sc] s2] post]. simpl in Hpart. destruct (negb _ && _); [done|].
  destruct (take_unit s2) as [u rest]. destruct (unitMap u) as [unit|] eqn:Hu; [|done].
  apply unitMap_pos in Hu.
  assert (0 ≤ (if decide (0 < f) then f * unit / sc else 0)).
  { case_decide; [|lia]. apply Z.div_pos; [|lia]. apply Z.mul_nonneg_nonneg; lia. }
  assert (0 ≤ v * unit) by (apply Z.mul_nonneg_nonneg; lia).
  generalize dependent (if decide (0 < f) then f * unit / sc else 0). intros fr Hfr.
  do 3 (case_decide; [done|]). apply IH. lia.
Qed.

Lemma ParseDuration_range s d : ParseDuration s = Ok d → in64 d.
Proof.
  unfold ParseDuration. destruct (match s with String "-" _ => _ | _ => _ end) as [neg s'].
  case_decide; [intros [= <-]; unfold in64; by vm_compute|]. case_decide; [done|].
  destruct (duration_groups _ _ _) as [v|] eqn:Hg; [|done].
  apply duration_groups_range in Hg; [|lia]. unfold in64, min64, max64 in *.
  destruct neg; [intros [= <-]; lia|]. case_decide; [done|]. intros [= <-]. lia.
Qed.

(** A property of every value a field decodes to. *)
Lemma dec_field_inv {A} (P : A → Prop) name (d : json → A → result A) fs old a :
  (∀ j x y, P x → d j x = Ok y → P y) → P old → dec_field name d fs old = Ok a → P a.
Proof.
  intros Hd. revert old. induction fs as [|[k j] fs IH]; intros old Hold; simpl; [by intros [= <-]|].
  destruct (key_match k name); [|by apply IH]. destruct (d j old) eqn:E; [|done]. apply IH. by eapply Hd.
Qed.
Lemma dec_int64_range j x y : in64 x → dec_int64 j x = Ok y → in64 y.
Proof. intros Hx. destruct j; simpl; try done; [by intros [= <-]|]. case_decide; [|done]. by intros [= <-]. Qed.
Lemma dec_duration_range j x y : in64 x → dec_duration j x = Ok y → in64 y.
Proof. intros _. unfold dec_duration. destruct (dec_string j ""); [|done]. apply ParseDuration_range. Qed.
Lemma dec_ptr_inv {A} (P : A → Prop) (zero : A) (d : json → A → result A) j (x y : option A) :
  (∀ j x y, P x → d j x = Ok y → P y) → P zero →
  (∀ a, x = Some a → P a) → dec_ptr zero d j x = Ok y → ∀ a, y = Some a → P a.
Proof.
  intros Hd Hz Hx Hj a ->. unfold dec_ptr in Hj.
  assert (∃ j', d j' (default zero x) = Ok a) as [j' Hj'].
  { destruct j; try done; (destruct (d _ _) eqn:E; [|done]); simplify_eq; eauto. }
  eapply Hd, Hj'. destruct x; [by apply Hx|done].
Qed.

(** [x ?<- r ; k] that succeeded. *)
Lemma andThen_Ok {A B} (r : result A) (k : A → result B) b :
  andThen r k = Ok b → ∃ a, r = Ok a ∧ k a = Ok b.
Proof. destruct r; [eauto|done]. Qed.
Ltac inv_then H :=
  let x := fresh "x" in let Hx := fresh "Hx" in apply andThen_Ok in H as (x & Hx & H).

Lemma in64_0 : in64 0. Proof. by unfold in64. Qed.
#[local] Hint Resolve in64_0 dec_int64_range dec_duration_range : core.

Definition tcp_range (p : TCPProbe) : Prop := in64 (tcp_Port p) ∧ in64 (tcp_Timeout p).
Definition http_range (p : HTTPProbe) : Prop :=
  in64 (http_Port p) ∧ in64 (http_ExpectStatus p) ∧ in64 (http_Timeout p).

Lemma dec_tcp_range j x y : tcp_range x → dec_tcp j x = Ok y → tcp_range y.
Proof.
  intros [H1 H2] H. unfold dec_tcp in H. do 3 inv_then H. simplify_eq.
  split; (eapply (dec_field_inv in64); [| |eassumption]; eauto).
Qed.
Lemma dec_http_range j x y : http_range x → dec_http j x = Ok y → http_range y.
Proof.
  intros (H1 & H2 & H3) H. unfold dec_http in H. do 5 inv_then H. simplify_eq.
  split_and!; (eapply (dec_field_inv in64); [| |eassumption]; eauto).
Qed.
Lemma dec_readiness_range j x y :
  SpecFacts.readiness_in_range x → dec_readiness j x = Ok y → SpecFacts.readiness_in_range y.
Proof.
  intros [H1 H2 H3 H4 Ht Hh] H. unfold dec_readiness in H. do 7 inv_then H. simplify_eq.
  split; cbn [InitialDelay Period Budget SuccessThreshold TCP HTTP];
    try (eapply (dec_field_inv in64); [| |eassumption]; eauto).
  - eapply (dec_field_inv (λ o, ∀ p, o = Some p → tcp_range p)); [|exact Ht|eassumption].
    intros j' o o' Ho Hj'. eapply (dec_ptr_inv tcp_range (MkTCP 0 0)); [exact dec_tcp_range|by (unfold tcp_range; split; apply in64_0)|exact Ho|exact Hj'].
  - eapply (dec_field_inv (λ o, ∀ p, o = Some p → http_range p)); [|exact Hh|eassumption].
    intros j' o o' Ho Hj'. eapply (dec_ptr_inv http_range (MkHTTP 0 "" 0 0)); [exact dec_http_range|by (unfold http_range; split_and!; apply in64_0)|exact Ho|exact Hj'].
Qed.
Lemma dec_machine_range j s r :
  dec_machine j zeroMachine = Ok s → Readiness s = Some r → SpecFacts.readiness_in_range r.
Proof.
  intros H. unfold dec_machine in H. do 7 inv_then H. simplify_eq. cbn [Readiness]. revert r.
  eapply (dec_field_inv (λ o, ∀ p, o = Some p → SpecFacts.readiness_in_range p)); [| |eassumption]; [|done].
  intros j' o o' Ho Hj'. eapply dec_ptr_inv; [exact dec_readiness_range| |exact Ho|exact Hj'].
  split; [apply in64_0..|done|done].
Qed.
Lemma ParseSpec_machine r s : ParseSpec r = Ok s →
  Validate s = Ok tt ∧ (∀ p, Readiness s = Some p → SpecFacts.readiness_in_range p).
Proof.
  intros H. unfold ParseSpec in H. do 3 inv_then H. simplify_eq. split; [by destruct x1 as []|].
  intros p. by eapply dec_machine_range.
Qed.
End RangeFacts.

(** ** The theorems *)

(** Every duration the program writes into a document is read back as the
    same number of nanoseconds, the most negative one included. *)
Theorem duration_json_round_trip d old : in64 d → dec_duration (enc_duration d) old = Ok d.
Proof.
  intros Hd. unfold dec_duration, enc_duration, dec_string. by apply DurationFacts.duration_round_trip.
Qed.
Lemma duration_json_round_trip_witness : dec_duration (enc_duration (-5400000000001)) 0 = Ok (-5400000000001).
Proof. apply duration_json_round_trip. unfold in64. by vm_compute. Defined.

(** A machine spec that was accepted once is, written back as JSON,
    accepted again and means the same machine. *)
Theorem spec_round_trip r s : ParseSpec r = Ok s → ParseSpec (RawDoc (enc_machine s)) = Ok s.
Proof.
  intros [Hv Hr]%RangeFacts.ParseSpec_machine. unfold ParseSpec. simpl.
  rewrite (SpecFacts.machine_round_trip s Hr). simpl. by rewrite Hv.
Qed.
Definition demo_spec : json :=
  JObj [("serverType", JStr "cpx31"); ("image", JStr "id:7"); ("labels", JObj [("team", JStr "ml")]);
        ("readiness", JObj [("http", JObj [("port", JInt 8080); ("path", JStr "/ok"); ("timeout", JStr "1.5s")])])]%string.
Lemma spec_round_trip_witness : ∃ s,
  ParseSpec (RawDoc demo_spec) = Ok s ∧ ParseSpec (RawDoc (enc_machine s)) = Ok s.
Proof.
  eexists. split; [vm_compute; reflexivity|]. refine (spec_round_trip (RawDoc demo_spec) _ _). vm_compute. reflexivity.
Defined.
