(* ===== verification/Fake.v ===== *)
(** * The in-memory provider (providers/fake)

    The reference driver of the repository, as a concrete value of the driver
    interface: the machines and volumes it holds, its consistency and
    asynchrony model (progress advances per call, never by wall time), and its
    fault injection. The test hooks are functions of the test and are not
    modelled: no hook is installed, as after [New].

    Go ranges over the objects in any order; here it is the order of their ids.
    Where that could matter (the search of a create for its own label) the
    facts show that there is at most one object to find. *)

From stdpp Require Import base gmap strings list pretty.
From Stdlib Require Import Ascii.
From S2P Require Import Prelude Errors Json SDK Kinds Marshal.

Definition Driver : string := "fake".

(** ** Settings *)

Record BillingSettings := MkBillingSettings {
  bs_MinimumDuration : Z; bs_Increment : Z; bs_TerminationBuffer : Z }.
Record Options := MkOptions {
  CreateSteps : Z; DeleteSteps : Z; ListLagSteps : Z; PageSize : Z;
  op_Billing : gmap string BillingSettings;
  Park : bool; StopSteps : Z; StartSteps : Z; StartEstimate : Z
}.
Definition zeroOptions : Options := MkOptions 0 0 0 0 ∅ false 0 0 0.

(** [DisallowUnknownFields]. *)
Definition strict (names : list string) (fs : list (string * json)) : result unit :=
  if forallb (λ kv, existsb (λ n, key_match kv.1 n) names) fs then Ok tt else type_error.

Definition dec_billing (j : json) (b : BillingSettings) : result BillingSettings :=
  compute.andThen (dec_object j) (λ fs,
  compute.andThen (strict ["minimumDuration"; "increment"; "terminationBuffer"]%string fs) (λ _,
  compute.andThen (dec_field "minimumDuration" dec_duration fs (bs_MinimumDuration b)) (λ m,
  compute.andThen (dec_field "increment" dec_duration fs (bs_Increment b)) (λ i,
  compute.andThen (dec_field "terminationBuffer" dec_duration fs (bs_TerminationBuffer b)) (λ t,
  Ok (MkBillingSettings m i t)))))).

(** A later "billing" object adds to the map an earlier one made. *)
Definition dec_billings (j : json) (m : gmap string BillingSettings) :
    result (gmap string BillingSettings) :=
  match j with
  | JObj fs => dec_map_fields (MkBillingSettings 0 0 0) dec_billing fs m
  | JNull => Ok ∅
  | _ => type_error
  end.

Definition dec_options (j : json) : result Options :=
  compute.andThen (dec_object j) (λ fs,
  compute.andThen (strict ["createSteps"; "deleteSteps"; "listLagSteps"; "pageSize"; "billing";
                           "park"; "stopSteps"; "startSteps"; "startEstimate"]%string fs) (λ _,
  compute.andThen (dec_field "createSteps" dec_int64 fs 0) (λ c,
  compute.andThen (dec_field "deleteSteps" dec_int64 fs 0) (λ d,
  compute.andThen (dec_field "listLagSteps" dec_int64 fs 0) (λ l,
  compute.andThen (dec_field "pageSize" dec_int64 fs 0) (λ p,
  compute.andThen (dec_field "billing" dec_billings fs ∅) (λ b,
  compute.andThen (dec_field "park" dec_bool fs false) (λ k,
  compute.andThen (dec_field "stopSteps" dec_int64 fs 0) (λ s,
  compute.andThen (dec_field "startSteps" dec_int64 fs 0) (λ t,
  compute.andThen (dec_field "startEstimate" dec_duration fs 0) (λ e,
  Ok (MkOptions c d l p b k s t e)))))))))))).

(** ** State *)

Inductive ostate := Creating | Running | Stopping | Stopped | Starting | Deleting | Gone.
#[global] Instance ostate_eq_dec : EqDecision ostate.
Proof. solve_decision. Defined.
Definition state_string (s : ostate) : string :=
  match s with
  | Creating => "creating" | Running => "running" | Stopping => "stopping"
  | Stopped => "stopped" | Starting => "starting" | Deleting => "deleting" | Gone => "gone"
  end.

Record object := MkObject {
  fo_id : string; fo_name : string; fo_state : ostate; fo_stepsLeft : Z; fo_listLag : Z;
  fo_spec : compute.MachineSpec; fo_labels : gmap string string; fo_capacity : gmap string Z
}.
Record volObject := MkVolObject {
  vo_id : string; vo_name : string; vo_gone : bool; vo_spec : volume.Spec;
  vo_labels : gmap string string
}.
Record applyFault := MkFault {
  af_class : ErrorClass; af_effect : SideEffect; af_mutate : bool; af_retryIn : Z;
  af_message : string; af_kindOnly : string
}.
Record Fake := MkFake {
  f_instance : string; f_ownerID : string; f_opt : Options; f_seq : Z;
  f_objects : gmap string object; f_volumes : gmap string volObject;
  f_applyFaults : list applyFault; f_rateLimitLeft : Z; f_rateRetryAfter : Z;
  f_ApplyCalls : Z; f_ObserveCalls : Z; f_DiscoverCalls : Z
}.

Definition New (instance_ ownerID : string) (opt : Options) : Fake :=
  MkFake instance_ ownerID opt 0 ∅ ∅ [] 0 0 0 0 0.

Definition with_state (st : ostate) (steps : Z) (o : object) : object :=
  MkObject (fo_id o) (fo_name o) st steps (fo_listLag o) (fo_spec o) (fo_labels o) (fo_capacity o).
Definition with_lag (lag : Z) (o : object) : object :=
  MkObject (fo_id o) (fo_name o) (fo_state o) (fo_stepsLeft o) lag (fo_spec o) (fo_labels o) (fo_capacity o).

Definition with_opt (v : Options) (f : Fake) : Fake :=
  MkFake (f_instance f) (f_ownerID f) v (f_seq f) (f_objects f) (f_volumes f) (f_applyFaults f)
    (f_rateLimitLeft f) (f_rateRetryAfter f) (f_ApplyCalls f) (f_ObserveCalls f) (f_DiscoverCalls f).
Definition with_seq (v : Z) (f : Fake) : Fake :=
  MkFake (f_instance f) (f_ownerID f) (f_opt f) v (f_objects f) (f_volumes f) (f_applyFaults f)
    (f_rateLimitLeft f) (f_rateRetryAfter f) (f_ApplyCalls f) (f_ObserveCalls f) (f_DiscoverCalls f).
Definition with_objects (v : gmap string object) (f : Fake) : Fake :=
  MkFake (f_instance f) (f_ownerID f) (f_opt f) (f_seq f) v (f_volumes f) (f_applyFaults f)
    (f_rateLimitLeft f) (f_rateRetryAfter f) (f_ApplyCalls f) (f_ObserveCalls f) (f_DiscoverCalls f).
Definition with_volumes (v : gmap string volObject) (f : Fake) : Fake :=
  MkFake (f_instance f) (f_ownerID f) (f_opt f) (f_seq f) (f_objects f) v (f_applyFaults f)
    (f_rateLimitLeft f) (f_rateRetryAfter f) (f_ApplyCalls f) (f_ObserveCalls f) (f_DiscoverCalls f).
Definition with_applyFaults (v : list applyFault) (f : Fake) : Fake :=
  MkFake (f_instance f) (f_ownerID f) (f_opt f) (f_seq f) (f_objects f) (f_volumes f) v
    (f_rateLimitLeft f) (f_rateRetryAfter f) (f_ApplyCalls f) (f_ObserveCalls f) (f_DiscoverCalls f).
Definition with_rateLimit (left retryAfter : Z) (f : Fake) : Fake :=
  MkFake (f_instance f) (f_ownerID f) (f_opt f) (f_seq f) (f_objects f) (f_volumes f) (f_applyFaults f)
    left retryAfter (f_ApplyCalls f) (f_ObserveCalls f) (f_DiscoverCalls f).
Definition with_calls (a o d : Z) (f : Fake) : Fake :=
  MkFake (f_instance f) (f_ownerID f) (f_opt f) (f_seq f) (f_objects f) (f_volumes f) (f_applyFaults f)
    (f_rateLimitLeft f) (f_rateRetryAfter f) a o d.

(** ** Fault injection *)

Definition FailNextApply (class : ErrorClass) (effect : SideEffect) (n : Z) (f : Fake) : Fake :=
  with_applyFaults (f_applyFaults f ++
    replicate (Z.to_nat n) (MkFault class effect false 0 "injected apply failure" "")) f.
Definition AcceptButDropResponse (f : Fake) : Fake :=
  with_applyFaults (f_applyFaults f ++
    [MkFault ErrRetryable EffectMaybe true 0 "injected: response lost after accept" "create"]) f.
Definition RateLimitNext (n retryAfter : Z) (f : Fake) : Fake := with_rateLimit n retryAfter f.
Definition SetListLagSteps (n : Z) (f : Fake) : Fake :=
  let o := f_opt f in
  with_opt (MkOptions (CreateSteps o) (DeleteSteps o) n (PageSize o) (op_Billing o) (Park o)
    (StopSteps o) (StartSteps o) (StartEstimate o)) f.

Definition machineCapacity : gmap string Z := {[ "cpu"%string := 2; "memoryMiB"%string := 4096 ]}.
Definition machineID (seq : Z) : string := pretty (add64 100000 seq).
Definition volumeID (seq : Z) : string := "vol-" +:+ pretty (add64 9000 seq).

Definition InjectRunning (name : string) (labels : gmap string string) (f : Fake) : ExternalRef * Fake :=
  let f := with_seq (add64 (f_seq f) 1) f in
  let id := machineID (f_seq f) in
  (MkRef id ∅, with_objects (<[id := MkObject id name Running 0 0
      (compute.MkMachine "cpx31" "snapshot:injected" "" "" ∅ None) labels machineCapacity]> (f_objects f)) f).

(** ** Errors *)

Definition err_text (e : err) : string := match e with EOther m => m | _ => ""%string end.
Definition perr (instance_ : string) (class : ErrorClass) (msg : string) (retryAfter : Z) : err :=
  EProvider (MkError class EffectNone "" msg instance_ "" retryAfter).
Definition invalid (instance_ msg : string) : err := perr instance_ ErrInvalid msg 0.
Definition notFound (instance_ id : string) : err :=
  perr instance_ ErrNotFound ("machine " +:+ id +:+ " not found") 0.

Definition rateLimited : M Fake unit := λ f,
  if decide (0 < f_rateLimitLeft f)
  then (Err (perr (f_instance f) ErrRateLimited "injected rate limit" (f_rateRetryAfter f)),
        with_rateLimit (f_rateLimitLeft f - 1) (f_rateRetryAfter f) f)
  else (Ok tt, f).

(** The factory the registry holds. *)
Definition factory (instance_ ownerID : string) (settings : raw) : result Fake :=
  match settings with
  | RawEmpty | RawDoc JNull => Ok (New instance_ ownerID zeroOptions)
  | RawDoc j =>
      match dec_options j with
      | Ok opt => Ok (New instance_ ownerID opt)
      | Err e => Err (invalid "" ("fake settings: " +:+ err_text e))
      end
  | RawBad t => Err (invalid "" ("fake settings: " +:+ t))
  end.

(** ** Observation *)

Definition owned (ownerID : string) (labels : gmap string string) : bool :=
  bool_decide (map_get labels LabelManaged = "true"%string) &&
  bool_decide (map_get labels LabelOwner = ownerID).

Definition observedPhase (s : ostate) : ObservedPhase :=
  match s with
  | Creating => PhasePending | Running => PhaseRunning
  | Stopping => PhaseRunning | Stopped => PhaseStopped | Starting => PhasePending
  | Deleting => PhaseDeleting | Gone => PhaseGone
  end.

Definition observe (ownerID : string) (o : object) : ObservedResource :=
  let labels := fo_labels o in
  MkObs (MkRef (fo_id o) ∅) compute.Kind (map_get labels LabelID) (map_get labels LabelOp)
    (owned ownerID labels) (observedPhase (fo_state o)) (state_string (fo_state o)) (fo_capacity o)
    [MkAddress "public-v4" "127.0.0.1"] labels
    (Some (JObj [("fake"%string, JBool true); ("name"%string, JStr (fo_name o));
                 ("serverType"%string, JStr (compute.ServerType (fo_spec o)))])).

Definition live (o : object) : bool := negb (bool_decide (fo_state o = Gone)).

Definition labelsMatch (have want : gmap string string) : bool :=
  forallb (λ kv, bool_decide (map_get have kv.1 = kv.2)) (map_to_list want).

Definition Objects (f : Fake) : list ObservedResource :=
  observe (f_ownerID f) <$> select live (f_objects f).

(** The chunked assembly: [for i := 0; i < len(all); i += PageSize]. *)
Fixpoint paginate {A} (fuel : nat) (size i : Z) (all paged : list A) : list A :=
  match fuel with
  | O => paged
  | S fuel =>
      if decide (i < Z.of_nat (length all)) then
        let e := Z.min (add64 i size) (Z.of_nat (length all)) in
        paginate fuel size (add64 i size) all
          (paged ++ take (Z.to_nat (e - i)) (drop (Z.to_nat i) all))
      else paged
  end.

(** One list pass is one consistency step for every lagging object. *)
Definition tickLag (o : object) : object :=
  if decide (0 < fo_listLag o) then with_lag (fo_listLag o - 1) o else o.

Definition listed (ownerID : string) (req : DiscoverRequest) (o : object) : bool :=
  live o && negb (bool_decide (0 < fo_listLag o)) &&
  (bool_decide (dr_Scope req = ScopeAll) || owned ownerID (fo_labels o)) &&
  labelsMatch (fo_labels o) (dr_Selector req).

Definition Fake_Discover (req : DiscoverRequest) : M Fake (list ObservedResource) :=
  modifyM (λ f, with_calls (f_ApplyCalls f) (f_ObserveCalls f) (add64 (f_DiscoverCalls f) 1) f) ;;;
  rateLimited ;;;
  modifyM (λ f, with_objects (tickLag <$> f_objects f) f) ;;;
  getsM (λ f,
    let all := observe (f_ownerID f) <$> select (listed (f_ownerID f) req) (f_objects f) in
    if decide (0 < PageSize (f_opt f))
    then paginate (S (length all)) (PageSize (f_opt f)) 0 all []
    else all).

(** A live object by id. *)
Definition findLive (id : string) (f : Fake) : option object :=
  match f_objects f !! id with
  | Some o => if live o then Some o else None
  | None => None
  end.

Definition Fake_Get (ref : ExternalRef) : M Fake ObservedResource :=
  rateLimited ;;; λ f,
  match findLive (ref_ID ref) f with
  | Some o => (Ok (observe (f_ownerID f) o), f)
  | None => (Err (notFound (f_instance f) (ref_ID ref)), f)
  end.

(** ** Plan *)

Record createParams := MkCreateParams {
  cp_Name : string; cp_Spec : compute.MachineSpec; cp_Labels : gmap string string }.
Definition enc_createParams (p : createParams) : json :=
  JObj [("name"%string, JStr (cp_Name p)); ("spec"%string, enc_machine (cp_Spec p));
        ("labels"%string, enc_map JStr (cp_Labels p))].
Definition dec_createParams (j : json) : result createParams :=
  compute.andThen (dec_object j) (λ fs,
  compute.andThen (dec_field "name" dec_string fs ""%string) (λ n,
  compute.andThen (dec_field "spec" compute.dec_machine fs compute.zeroMachine) (λ s,
  compute.andThen (dec_field "labels" compute.dec_labels fs ∅) (λ l,
  Ok (MkCreateParams n s l))))).

Definition Fake_Plan (instance_ : string) (req : PlanRequest) : result (list Action) :=
  match pr_Desired req, pr_Observed req with
  | Some d, None =>
      match compute.ParseSpec (ds_Spec d) with
      | Err e => Err (invalid instance_ (err_text e))
      | Ok spec =>
          Ok [MkAction "" "create" (pr_ResourceID req) None
                (Some (enc_createParams (MkCreateParams (ds_Name d) spec (ds_Labels d)))) false]
      end
  | None, Some o => Ok [MkAction "" "delete" (pr_ResourceID req) (Some (ob_Ref o)) None true]
  | _, _ => Ok []
  end.

(** ** Apply *)

(** [%q] of plain text. *)
Definition quoted (s : string) : string :=
  let q := String (Ascii.ascii_of_nat 34) "" in q +:+ s +:+ q.

Definition put (o : object) (f : Fake) : Fake := with_objects (<[fo_id o := o]> (f_objects f)) f.

Definition done_ref (action : Action) (ref : option ExternalRef) : OperationRef :=
  MkOpRef (ac_ActionID action) ref None.

Definition byOp (op : string) (o : object) : bool :=
  live o && bool_decide (map_get (fo_labels o) LabelOp = op).

Definition applyCreate (action : Action) : M Fake OperationRef := λ f,
  match (match ac_Params action with
         | Some j => dec_createParams j
         | None => Err (EOther "unexpected end of JSON input")
         end) with
  | Err e => (Err (invalid (f_instance f) ("malformed create params: " +:+ err_text e)), f)
  | Ok p =>
      match head (select (byOp (ac_ActionID action)) (f_objects f)) with
      | Some o => (Ok (done_ref action (Some (MkRef (fo_id o) ∅))), f)
      | None =>
          let f := with_seq (add64 (f_seq f) 1) f in
          let id := machineID (f_seq f) in
          let '(st, steps) := if decide (0 < CreateSteps (f_opt f))
                              then (Creating, CreateSteps (f_opt f)) else (Running, 0) in
          (Ok (done_ref action (Some (MkRef id ∅))),
           put (MkObject id (cp_Name p) st steps (ListLagSteps (f_opt f)) (cp_Spec p)
                  (cp_Labels p ∪ compute.Labels (cp_Spec p)) machineCapacity) f)
      end
  end.

Definition applyDelete (action : Action) : M Fake OperationRef := λ f,
  match ac_Ref action with
  | None => (Err (invalid (f_instance f) "delete requires a ref"), f)
  | Some ref =>
      (Ok (done_ref action (Some ref)),
       match findLive (ref_ID ref) f with
       | None => f
       | Some o => put (if decide (0 < DeleteSteps (f_opt f))
                        then with_state Deleting (DeleteSteps (f_opt f)) o
                        else with_state Gone (fo_stepsLeft o) o) f
       end)
  end.

(** [stop] and [start]: the state that is already the goal, the one on the way
    to it, and how many observations the way takes. *)
Definition applyPark (action : Action) (goal way : ostate) (steps : Z) : M Fake OperationRef := λ f,
  match ac_Ref action with
  | None => (Err (invalid (f_instance f) (ac_Kind action +:+ " requires a ref")), f)
  | Some ref =>
      if negb (Park (f_opt f)) then
        (Err (invalid (f_instance f)
           "parking not supported (docs/12 invariant 6 violated by the caller)"), f)
      else match findLive (ref_ID ref) f with
      | None => (Err (notFound (f_instance f) (ref_ID ref)), f)
      | Some o =>
          (Ok (done_ref action (Some ref)),
           if mem (fo_state o) [goal; way] then f
           else put (if decide (0 < steps) then with_state way steps o
                     else with_state goal (fo_stepsLeft o) o) f)
      end
  end.

Definition applyLocked (action : Action) : M Fake OperationRef := λ f,
  if mem (ac_Kind action) ["create"%string] then applyCreate action f
  else if mem (ac_Kind action) ["delete"%string] then applyDelete action f
  else if mem (ac_Kind action) ["stop"%string] then
    applyPark action Stopped Stopping (StopSteps (f_opt f)) f
  else if mem (ac_Kind action) ["start"%string] then
    applyPark action Running Starting (StartSteps (f_opt f)) f
  else (Err (invalid (f_instance f) ("unknown action kind " +:+ quoted (ac_Kind action))), f).

(** A queued fault that applies to this kind of action. *)
Definition nextFault (kind : string) (f : Fake) : option (applyFault * Fake) :=
  match f_applyFaults f with
  | fault :: rest =>
      if mem (af_kindOnly fault) [""%string; kind] then Some (fault, with_applyFaults rest f) else None
  | [] => None
  end.

Definition Fake_Apply (action : Action) : M Fake OperationRef :=
  modifyM (λ f, with_calls (add64 (f_ApplyCalls f) 1) (f_ObserveCalls f) (f_DiscoverCalls f) f) ;;;
  rateLimited ;;; λ f,
  match nextFault (ac_Kind action) f with
  | Some (fault, f) =>
      (Err (EProvider (MkError (af_class fault) (af_effect fault) "" (af_message fault)
              (f_instance f) "" (af_retryIn fault))),
       if af_mutate fault then (applyLocked action f).2 else f)
  | None => applyLocked action f
  end.

(** ** ObserveOperation *)

(** One observation is one asynchronous step: the state after it, and whether
    the way is not over yet. *)
Definition stepObject (o : object) : object * bool :=
  let left_ := sub64 (fo_stepsLeft o) 1 in
  let move goal := if decide (left_ ≤ 0) then (with_state goal left_ o, false)
                   else (with_state (fo_state o) left_ o, true) in
  match fo_state o with
  | Creating => move Running
  | Deleting => move Gone
  | Stopping => move Stopped
  | Starting => move Running
  | _ => (o, false)
  end.

Definition Fake_ObserveOperation (op : OperationRef) : M Fake OperationStatus :=
  modifyM (λ f, with_calls (f_ApplyCalls f) (add64 (f_ObserveCalls f) 1) (f_DiscoverCalls f) f) ;;;
  rateLimited ;;; λ f,
  match or_Ref op with
  | None => (Ok (MkStatus PvUnknown None None None 0), f)
  | Some ref =>
      match findLive (ref_ID ref) f with
      | None => (Err (notFound (f_instance f) (ref_ID ref)), f)
      | Some o =>
          let '(o, busy) := stepObject o in
          (Ok (if busy then MkStatus PvRunning (Some ref) None None 0
               else MkStatus PvSucceeded (Some ref)
                      (if live o then Some (observe (f_ownerID f) o) else None) None 0),
           put o f)
      end
  end.

(** ** storage.volume (volumes.go) *)

Module Volumes.

Definition observe (ownerID : string) (o : volObject) : ObservedResource :=
  let labels := vo_labels o in
  MkObs (MkRef (vo_id o) ∅) volume.Kind (map_get labels LabelID) (map_get labels LabelOp)
    (owned ownerID labels) (if vo_gone o then PhaseGone else PhaseRunning)
    (if vo_gone o then "gone" else "available")
    {[ "storageGiB"%string := volume.SizeGiB (vo_spec o) ]} [] labels
    (Some (JObj [("fake"%string, JBool true);
                 ("filesystem"%string, JStr (volume.Filesystem (vo_spec o)));
                 ("volume"%string, JStr (vo_name o))])).

Definition listed (ownerID : string) (req : DiscoverRequest) (o : volObject) : bool :=
  negb (vo_gone o) &&
  (bool_decide (dr_Scope req = ScopeAll) || owned ownerID (vo_labels o)) &&
  labelsMatch (vo_labels o) (dr_Selector req).

Definition Discover (req : DiscoverRequest) : M Fake (list ObservedResource) :=
  getsM (λ f, observe (f_ownerID f) <$> select (listed (f_ownerID f) req) (f_volumes f)).

Definition findLive (id : string) (f : Fake) : option volObject :=
  match f_volumes f !! id with
  | Some o => if vo_gone o then None else Some o
  | None => None
  end.

Definition Get (ref : ExternalRef) : M Fake ObservedResource := λ f,
  match findLive (ref_ID ref) f with
  | Some o => (Ok (observe (f_ownerID f) o), f)
  | None => (Err (notFound (f_instance f) (ref_ID ref)), f)
  end.

Record volCreateParams := MkVolParams {
  vp_Name : string; vp_Spec : volume.Spec; vp_Labels : gmap string string }.
Definition enc_volParams (p : volCreateParams) : json :=
  JObj [("name"%string, JStr (vp_Name p)); ("spec"%string, enc_volume (vp_Spec p));
        ("labels"%string, enc_map JStr (vp_Labels p))].
Definition dec_volParams (j : json) : result volCreateParams :=
  compute.andThen (dec_object j) (λ fs,
  compute.andThen (dec_field "name" dec_string fs ""%string) (λ n,
  compute.andThen (dec_field "spec" volume.dec_spec fs volume.zeroSpec) (λ s,
  compute.andThen (dec_field "labels" compute.dec_labels fs ∅) (λ l,
  Ok (MkVolParams n s l))))).

Definition Plan (instance_ : string) (req : PlanRequest) : result (list Action) :=
  match pr_Desired req, pr_Observed req with
  | Some d, None =>
      match volume.ParseSpec (ds_Spec d) with
      | Err e => Err (invalid instance_ (err_text e))
      | Ok spec =>
          Ok [MkAction "" "create" (pr_ResourceID req) None
                (Some (enc_volParams (MkVolParams (ds_Name d) spec (ds_Labels d)))) false]
      end
  | None, Some o => Ok [MkAction "" "delete" (pr_ResourceID req) (Some (ob_Ref o)) None true]
  | _, _ => Ok []
  end.

Definition byOp (op : string) (o : volObject) : bool :=
  negb (vo_gone o) && bool_decide (map_get (vo_labels o) LabelOp = op).
Definition put (o : volObject) (f : Fake) : Fake := with_volumes (<[vo_id o := o]> (f_volumes f)) f.

Definition applyCreate (action : Action) : M Fake OperationRef := λ f,
  match (match ac_Params action with
         | Some j => dec_volParams j
         | None => Err (EOther "unexpected end of JSON input")
         end) with
  | Err e => (Err (invalid (f_instance f) ("malformed volume params: " +:+ err_text e)), f)
  | Ok p =>
      match head (select (byOp (ac_ActionID action)) (f_volumes f)) with
      | Some o => (Ok (done_ref action (Some (MkRef (vo_id o) ∅))), f)
      | None =>
          let f := with_seq (add64 (f_seq f) 1) f in
          let id := volumeID (f_seq f) in
          (Ok (done_ref action (Some (MkRef id ∅))),
           put (MkVolObject id (vp_Name p) false (vp_Spec p) (vp_Labels p)) f)
      end
  end.

Definition applyDelete (action : Action) : M Fake OperationRef := λ f,
  match ac_Ref action with
  | None => (Err (invalid (f_instance f) "delete requires a ref"), f)
  | Some ref =>
      (Ok (done_ref action (Some ref)),
       match f_volumes f !! ref_ID ref with
       | Some o => put (MkVolObject (vo_id o) (vo_name o) true (vo_spec o) (vo_labels o)) f
       | None => f
       end)
  end.

Definition Apply (action : Action) : M Fake OperationRef := λ f,
  if mem (ac_Kind action) ["create"%string] then applyCreate action f
  else if mem (ac_Kind action) ["delete"%string] then applyDelete action f
  else (Err (invalid (f_instance f) ("unknown action kind " +:+ ac_Kind action)), f).

Definition ObserveOperation (op : OperationRef) : M Fake OperationStatus := λ f,
  match or_Ref op with
  | None => (Ok (MkStatus PvUnknown None None None 0), f)
  | Some ref =>
      match findLive (ref_ID ref) f with
      | None => (Err (notFound (f_instance f) (ref_ID ref)), f)
      | Some o => (Ok (MkStatus PvSucceeded (Some ref) (Some (observe (f_ownerID f) o)) None 0), f)
      end
  end.

End Volumes.

(** ** The provider *)

Definition machines (instance_ : string) : ResourceDriver Fake :=
  MkDriver Fake Fake_Discover Fake_Get (Fake_Plan instance_) Fake_Apply Fake_ObserveOperation.
Definition volumes (instance_ : string) : ResourceDriver Fake :=
  MkDriver Fake Volumes.Discover Volumes.Get (Volumes.Plan instance_) Volumes.Apply
    Volumes.ObserveOperation.

Definition Fake_ResourceDriver (instance_ kind : string) : option (ResourceDriver Fake) :=
  if mem kind [compute.Kind] then Some (machines instance_)
  else if mem kind [volume.Kind] then Some (volumes instance_)
  else None.

Definition Fake_Billing (opt : Options) (kind : string) : BillingPolicy :=
  match op_Billing opt !! kind with
  | None => zeroBilling
  | Some b => MkBilling (bs_MinimumDuration b) (bs_Increment b) (bs_TerminationBuffer b)
  end.
Definition Fake_Parking (opt : Options) (kind : string) : ParkPolicy :=
  if Park opt && bool_decide (kind = compute.Kind) then MkPark true (StartEstimate opt) else zeroPark.

Definition Fake_Descriptor (instance_ : string) : Descriptor :=
  MkDescriptor Driver instance_ [compute.Kind; volume.Kind] true.

(** An instance, with the settings it was built from ([SetListLagSteps] is the
    only setting that changes later, and these methods do not read it). *)
Definition Fake_Provider (instance_ : string) (opt : Options) : Provider Fake :=
  MkProvider Fake (Fake_Descriptor instance_) (Fake_ResourceDriver instance_)
    (Some (Fake_Billing opt)) (Some (Fake_Parking opt)).
