(* ===== verification/FakeFacts.v ===== *)
(** * Facts about the in-memory provider

    A create lands once however often it is applied; it can be found by the
    label the kernel searches for; what was accepted ends; what the kernel
    planned is what is built. *)

From stdpp Require Import base gmap strings list pretty sorting.
From S2P Require Import Prelude Errors Json SDK Types Store Kinds Marshal Provision Fake.

(** ** Calls *)

Inductive call :=
| CDiscover (req : DiscoverRequest) | CGet (ref : ExternalRef) | CApply (a : Action)
| CObserve (op : OperationRef) | CVolume (a : Action)
| CFail (class : ErrorClass) (effect : SideEffect) (n : Z) | CDrop
| CRateLimit (n retryAfter : Z) | CLag (n : Z).

Definition run (f : Fake) (c : call) : Fake :=
  match c with
  | CDiscover req => (Fake_Discover req f).2
  | CGet ref => (Fake_Get ref f).2
  | CApply a => (Fake_Apply a f).2
  | CObserve op => (Fake_ObserveOperation op f).2
  | CVolume a => (Volumes.Apply a f).2
  | CFail class effect n => FailNextApply class effect n f
  | CDrop => AcceptButDropResponse f
  | CRateLimit n t => RateLimitNext n t f
  | CLag n => SetListLagSteps n f
  end.

(** The create of an action carries the action's id as its op label: what
    [Prepare] journals. *)
Definition stamped (a : Action) : Prop :=
  ∀ j p, ac_Params a = Some j → dec_createParams j = Ok p → cp_Labels p !! LabelOp = Some (ac_ActionID a).
Definition stamped_call (c : call) : Prop :=
  match c with CApply a => stamped a | _ => True end.

Definition op_label (o : object) : string := map_get (fo_labels o) LabelOp.

(** Objects sit under their id, and no two live ones share an op label. *)
Record sound (m : gmap string object) : Prop := {
  sd_keyed : ∀ k o, m !! k = Some o → fo_id o = k;
  sd_once : ∀ k1 k2 o1 o2, m !! k1 = Some o1 → m !! k2 = Some o2 → live o1 = true → live o2 = true →
    op_label o1 = op_label o2 → k1 = k2
}.

(** ** Preservation *)

(** Every object of [m'] is an object of [m] that kept its id and labels and
    was alive if it is. *)
Definition descends (m m' : gmap string object) : Prop :=
  ∀ k o', m' !! k = Some o' → ∃ o, m !! k = Some o ∧ fo_id o' = fo_id o ∧ fo_labels o' = fo_labels o ∧
    (live o' = true → live o = true).

Lemma descends_refl m : descends m m.
Proof. intros k o Hk. by exists o. Qed.

Lemma sound_descends m m' : sound m → descends m m' → sound m'.
Proof.
  intros [Hk Ho] Hd. split.
  - intros k o' Hk'. destruct (Hd _ _ Hk') as (o & Hm & -> & _). by apply Hk.
  - intros k1 k2 o1 o2 H1 H2 L1 L2 Hl.
    destruct (Hd _ _ H1) as (p1 & M1 & _ & E1 & V1), (Hd _ _ H2) as (p2 & M2 & _ & E2 & V2).
    apply (Ho k1 k2 p1 p2); auto. unfold op_label in *. by rewrite <-E1, <-E2.
Qed.

Lemma descends_put m k o o' :
  m !! k = Some o → fo_id o' = fo_id o → fo_labels o' = fo_labels o → (live o' = true → live o = true) →
  descends m (<[k := o']> m).
Proof.
  intros Hm Hi Hl Hv k2 o2. rewrite lookup_insert_Some. intros [[<- <-]|[_ H2]]; [by exists o|by exists o2].
Qed.
Lemma descends_fmap m g :
  (∀ o, fo_id (g o) = fo_id o ∧ fo_labels (g o) = fo_labels o ∧ live (g o) = live o) → descends m (g <$> m).
Proof.
  intros Hg k o'. rewrite lookup_fmap_Some. intros (o & <- & Hm). destruct (Hg o) as (Hi & Hl & Hv).
  exists o. split_and!; [done..|]. by rewrite Hv.
Qed.

Lemma findLive_Some id f o : findLive id f = Some o ↔ f_objects f !! id = Some o ∧ live o = true.
Proof.
  unfold findLive. destruct (f_objects f !! id) as [o'|]; [|by split; [|intros [??]]].
  destruct (live o') eqn:E; split; [by intros [= <-]|by intros [[= <-] _]|done|].
  intros [[= <-] H]. by rewrite E in H.
Qed.

Lemma rateLimited_spec f : (rateLimited f = (Ok tt, f) ∧ f_rateLimitLeft f ≤ 0) ∨
  ∃ e f', rateLimited f = (Err e, f') ∧ f_objects f' = f_objects f.
Proof. unfold rateLimited. case_decide; [right; eauto|left; split; [done|lia]]. Qed.

Lemma stepObject_keeps o o' b : stepObject o = (o', b) →
  fo_id o' = fo_id o ∧ fo_labels o' = fo_labels o ∧ (live o' = true → live o = true).
Proof.
  unfold stepObject, live. destruct (fo_state o) eqn:E; try case_decide; intros [= <- <-]; simpl; auto.
  all: by rewrite E.
Qed.

Lemma tickLag_keeps o : fo_id (tickLag o) = fo_id o ∧ fo_labels (tickLag o) = fo_labels o ∧ live (tickLag o) = live o.
Proof. unfold tickLag. by case_decide. Qed.

(** A search for the live object of an op label. *)
Lemma select_byOp_Some m op o rest : select (byOp op) m = o :: rest →
  ∃ k, m !! k = Some o ∧ live o = true ∧ op_label o = op.
Proof.
  intros Hs. assert (o ∈ select (byOp op) m) as Hin by (rewrite Hs; left).
  apply elem_of_select in Hin as [Hb [k Hk]]. exists k. unfold byOp in Hb. apply andb_true_iff in Hb as [? ?%bool_decide_eq_true].
  done.
Qed.
Lemma select_byOp_None m op k o : select (byOp op) m = [] → m !! k = Some o → live o = true → op_label o ≠ op.
Proof.
  intros Hs Hk Hl Heq. assert (o ∈ select (byOp op) m) as Hin.
  { apply elem_of_select. split; [|eauto]. unfold byOp. rewrite Hl. simpl. by apply bool_decide_eq_true. }
  rewrite Hs in Hin. by apply elem_of_nil in Hin.
Qed.

Lemma applyCreate_sound a f : stamped a → sound (f_objects f) → sound (f_objects (applyCreate a f).2).
Proof.
  intros Hst Hs. unfold applyCreate. destruct (ac_Params a) as [j|] eqn:Hp; [|done].
  destruct (dec_createParams j) as [p|e] eqn:Hd; [|done]. pose proof (Hst j p Hp Hd) as Hlab.
  destruct (select (byOp (ac_ActionID a)) (f_objects f)) as [|o rest] eqn:Hsel; [|done]. simpl.
  destruct (if decide (0 < CreateSteps (f_opt f)) then _ else _) as [st steps]. simpl.
  set (id := machineID _). set (new := MkObject _ _ _ _ _ _ _ _).
  assert (op_label new = ac_ActionID a) as Hop.
  { unfold op_label, map_get. simpl. by rewrite (lookup_union_Some_l _ _ _ _ Hlab). }
  destruct Hs as [Hk Ho]. split.
  - intros k o. rewrite lookup_insert_Some. intros [[<- <-]|[_ ?]]; [done|by apply Hk].
  - intros k1 k2 o1 o2 H1 H2 L1 L2 Hl. apply lookup_insert_Some in H1, H2.
    destruct H1 as [[<- <-]|[_ H1]], H2 as [[<- <-]|[_ H2]]; [done|..|by eapply Ho].
    + exfalso. eapply (select_byOp_None _ _ _ _ Hsel H2 L2). congruence.
    + exfalso. eapply (select_byOp_None _ _ _ _ Hsel H1 L1). congruence.
Qed.

Lemma applyDelete_descends a f : sound (f_objects f) → descends (f_objects f) (f_objects (applyDelete a f).2).
Proof.
  intros Hs. unfold applyDelete. destruct (ac_Ref a) as [ref|]; [|apply descends_refl]. simpl.
  destruct (findLive _ f) as [o|] eqn:E; [|apply descends_refl]. apply findLive_Some in E as [Hm Hl].
  pose proof (sd_keyed _ Hs _ _ Hm) as Hid. unfold put. simpl.
  case_decide; simpl; rewrite Hid; by eapply descends_put.
Qed.
Lemma applyPark_descends a goal way steps f : sound (f_objects f) →
  descends (f_objects f) (f_objects (applyPark a goal way steps f).2).
Proof.
  intros Hs. unfold applyPark. destruct (ac_Ref a) as [ref|]; [|apply descends_refl].
  destruct (negb _); [apply descends_refl|].
  destruct (findLive _ f) as [o|] eqn:E; [|apply descends_refl]. apply findLive_Some in E as [Hm Hl]. simpl.
  destruct (mem _ _); [apply descends_refl|]. pose proof (sd_keyed _ Hs _ _ Hm) as Hid. unfold put. simpl.
  case_decide; simpl; rewrite Hid; by eapply descends_put.
Qed.
Lemma applyLocked_sound a f : stamped a → sound (f_objects f) → sound (f_objects (applyLocked a f).2).
Proof.
  intros Ha Hs. unfold applyLocked. destruct (mem _ _); [by apply applyCreate_sound|].
  destruct (mem _ _); [by eapply sound_descends, applyDelete_descends|].
  do 2 (destruct (mem _ _); [by eapply sound_descends, applyPark_descends|]). done.
Qed.

Lemma Volumes_Apply_objects a f : f_objects (Volumes.Apply a f).2 = f_objects f.
Proof.
  unfold Volumes.Apply, Volumes.applyCreate, Volumes.applyDelete.
  repeat (destruct (mem _ _); [|]); try done.
  - destruct (match ac_Params a with Some _ => _ | None => _ end); [|done]. by destruct (head _).
  - destruct (ac_Ref a) as [ref|]; [|done]. simpl. by destruct (f_volumes f !! _).
Qed.

Lemma nextFault_objects kind f fault f' : nextFault kind f = Some (fault, f') → f_objects f' = f_objects f.
Proof. unfold nextFault. destruct (f_applyFaults f); [done|]. destruct (mem _ _); [|done]. by intros [= _ <-]. Qed.

Lemma Apply_sound a f : stamped a → sound (f_objects f) → sound (f_objects (Fake_Apply a f).2).
Proof.
  intros Ha Hs. unfold Fake_Apply, bindM, modifyM. cbv beta iota.
  set (f1 := with_calls _ _ _ f). assert (sound (f_objects f1)) as Hs1 by done.
  destruct (rateLimited_spec f1) as [[-> _]|(e & f2 & -> & He)]; [|simpl; by rewrite He].
  destruct (nextFault (ac_Kind a) f1) as [[fault f2]|] eqn:Hf; [|by apply applyLocked_sound].
  apply nextFault_objects in Hf. simpl. destruct (af_mutate fault); [apply applyLocked_sound; [done|]|];
    by rewrite Hf.
Qed.

Lemma run_sound c f : stamped_call c → sound (f_objects f) → sound (f_objects (run f c)).
Proof.
  intros Hc Hs. destruct c; simpl in *; try done.
  - unfold Fake_Discover, bindM, modifyM, getsM. cbv beta iota. set (f1 := with_calls _ _ _ f).
    destruct (rateLimited_spec f1) as [[-> _]|(e & f2 & -> & He)]; [|simpl; by rewrite He].
    eapply sound_descends; [exact Hs|]. apply descends_fmap, tickLag_keeps.
  - unfold Fake_Get, bindM.
    destruct (rateLimited_spec f) as [[-> _]|(e & f2 & -> & He)]; [|simpl; by rewrite He].
    by destruct (findLive _ f).
  - by apply Apply_sound.
  - unfold Fake_ObserveOperation, bindM, modifyM. cbv beta iota. set (f1 := with_calls _ _ _ f).
    destruct (rateLimited_spec f1) as [[-> _]|(e & f2 & -> & He)]; [|simpl; by rewrite He].
    destruct (or_Ref op) as [ref|]; [|done]. destruct (findLive _ f1) as [o|] eqn:E; [|done].
    apply findLive_Some in E as [Hm Hl]. destruct (stepObject o) as [o' b] eqn:Hst. simpl.
    destruct (stepObject_keeps _ _ _ Hst) as (Hi & Hlb & Hlv). rewrite Hi, (sd_keyed _ Hs _ _ Hm).
    eapply sound_descends; [exact Hs|]. by eapply descends_put.
  - by rewrite Volumes_Apply_objects.
Qed.

Lemma runs_sound cs f : Forall stamped_call cs → sound (f_objects f) → sound (f_objects (foldl run f cs)).
Proof.
  intros Hcs. revert f. induction Hcs as [|c cs Hc _ IH]; intros f Hs; simpl; [done|].
  by apply IH, run_sound.
Qed.
Lemma New_sound i w opt : sound (f_objects (New i w opt)).
Proof. split; intros *; simpl; by rewrite lookup_empty. Qed.

(** ** Quiet calls: no rate limit, no fault queued *)

Definition quiet (f : Fake) : Prop := f_rateLimitLeft f ≤ 0 ∧ f_applyFaults f = [].

Lemma rateLimited_quiet f : f_rateLimitLeft f ≤ 0 → rateLimited f = (Ok tt, f).
Proof. intros H. unfold rateLimited. by rewrite decide_False by lia. Qed.

Lemma Apply_quiet a f : quiet f →
  Fake_Apply a f = applyLocked a (with_calls (add64 (f_ApplyCalls f) 1) (f_ObserveCalls f) (f_DiscoverCalls f) f).
Proof.
  intros [Hr Hf]. unfold Fake_Apply, bindM, modifyM. cbv beta iota. rewrite rateLimited_quiet by done.
  unfold nextFault. simpl. by rewrite Hf.
Qed.

Lemma applyLocked_create a f : ac_Kind a = "create"%string → applyLocked a f = applyCreate a f.
Proof. intros Ha. unfold applyLocked. by rewrite Ha. Qed.

Lemma filter_snd {A} (P : A → bool) (l : list (string * A)) :
  filter (λ x, P x = true) l.*2 = (filter (λ kx : string * A, P kx.2 = true) l).*2.
Proof.
  induction l as [|[k x] l IH]; [done|]. cbn [fmap list_fmap snd].
  destruct (decide (P x = true)) as [Hx|Hx].
  - rewrite !filter_cons_True by done. cbn [fmap list_fmap snd]. by rewrite IH.
  - by rewrite !filter_cons_False by done.
Qed.

(** The rows of a table that satisfy a test only one row satisfies. *)
Lemma select_unique {A} (P : A → bool) (m : gmap string A) k x :
  m !! k = Some x → P x = true → (∀ k' y, m !! k' = Some y → P y = true → k' = k) → select P m = [x].
Proof.
  intros Hk HP Hu.
  assert (filter (λ kx : string * A, P kx.2 = true) (merge_sort key_le (map_to_list m)) = [(k, x)]) as Hf.
  { apply Permutation_length_1_inv. symmetry.
    apply NoDup_Permutation.
    - apply NoDup_filter. rewrite (merge_sort_Permutation key_le). apply NoDup_map_to_list.
    - apply NoDup_singleton.
    - intros [k' y]. rewrite list_elem_of_filter, (merge_sort_Permutation key_le), elem_of_map_to_list, list_elem_of_singleton.
      simpl. split; [|by intros [= -> ->]]. intros [HP' Hk']. assert (k' = k) as -> by by eapply Hu. congruence. }
  unfold select, rows. by rewrite filter_snd, Hf.
Qed.
Lemma select_none {A} (P : A → bool) (m : gmap string A) :
  (∀ k x, m !! k = Some x → P x = false) → select P m = [].
Proof.
  intros Hn. destruct (select P m) as [|x l] eqn:Hs; [done|]. assert (x ∈ select P m) as Hx by (rewrite Hs; left).
  apply elem_of_select in Hx as [HP [k Hk]]. rewrite (Hn _ _ Hk) in HP. done.
Qed.

Lemma select_byOp m k o : sound m → m !! k = Some o → live o = true → select (byOp (op_label o)) m = [o].
Proof.
  intros Hs Hk Hl. eapply select_unique; [exact Hk| |].
  - unfold byOp. rewrite Hl. simpl. by apply bool_decide_eq_true.
  - intros k' o' Hk' [Hl' Ho']%andb_true_iff. apply bool_decide_eq_true in Ho'.
    eapply (sd_once _ Hs); [exact Hk'|exact Hk|done..].
Qed.

(** ** Pages *)

Lemma paginate_all {A} fuel size i (all paged : list A) :
  0 < size → in64 size → 0 ≤ i → Z.of_nat (length all) < 2 ^ 62 →
  (i = 0 ∨ size ≤ i) → (Z.to_nat (Z.of_nat (length all) - i) < fuel)%nat →
  paginate fuel size i all paged = paged ++ drop (Z.to_nat i) all.
Proof.
  intros Hsz H64 Hi Hlen. revert i paged Hi. induction fuel as [|fuel IH]; intros i paged Hi Hor Hfuel; [lia|].
  cbn [paginate]. case_decide as Hlt; [|by rewrite drop_ge, app_nil_r by lia].
  unfold in64, min64, max64 in H64.
  assert (add64 i size = i + size) as -> by (apply wrap64_id; unfold in64, min64, max64; lia).
  rewrite IH by lia. rewrite <-app_assoc. f_equal.
  rewrite <-(take_drop (Z.to_nat (Z.min (i + size) (Z.of_nat (length all)) - i)) (drop (Z.to_nat i) all)) at 2.
  f_equal. rewrite drop_drop. destruct (Z.min_spec (i + size) (Z.of_nat (length all))) as [[? ->]|[? ->]].
  - f_equal. lia.
  - rewrite !drop_ge by lia. done.
Qed.

(** ** Searches *)

Lemma applyLocked_fixed a f : f_ownerID (applyLocked a f).2 = f_ownerID f ∧
  PageSize (f_opt (applyLocked a f).2) = PageSize (f_opt f).
Proof.
  unfold applyLocked, applyCreate, applyDelete, applyPark. destruct (mem _ _).
  { destruct (match ac_Params a with Some _ => _ | None => _ end); [|done].
    destruct (head _); [done|]. by case_decide. }
  destruct (mem _ _).
  { destruct (ac_Ref a); [|done]. simpl. by destruct (findLive _ _); [case_decide|]. }
  do 2 (destruct (mem _ _); [destruct (ac_Ref a); [|done]; destruct (negb _); [done|];
    destruct (findLive _ _); [|done]; simpl; by destruct (mem _ _); [|case_decide]|]).
  done.
Qed.

(** What a quiet list pass answers. *)
Definition answer (owner : string) (size : Z) (req : DiscoverRequest) (m : gmap string object) :
    list ObservedResource :=
  let all := observe owner <$> select (listed owner req) m in
  if decide (0 < size) then paginate (S (length all)) size 0 all [] else all.

Lemma Discover_quiet req f : f_rateLimitLeft f ≤ 0 →
  (Fake_Discover req f).1 = Ok (answer (f_ownerID f) (PageSize (f_opt f)) req (tickLag <$> f_objects f)).
Proof.
  intros Hr. unfold Fake_Discover, bindM, modifyM, getsM. cbv beta iota. by rewrite rateLimited_quiet by done.
Qed.

Lemma answer_short owner size req m l : in64 size →
  select (listed owner req) m = l → (length l ≤ 1)%nat → answer owner size req m = observe owner <$> l.
Proof.
  intros H64 Hl Hlen. unfold answer. rewrite Hl. case_decide; [|done].
  rewrite paginate_all; [done|done|done|done| |by left|]; rewrite length_fmap; lia.
Qed.

Lemma labelsMatch_singleton have k v : labelsMatch have {[ k := v ]} = bool_decide (map_get have k = v).
Proof. unfold labelsMatch. rewrite map_to_list_singleton. simpl. apply andb_true_r. Qed.

Lemma run_fixed c f : f_ownerID (run f c) = f_ownerID f ∧ PageSize (f_opt (run f c)) = PageSize (f_opt f).
Proof.
  destruct c; try done; unfold run.
  - unfold Fake_Discover, bindM, modifyM, getsM, rateLimited. by case_decide.
  - unfold Fake_Get, bindM, rateLimited. case_decide; [done|]. by destruct (findLive _ _).
  - unfold Fake_Apply, bindM, modifyM, rateLimited, nextFault. case_decide; [done|].
    destruct (f_applyFaults _) as [|fault rest]; [apply (applyLocked_fixed a (with_calls _ _ _ f))|].
    destruct (mem _ _); [|apply (applyLocked_fixed a (with_calls _ _ _ f))].
    destruct (af_mutate fault); [|done].
    apply (applyLocked_fixed a (with_applyFaults rest (with_calls _ _ _ f))).
  - unfold Fake_ObserveOperation, bindM, modifyM, rateLimited. case_decide; [done|].
    destruct (or_Ref op); [|done]. destruct (findLive _ _); [|done]. by destruct (stepObject _).
  - unfold Volumes.Apply, Volumes.applyCreate, Volumes.applyDelete.
    repeat (destruct (mem _ _)); try done.
    + destruct (match ac_Params a with Some _ => _ | None => _ end); [|done]. by destruct (head _).
    + destruct (ac_Ref a) as [ref|]; [|done]. simpl. by destruct (f_volumes f !! _).
Qed.
Lemma runs_fixed cs f :
  f_ownerID (foldl run f cs) = f_ownerID f ∧ PageSize (f_opt (foldl run f cs)) = PageSize (f_opt f).
Proof.
  revert f. induction cs as [|c cs IH]; intros f; simpl; [done|].
  destruct (IH (run f c)) as [-> ->]. apply run_fixed.
Qed.

(** ** The theorems *)

(** C10: through any calls, lost replies, injected failures, rate limits and
    list lag, at most one live machine carries the op label of a create, and a
    create that is applied again answers with that machine and makes none. *)
Theorem fake_create_once cs inst owner opt :
  Forall stamped_call cs → let f := foldl run (New inst owner opt) cs in
  (∀ k1 k2 o1 o2, f_objects f !! k1 = Some o1 → f_objects f !! k2 = Some o2 →
     live o1 = true → live o2 = true → op_label o1 = op_label o2 → k1 = k2) ∧
  (∀ k o a j p, f_objects f !! k = Some o → live o = true → op_label o = ac_ActionID a →
     quiet f → ac_Kind a = "create"%string → ac_Params a = Some j → dec_createParams j = Ok p →
     ∃ f', Fake_Apply a f = (Ok (MkOpRef (ac_ActionID a) (Some (MkRef k ∅)) None), f') ∧
       f_objects f' = f_objects f).
Proof.
  intros Hcs f. pose proof (runs_sound cs _ Hcs (New_sound inst owner opt)) as Hs. fold f in Hs.
  split; [apply (sd_once _ Hs)|]. intros k o a j p Hk Hl Hop Hq Ha Hp Hd.
  rewrite (Apply_quiet a f Hq), applyLocked_create by done. unfold applyCreate. rewrite Hp, Hd. simpl.
  rewrite <-Hop, (select_byOp _ _ _ Hs Hk Hl). simpl. rewrite (sd_keyed _ Hs _ _ Hk). unfold done_ref. rewrite Hop. eauto.
Qed.

(** The search a crashed create is resolved with finds exactly the machine
    that create made once its list lag has passed, and nothing when it made
    none, whatever the page size. *)
Theorem fake_search_exact cs inst owner opt op :
  Forall stamped_call cs → in64 (PageSize opt) →
  let f := foldl run (New inst owner opt) cs in
  f_rateLimitLeft f ≤ 0 →
  let found := (Fake_Discover (MkDiscover ScopeOwned {[ LabelOp := op ]}) f).1 in
  (∀ k o, f_objects f !! k = Some o → live o = true → op_label o = op → owned owner (fo_labels o) = true →
     found = Ok (if decide (fo_listLag o ≤ 1) then [observe owner (tickLag o)] else [])) ∧
  ((∀ k o, f_objects f !! k = Some o → live o = true → op_label o ≠ op) → found = Ok []).
Proof.
  intros Hcs H64 f Hr found. pose proof (runs_sound cs _ Hcs (New_sound inst owner opt)) as Hs. fold f in Hs.
  destruct (runs_fixed cs (New inst owner opt)) as [Hown Hpage]. fold f in Hown, Hpage.
  change (f_ownerID (New inst owner opt)) with owner in Hown.
  change (PageSize (f_opt (New inst owner opt))) with (PageSize opt) in Hpage.
  unfold found. rewrite Discover_quiet by done. rewrite Hown, Hpage.
  pose proof (sound_descends _ _ Hs (descends_fmap _ _ tickLag_keeps)) as Hs'.
  set (m := tickLag <$> f_objects f) in *. set (req := MkDiscover ScopeOwned {[ LabelOp := op ]}).
  assert (∀ y, listed owner req y = true → live y = true ∧ fo_listLag y ≤ 0 ∧ op_label y = op) as Hlisted.
  { intros y. unfold listed, req. cbn [dr_Selector]. rewrite labelsMatch_singleton, !andb_true_iff.
    intros [[[Hl Hlag] _] Hop]. apply negb_true_iff, bool_decide_eq_false in Hlag.
    apply bool_decide_eq_true in Hop. split_and!; [done|lia|done]. }
  split.
  - intros k o Hk Hl Hop Ho. f_equal.
    assert (m !! k = Some (tickLag o)) as Hm by (unfold m; by rewrite lookup_fmap, Hk).
    destruct (tickLag_keeps o) as (Hid & Hlab & Hlive).
    assert (∀ k' y, m !! k' = Some y → listed owner req y = true → k' = k) as Hu.
    { intros k' y Hy (Hly & _ & Hopy)%Hlisted. eapply (sd_once _ Hs'); [exact Hy|exact Hm|done|by rewrite Hlive|].
      unfold op_label in *. by rewrite Hlab, Hopy, Hop. }
    assert (select (listed owner req) m = if decide (fo_listLag o ≤ 1) then [tickLag o] else []) as Hsel.
    { case_decide as Hlag.
      - eapply select_unique; [exact Hm| |exact Hu]. unfold listed, req. cbn [dr_Selector dr_Scope].
        rewrite labelsMatch_singleton, Hlive, Hlab, Ho, Hl. unfold op_label in Hop. rewrite Hop, orb_true_r.
        rewrite (bool_decide_eq_true_2 (op = op)) by done. rewrite !andb_true_r. simpl.
        apply negb_true_iff, bool_decide_eq_false. unfold tickLag. case_decide; simpl; lia.
      - apply select_none. intros k' y Hy. apply not_true_iff_false. intros Hly.
        pose proof (Hu _ _ Hy Hly) as ->. rewrite Hm in Hy. injection Hy as <-.
        apply Hlisted in Hly as (_ & Hly & _). unfold tickLag in Hly. case_decide; simpl in *; lia. }
    rewrite (answer_short _ _ _ _ _ H64 Hsel) by (case_decide; simpl; lia). by case_decide.
  - intros Hno. f_equal. rewrite (answer_short _ _ _ _ [] H64); [done| |simpl; lia].
    apply select_none. intros k y Hy. apply not_true_iff_false. intros (Hl & _ & Hop)%Hlisted.
    unfold m in Hy. rewrite lookup_fmap_Some in Hy. destruct Hy as (o & <- & Hk).
    destruct (tickLag_keeps o) as (Hid & Hlab & Hlive).
    apply (Hno k o Hk); [by rewrite <-Hlive|]. unfold op_label in *. by rewrite <-Hlab.
Qed.

(** *** Ways end *)

(** The state the way of an operation leads to. *)
Definition goal_of (s : ostate) : option ostate :=
  match s with
  | Creating | Starting => Some Running | Stopping => Some Stopped | Deleting => Some Gone
  | _ => None
  end.

Definition asks (n : nat) (op : OperationRef) (f : Fake) : Fake :=
  Nat.iter n (λ f, (Fake_ObserveOperation op f).2) f.

Lemma iter_l {A} n (g : A → A) x : Nat.iter n g (g x) = g (Nat.iter n g x).
Proof. induction n as [|n IH]; simpl; [done|]. by rewrite IH. Qed.

Lemma stepObject_way o g : goal_of (fo_state o) = Some g → 1 ≤ fo_stepsLeft o ≤ max64 →
  stepObject o = if decide (fo_stepsLeft o = 1) then (with_state g 0 o, false)
                 else (with_state (fo_state o) (fo_stepsLeft o - 1) o, true).
Proof.
  intros Hg Hn. unfold stepObject.
  assert (sub64 (fo_stepsLeft o) 1 = fo_stepsLeft o - 1) as ->.
  { apply wrap64_id. unfold in64, min64, max64 in *. lia. }
  destruct (fo_state o); simpl in Hg; simplify_eq; do 2 case_decide; try lia; try done.
  all: f_equal; f_equal; lia.
Qed.

Lemma ask_run op r o o' b f :
  or_Ref op = Some r → f_rateLimitLeft f ≤ 0 → f_objects f !! ref_ID r = Some o → live o = true →
  fo_id o = ref_ID r → stepObject o = (o', b) →
  ∃ f', Fake_ObserveOperation op f =
    (Ok (if b then MkStatus PvRunning (Some r) None None 0
         else MkStatus PvSucceeded (Some r)
                (if live o' then Some (observe (f_ownerID f) o') else None) None 0), f') ∧
    f_objects f' = <[ref_ID r := o']> (f_objects f) ∧ f_rateLimitLeft f' ≤ 0 ∧ f_ownerID f' = f_ownerID f.
Proof.
  intros Hop Hr Ho Hl Hid Hst. unfold Fake_ObserveOperation, bindM, modifyM. cbv beta iota.
  rewrite rateLimited_quiet by done. rewrite Hop.
  assert (findLive (ref_ID r) (with_calls (f_ApplyCalls f) (add64 (f_ObserveCalls f) 1) (f_DiscoverCalls f) f)
    = Some o) as -> by (by apply findLive_Some).
  rewrite Hst. eexists. split; [reflexivity|]. unfold put. simpl.
  destruct (stepObject_keeps _ _ _ Hst) as (-> & _). by rewrite Hid.
Qed.

(** C21: whatever was accepted comes to its end: an operation that needs [n]
    observations is reported running by the first [n - 1] and succeeded by the
    [n]-th, with the machine in the state the operation is for and every other
    machine as it was. *)
Theorem fake_way_ends op r o g f n :
  or_Ref op = Some r → f_rateLimitLeft f ≤ 0 → f_objects f !! ref_ID r = Some o → fo_id o = ref_ID r →
  goal_of (fo_state o) = Some g → fo_stepsLeft o = Z.of_nat (S n) → Z.of_nat (S n) ≤ max64 →
  (∀ i, (i < n)%nat → (Fake_ObserveOperation op (asks i op f)).1 = Ok (MkStatus PvRunning (Some r) None None 0)) ∧
  (∃ res, (Fake_ObserveOperation op (asks n op f)).1 = Ok (MkStatus PvSucceeded (Some r) res None 0)) ∧
  f_objects (asks (S n) op f) = <[ref_ID r := with_state g 0 o]> (f_objects f).
Proof.
  intros Hop. revert o f. induction n as [|n IH]; intros o f Hr Ho Hid Hg Hn Hmax.
  - assert (live o = true) as Hl by (unfold live; by destruct (fo_state o)).
    pose proof (stepObject_way o g Hg ltac:(lia)) as Hst. rewrite decide_True in Hst by lia.
    destruct (ask_run op r o _ _ f Hop Hr Ho Hl Hid Hst) as (f' & Hrun & Hobj & _ & _).
    unfold asks. simpl Nat.iter. rewrite Hrun. split_and!; [lia|by eexists|exact Hobj].
  - assert (live o = true) as Hl by (unfold live; by destruct (fo_state o)).
    pose proof (stepObject_way o g Hg ltac:(lia)) as Hst. rewrite decide_False in Hst by lia.
    destruct (ask_run op r o _ _ f Hop Hr Ho Hl Hid Hst) as (f' & Hrun & Hobj & Hr' & _).
    destruct (IH (with_state (fo_state o) (fo_stepsLeft o - 1) o) f') as (IH1 & IH2 & IH3);
      [done|by rewrite Hobj, lookup_insert_eq|done|done|simpl; lia|lia|].
    assert (∀ i, asks (S i) op f = asks i op f') as Hasks.
    { intros i. pose proof (iter_l i (λ f, (Fake_ObserveOperation op f).2) f) as Hi.
      cbv beta in Hi. rewrite Hrun in Hi. symmetry. exact Hi. }
    split_and!.
    + intros [|i] Hi; [by unfold asks; simpl; rewrite Hrun|]. rewrite Hasks. apply IH1. lia.
    + rewrite Hasks. exact IH2.
    + rewrite Hasks, IH3, Hobj, insert_insert_eq. done.
Qed.

(** *** From the plan to the machine *)

Import SpecFacts.
Lemma createParams_round_trip p :
  (∀ r, compute.Readiness (cp_Spec p) = Some r → readiness_in_range r) →
  dec_createParams (enc_createParams p) = Ok p.
Proof.
  intros Hr. destruct p as [name spec labels]. unfold dec_createParams, enc_createParams.
  cbn [cp_Name cp_Spec cp_Labels] in *.
  assert (compute.dec_labels (enc_map JStr labels) ∅ = Ok labels) as Hl.
  { unfold enc_map. simpl. by rewrite (dec_enc_map ""%string dec_string JStr). }
  repeat (dec_fields; first [rewrite (machine_round_trip spec Hr) | rewrite Hl]). by dec_fields.
Qed.

Section prepared.
Context `{ULID} `{Providers Fake}.

(** The labels [Prepare] asks for. *)
Definition desiredLabels (ownerID resID opID class : string) : gmap string string :=
  if decide (class = ""%string) then IdentityLabels ownerID resID opID
  else <[LabelClass := class]> (IdentityLabels ownerID resID opID).

Lemma desired_identity owner res op class k v :
  IdentityLabels owner res op !! k = Some v → desiredLabels owner res op class !! k = Some v.
Proof.
  intros Hk. unfold desiredLabels. case_decide; [done|]. rewrite lookup_insert_ne; [done|].
  intros <-. revert Hk. unfold IdentityLabels. by rewrite !lookup_insert_ne, lookup_singleton_ne by done.
Qed.
Lemma desired_op owner res op class : desiredLabels owner res op class !! LabelOp = Some op.
Proof. apply desired_identity. unfold IdentityLabels. by rewrite !lookup_insert_ne, lookup_singleton_eq by done. Qed.

Lemma Prepare_fake inst opt owner cs now w p w' :
  Instance_ (cs_Provider cs) = Some (Fake_Provider inst opt) → cs_Kind cs = compute.Kind →
  Prepare owner cs now w = (Ok p, w') →
  ∃ spec, compute.ParseSpec (cs_Spec cs) = Ok spec ∧
    let res := r_ID (Prepared_Resource p) in let op := o_ID (Prepared_Op p) in
    o_Action (Prepared_Op p) = JVal (MkAction op "create" res None
      (Some (enc_createParams (MkCreateParams (r_Name (Prepared_Resource p)) spec
               (desiredLabels owner res op (cs_Class cs))))) false).
Proof.
  intros Hi Hk. unfold Prepare. rewrite Hi, Hk. simpl.
  unfold bindM, newID, liftR, Fake_Plan. simpl.
  destruct (compute.ParseSpec (cs_Spec cs)) as [spec|e]; [|done]. intros [= <- <-].
  exists spec. split; [done|]. reflexivity.
Qed.

Lemma applyCreate_new a j p f :
  ac_Params a = Some j → dec_createParams j = Ok p → select (byOp (ac_ActionID a)) (f_objects f) = [] →
  ∃ k o f', applyCreate a f = (Ok (done_ref a (Some (MkRef k ∅))), f') ∧
    f_objects f' = <[k := o]> (f_objects f) ∧ fo_id o = k ∧ fo_name o = cp_Name p ∧ fo_spec o = cp_Spec p ∧
    fo_labels o = cp_Labels p ∪ compute.Labels (cp_Spec p) ∧ fo_state o ∈ [Creating; Running].
Proof.
  intros Hp Hd Hsel. unfold applyCreate. rewrite Hp, Hd, Hsel. simpl.
  case_decide; do 3 eexists; (split; [reflexivity|]); (split; [reflexivity|]); simpl; set_solver.
Qed.

(** The machine the fake cloud builds for a journaled create is the one
    the request described: its spec, its name, the labels of the spec under
    the identity labels, by which discovery reads back the resource and the
    create it belongs to. When the reply is lost the machine is there all the
    same and the caller is told that it may be. *)
Theorem prepared_create_lands inst opt owner cs now w p w' f :
  Instance_ (cs_Provider cs) = Some (Fake_Provider inst opt) → cs_Kind cs = compute.Kind →
  Prepare owner cs now w = (Ok p, w') →
  f_rateLimitLeft f ≤ 0 → f_applyFaults f = [] →
  (∀ k o, f_objects f !! k = Some o → live o = true → op_label o ≠ o_ID (Prepared_Op p)) →
  ∃ a spec k o,
    o_Action (Prepared_Op p) = JVal a ∧ stamped a ∧ compute.ParseSpec (cs_Spec cs) = Ok spec ∧
    (Fake_Apply a f).1 = Ok (MkOpRef (o_ID (Prepared_Op p)) (Some (MkRef k ∅)) None) ∧
    f_objects (Fake_Apply a f).2 = <[k := o]> (f_objects f) ∧
    fo_spec o = spec ∧ fo_name o = r_Name (Prepared_Resource p) ∧
    (∀ key v, compute.Labels spec !! key = Some v →
       desiredLabels owner (r_ID (Prepared_Resource p)) (o_ID (Prepared_Op p)) (cs_Class cs) !! key = None →
       fo_labels o !! key = Some v) ∧
    (let ob := observe owner o in
     ob_FleetplaneID ob = r_ID (Prepared_Resource p) ∧ ob_CreateOpID ob = o_ID (Prepared_Op p) ∧
     ob_Owned ob = true ∧ ob_Ref ob = MkRef k ∅) ∧
    (let lost := Fake_Apply a (AcceptButDropResponse f) in
     (∃ e, lost.1 = Err e ∧ Effect e = EffectMaybe) ∧ f_objects lost.2 = f_objects (Fake_Apply a f).2).
Proof.
  intros Hi Hk Hp Hr Hf Hno. destruct (Prepare_fake _ _ _ _ _ _ _ _ Hi Hk Hp) as (spec & Hspec & Ha). cbv zeta in Ha.
  set (res := r_ID (Prepared_Resource p)) in *. set (op := o_ID (Prepared_Op p)) in *.
  set (labels := desiredLabels owner res op (cs_Class cs)) in *.
  set (params := MkCreateParams (r_Name (Prepared_Resource p)) spec labels) in *.
  set (a := MkAction op "create" res None (Some (enc_createParams params)) false) in *.
  assert (dec_createParams (enc_createParams params) = Ok params) as Hrt.
  { apply createParams_round_trip. by apply RangeFacts.ParseSpec_machine in Hspec as [_ ?]. }
  assert (stamped a) as Hst.
  { intros j q [= <-]. rewrite Hrt. intros [= <-]. apply desired_op. }
  set (f1 := with_calls (add64 (f_ApplyCalls f) 1) (f_ObserveCalls f) (f_DiscoverCalls f) f).
  assert (select (byOp op) (f_objects f1) = []) as Hsel.
  { apply select_none. intros k o Ho. unfold byOp. destruct (live o) eqn:Hl; [|done]. simpl.
    apply bool_decide_eq_false. by apply (Hno k). }
  destruct (applyCreate_new a _ params f1 eq_refl Hrt Hsel) as (k & o & f' & Hrun & Hobj & Hid & Hname & Hsp & Hlab & _).
  assert (Fake_Apply a f = (Ok (done_ref a (Some (MkRef k ∅))), f')) as Happ.
  { rewrite Apply_quiet by done. by rewrite applyLocked_create. }
  exists a, spec, k, o. rewrite Happ. split_and!; [done..| | |].
  - intros key v Hkey Hnone. rewrite Hlab. apply lookup_union_Some_raw. by right.
  - cbv zeta. unfold observe, owned, map_get. cbn [ob_FleetplaneID ob_CreateOpID ob_Owned ob_Ref].
    assert (∀ key v, IdentityLabels owner res op !! key = Some v → fo_labels o !! key = Some v) as Hident.
    { intros key v Hkey. rewrite Hlab. apply lookup_union_Some_l. by apply desired_identity. }
    rewrite (Hident LabelID res), (Hident LabelOp op), (Hident LabelManaged "true"%string),
      (Hident LabelOwner owner) by (unfold IdentityLabels; by rewrite ?lookup_insert_ne, ?lookup_insert_eq, ?lookup_singleton_eq by done).
    simpl. rewrite Hid. split_and!; [done..| |done]. rewrite !bool_decide_eq_true_2 by done. done.
  - cbv zeta. unfold Fake_Apply, bindM, modifyM. cbv beta iota.
    rewrite rateLimited_quiet by done. unfold nextFault, AcceptButDropResponse. simpl. rewrite Hf. simpl.
    split; [by eexists|]. rewrite applyLocked_create by done.
    match goal with |- f_objects (applyCreate a ?g).2 = _ => assert (g = f1) as -> end; [|by rewrite Hrun].
    unfold f1. clear -Hf. destruct f. simpl in Hf. by subst.
Qed.
End prepared.

(** ** A cloud of one fake, and the inputs of the theorems *)

Definition opt : Options := MkOptions 2 1 1 10 ∅ true 1 1 Minute.
#[local] Instance numbered : ULID := pretty.
#[local] Instance fakes : Providers Fake := {|
  Instance_ name := if decide (name = "lab"%string) then Some (Fake_Provider "lab" opt) else None;
  Billing_ _ kind := (Fake_Billing opt kind, false);
  Parking_ _ kind := Fake_Parking opt kind
|}.
Definition order : CreateSpec :=
  MkCreate compute.Kind "lab" "runner" (RawDoc demo_spec) ∅ "small" None.
Definition w0 : World := MkWorld emptyDB 1000 0.
Definition prepared : option Prepared :=
  match Prepare "own_1" order 1000 w0 with (Ok p, _) => Some p | _ => None end.
Definition ordered : Action :=
  match prepared with
  | Some p => match o_Action (Prepared_Op p) with JVal a => a | _ => MkAction "" "" "" None None false end
  | None => MkAction "" "" "" None None false
  end.
(** The create is sent, its reply is lost, and it is sent again. *)
Definition calls : list call := [CDrop; CApply ordered; CApply ordered].
Definition lab : Fake := foldl run (New "lab" "own_1" opt) calls.
Definition made : object :=
  MkObject "100001" "runner" Creating 2 1 
    (match compute.ParseSpec (RawDoc demo_spec) with Ok s => s | Err _ => compute.zeroMachine end)
    (match head (map_to_list (f_objects lab)) with Some (_, o) => fo_labels o | None => ∅ end) machineCapacity.

Example lab_made : f_objects lab = {[ "100001"%string := made ]}.
Proof. vm_compute. reflexivity. Qed.

Definition order_params : json := default JNull (ac_Params ordered).
Definition order_decoded : createParams :=
  match dec_createParams order_params with Ok q => q | Err _ => MkCreateParams "" compute.zeroMachine ∅ end.
Lemma order_params_eq : ac_Params ordered = Some order_params.
Proof. vm_compute. reflexivity. Qed.
Lemma order_decoded_eq : dec_createParams order_params = Ok order_decoded.
Proof. vm_compute. reflexivity. Qed.

Lemma ordered_stamped : stamped ordered.
Proof.
  intros j p. rewrite order_params_eq. intros <-%(inj Some). rewrite order_decoded_eq.
  intros <-%Ok_inj. vm_compute. reflexivity.
Qed.
Lemma calls_stamped : Forall stamped_call calls.
Proof. unfold calls. repeat constructor; apply ordered_stamped. Qed.

Lemma fake_create_once_witness :
  ∃ f', Fake_Apply ordered lab = (Ok (MkOpRef "op_1" (Some (MkRef "100001" ∅)) None), f') ∧
    f_objects f' = f_objects lab.
Proof.
  destruct (fake_create_once calls "lab" "own_1" opt calls_stamped) as [_ H].
  refine (H "100001"%string made ordered order_params order_decoded _ _ _ _ _ order_params_eq order_decoded_eq).
  - change (f_objects lab !! "100001"%string = Some made). by rewrite lab_made.
  - reflexivity.
  - vm_compute. reflexivity.
  - split; [vm_compute; discriminate|vm_compute; reflexivity].
  - vm_compute. reflexivity.
Defined.

Lemma fake_search_exact_witness :
  (Fake_Discover (MkDiscover ScopeOwned {[ LabelOp := "op_1"%string ]}) lab).1 =
  Ok [observe "own_1" (tickLag made)].
Proof.
  destruct (fake_search_exact calls "lab" "own_1" opt "op_1" calls_stamped) as [H _].
  - unfold in64. vm_compute. split; discriminate.
  - vm_compute. discriminate.
  - refine (H "100001"%string made _ _ _ _).
    + change (f_objects lab !! "100001"%string = Some made). by rewrite lab_made.
    + reflexivity.
    + vm_compute. reflexivity.
    + vm_compute. reflexivity.
Defined.

Lemma fake_way_ends_witness :
  f_objects (asks 2 (MkOpRef "op_1" (Some (MkRef "100001" ∅)) None) lab) =
  <[ "100001"%string := with_state Running 0 made ]> (f_objects lab).
Proof.
  refine (proj2 (proj2 (fake_way_ends (MkOpRef "op_1" (Some (MkRef "100001" ∅)) None) (MkRef "100001" ∅)
    made Running lab 1 eq_refl _ _ eq_refl eq_refl eq_refl _))).
  - vm_compute. discriminate.
  - by rewrite lab_made.
  - vm_compute. discriminate.
Defined.

Lemma lab_instance : Instance_ (cs_Provider order) = Some (Fake_Provider "lab" opt).
Proof. reflexivity. Qed.
Lemma prepared_create_lands_witness : ∃ p w' a spec k o,
  Prepare "own_1" order 1000 w0 = (Ok p, w') ∧ o_Action (Prepared_Op p) = JVal a ∧
  f_objects (Fake_Apply a (New "lab" "own_1" opt)).2 = {[ k := o ]} ∧ fo_spec o = spec ∧
  ob_FleetplaneID (observe "own_1" o) = r_ID (Prepared_Resource p).
Proof.
  destruct (Prepare "own_1" order 1000 w0) as [[p|e] w'] eqn:Hp; [|vm_compute in Hp; discriminate].
  destruct (prepared_create_lands "lab" opt "own_1" order 1000 w0 p w' (New "lab" "own_1" opt) lab_instance eq_refl Hp)
    as (a & spec & k & o & Ha & _ & _ & _ & Hobj & Hs & _ & _ & Hob & _).
  - done.
  - done.
  - intros k o. simpl. by rewrite lookup_empty.
  - exists p, w', a, spec, k, o. split_and!; [done|done|exact Hobj|done|apply Hob].
Defined.
