(* ===== verification/Manager.v ===== *)
(** * The provider instance manager (internal/app/providers.go)

    The registry of compiled-in drivers, the instances built from the
    configuration with their billing overrides, and the identity of the
    control plane. The manager is the implementation of the [Providers]
    interface the kernel's theorems are stated against. *)

From stdpp Require Import base gmap strings list sorting.
From S2P Require Import Prelude Errors Json SDK Types Store Marshal.

(** ** The registry (pkg/sdk/provider/registry.go) *)

(** Secrets and the logger of the configuration are not modelled. *)
Record InstanceConfig := MkInstanceConfig {
  ic_Instance : string; ic_OwnerID : string; ic_Settings : raw }.

Definition Factory (P : Type) : Type := InstanceConfig → result (Provider P).

(** A second registration of a driver panics. *)
Definition Register {P} (driver : string) (f : Factory P) (reg : gmap string (Factory P)) :
    option (gmap string (Factory P)) :=
  match reg !! driver with Some _ => None | None => Some (<[driver := f]> reg) end.

Definition Drivers {P} (reg : gmap string (Factory P)) : list string := (sorted_entries reg).*1.

Definition New {P} (reg : gmap string (Factory P)) (driver : string) (cfg : InstanceConfig) :
    result (Provider P) :=
  match reg !! driver with
  | Some f => f cfg
  | None => Err (EProvider (MkError ErrInvalid EffectNone "" "unknown provider driver" "" "" 0))
  end.

(** ** Instances *)

Record BillingOverride := MkOverride {
  bo_Disabled : bool; bo_MinimumDuration : option Z; bo_Increment : option Z;
  bo_TerminationBuffer : option Z; bo_Adaptive : bool
}.
Record ProviderSpec := MkProviderSpec {
  ps_Name : string; ps_Driver : string; ps_Settings : raw; ps_Billing : gmap string BillingOverride }.

(** The struct [Providers]. *)
Record Manager (P : Type) := MkManager {
  m_instances : gmap string (Provider P);
  m_billing : gmap (string * string) (BillingPolicy * bool)
}.
Arguments MkManager {P}.
Arguments m_instances {P}.
Arguments m_billing {P}.

Section manager.
Context {P : Type}.
Implicit Types (m : Manager P) (inst : Provider P).

Definition driverPolicy inst (kind : string) : BillingPolicy :=
  match pv_Billing inst with Some billing => billing kind | None => zeroBilling end.

(** Fields that are set win, one by one. *)
Definition mergeOverride (pol : BillingPolicy) (ov : BillingOverride) : BillingPolicy :=
  MkBilling (default (MinimumDuration pol) (bo_MinimumDuration ov))
    (default (BillingIncrement pol) (bo_Increment ov))
    (default (TerminationBuffer pol) (bo_TerminationBuffer ov)).

Definition resolved inst (kind : string) (ov : BillingOverride) : BillingPolicy * bool :=
  if bo_Disabled ov then (zeroBilling, false)
  else (mergeOverride (driverPolicy inst kind) ov, bo_Adaptive ov).

(** Go ranges over the overrides in any order; each writes its own key. *)
Fixpoint resolveBilling (name : string) inst (overrides : list (string * BillingOverride))
    (billing : gmap (string * string) (BillingPolicy * bool)) :
    result (gmap (string * string) (BillingPolicy * bool)) :=
  match overrides with
  | [] => Ok billing
  | (kind, ov) :: overrides =>
      if mem kind (de_Kinds (pv_Descriptor inst))
      then resolveBilling name inst overrides (<[(name, kind) := resolved inst kind ov]> billing)
      else Err (EOther "billing: kind not served by driver")
  end.

Fixpoint buildAll (reg : gmap string (Factory P)) (ownerID : string) (nowMillis : Z)
    (specs : list ProviderSpec) m : M World (Manager P) :=
  match specs with
  | [] => retM m
  | spec :: specs =>
      inst <- liftR (New reg (ps_Driver spec) (MkInstanceConfig (ps_Name spec) ownerID (ps_Settings spec))) ;;
      billing <- liftR (resolveBilling (ps_Name spec) inst (map_to_list (ps_Billing spec)) (m_billing m)) ;;
      Tx (ProviderInstances_Upsert (MkProviderInstance (ps_Name spec) (ps_Driver spec) (ps_Settings spec)
            true nowMillis nowMillis)) ;;;
      buildAll reg ownerID nowMillis specs
        (MkManager (<[ps_Name spec := inst]> (m_instances m)) billing)
  end.

Definition BuildProviders (reg : gmap string (Factory P)) (specs : list ProviderSpec)
    (ownerID : string) (nowMillis : Z) : M World (Manager P) :=
  buildAll reg ownerID nowMillis specs (MkManager ∅ ∅).

Definition Instance m (name : string) : option (Provider P) := m_instances m !! name.

Definition Billing m (name kind : string) : BillingPolicy * bool :=
  match m_billing m !! (name, kind) with
  | Some rb => rb
  | None =>
      match m_instances m !! name with
      | Some inst => (driverPolicy inst kind, false)
      | None => (zeroBilling, false)
      end
  end.

Definition Parking m (name kind : string) : ParkPolicy :=
  match m_instances m !! name with
  | Some inst => match pv_Parking inst with Some parking => parking kind | None => zeroPark end
  | None => zeroPark
  end.

Definition Names m : list string := (sorted_entries (m_instances m)).*1.

(** What the kernel sees of it. *)
Definition manager_Providers m : Providers P :=
  {| Instance_ := Instance m; Billing_ := Billing m; Parking_ := Parking m |}.

End manager.

(** ** The identity of the control plane *)

Definition EnsureOwnerID `{ULID} (nowMillis : Z) : M World string :=
  Tx (r <- tryM (Checkpoints_Get "instance") ;;
      match r with
      | Ok (JVal cp) =>
          if decide (ck_OwnerID cp = ""%string) then failM (EOther "corrupt instance checkpoint")
          else retM (ck_OwnerID cp)
      | Ok _ => failM (EOther "corrupt instance checkpoint")
      | Err ENotFound =>
          ownerID <- newID "own" ;;
          Checkpoints_Put "instance" (JVal (MkCheckpoint 0 0 ownerID)) ;;;
          retM ownerID
      | Err e => failM e
      end).

(** ** Facts *)

Section facts.
Context {P : Type}.
Implicit Types (m : Manager P) (inst : Provider P).

Lemma resolveBilling_Ok name inst ovs billing billing' :
  NoDup ovs.*1 → resolveBilling name inst ovs billing = Ok billing' →
  (∀ kind ov, (kind, ov) ∈ ovs →
     kind ∈ de_Kinds (pv_Descriptor inst) ∧ billing' !! (name, kind) = Some (resolved inst kind ov)) ∧
  (∀ k, (k.1 ≠ name ∨ k.2 ∉ ovs.*1) → billing' !! k = billing !! k).
Proof.
  revert billing. induction ovs as [|[kind ov] ovs IH]; intros billing Hnd; simpl.
  - intros [= <-]. split; [|done]. intros ? ? Hin. by apply elem_of_nil in Hin.
  - inversion_clear Hnd as [|?? Hk Hnd']. destruct (mem kind _) eqn:Hm; [|done]. intros H.
    destruct (IH _ Hnd' H) as [IH1 IH2]. split.
    + intros kind' ov' [[= -> ->]|Hin]%elem_of_cons; [|by apply IH1]. split; [by apply mem_true|].
      rewrite IH2 by (by right). by rewrite lookup_insert_eq.
    + intros [n k] Hor. rewrite IH2 by (simpl in *; set_solver). rewrite lookup_insert_ne; [done|].
      intros [= -> ->]. simpl in Hor. set_solver.
Qed.

(** What a manager must answer for a configured instance. *)
Definition serves (reg : gmap string (Factory P)) (ownerID : string) m (spec : ProviderSpec) : Prop :=
  ∃ inst,
    New reg (ps_Driver spec) (MkInstanceConfig (ps_Name spec) ownerID (ps_Settings spec)) = Ok inst ∧
    Instance m (ps_Name spec) = Some inst ∧
    ∀ kind, Billing m (ps_Name spec) kind =
      match ps_Billing spec !! kind with
      | Some ov => resolved inst kind ov
      | None => (driverPolicy inst kind, false)
      end.

Lemma resolved_instance name inst (ovs : gmap string BillingOverride) billing billing' m' :
  resolveBilling name inst (map_to_list ovs) billing = Ok billing' →
  (∀ kind, billing !! (name, kind) = None) →
  m_instances m' !! name = Some inst → (∀ kind, m_billing m' !! (name, kind) = billing' !! (name, kind)) →
  ∀ kind, Billing m' name kind =
    match ovs !! kind with Some ov => resolved inst kind ov | None => (driverPolicy inst kind, false) end.
Proof.
  intros Hr Hfresh Hi Hb kind. destruct (resolveBilling_Ok _ _ _ _ _ (NoDup_fst_map_to_list ovs) Hr) as [H1 H2].
  unfold Billing. rewrite Hb, Hi. destruct (ovs !! kind) as [ov|] eqn:Hov.
  - apply elem_of_map_to_list in Hov. by destruct (H1 _ _ Hov) as [_ ->].
  - rewrite H2; [by rewrite Hfresh|]. right. simpl. intros Hin. apply list_elem_of_fmap in Hin as ([k ov] & -> & Hin).
    apply elem_of_map_to_list in Hin. simpl in Hov. congruence.
Qed.

Lemma buildAll_spec reg owner now specs m w m' w' :
  NoDup (ps_Name <$> specs) →
  (∀ spec kind, spec ∈ specs → m_billing m !! (ps_Name spec, kind) = None) →
  buildAll reg owner now specs m w = (Ok m', w') →
  (∀ spec, spec ∈ specs → serves reg owner m' spec ∧
     ∃ row, db_ProviderInstances (w_DB w') !! ps_Name spec = Some row ∧ pi_Driver row = ps_Driver spec ∧
       pi_Config row = ps_Settings spec ∧ pi_Enabled row = true) ∧
  (∀ name, name ∉ ps_Name <$> specs →
     m_instances m' !! name = m_instances m !! name ∧
     (∀ kind, m_billing m' !! (name, kind) = m_billing m !! (name, kind)) ∧
     db_ProviderInstances (w_DB w') !! name = db_ProviderInstances (w_DB w) !! name).
Proof.
  revert m w. induction specs as [|spec specs IH]; intros m w Hnd Hfresh; cbn [buildAll].
  { intros [= <- <-]. split; [|done]. intros ? Hin. by apply elem_of_nil in Hin. }
  cbn [fmap list_fmap] in Hnd. inversion_clear Hnd as [|?? Hk Hnd']. unfold liftR, bindM.
  destruct (New _ _ _) as [inst|e] eqn:Hnew; [|done].
  destruct (resolveBilling _ _ _ _) as [billing|e] eqn:Hres; [|done].
  destruct (resolveBilling_Ok _ _ _ _ _ (NoDup_fst_map_to_list (ps_Billing spec)) Hres) as [_ Hother].
  unfold Tx, ProviderInstances_Upsert, modifyM. cbv beta iota.
  set (w1 := up_ProviderInstances _ w). intros Hrun.
  assert (∀ name, name ≠ ps_Name spec →
    db_ProviderInstances (w_DB w1) !! name = db_ProviderInstances (w_DB w) !! name) as Hw1.
  { intros name Hne. unfold w1. simpl. by rewrite lookup_insert_ne. }
  destruct (IH (MkManager (<[ps_Name spec := inst]> (m_instances m)) billing) w1 Hnd') as [IH1 IH2]; [|exact Hrun|].
  { intros spec' kind Hin. simpl. rewrite Hother; [apply Hfresh; by right|]. left. simpl. intros Heq. apply Hk.
    rewrite <-Heq. by apply list_elem_of_fmap_2. }
  split.
  - intros spec' [->|Hin]%elem_of_cons; [|by apply IH1].
    destruct (IH2 _ Hk) as (Hi & Hb & Hrow). cbn [m_instances m_billing] in *. split.
    + exists inst. rewrite lookup_insert_eq in Hi. split_and!; [done|done|].
      eapply resolved_instance; [exact Hres| |done|done]. intros kind. apply Hfresh. left.
    + rewrite Hrow. unfold w1. simpl. rewrite lookup_insert_eq. eexists. split; [reflexivity|].
      by destruct (db_ProviderInstances (w_DB w) !! ps_Name spec).
  - intros name Hname. cbn [fmap list_fmap] in Hname. apply not_elem_of_cons in Hname as [Hne Hname].
    destruct (IH2 _ Hname) as (Hi & Hb & Hrow). cbn [m_instances m_billing] in *.
    rewrite lookup_insert_ne in Hi by done. split_and!; [done| |by rewrite Hrow, Hw1].
    intros kind. rewrite Hb. apply Hother. by left.
Qed.

End facts.

(** When every configured instance could be built, the manager serves
    each under its name with the driver's billing policy overridden field by
    field (and nothing else), and each is on record; names that are not
    configured are served to nobody. *)
Theorem configured_instances_served {P} (reg : gmap string (Factory P)) specs owner now w m w' :
  NoDup (ps_Name <$> specs) → BuildProviders reg specs owner now w = (Ok m, w') →
  (∀ spec, spec ∈ specs → serves reg owner m spec ∧
     ∃ row, db_ProviderInstances (w_DB w') !! ps_Name spec = Some row ∧ pi_Driver row = ps_Driver spec ∧
       pi_Config row = ps_Settings spec ∧ pi_Enabled row = true) ∧
  (∀ name kind, name ∉ ps_Name <$> specs →
     Instance m name = None ∧ Billing m name kind = (zeroBilling, false) ∧ Parking m name kind = zeroPark).
Proof.
  intros Hnd H. destruct (buildAll_spec reg owner now specs (MkManager ∅ ∅) w m w' Hnd) as [H1 H2]; [|exact H|].
  { intros. apply lookup_empty. }
  split; [exact H1|]. intros name kind Hn. destruct (H2 name Hn) as (Hi & Hb & _).
  cbn [m_instances m_billing] in *. rewrite lookup_empty in Hi.
  unfold Instance, Billing, Parking. rewrite Hi, (Hb kind), lookup_empty. done.
Qed.

(** A laboratory with one cloud, billed by the hour but for the minimum. *)
Definition labDriver : Provider unit :=
  MkProvider unit (MkDescriptor "lab" "lab" ["compute.machine"%string] true) (λ _, None)
    (Some (λ _, MkBilling Hour Hour Minute)) None.
Definition labRegistry : gmap string (Factory unit) := {[ "lab"%string := λ _, Ok labDriver ]}.
Definition labSpecs : list ProviderSpec :=
  [MkProviderSpec "lab-1" "lab" RawEmpty
     {[ "compute.machine"%string := MkOverride false (Some Minute) None None true ]}].

Lemma configured_instances_served_witness : ∃ m w',
  BuildProviders labRegistry labSpecs "own_1" 1000 (MkWorld emptyDB 1000 0) = (Ok m, w') ∧
  Billing m "lab-1" "compute.machine" = (MkBilling Minute Hour Minute, true).
Proof.
  destruct (BuildProviders labRegistry labSpecs "own_1" 1000 (MkWorld emptyDB 1000 0)) as [[m|e] w'] eqn:H.
  2: { vm_compute in H. discriminate. }
  exists m, w'. split; [done|].
  destruct (configured_instances_served labRegistry labSpecs "own_1" 1000 (MkWorld emptyDB 1000 0) m w') as [Hs _].
  - unfold labSpecs. simpl. apply NoDup_singleton.
  - exact H.
  - destruct (Hs (MkProviderSpec "lab-1" "lab" RawEmpty
     {[ "compute.machine"%string := MkOverride false (Some Minute) None None true ]})) as [(inst & Hnew & _ & Hb) _];
      [by left|].
    simpl in Hb. rewrite Hb. vm_compute in Hnew. injection Hnew as <-. reflexivity.
Defined.

(** *** Identity *)

(** The identity is minted once: after any run that leaves the checkpoint
    alone, asking again answers the same and changes nothing. *)
Lemma owner_minted_once `{ULID} now now' w id w' w2 :
  EnsureOwnerID now w = (Ok id, w') →
  db_Checkpoints (w_DB w2) !! "instance"%string = db_Checkpoints (w_DB w') !! "instance"%string →
  id ≠ ""%string → EnsureOwnerID now' w2 = (Ok id, w2).
Proof.
  intros H1 H2 Hid.
  assert (∃ cp, db_Checkpoints (w_DB w') !! "instance"%string = Some (JVal cp) ∧ ck_OwnerID cp = id) as (cp & Hcp & Ho).
  { revert H1. unfold EnsureOwnerID, Tx, bindM, tryM, Checkpoints_Get, row_get, newID, Checkpoints_Put, modifyM, retM.
    destruct (db_Checkpoints (w_DB w) !! "instance"%string) as [[|cp|]|] eqn:E; simpl; try done.
    - case_decide; [done|]. intros [= <- <-]. eauto.
    - intros [= <- <-]. simpl. rewrite lookup_insert_eq. eauto. }
  unfold EnsureOwnerID, Tx, bindM, tryM, Checkpoints_Get, row_get. rewrite H2, Hcp. simpl.
  rewrite Ho, decide_False by done. done.
Qed.
