(* ===== verification/Health.v ===== *)
(** * Provider health (internal/app/health.go)

    Every instance is polled; consecutive failures move it from unknown or
    healthy to degraded and unavailable, one success moves it back. Discovery
    is gated on the answer (internal/boot). The text of the last error is not
    modelled, only that there is one. *)

From stdpp Require Import base gmap strings list sorting.
From S2P Require Import Prelude Errors Json SDK Marshal.

Inductive hstate := Unknown | Healthy | Degraded | Unavailable.
#[global] Instance hstate_eq_dec : EqDecision hstate.
Proof. solve_decision. Defined.

Record ProviderHealth := MkHealth {
  ph_Instance : string; ph_Driver : string; ph_State : hstate; ph_Since : Z;
  ph_LastCheck : option Z; ph_LastError : option err; ph_ConsecutiveFailures : Z
}.
Record HealthConfig := MkHealthConfig { Interval : Z; DegradedAfter : Z; UnavailableAfter : Z }.

Definition defaults (c : HealthConfig) : HealthConfig :=
  MkHealthConfig (if decide (Interval c ≤ 0) then 30 * Second else Interval c)
    (if decide (DegradedAfter c ≤ 0) then 3 else DegradedAfter c)
    (if decide (UnavailableAfter c ≤ 0) then 10 else UnavailableAfter c).

Record HealthTracker := MkTracker { t_cfg : HealthConfig; t_states : gmap string ProviderHealth }.

(** The instances with their drivers, as the manager lists them. *)
Definition NewHealthTracker (instances : list (string * string)) (now : Z) (cfg : HealthConfig) :
    HealthTracker :=
  MkTracker (defaults cfg)
    (list_to_map ((λ nd, (nd.1, MkHealth nd.1 nd.2 Unknown now None None 0)) <$> instances)).

(** One outcome of a poll; [None] is the nil error. *)
Definition record1 (cfg : HealthConfig) (now : Z) (e : option err) (st : ProviderHealth) : ProviderHealth :=
  match e with
  | None =>
      MkHealth (ph_Instance st) (ph_Driver st) Healthy
        (if decide (ph_State st = Healthy) then ph_Since st else now) (Some now) None 0
  | Some e =>
      let failures := add64 (ph_ConsecutiveFailures st) 1 in
      let next := if decide (UnavailableAfter cfg ≤ failures) then Unavailable
                  else if decide (DegradedAfter cfg ≤ failures) then Degraded
                  else ph_State st in
      MkHealth (ph_Instance st) (ph_Driver st) next
        (if decide (next = ph_State st) then ph_Since st else now) (Some now) (Some e) failures
  end.

Definition record (name : string) (now : Z) (e : option err) (t : HealthTracker) : HealthTracker :=
  match t_states t !! name with
  | None => t
  | Some st => MkTracker (t_cfg t) (<[name := record1 (t_cfg t) now e st]> (t_states t))
  end.

(** [CheckAll]: every configured instance once. [probe] is the provider's own
    health call (with its timeout); the clock is read after each. *)
Definition CheckAll {P} (names : list string) (known : string → bool)
    (probe : string → P → option err * P) (clock : string → Z) (t : HealthTracker) (p : P) :
    HealthTracker * P :=
  foldl (λ '(t, p) name,
    if known name then let '(e, p) := probe name p in (record name (clock name) e t, p) else (t, p))
    (t, p) names.

Definition Snapshot (t : HealthTracker) : list ProviderHealth := (sorted_entries (t_states t)).*2.

(** The gate internal/boot gives to discovery. *)
Definition healthyGate (t : HealthTracker) (instance_ : string) : bool :=
  match list_find (λ ph, ph_Instance ph = instance_) (Snapshot t) with
  | Some (_, ph) => mem (ph_State ph) [Healthy; Unknown]
  | None => true
  end.

(** ** The state as a function of the outcomes *)

(** Failures at the end of a history (latest outcome first), and whether any
    poll ever succeeded. *)
Fixpoint trailing (outcomes : list (option err)) : nat :=
  match outcomes with Some _ :: rest => S (trailing rest) | _ => O end.
Definition succeeded (outcomes : list (option err)) : bool := existsb is_none outcomes.

Definition verdict (cfg : HealthConfig) (outcomes : list (option err)) : hstate :=
  let n := Z.of_nat (trailing outcomes) in
  if decide (n = 0) then if decide (outcomes = []) then Unknown else Healthy
  else if decide (UnavailableAfter cfg ≤ n) then Unavailable
  else if decide (DegradedAfter cfg ≤ n) then Degraded
  else if succeeded outcomes then Healthy else Unknown.

(** A history, latest outcome first. *)
Fixpoint polled (cfg : HealthConfig) (history : list (Z * option err)) (st : ProviderHealth) : ProviderHealth :=
  match history with
  | [] => st
  | (now, e) :: history => record1 cfg now e (polled cfg history st)
  end.

Lemma trailing_length os : (trailing os ≤ length os)%nat.
Proof. induction os as [|[e|] os IH]; simpl; lia. Qed.
Lemma trailing_succeeded os : (trailing os < length os)%nat ↔ succeeded os = true.
Proof.
  induction os as [|[e|] os IH]; simpl; [split; [intros ?; exfalso; lia|done]| |].
  - change (succeeded (Some e :: os)) with (succeeded os). rewrite <-IH. split; lia.
  - split; [done|intros _; lia].
Qed.

Lemma polled_failures cfg history st :
  ph_ConsecutiveFailures st = 0 → Z.of_nat (length history) ≤ max64 →
  ph_ConsecutiveFailures (polled cfg history st) = Z.of_nat (trailing history.*2).
Proof.
  intros Hst. induction history as [|[now e] history IH]; intros Hlen; [done|].
  destruct e as [e|]; [|done].
  cbn [polled record1 ph_ConsecutiveFailures length fmap list_fmap snd trailing] in *.
  rewrite IH by lia. unfold add64.
  pose proof (trailing_length history.*2) as Ht. rewrite length_fmap in Ht.
  unfold max64 in Hlen. rewrite wrap64_id; [lia|]. unfold in64, min64, max64. lia.
Qed.

Lemma polled_state cfg history st :
  0 < DegradedAfter cfg → 0 < UnavailableAfter cfg →
  ph_State st = Unknown → ph_ConsecutiveFailures st = 0 → Z.of_nat (length history) ≤ max64 →
  ph_State (polled cfg history st) = verdict cfg history.*2.
Proof.
  intros HD HU Hs Hc. induction history as [|[now e] history IH]; intros Hlen; [by simpl|].
  cbn [length] in Hlen. specialize (IH ltac:(lia)).
  pose proof (polled_failures cfg ((now, e) :: history) st Hc ltac:(simpl; lia)) as Hf.
  destruct e as [e|]; [|by unfold verdict; simpl].
  cbn [polled record1 ph_State ph_ConsecutiveFailures] in Hf |- *. rewrite Hf, IH. clear Hf IH.
  set (n := trailing history.*2). unfold verdict. cbn [fmap list_fmap snd trailing]. fold n.
  rewrite (decide_False (P := Z.of_nat (S n) = 0)) by lia.
  case_decide; [done|]. case_decide; [done|].
  assert (succeeded (Some e :: history.*2) = succeeded history.*2) as -> by done.
  case_decide as Hn.
  - case_decide as Hnil; [by rewrite Hnil|].
    assert (succeeded history.*2 = true) as ->; [|done]. apply trailing_succeeded. fold n.
    destruct (history.*2); [done|]. simpl. lia.
  - rewrite decide_False by lia. rewrite decide_False by lia. done.
Qed.

(** Recording for one instance leaves the others alone. *)
Definition recorded (t : HealthTracker) (entries : list (string * Z * option err)) : HealthTracker :=
  foldr (λ '(name, now, e) t, record name now e t) t entries.
Definition of_instance (name : string) (entries : list (string * Z * option err)) : list (Z * option err) :=
  (λ x, (x.1.2, x.2)) <$> filter (λ x, x.1.1 = name) entries.

Lemma recorded_lookup t entries name st :
  t_states t !! name = Some st →
  t_cfg (recorded t entries) = t_cfg t ∧
  t_states (recorded t entries) !! name = Some (polled (t_cfg t) (of_instance name entries) st).
Proof.
  intros Ht. induction entries as [|[[name' now] e] entries [IHc IHs]]; [done|].
  unfold recorded, of_instance in *. cbn [foldr]. set (t' := foldr _ t entries) in *.
  unfold record. destruct (decide (name' = name)) as [->|Hne].
  - rewrite filter_cons_True by done. cbn [fmap list_fmap polled fst snd].
    rewrite IHs. simpl. rewrite lookup_insert_eq, IHc. done.
  - rewrite filter_cons_False by done. destruct (t_states t' !! name') as [st'|]; [|done].
    simpl. rewrite lookup_insert_ne by done. done.
Qed.

Definition keyed (t : HealthTracker) : Prop := ∀ k st, t_states t !! k = Some st → ph_Instance st = k.

Lemma record_keyed name now e t : keyed t → keyed (record name now e t).
Proof.
  intros Ht k st. unfold record. destruct (t_states t !! name) as [st'|] eqn:E; [|apply Ht]. simpl.
  rewrite lookup_insert_Some. intros [[<- <-]|[_ Hk]]; [|by apply Ht].
  destruct e; simpl; by apply Ht.
Qed.
Lemma recorded_keyed t entries : keyed t → keyed (recorded t entries).
Proof. intros Ht. induction entries as [|[[name now] e] entries IH]; [done|]. by apply record_keyed. Qed.
Lemma NewHealthTracker_keyed instances now cfg : keyed (NewHealthTracker instances now cfg).
Proof.
  intros k st Hk. simpl in Hk. apply elem_of_list_to_map_2, list_elem_of_fmap in Hk as ([n d] & [= -> ->] & _). done.
Qed.

Lemma gate_lookup t name st : keyed t → t_states t !! name = Some st →
  healthyGate t name = mem (ph_State st) [Healthy; Unknown].
Proof.
  intros Hk Hst. unfold healthyGate.
  assert (∀ ph, ph ∈ Snapshot t ↔ ∃ k, t_states t !! k = Some ph) as Hsnap.
  { intros ph. unfold Snapshot, sorted_entries. rewrite list_elem_of_fmap. split.
    - intros ([k x] & -> & Hx). rewrite (merge_sort_Permutation key_le) in Hx. apply elem_of_map_to_list in Hx. eauto.
    - intros [k Hx]. exists (k, ph). split; [done|]. rewrite (merge_sort_Permutation key_le). by apply elem_of_map_to_list. }
  destruct (list_find _ _) as [[i ph]|] eqn:Hf.
  - apply list_find_Some in Hf as (Hi & Hn & _). apply list_elem_of_lookup_2, Hsnap in Hi as [k Hx].
    rewrite (Hk _ _ Hx) in Hn. subst k. by rewrite Hst in Hx; injection Hx as <-.
  - apply list_find_None in Hf. rewrite Forall_forall in Hf. destruct (Hf st); [apply Hsnap; eauto|by apply Hk].
Qed.

(** What the tracker reports for an instance is a function of its own
    polls alone: unknown before the first success, healthy after one until the
    failures in a row reach the first threshold, then degraded, then
    unavailable, and discovery runs exactly in the first two. *)
Theorem health_exact instances start cfg entries name driver :
  NoDup instances.*1 → (name, driver) ∈ instances → Z.of_nat (length entries) ≤ max64 →
  let t := recorded (NewHealthTracker instances start cfg) entries in
  let outcomes := (of_instance name entries).*2 in
  ∃ st, t_states t !! name = Some st ∧ ph_Instance st = name ∧
    ph_State st = verdict (defaults cfg) outcomes ∧
    ph_ConsecutiveFailures st = Z.of_nat (trailing outcomes) ∧
    (healthyGate t name = true ↔
       Z.of_nat (trailing outcomes) < Z.min (DegradedAfter (defaults cfg)) (UnavailableAfter (defaults cfg))).
Proof.
  intros Hnd Hin Hlen t outcomes. set (st0 := MkHealth name driver Unknown start None None 0).
  assert (t_states (NewHealthTracker instances start cfg) !! name = Some st0) as H0.
  { simpl. apply elem_of_list_to_map.
    - by rewrite <-list_fmap_compose.
    - apply list_elem_of_fmap. by exists (name, driver). }
  destruct (recorded_lookup _ entries _ _ H0) as [Hcfg Hst]. fold t in Hcfg, Hst. simpl t_cfg in *.
  set (h := of_instance name entries) in *.
  assert (Z.of_nat (length h) ≤ max64) as Hh.
  { unfold h, of_instance. rewrite length_fmap.
    pose proof (length_filter (λ x : string * Z * option err, x.1.1 = name) entries). lia. }
  assert (0 < DegradedAfter (defaults cfg) ∧ 0 < UnavailableAfter (defaults cfg)) as [HD HU].
  { simpl. do 2 case_decide; lia. }
  pose proof (polled_state (defaults cfg) h st0 HD HU eq_refl eq_refl Hh) as Hstate.
  pose proof (polled_failures (defaults cfg) h st0 eq_refl Hh) as Hf.
  exists (polled (defaults cfg) h st0). split_and!; [exact Hst| |exact Hstate|exact Hf|].
  - by apply (recorded_keyed _ entries (NewHealthTracker_keyed instances start cfg)).
  - rewrite (gate_lookup t _ _ (recorded_keyed _ entries (NewHealthTracker_keyed instances start cfg)) Hst), Hstate, mem_true.
    fold outcomes. unfold verdict. set (n := Z.of_nat (trailing outcomes)).
    assert (0 ≤ n) by (unfold n; lia).
    repeat case_decide; try (destruct (succeeded outcomes)); set_solver by lia.
Qed.

Lemma health_exact_witness :
  let t := recorded (NewHealthTracker [("aws", "aws"); ("lab", "fake")]%string 0 (MkHealthConfig 0 0 0))
             [("lab", 40, Some EContext); ("aws", 35, None); ("lab", 30, Some EContext);
              ("lab", 20, Some EContext); ("lab", 10, None)]%string in
  ∃ st, t_states t !! "lab"%string = Some st ∧ ph_State st = Degraded ∧ ~ healthyGate t "lab" = true.
Proof.
  intros t.
  destruct (health_exact [("aws", "aws"); ("lab", "fake")]%string 0 (MkHealthConfig 0 0 0)
             [("lab", 40, Some EContext); ("aws", 35, None); ("lab", 30, Some EContext);
              ("lab", 20, Some EContext); ("lab", 10, None)]%string "lab" "fake")
    as (st & Hst & _ & Hs & _ & Hg).
  - by apply (bool_decide_unpack _); vm_compute.
  - set_solver.
  - vm_compute. discriminate.
  - exists st. split; [exact Hst|]. split; [rewrite Hs; vm_compute; reflexivity|].
    intros H. apply Hg in H. vm_compute in H. discriminate.
Defined.
