(* ===== verification/AppFacts.v ===== *)
(** * Facts about the application services

    A keyed command has one effect and one answer, and what a delete answers
    is decided by the gates, in the code's order. *)

From stdpp Require Import base gmap strings list.
From S2P Require Import Prelude Errors Json Phase SDK Capacity Types Store Provision Sys Lease Scheduler Reconcile App LeaseFacts Demo.

(** ** Deletes *)

(** Why a delete is refused, in the order of the code. *)
Definition delete_refusal (res : Resource) (leases : Z) (busy : bool) : option err :=
  if negb (live res) then Some ENotFound
  else if negb (bool_decide (r_Ownership res = OwnershipManaged)) then Some EValidation
  else if r_DeleteProtected res then Some EConflict
  else if bool_decide (0 < leases) then Some EConflict
  else if is_none (r_ExternalID res) then None
  else if negb (CanTransition (r_Phase res) Deleting) then Some EConflict
  else if busy then Some EConflict
  else None.

Definition active_leases (id : string) (w : World) : Z :=
  Z.of_nat (length (select (active_on id) (db_Leases (w_DB w)))).

(** What an accepted delete leaves behind: a tombstone when nothing was ever
    built, else the phase and the journaled operation the engine will run. *)
Definition deleted_world (res : Resource) (opID actor : string) (i : Idem) (t : Z) (w : World) : World :=
  match r_ExternalID res with
  | None => up_Resources (insert (r_ID res) (with_r_DeletedAt (Some t) (with_r_UpdatedAt t res))) w
  | Some ext =>
      up_Events (cons (MkEvent t actor (id_Key i) "resource.delete" (Some (r_ID res)) None (Some opID)
                         (r_Provider res) "journaled"))
     (up_Operations (insert opID (stampKey i (journaledOp opID OpKindDelete (Some (r_ID res)) None
        (r_Provider res) (MkAction opID "delete" (r_ID res) (Some (refOf res ext)) None true) t)))
     (up_Resources (insert (r_ID res) (cas_row (r_Phase res) Deleting t res)) w))
  end.

Lemma deleteGates_run res w :
  deleteGates res w =
  (if negb (live res) then Err ENotFound
   else if negb (bool_decide (r_Ownership res = OwnershipManaged)) then Err EValidation
   else if r_DeleteProtected res then Err EConflict
   else if bool_decide (0 < active_leases (r_ID res) w) then Err EConflict else Ok tt, w).
Proof.
  unfold deleteGates, refuse, bindM, failM, retM, Leases_CountActive, getsM. fold (active_leases (r_ID res) w).
  destruct (negb (live res)); [done|]. destruct (negb (bool_decide _)); [done|].
  destruct (r_DeleteProtected res); [done|]. cbv beta iota. by destruct (bool_decide _).
Qed.

Lemma stampKey_fields i o :
  o_ID (stampKey i o) = o_ID o ∧ o_State (stampKey i o) = o_State o ∧ o_ParentID (stampKey i o) = o_ParentID o ∧
  o_ResourceID (stampKey i o) = o_ResourceID o ∧ o_PoolID (stampKey i o) = o_PoolID o ∧
  open (stampKey i o) = open o.
Proof. unfold stampKey. by destruct (keyed i). Qed.

Lemma append_run o w r :
  o_State o = OpJournaled → o_ParentID o = None → o_PoolID o = None → o_ResourceID o = Some r → open o = true →
  db_Operations (w_DB w) !! o_ID o = None → is_Some (db_Resources (w_DB w) !! r) →
  Operations_Append o w =
  if res_busy (Some r) (db_Operations (w_DB w)) then (Err EConflict, w)
  else (Ok tt, up_Operations (insert (o_ID o) o) w).
Proof.
  intros Hs Hp Hpool Hr Ho Hfresh [x Hx]. unfold Operations_Append. rewrite decide_True by done.
  unfold row_insert. rewrite Hfresh, Hp, Hpool, Hr, Ho. simpl. rewrite Hx. simpl. by destruct (exists_row _ _).
Qed.

(** A closed gate rolls everything back. *)
Lemma delete_gated opID actor i t respond w e res :
  Resources_Get (r_ID res) w = (Ok res, w) → deleteGates res w = (Err e, w) →
  Tx (deleteTx (r_ID res) opID actor i t respond) w = (Err e, w).
Proof.
  intros Hget Hg. unfold Tx, deleteTx.
  rewrite (bindM_eq _ _ _ _ _ Hget), (bindM_err _ _ _ _ _ Hg). by destruct w.
Qed.

(** C18: a delete is refused, with the error of the first gate that is closed
    and no trace in the tables, exactly when the machine is gone, not managed,
    protected, leased, in a phase that cannot be deleted, or busy with another
    operation; otherwise it is answered, and leaves the tombstone or the
    deleting phase with its journaled operation, and nothing else. *)
Theorem delete_decided resID opID actor i t respond w res :
  db_Resources (w_DB w) !! resID = Some res → r_ID res = resID →
  db_Operations (w_DB w) !! opID = None →
  Tx (deleteTx resID opID actor i t respond) w =
  match delete_refusal res (active_leases resID w) (res_busy (Some resID) (db_Operations (w_DB w))) with
  | Some e => (Err e, w)
  | None => (Ok (respond res), deleted_world res opID actor i t w)
  end.
Proof.
  intros Hres <- Hfresh. unfold delete_refusal.
  set (n := active_leases (r_ID res) w). set (busy := res_busy _ _).
  pose proof (deleteGates_run res w) as Hg. fold n in Hg.
  pose proof (row_get_run db_Resources (r_ID res) w res Hres) as Hget.
  destruct (negb (live res)) eqn:Hlive; [by apply delete_gated|].
  destruct (negb (bool_decide _)); [by apply delete_gated|].
  destruct (r_DeleteProtected res); [by apply delete_gated|].
  destruct (bool_decide (0 < n)); [by apply delete_gated|].
  apply negb_false_iff in Hlive.
  unfold deleteTx, deleted_world. destruct (r_ExternalID res) as [ext|] eqn:Hext; cbn [is_none].
  - destruct (CanTransition (r_Phase res) Deleting) eqn:Hcan; cbn [negb].
    2: { unfold Tx. rewrite (bindM_eq _ _ _ _ _ Hget), (bindM_eq _ _ _ _ _ Hg), Hext. cbn [negb].
         rewrite Hcan. simpl. by destruct w. }
    pose proof (row_update_run db_Resources up_Resources (r_ID res)
      (λ r, bool_decide (r_Phase r = r_Phase res) && live r) (cas_row (r_Phase res) Deleting t) EConflict w res Hres) as Hcas.
    specialize (Hcas ltac:(cbv beta; by rewrite bool_decide_eq_true_2, Hlive by done)).
    set (w1 := up_Resources (insert (r_ID res) (cas_row (r_Phase res) Deleting t res)) w) in *.
    set (op := stampKey i _).
    destruct (stampKey_fields i (journaledOp opID OpKindDelete (Some (r_ID res)) None (r_Provider res)
      (MkAction opID "delete" (r_ID res) (Some (refOf res ext)) None true) t)) as (F1 & F2 & F3 & F4 & F5 & F6).
    pose proof (append_run op w1 (r_ID res) F2 F3 F5 F4 F6) as Happ. fold op in F1.
    rewrite F1 in Happ. specialize (Happ Hfresh). change (db_Operations (w_DB w1)) with (db_Operations (w_DB w)) in Happ.
    specialize (Happ ltac:(unfold w1; simpl; rewrite lookup_insert_eq; eauto)).
    change (o_ID (journaledOp opID OpKindDelete (Some (r_ID res)) None (r_Provider res)
      (MkAction opID "delete" (r_ID res) (Some (refOf res ext)) None true) t)) with opID in Happ.
    fold busy in Happ.
    unfold Tx. rewrite (bindM_eq _ _ _ _ _ Hget), (bindM_eq _ _ _ _ _ Hg), Hext, Hcan. cbn [negb].
    rewrite (bindM_eq _ _ _ tt w) by done. rewrite (bindM_eq _ _ _ _ _ Hcas). cbv zeta. fold op.
    destruct busy.
    + rewrite (bindM_err _ _ _ _ _ Happ). by destruct w.
    + rewrite (bindM_eq _ _ _ _ _ Happ). done.
  - unfold Tx. rewrite (bindM_eq _ _ _ _ _ Hget), (bindM_eq _ _ _ _ _ Hg), Hext.
    rewrite (bindM_eq _ _ _ _ _ (row_update_run db_Resources up_Resources (r_ID res) live
      (λ r, with_r_DeletedAt (Some t) (with_r_UpdatedAt t r)) ENotFound w res Hres Hlive)).
    done.
Qed.

(** ** Keyed commands *)

(** The three commands a key protects, as the transaction each runs. *)
Inductive command :=
| CmdCreate (p : Prepared) (actor : string) (respond : Resource → Z * option string)
| CmdDelete (resID opID actor : string) (respond : Resource → Z * option string)
| CmdAcquire (acq : Acquisition) (respond : Acquisition → Z * option string).

Definition submit (c : command) (i : Idem) (t : Z) : M World Outcome :=
  Tx match c with
     | CmdCreate p actor respond => createTx p actor i t respond
     | CmdDelete resID opID actor respond => keyedTx i opID t (deleteTx resID opID actor i t respond)
     | CmdAcquire acq respond => acquireTx acq i t respond
     end.
Definition command_op (c : command) : string :=
  match c with
  | CmdCreate p _ _ => o_ID (Prepared_Op p) | CmdDelete _ opID _ _ => opID | CmdAcquire _ _ => ""%string
  end.
Definition command_effect (c : command) (i : Idem) (t : Z) : M World (Z * option string) :=
  match c with
  | CmdCreate p actor respond => Journal p actor (id_Key i) ;;; retM (respond (Prepared_Resource p))
  | CmdDelete resID opID actor respond => deleteTx resID opID actor i t respond
  | CmdAcquire acq respond =>
      Acquisitions_Insert acq ;;;
      Events_Append (MkEvent t (a_Actor acq) (id_Key i) "acquisition.requested" None None None
                       "" "pending") ;;;
      retM (respond acq)
  end.
Lemma submit_keyed c i t : submit c i t = Tx (keyedTx i (command_op c) t (command_effect c i t)).
Proof. by destruct c. Qed.

Definition idem_is (T : gmap (string * string) IdemRecord) (w : World) : Prop := db_Idempotency (w_DB w) = T.

Lemma row_insert_idem {A} T (t : DB → gmap string A) up id ok x :
  (∀ f w, db_Idempotency (w_DB (up f w)) = db_Idempotency (w_DB w)) → keeps (idem_is T) (row_insert t up id ok x).
Proof.
  intros Hup w Hw. unfold row_insert. destruct (t (w_DB w) !! id); [done|]. destruct (ok (w_DB w)); [|done].
  unfold idem_is. simpl. by rewrite Hup.
Qed.
Lemma row_update_idem {A} T (t : DB → gmap string A) up id P f e :
  (∀ f w, db_Idempotency (w_DB (up f w)) = db_Idempotency (w_DB w)) → keeps (idem_is T) (row_update t up id P f e).
Proof.
  intros Hup w Hw. unfold row_update. destruct (t (w_DB w) !! id) as [x|]; [|done]. destruct (P x); [|done].
  unfold idem_is. simpl. by rewrite Hup.
Qed.
Lemma row_get_pure {A} (t : DB → gmap string A) id : pure (row_get t id).
Proof. intros w. unfold row_get. by destruct (t (w_DB w) !! id). Qed.
Lemma Append_idem T o : keeps (idem_is T) (Operations_Append o).
Proof. unfold Operations_Append. case_decide; [by apply row_insert_idem|]. by apply keeps_pure, pure_fail. Qed.

Lemma effect_idem c i t T : keeps (idem_is T) (command_effect c i t).
Proof.
  destruct c as [p actor respond|resID opID actor respond|acq respond]; simpl.
  - unfold Journal. apply keeps_bind; [|intros; by apply keeps_pure, pure_ret].
    apply keeps_bind; [by apply row_insert_idem|]. intros _.
    apply keeps_bind; [apply Append_idem|]. intros _. by intros w Hw.
  - unfold deleteTx. apply keeps_bind; [apply keeps_pure, row_get_pure|]. intros res.
    apply keeps_bind; [by apply keeps_pure; intros w; rewrite deleteGates_run|]. intros _.
    destruct (r_ExternalID res) as [ext|].
    + apply keeps_bind; [apply keeps_pure, pure_refuse|]. intros _.
      apply keeps_bind; [by apply row_update_idem|]. intros _.
      apply keeps_bind; [apply Append_idem|]. intros _. by intros w Hw.
    + apply keeps_bind; [by apply row_update_idem|]. intros _. by apply keeps_pure, pure_ret.
  - apply keeps_bind; [by apply row_insert_idem|]. by intros _ w Hw.
Qed.

(** The key of a command, its row while it runs and once it is answered. *)
Definition ikey (i : Idem) : string * string := (id_Scope i, id_Key i).
Definition claimed (i : Idem) (op : string) (now : Z) : IdemRecord :=
  MkIdem (id_Scope i) (id_Key i) (id_Hash i) IdemInProgress (nsStr op) 0 None now None None.
Definition answered (i : Idem) (op : string) (began now expires : Z) (resp : Z * option string) : IdemRecord :=
  with_i_State IdemCompleted (with_i_HTTPStatus resp.1 (with_i_Result resp.2
    (with_i_CompletedAt (Some now) (with_i_ExpiresAt (Some expires) (claimed i op began))))).

Lemma begin_run i op w : keyed i = true →
  beginKeyed i op w =
  match db_Idempotency (w_DB w) !! ikey i with
  | None => (Ok None, up_Idempotency (insert (ikey i) (claimed i op (w_Clock w))) w)
  | Some r =>
      (if decide (i_RequestHash r = id_Hash i)
       then if decide (i_State r = IdemInProgress) then Err (EInFlight (default ""%string (i_OperationID r)))
            else Ok (Some (MkOutcome (i_HTTPStatus r) (i_Result r) true))
       else Err EIdemMismatch, w)
  end.
Proof.
  intros Hk. unfold beginKeyed. rewrite Hk. unfold Idempotency_Begin, Idempotency_get, bindM, nowM, getsM, retM, failM.
  fold (ikey i). destruct (db_Idempotency (w_DB w) !! ikey i) as [r|] eqn:Hr.
  - cbv beta iota. rewrite Hr. case_decide; [case_decide|]; done.
  - cbv beta iota. simpl. rewrite lookup_insert_eq. done.
Qed.

(** The first answer of a key: the record that comes to stand under it. *)
Lemma first_answer c i t w out w1 :
  keyed i = true → submit c i t w = (Ok out, w1) → oc_Replayed out = false →
  ∃ began now, db_Idempotency (w_DB w1) !! ikey i =
    Some (answered i (command_op c) began now (t + IdemRetentionMs) (oc_Status out, oc_Body out)).
Proof.
  intros Hk Hrun Hrep. rewrite submit_keyed in Hrun. unfold Tx in Hrun.
  destruct (keyedTx _ _ _ _ w) as [[o|e] w'] eqn:Hkt; [|done]. injection Hrun as -> ->.
  unfold keyedTx, bindM in Hkt. rewrite begin_run in Hkt by done.
  destruct (db_Idempotency (w_DB w) !! ikey i) as [r|] eqn:Hr.
  { case_decide; [case_decide|]; try done. injection Hkt as <- _. done. }
  set (wb := up_Idempotency _ w) in Hkt.
  assert (db_Idempotency (w_DB wb) !! ikey i = Some (claimed i (command_op c) (w_Clock w))) as Hwb.
  { unfold wb. simpl. by rewrite lookup_insert_eq. }
  pose proof (effect_idem c i t (db_Idempotency (w_DB wb)) wb eq_refl) as Hsame.
  destruct (command_effect c i t wb) as [[resp|e] we]; [|done]. unfold idem_is in Hsame. cbn [snd] in Hsame.
  unfold completeKeyed, bindM in Hkt. rewrite Hk in Hkt.
  unfold Idempotency_Complete, Idempotency_finish in Hkt. fold (ikey i) in Hkt.
  rewrite Hsame, Hwb in Hkt. rewrite decide_True in Hkt by done. injection Hkt as <- <-.
  exists (w_Clock w), (w_Clock we). simpl. rewrite lookup_insert_eq. done.
Qed.

Lemma completed_replays c i t w r :
  keyed i = true → db_Idempotency (w_DB w) !! ikey i = Some r → i_State r ≠ IdemInProgress →
  submit c i t w =
    (if decide (i_RequestHash r = id_Hash i) then Ok (MkOutcome (i_HTTPStatus r) (i_Result r) true)
     else Err EIdemMismatch, w).
Proof.
  intros Hk Hr Hst. rewrite submit_keyed. unfold Tx, keyedTx, bindM. rewrite begin_run, Hr by done.
  case_decide; [by rewrite decide_False|]. by destruct w.
Qed.

Lemma GC_keeps nowG lim w k r e :
  db_Idempotency (w_DB w) !! k = Some r → i_ExpiresAt r = Some e → nowG ≤ e →
  db_Idempotency (w_DB (Idempotency_GC nowG lim w).2) !! k = Some r.
Proof.
  intros Hr He Hle. unfold Idempotency_GC. simpl. set (gone := limit lim _).
  assert (∀ x, x ∈ gone → x.1 ≠ k) as Hgone.
  { intros x Hx Hxk. apply elem_of_limit, list_elem_of_filter in Hx as [Hc Hx]. destruct x as [k' r'].
    apply elem_of_map_to_list in Hx. simpl in *. subst k'. rewrite Hr in Hx. injection Hx as <-.
    unfold collectable in Hc. rewrite He in Hc. apply andb_true_iff in Hc as [Hc%bool_decide_eq_true _]. lia. }
  clearbody gone. induction gone as [|x gone IH]; simpl; [done|]. rewrite lookup_delete_ne.
  - apply IH. intros y Hy. apply Hgone. by right.
  - apply Hgone. by left.
Qed.

Lemma other_key_keeps c i t w k :
  ikey i ≠ k → db_Idempotency (w_DB (submit c i t w).2) !! k = db_Idempotency (w_DB w) !! k.
Proof.
  intros Hne. rewrite submit_keyed. unfold Tx, keyedTx, bindM.
  destruct (keyed i) eqn:Hk.
  - rewrite begin_run by done. destruct (db_Idempotency (w_DB w) !! ikey i) as [r|] eqn:Hr.
    { case_decide; [case_decide|]; done. }
    set (wb := up_Idempotency _ w).
    pose proof (effect_idem c i t (db_Idempotency (w_DB wb)) wb eq_refl) as Hsame.
    destruct (command_effect c i t wb) as [[resp|e] we]; unfold idem_is in Hsame; cbn [snd] in Hsame; [|done].
    unfold completeKeyed, bindM. rewrite Hk. unfold Idempotency_Complete, Idempotency_finish. fold (ikey i).
    destruct (db_Idempotency (w_DB we) !! ikey i) as [r|]; [|done]. case_decide; [|done]. simpl.
    rewrite lookup_insert_ne, Hsame by done. unfold wb. simpl. by rewrite lookup_insert_ne.
  - unfold beginKeyed. rewrite Hk. unfold retM at 1.
    pose proof (effect_idem c i t (db_Idempotency (w_DB w)) w eq_refl) as Hsame.
    destruct (command_effect c i t w) as [[resp|e] we]; unfold idem_is in Hsame; cbn [snd] in Hsame; [|done].
    unfold completeKeyed, bindM. rewrite Hk. simpl. by rewrite Hsame.
Qed.

(** C6: a keyed command that was answered is never run again: as long as its
    record stands, every further request under the key is answered with the
    same status and bytes, or refused when it is a different request, and
    changes nothing. Commands under other keys and the garbage collection of
    the next forty-eight hours leave the record standing. *)
Theorem keyed_command_once c i t w out w1 w2 :
  keyed i = true → submit c i t w = (Ok out, w1) → oc_Replayed out = false →
  db_Idempotency (w_DB w2) !! ikey i = db_Idempotency (w_DB w1) !! ikey i →
  (∀ c' t', submit c' i t' w2 = (Ok (MkOutcome (oc_Status out) (oc_Body out) true), w2)) ∧
  (∀ c' i' t', ikey i' = ikey i → id_Hash i' ≠ id_Hash i → submit c' i' t' w2 = (Err EIdemMismatch, w2)) ∧
  (∀ c' i' t', ikey i' ≠ ikey i →
     db_Idempotency (w_DB (submit c' i' t' w2).2) !! ikey i = db_Idempotency (w_DB w1) !! ikey i) ∧
  (∀ nowG lim, nowG ≤ t + IdemRetentionMs →
     db_Idempotency (w_DB (Idempotency_GC nowG lim w2).2) !! ikey i = db_Idempotency (w_DB w1) !! ikey i).
Proof.
  intros Hk Hrun Hrep Hw2. destruct (first_answer c i t w out w1 Hk Hrun Hrep) as (began & now & Hrow).
  rewrite Hrow in *. set (r := answered _ _ _ _ _ _) in *.
  assert (i_State r ≠ IdemInProgress) as Hst by done. split_and!.
  - intros c' t'. rewrite (completed_replays c' i t' w2 r Hk Hw2 Hst). by rewrite decide_True.
  - intros c' i' t' Hik Hh. assert (keyed i' = true) as Hk'.
    { unfold ikey in Hik. injection Hik as _ Hkey. unfold keyed in *. by rewrite Hkey. }
    rewrite (completed_replays c' i' t' w2 r Hk'); [|by rewrite Hik|done]. rewrite decide_False; [done|].
    intros Heq. apply Hh. symmetry. exact Heq.
  - intros c' i' t' Hne. by rewrite other_key_keeps.
  - intros nowG lim Hle. by eapply GC_keeps.
Qed.

(** ** The inputs of the theorems *)

Import Demo.
#[local] Existing Instances Demo.clouds Demo.numbered.

Definition r1_ready : Resource := default (machine "r1") (db_Resources (w_DB w_ready) !! "r1"%string).
Definition r1_leased : Resource := default (machine "r1") (db_Resources (w_DB w_leased) !! "r1"%string).
Definition reply (r : Resource) : Z * option string := (202, Some (r_ID r)).
Definition once : Idem := MkIdemCmd "k" "DELETE|alice" "hash".

Lemma delete_decided_witness :
  Tx (deleteTx "r1" "opD" "alice" once 4000 reply) w_leased = (Err EConflict, w_leased) ∧
  Tx (deleteTx "r1" "opD" "alice" once 4000 reply) w_ready =
    (Ok (202, Some "r1"%string), deleted_world r1_ready "opD" "alice" once 4000 w_ready).
Proof.
  split.
  - rewrite (delete_decided "r1" "opD" "alice" once 4000 reply w_leased r1_leased); vm_compute; reflexivity.
  - rewrite (delete_decided "r1" "opD" "alice" once 4000 reply w_ready r1_ready); [|vm_compute; reflexivity..].
    assert (delete_refusal r1_ready (active_leases "r1" w_ready)
      (res_busy (Some "r1"%string) (db_Operations (w_DB w_ready))) = None) as -> by (vm_compute; reflexivity).
    vm_compute. reflexivity.
Defined.

Definition deleteR1 : command := CmdDelete "r1" "opD" "alice" reply.
Definition w_deleted : World := (submit deleteR1 once 4000 w_ready).2.
Lemma keyed_command_once_witness :
  submit (CmdDelete "r1" "opE" "alice" reply) once 9000 w_deleted =
    (Ok (MkOutcome 202 (Some "r1"%string) true), w_deleted).
Proof.
  destruct (submit deleteR1 once 4000 w_ready) as [[out|e] w1] eqn:H; [|vm_compute in H; discriminate].
  assert (w1 = w_deleted) as -> by (unfold w_deleted; by rewrite H).
  assert (out = MkOutcome 202 (Some "r1"%string) false) as ->.
  { pose proof (f_equal fst H) as Hf. vm_compute in Hf. injection Hf as <-. reflexivity. }
  exact (proj1 (keyed_command_once deleteR1 once 4000 w_ready _ w_deleted w_deleted eq_refl H eq_refl eq_refl) _ 9000).
Defined.
