(* ===== verification/Text.v ===== *)
(** * Texts: JSON, timestamps and tokens

    What the API uses of Go's standard library: the text of a JSON document and
    the documents of a text ([encoding/json]), timestamps ([time.Time] as
    RFC 3339), hexadecimal ([encoding/hex]) and cutting strings ([strings]).

    Strings are byte strings. Bytes that are not UTF-8 are copied where Go
    replaces them, and a number is its value: [-0] is written [0], and a number
    that is no int64 keeps its literal. *)

From stdpp Require Import base gmap strings list.
From Stdlib Require Import Ascii.
From S2P Require Import Prelude Errors Json Marshal.

(** ** strings *)

(** [strings.CutPrefix]. *)
Fixpoint CutPrefix (p s : string) : option string :=
  match p, s with
  | EmptyString, _ => Some s
  | String a p, String b s => if decide (a = b) then CutPrefix p s else None
  | String _ _, EmptyString => None
  end.

(** [strings.Cut] around a single byte. *)
Fixpoint Cut (sep : ascii) (s : string) : option (string * string) :=
  match s with
  | EmptyString => None
  | String c s =>
      if decide (c = sep) then Some (EmptyString, s)
      else match Cut sep s with
           | Some (l, r) => Some (String c l, r)
           | None => None
           end
  end.

(** The text before and after the last [sep]: [strings.LastIndexByte]. *)
Fixpoint CutLast (sep : ascii) (s : string) : option (string * string) :=
  match s with
  | EmptyString => None
  | String c s =>
      match CutLast sep s with
      | Some (l, r) => Some (String c l, r)
      | None => if decide (c = sep) then Some (EmptyString, s) else None
      end
  end.

(** [strings.Split] around a single byte. *)
Fixpoint Split (sep : ascii) (s : string) : list string :=
  match s with
  | EmptyString => [EmptyString]
  | String c s =>
      if decide (c = sep) then EmptyString :: Split sep s
      else match Split sep s with
           | w :: l => String c w :: l
           | [] => [String c EmptyString]
           end
  end.

(** ** encoding/hex *)

Definition hex_digit (n : N) : ascii :=
  ascii_of_N (if decide (n < 10)%N then 48 + n else 87 + n).
Definition hex_value (c : ascii) : option N :=
  let n := N_of_ascii c in
  if decide (48 ≤ n ≤ 57)%N then Some (n - 48)%N
  else if decide (97 ≤ n ≤ 102)%N then Some (n - 87)%N
  else if decide (65 ≤ n ≤ 70)%N then Some (n - 55)%N
  else None.

Fixpoint EncodeToString (s : string) : string :=
  match s with
  | EmptyString => EmptyString
  | String c s =>
      let n := N_of_ascii c in
      String (hex_digit (n / 16)) (String (hex_digit (n mod 16)) (EncodeToString s))
  end.
Fixpoint DecodeString (s : string) : option string :=
  match s with
  | EmptyString => Some EmptyString
  | String a (String b s) =>
      match hex_value a, hex_value b, DecodeString s with
      | Some x, Some y, Some r => Some (String (ascii_of_N (16 * x + y)) r)
      | _, _, _ => None
      end
  | String _ EmptyString => None
  end.

(** ** Writing JSON ([json.Marshal], HTML characters escaped) *)

Definition byte (n : nat) : ascii := ascii_of_nat n.
Definition quote : ascii := byte 34.
Definition backslash : ascii := byte 92.

Definition u_escape (n : N) : string :=
  String backslash (String "u" (String (hex_digit (n / 4096)) (String (hex_digit ((n / 256) mod 16))
    (String (hex_digit ((n / 16) mod 16)) (String (hex_digit (n mod 16)) EmptyString))))).
Definition escape (c : ascii) : string :=
  let n := N_of_ascii c in
  if decide (c = quote ∨ c = backslash) then String backslash (String c EmptyString)
  else if decide (n = 8)%N then String backslash "b"
  else if decide (n = 9)%N then String backslash "t"
  else if decide (n = 10)%N then String backslash "n"
  else if decide (n = 12)%N then String backslash "f"
  else if decide (n = 13)%N then String backslash "r"
  else if decide (n < 32 ∨ c = "<"%char ∨ c = ">"%char ∨ c = "&"%char)%N then u_escape n
  else String c EmptyString.

(** U+2028 and U+2029 are the bytes E2 80 A8 and E2 80 A9. *)
Fixpoint write_chars (s : string) (acc : string) : string :=
  match s with
  | EmptyString => acc
  | String a s' =>
      match s' with
      | String b (String c rest) =>
          if decide (a = byte 226 ∧ b = byte 128 ∧ (c = byte 168 ∨ c = byte 169))
          then (u_escape (8192 + N_of_ascii c - 128) +:+ write_chars rest acc)%string
          else (escape a +:+ write_chars s' acc)%string
      | _ => (escape a +:+ write_chars s' acc)%string
      end
  end.
Definition write_string (s : string) : string :=
  String quote (write_chars s (String quote EmptyString)).
Definition write_int (z : Z) : string :=
  if decide (z < 0) then String "-" (fmtInt (- z) EmptyString) else fmtInt z EmptyString.

Definition between (sep : string) (l : list string) : string := String.concat sep l.

Fixpoint print (j : json) : string :=
  match j with
  | JNull => "null"
  | JBool true => "true"
  | JBool false => "false"
  | JInt z => write_int z
  | JFloat lit => lit
  | JStr s => write_string s
  | JArr l => String "[" (between "," (print <$> l) +:+ "]")
  | JObj fs => String "{" (between "," ((λ '(k, v), write_string k +:+ String ":" (print v)) <$> fs) +:+ "}")
  end%string.

(** ** Reading JSON *)

Definition json_space (c : ascii) : bool :=
  let n := nat_of_ascii c in ((n =? 32) || (n =? 9) || (n =? 10) || (n =? 13))%nat.
Fixpoint skip_space (s : string) : string :=
  match s with
  | String c s' => if json_space c then skip_space s' else s
  | EmptyString => EmptyString
  end.

(** [utf8.AppendRune]. *)
Definition utf8 (n : N) : string :=
  if decide (n < 128)%N then String (ascii_of_N n) EmptyString
  else if decide (n < 2048)%N then String (ascii_of_N (192 + n / 64)) (String (ascii_of_N (128 + n mod 64)) EmptyString)
  else if decide (n < 65536)%N then
    String (ascii_of_N (224 + n / 4096)) (String (ascii_of_N (128 + (n / 64) mod 64)) (String (ascii_of_N (128 + n mod 64)) EmptyString))
  else String (ascii_of_N (240 + n / 262144)) (String (ascii_of_N (128 + (n / 4096) mod 64))
         (String (ascii_of_N (128 + (n / 64) mod 64)) (String (ascii_of_N (128 + n mod 64)) EmptyString))).

Definition hex4 (a b c d : ascii) : option N :=
  match hex_value a, hex_value b, hex_value c, hex_value d with
  | Some w, Some x, Some y, Some z => Some (4096 * w + 256 * x + 16 * y + z)%N
  | _, _, _, _ => None
  end.
Definition replacement : N := 65533.

(** The two-character escapes. *)
Definition short_escape (e : ascii) : option ascii :=
  if decide (e = quote ∨ e = backslash ∨ e = "/"%char) then Some e
  else if decide (e = "b"%char) then Some (byte 8)
  else if decide (e = "f"%char) then Some (byte 12)
  else if decide (e = "n"%char) then Some (byte 10)
  else if decide (e = "r"%char) then Some (byte 13)
  else if decide (e = "t"%char) then Some (byte 9)
  else None.

(** A string read behind the characters [t]. *)
Definition behind (t : string) (r : option (string * string)) : option (string * string) :=
  match r with Some (l, rest) => Some ((t +:+ l)%string, rest) | None => None end.

(** The characters after the opening quote, and what follows the closing one;
    two escapes that form a surrogate pair are one rune, a lone half is the
    replacement character. [hi] is a high half just read. *)
Fixpoint read_chars (s : string) (hi : option N) : option (string * string) :=
  let flush := match hi with Some _ => utf8 replacement | None => EmptyString end in
  match s with
  | EmptyString => None
  | String c s1 =>
      if decide (c = quote) then Some (flush, s1)
      else if decide (c = backslash) then
        match s1 with
        | EmptyString => None
        | String e s2 =>
            if decide (e = "u"%char) then
              match s2 with
              | String a (String b (String c' (String d s3))) =>
                  match hex4 a b c' d with
                  | None => None
                  | Some n =>
                      match hi with
                      | Some h =>
                          if decide (56320 ≤ n < 57344)%N
                          then behind (utf8 (65536 + (h - 55296) * 1024 + (n - 56320))) (read_chars s3 None)
                          else if decide (55296 ≤ n < 56320)%N then behind flush (read_chars s3 (Some n))
                          else behind (flush +:+ utf8 n)%string (read_chars s3 None)
                      | None =>
                          if decide (55296 ≤ n < 56320)%N then read_chars s3 (Some n)
                          else behind (utf8 (if decide (56320 ≤ n < 57344)%N then replacement else n)) (read_chars s3 None)
                      end
                  end
              | _ => None
              end
            else match short_escape e with
                 | Some x => behind (flush +:+ String x EmptyString)%string (read_chars s2 None)
                 | None => None
                 end
        end
      else if decide (N_of_ascii c < 32)%N then None
      else behind (flush +:+ String c EmptyString)%string (read_chars s1 None)
  end.

Fixpoint span_digits (s : string) : string * string :=
  match s with
  | String c s' => if is_digit c then let '(d, r) := span_digits s' in (String c d, r) else (EmptyString, s)
  | EmptyString => (EmptyString, EmptyString)
  end.
Fixpoint digits_value (s : string) (x : Z) : Z :=
  match s with String c s => digits_value s (x * 10 + digit c) | EmptyString => x end.

Definition read_exp (s : string) : option (string * string) :=
  match s with
  | String c s' =>
      if decide (c = "e"%char ∨ c = "E"%char) then
        let '(sign, s2) := match s' with
                           | String "+" s2 => (String "+" EmptyString, s2)
                           | String "-" s2 => (String "-" EmptyString, s2)
                           | _ => (EmptyString, s')
                           end in
        match span_digits s2 with
        | (EmptyString, _) => None
        | (d, r) => Some (String c (sign +:+ d), r)%string
        end
      else Some (EmptyString, s)
  | EmptyString => Some (EmptyString, s)
  end.
Definition read_frac (s : string) : option (string * string) :=
  match s with
  | String "." s' => match span_digits s' with
                     | (EmptyString, _) => None
                     | (d, r) => Some (String "." d, r)
                     end
  | _ => Some (EmptyString, s)
  end.

Definition read_int (s : string) : option (string * string) :=
  match s with
  | String "0" s1 => Some (String "0" EmptyString, s1)
  | _ => match span_digits s with (EmptyString, _) => None | x => Some x end
  end.
(** What follows the sign. *)
Definition read_unsigned (neg : bool) (s : string) : option (json * string) :=
  match read_int s with
  | None => None
  | Some (d, s1) =>
      match read_frac s1 with
      | None => None
      | Some (f, s2) =>
          match read_exp s2 with
          | None => None
          | Some (e, s3) =>
              let z := let v := digits_value d 0 in if neg then - v else v in
              let lit := ((if neg then String "-" EmptyString else EmptyString) +:+ d +:+ f +:+ e)%string in
              Some (if decide (f = EmptyString ∧ e = EmptyString ∧ in64 z) then JInt z else JFloat lit, s3)
          end
      end
  end.
Definition read_number (s : string) : option (json * string) :=
  match s with String "-" s' => read_unsigned true s' | _ => read_unsigned false s end.

(** Each call consumes a byte or passes to a smaller construct: twice the
    length of the text is fuel enough. *)
Fixpoint read_value (fuel : nat) (s : string) : option (json * string) :=
  match fuel with
  | O => None
  | S fuel =>
      match skip_space s with
      | EmptyString => None
      | String c s1 as s0 =>
          if decide (c = quote) then
            match read_chars s1 None with Some (t, r) => Some (JStr t, r) | None => None end
          else if decide (c = "{"%char) then
            match skip_space s1 with
            | String "}" r => Some (JObj [], r)
            | s2 => match read_members fuel s2 with Some (fs, r) => Some (JObj fs, r) | None => None end
            end
          else if decide (c = "["%char) then
            match skip_space s1 with
            | String "]" r => Some (JArr [], r)
            | s2 => match read_elements fuel s2 with Some (l, r) => Some (JArr l, r) | None => None end
            end
          else match CutPrefix "null" s0 with Some r => Some (JNull, r) | None =>
          match CutPrefix "true" s0 with Some r => Some (JBool true, r) | None =>
          match CutPrefix "false" s0 with Some r => Some (JBool false, r) | None =>
          read_number s0 end end end
      end
  end
with read_elements (fuel : nat) (s : string) : option (list json * string) :=
  match fuel with
  | O => None
  | S fuel =>
      match read_value fuel s with
      | None => None
      | Some (j, r) =>
          match skip_space r with
          | String "]" r => Some ([j], r)
          | String "," r =>
              match read_elements fuel r with Some (l, r) => Some (j :: l, r) | None => None end
          | _ => None
          end
      end
  end
with read_members (fuel : nat) (s : string) : option (list (string * json) * string) :=
  match fuel with
  | O => None
  | S fuel =>
      match skip_space s with
      | String c s1 =>
          if negb (bool_decide (c = quote)) then None else
          match read_chars s1 None with
          | None => None
          | Some (k, r) =>
              match skip_space r with
              | String ":" r =>
                  match read_value fuel r with
                  | None => None
                  | Some (j, r) =>
                      match skip_space r with
                      | String "}" r => Some ([(k, j)], r)
                      | String "," r =>
                          match read_members fuel r with
                          | Some (fs, r) => Some ((k, j) :: fs, r)
                          | None => None
                          end
                      | _ => None
                      end
                  end
              | _ => None
              end
          end
      | EmptyString => None
      end
  end.

Definition syntax_error {A} : result A := Err (EOther "json: syntax error").

(** [Decoder.Decode] reads the first document and leaves the rest. *)
Definition decode_first (body : string) : result json :=
  match read_value (2 * S (String.length body)) body with
  | Some (j, _) => Ok j
  | None => syntax_error
  end.
(** [json.Unmarshal] wants nothing but white space behind it. *)
Definition unmarshal (body : string) : result json :=
  match read_value (2 * S (String.length body)) body with
  | Some (j, rest) => if decide (skip_space rest = EmptyString) then Ok j else syntax_error
  | None => syntax_error
  end.

(** ** Timestamps *)

(** The proleptic Gregorian date of a day counted from 1970-01-01: 400 years
    are 146097 days, a year starts in March. *)
Definition civil (days : Z) : Z * Z * Z :=
  let z := days + 719468 in
  let era := z / 146097 in
  let doe := z mod 146097 in
  let yoe := (doe - doe / 1460 + doe / 36524 - doe / 146096) / 365 in
  let doy := doe - (365 * yoe + yoe / 4 - yoe / 100) in
  let mp := (5 * doy + 2) / 153 in
  let d := doy - (153 * mp + 2) / 5 + 1 in
  let m := if decide (mp < 10) then mp + 3 else mp - 9 in
  (yoe + era * 400 + (if decide (m ≤ 2) then 1 else 0), m, d).

Fixpoint padded (width : nat) (v : Z) (acc : string) : string :=
  match width with
  | O => acc
  | S width => padded width (v / 10) (String (digit_char (v mod 10)) acc)
  end.

(** [time.UnixMilli(ms).UTC()] written by [Time.MarshalJSON], which refuses
    years of more than four digits. *)
Definition rfc3339 (ms : Z) : option string :=
  let secs := ms / 1000 in
  let '(y, m, d) := civil (secs / 86400) in
  let s := secs mod 86400 in
  if decide (0 ≤ y ≤ 9999) then
    let frac := (fmtFrac 3 (ms mod 1000) EmptyString).1 in
    Some (padded 4 y (String "-" (padded 2 m (String "-" (padded 2 d (String "T"
      (padded 2 (s / 3600) (String ":" (padded 2 ((s / 60) mod 60) (String ":"
      (padded 2 (s mod 60) (frac +:+ "Z"))))))))))))%string
  else None.

Example text_examples :
  print (JObj [("a"%string, JArr [JInt 1; JInt (-20); JBool true]); ("b"%string, JStr "x<y")])
    = (let q := String quote EmptyString in
       "{" +:+ q +:+ "a" +:+ q +:+ ":[1,-20,true]," +:+ q +:+ "b" +:+ q +:+ ":" +:+ q +:+ "x" +:+
       String backslash "u003cy" +:+ q +:+ "}")%string ∧
  unmarshal " [1, -20 ,{}, 1.5e3,null] " = Ok (JArr [JInt 1; JInt (-20); JObj []; JFloat "1.5e3"; JNull]) ∧
  rfc3339 1718454645120 = Some "2024-06-15T12:30:45.12Z"%string ∧
  rfc3339 951782400000 = Some "2000-02-29T00:00:00Z"%string ∧ rfc3339 0 = Some "1970-01-01T00:00:00Z"%string ∧
  DecodeString (EncodeToString "ok~") = Some "ok~"%string ∧
  CutLast ":" "a:b:drain" = Some ("a:b", "drain")%string ∧ Split "/" "/v1/x" = [""; "v1"; "x"]%string.
Proof. vm_compute. done. Qed.
