(* ===== verification/TextFacts.v ===== *)
(** * Writing a JSON text and reading it again

    What [json.Marshal] writes, [json.Unmarshal] reads back: the documents the
    program stores and sends (operation data, specs, replies) lose nothing on
    the way. *)

From stdpp Require Import base gmap strings list.
From Stdlib Require Import Ascii.
From S2P Require Import Prelude Errors Json Marshal Text.

Import DurationFacts.

(** ** Documents *)

(** Induction with the hypothesis for the elements of arrays and objects. *)
Definition json_nested (Q : json → Prop)
    (Hnull : Q JNull) (Hbool : ∀ b, Q (JBool b)) (Hint : ∀ z, Q (JInt z)) (Hfloat : ∀ l, Q (JFloat l))
    (Hstr : ∀ s, Q (JStr s)) (Harr : ∀ l, Forall Q l → Q (JArr l))
    (Hobj : ∀ fs, Forall (λ kv, Q kv.2) fs → Q (JObj fs)) : ∀ j, Q j :=
  fix go j :=
    match j with
    | JNull => Hnull | JBool b => Hbool b | JInt z => Hint z | JFloat l => Hfloat l | JStr s => Hstr s
    | JArr l => Harr l ((fix each l := match l return Forall Q l with
                                       | [] => List.Forall_nil _
                                       | x :: l => List.Forall_cons _ _ _ (go x) (each l)
                                       end) l)
    | JObj fs => Hobj fs ((fix each fs := match fs return Forall (λ kv, Q kv.2) fs with
                                          | [] => List.Forall_nil _
                                          | kv :: fs => List.Forall_cons _ _ _ (go kv.2) (each fs)
                                          end) fs)
    end.

(** No number but an int64: a float keeps the literal it was read from. *)
Fixpoint integral (j : json) : bool :=
  match j with
  | JInt z => bool_decide (in64 z)
  | JFloat _ => false
  | JArr l => forallb integral l
  | JObj fs => forallb (λ kv, integral kv.2) fs
  | _ => true
  end.

(** ** Strings *)

Lemma app_cons c (s t : string) : (String c s +:+ t) = String c (s +:+ t).
Proof. done. Qed.
Lemma app_nil (s : string) : ("" +:+ s) = s.
Proof. done. Qed.
Lemma app_nil_r (s : string) : (s +:+ "") = s.
Proof. induction s as [|c s IH]; [done|]. by rewrite app_cons, IH. Qed.
Lemma app_assoc (r s t : string) : ((r +:+ s) +:+ t) = (r +:+ (s +:+ t)).
Proof. induction r as [|c r IH]; [done|]. by rewrite !app_cons, IH. Qed.
Lemma app_length (s t : string) : String.length (s +:+ t) = (String.length s + String.length t)%nat.
Proof. induction s as [|c s IH]; [done|]. rewrite app_cons. cbn [String.length]. lia. Qed.

(** One escape at a time. *)
Lemma read_plain c rest : c ≠ quote → c ≠ backslash → ¬ (N_of_ascii c < 32)%N →
  read_chars (String c rest) None = behind (String c "") (read_chars rest None).
Proof. intros. cbn [read_chars]. by rewrite !decide_False. Qed.
Lemma read_u a b c d n rest : hex4 a b c d = Some n → (n < 55296)%N →
  read_chars (String backslash (String "u" (String a (String b (String c (String d rest)))))) None =
    behind (utf8 n) (read_chars rest None).
Proof.
  intros Hh Hn. cbn [read_chars].
  rewrite (decide_False (P := backslash = quote)), (decide_True (P := backslash = backslash)) by done.
  rewrite (decide_True (P := "u"%char = "u"%char)) by done. rewrite Hh. by rewrite !decide_False by lia.
Qed.
Lemma read_two e c rest : e ≠ "u"%char → short_escape e = Some c →
  read_chars (String backslash (String e rest)) None = behind (String c "") (read_chars rest None).
Proof.
  intros Hu He. cbn [read_chars]. rewrite (decide_False (P := backslash = quote)), (decide_True (P := backslash = backslash)) by done.
  by rewrite decide_False, He.
Qed.

Lemma hex_value_digit n : (n < 16)%N → hex_value (hex_digit n) = Some n.
Proof.
  intros Hn. assert (n = 0 ∨ n = 1 ∨ n = 2 ∨ n = 3 ∨ n = 4 ∨ n = 5 ∨ n = 6 ∨ n = 7 ∨ n = 8 ∨ n = 9 ∨ n = 10 ∨
    n = 11 ∨ n = 12 ∨ n = 13 ∨ n = 14 ∨ n = 15)%N as Hc by lia.
  repeat (destruct Hc as [->|Hc]; [done|]). by subst.
Qed.
Lemma read_u_escape n rest : (n < 55296)%N →
  read_chars (u_escape n +:+ rest) None = behind (utf8 n) (read_chars rest None).
Proof.
  intros Hn. unfold u_escape. rewrite !app_cons, app_nil. apply read_u; [|done]. unfold hex4.
  assert (∀ m : N, m mod 16 < 16)%N as Hm by (intros m; by apply N.mod_lt).
  rewrite !hex_value_digit; [|apply Hm..|].
  - f_equal. zify. Z.to_euclidean_division_equations. lia.
  - zify. Z.to_euclidean_division_equations. lia.
Qed.

(** What one escaped character contributes. *)
Lemma read_escape c rest : read_chars (escape c +:+ rest) None = behind (String c "") (read_chars rest None).
Proof.
  assert (∀ n, N_of_ascii c = n → c = ascii_of_N n) as Hn by (intros n <-; by rewrite ascii_N_embedding).
  unfold escape. destruct (decide (_ ∨ _)) as [[->| ->]|[Hq Hb]%Decidable.not_or]; [by apply read_two..|].
  repeat (destruct (decide (N_of_ascii c = _)) as [->%Hn|_]; [by apply read_two|]).
  destruct (decide (_ ∨ _)) as [Hu|Hu]; [|by apply read_plain; naive_solver].
  assert (N_of_ascii c < 128)%N as Hlt by (destruct Hu as [Hu|[->|[->| ->]]]; [lia|done..]).
  rewrite read_u_escape by lia. unfold utf8. by rewrite decide_True, ascii_N_embedding.
Qed.

(** How [write_chars] goes on, whichever way its lookahead went. *)
Lemma write_chars_cons a s :
  (∃ c rest, s = String (byte 128) (String c rest) ∧ a = byte 226 ∧ (c = byte 168 ∨ c = byte 169) ∧
     ∀ acc, write_chars (String a s) acc = (u_escape (8192 + N_of_ascii c - 128) +:+ write_chars rest acc)) ∨
  (∀ acc, write_chars (String a s) acc = (escape a +:+ write_chars s acc)).
Proof.
  destruct s as [|b [|c rest]]; [by right..|]. cbn [write_chars].
  destruct (decide _) as [(-> & -> & Hc)|]; [left; eauto 10|by right].
Qed.

(** Strong induction along [write_chars]. *)
Lemma write_chars_ind (Q : string → Prop) :
  Q "" → (∀ a s, (∀ acc, write_chars (String a s) acc = (escape a +:+ write_chars s acc)) → Q s → Q (String a s)) →
  (∀ c s, (c = byte 168 ∨ c = byte 169) →
     (∀ acc, write_chars (String (byte 226) (String (byte 128) (String c s))) acc =
        (u_escape (8192 + N_of_ascii c - 128) +:+ write_chars s acc)) →
     Q s → Q (String (byte 226) (String (byte 128) (String c s)))) →
  ∀ s, Q s.
Proof.
  intros H0 H1 H2 s. induction s as [s IH] using (induction_ltof1 _ String.length).
  destruct s as [|a s]; [done|].
  destruct (write_chars_cons a s) as [(c & rest & -> & -> & Hc & Heq)|Heq].
  - apply H2; [done..|]. apply IH. unfold ltof. cbn [String.length]. lia.
  - apply H1; [done|]. apply IH. unfold ltof. cbn [String.length]. lia.
Qed.

Lemma write_chars_app s acc t : (write_chars s acc +:+ t) = write_chars s (acc +:+ t).
Proof.
  revert acc. induction s as [|a s Heq IH|c s _ Heq IH] using write_chars_ind; intros acc; [done|..];
    by rewrite !Heq, app_assoc, IH.
Qed.

Lemma read_write_chars s rest : read_chars (write_chars s (String quote rest)) None = Some (s, rest).
Proof.
  induction s as [|a s Heq IH|c s Hc Heq IH] using write_chars_ind; [done|..].
  - by rewrite Heq, read_escape, IH.
  - rewrite Heq. destruct Hc as [->| ->];
      lazymatch goal with |- context [u_escape ?n] =>
        let e := eval vm_compute in (u_escape n) in change (u_escape n) with e end;
      rewrite !app_cons, app_nil; cbn; by rewrite IH.
Qed.
Lemma read_string s rest : ∃ r, (write_string s +:+ rest) = String quote r ∧ read_chars r None = Some (s, rest).
Proof. eexists. split; [reflexivity|]. rewrite write_chars_app. apply read_write_chars. Qed.

(** ** Numbers *)

(** What may follow a value: nothing, or the punctuation of a document. *)
Definition ends (rest : string) : Prop :=
  match rest with
  | EmptyString => True
  | String c _ => c = ","%char ∨ c = "]"%char ∨ c = "}"%char
  end.

(** No leading zero. *)
Lemma fmtDigits_first fuel v acc : 0 < v < 10 ^ Z.of_nat fuel →
  ∃ d ds, is_num d ∧ d ≠ 0 ∧ Forall is_num ds ∧ fmtDigits fuel v acc = render (d :: ds) acc ∧ num (d :: ds) 0 = v.
Proof.
  revert v acc. induction fuel as [|fuel IH]; intros v acc Hv; [simpl in Hv; lia|]. cbn [fmtDigits].
  rewrite decide_True by lia. pose proof (Z.mod_pos_bound v 10 ltac:(lia)) as Hm.
  pose proof (Z.div_mod v 10 ltac:(lia)) as Hdm. rewrite Nat2Z.inj_succ, Z.pow_succ_r in Hv by lia.
  destruct (decide (v / 10 = 0)) as [Hz|Hz].
  - exists (v mod 10), []. rewrite Hz. split_and!; [done|lia|done| |simpl; lia].
    destruct fuel; [done|]. cbn [fmtDigits]. by rewrite decide_False by lia.
  - destruct (IH (v / 10) (String (digit_char (v mod 10)) acc)) as (d & ds & ? & ? & ? & Heq & Hn); [lia|].
    exists d, (ds ++ [v mod 10]). rewrite app_comm_cons, render_snoc, num_snoc, Hn, Heq.
    split_and!; [done..| |done|lia]. apply Forall_app. split; [done|]. by constructor.
Qed.
Lemma fmtInt_first v acc : 0 < v ≤ 2 ^ 63 →
  ∃ d ds, is_num d ∧ d ≠ 0 ∧ Forall is_num ds ∧ fmtInt v acc = render (d :: ds) acc ∧ num (d :: ds) 0 = v.
Proof.
  intros Hv. unfold fmtInt. rewrite decide_False by lia. apply fmtDigits_first. split; [lia|]. simpl. lia.
Qed.

Lemma span_digits_render ds rest : Forall is_num ds → stops rest →
  span_digits (render ds rest) = (render ds "", rest).
Proof.
  induction 1 as [|d ds Hd _ IH]; intros Hr; cbn [render span_digits].
  - destruct rest as [|c rest]; simpl in *; [done|]. by rewrite Hr.
  - destruct (digit_char_spec d Hd) as [-> _]. by rewrite IH.
Qed.
Lemma digits_value_render ds x : Forall is_num ds → digits_value (render ds "") x = num ds x.
Proof.
  intros Hd. revert x. induction Hd as [|d ds Hd _ IH]; intros x; cbn [render digits_value num]; [done|].
  destruct (digit_char_spec d Hd) as [_ ->]. apply IH.
Qed.
Lemma render_app ds s t : (render ds s +:+ t) = render ds (s +:+ t).
Proof. induction ds as [|d ds IH]; cbn [render]; [done|]. by rewrite app_cons, IH. Qed.
Lemma ends_stops rest : ends rest → stops rest.
Proof. destruct rest as [|c rest]; [done|]. by intros [->|[->| ->]]. Qed.
Lemma no_frac rest : ends rest → read_frac rest = Some (""%string, rest).
Proof. destruct rest as [|c rest]; [done|]. by intros [->|[->| ->]]. Qed.
Lemma no_exp rest : ends rest → read_exp rest = Some (""%string, rest).
Proof. destruct rest as [|c rest]; [done|]. by intros [->|[->| ->]]. Qed.

Lemma read_int_render d ds rest : Forall is_num (d :: ds) → (d = 0 → ds = []) → ends rest →
  read_int (render (d :: ds) rest) = Some (render (d :: ds) "", rest).
Proof.
  intros Hds Hz Hr. unfold read_int. pose proof (span_digits_render _ _ Hds (ends_stops _ Hr)) as Hs.
  destruct (decide (d = 0)) as [->|Hnz]; [by rewrite (Hz eq_refl)|].
  pose proof (Forall_inv Hds) as Hd. unfold is_num in Hd.
  assert (d = 1 ∨ d = 2 ∨ d = 3 ∨ d = 4 ∨ d = 5 ∨ d = 6 ∨ d = 7 ∨ d = 8 ∨ d = 9) as Hc by lia.
  repeat destruct Hc as [->|Hc]; try subst; rewrite Hs; done.
Qed.

(** The digits [fmtInt] writes: no leading zero. *)
Lemma fmtInt_digits v acc : 0 ≤ v ≤ 2 ^ 63 →
  ∃ d ds, Forall is_num (d :: ds) ∧ (d = 0 → ds = []) ∧ fmtInt v acc = render (d :: ds) acc ∧ num (d :: ds) 0 = v.
Proof.
  intros Hv. destruct (decide (v = 0)) as [->|]; [by exists 0, (@nil Z); repeat constructor|].
  destruct (fmtInt_first v acc) as (d & ds & ? & ? & ? & ? & ?); [lia|]. exists d, ds. split_and!; try done. by constructor.
Qed.

Lemma read_unsigned_fmtInt (neg : bool) v rest : 0 ≤ v ≤ 2 ^ 63 → ends rest → in64 (if neg then - v else v) →
  read_unsigned neg (fmtInt v "" +:+ rest) = Some (JInt (if neg then - v else v), rest).
Proof.
  intros Hv Hr H64. destruct (fmtInt_digits v "" Hv) as (d & ds & Hds & Hz & -> & Hn).
  rewrite render_app, app_nil. unfold read_unsigned. rewrite read_int_render, no_frac by done. cbv beta iota.
  rewrite no_exp by done. cbv beta iota zeta. rewrite digits_value_render, Hn by done. by rewrite decide_True.
Qed.
Lemma fmtInt_unsigned v rest : 0 ≤ v ≤ 2 ^ 63 → read_number (fmtInt v "" +:+ rest) = read_unsigned false (fmtInt v "" +:+ rest).
Proof.
  intros Hv. destruct (fmtInt_digits v "" Hv) as (d & ds & Hds & _ & -> & _). cbn [render]. rewrite app_cons.
  destruct (digit_char_spec d (Forall_inv Hds)) as [Hdig _]. unfold read_number.
  by destruct (digit_char d) as [[] [] [] [] [] [] [] []].
Qed.
Lemma read_write_int z rest : in64 z → ends rest → read_number (write_int z +:+ rest) = Some (JInt z, rest).
Proof.
  intros Hz Hr. pose proof Hz as Hb. unfold in64, min64, max64 in Hb. unfold write_int. case_decide.
  - rewrite app_cons. cbn [read_number]. rewrite read_unsigned_fmtInt; rewrite ?Z.opp_involutive; [done|lia|done..].
  - rewrite fmtInt_unsigned, read_unsigned_fmtInt; [done|lia|done|done|lia].
Qed.

(** ** Documents *)

(** The characters a document starts with. *)
Definition opens (c : ascii) : bool :=
  mem c [quote; "{"%char; "["%char; "n"%char; "t"%char; "f"%char; "-"%char] || is_digit c.

Lemma print_opens j rest : integral j = true → ∃ c s, (print j +:+ rest) = String c s ∧ opens c = true.
Proof.
  intros Hj. destruct j as [|[]|z| |s|l|fs]; try (eexists _, _; split; [reflexivity|done]); [|done].
  apply bool_decide_eq_true in Hj. unfold in64, min64, max64 in Hj. cbn [print]. unfold write_int. case_decide.
  - eexists _, _. split; [reflexivity|done].
  - destruct (fmtInt_digits z "") as (d & ds & Hds & _ & -> & _); [lia|]. rewrite render_app. cbn [render].
    eexists _, _. split; [reflexivity|]. destruct (digit_char_spec d (Forall_inv Hds)) as [Hd _].
    unfold opens. by rewrite Hd, orb_true_r.
Qed.
Lemma opens_space c s : opens c = true → skip_space (String c s) = String c s.
Proof. by destruct c as [[] [] [] [] [] [] [] []]. Qed.
Lemma print_space j rest : integral j = true → skip_space (print j +:+ rest) = (print j +:+ rest).
Proof. intros (c & s & -> & Hc)%(λ H, print_opens j rest H). by apply opens_space. Qed.
Lemma ends_space rest : ends rest → skip_space rest = rest.
Proof. destruct rest as [|c rest]; [done|]. by intros [->|[->| ->]]. Qed.

Definition member (kv : string * json) : string := (write_string kv.1 +:+ String ":" (print kv.2)).
Lemma print_obj fs : print (JObj fs) = String "{" (between "," (member <$> fs) +:+ "}").
Proof. cbn [print]. do 2 f_equal. f_equal. apply list_fmap_ext. by intros ? [k v]. Qed.

Lemma between_cons s l : between "," (s :: l) = (s +:+ match l with [] => "" | _ => String "," (between "," l) end).
Proof. unfold between. destruct l as [|t l]; simpl; [by rewrite app_nil_r|done]. Qed.

(** [j] can be read off the front of a text, given fuel for what it printed. *)
Definition readable (j : json) : Prop := ∀ fuel rest,
  (2 * String.length (print j) < fuel)%nat → ends rest → read_value fuel (print j +:+ rest) = Some (j, rest).

Lemma read_value_number fuel c s : is_digit c || bool_decide (c = "-"%char) = true →
  read_value (S fuel) (String c s) = read_number (String c s).
Proof. by destruct c as [[] [] [] [] [] [] [] []]. Qed.

Lemma read_elements_print l fuel rest : l ≠ [] → Forall readable l → Forall (λ j, integral j = true) l →
  (2 * String.length (between "," (print <$> l)) + 1 < fuel)%nat →
  read_elements fuel (between "," (print <$> l) +:+ String "]" rest) = Some (l, rest).
Proof.
  intros Hl Hr Hi. revert fuel Hl Hi. induction Hr as [|j l Hj Hr IH]; intros fuel Hl Hi Hf; [done|].
  destruct fuel as [|fuel]; [lia|]. cbn [fmap list_fmap] in *. rewrite between_cons, app_length in Hf.
  rewrite between_cons, app_assoc. cbn [read_elements]. destruct l as [|j2 l]; cbn [fmap list_fmap] in *.
  - rewrite app_nil, Hj; [done|lia|cbn; auto].
  - rewrite app_cons, Hj; [|lia|cbn; auto]. set (more := (between _ _ +:+ _)).
    change (skip_space (String "," more)) with (String "," more). cbv beta iota. subst more.
    rewrite IH; [done|done|by inversion Hi|]. cbn [String.length] in Hf. lia.
Qed.

Lemma read_members_print fs fuel rest : fs ≠ [] → Forall (λ kv, readable kv.2) fs →
  Forall (λ kv, integral kv.2 = true) fs →
  (2 * String.length (between "," (member <$> fs)) + 1 < fuel)%nat →
  read_members fuel (between "," (member <$> fs) +:+ String "}" rest) = Some (fs, rest).
Proof.
  intros Hl Hr Hi. revert fuel Hl Hi. induction Hr as [|[k j] fs Hj Hr IH]; intros fuel Hl Hi Hf; [done|].
  destruct fuel as [|fuel]; [lia|]. cbn [fmap list_fmap snd] in *. rewrite between_cons, app_length in Hf.
  rewrite between_cons, app_assoc. unfold member at 1. cbn [fst snd]. rewrite app_assoc, app_cons.
  set (after := (match _ with [] => _ | _ => _ end +:+ _)).
  assert (ends after) as Hafter by (subst after; destruct fs; [by right; right|by left]).
  destruct (read_string k (String ":" (print j +:+ after))) as (r & -> & Hk).
  cbn [read_members]. change (skip_space (String quote r)) with (String quote r). cbv beta iota.
  rewrite bool_decide_true by done. cbn [negb]. rewrite Hk. cbv beta iota.
  change (skip_space (String ":" (print j +:+ after))) with (String ":" (print j +:+ after)). cbv beta iota.
  assert (String.length (member (k, j)) = String.length (write_string k) + S (String.length (print j)))%nat as Hlen
    by (unfold member; rewrite app_length; done).
  rewrite Hj; [|lia|done]. rewrite ends_space by done. subst after. destruct fs as [|kv fs]; [done|].
  cbn [fmap list_fmap] in *. rewrite app_cons. cbv beta iota.
  rewrite IH; [done|done|by inversion Hi|]. cbn [String.length] in Hf. lia.
Qed.

Lemma Forall_forallb {A} (p : A → bool) l : forallb p l = true → Forall (λ x, p x = true) l.
Proof. induction l as [|x l IH]; cbn; [done|]. intros [??]%andb_true_iff. constructor; auto. Qed.
Lemma Forall_mp {A} (P Q : A → Prop) l : Forall (λ x, P x → Q x) l → Forall P l → Forall Q l.
Proof. induction 1 as [|x l Hx _ IH]; intros HP; inversion HP; subst; constructor; auto. Qed.

(** The two kinds of brackets. *)
Lemma read_value_array fuel c s : opens c = true → read_value (S fuel) (String "[" (String c s)) =
  match read_elements fuel (String c s) with Some (l, r) => Some (JArr l, r) | None => None end.
Proof. by destruct c as [[] [] [] [] [] [] [] []]. Qed.
Lemma read_value_object fuel s : read_value (S fuel) (String "{" (String quote s)) =
  match read_members fuel (String quote s) with Some (fs, r) => Some (JObj fs, r) | None => None end.
Proof. done. Qed.

Lemma write_int_first z : in64 z → ∃ c s, write_int z = String c s ∧ is_digit c || bool_decide (c = "-"%char) = true.
Proof.
  unfold in64, min64, max64. intros Hz. unfold write_int. case_decide.
  - eexists _, _. split; [reflexivity|done].
  - destruct (fmtInt_digits z "") as (d & ds & Hds & _ & -> & _); [lia|]. eexists _, _. split; [reflexivity|].
    by destruct (digit_char_spec d (Forall_inv Hds)) as [-> _].
Qed.

(** An object is read whatever follows it. *)
Lemma print_object fs fuel rest : Forall (λ kv, readable kv.2) fs → Forall (λ kv, integral kv.2 = true) fs →
  (2 * String.length (print (JObj fs)) < S fuel)%nat → read_value (S fuel) (print (JObj fs) +:+ rest) = Some (JObj fs, rest).
Proof.
  intros Hl Hj Hf. destruct fs as [|[k j] fs]; [done|].
  rewrite print_obj in *. cbn [String.length] in Hf. rewrite app_length in Hf. cbn [String.length] in Hf.
  rewrite app_cons, app_assoc, app_cons, app_nil.
  pose proof (read_members_print ((k, j) :: fs) fuel rest ltac:(done) Hl Hj ltac:(lia)) as He.
  cbn [fmap list_fmap] in *. rewrite between_cons, app_assoc in He |- *. unfold member at 1 in He. unfold member at 1.
  cbn [fst snd] in *. unfold write_string in He |- *. rewrite !app_cons in He |- *. rewrite read_value_object. by rewrite He.
Qed.
Lemma print_readable j : integral j = true → readable j.
Proof.
  induction j as [| | | | |l IH|fs IH] using json_nested; intros Hj fuel rest Hf Hr;
    (destruct fuel as [|fuel]; [lia|]).
  - done.
  - by destruct b.
  - apply bool_decide_eq_true in Hj. rewrite <-(read_write_int z rest) by done. cbn [print].
    destruct (write_int_first z Hj) as (c & s & -> & Hc). by apply read_value_number.
  - done.
  - destruct (read_string s rest) as (r & Hs & Hk). cbn [print]. rewrite Hs.
    change (match read_chars r None with Some (t, r) => Some (JStr t, r) | None => None end = Some (JStr s, rest)).
    by rewrite Hk.
  - apply Forall_forallb in Hj. destruct l as [|j l]; [done|]. pose proof (Forall_mp _ _ _ IH Hj) as Hl.
    cbn [print] in *. cbn [String.length] in Hf. rewrite app_length in Hf. cbn [String.length] in Hf.
    rewrite app_cons, app_assoc, app_cons, app_nil.
    pose proof (read_elements_print (j :: l) fuel rest ltac:(done) Hl Hj ltac:(lia)) as He.
    destruct (print_opens j (match print <$> l with [] => "" | _ => String "," (between "," (print <$> l)) end +:+ String "]" rest))
      as (c & s & Heq & Hc); [by inversion Hj|].
    cbn [fmap list_fmap] in *. rewrite between_cons, app_assoc, Heq in He |- *.
    rewrite read_value_array by done. by rewrite He.
  - apply Forall_forallb in Hj. apply print_object; [exact (Forall_mp _ _ _ IH Hj)|exact Hj|lia].
Qed.

Lemma object_readable fs rest : integral (JObj fs) = true → skip_space rest = ""%string →
  unmarshal (print (JObj fs) +:+ rest) = Ok (JObj fs).
Proof.
  intros Hj Hr. unfold unmarshal. apply Forall_forallb in Hj. rewrite app_length.
  replace (2 * S _)%nat with (S (1 + 2 * (String.length (print (JObj fs)) + String.length rest)))%nat by lia.
  rewrite print_object; [by rewrite Hr| |done|lia].
  eapply Forall_mp; [|exact Hj]. apply Forall_true. intros kv. apply print_readable.
Qed.

(** Writing a document and reading the text gives the document. *)
Theorem json_round_trip j : integral j = true → unmarshal (print j) = Ok j.
Proof.
  intros Hj. unfold unmarshal. rewrite <-(app_nil_r (print j)) at 2.
  rewrite (print_readable j Hj); [done|lia|done].
Qed.
