(* ===== verification/Url.v ===== *)
(** * URLs (net/url)

    Escaping and unescaping of path segments and of query text, and the query
    of a request: what the drivers, the API client and the server use of it. *)

From stdpp Require Import base gmap strings list sorting.
From Stdlib Require Import Ascii.
From S2P Require Import Prelude Json Marshal Text.
From S2P Require TextFacts.

(** ** Escaping *)

Definition unreserved (c : ascii) : bool :=
  let n := N_of_ascii c in
  ((48 <=? n) && (n <=? 57) || (65 <=? n) && (n <=? 90) || (97 <=? n) && (n <=? 122))%N ||
  mem c ["-"; "_"; "."; "~"]%char.
Definition percent (c : ascii) : string :=
  let n := N_of_ascii c in
  let up x := match hex_digit x with
              | Ascii b0 b1 b2 b3 b4 true b6 b7 =>
                  if (x <? 10)%N then hex_digit x else Ascii b0 b1 b2 b3 b4 false b6 b7
              | c => c
              end in
  String "%" (String (up (n / 16)%N) (String (up (n mod 16)%N) EmptyString)).
Fixpoint url_escape (plain : ascii → bool) (plus : bool) (s : string) : string :=
  match s with
  | EmptyString => EmptyString
  | String c s =>
      ((if plain c then String c EmptyString
        else if plus && bool_decide (c = " "%char) then "+" else percent c) +:+ url_escape plain plus s)%string
  end.
Definition PathEscape (s : string) : string :=
  url_escape (λ c, unreserved c || mem c ["$"; "&"; "+"; ":"; "="; "@"]%char) false s.
Definition QueryEscape (s : string) : string := url_escape unreserved true s.

(** [unescape]: an escape that is not two hex digits is an error. *)
Fixpoint url_unescape (plus : bool) (s : string) : option string :=
  match s with
  | EmptyString => Some EmptyString
  | String c s =>
      if decide (c = "%"%char) then
        match s with
        | String a (String b s) =>
            match hex_value a, hex_value b, url_unescape plus s with
            | Some x, Some y, Some r => Some (String (ascii_of_N (16 * x + y)) r)
            | _, _, _ => None
            end
        | _ => None
        end
      else String (if plus && bool_decide (c = "+"%char) then " "%char else c) <$> url_unescape plus s
  end.
Definition PathUnescape : string → option string := url_unescape false.
Definition QueryUnescape : string → option string := url_unescape true.

(** ** Queries *)

Abbreviation Values := (gmap string (list string)).
Definition Values_Set (k v : string) (q : Values) : Values := <[k := [v]]> q.
Definition Values_Add (k v : string) (q : Values) : Values := <[k := default [] (q !! k) ++ [v]]> q.

(** The pairs of a query: by key, the values of a key in their order. *)
Definition pairs (q : Values) : list (string * string) :=
  concat ((λ kvs : string * list string, (λ v, (kvs.1, v)) <$> kvs.2) <$> sorted_entries q).
Definition enc_pair (kv : string * string) : string := (QueryEscape kv.1 +:+ "=" +:+ QueryEscape kv.2)%string.
Definition Values_Encode (q : Values) : string := between "&" (enc_pair <$> pairs q).

Fixpoint str_has (c : ascii) (s : string) : bool :=
  match s with EmptyString => false | String d s => bool_decide (d = c) || str_has c s end.

(** [ParseQuery]: pieces that do not decode are left out. *)
Definition parse_piece (piece : string) : option (string * string) :=
  if str_has ";" piece || bool_decide (piece = ""%string) then None else
  let '(k, v) := default (piece, ""%string) (Cut "=" piece) in
  match QueryUnescape k, QueryUnescape v with
  | Some k, Some v => Some (k, v)
  | _, _ => None
  end.
Definition ParseQuery (s : string) : list (string * string) := omap parse_piece (Split "&" s).

(** ** Request targets *)

Definition control (c : ascii) : bool :=
  let n := N_of_ascii c in ((n <? 32) || (n =? 127))%N.
Fixpoint str_any (p : ascii → bool) (s : string) : bool :=
  match s with EmptyString => false | String c s => p c || str_any p s end.

(** The path of a target as the mux takes it apart, segment by segment, and its
    query; [None] where the URL is refused, or where the mux would clean the
    path and redirect. A trailing slash leaves an empty segment. *)
Definition parse_path (path : string) : option (list string) :=
  match Split "/" path with
  | EmptyString :: segs =>
      segs ← mapM PathUnescape segs;
      if forallb (λ s, negb (mem s ["."; ".."]%string)) segs &&
         forallb (λ s, negb (bool_decide (s = ""%string))) (removelast segs)
      then Some segs else None
  | _ => None
  end.
Definition parse_target (target : string) : option (list string * list (string * string)) :=
  if str_any control target then None else
  let target := (default (target, ""%string) (Cut "#" target)).1 in
  let '(path, query) := default (target, ""%string) (Cut "?" target) in
  segs ← parse_path path;
  Some (segs, ParseQuery query).

(** ** What is escaped comes back *)

Definition percent_reads (c : ascii) : bool :=
  match percent c with
  | String p (String a (String b EmptyString)) =>
      bool_decide (p = "%"%char) && match hex_value a, hex_value b with
                                    | Some x, Some y => bool_decide (ascii_of_N (16 * x + y) = c)
                                    | _, _ => false
                                    end
  | _ => false
  end.
Lemma percent_reads_all c : percent_reads c = true.
Proof. by destruct c as [[] [] [] [] [] [] [] []]; vm_compute. Qed.
Lemma hex_value_percent c rest plus : url_unescape plus (percent c +:+ rest) =
  String c <$> url_unescape plus rest.
Proof.
  pose proof (percent_reads_all c) as Hr. unfold percent_reads in Hr.
  destruct (percent c) as [|p [|a [|b []]]]; try done. apply andb_true_iff in Hr as [->%bool_decide_eq_true Hr].
  rewrite !TextFacts.app_cons, TextFacts.app_nil. cbn [url_unescape]. rewrite decide_True by done.
  destruct (hex_value a), (hex_value b); try done. apply bool_decide_eq_true in Hr as ->.
  by destruct (url_unescape plus rest).
Qed.
Lemma unescape_escape plain (plus : bool) s :
  (∀ c, plain c = true → c ≠ "%"%char ∧ (plus = true → c ≠ "+"%char)) →
  url_unescape plus (url_escape plain plus s) = Some s.
Proof.
  intros Hp. induction s as [|c s IH]; [done|]. cbn [url_escape]. destruct (plain c) eqn:Hc.
  - destruct (Hp c Hc) as [H1 H2]. rewrite TextFacts.app_cons, TextFacts.app_nil. cbn [url_unescape].
    rewrite decide_False, IH by done. simpl. f_equal. f_equal. destruct plus; [|done]. simpl.
    rewrite bool_decide_eq_false_2; [done|by apply H2].
  - destruct (plus && bool_decide (c = " "%char)) eqn:Hs; [|by rewrite hex_value_percent, IH].
    apply andb_true_iff in Hs as [-> ->%bool_decide_eq_true].
    change (url_unescape true ("+" +:+ ?r)) with (String " " <$> url_unescape true r). by rewrite IH.
Qed.
Lemma QueryUnescape_Escape s : QueryUnescape (QueryEscape s) = Some s.
Proof. apply unescape_escape. intros c Hc. split; intros; by intros ->. Qed.
Lemma PathUnescape_Escape s : PathUnescape (PathEscape s) = Some s.
Proof. apply unescape_escape. intros c Hc. split; [by intros ->|done]. Qed.

(** What escaping writes, and where it is cut. *)
Definition written (c : ascii) : bool := unreserved c || bool_decide (c = "%"%char) || bool_decide (c = "+"%char).

Lemma percent_written c : str_all written (percent c) = true.
Proof. by destruct c as [[] [] [] [] [] [] [] []]; vm_compute. Qed.
Lemma QueryEscape_written s : str_all written (QueryEscape s) = true.
Proof.
  induction s as [|c s IH]; [done|]. unfold QueryEscape. cbn [url_escape]. rewrite str_all_app.
  fold (QueryEscape s). rewrite IH, andb_true_r. destruct (unreserved c) eqn:Hc; [unfold written; simpl; by rewrite Hc|].
  destruct (_ && _); [done|apply percent_written].
Qed.
Lemma not_written c s : written c = false → str_all written s = true → str_has c s = false.
Proof.
  intros Hc. induction s as [|d s IH]; simpl; [done|]. intros [Hd Hs]%andb_true_iff. rewrite (IH Hs), orb_false_r.
  apply bool_decide_eq_false. intros ->. congruence.
Qed.
Lemma Cut_free sep s t : str_has sep s = false → Cut sep (s +:+ String sep t) = Some (s, t).
Proof.
  induction s as [|c s IH]; simpl; [by rewrite decide_True|]. intros [Hc%bool_decide_eq_false Hs]%orb_false_iff.
  rewrite decide_False by done. by rewrite IH.
Qed.
Lemma Cut_none sep s : str_has sep s = false → Cut sep s = None.
Proof.
  induction s as [|c s IH]; simpl; [done|]. intros [Hc%bool_decide_eq_false Hs]%orb_false_iff.
  rewrite decide_False by done. by rewrite IH.
Qed.
Lemma Split_free sep s : str_has sep s = false → Split sep s = [s].
Proof.
  induction s as [|c s IH]; simpl; [done|]. intros [Hc%bool_decide_eq_false Hs]%orb_false_iff.
  rewrite decide_False by done. by rewrite IH.
Qed.
Lemma Split_app sep s t : str_has sep s = false → Split sep (s +:+ String sep t) = s :: Split sep t.
Proof.
  induction s as [|c s IH]; simpl; [by rewrite decide_True|]. intros [Hc%bool_decide_eq_false Hs]%orb_false_iff.
  rewrite decide_False by done. by rewrite IH.
Qed.
Lemma str_has_app c s t : str_has c (s +:+ t) = str_has c s || str_has c t.
Proof. induction s as [|d s IH]; [done|]. rewrite TextFacts.app_cons. simpl. by rewrite IH, orb_assoc. Qed.
Lemma Split_between sep l : l ≠ [] → Forall (λ s, str_has sep s = false) l →
  Split sep (between (String sep "") l) = l.
Proof.
  intros Hne Hl. induction Hl as [|s l Hs Hl IH]; [done|]. destruct l as [|t l].
  - by apply Split_free.
  - change (between (String sep "") (s :: t :: l)) with (s +:+ String sep (between (String sep "") (t :: l)))%string.
    rewrite Split_app by done. f_equal. by apply IH.
Qed.

Lemma enc_pair_has c kv : written c = false → c ≠ "="%char → str_has c (enc_pair kv) = false.
Proof.
  intros Hc Hne. unfold enc_pair. rewrite !str_has_app, (not_written c _ Hc (QueryEscape_written kv.1)),
    (not_written c _ Hc (QueryEscape_written kv.2)). simpl. rewrite bool_decide_eq_false_2 by congruence. done.
Qed.
Lemma parse_enc_pair kv : parse_piece (enc_pair kv) = Some kv.
Proof.
  unfold parse_piece. rewrite enc_pair_has by done. rewrite bool_decide_eq_false_2.
  - unfold enc_pair. change ("=" +:+ ?x)%string with (String "=" x). rewrite Cut_free.
    + simpl. rewrite !QueryUnescape_Escape. by destruct kv.
    + apply not_written; [done|apply QueryEscape_written].
  - unfold enc_pair. intros He. destruct (QueryEscape kv.1); discriminate.
Qed.

(** [ParseQuery] reads back the pairs [Encode] wrote. *)
Lemma ParseQuery_Encode q : ParseQuery (Values_Encode q) = pairs q.
Proof.
  unfold ParseQuery, Values_Encode. destruct (decide (pairs q = [])) as [->|Hne]; [done|].
  rewrite Split_between.
  - induction (pairs q) as [|kv l IH]; [done|]. cbn. rewrite parse_enc_pair. f_equal.
    destruct l; [done|]. by apply IH.
  - by destruct (pairs q).
  - apply Forall_fmap, Forall_true. intros kv. simpl. by apply enc_pair_has.
Qed.
