(* ===== verification/Auth.v ===== *)
(** * SHA-256 (crypto/sha256)

    The digest of tokens and of idempotent requests, on byte strings; words
    are 32-bit integers. *)

From stdpp Require Import base list strings gmap.
From Stdlib Require Import ZArith Ascii.
From S2P Require Import Prelude Text Errors App.

Definition w32 (z : Z) : Z := z mod 2 ^ 32.
Definition rotr (n x : Z) : Z := Z.lor (Z.shiftr x n) (w32 (Z.shiftl x (32 - n))).

Definition Ch (x y z : Z) : Z := Z.lxor (Z.land x y) (Z.land (Z.lxor x (2 ^ 32 - 1)) z).
Definition Maj (x y z : Z) : Z := Z.lxor (Z.lxor (Z.land x y) (Z.land x z)) (Z.land y z).
Definition Sum0 (x : Z) : Z := Z.lxor (Z.lxor (rotr 2 x) (rotr 13 x)) (rotr 22 x).
Definition Sum1 (x : Z) : Z := Z.lxor (Z.lxor (rotr 6 x) (rotr 11 x)) (rotr 25 x).
Definition sigma0 (x : Z) : Z := Z.lxor (Z.lxor (rotr 7 x) (rotr 18 x)) (Z.shiftr x 3).
Definition sigma1 (x : Z) : Z := Z.lxor (Z.lxor (rotr 17 x) (rotr 19 x)) (Z.shiftr x 10).

(** The constants: the first 32 bits behind the point of the cube roots of the
    first 64 primes, and of the square roots of the first 8. *)
Definition prime (p : Z) : bool :=
  forallb (λ d, negb (p mod Z.of_nat d =? 0)) (seq 2 (Z.to_nat p - 2)).
Definition primes : list Z := filter (λ p, prime p = true) (Z.of_nat <$> seq 2 310).
Fixpoint cube_root (bits : nat) (r n : Z) : Z :=
  match bits with
  | O => r
  | S bits => let r' := r + 2 ^ Z.of_nat bits in cube_root bits (if r' ^ 3 <=? n then r' else r) n
  end.
Definition K : list Z := Eval vm_compute in
  ((λ p, w32 (cube_root 36 0 (p * 2 ^ 96))) <$> take 64 primes).
Definition H0 : list Z := Eval vm_compute in
  ((λ p, w32 (Z.sqrt (p * 2 ^ 64))) <$> take 8 primes).

Fixpoint bytes (s : string) : list Z :=
  match s with EmptyString => [] | String c s => Z.of_N (N_of_ascii c) :: bytes s end.
Fixpoint unbytes (l : list Z) : string :=
  match l with [] => EmptyString | b :: l => String (ascii_of_N (Z.to_N b)) (unbytes l) end.
Fixpoint big_endian (n : nat) (z : Z) (acc : list Z) : list Z :=
  match n with O => acc | S n => big_endian n (z / 256) (z mod 256 :: acc) end.

(** The message, one bit, zeros up to 56 modulo 64, and its length in bits. *)
Definition pad (l : list Z) : list Z :=
  let n := Z.of_nat (length l) in
  l ++ [128] ++ replicate (Z.to_nat ((55 - n) mod 64)) 0 ++ big_endian 8 (8 * n) [].

Fixpoint words (l : list Z) : list Z :=
  match l with
  | a :: b :: c :: d :: l => ((a * 256 + b) * 256 + c) * 256 + d :: words l
  | _ => []
  end.
Fixpoint chunks (fuel : nat) (l : list Z) : list (list Z) :=
  match fuel, l with
  | _, [] => []
  | O, _ => []
  | S fuel, _ => take 16 l :: chunks fuel (drop 16 l)
  end.

(** The schedule, newest word first. *)
Fixpoint extend (n : nat) (w : list Z) : list Z :=
  match n with
  | O => w
  | S n => extend n
      (w32 (sigma1 (nth 1 w 0) + nth 6 w 0 + sigma0 (nth 14 w 0) + nth 15 w 0) :: w)
  end.
Definition schedule (chunk : list Z) : list Z := rev (extend 48 (rev chunk)).

Definition round (h : list Z) (kw : Z * Z) : list Z :=
  match h with
  | [a; b; c; d; e; f; g; hh] =>
      let t1 := hh + Sum1 e + Ch e f g + kw.1 + kw.2 in
      let t2 := Sum0 a + Maj a b c in
      [w32 (t1 + t2); a; b; c; w32 (d + t1); e; f; g]
  | _ => h
  end.
Definition block (h chunk : list Z) : list Z :=
  zip_with (λ x y, w32 (x + y)) h (foldl round h (zip K (schedule chunk))).

Definition Sum256 (s : string) : string :=
  let w := words (pad (bytes s)) in
  unbytes (mjoin ((λ x, big_endian 4 x []) <$> foldl block H0 (chunks (length w) w))).

Example Sum256_vectors :
  EncodeToString (Sum256 "") = "e3b0c44298fc1c149afbf4c8996fb92427ae41e4649b934ca495991b7852b855"%string ∧
  EncodeToString (Sum256 "abc") = "ba7816bf8f01cfea414140de5dae2223b00361a396177a9cb410ff61f20015ad"%string ∧
  EncodeToString (Sum256 "abcdbcdecdefdefgefghfghighijhijkijkljklmklmnlmnomnopnopq")
    = "248d6a61d20638b8e5c026930c3e6039a33ce45964ff2167f6ecedd419db06c1"%string.
Proof. vm_compute. done. Qed.

(** * Tokens and permissions (internal/api/auth.go)

    The closed set of permissions, the configured tokens of which only the
    digest of the secret is kept, and what a bearer header proves. Random bytes
    are arguments. A comparison in constant time is a comparison. *)

(** ** Permissions *)

Abbreviation Permission := string (only parsing).
Definition PermResourceRead : Permission := "resource.read".
Definition PermResourceAcquire : Permission := "resource.acquire".
Definition PermResourceCreate : Permission := "resource.create".
Definition PermResourceDelete : Permission := "resource.delete".
Definition PermPoolRead : Permission := "pool.read".
Definition PermPoolWrite : Permission := "pool.write".
Definition PermClassRead : Permission := "class.read".
Definition PermClassWrite : Permission := "class.write".
Definition PermProviderRead : Permission := "provider.read".
Definition PermProviderAdmin : Permission := "provider.admin".
Definition PermOperationRead : Permission := "operation.read".
Definition PermAdmin : Permission := "admin".

Definition AllPermissions : list Permission :=
  [PermResourceRead; PermResourceAcquire; PermResourceCreate; PermResourceDelete;
   PermPoolRead; PermPoolWrite; PermClassRead; PermClassWrite; PermProviderRead; PermProviderAdmin;
   PermOperationRead; PermAdmin].

Abbreviation PermSet := (gset Permission).

Fixpoint newPermSet (s : PermSet) (perms : list string) : result PermSet :=
  match perms with
  | [] => Ok s
  | p :: perms => if mem p AllPermissions then newPermSet ({[ p ]} ∪ s) perms
                  else Err (EOther "unknown permission")
  end.
Definition NewPermSet (perms : list string) : result PermSet := newPermSet ∅ perms.

Definition Allows (s : PermSet) (p : Permission) : bool :=
  bool_decide (PermAdmin ∈ s) || bool_decide (p ∈ s).

(** ** Tokens *)

Record Principal := MkPrincipal { pr_TokenID : string; pr_Name : string; pr_Perms : PermSet }.

Record TokenRecord := MkToken {
  tk_ID : string; tk_Name : string; tk_SHA256 : string; tk_Perms : PermSet }.

Record TokenAuthenticator := MkAuth { byID : gmap string TokenRecord; dummy : string }.

(** A later record with the same id replaces the earlier one. *)
Definition NewTokenAuthenticator (records : list TokenRecord) (rand : string) : TokenAuthenticator :=
  MkAuth (foldl (λ m r, <[tk_ID r := r]> m) ∅ records) rand.

Definition Enabled (a : TokenAuthenticator) : bool := negb (bool_decide (byID a = ∅)).

Definition malformed {A} : result A := Err (EOther "malformed token").

Definition zeroToken : TokenRecord := MkToken "" "" "" ∅.

(** ["Bearer flp_<id8>.<secret>"]. *)
Definition Authenticate (a : TokenAuthenticator) (authHeader : string) : result Principal :=
  match CutPrefix "Bearer " authHeader with
  | None => Err (EOther "missing bearer token")
  | Some raw =>
  match CutPrefix "flp_" (TrimSpace raw) with
  | None => malformed
  | Some body =>
  match Cut "." body with
  | None => malformed
  | Some (id, secret) =>
      let rec := default zeroToken (byID a !! id) in
      let found := is_some (byID a !! id) in
      let want := if found then tk_SHA256 rec else dummy a in
      if negb (bool_decide (Sum256 secret = want)) || negb found
      then Err (EOther "invalid token")
      else Ok (MkPrincipal (tk_ID rec) (tk_Name rec) (tk_Perms rec))
  end
  end
  end.

Definition ParseToken (plaintext name : string) (perms : PermSet) : result TokenRecord :=
  match CutPrefix "flp_" (TrimSpace plaintext) with
  | None => malformed
  | Some body =>
  match Cut "." body with
  | None => malformed
  | Some (id, secret) =>
      if negb (String.length id =? 8)%nat || bool_decide (secret = ""%string) then malformed
      else Ok (MkToken id name (Sum256 secret) perms)
  end
  end.

(** [base64.RawURLEncoding]. *)
Definition base64_char (n : N) : ascii :=
  if decide (n < 26)%N then ascii_of_N (65 + n)
  else if decide (n < 52)%N then ascii_of_N (71 + n)
  else if decide (n < 62)%N then ascii_of_N (n - 4)
  else if decide (n = 62)%N then "-"%char else "_"%char.
Fixpoint base64 (s : string) : string :=
  match s with
  | String a (String b (String c s)) =>
      let n := (65536 * N_of_ascii a + 256 * N_of_ascii b + N_of_ascii c)%N in
      String (base64_char (n / 262144)) (String (base64_char ((n / 4096) mod 64))
        (String (base64_char ((n / 64) mod 64)) (String (base64_char (n mod 64)) (base64 s))))
  | String a (String b EmptyString) =>
      let n := (1024 * N_of_ascii a + 4 * N_of_ascii b)%N in
      String (base64_char (n / 4096)) (String (base64_char ((n / 64) mod 64))
        (String (base64_char (n mod 64)) EmptyString))
  | String a EmptyString =>
      let n := (16 * N_of_ascii a)%N in
      String (base64_char (n / 64)) (String (base64_char (n mod 64)) EmptyString)
  | EmptyString => EmptyString
  end.

(** [idb] and [secretB] are four and thirty-two random bytes. *)
Definition GenerateToken (name : string) (perms : PermSet) (idb secretB : string) : string * TokenRecord :=
  let id := EncodeToString idb in
  let secret := base64 secretB in
  (("flp_" +:+ id +:+ "." +:+ secret)%string, MkToken id name (Sum256 secret) perms).

(** ** Facts *)

Lemma CutPrefix_Some p s r : CutPrefix p s = Some r ↔ s = (p +:+ r)%string.
Proof.
  revert s. induction p as [|c p IH]; intros s; cbv [String.append]; fold String.append; simpl.
  - split; congruence.
  - destruct s as [|d s]; [split; discriminate|]. case_decide as Hc.
    + subst. rewrite IH. split; [by intros ->|by intros [= ->]].
    + split; [discriminate|]. intros [= -> _]. done.
Qed.

(** No byte of the text is [c]. *)
Fixpoint free_of (c : ascii) (s : string) : Prop :=
  match s with EmptyString => True | String d s => d ≠ c ∧ free_of c s end.

Lemma Cut_Some c s l r : Cut c s = Some (l, r) ↔ s = (l +:+ String c r)%string ∧ free_of c l.
Proof.
  revert l. induction s as [|d s IH]; intros l; simpl.
  - split; [discriminate|]. intros [H _]. by destruct l.
  - case_decide as Hc.
    + subst. split.
      * intros [= <- <-]. done.
      * intros [H Hf]. destruct l as [|e l]; cbv [String.append] in H; fold String.append in H.
        -- by injection H as ->.
        -- injection H as -> _. by destruct Hf.
    + destruct (Cut c s) as [[l' r']|] eqn:E.
      * split.
        -- intros [= <- <-]. destruct (proj1 (IH l') eq_refl) as [-> Hf]. done.
        -- intros [H Hf]. destruct l as [|e l]; cbv [String.append] in H; fold String.append in H.
           ++ by injection H as -> _.
           ++ injection H as -> H. destruct Hf as [_ Hf].
              pose proof (proj2 (IH l) (conj H Hf)) as E'. by injection E' as -> ->.
      * split; [discriminate|]. intros [H Hf].
        destruct l as [|e l]; cbv [String.append] in H; fold String.append in H.
        -- by injection H as -> _.
        -- injection H as -> H. destruct Hf as [_ Hf].
           pose proof (proj2 (IH l) (conj H Hf)). discriminate.
Qed.

(** What an accepted header proves. *)
Lemma Authenticate_Ok a hdr p :
  Authenticate a hdr = Ok p ↔
  ∃ raw id secret rec,
    hdr = ("Bearer " +:+ raw)%string ∧ TrimSpace raw = ("flp_" +:+ id +:+ String "." secret)%string ∧
    free_of "." id ∧ byID a !! id = Some rec ∧ Sum256 secret = tk_SHA256 rec ∧
    p = MkPrincipal (tk_ID rec) (tk_Name rec) (tk_Perms rec).
Proof.
  unfold Authenticate. split.
  - destruct (CutPrefix "Bearer " hdr) as [raw|] eqn:E1; [|discriminate].
    destruct (CutPrefix "flp_" (TrimSpace raw)) as [body|] eqn:E2; [|discriminate].
    destruct (Cut "." body) as [[id secret]|] eqn:E3; [|discriminate].
    apply CutPrefix_Some in E1, E2. apply Cut_Some in E3 as [-> Hf].
    destruct (byID a !! id) as [rec|] eqn:E4; cbn [default is_some is_none negb orb].
    + destruct (bool_decide _) eqn:E5; [|discriminate]. apply bool_decide_eq_true in E5.
      intros H. apply Ok_inj in H as <-. by exists raw, id, secret, rec.
    + destruct (bool_decide _); discriminate.
  - intros (raw & id & secret & rec & -> & E2 & Hf & E4 & E5 & ->).
    rewrite (proj2 (CutPrefix_Some _ _ raw) eq_refl), (proj2 (CutPrefix_Some _ _ _) E2).
    rewrite (proj2 (Cut_Some _ _ _ _) (conj eq_refl Hf)), E4. cbn [default is_some is_none negb orb].
    by rewrite bool_decide_eq_true_2.
Qed.

(** ** Minted tokens *)

Definition plain_char (c : ascii) : bool := negb (space c) && negb (bool_decide (c = "."%char)).
Fixpoint plain (s : string) : bool :=
  match s with EmptyString => true | String c s => plain_char c && plain s end.

Lemma plain_app s t : plain (s +:+ t)%string = plain s && plain t.
Proof.
  induction s as [|c s IH]; cbv [String.append]; fold String.append; simpl; [done|].
  by rewrite IH, andb_assoc.
Qed.
Lemma plain_free s : plain s = true → free_of "." s.
Proof.
  induction s as [|c s IH]; simpl; [done|]. intros [[_ Hc]%andb_true_iff Hs]%andb_true_iff.
  split; [|by apply IH]. by apply negb_true_iff, bool_decide_eq_false in Hc.
Qed.

Fixpoint spaceless (s : string) : bool :=
  match s with EmptyString => true | String c s => negb (space c) && spaceless s end.
Lemma spaceless_app s t : spaceless (s +:+ t)%string = spaceless s && spaceless t.
Proof.
  induction s as [|c s IH]; cbv [String.append]; fold String.append; simpl; [done|].
  by rewrite IH, andb_assoc.
Qed.
Lemma plain_spaceless s : plain s = true → spaceless s = true.
Proof.
  induction s as [|c s IH]; simpl; [done|]. intros [[Hc _]%andb_true_iff Hs]%andb_true_iff.
  by rewrite Hc, IH.
Qed.
Lemma TrimSpace_spaceless s : spaceless s = true → TrimSpace s = s.
Proof.
  assert (∀ t, spaceless t = true → trim_right t = t) as Hr.
  { induction t as [|c t IH]; simpl; [done|]. intros [Hc%negb_true_iff Ht]%andb_true_iff.
    rewrite Hc. simpl. by rewrite IH. }
  intros Hs. unfold TrimSpace. destruct s as [|c s]; [done|].
  simpl trim_left. pose proof Hs as Hc. simpl in Hc. apply andb_true_iff in Hc as [Hc%negb_true_iff _].
  rewrite Hc. by apply Hr.
Qed.

Lemma base64_char_plain n : plain_char (base64_char n) = true.
Proof.
  destruct (decide (n < 64)%N) as [Hn|Hn].
  - rewrite <-(N2Nat.id n). assert (N.to_nat n < 64)%nat as Hk by lia. revert Hk.
    generalize (N.to_nat n) as k. intros k Hk. do 64 (destruct k as [|k]; [reflexivity|]). lia.
  - unfold base64_char. rewrite !decide_False by lia. reflexivity.
Qed.
Lemma hex_digit_plain n : (n < 16)%N → plain_char (hex_digit n) = true.
Proof.
  intros Hn. rewrite <-(N2Nat.id n). assert (N.to_nat n < 16)%nat as Hk by lia. revert Hk.
  generalize (N.to_nat n) as k. intros k Hk. do 16 (destruct k as [|k]; [reflexivity|]). lia.
Qed.
Lemma hex_plain s : plain (EncodeToString s) = true.
Proof.
  induction s as [|c s IH]; simpl; [done|]. pose proof (N_ascii_bounded c).
  rewrite !hex_digit_plain, IH; [done|by apply N.mod_lt|by apply N.Div0.div_lt_upper_bound].
Qed.
Lemma base64_plain s : plain (base64 s) = true.
Proof.
  revert s. fix IH 1. intros [|a [|c [|d s]]]; cbn [base64 plain]; rewrite ?base64_char_plain; try reflexivity.
  cbn [andb]. apply IH.
Qed.
Lemma hex_length s : String.length (EncodeToString s) = (2 * String.length s)%nat.
Proof. induction s as [|c s IH]; simpl; [done|]. rewrite IH. lia. Qed.

Lemma last_record later rec earlier rand :
  (∀ r, r ∈ later → tk_ID r ≠ tk_ID rec) →
  byID (NewTokenAuthenticator (earlier ++ rec :: later) rand) !! tk_ID rec = Some rec.
Proof.
  intros Hl. simpl. rewrite foldl_app. simpl. generalize (foldl (λ (m : gmap string TokenRecord) r, <[tk_ID r:=r]> m) ∅ earlier). intros m.
  assert (∀ (m : gmap string TokenRecord), m !! tk_ID rec = Some rec →
    foldl (λ (m : gmap string TokenRecord) r, <[tk_ID r:=r]> m) m later !! tk_ID rec = Some rec) as Hf.
  { induction later as [|x later IH]; intros m' Hm'; simpl; [done|]. apply IH.
    - intros r Hr. apply Hl. by right.
    - rewrite lookup_insert_ne; [done|]. apply Hl. left. }
  apply Hf. by rewrite lookup_insert_eq.
Qed.

(** A freshly minted token is admitted, with its name and permissions, by
    every installation whose configuration holds its record (and no later one
    of the same id), and reading it back gives that record. *)
Theorem minted_token_admitted name perms idb secretB earlier later rand :
  let '(plaintext, rec) := GenerateToken name perms idb secretB in
  (∀ r, r ∈ later → tk_ID r ≠ tk_ID rec) →
  Authenticate (NewTokenAuthenticator (earlier ++ rec :: later) rand) ("Bearer " +:+ plaintext)%string =
    Ok (MkPrincipal (tk_ID rec) name perms) ∧
  (String.length idb = 4%nat → base64 secretB ≠ ""%string → ParseToken plaintext name perms = Ok rec).
Proof.
  cbn [GenerateToken]. intros Hl. set (id := EncodeToString idb). set (secret := base64 secretB).
  set (rec := MkToken id name (Sum256 secret) perms).
  assert (TrimSpace ("flp_" +:+ id +:+ "." +:+ secret) = ("flp_" +:+ id +:+ "." +:+ secret))%string as Htrim.
  { apply TrimSpace_spaceless. rewrite !spaceless_app.
    rewrite (plain_spaceless id), (plain_spaceless secret) by apply hex_plain || apply base64_plain. done. }
  assert (free_of "." id) as Hid by apply plain_free, hex_plain.
  split.
  - apply Authenticate_Ok. exists ("flp_" +:+ id +:+ "." +:+ secret)%string, id, secret, rec.
    split_and!; [done|exact Htrim|done|exact (last_record later rec earlier rand Hl)|done|done].
  - intros Hlen Hne. unfold ParseToken. rewrite Htrim.
    rewrite (proj2 (CutPrefix_Some "flp_" _ _) eq_refl).
    change (id +:+ "." +:+ secret)%string with (id +:+ String "." secret)%string.
    rewrite (proj2 (Cut_Some "." _ id secret) (conj eq_refl Hid)).
    unfold id at 1. rewrite hex_length, Hlen, bool_decide_eq_false_2 by done. done.
Qed.

Lemma minted_token_admitted_witness :
  Authenticate (NewTokenAuthenticator [(GenerateToken "ops" {[ PermAdmin ]} "abcd" "0123456789").2] "x")
    "Bearer flp_61626364.MDEyMzQ1Njc4OQ" = Ok (MkPrincipal "61626364" "ops" {[ PermAdmin ]}).
Proof.
  apply (minted_token_admitted "ops" {[ PermAdmin ]} "abcd" "0123456789" [] [] "x").
  intros r Hr. by apply not_elem_of_nil in Hr.
Defined.
