(* ===== verification/Queries.v ===== *)
(** * Read-only queries (internal/app)

    What the API shows: operations, acquisitions with the machine behind their
    lease, resources, pools, classes and the event log. Events carry no id in
    the tables of this model; ids are minted in the order of the log, and
    [event_id n] is the id of the [n]th event ever appended. *)

From stdpp Require Import base gmap strings list sorting.
From S2P Require Import Prelude Errors Json Phase SDK Capacity Types Store Provision Sys App.

Definition GetOperation (id : string) : M World Operation := Operations_Get id.
Definition ListOperations : M World (list Operation) := Operations_NonTerminal.

Definition GetResource (id : string) : M World Resource := Resources_Get id.
Definition ListResources (f : ResourceFilter) : M World (list Resource) := Resources_List f.

(** [Bind] clears the pending resource; the lease knows it. *)
Definition fillResourceID (acq : Acquisition) : M World Acquisition :=
  match a_State acq, a_LeaseID acq, a_PendingResourceID acq with
  | AcqBound, Some l, None =>
      r <- tryM (Leases_Get l) ;;
      retM (match r with
            | Ok lease => with_a_PendingResourceID (Some (l_ResourceID lease)) acq
            | Err _ => acq
            end)
  | _, _, _ => retM acq
  end.

Definition GetAcquisition (id : string) : M World Acquisition :=
  acq <- Acquisitions_Get id ;; fillResourceID acq.

Definition LiveAcqStates : list AcqState := [AcqPending; AcqProvisioning; AcqBound].

Fixpoint filled (resource : string) (acqs : list Acquisition) : M World (list Acquisition) :=
  match acqs with
  | [] => retM []
  | a :: acqs =>
      a <- fillResourceID a ;;
      out <- filled resource acqs ;;
      retM (if negb (bool_decide (resource = ""))
               && negb (bool_decide (a_PendingResourceID a = Some resource))
            then out else a :: out)
  end.
Definition ListAcquisitions (states : list AcqState) (resource : string) : M World (list Acquisition) :=
  acqs <- Acquisitions_ListByState (match states with [] => LiveAcqStates | _ => states end) ;;
  filled resource acqs.

Definition ListPools : M World (list Pool) := Pools_List.
Definition GetClass (name : string) : M World ClassRecord := Classes_Get name.
Definition ListClasses : M World (list ClassRecord) := Classes_List.

(** ** Events *)

Record EventFilter := MkEventFilter {
  ef_After : string; ef_SinceTS : Z; ef_Type : string;
  ef_ResourceID : option string; ef_PoolID : option string }.

Section events.
Variable event_id : nat → string.

Definition event_match (f : EventFilter) (ev : string * Event) : bool :=
  (bool_decide (ef_After f = "") || negb (String.leb ev.1 (ef_After f))) &&
  (bool_decide (ef_SinceTS f ≤ 0) || bool_decide (ef_SinceTS f ≤ e_TS ev.2)) &&
  (bool_decide (ef_Type f = "") || bool_decide (e_Type ev.2 = ef_Type f)) &&
  (is_none (ef_ResourceID f) || bool_decide (e_ResourceID ev.2 = ef_ResourceID f)) &&
  (is_none (ef_PoolID f) || bool_decide (e_PoolID ev.2 = ef_PoolID f)).

(** The log as rows with their ids, oldest first. *)
Definition event_rows (log : list Event) : list (string * Event) :=
  imap (λ n e, (event_id n, e)) (rev log).

Definition Events_List (f : EventFilter) (lim : Z) : M World (list (string * Event)) :=
  getsM (λ w, limit lim (merge_sort key_le
    (filter (λ ev, event_match f ev = true) (event_rows (db_Events (w_DB w)))))).
Definition ListEvents (f : EventFilter) (lim : Z) : M World (list (string * Event)) := Events_List f lim.
End events.

(** ** Queries only read *)

Lemma reads_row_get {A} (get : DB → gmap string A) id : pure (row_get get id).
Proof. intros w. unfold row_get. by destruct (get (w_DB w) !! id). Qed.

Lemma pure_fillResourceID acq : pure (fillResourceID acq).
Proof.
  unfold fillResourceID. destruct (a_State acq), (a_LeaseID acq), (a_PendingResourceID acq); auto with fp.
  apply pure_bind; [apply pure_try, reads_row_get|auto with fp].
Qed.
Lemma pure_filled resource acqs : pure (filled resource acqs).
Proof.
  induction acqs as [|a acqs IH]; simpl; [apply pure_ret|].
  apply pure_bind; [apply pure_fillResourceID|intros x]. apply pure_bind; auto with fp.
Qed.
Lemma pure_GetAcquisition id : pure (GetAcquisition id).
Proof. apply pure_bind; [apply reads_row_get|apply pure_fillResourceID]. Qed.
Lemma pure_ListAcquisitions states resource : pure (ListAcquisitions states resource).
Proof.
  apply pure_bind; [|apply pure_filled].
  intros w. by destruct states.
Qed.
Lemma reads_GetPool id : pure (GetPool id).
Proof.
  apply pure_bind; [apply pure_try, reads_row_get|intros [p|e]; [apply pure_ret|]].
  unfold Pools_GetByName. intros w. split_match; done.
Qed.
