(* ===== verification/Wire.v ===== *)
(** * Wire types (pkg/apiclient, internal/api)

    The request bodies the API decodes, field by field and with unknown fields
    refused where the code refuses them, and the envelopes it answers with.
    The timestamps a client may put into metadata are checked by [time.Time]
    and then dropped; what that check accepts is a parameter. *)

From stdpp Require Import base gmap strings list.
From S2P Require Import Prelude Errors Json Phase SDK Capacity Types Kinds Marshal Text.

Import compute.

Definition APIVersion : string := "fleetplane.io/v1alpha1".

(** ** Requests *)

Class TimeText := valid_time : string → bool.

(** [Decoder.DisallowUnknownFields], at one struct. *)
Definition known_fields (strict : bool) (names : list string) (fs : list (string * json)) : result unit :=
  if negb strict || forallb (λ '(k, _), existsb (key_match k) names) fs then Ok tt
  else Err (EOther "json: unknown field").

(** [json.RawMessage] keeps the document. *)
Definition dec_raw (j : json) (old : raw) : result raw := Ok (RawDoc j).

Record AcquireRequest := MkAcquireRequest {
  ar_Kind : string; ar_Class : string; ar_Quantity : Z; ar_Constraints : raw; ar_Exclusive : bool;
  ar_TTL : option string; ar_MaxWait : string; ar_IdempotencyKey : string }.

Record ClassSpec := MkClassSpec {
  cs_Kind : string; cs_Provider : string; cs_Template : raw;
  cs_Reclaim : option (string * string * string);   (* idleAfter, park, deleteAfter *)
  cs_MaxWait : option string                        (* scheduling.queue.maxWait *)
}.

Section requests.
Context `{TimeText} (strict : bool).

Definition dec_time (j : json) (u : unit) : result unit :=
  match j with
  | JNull => Ok tt
  | JStr s => if valid_time s then Ok tt else Err (EOther "parsing time")
  | _ => type_error
  end.

(** [Metadata]: its name and labels; the rest is decoded and ignored. *)
Definition dec_Metadata (j : json) (old : string * gmap string string)
  : result (string * gmap string string) :=
  fs ?<- dec_object j ;
  chk ?<- known_fields strict ["id"; "name"; "labels"; "ownership"; "protected"; "generation";
                             "observedGeneration"; "createdAt"; "updatedAt"; "deletedAt"]%string fs ;
  chk ?<- dec_field "id" dec_string fs ""%string ;
  name ?<- dec_field "name" dec_string fs old.1 ;
  labels ?<- dec_field "labels" compute.dec_labels fs old.2 ;
  chk ?<- dec_field "ownership" dec_string fs ""%string ;
  chk ?<- dec_field "protected" dec_bool fs false ;
  chk ?<- dec_field "generation" dec_int64 fs 0 ;
  chk ?<- dec_field "observedGeneration" dec_int64 fs 0 ;
  chk ?<- dec_field "createdAt" dec_time fs tt ;
  chk ?<- dec_field "updatedAt" dec_time fs tt ;
  chk ?<- dec_field "deletedAt" dec_time fs tt ;
  Ok (name, labels).

(** [ResourceSpec]: kind, provider, class, machine. *)
Definition dec_ResourceSpec (j : json) (old : string * string * string * raw)
  : result (string * string * string * raw) :=
  let '(kind, prov, class, machine) := old in
  fs ?<- dec_object j ;
  chk ?<- known_fields strict ["kind"; "provider"; "class"; "machine"]%string fs ;
  kind ?<- dec_field "kind" dec_string fs kind ;
  prov ?<- dec_field "provider" dec_string fs prov ;
  class ?<- dec_field "class" dec_string fs class ;
  machine ?<- dec_field "machine" dec_raw fs machine ;
  Ok (kind, prov, class, machine).

(** [CreateResourceRequest]. *)
Definition dec_CreateResourceRequest (j : json)
  : result (string * gmap string string * (string * string * string * raw)) :=
  fs ?<- dec_object j ;
  chk ?<- known_fields strict ["apiVersion"; "kind"; "metadata"; "spec"]%string fs ;
  chk ?<- dec_field "apiVersion" dec_string fs ""%string ;
  chk ?<- dec_field "kind" dec_string fs ""%string ;
  meta ?<- dec_field "metadata" dec_Metadata fs (""%string, ∅) ;
  spec ?<- dec_field "spec" dec_ResourceSpec fs (""%string, ""%string, ""%string, RawEmpty) ;
  Ok (meta.1, meta.2, spec).

Definition dec_LeaseRequest (j : json) (old : string) : result string :=
  fs ?<- dec_object j ;
  chk ?<- known_fields strict ["ttl"]%string fs ;
  dec_field "ttl" dec_string fs old.

Definition dec_AcquireRequest (j : json) : result AcquireRequest :=
  fs ?<- dec_object j ;
  chk ?<- known_fields strict ["kind"; "class"; "quantity"; "constraints"; "exclusive"; "lease"; "maxWait";
                             "idempotencyKey"]%string fs ;
  kind ?<- dec_field "kind" dec_string fs ""%string ;
  class ?<- dec_field "class" dec_string fs ""%string ;
  quantity ?<- dec_field "quantity" dec_int64 fs 0 ;
  constraints ?<- dec_field "constraints" dec_raw fs RawEmpty ;
  exclusive ?<- dec_field "exclusive" dec_bool fs false ;
  ttl ?<- dec_field "lease" (dec_ptr ""%string dec_LeaseRequest) fs None ;
  wait ?<- dec_field "maxWait" dec_string fs ""%string ;
  key ?<- dec_field "idempotencyKey" dec_string fs ""%string ;
  Ok (MkAcquireRequest kind class quantity constraints exclusive ttl wait key).

(** [PoolManifest]: the name and the spec. *)
Definition dec_PoolManifest (j : json) : result (string * raw) :=
  fs ?<- dec_object j ;
  chk ?<- known_fields strict ["apiVersion"; "kind"; "metadata"; "spec"]%string fs ;
  chk ?<- dec_field "apiVersion" dec_string fs ""%string ;
  chk ?<- dec_field "kind" dec_string fs ""%string ;
  meta ?<- dec_field "metadata" dec_Metadata fs (""%string, ∅) ;
  spec ?<- dec_field "spec" dec_raw fs RawEmpty ;
  Ok (meta.1, spec).

Definition dec_ClassReclaim (j : json) (old : string * string * string) : result (string * string * string) :=
  let '(idle, park, del) := old in
  fs ?<- dec_object j ;
  chk ?<- known_fields strict ["idleAfter"; "park"; "deleteAfter"]%string fs ;
  idle ?<- dec_field "idleAfter" dec_string fs idle ;
  park ?<- dec_field "park" dec_string fs park ;
  del ?<- dec_field "deleteAfter" dec_string fs del ;
  Ok (idle, park, del).
Definition dec_ClassQueue (j : json) (old : string) : result string :=
  fs ?<- dec_object j ;
  chk ?<- known_fields strict ["maxWait"]%string fs ;
  dec_field "maxWait" dec_string fs old.
Definition dec_ClassScheduling (j : json) (old : option string) : result (option string) :=
  fs ?<- dec_object j ;
  chk ?<- known_fields strict ["queue"]%string fs ;
  dec_field "queue" (dec_ptr ""%string dec_ClassQueue) fs old.
Definition dec_ClassSpec (j : json) (old : ClassSpec) : result ClassSpec :=
  fs ?<- dec_object j ;
  chk ?<- known_fields strict ["kind"; "provider"; "template"; "reclaim"; "scheduling"]%string fs ;
  kind ?<- dec_field "kind" dec_string fs (cs_Kind old) ;
  prov ?<- dec_field "provider" dec_string fs (cs_Provider old) ;
  template ?<- dec_field "template" dec_raw fs (cs_Template old) ;
  reclaim ?<- dec_field "reclaim" (dec_ptr (""%string, ""%string, ""%string) dec_ClassReclaim) fs (cs_Reclaim old) ;
  sched ?<- dec_field "scheduling" (dec_ptr None dec_ClassScheduling) fs (Some <$> cs_MaxWait old) ;
  Ok (MkClassSpec kind prov template reclaim (mjoin sched)).
Definition dec_ClassManifest (j : json) : result (string * ClassSpec) :=
  fs ?<- dec_object j ;
  chk ?<- known_fields strict ["apiVersion"; "kind"; "metadata"; "spec"]%string fs ;
  chk ?<- dec_field "apiVersion" dec_string fs ""%string ;
  chk ?<- dec_field "kind" dec_string fs ""%string ;
  meta ?<- dec_field "metadata" dec_Metadata fs (""%string, ∅) ;
  spec ?<- dec_field "spec" dec_ClassSpec fs (MkClassSpec "" "" RawEmpty None None) ;
  Ok (meta.1, spec).
End requests.

(** [capacity.Constraints]: a dimension and its [min]. *)
Definition dec_min (j : json) (old : Z) : result Z :=
  fs ?<- dec_object j ; dec_field "min" dec_int64 fs old.
Definition constraints_col (r : raw) : jcol Vector :=
  match r with
  | RawEmpty => JNone
  | RawBad _ => JBad
  | RawDoc j => match dec_map 0 dec_min j with Ok v => JVal v | Err _ => JBad end
  end.

(** ** Envelopes *)

Definition acq_state_string (s : AcqState) : string :=
  match s with
  | AcqPending => "pending" | AcqProvisioning => "provisioning" | AcqBound => "bound"
  | AcqFailed => "failed" | AcqReleased => "released" | AcqExpired => "expired"
  end.
Definition AllAcqStates : list AcqState :=
  [AcqPending; AcqProvisioning; AcqBound; AcqFailed; AcqReleased; AcqExpired].
Definition ownership_string (o : Ownership) : string :=
  match o with
  | OwnershipManaged => "managed" | OwnershipAdopted => "adopted" | OwnershipObserved => "observed"
  end.
Definition op_kind_string (k : OpKind) : string :=
  match k with
  | OpKindCreate => "create" | OpKindDelete => "delete" | OpKindStop => "stop" | OpKindStart => "start"
  end.
Definition op_state_string (s : OpState) : string :=
  match s with
  | OpJournaled => "journaled" | OpInFlight => "in_flight" | OpExternalAccepted => "external_accepted"
  | OpVerifying => "verifying" | OpUncertain => "uncertain" | OpSucceeded => "succeeded"
  | OpFailed => "failed" | OpAborted => "aborted"
  end.

Definition fields (l : list (list (string * json))) : json := JObj (mjoin l).
Definition str (name s : string) : list (string * json) := [(name, JStr s)].

(** A timestamp that cannot be written fails the document; the zero time
    (January 1 of year 1) is omitted by [omitzero]. *)
Definition enc_time (ms : Z) : result json :=
  match rfc3339 ms with Some s => Ok (JStr s) | None => Err (EOther "json: year outside of range") end.
Definition time_field (name : string) (ms : Z) : result (list (string * json)) :=
  if decide (ms = -62135596800000) then Ok [] else j ?<- enc_time ms ; Ok [(name, j)].
Definition time_ptr (name : string) (t : option Z) : result (list (string * json)) :=
  match t with None => Ok [] | Some ms => j ?<- enc_time ms ; Ok [(name, j)] end.

(** [json.RawMessage]: with [omitempty], and without (nil is [null]). *)
Definition raw_opt (name : string) (r : raw) : result (list (string * json)) :=
  match r with
  | RawEmpty => Ok []
  | RawDoc j => Ok [(name, j)]
  | RawBad _ => Err (EOther "json: error calling MarshalJSON")
  end.
Definition raw_field (name : string) (r : raw) : result (list (string * json)) :=
  match r with RawEmpty => Ok [(name, JNull)] | _ => raw_opt name r end.
Definition col_opt {A} (name : string) (enc : A → json) (c : jcol A) : result (list (string * json)) :=
  match c with
  | JNone => Ok []
  | JVal a => Ok [(name, enc a)]
  | JBad => Err (EOther "json: error calling MarshalJSON")
  end.

Definition enc_ExternalRef (r : ExternalRef) : json :=
  fields [str "id" (ref_ID r); opt_map "extra" (ref_Extra r)].

Definition toEnvelope (r : Resource) : result json :=
  created ?<- time_field "createdAt" (r_CreatedAt r) ;
  updated ?<- time_field "updatedAt" (r_UpdatedAt r) ;
  deleted ?<- time_ptr "deletedAt" (r_DeletedAt r) ;
  machine ?<- raw_opt "machine" (r_Spec r) ;
  parked ?<- time_ptr "parkedAt" (r_ParkedAt r) ;
  ref ?<- col_opt "externalRef" enc_ExternalRef (r_ExternalRef r) ;
  cap ?<- col_opt "capacity" (enc_map JInt) (r_Capacity r) ;
  Ok (fields
    [str "apiVersion" APIVersion; str "kind" "Resource";
     [("metadata"%string, fields
        [str "id" (r_ID r); opt_string "name" (r_Name r); opt_map "labels" (r_Labels r);
         opt_string "ownership" (ownership_string (r_Ownership r));
         opt_field (r_DeleteProtected r) "protected" (JBool true);
         opt_int "generation" (r_Generation r); opt_int "observedGeneration" (r_ObservedGeneration r);
         created; updated; deleted])];
     [("spec"%string, fields
        [str "kind" (r_Kind r); str "provider" (r_Provider r); opt_string "class" (r_Class r); machine])];
     [("status"%string, fields
        [str "phase" (phase_string (r_Phase r)); opt_string "externalId" (default "" (r_ExternalID r))%string;
         parked; ref; cap; opt_ptr "extensions" id (r_Extension r)])]]).

Definition toAcqEnvelope (a : Acquisition) : result json :=
  created ?<- time_field "createdAt" (a_CreatedAt a) ;
  updated ?<- time_field "updatedAt" (a_UpdatedAt a) ;
  wait ?<- (match ParseRequest (a_Constraints a) with
            | Ok (req, _, _) =>
                if decide (0 < rq_MaxWaitMs req) then
                  dl ?<- enc_time (a_CreatedAt a + rq_MaxWaitMs req) ;
                  Ok (str "maxWait" (Duration_String (mul64 (rq_MaxWaitMs req) Millisecond))
                      ++ [("queueDeadline"%string, dl)])
                else Ok []
            | Err _ => Ok []
            end) ;
  Ok (fields
    [str "apiVersion" APIVersion; str "kind" "Acquisition"; str "id" (a_ID a);
     str "state" (acq_state_string (a_State a)); opt_string "class" (a_Class a);
     opt_string "resourceKind" (a_Kind a); opt_string "resourceId" (default "" (a_PendingResourceID a))%string;
     opt_string "leaseId" (default "" (a_LeaseID a))%string; opt_string "actor" (a_Actor a);
     wait; created; updated]).

Definition toPoolEnvelope (p : Pool) : result json :=
  created ?<- time_field "createdAt" (p_CreatedAt p) ;
  updated ?<- time_field "updatedAt" (p_UpdatedAt p) ;
  spec ?<- raw_field "spec" (p_Spec p) ;
  Ok (fields
    [str "apiVersion" APIVersion; str "kind" "Pool";
     [("metadata"%string, fields
        [str "id" (p_ID p); opt_string "name" (p_Name p); opt_int "generation" (p_Generation p);
         opt_int "observedGeneration" (p_ObservedGeneration p); created; updated])];
     spec; opt_field (p_Paused p) "paused" (JBool true)]).

Definition toOpEnvelope (op : Operation) : result json :=
  created ?<- time_field "createdAt" (o_CreatedAt op) ;
  updated ?<- time_field "updatedAt" (o_UpdatedAt op) ;
  Ok (fields
    [str "id" (o_ID op); str "kind" (op_kind_string (o_Kind op)); str "state" (op_state_string (o_State op));
     opt_string "provider" (o_Provider op); opt_string "resourceId" (default "" (o_ResourceID op))%string;
     opt_int "attempt" (o_Attempt op);
     opt_string "errorClass" (match o_ErrorClass op with Some c => class_string c | None => ""%string end);
     created; updated]).

Definition ms_string (ms : Z) : string := Duration_String (mul64 ms Millisecond).

Definition toClassEnvelope (rec : ClassRecord) : result json :=
  created ?<- time_field "createdAt" (c_CreatedAt rec) ;
  updated ?<- time_field "updatedAt" (c_UpdatedAt rec) ;
  template ?<- raw_field "template" (c_Spec rec) ;
  let reclaim :=
    opt_field (is_some (c_ReclaimIdleAfterMs rec) || negb (bool_decide (c_ReclaimPark rec = ""%string))
               || is_some (c_ReclaimDeleteAfterMs rec)) "reclaim"
      (fields [opt_string "idleAfter" (match c_ReclaimIdleAfterMs rec with Some d => ms_string d | None => ""%string end);
               opt_string "park" (c_ReclaimPark rec);
               opt_string "deleteAfter"
                 (match c_ReclaimDeleteAfterMs rec with Some d => ms_string d | None => ""%string end)]) in
  let sched := opt_ptr "scheduling"
    (λ ms, fields [[("queue"%string, fields [opt_string "maxWait" (ms_string ms)])]]) (c_QueueMaxWaitMs rec) in
  Ok (fields
    [str "apiVersion" APIVersion; str "kind" "Class";
     [("metadata"%string, fields [str "id" ""; opt_string "name" (c_Name rec); created; updated])];
     [("spec"%string, fields
        [str "kind" (c_Kind rec); str "provider" (c_Provider rec); template; reclaim; sched])];
     str "source" (c_Source rec)]).

Definition toEvent (ev : string * Event) : result json :=
  ts ?<- enc_time (e_TS ev.2) ;
  Ok (fields
    [str "id" ev.1; [("ts"%string, ts)]; str "type" (e_Type ev.2); opt_string "actor" (e_Actor ev.2);
     opt_string "outcome" (e_Outcome ev.2); opt_string "provider" (e_Provider ev.2);
     opt_string "resourceId" (default "" (e_ResourceID ev.2))%string;
     opt_string "operationId" (default "" (e_OperationID ev.2))%string]).

(** [Items]: one document per row, never null. *)
Fixpoint enc_all {A} (enc : A → result json) (l : list A) : result (list json) :=
  match l with
  | [] => Ok []
  | x :: l => j ?<- enc x ; js ?<- enc_all enc l ; Ok (j :: js)
  end.
Definition enc_list {A} (kind : string) (enc : A → result json) (l : list A) : result json :=
  items ?<- enc_all enc l ;
  Ok (fields [str "apiVersion" APIVersion; str "kind" kind; [("items"%string, JArr items)]]).

(** [b, _ := json.Marshal(v)]: the bytes, or nil. *)
Definition marshalled (j : result json) : option string :=
  match j with Ok j => Some (print j) | Err _ => None end.
