(* ===== verification/ClientTypes.v ===== *)
(** * The wire types of the API client (pkg/apiclient/types.go, types_more.go)

    The envelopes as the client reads and writes them; the server's own view
    of the same documents is Wire.v. A timestamp is the text it travels as,
    [None] for the zero time; nil and empty maps are not told apart, nor is a
    [scheduling] object without a queue from none. *)

From stdpp Require Import base gmap strings list.
From S2P Require Import Prelude Errors Json SDK Kinds Marshal Text Wire.

Import compute SpecFacts.

(** A slice is [None] if it is nil. *)
Abbreviation slice A := (option (list A)).
Record Metadata := MkMeta {
  md_ID : string; md_Name : string; md_Labels : gmap string string; md_Ownership : string; md_Protected : bool;
  md_Generation : Z; md_ObservedGeneration : Z;
  md_CreatedAt : option string; md_UpdatedAt : option string; md_DeletedAt : option string }.
Definition zeroMetadata : Metadata := MkMeta "" "" ∅ "" false 0 0 None None None.
#[global] Instance Metadata_eq_dec : EqDecision Metadata.
Proof. solve_decision. Defined.

Record ResourceSpec := MkResourceSpec { rs_Kind : string; rs_Provider : string; rs_Class : string; rs_Machine : raw }.
Record ResourceStatus := MkResourceStatus {
  rt_Phase : string; rt_ExternalID : string; rt_ParkedAt : option string;
  rt_ExternalRef : raw; rt_Capacity : raw; rt_Extensions : raw }.
Record Resource := MkResource {
  re_APIVersion : string; re_Kind : string; re_Metadata : Metadata; re_Spec : ResourceSpec; re_Status : ResourceStatus }.
Record CreateResourceRequest := MkCreateRequest {
  cq_APIVersion : string; cq_Kind : string; cq_Metadata : Metadata; cq_Spec : ResourceSpec }.
Record ErrorDetail := MkErrorDetail {
  ed_Code : string; ed_Message : string; ed_RequestID : string; ed_Retryable : bool; ed_RetryAfterSeconds : Z;
  ed_Details : raw }.
Record Acquisition := MkAcquisition {
  aq_APIVersion : string; aq_Kind : string; aq_ID : string; aq_State : string; aq_Class : string;
  aq_ResourceKind : string; aq_ResourceID : string; aq_LeaseID : string; aq_Actor : string; aq_MaxWait : string;
  aq_QueueDeadline : option string; aq_CreatedAt : option string; aq_UpdatedAt : option string }.
Record PoolManifest := MkPoolManifest {
  pm_APIVersion : string; pm_Kind : string; pm_Metadata : Metadata; pm_Spec : raw }.
Record Pool := MkPool {
  po_APIVersion : string; po_Kind : string; po_Metadata : Metadata; po_Spec : raw; po_Paused : bool }.
Record Operation := MkOperation {
  op_ID : string; op_Kind : string; op_State : string; op_Provider : string; op_ResourceID : string;
  op_Attempt : Z; op_ErrorClass : string; op_CreatedAt : option string; op_UpdatedAt : option string }.
Record Event := MkEvent {
  ev_ID : string; ev_TS : option string; ev_Type : string; ev_Actor : string; ev_Outcome : string;
  ev_Provider : string; ev_ResourceID : string; ev_OperationID : string }.
Record ClassManifest := MkClassManifest {
  cm_APIVersion : string; cm_Kind : string; cm_Metadata : Metadata; cm_Spec : ClassSpec }.
Record Class_ := MkClass {
  cl_APIVersion : string; cl_Kind : string; cl_Metadata : Metadata; cl_Spec : ClassSpec; cl_Source : string }.
Record ProviderHealth := MkProviderHealth {
  pv_Instance : string; pv_Driver : string; pv_State : string; pv_LastError : string; pv_ConsecutiveFailures : Z }.

(** ** Writing *)

Definition opt_bool (name : string) (b : bool) : list (string * json) := opt_field b name (JBool true).
Definition opt_time (name : string) (t : option string) : list (string * json) := opt_ptr name JStr t.

Definition enc_Metadata (m : Metadata) : json := fields
  [str "id" (md_ID m); opt_string "name" (md_Name m); opt_map "labels" (md_Labels m);
   opt_string "ownership" (md_Ownership m); opt_bool "protected" (md_Protected m);
   opt_int "generation" (md_Generation m); opt_int "observedGeneration" (md_ObservedGeneration m);
   opt_time "createdAt" (md_CreatedAt m); opt_time "updatedAt" (md_UpdatedAt m); opt_time "deletedAt" (md_DeletedAt m)].
(** [omitzero]. *)
Definition opt_Metadata (m : Metadata) : list (string * json) :=
  opt_field (negb (bool_decide (m = zeroMetadata))) "metadata" (enc_Metadata m).

Definition enc_ResourceSpec (s : ResourceSpec) : result json :=
  machine ?<- raw_opt "machine" (rs_Machine s) ;
  Ok (fields [str "kind" (rs_Kind s); str "provider" (rs_Provider s); opt_string "class" (rs_Class s); machine]).
Definition enc_ResourceStatus (s : ResourceStatus) : result json :=
  ref ?<- raw_opt "externalRef" (rt_ExternalRef s) ;
  cap ?<- raw_opt "capacity" (rt_Capacity s) ;
  ext ?<- raw_opt "extensions" (rt_Extensions s) ;
  Ok (fields [str "phase" (rt_Phase s); opt_string "externalId" (rt_ExternalID s); opt_time "parkedAt" (rt_ParkedAt s);
              ref; cap; ext]).
(** The status is [omitzero]: left out when none of its fields is set. *)
Definition zero_status (s : ResourceStatus) : bool :=
  match s with MkResourceStatus "" "" None RawEmpty RawEmpty RawEmpty => true | _ => false end.
Definition enc_Resource (r : Resource) : result json :=
  spec ?<- enc_ResourceSpec (re_Spec r) ;
  status ?<- enc_ResourceStatus (re_Status r) ;
  Ok (fields [str "apiVersion" (re_APIVersion r); str "kind" (re_Kind r); [("metadata"%string, enc_Metadata (re_Metadata r))];
              [("spec"%string, spec)]; opt_field (negb (zero_status (re_Status r))) "status" status]).
Definition enc_CreateResourceRequest (r : CreateResourceRequest) : result json :=
  spec ?<- enc_ResourceSpec (cq_Spec r) ;
  Ok (fields [opt_string "apiVersion" (cq_APIVersion r); opt_string "kind" (cq_Kind r); opt_Metadata (cq_Metadata r);
              [("spec"%string, spec)]]).
Definition enc_LeaseRequest (ttl : string) : json := fields [opt_string "ttl" ttl].
Definition enc_AcquireRequest (r : AcquireRequest) : result json :=
  constraints ?<- raw_opt "constraints" (ar_Constraints r) ;
  Ok (fields [opt_string "kind" (ar_Kind r); opt_string "class" (ar_Class r); opt_int "quantity" (ar_Quantity r);
              constraints; opt_bool "exclusive" (ar_Exclusive r); opt_ptr "lease" enc_LeaseRequest (ar_TTL r);
              opt_string "maxWait" (ar_MaxWait r); opt_string "idempotencyKey" (ar_IdempotencyKey r)]).
Definition enc_Acquisition (a : Acquisition) : json := fields
  [str "apiVersion" (aq_APIVersion a); str "kind" (aq_Kind a); str "id" (aq_ID a); str "state" (aq_State a);
   opt_string "class" (aq_Class a); opt_string "resourceKind" (aq_ResourceKind a);
   opt_string "resourceId" (aq_ResourceID a); opt_string "leaseId" (aq_LeaseID a); opt_string "actor" (aq_Actor a);
   opt_string "maxWait" (aq_MaxWait a); opt_time "queueDeadline" (aq_QueueDeadline a);
   opt_time "createdAt" (aq_CreatedAt a); opt_time "updatedAt" (aq_UpdatedAt a)].
Definition enc_PoolManifest (m : PoolManifest) : result json :=
  spec ?<- raw_field "spec" (pm_Spec m) ;
  Ok (fields [opt_string "apiVersion" (pm_APIVersion m); opt_string "kind" (pm_Kind m); opt_Metadata (pm_Metadata m); spec]).
Definition enc_Pool (p : Pool) : result json :=
  spec ?<- raw_field "spec" (po_Spec p) ;
  Ok (fields [str "apiVersion" (po_APIVersion p); str "kind" (po_Kind p); [("metadata"%string, enc_Metadata (po_Metadata p))];
              spec; opt_bool "paused" (po_Paused p)]).
Definition enc_Operation (o : Operation) : json := fields
  [str "id" (op_ID o); str "kind" (op_Kind o); str "state" (op_State o); opt_string "provider" (op_Provider o);
   opt_string "resourceId" (op_ResourceID o); opt_int "attempt" (op_Attempt o); opt_string "errorClass" (op_ErrorClass o);
   opt_time "createdAt" (op_CreatedAt o); opt_time "updatedAt" (op_UpdatedAt o)].
(** A zero timestamp is written in full where nothing omits it. *)
Definition enc_Event (e : Event) : json := fields
  [str "id" (ev_ID e); str "ts" (default "0001-01-01T00:00:00Z"%string (ev_TS e)); str "type" (ev_Type e);
   opt_string "actor" (ev_Actor e); opt_string "outcome" (ev_Outcome e); opt_string "provider" (ev_Provider e);
   opt_string "resourceId" (ev_ResourceID e); opt_string "operationId" (ev_OperationID e)].
Definition enc_reclaim (r : string * string * string) : json :=
  let '(idle, park, del) := r in
  fields [opt_string "idleAfter" idle; opt_string "park" park; opt_string "deleteAfter" del].
Definition enc_scheduling (wait : string) : json :=
  fields [[("queue"%string, fields [opt_string "maxWait" wait])]].
Definition enc_ClassSpec (s : ClassSpec) : result json :=
  template ?<- raw_field "template" (cs_Template s) ;
  Ok (fields [str "kind" (cs_Kind s); str "provider" (cs_Provider s); template;
              opt_ptr "reclaim" enc_reclaim (cs_Reclaim s); opt_ptr "scheduling" enc_scheduling (cs_MaxWait s)]).
Definition enc_ClassManifest (m : ClassManifest) : result json :=
  spec ?<- enc_ClassSpec (cm_Spec m) ;
  Ok (fields [opt_string "apiVersion" (cm_APIVersion m); opt_string "kind" (cm_Kind m); opt_Metadata (cm_Metadata m);
              [("spec"%string, spec)]]).
Definition enc_Class (c : Class_) : result json :=
  spec ?<- enc_ClassSpec (cl_Spec c) ;
  Ok (fields [str "apiVersion" (cl_APIVersion c); str "kind" (cl_Kind c); [("metadata"%string, enc_Metadata (cl_Metadata c))];
              [("spec"%string, spec)]; str "source" (cl_Source c)]).
Definition enc_ProviderHealth (p : ProviderHealth) : json := fields
  [str "instance" (pv_Instance p); str "driver" (pv_Driver p); str "state" (pv_State p);
   opt_string "lastError" (pv_LastError p); [("consecutiveFailures"%string, JInt (pv_ConsecutiveFailures p))]].

(** ** Reading *)

Section reading.
Context `{TimeText}.

Definition dec_Time (j : json) (old : option string) : result (option string) :=
  match j with
  | JNull => Ok old
  | JStr s => if valid_time s then Ok (if decide (s = "0001-01-01T00:00:00Z"%string) then None else Some s)
              else Err (EOther "parsing time")
  | _ => type_error
  end.
(** [*time.Time]. *)
Definition dec_TimePtr (j : json) (old : option string) : result (option string) :=
  match j with
  | JNull => Ok None
  | JStr s => if valid_time s then Ok (Some s) else Err (EOther "parsing time")
  | _ => type_error
  end.

Definition read_Metadata (j : json) (old : Metadata) : result Metadata :=
  fs ?<- dec_object j ;
  id ?<- dec_field "id" dec_string fs (md_ID old) ;
  name ?<- dec_field "name" dec_string fs (md_Name old) ;
  labels ?<- dec_field "labels" dec_labels fs (md_Labels old) ;
  own ?<- dec_field "ownership" dec_string fs (md_Ownership old) ;
  prot ?<- dec_field "protected" dec_bool fs (md_Protected old) ;
  gen ?<- dec_field "generation" dec_int64 fs (md_Generation old) ;
  obs ?<- dec_field "observedGeneration" dec_int64 fs (md_ObservedGeneration old) ;
  created ?<- dec_field "createdAt" dec_Time fs (md_CreatedAt old) ;
  updated ?<- dec_field "updatedAt" dec_Time fs (md_UpdatedAt old) ;
  deleted ?<- dec_field "deletedAt" dec_TimePtr fs (md_DeletedAt old) ;
  Ok (MkMeta id name labels own prot gen obs created updated deleted).
Definition read_ResourceSpec (j : json) (old : ResourceSpec) : result ResourceSpec :=
  fs ?<- dec_object j ;
  kind ?<- dec_field "kind" dec_string fs (rs_Kind old) ;
  prov ?<- dec_field "provider" dec_string fs (rs_Provider old) ;
  class ?<- dec_field "class" dec_string fs (rs_Class old) ;
  machine ?<- dec_field "machine" dec_raw fs (rs_Machine old) ;
  Ok (MkResourceSpec kind prov class machine).
Definition zeroSpec : ResourceSpec := MkResourceSpec "" "" "" RawEmpty.
Definition read_ResourceStatus (j : json) (old : ResourceStatus) : result ResourceStatus :=
  fs ?<- dec_object j ;
  phase ?<- dec_field "phase" dec_string fs (rt_Phase old) ;
  ext ?<- dec_field "externalId" dec_string fs (rt_ExternalID old) ;
  parked ?<- dec_field "parkedAt" dec_TimePtr fs (rt_ParkedAt old) ;
  ref ?<- dec_field "externalRef" dec_raw fs (rt_ExternalRef old) ;
  cap ?<- dec_field "capacity" dec_raw fs (rt_Capacity old) ;
  exts ?<- dec_field "extensions" dec_raw fs (rt_Extensions old) ;
  Ok (MkResourceStatus phase ext parked ref cap exts).
Definition zeroStatus : ResourceStatus := MkResourceStatus "" "" None RawEmpty RawEmpty RawEmpty.
Definition read_Resource (j : json) (old : Resource) : result Resource :=
  fs ?<- dec_object j ;
  version ?<- dec_field "apiVersion" dec_string fs (re_APIVersion old) ;
  kind ?<- dec_field "kind" dec_string fs (re_Kind old) ;
  meta ?<- dec_field "metadata" read_Metadata fs (re_Metadata old) ;
  spec ?<- dec_field "spec" read_ResourceSpec fs (re_Spec old) ;
  status ?<- dec_field "status" read_ResourceStatus fs (re_Status old) ;
  Ok (MkResource version kind meta spec status).
Definition zeroResource : Resource := MkResource "" "" zeroMetadata zeroSpec zeroStatus.
Definition read_CreateResourceRequest (j : json) (old : CreateResourceRequest) : result CreateResourceRequest :=
  fs ?<- dec_object j ;
  version ?<- dec_field "apiVersion" dec_string fs (cq_APIVersion old) ;
  kind ?<- dec_field "kind" dec_string fs (cq_Kind old) ;
  meta ?<- dec_field "metadata" read_Metadata fs (cq_Metadata old) ;
  spec ?<- dec_field "spec" read_ResourceSpec fs (cq_Spec old) ;
  Ok (MkCreateRequest version kind meta spec).
Definition zeroCreate : CreateResourceRequest := MkCreateRequest "" "" zeroMetadata zeroSpec.
Definition read_Acquisition (j : json) (old : Acquisition) : result Acquisition :=
  fs ?<- dec_object j ;
  version ?<- dec_field "apiVersion" dec_string fs (aq_APIVersion old) ;
  kind ?<- dec_field "kind" dec_string fs (aq_Kind old) ;
  id ?<- dec_field "id" dec_string fs (aq_ID old) ;
  state ?<- dec_field "state" dec_string fs (aq_State old) ;
  class ?<- dec_field "class" dec_string fs (aq_Class old) ;
  rkind ?<- dec_field "resourceKind" dec_string fs (aq_ResourceKind old) ;
  res ?<- dec_field "resourceId" dec_string fs (aq_ResourceID old) ;
  lease ?<- dec_field "leaseId" dec_string fs (aq_LeaseID old) ;
  actor ?<- dec_field "actor" dec_string fs (aq_Actor old) ;
  wait ?<- dec_field "maxWait" dec_string fs (aq_MaxWait old) ;
  deadline ?<- dec_field "queueDeadline" dec_TimePtr fs (aq_QueueDeadline old) ;
  created ?<- dec_field "createdAt" dec_Time fs (aq_CreatedAt old) ;
  updated ?<- dec_field "updatedAt" dec_Time fs (aq_UpdatedAt old) ;
  Ok (MkAcquisition version kind id state class rkind res lease actor wait deadline created updated).
Definition zeroAcquisition : Acquisition := MkAcquisition "" "" "" "" "" "" "" "" "" "" None None None.
Definition read_PoolManifest (j : json) (old : PoolManifest) : result PoolManifest :=
  fs ?<- dec_object j ;
  version ?<- dec_field "apiVersion" dec_string fs (pm_APIVersion old) ;
  kind ?<- dec_field "kind" dec_string fs (pm_Kind old) ;
  meta ?<- dec_field "metadata" read_Metadata fs (pm_Metadata old) ;
  spec ?<- dec_field "spec" dec_raw fs (pm_Spec old) ;
  Ok (MkPoolManifest version kind meta spec).
Definition zeroPoolManifest : PoolManifest := MkPoolManifest "" "" zeroMetadata RawEmpty.
Definition read_Pool (j : json) (old : Pool) : result Pool :=
  fs ?<- dec_object j ;
  version ?<- dec_field "apiVersion" dec_string fs (po_APIVersion old) ;
  kind ?<- dec_field "kind" dec_string fs (po_Kind old) ;
  meta ?<- dec_field "metadata" read_Metadata fs (po_Metadata old) ;
  spec ?<- dec_field "spec" dec_raw fs (po_Spec old) ;
  paused ?<- dec_field "paused" dec_bool fs (po_Paused old) ;
  Ok (MkPool version kind meta spec paused).
Definition zeroPool : Pool := MkPool "" "" zeroMetadata RawEmpty false.
Definition read_Operation (j : json) (old : Operation) : result Operation :=
  fs ?<- dec_object j ;
  id ?<- dec_field "id" dec_string fs (op_ID old) ;
  kind ?<- dec_field "kind" dec_string fs (op_Kind old) ;
  state ?<- dec_field "state" dec_string fs (op_State old) ;
  prov ?<- dec_field "provider" dec_string fs (op_Provider old) ;
  res ?<- dec_field "resourceId" dec_string fs (op_ResourceID old) ;
  attempt ?<- dec_field "attempt" dec_int64 fs (op_Attempt old) ;
  class ?<- dec_field "errorClass" dec_string fs (op_ErrorClass old) ;
  created ?<- dec_field "createdAt" dec_Time fs (op_CreatedAt old) ;
  updated ?<- dec_field "updatedAt" dec_Time fs (op_UpdatedAt old) ;
  Ok (MkOperation id kind state prov res attempt class created updated).
Definition zeroOperation : Operation := MkOperation "" "" "" "" "" 0 "" None None.
Definition read_Event (j : json) (old : Event) : result Event :=
  fs ?<- dec_object j ;
  id ?<- dec_field "id" dec_string fs (ev_ID old) ;
  ts ?<- dec_field "ts" dec_Time fs (ev_TS old) ;
  type ?<- dec_field "type" dec_string fs (ev_Type old) ;
  actor ?<- dec_field "actor" dec_string fs (ev_Actor old) ;
  outcome ?<- dec_field "outcome" dec_string fs (ev_Outcome old) ;
  prov ?<- dec_field "provider" dec_string fs (ev_Provider old) ;
  res ?<- dec_field "resourceId" dec_string fs (ev_ResourceID old) ;
  op ?<- dec_field "operationId" dec_string fs (ev_OperationID old) ;
  Ok (MkEvent id ts type actor outcome prov res op).
Definition zeroEvent : Event := MkEvent "" None "" "" "" "" "" "".
Definition zeroClassSpec : ClassSpec := MkClassSpec "" "" RawEmpty None None.
Definition read_ClassManifest (j : json) (old : ClassManifest) : result ClassManifest :=
  fs ?<- dec_object j ;
  version ?<- dec_field "apiVersion" dec_string fs (cm_APIVersion old) ;
  kind ?<- dec_field "kind" dec_string fs (cm_Kind old) ;
  meta ?<- dec_field "metadata" read_Metadata fs (cm_Metadata old) ;
  spec ?<- dec_field "spec" (dec_ClassSpec false) fs (cm_Spec old) ;
  Ok (MkClassManifest version kind meta spec).
Definition zeroClassManifest : ClassManifest := MkClassManifest "" "" zeroMetadata zeroClassSpec.
Definition read_Class (j : json) (old : Class_) : result Class_ :=
  fs ?<- dec_object j ;
  version ?<- dec_field "apiVersion" dec_string fs (cl_APIVersion old) ;
  kind ?<- dec_field "kind" dec_string fs (cl_Kind old) ;
  meta ?<- dec_field "metadata" read_Metadata fs (cl_Metadata old) ;
  spec ?<- dec_field "spec" (dec_ClassSpec false) fs (cl_Spec old) ;
  source ?<- dec_field "source" dec_string fs (cl_Source old) ;
  Ok (MkClass version kind meta spec source).
Definition zeroClass : Class_ := MkClass "" "" zeroMetadata zeroClassSpec "".
Definition read_ProviderHealth (j : json) (old : ProviderHealth) : result ProviderHealth :=
  fs ?<- dec_object j ;
  instance ?<- dec_field "instance" dec_string fs (pv_Instance old) ;
  driver ?<- dec_field "driver" dec_string fs (pv_Driver old) ;
  state ?<- dec_field "state" dec_string fs (pv_State old) ;
  last ?<- dec_field "lastError" dec_string fs (pv_LastError old) ;
  failures ?<- dec_field "consecutiveFailures" dec_int64 fs (pv_ConsecutiveFailures old) ;
  Ok (MkProviderHealth instance driver state last failures).
Definition zeroHealth : ProviderHealth := MkProviderHealth "" "" "" "" 0.

(** Each element decoded from zero; [null] is nil. *)
Fixpoint read_each {A} (zero : A) (d : json → A → result A) (l : list json) : result (list A) :=
  match l with
  | [] => Ok []
  | j :: l => a ?<- d j zero ; rest ?<- read_each zero d l ; Ok (a :: rest)
  end.
Definition read_slice {A} (zero : A) (d : json → A → result A) (j : json) (old : slice A) : result (slice A) :=
  match j with JArr l => as_ ?<- read_each zero d l ; Ok (Some as_) | JNull => Ok None | _ => type_error end.
(** A list envelope; its items are what the callers use. *)
Definition read_items {A} (zero : A) (d : json → A → result A) (j : json) : result (slice A) :=
  fs ?<- dec_object j ; dec_field "items" (read_slice zero d) fs None.
(** [ResourceList] and the like: version and kind are decoded as well. *)
Record List_ (A : Type) := MkList { li_APIVersion : string; li_Kind : string; li_Items : slice A }.
Arguments MkList {A}.
Arguments li_APIVersion {A}.
Arguments li_Kind {A}.
Arguments li_Items {A}.
Definition read_List {A} (zero : A) (d : json → A → result A) (j : json) : result (List_ A) :=
  fs ?<- dec_object j ;
  version ?<- dec_field "apiVersion" dec_string fs ""%string ;
  kind ?<- dec_field "kind" dec_string fs ""%string ;
  items ?<- dec_field "items" (read_slice zero d) fs None ;
  Ok (MkList version kind items).
End reading.
Arguments MkList {A}.
Arguments li_APIVersion {A}.
Arguments li_Kind {A}.
Arguments li_Items {A}.

(** The error body: what does not decode keeps its zero value, the error of
    [json.Unmarshal] being dropped. *)
Definition soft {A} (d : json → A → result A) (j : json) (old : A) : result A :=
  match d j old with Ok a => Ok a | Err _ => Ok old end.
Definition zeroDetail : ErrorDetail := MkErrorDetail "" "" "" false 0 RawEmpty.
Definition read_ErrorDetail (j : json) (old : ErrorDetail) : result ErrorDetail :=
  fs ?<- dec_object j ;
  code ?<- dec_field "code" (soft dec_string) fs (ed_Code old) ;
  msg ?<- dec_field "message" (soft dec_string) fs (ed_Message old) ;
  req ?<- dec_field "requestId" (soft dec_string) fs (ed_RequestID old) ;
  retry ?<- dec_field "retryable" (soft dec_bool) fs (ed_Retryable old) ;
  after ?<- dec_field "retryAfterSeconds" (soft dec_int64) fs (ed_RetryAfterSeconds old) ;
  details ?<- dec_field "details" dec_raw fs (ed_Details old) ;
  Ok (MkErrorDetail code msg req retry after details).
Definition read_ErrorBody (body : string) : ErrorDetail :=
  match unmarshal body with
  | Ok (JObj fs) =>
      match dec_field "error" (soft read_ErrorDetail) fs zeroDetail with Ok d => d | Err _ => zeroDetail end
  | _ => zeroDetail
  end.
Definition enc_ErrorBody (d : ErrorDetail) : result json :=
  details ?<- raw_opt "details" (ed_Details d) ;
  Ok (fields [[("error"%string, fields
    [str "code" (ed_Code d); str "message" (ed_Message d); opt_string "requestId" (ed_RequestID d);
     [("retryable"%string, JBool (ed_Retryable d))]; opt_int "retryAfterSeconds" (ed_RetryAfterSeconds d); details])]]).
