(* ===== verification/Client.v ===== *)
(** * The API client (pkg/apiclient/client.go, client_more.go)

    One HTTP exchange is the class [RoundTrip]: what comes back for a request,
    if anything does, and the state it leaves. Every method of the client is
    the request it makes and the way it reads the answer. *)

From stdpp Require Import base gmap strings list pretty.
From S2P Require Import Prelude Errors Json SDK Kinds Marshal Text Url Wire ClientTypes.

Import compute.

Record Request := MkRequest {
  q_Method : string; q_URL : string; q_ContentType : bool; q_IdempotencyKey : string; q_Authorization : string;
  q_Body : string }.

(** A status and a body, or an error of [http.Client.Do]. *)
Class RoundTrip (S : Type) := round_trip : Request → S → option (Z * string) * S.

Record Client := MkClient { c_base : string; c_token : string }.

Inductive failure :=
| APIError (status : Z) (body : ErrorDetail)
| Transport            (* the request was not made or not answered *)
| Encoding (e : err)   (* the request's document *)
| Decoding (e : err).  (* the answer's *)

Definition C (S A : Type) : Type := S → (failure + A) * S.
Definition okC {S A} (a : A) : C S A := λ s, (inr a, s).
Definition failC {S A} (f : failure) : C S A := λ s, (inl f, s).
Definition bindC {S A B} (m : C S A) (k : A → C S B) : C S B := λ s,
  match m s with
  | (inr a, s) => k a s
  | (inl f, s) => (inl f, s)
  end.

(** [io.ReadAll] of an [io.LimitReader]. *)
Definition limit : Z := 4194304.
Definition cut (body : string) : string :=
  if decide (Z.of_nat (String.length body) ≤ limit) then body else String.substring 0 (Z.to_nat limit) body.

Record ResourceFilter := MkResourceFilter {
  f_Kind : string; f_Class : string; f_Provider : string; f_Pool : string; f_Phases : list string }.
Definition query (f : ResourceFilter) : Values :=
  let set k v (q : Values) := if decide (v = ""%string) then q else Values_Set k v q in
  let q := set "pool" (f_Pool f) (set "provider" (f_Provider f) (set "class" (f_Class f) (set "kind" (f_Kind f) ∅))) in
  foldl (λ q p, Values_Add "phase" p q) q (f_Phases f).
Definition withQuery (path : string) (q : Values) : string :=
  let enc := Values_Encode q in if decide (enc = ""%string) then path else (path +:+ "?" +:+ enc)%string.

Section client.
Context {S : Type} `{RoundTrip S} `{TimeText} (c : Client).

(** The request of a call: its body is the document, if it has one. *)
Definition request (method path : string) (body : option string) (idemKey : string) : Request :=
  MkRequest method (c_base c +:+ path) (is_some body) idemKey
    (if decide (c_token c = ""%string) then ""%string else "Bearer " +:+ c_token c)%string (default ""%string body).

(** What is made of an answer: a status of 300 or more is the error its body
    holds; otherwise [out] reads the body, cut at four mebibytes. *)
Definition answered {A} (out : string → result A) (reply : option (Z * string)) : failure + A :=
  match reply with
  | None => inl Transport
  | Some (status, body) =>
      let raw := cut body in
      if decide (300 ≤ status) then inl (APIError status (read_ErrorBody raw))
      else match out raw with Ok a => inr a | Err e => inl (Decoding e) end
  end.
Definition do_ {A} (method path : string) (inp : option (result json)) (idemKey : string) (out : string → result A) : C S A :=
  let go body := λ s, let '(reply, s) := round_trip (request method path body idemKey) s in (answered out reply, s) in
  match inp with
  | None => go None
  | Some (Ok j) => go (Some (print j))
  | Some (Err e) => failC (Encoding e)
  end.

(** [json.Unmarshal(raw, out)], or no [out]. *)
Definition into {A} (zero : A) (d : json → A → result A) (raw : string) : result A :=
  j ?<- unmarshal raw ; d j zero.
Definition nothing (raw : string) : result unit := Ok tt.

(** ** Resources *)

Definition CreateResource (req : CreateResourceRequest) (idemKey : string) : C S Resource :=
  do_ "POST" "/v1/resources" (Some (enc_CreateResourceRequest req)) idemKey (into zeroResource read_Resource).
Definition GetResource (id : string) : C S Resource :=
  do_ "GET" ("/v1/resources/" +:+ id) None "" (into zeroResource read_Resource).
Definition ListResources (f : ResourceFilter) : C S (List_ Resource) :=
  do_ "GET" (withQuery "/v1/resources" (query f)) None "" (λ raw, j ?<- unmarshal raw ; read_List zeroResource read_Resource j).
Definition DeleteResource (id idemKey : string) : C S unit :=
  do_ "DELETE" ("/v1/resources/" +:+ id) None idemKey nothing.
Definition DrainResource (id : string) : C S unit := do_ "POST" ("/v1/resources/" +:+ id +:+ ":drain") None "" nothing.
Definition UndrainResource (id : string) : C S unit := do_ "POST" ("/v1/resources/" +:+ id +:+ ":undrain") None "" nothing.
Definition ProtectResource (id : string) : C S unit := do_ "POST" ("/v1/resources/" +:+ id +:+ ":protect") None "" nothing.
Definition UnprotectResource (id : string) : C S unit := do_ "POST" ("/v1/resources/" +:+ id +:+ ":unprotect") None "" nothing.
Definition ParkResource (id : string) : C S unit := do_ "POST" ("/v1/resources/" +:+ PathEscape id +:+ ":park") None "" nothing.
Definition StartResource (id : string) : C S unit := do_ "POST" ("/v1/resources/" +:+ PathEscape id +:+ ":start") None "" nothing.

(** ** Acquisitions *)

Definition Acquire (req : AcquireRequest) (idemKey : string) : C S Acquisition :=
  do_ "POST" "/v1/acquisitions" (Some (enc_AcquireRequest req)) idemKey (into zeroAcquisition read_Acquisition).
Definition GetAcquisition (id : string) : C S Acquisition :=
  do_ "GET" ("/v1/acquisitions/" +:+ id) None "" (into zeroAcquisition read_Acquisition).
Definition acquisition_query (states : list string) (resource : string) : Values :=
  let q := foldl (λ q s, Values_Add "state" s q) ∅ states in
  if decide (resource = ""%string) then q else Values_Set "resource" resource q.
Definition ListAcquisitions (states : list string) (resource : string) : C S (List_ Acquisition) :=
  do_ "GET" (withQuery "/v1/acquisitions" (acquisition_query states resource)) None ""
    (λ raw, j ?<- unmarshal raw ; read_List zeroAcquisition read_Acquisition j).
Definition Release (id : string) : C S unit := do_ "DELETE" ("/v1/acquisitions/" +:+ id) None "" nothing.

(** ** Pools *)

Definition ApplyPool (m : PoolManifest) : C S Pool :=
  do_ "POST" "/v1/pools" (Some (enc_PoolManifest m)) "" (into zeroPool read_Pool).
Definition GetPool (id : string) : C S Pool := do_ "GET" ("/v1/pools/" +:+ id) None "" (into zeroPool read_Pool).
Definition ListPools : C S (List_ Pool) :=
  do_ "GET" "/v1/pools" None "" (λ raw, j ?<- unmarshal raw ; read_List zeroPool read_Pool j).
Definition PausePool (id : string) : C S unit := do_ "POST" ("/v1/pools/" +:+ id +:+ ":pause") None "" nothing.
Definition ResumePool (id : string) : C S unit := do_ "POST" ("/v1/pools/" +:+ id +:+ ":resume") None "" nothing.
Definition ReconcilePool (id : string) : C S unit := do_ "POST" ("/v1/pools/" +:+ id +:+ ":reconcile") None "" nothing.
Definition DeletePool (id : string) : C S unit := do_ "DELETE" ("/v1/pools/" +:+ id) None "" nothing.

(** ** Operations, events, providers *)

Definition items {A} (zero : A) (d : json → A → result A) (raw : string) : result (slice A) :=
  j ?<- unmarshal raw ; read_items zero d j.

Definition GetOperation (id : string) : C S Operation :=
  do_ "GET" ("/v1/operations/" +:+ id) None "" (into zeroOperation read_Operation).
Definition ListOperations : C S (slice Operation) := do_ "GET" "/v1/operations" None "" (items zeroOperation read_Operation).
Definition events_query (after since resource : string) (n : Z) : Values :=
  let set k v (q : Values) := if decide (v = ""%string) then q else Values_Set k v q in
  let q := set "resource" resource (set "since" since (set "after" after ∅)) in
  if decide (0 < n) then Values_Set "limit" (fmtInt n "") q else q.
Definition ListEvents (after since resource : string) (n : Z) : C S (slice Event) :=
  do_ "GET" (withQuery "/v1/events" (events_query after since resource n)) None "" (items zeroEvent read_Event).
Definition ListProviders : C S (slice ProviderHealth) :=
  do_ "GET" "/v1/providers" None "" (items zeroHealth read_ProviderHealth).

(** ** Classes *)

Definition CreateClass (m : ClassManifest) : C S Class_ :=
  do_ "POST" "/v1/classes" (Some (enc_ClassManifest m)) "" (into zeroClass read_Class).
Definition UpsertClass (name : string) (m : ClassManifest) : C S Class_ :=
  do_ "PUT" ("/v1/classes/" +:+ PathEscape name) (Some (enc_ClassManifest m)) "" (into zeroClass read_Class).
Definition GetClass (name : string) : C S Class_ :=
  do_ "GET" ("/v1/classes/" +:+ PathEscape name) None "" (into zeroClass read_Class).
Definition ListClasses : C S (slice Class_) :=
  do_ "GET" "/v1/classes" None "" (λ raw, j ?<- unmarshal raw ; l ?<- read_List zeroClass read_Class j ; Ok (li_Items l)).
Definition DeleteClass (name : string) : C S unit := do_ "DELETE" ("/v1/classes/" +:+ PathEscape name) None "" nothing.
End client.
