(* ===== verification/Api.v ===== *)
(** * The HTTP API (internal/api, the mutation gate of internal/boot)

    The route table with its permissions, the middleware, and every handler
    from the bytes of the body to the reply. A request path is the list of its
    segments, already decoded and cleaned by the server's mux. A reply is its
    status, what its body holds and the headers that carry meaning; the message
    of an error body, request ids, and panics (no handler panics) are left out. *)

From stdpp Require Import base gmap strings list.
From Stdlib Require Import Ascii.
From S2P Require Import Prelude Errors Json Phase SDK Capacity Types Store Kinds Classes Provision Sys Reconcile App Process Health Text Auth Queries Wire.

Import compute.

Record Http := MkHttp {
  h_Method : string;
  h_Path : list string;
  h_Query : list (string * string);
  h_Authorization : string;
  h_IdempotencyKey : string;
  h_Body : string
}.

Inductive Payload :=
| Doc (j : result json)                                       (* writeJSON *)
| Stored (bytes : option string)                              (* writeOutcome *)
| ErrorBody (code : string) (retryable : bool) (details : option json)
| HealthList (l : list ProviderHealth)
| Plain.                                                      (* the mux's own error page *)

Record Reply := MkReply {
  rp_Status : Z; rp_Payload : Payload;
  rp_Replayed : bool;      (* Idempotency-Replayed *)
  rp_Challenge : bool      (* WWW-Authenticate *)
}.

Definition writeJSON (code : Z) (j : result json) : Reply := MkReply code (Doc j) false false.
Definition writeError (code : Z) (errCode : string) (retryable : bool) : Reply :=
  MkReply code (ErrorBody errCode retryable None) false false.
Definition writeOutcome (out : Outcome) : Reply :=
  MkReply (oc_Status out) (Stored (oc_Body out)) (oc_Replayed out) false.

Definition writeAppError (e : err) : Reply :=
  match e with
  | EValidation => writeError 400 "invalid" false
  | EInFlight op =>
      MkReply 409 (ErrorBody "idempotency_in_flight" false (Some (JObj [("operationId"%string, JStr op)])))
        false false
  | EIdemMismatch => writeError 409 "idempotency_mismatch" false
  | ENotFound => writeError 404 "not_found" false
  | EConflict => writeError 409 "conflict" false
  | _ => writeError 500 "internal" true
  end.

Definition status_doc (id status : string) : result json := Ok (fields [str "id" id; str "status" status]).

(** [url.Values.Get] and the list of all values. *)
Definition q_all (k : string) (r : Http) : list string :=
  (filter (λ kv, kv.1 = k) (h_Query r)).*2.
Definition q_get (k : string) (r : Http) : string := default ""%string (head (q_all k r)).

Definition maxBody : nat := 1048576.
(** [io.ReadAll] of a [MaxBytesReader]. *)
Definition too_large (r : Http) : bool := (maxBody <? String.length (h_Body r))%nat.

Definition hash (s : string) : string := EncodeToString (Sum256 s).

Definition find_phase (s : string) : option Phase :=
  head (filter (λ p, phase_string p = s) All).
Definition find_acq_state (s : string) : option AcqState :=
  head (filter (λ p, acq_state_string p = s) AllAcqStates).

(** A duration that may be left out. *)
Definition opt_duration_text (s : string) : result Z :=
  if decide (s = ""%string) then Ok 0 else ParseDuration s.

(** [strconv.Atoi] on what the limit of a listing allows. *)
Definition page_limit (s : string) : Z :=
  let digits := match s with String "+" s' => s' | _ => s end in
  match span_digits digits with
  | (String _ _ as d, EmptyString) =>
      let n := digits_value d 0 in if decide (0 < n ≤ 1000) then n else 100
  | _ => 100
  end.

Section api.
Context `{ULID} {P : Type} `{Providers P} `{TimeText}.
Context (b : Boot) (auth : TokenAuthenticator) (health : option HealthTracker) (event_id : nat → string).

Abbreviation handler := (M (Sys P) Reply).

(** [if err != nil { writeAppError } else { ... }]. *)
Definition answer {A} (m : M (Sys P) A) (bad : err → Reply) (ok : A → Reply) : handler :=
  r <- tryM m ;; retM (match r with Ok a => ok a | Err e => bad e end).
Definition invalid : handler := retM (writeError 400 "invalid" false).

(** The body decoded, or a 400. *)
Definition decoded {A} (r : result A) (k : A → handler) : handler :=
  match r with Ok a => k a | Err _ => invalid end.

(** ** Resources (api.go) *)

Definition createResource (r : Http) (p : Principal) : handler :=
  if too_large r then invalid else
  decoded (match decode_first (h_Body r) with Ok j => dec_CreateResourceRequest true j | Err e => Err e end)
  (λ '(name, labels, (kind, prov, class, machine)),
    let actor := pr_Name p in
    answer (CreateResource (bt_Owner b)
        (MkCreateCmd kind prov name class machine labels actor
           (MkIdemCmd (h_IdempotencyKey r) ("POST /v1/resources|" +:+ actor) (hash (h_Body r))))
        (λ res, (201, marshalled (toEnvelope res))))
      writeAppError writeOutcome).

Definition getResource (id : string) : handler :=
  answer (onWorld (GetResource id)) writeAppError (λ res, writeJSON 200 (toEnvelope res)).

Definition listResources (r : Http) : handler :=
  match mapM find_phase (q_all "phase" r) with
  | None => invalid
  | Some phases =>
      let pool := q_get "pool" r in
      answer (onWorld (ListResources
          (MkFilter (q_get "kind" r) (q_get "provider" r)
             (if decide (pool = ""%string) then None else Some pool) false (q_get "class" r) phases [] ∅ false)))
        writeAppError (λ items, writeJSON 200 (enc_list "ResourceList" toEnvelope items))
  end.

Definition deleteResource (r : Http) (p : Principal) (id : string) : handler :=
  let actor := pr_Name p in
  let dryRun := bool_decide (q_get "dryRun" r = "true"%string) in
  answer (DeleteResource id actor dryRun
      (MkIdemCmd (h_IdempotencyKey r) ("DELETE /v1/resources|" +:+ actor)
                 (hash ("DELETE /v1/resources/" +:+ id)))
      (λ res, if dryRun
              then (200, Some (print (JObj [("dryRun"%string, JBool true); ("id"%string, JStr (r_ID res));
                                            ("wouldDelete"%string, JBool true)])))
              else (202, Some (print (JObj [("id"%string, JStr (r_ID res)); ("status"%string, JStr "deleting")])))))
    writeAppError writeOutcome.

Definition drainResource (p : Principal) (id : string) : handler :=
  answer (DrainResource id (pr_Name p)) writeAppError (λ _, writeJSON 202 (status_doc id "draining")).

(** The verbs that finish inside the request. *)
Definition syncVerb (p : Principal) (id : string) (act : string → string → M (Sys P) unit) (status : string)
  : handler :=
  answer (act id (pr_Name p))
    (λ e, if decide (e = EAlreadyThere) then writeJSON 200 (status_doc id status) else writeAppError e)
    (λ _, writeJSON 200 (status_doc id status)).

(** The status matrix of the journaled verbs. *)
Definition parkStart (p : Principal) (id : string) (act : string → string → M (Sys P) unit) (status : string)
  : handler :=
  answer (act id (pr_Name p))
    (λ e, if decide (e = EAlreadyThere) then writeJSON 200 (status_doc id status)
          else if decide (e = EParkUnsupported) then writeError 409 "park_unsupported" false
          else writeAppError e)
    (λ _, writeJSON 202 (status_doc id status)).

Definition parkResource (p : Principal) (id : string) : handler := parkStart p id ParkResource "parking".
Definition startResource (p : Principal) (id : string) : handler := parkStart p id StartResource "starting".
Definition undrainResource (p : Principal) (id : string) : handler := syncVerb p id UndrainResource "ready".
Definition setProtected (on : bool) (id actor : string) : M (Sys P) unit := SetResourceProtected id on actor.
Definition protectResource (p : Principal) (id : string) : handler :=
  syncVerb p id (setProtected true) "protected".
Definition unprotectResource (p : Principal) (id : string) : handler :=
  syncVerb p id (setProtected false) "unprotected".

(** ** Acquisitions (handlers.go) *)

Definition createAcquisition (r : Http) (p : Principal) : handler :=
  if too_large r then invalid else
  decoded (match decode_first (h_Body r) with Ok j => dec_AcquireRequest true j | Err e => Err e end) (λ req,
  decoded (match ar_TTL req with Some t => opt_duration_text t | None => Ok 0 end) (λ ttl,
  decoded (opt_duration_text (ar_MaxWait req)) (λ wait,
    if decide (wait < 0) then invalid else
    let header := h_IdempotencyKey r in
    let body := ar_IdempotencyKey req in
    if decide (body ≠ "" ∧ header ≠ "" ∧ header ≠ body)%string then invalid else
    let key := if decide (body = ""%string) then header else body in
    let actor := pr_Name p in
    let constraints := ar_Constraints req in
    answer (Acquire (bt_Owner b) (bt_PendingTimeout b)
        (MkAcquireCmd (ar_Kind req) (ar_Class req)
           (match constraints with RawEmpty => false | _ => true end) (constraints_col constraints)
           (ar_Exclusive req) (ar_Quantity req) ttl wait actor
           (MkIdemCmd key ("POST /v1/acquisitions|" +:+ actor) (hash (h_Body r))))
        (λ a, (201, marshalled (toAcqEnvelope a))))
      writeAppError writeOutcome))).

Definition getAcquisition (id : string) : handler :=
  answer (onWorld (GetAcquisition id)) writeAppError (λ a, writeJSON 200 (toAcqEnvelope a)).

Definition listAcquisitions (r : Http) : handler :=
  match mapM find_acq_state (q_all "state" r) with
  | None => invalid
  | Some states =>
      answer (onWorld (ListAcquisitions states (q_get "resource" r)))
        writeAppError (λ acqs, writeJSON 200 (enc_list "AcquisitionList" toAcqEnvelope acqs))
  end.

Definition releaseAcquisition (id : string) : handler :=
  answer (Service_Release id) writeAppError
    (λ _, writeJSON 200 (Ok (fields [str "id" id; str "state" "released"]))).

(** ** Pools *)

Definition upsertPool (r : Http) (p : Principal) (id : string) : handler :=
  if too_large r then invalid else
  decoded (match unmarshal (h_Body r) with Ok j => dec_PoolManifest false j | Err e => Err e end)
  (λ '(name, spec),
    answer (UpsertPool (MkPoolCmd id name spec (pr_Name p)))
      writeAppError (λ pool, writeJSON 200 (toPoolEnvelope pool))).

Definition createPool (r : Http) (p : Principal) : handler := upsertPool r p "".
Definition updatePool (r : Http) (p : Principal) (id : string) : handler := upsertPool r p id.

Definition getPool (id : string) : handler :=
  answer (onWorld (GetPool id)) writeAppError (λ pool, writeJSON 200 (toPoolEnvelope pool)).
Definition listPools : handler :=
  answer (onWorld ListPools) writeAppError
    (λ pools, writeJSON 200 (enc_list "PoolList" toPoolEnvelope pools)).
Definition deletePool (p : Principal) (id : string) : handler :=
  answer (DeletePool id (pr_Name p)) writeAppError (λ _, writeJSON 200 (status_doc id "deleted")).
Definition setPoolPaused (on : bool) (id actor : string) : M (Sys P) unit := SetPoolPaused id on actor.
Definition pausePool (p : Principal) (id : string) : handler := syncVerb p id (setPoolPaused true) "paused".
Definition resumePool (p : Principal) (id : string) : handler := syncVerb p id (setPoolPaused false) "running".
Definition reconcilePool (id : string) : handler :=
  answer (ReconcilePool id) writeAppError (λ _, writeJSON 202 (status_doc id "reconciling")).

(** ** Operations, events, providers *)

Definition getOperation (id : string) : handler :=
  answer (onWorld (GetOperation id)) writeAppError (λ op, writeJSON 200 (toOpEnvelope op)).
Definition listOperations : handler :=
  answer (onWorld ListOperations) writeAppError
    (λ ops, writeJSON 200 (items ?<- enc_all toOpEnvelope ops ;
       Ok (fields [str "apiVersion" APIVersion; [("items"%string, JArr items)]; str "kind" "OperationList"]))).

Definition dec_action (j : json) : result string :=
  fs ?<- dec_object j ; dec_field "action" dec_string fs ""%string.
Definition resolveOperation (r : Http) (p : Principal) (id : string) : handler :=
  decoded (match decode_first (h_Body r) with Ok j => dec_action j | Err e => Err e end) (λ action,
    answer (ResolveOperation id action (pr_Name p)) writeAppError
      (λ _, writeJSON 202 (Ok (fields [str "action" action; str "id" id])))).

(** [time.Now().Add(-d).UnixMilli()], the millisecond floor of the instant. *)
Definition listEvents (r : Http) : handler :=
  let since := q_get "since" r in
  decoded (if decide (since = ""%string) then Ok None
           else match ParseDuration since with Ok d => Ok (Some d) | Err e => Err e end) (λ d,
    nowMs <- clockNow ;;
    let ts := match d with Some d => (nowMs * 1000000 + wrap64 (- d)) / 1000000 | None => 0 end in
    let res := q_get "resource" r in
    answer (onWorld (ListEvents event_id
        (MkEventFilter (q_get "after" r) ts "" (if decide (res = ""%string) then None else Some res) None)
        (page_limit (q_get "limit" r))))
      writeAppError (λ events, writeJSON 200 (items ?<- enc_all toEvent events ;
        Ok (fields [str "apiVersion" APIVersion; [("items"%string, JArr items)]; str "kind" "EventList"])))).

Definition listProviders : handler :=
  retM (MkReply 200 (HealthList (match health with Some t => Snapshot t | None => [] end)) false false).

(** ** Classes (classes.go) *)

Definition upsertClass (r : Http) (p : Principal) (name : string) (mustCreate : bool) : handler :=
  decoded (match decode_first (String.substring 0 maxBody (h_Body r)) with
           | Ok j => dec_ClassManifest true j | Err e => Err e end) (λ '(meta, spec),
    if decide (name ≠ "" ∧ meta ≠ "" ∧ meta ≠ name)%string then invalid else
    let name := if decide (name = ""%string) then meta else name in
    let '(idle, park, del) := default (""%string, ""%string, ""%string) (cs_Reclaim spec) in
    decoded (opt_duration_text idle) (λ reclaim,
    decoded (opt_duration_text del) (λ reclaimDel,
    decoded (opt_duration_text (default ""%string (cs_MaxWait spec))) (λ maxWait,
      answer (UpsertClass (bt_PendingTimeout b)
          (MkClassCmd name (cs_Kind spec) (cs_Provider spec) (cs_Template spec) reclaim park reclaimDel
             maxWait (pr_Name p) mustCreate))
        (λ e, if decide (e = EClassExists) then writeError 409 "conflict" false
              else if decide (e = EClassConfigOwned) then writeError 409 "config_owned" false
              else writeAppError e)
        (λ rec, writeJSON (if mustCreate then 201 else 200) (toClassEnvelope rec)))))).

Definition createClass (r : Http) (p : Principal) : handler := upsertClass r p "" true.
Definition updateClass (r : Http) (p : Principal) (name : string) : handler := upsertClass r p name false.

Definition getClass (name : string) : handler :=
  answer (onWorld (GetClass name)) writeAppError (λ rec, writeJSON 200 (toClassEnvelope rec)).
Definition listClasses : handler :=
  answer (onWorld ListClasses) writeAppError
    (λ recs, writeJSON 200 (enc_list "ClassList" toClassEnvelope recs)).
Definition deleteClass (p : Principal) (name : string) : handler :=
  answer (DeleteClass name (pr_Name p))
    (λ e, if decide (e = EClassConfigOwned) then writeError 409 "config_owned" false else writeAppError e)
    (λ _, writeJSON 200 (Ok (fields [str "name" name; str "status" "deleted"]))).

(** ** Routes (routes.go) *)

Record RouteDef := MkRoute {
  rt_Method : string; rt_Pattern : string; rt_Verb : string; rt_Perm : Permission; rt_Mutating : bool;
  rt_handler : Http → Principal → (string → string) → handler   (* the path values *)
}.

Definition Routes : list RouteDef := [
  MkRoute "POST" "/v1/acquisitions" "" PermResourceAcquire true (λ r p _, createAcquisition r p);
  MkRoute "GET" "/v1/acquisitions" "" PermResourceRead false (λ r _ _, listAcquisitions r);
  MkRoute "GET" "/v1/acquisitions/{id}" "" PermResourceRead false (λ _ _ v, getAcquisition (v "id"));
  MkRoute "DELETE" "/v1/acquisitions/{id}" "" PermResourceAcquire true (λ _ _ v, releaseAcquisition (v "id"));

  MkRoute "POST" "/v1/resources" "" PermResourceCreate true (λ r p _, createResource r p);
  MkRoute "GET" "/v1/resources" "" PermResourceRead false (λ r _ _, listResources r);
  MkRoute "GET" "/v1/resources/{id}" "" PermResourceRead false (λ _ _ v, getResource (v "id"));
  MkRoute "DELETE" "/v1/resources/{id}" "" PermResourceDelete true (λ r p v, deleteResource r p (v "id"));
  MkRoute "POST" "/v1/resources/{idverb}" "drain" PermResourceDelete true (λ _ p v, drainResource p (v "id"));
  MkRoute "POST" "/v1/resources/{idverb}" "park" PermResourceDelete true
    (λ _ p v, parkResource p (v "id"));
  MkRoute "POST" "/v1/resources/{idverb}" "start" PermResourceCreate true
    (λ _ p v, startResource p (v "id"));
  MkRoute "POST" "/v1/resources/{idverb}" "undrain" PermResourceDelete true
    (λ _ p v, undrainResource p (v "id"));
  MkRoute "POST" "/v1/resources/{idverb}" "protect" PermResourceDelete true
    (λ _ p v, protectResource p (v "id"));
  MkRoute "POST" "/v1/resources/{idverb}" "unprotect" PermResourceDelete true
    (λ _ p v, unprotectResource p (v "id"));

  MkRoute "POST" "/v1/pools" "" PermPoolWrite true (λ r p _, createPool r p);
  MkRoute "GET" "/v1/pools" "" PermPoolRead false (λ _ _ _, listPools);
  MkRoute "GET" "/v1/pools/{id}" "" PermPoolRead false (λ _ _ v, getPool (v "id"));
  MkRoute "PUT" "/v1/pools/{id}" "" PermPoolWrite true (λ r p v, updatePool r p (v "id"));
  MkRoute "DELETE" "/v1/pools/{id}" "" PermPoolWrite true (λ _ p v, deletePool p (v "id"));
  MkRoute "POST" "/v1/pools/{idverb}" "reconcile" PermPoolWrite true (λ _ _ v, reconcilePool (v "id"));
  MkRoute "POST" "/v1/pools/{idverb}" "pause" PermPoolWrite true
    (λ _ p v, pausePool p (v "id"));
  MkRoute "POST" "/v1/pools/{idverb}" "resume" PermPoolWrite true
    (λ _ p v, resumePool p (v "id"));

  MkRoute "POST" "/v1/classes" "" PermClassWrite true (λ r p _, createClass r p);
  MkRoute "GET" "/v1/classes" "" PermClassRead false (λ _ _ _, listClasses);
  MkRoute "GET" "/v1/classes/{name}" "" PermClassRead false (λ _ _ v, getClass (v "name"));
  MkRoute "PUT" "/v1/classes/{name}" "" PermClassWrite true (λ r p v, updateClass r p (v "name"));
  MkRoute "DELETE" "/v1/classes/{name}" "" PermClassWrite true (λ _ p v, deleteClass p (v "name"));

  MkRoute "GET" "/v1/operations" "" PermOperationRead false (λ _ _ _, listOperations);
  MkRoute "GET" "/v1/operations/{id}" "" PermOperationRead false (λ _ _ v, getOperation (v "id"));
  MkRoute "POST" "/v1/operations/{idverb}" "resolve" PermProviderAdmin true
    (λ r p v, resolveOperation r p (v "id"));
  MkRoute "GET" "/v1/events" "" PermOperationRead false (λ r _ _, listEvents r);
  MkRoute "GET" "/v1/providers" "" PermProviderRead false (λ _ _ _, listProviders)
]%string.

(** A pattern of the mux against a path: a wildcard spans one non-empty
    segment. *)
Definition wildcard (p : string) : option string :=
  match CutPrefix "{" p with
  | Some s => match CutLast "}" s with Some (name, EmptyString) => Some name | _ => None end
  | None => None
  end.
Fixpoint match_path (pat segs : list string) (vals : string → string) : option (string → string) :=
  match pat, segs with
  | [], [] => Some vals
  | p :: pat, s :: segs =>
      match wildcard p with
      | Some name =>
          if decide (s = ""%string) then None
          else match_path pat segs (λ k, if decide (k = name) then s else vals k)
      | None => if decide (p = s) then match_path pat segs vals else None
      end
  | _, _ => None
  end.
Definition path_values (rt : RouteDef) (r : Http) : option (string → string) :=
  match_path (tail (Split "/" (rt_Pattern rt))) (h_Path r) (λ _, ""%string).
(** A GET pattern serves HEAD too. *)
Definition method_ok (rt : RouteDef) (r : Http) : bool :=
  bool_decide (rt_Method rt = h_Method r)
  || bool_decide (rt_Method rt = "GET" ∧ h_Method r = "HEAD")%string.

(** The verb is split off at the last colon. *)
Definition splitVerb (idverb : string) : option (string * string) :=
  match CutLast ":" idverb with
  | Some (String c id, String d verb) => Some (String c id, String d verb)
  | _ => None
  end.

(** recover, request id, authenticate, authorize, handler. *)
Definition withMiddleware (perm : Permission) (r : Http) (h : Principal → handler) : handler :=
  if Enabled auth then
    match Authenticate auth (h_Authorization r) with
    | Err _ => retM (MkReply 401 (ErrorBody "unauthenticated" false None) false true)
    | Ok p =>
        if Allows (pr_Perms p) perm then h p
        else retM (writeError 403 "permission_denied" false)
    end
  else h (MkPrincipal "" "-" ∅).

(** The routes registered under one method and pattern. *)
Definition dispatch (defs : list RouteDef) (r : Http) (vals : string → string) : handler :=
  match defs with
  | [] => retM (MkReply 404 Plain false false)
  | def :: _ =>
      if decide (rt_Verb def = ""%string) then withMiddleware (rt_Perm def) r (λ p, rt_handler def r p vals)
      else
        match (match splitVerb (vals "idverb"%string) with
               | Some (id, verb) =>
                   match filter (λ d, rt_Verb d = verb) defs with
                   | d :: _ => Some (id, d)
                   | [] => None
                   end
               | None => None
               end) with
        | Some (id, d) =>
            withMiddleware (rt_Perm d) r
              (λ p, rt_handler d r p (λ k, if decide (k = "id"%string) then id else vals k))
        | None => withMiddleware PermResourceRead r (λ _, retM (writeError 404 "not_found" false))
        end
  end.

(** [Handler]: patterns of one method do not overlap, so the routes that match
    a request are the group of one pattern. *)
Definition Handler (r : Http) : handler :=
  match filter (λ rt, method_ok rt r && is_some (path_values rt r)) Routes with
  | [] => if existsb (λ rt, is_some (path_values rt r)) Routes
          then retM (MkReply 405 Plain false false) else retM (MkReply 404 Plain false false)
  | rt :: rts => dispatch (rt :: rts) r (default (λ _, ""%string) (path_values rt r))
  end.

(** [mutationGate]: no mutation before recovery is complete or after shutdown
    began. *)
Definition mutationGate (ready : bool) (r : Http) : handler :=
  if negb ready && negb (mem (h_Method r) ["GET"; "HEAD"]%string)
  then retM (writeError 503 "unready" true)
  else Handler r.
End api.
