(* ===== verification/Remote.v ===== *)
(** * The client and the server together

    The API of Api.v as the other end of the client of Client.v: how a request
    of the client arrives, how a reply goes back as text, and, for every method
    of the client, the command of the service it stands for. *)

From stdpp Require Import base gmap strings list pretty.
From S2P Require Import Prelude Errors Json Phase SDK Capacity Types Store Kinds Marshal Classes Provision Sys App Process Health Text Url Auth Queries Wire Api.
From S2P Require ClientTypes Client.

Import compute.

(** The messages and identifiers of replies, which nothing reads back. *)
Class Wording := {
  error_text : Z → string → string;      (* of an error body, by status and code *)
  request_id : string;
  cause_text : err → string              (* of a failed health check *)
}.

(** A required document: an empty one is written as null. *)
Definition sent_raw (r : raw) : raw := match r with RawEmpty => RawDoc JNull | r => r end.

Definition newline : string := String (byte 10) EmptyString.

Definition hstate_string (s : hstate) : string :=
  match s with Unknown => "unknown" | Healthy => "healthy" | Degraded => "degraded" | Unavailable => "unavailable" end.

Section wire.
Context `{Wording}.

Definition enc_health (h : ProviderHealth) : result json :=
  since ?<- enc_time (ph_Since h) ;
  last ?<- time_ptr "lastCheck" (ph_LastCheck h) ;
  Ok (fields [str "instance" (ph_Instance h); str "driver" (ph_Driver h); str "state" (hstate_string (ph_State h));
              [("since"%string, since)]; last;
              opt_string "lastError" (match ph_LastError h with Some e => cause_text e | None => ""%string end);
              [("consecutiveFailures"%string, JInt (ph_ConsecutiveFailures h))]]).

(** What [json.Encoder] writes: nothing when the document cannot be encoded. *)
Definition encoded (j : result json) : string :=
  match j with Ok j => (print j +:+ newline)%string | Err _ => ""%string end.
Definition error_body (status : Z) (code : string) (retryable : bool) (details : option json) : result json :=
  ClientTypes.enc_ErrorBody (ClientTypes.MkErrorDetail code (error_text status code) request_id retryable 0
    (match details with Some j => RawDoc j | None => RawEmpty end)).
Definition reply_text (rep : Reply) : string :=
  match rp_Payload rep with
  | Doc j => encoded j
  | Stored bytes => default ""%string bytes
  | ErrorBody code retryable details => encoded (error_body (rp_Status rep) code retryable details)
  | HealthList l =>
      encoded (items ?<- enc_all enc_health l ;
               Ok (fields [str "apiVersion" APIVersion; [("items"%string, JArr items)]; str "kind" "ProviderList"]))
  | Plain => ((if decide (rp_Status rep = 405) then "Method Not Allowed" else "404 page not found") +:+ newline)%string
  end.

(** A header value that can be sent, and what arrives of it. *)
Definition sendable (v : string) : bool :=
  negb (str_any (λ c, control c && negb (bool_decide (c = byte 9))) v).

(** [None]: a request that is not sent, or one whose path the mux redirects. *)
Definition arrives (base : string) (q : Client.Request) : option Http :=
  target ← CutPrefix base (Client.q_URL q);
  '(segs, query) ← parse_target target;
  if sendable (Client.q_IdempotencyKey q) && sendable (Client.q_Authorization q)
  then Some (MkHttp (Client.q_Method q) segs query (TrimSpace (Client.q_Authorization q))
               (TrimSpace (Client.q_IdempotencyKey q)) (Client.q_Body q))
  else None.
End wire.

Section remote.
Context `{ULID} {P : Type} `{Providers P} `{TimeText} `{Wording}.
Context (b : Boot) (auth : TokenAuthenticator) (health : option HealthTracker) (event_id : nat → string).
Context (ready : bool) (base : string).

Abbreviation handler := (M (Sys P) Reply).

(** The server, as one exchange. *)
Definition served (q : Client.Request) (s : Sys P) : option (Z * string) * Sys P :=
  match arrives base q with
  | None => (None, s)
  | Some r =>
      match mutationGate b auth health event_id ready r s with
      | (Ok rep, s) => (Some (rp_Status rep, reply_text rep), s)
      | (Err _, s) => (None, s)
      end
  end.
#[local] Instance served_here : Client.RoundTrip (Sys P) := served.

(** ** The methods of the client *)

Inductive Call : Type → Type :=
| CreateResource_ (req : ClientTypes.CreateResourceRequest) (key : string) : Call ClientTypes.Resource
| GetResource_ (id : string) : Call ClientTypes.Resource
| ListResources_ (f : Client.ResourceFilter) : Call (ClientTypes.List_ ClientTypes.Resource)
| DeleteResource_ (id key : string) : Call unit
| DrainResource_ (id : string) : Call unit
| UndrainResource_ (id : string) : Call unit
| ProtectResource_ (id : string) : Call unit
| UnprotectResource_ (id : string) : Call unit
| ParkResource_ (id : string) : Call unit
| StartResource_ (id : string) : Call unit
| Acquire_ (req : AcquireRequest) (key : string) : Call ClientTypes.Acquisition
| GetAcquisition_ (id : string) : Call ClientTypes.Acquisition
| ListAcquisitions_ (states : list string) (resource : string) : Call (ClientTypes.List_ ClientTypes.Acquisition)
| Release_ (id : string) : Call unit
| ApplyPool_ (m : ClientTypes.PoolManifest) : Call ClientTypes.Pool
| GetPool_ (id : string) : Call ClientTypes.Pool
| ListPools_ : Call (ClientTypes.List_ ClientTypes.Pool)
| PausePool_ (id : string) : Call unit
| ResumePool_ (id : string) : Call unit
| ReconcilePool_ (id : string) : Call unit
| DeletePool_ (id : string) : Call unit
| GetOperation_ (id : string) : Call ClientTypes.Operation
| ListOperations_ : Call (ClientTypes.slice ClientTypes.Operation)
| ListEvents_ (after since resource : string) (limit : Z) : Call (ClientTypes.slice ClientTypes.Event)
| ListProviders_ : Call (ClientTypes.slice ClientTypes.ProviderHealth)
| CreateClass_ (m : ClientTypes.ClassManifest) : Call ClientTypes.Class_
| UpsertClass_ (name : string) (m : ClientTypes.ClassManifest) : Call ClientTypes.Class_
| GetClass_ (name : string) : Call ClientTypes.Class_
| ListClasses_ : Call (ClientTypes.slice ClientTypes.Class_)
| DeleteClass_ (name : string) : Call unit.

Definition perform (c : Client.Client) {A} (call : Call A) : Client.C (Sys P) A :=
  match call with
  | CreateResource_ req key => Client.CreateResource c req key
  | GetResource_ id => Client.GetResource c id
  | ListResources_ f => Client.ListResources c f
  | DeleteResource_ id key => Client.DeleteResource c id key
  | DrainResource_ id => Client.DrainResource c id
  | UndrainResource_ id => Client.UndrainResource c id
  | ProtectResource_ id => Client.ProtectResource c id
  | UnprotectResource_ id => Client.UnprotectResource c id
  | ParkResource_ id => Client.ParkResource c id
  | StartResource_ id => Client.StartResource c id
  | Acquire_ req key => Client.Acquire c req key
  | GetAcquisition_ id => Client.GetAcquisition c id
  | ListAcquisitions_ states res => Client.ListAcquisitions c states res
  | Release_ id => Client.Release c id
  | ApplyPool_ m => Client.ApplyPool c m
  | GetPool_ id => Client.GetPool c id
  | ListPools_ => Client.ListPools c
  | PausePool_ id => Client.PausePool c id
  | ResumePool_ id => Client.ResumePool c id
  | ReconcilePool_ id => Client.ReconcilePool c id
  | DeletePool_ id => Client.DeletePool c id
  | GetOperation_ id => Client.GetOperation c id
  | ListOperations_ => Client.ListOperations c
  | ListEvents_ after since res n => Client.ListEvents c after since res n
  | ListProviders_ => Client.ListProviders c
  | CreateClass_ m => Client.CreateClass c m
  | UpsertClass_ name m => Client.UpsertClass c name m
  | GetClass_ name => Client.GetClass c name
  | ListClasses_ => Client.ListClasses c
  | DeleteClass_ name => Client.DeleteClass c name
  end.

(** How the answer is read. *)
Definition reading {A} (call : Call A) : string → result A :=
  match call with
  | CreateResource_ _ _ | GetResource_ _ => Client.into ClientTypes.zeroResource ClientTypes.read_Resource
  | ListResources_ _ => λ raw, j ?<- unmarshal raw ; ClientTypes.read_List ClientTypes.zeroResource ClientTypes.read_Resource j
  | Acquire_ _ _ | GetAcquisition_ _ => Client.into ClientTypes.zeroAcquisition ClientTypes.read_Acquisition
  | ListAcquisitions_ _ _ => λ raw,
      j ?<- unmarshal raw ; ClientTypes.read_List ClientTypes.zeroAcquisition ClientTypes.read_Acquisition j
  | ApplyPool_ _ | GetPool_ _ => Client.into ClientTypes.zeroPool ClientTypes.read_Pool
  | ListPools_ => λ raw, j ?<- unmarshal raw ; ClientTypes.read_List ClientTypes.zeroPool ClientTypes.read_Pool j
  | GetOperation_ _ => Client.into ClientTypes.zeroOperation ClientTypes.read_Operation
  | ListOperations_ => Client.items ClientTypes.zeroOperation ClientTypes.read_Operation
  | ListEvents_ _ _ _ _ => Client.items ClientTypes.zeroEvent ClientTypes.read_Event
  | ListProviders_ => Client.items ClientTypes.zeroHealth ClientTypes.read_ProviderHealth
  | CreateClass_ _ | UpsertClass_ _ _ | GetClass_ _ => Client.into ClientTypes.zeroClass ClientTypes.read_Class
  | ListClasses_ => λ raw, j ?<- unmarshal raw ;
      l ?<- ClientTypes.read_List ClientTypes.zeroClass ClientTypes.read_Class j ; Ok (ClientTypes.li_Items l)
  | DeleteResource_ _ _ | DrainResource_ _ | UndrainResource_ _ | ProtectResource_ _ | UnprotectResource_ _
  | ParkResource_ _ | StartResource_ _ | Release_ _ | PausePool_ _ | ResumePool_ _ | ReconcilePool_ _
  | DeletePool_ _ | DeleteClass_ _ => Client.nothing
  end.

(** ** What they stand for *)

Definition permission {A} (call : Call A) : Permission :=
  match call with
  | CreateResource_ _ _ | StartResource_ _ => PermResourceCreate
  | GetResource_ _ | ListResources_ _ | GetAcquisition_ _ | ListAcquisitions_ _ _ => PermResourceRead
  | DeleteResource_ _ _ | DrainResource_ _ | UndrainResource_ _ | ProtectResource_ _ | UnprotectResource_ _
  | ParkResource_ _ => PermResourceDelete
  | Acquire_ _ _ | Release_ _ => PermResourceAcquire
  | ApplyPool_ _ | PausePool_ _ | ResumePool_ _ | ReconcilePool_ _ | DeletePool_ _ => PermPoolWrite
  | GetPool_ _ | ListPools_ => PermPoolRead
  | GetOperation_ _ | ListOperations_ | ListEvents_ _ _ _ _ => PermOperationRead
  | ListProviders_ => PermProviderRead
  | CreateClass_ _ | UpsertClass_ _ _ | DeleteClass_ _ => PermClassWrite
  | GetClass_ _ | ListClasses_ => PermClassRead
  end.

(** The text of a body. *)
Definition text (j : result json) : string := match j with Ok j => print j | Err _ => ""%string end.

Definition create (req : ClientTypes.CreateResourceRequest) (key : string) (p : Principal) : handler :=
  let spec := ClientTypes.cq_Spec req in
  let meta := ClientTypes.cq_Metadata req in
  let actor := pr_Name p in
  answer (CreateResource (bt_Owner b)
      (MkCreateCmd (ClientTypes.rs_Kind spec) (ClientTypes.rs_Provider spec) (ClientTypes.md_Name meta)
         (ClientTypes.rs_Class spec) (ClientTypes.rs_Machine spec) (ClientTypes.md_Labels meta) actor
         (MkIdemCmd key ("POST /v1/resources|" +:+ actor) (hash (text (ClientTypes.enc_CreateResourceRequest req)))))
      (λ res, (201, marshalled (toEnvelope res))))
    writeAppError writeOutcome.

(** The key of the body counts before the header's; if both are set they agree. *)
Definition acquire (req : AcquireRequest) (key : string) (p : Principal) : handler :=
  decoded (match ar_TTL req with Some t => opt_duration_text t | None => Ok 0 end) (λ ttl,
  decoded (opt_duration_text (ar_MaxWait req)) (λ wait,
    if decide (wait < 0) then Api.invalid else
    if decide (ar_IdempotencyKey req ≠ "" ∧ key ≠ "" ∧ key ≠ ar_IdempotencyKey req)%string then Api.invalid else
    let actor := pr_Name p in
    answer (Acquire (bt_Owner b) (bt_PendingTimeout b)
        (MkAcquireCmd (ar_Kind req) (ar_Class req)
           (match ar_Constraints req with RawEmpty => false | _ => true end) (constraints_col (ar_Constraints req))
           (ar_Exclusive req) (ar_Quantity req) ttl wait actor
           (MkIdemCmd (if decide (ar_IdempotencyKey req = ""%string) then key else ar_IdempotencyKey req)
              ("POST /v1/acquisitions|" +:+ actor) (hash (text (ClientTypes.enc_AcquireRequest req)))))
        (λ a, (201, marshalled (toAcqEnvelope a))))
      writeAppError writeOutcome)).

Definition define_class (name : string) (m : ClientTypes.ClassManifest) (mustCreate : bool) (p : Principal) : handler :=
  let spec := ClientTypes.cm_Spec m in
  let meta := ClientTypes.md_Name (ClientTypes.cm_Metadata m) in
  if decide (name ≠ "" ∧ meta ≠ "" ∧ meta ≠ name)%string then Api.invalid else
  let '(idle, park, del) := default (""%string, ""%string, ""%string) (cs_Reclaim spec) in
  decoded (opt_duration_text idle) (λ reclaim,
  decoded (opt_duration_text del) (λ reclaimDel,
  decoded (opt_duration_text (default ""%string (cs_MaxWait spec))) (λ maxWait,
    answer (UpsertClass (bt_PendingTimeout b)
        (MkClassCmd (if decide (name = ""%string) then meta else name) (cs_Kind spec) (cs_Provider spec)
           (sent_raw (cs_Template spec)) reclaim park reclaimDel
           maxWait (pr_Name p) mustCreate))
      (λ e, if decide (e = EClassExists) then writeError 409 "conflict" false
            else if decide (e = EClassConfigOwned) then writeError 409 "config_owned" false
            else writeAppError e)
      (λ rec, writeJSON (if mustCreate then 201 else 200) (toClassEnvelope rec))))).

Definition list_resources (phases : list string) (kind prov class pool : string) : handler :=
  match mapM find_phase phases with
  | None => Api.invalid
  | Some phases =>
      answer (onWorld (ListResources
          (MkFilter kind prov (if decide (pool = ""%string) then None else Some pool) false class phases [] ∅ false)))
        writeAppError (λ items, writeJSON 200 (enc_list "ResourceList" toEnvelope items))
  end.
Definition list_acquisitions (states : list string) (res : string) : handler :=
  match mapM find_acq_state states with
  | None => Api.invalid
  | Some states =>
      answer (onWorld (ListAcquisitions states res))
        writeAppError (λ acqs, writeJSON 200 (enc_list "AcquisitionList" toAcqEnvelope acqs))
  end.

(** The log since a duration ago, a hundred events of it unless a limit up to a
    thousand is asked for. *)
Definition list_events (after since res : string) (n : Z) : handler :=
  decoded (if decide (since = ""%string) then Ok None
           else match ParseDuration since with Ok d => Ok (Some d) | Err e => Err e end) (λ d,
    nowMs <- clockNow ;;
    let ts := match d with Some d => (nowMs * 1000000 + wrap64 (- d)) / 1000000 | None => 0 end in
    answer (onWorld (ListEvents event_id
        (MkEventFilter after ts "" (if decide (res = ""%string) then None else Some res) None)
        (if decide (0 < n ≤ 1000) then n else 100)))
      writeAppError (λ events, writeJSON 200 (items ?<- enc_all toEvent events ;
        Ok (fields [str "apiVersion" APIVersion; [("items"%string, JArr items)]; str "kind" "EventList"])))).

Definition command {A} (call : Call A) (p : Principal) : handler :=
  match call with
  | CreateResource_ req key => create req key p
  | GetResource_ id => getResource id
  | ListResources_ f =>
      list_resources (Client.f_Phases f) (Client.f_Kind f) (Client.f_Provider f) (Client.f_Class f) (Client.f_Pool f)
  | DeleteResource_ id key =>
      let actor := pr_Name p in
      answer (DeleteResource id actor false
          (MkIdemCmd key ("DELETE /v1/resources|" +:+ actor) (hash ("DELETE /v1/resources/" +:+ id)))
          (λ res, (202, Some (print (JObj [("id"%string, JStr (r_ID res)); ("status"%string, JStr "deleting")])))))
        writeAppError writeOutcome
  | DrainResource_ id => drainResource p id
  | UndrainResource_ id => undrainResource p id
  | ProtectResource_ id => protectResource p id
  | UnprotectResource_ id => unprotectResource p id
  | ParkResource_ id => parkResource p id
  | StartResource_ id => startResource p id
  | Acquire_ req key => acquire req key p
  | GetAcquisition_ id => getAcquisition id
  | ListAcquisitions_ states res => list_acquisitions states res
  | Release_ id => releaseAcquisition id
  | ApplyPool_ m =>
      answer (UpsertPool (MkPoolCmd "" (ClientTypes.md_Name (ClientTypes.pm_Metadata m))
                (sent_raw (ClientTypes.pm_Spec m)) (pr_Name p)))
        writeAppError (λ pool, writeJSON 200 (toPoolEnvelope pool))
  | GetPool_ id => getPool id
  | ListPools_ => listPools
  | PausePool_ id => pausePool p id
  | ResumePool_ id => resumePool p id
  | ReconcilePool_ id => reconcilePool id
  | DeletePool_ id => deletePool p id
  | GetOperation_ id => getOperation id
  | ListOperations_ => listOperations
  | ListEvents_ after since res n => list_events after since res n
  | ListProviders_ => listProviders health
  | CreateClass_ m => define_class "" m true p
  | UpsertClass_ name m => define_class name m false p
  | GetClass_ name => getClass name
  | ListClasses_ => listClasses
  | DeleteClass_ name => deleteClass p name
  end.
End remote.
