(* ===== verification/ApiFacts.v ===== *)
(** * Facts about the HTTP API

    A request reaches exactly the route its method and path name; it changes
    the control plane only as one command of the application service, run for
    the principal its token proves, who holds the permission of that command. *)

From stdpp Require Import base gmap strings list.
From Stdlib Require Import Ascii.
From S2P Require Import Prelude Errors Json Phase SDK Capacity Types Store Kinds Classes Provision Sys Engine Reconcile App Process Health Text Auth Queries Wire Api Demo.

(** ** What a command needs *)

(** The permission each kind of command is sold under. *)
Definition permission_of (a : Activity) : option Permission :=
  match a with
  | ApiCreate _ _ | ApiStart _ _ => Some PermResourceCreate
  | ApiDelete _ _ _ _ _ | ApiPark _ _ | ApiDrain _ _ | ApiUndrain _ _ | ApiProtect _ _ _ =>
      Some PermResourceDelete
  | ApiResolve _ _ _ => Some PermProviderAdmin
  | ApiAcquire _ _ | ApiRelease _ => Some PermResourceAcquire
  | ApiUpsertPool _ | ApiPausePool _ _ _ | ApiDeletePool _ _ | ApiReconcilePool _ => Some PermPoolWrite
  | ApiUpsertClass _ | ApiDeleteClass _ _ => Some PermClassWrite
  | BootResume | BootSeedClasses _ _ | EngineRound | ReconcileRound _ | LeaseRound | AcquisitionRound
  | DiscoveryRound _ _ => None
  end.

(** The actor a command is recorded under. *)
Definition actor_of (a : Activity) : option string :=
  match a with
  | ApiCreate cmd _ => Some (cc_Actor cmd)
  | ApiDelete _ actor _ _ _ | ApiPark _ actor | ApiStart _ actor | ApiDrain _ actor | ApiUndrain _ actor
  | ApiProtect _ _ actor | ApiResolve _ _ actor | ApiPausePool _ _ actor | ApiDeletePool _ actor
  | ApiDeleteClass _ actor => Some actor
  | ApiAcquire cmd _ => Some (aq_Actor cmd)
  | ApiUpsertPool cmd => Some (up_Actor cmd)
  | ApiUpsertClass cmd => Some (uc_Actor cmd)
  | _ => None
  end.

Section facts.
Context `{ULID} {P : Type} `{Providers P} `{Rand} `{compute.Network} `{TimeText}.
Context (b : Boot) (auth : TokenAuthenticator) (health : option HealthTracker) (event_id : nat → string).

Abbreviation handler := (M (Sys P) Reply).

(** [m] changes nothing, or it is one activity of the kind [Q]. *)
Definition effect {A} (Q : Activity → Prop) (m : M (Sys P) A) : Prop :=
  ∀ s, (m s).2 = s ∨ ∃ a, Q a ∧ (m s).2 = (act b a s).2.

Lemma effect_pure {A} Q (m : M (Sys P) A) : pure m → effect Q m.
Proof. intros Hm s. left. apply Hm. Qed.
Lemma effect_mono {A} (Q Q' : Activity → Prop) (m : M (Sys P) A) :
  (∀ a, Q a → Q' a) → effect Q m → effect Q' m.
Proof. intros HQ Hm s. destruct (Hm s) as [?|(a & ? & ?)]; eauto. Qed.
Lemma effect_act {A} (Q : Activity → Prop) a (m : M (Sys P) A) :
  (∀ s, (m s).2 = (act b a s).2) → Q a → effect Q m.
Proof. intros Hm HQ s. right. eauto. Qed.
Lemma effect_answer {A} Q (m : M (Sys P) A) bad ok : effect Q m → effect Q (answer m bad ok).
Proof.
  intros Hm s. specialize (Hm s). unfold answer, tryM, bindM, retM.
  destruct (m s) as [[x|e] s']; done.
Qed.
Lemma effect_ret {A} Q (x : A) : effect Q (retM x).
Proof. apply effect_pure, pure_ret. Qed.
Lemma effect_decoded {A} Q (r : result A) (k : A → handler) :
  (∀ x, effect Q (k x)) → effect Q (decoded r k).
Proof. intros Hk. destruct r; [apply Hk|apply effect_ret]. Qed.

Lemma pure_onWorld {A} (m : M World A) : pure m → pure (onWorld (P := P) m).
Proof.
  intros Hm s. specialize (Hm (sy_World s)). unfold onWorld.
  destruct (m (sy_World s)) as [x w]; simpl in *. subst w. by destruct s.
Qed.
Lemma pure_answer {A} (m : M (Sys P) A) bad ok : pure m → pure (answer m bad ok).
Proof. intros Hm. apply pure_bind; [by apply pure_try|intros; apply pure_ret]. Qed.
Lemma pure_decoded {A} (r : result A) (k : A → handler) : (∀ x, pure (k x)) → pure (decoded r k).
Proof. intros Hk. destruct r; [apply Hk|apply pure_ret]. Qed.

(** ** Every route *)

Abbreviation routes := (Routes (P := P) b health event_id).

(** What the handler of a route may do. *)
Definition sold (rt : RouteDef (P := P)) (p : Principal) (a : Activity) : Prop :=
  rt_Mutating rt = true ∧ permission_of a = Some (rt_Perm rt) ∧
  ∀ n, actor_of a = Some n → n = pr_Name p.

(** A handler that hands one command to the service. *)
Lemma effect_command {A} rt p a (m : M (Sys P) A) bad ok :
  (∀ s, (m s).2 = (act b a s).2) → sold rt p a → effect (sold rt p) (answer m bad ok).
Proof. intros Hm Ha. apply effect_answer. by eapply effect_act. Qed.

Ltac command a :=
  apply (effect_command _ _ a); [reflexivity|split_and!; [reflexivity|reflexivity|cbn; congruence]].
Ltac query := apply effect_pure, pure_answer, pure_onWorld.

Lemma createResource_effect r p v :
  effect (sold (MkRoute "POST" "/v1/resources" "" PermResourceCreate true v) p) (createResource b r p).
Proof.
  unfold createResource. case_match; [apply effect_ret|].
  apply effect_decoded. intros [[name labels] [[[kind prov] class] machine]]. cbv zeta.
  match goal with |- effect _ (answer (CreateResource _ ?cmd ?f) _ _) => command (ApiCreate cmd f) end.
Qed.
Lemma createAcquisition_effect r p v :
  effect (sold (MkRoute "POST" "/v1/acquisitions" "" PermResourceAcquire true v) p) (createAcquisition b r p).
Proof.
  unfold createAcquisition. case_match; [apply effect_ret|].
  apply effect_decoded. intros req. apply effect_decoded. intros ttl. apply effect_decoded. intros wait.
  case_decide; [apply effect_ret|]. cbv zeta. case_decide; [apply effect_ret|].
  match goal with |- effect _ (answer (Acquire _ _ ?cmd ?f) _ _) => command (ApiAcquire cmd f) end.
Qed.
Lemma upsertPool_effect r p id rt :
  rt_Mutating rt = true → rt_Perm rt = PermPoolWrite → effect (sold rt p) (upsertPool r p id).
Proof.
  intros Hm Hp. unfold upsertPool. case_match; [apply effect_ret|]. apply effect_decoded. intros [name spec].
  apply (effect_command _ _ (ApiUpsertPool (MkPoolCmd id name spec (pr_Name p)))); [reflexivity|].
  split_and!; [done|by rewrite Hp|cbn; congruence].
Qed.
Lemma upsertClass_effect r p name must rt :
  rt_Mutating rt = true → rt_Perm rt = PermClassWrite → effect (sold rt p) (upsertClass b r p name must).
Proof.
  intros Hm Hp. unfold upsertClass. apply effect_decoded. intros [meta spec].
  case_decide; [apply effect_ret|]. cbv zeta. destruct (default _ (cs_Reclaim spec)) as [[idle park] del].
  do 3 (apply effect_decoded; intros ?).
  match goal with |- effect _ (answer (UpsertClass _ ?cmd) _ _) =>
    apply (effect_command _ _ (ApiUpsertClass cmd)) end; [reflexivity|].
  split_and!; [done|by rewrite Hp|cbn; congruence].
Qed.
Lemma resolveOperation_effect r p id v :
  effect (sold (MkRoute "POST" "/v1/operations/{idverb}" "resolve" PermProviderAdmin true v) p)
    (resolveOperation r p id).
Proof.
  apply effect_decoded. intros action. command (ApiResolve id action (pr_Name p)).
Qed.
Lemma listEvents_pure r : pure (listEvents event_id (P := P) r).
Proof.
  apply pure_decoded. intros d. apply pure_bind; [apply pure_onWorld, pure_gets|intros now].
  apply pure_answer, pure_onWorld, pure_gets.
Qed.
Lemma listing_pure {A} (o : option A) (k : A → handler) : (∀ x, pure (k x)) →
  pure (match o with None => invalid | Some x => k x end).
Proof. intros Hk. destruct o; [apply Hk|apply pure_ret]. Qed.

Lemma routes_effect r p v rt : rt ∈ routes → effect (sold rt p) (rt_handler rt r p v).
Proof.
  revert rt. apply Forall_forall. unfold Routes.
  repeat (apply Forall_cons; split; [cbv [rt_handler]|]); [..|apply Forall_nil; done].
  - apply createAcquisition_effect.
  - apply effect_pure, listing_pure. intros. apply pure_answer, pure_onWorld, pure_ListAcquisitions.
  - query. apply pure_GetAcquisition.
  - command (ApiRelease (v "id")).
  - apply createResource_effect.
  - apply effect_pure, listing_pure. intros. apply pure_answer, pure_onWorld, pure_gets.
  - query. apply reads_row_get.
  - match goal with |- effect _ (deleteResource ?r ?p ?id) => unfold deleteResource; cbv zeta end.
    match goal with |- effect _ (answer (DeleteResource ?id ?n ?d ?i ?f) _ _) => command (ApiDelete id n d i f) end.
  - command (ApiDrain (v "id") (pr_Name p)).
  - command (ApiPark (v "id") (pr_Name p)).
  - command (ApiStart (v "id") (pr_Name p)).
  - command (ApiUndrain (v "id") (pr_Name p)).
  - command (ApiProtect (v "id") true (pr_Name p)).
  - command (ApiProtect (v "id") false (pr_Name p)).
  - by apply upsertPool_effect.
  - query. apply pure_gets.
  - query. apply reads_GetPool.
  - by apply upsertPool_effect.
  - command (ApiDeletePool (v "id") (pr_Name p)).
  - command (ApiReconcilePool (v "id")).
  - command (ApiPausePool (v "id") true (pr_Name p)).
  - command (ApiPausePool (v "id") false (pr_Name p)).
  - by apply upsertClass_effect.
  - query. apply pure_gets.
  - query. apply reads_row_get.
  - by apply upsertClass_effect.
  - command (ApiDeleteClass (v "name") (pr_Name p)).
  - query. apply pure_gets.
  - query. apply reads_row_get.
  - apply resolveOperation_effect.
  - apply effect_pure, listEvents_pure.
  - apply effect_ret.
Qed.

(** ** Authorization *)

(** Who the middleware takes the caller for. *)
Definition admitted (r : Http) (p : Principal) : Prop :=
  if Enabled auth then Authenticate auth (h_Authorization r) = Ok p else p = MkPrincipal "" "-" ∅.
Definition permitted (p : Principal) (perm : Permission) : Prop :=
  Enabled auth = true → Allows (pr_Perms p) perm = true.

(** What a request may do. *)
Definition authorized (r : Http) (a : Activity) : Prop :=
  h_Method r ≠ "GET"%string ∧ h_Method r ≠ "HEAD"%string ∧
  ∃ p perm, permission_of a = Some perm ∧ admitted r p ∧ permitted p perm ∧
            ∀ n, actor_of a = Some n → n = pr_Name p.

Lemma middleware_effect (Q : Activity → Prop) perm r (h : Principal → handler) :
  (∀ p, admitted r p → permitted p perm → effect Q (h p)) → effect Q (withMiddleware auth perm r h).
Proof.
  intros Hh. unfold withMiddleware, admitted, permitted in *. destruct (Enabled auth).
  - destruct (Authenticate auth (h_Authorization r)) as [p|e]; [|apply effect_ret].
    destruct (Allows (pr_Perms p) perm) eqn:E; [|apply effect_ret]. by apply Hh.
  - by apply Hh.
Qed.

Lemma mutating_not_get rt : rt ∈ routes → rt_Mutating rt = true → rt_Method rt ≠ "GET"%string.
Proof.
  revert rt. apply (Forall_forall (λ rt, rt_Mutating rt = true → rt_Method rt ≠ "GET"%string)). unfold Routes.
  repeat (apply Forall_cons; split; [done|]). by apply Forall_nil.
Qed.

Lemma never_head rt : rt ∈ routes → rt_Method rt ≠ "HEAD"%string.
Proof.
  revert rt. apply (Forall_forall (λ rt, rt_Method rt ≠ "HEAD"%string)). unfold Routes.
  repeat (apply Forall_cons; split; [done|]). by apply Forall_nil.
Qed.

Lemma route_effect r p v rt : rt ∈ routes → method_ok rt r = true → admitted r p →
  permitted p (rt_Perm rt) → effect (authorized r) (rt_handler rt r p v).
Proof.
  intros Hin Hok Hadm Hperm. eapply effect_mono; [|by apply routes_effect].
  intros a (Hm & Hpa & Ha). pose proof (mutating_not_get _ Hin Hm) as Hg.
  unfold method_ok in Hok. apply orb_true_iff in Hok as [Hok|Hok]; apply bool_decide_eq_true in Hok.
  - split_and!; [congruence| |by exists p, (rt_Perm rt)]. rewrite <-Hok. by apply never_head.
  - destruct Hok as [Hok _]. congruence.
Qed.

Lemma dispatch_effect defs r v :
  (∀ rt, rt ∈ defs → rt ∈ routes ∧ method_ok rt r = true) → effect (authorized r) (dispatch auth defs r v).
Proof.
  intros Hdefs. unfold dispatch. destruct defs as [|def defs]; [apply effect_ret|].
  assert (∀ rt w, rt ∈ def :: defs → effect (authorized r)
    (withMiddleware auth (rt_Perm rt) r (λ p, rt_handler rt r p w))) as Hrt.
  { intros rt w Hin. destruct (Hdefs rt Hin) as [Hr Hok]. apply middleware_effect. intros p Ha Hp.
    by apply route_effect. }
  case_decide; [apply Hrt; left|].
  case_match eqn:E; [|by apply middleware_effect; intros; apply effect_ret].
  destruct p as [id d]. apply Hrt. destruct (splitVerb _) as [[id' verb]|]; [|discriminate].
  destruct (filter _ _) as [|d' l] eqn:Ef; [discriminate|]. injection E as <- <-.
  assert (d' ∈ filter (λ d, rt_Verb d = verb) (def :: defs)) as Hd by (rewrite Ef; left).
  by apply list_elem_of_filter in Hd as [_ Hd].
Qed.

Lemma Handler_effect r : effect (authorized r) (Handler b auth health event_id (P := P) r).
Proof.
  unfold Handler. destruct (filter _ routes) as [|rt rts] eqn:Ef; [case_match; apply effect_ret|].
  apply dispatch_effect. intros rt' Hin. rewrite <-Ef in Hin.
  apply list_elem_of_filter in Hin as [Hok Hin]. split; [done|].
  by apply Is_true_true, andb_true_iff in Hok as [Hok _].
Qed.
Lemma gate_effect ready r : effect (authorized r) (mutationGate b auth health event_id ready (P := P) r).
Proof. unfold mutationGate. case_match; [apply effect_ret|apply Handler_effect]. Qed.

(** C7: whatever request comes in, with whatever path, header and body, it
    changes nothing, or it is exactly one command of the application service:
    never by GET or HEAD, never before recovery is complete, and, when tokens
    are configured, run for the principal whose secret the bearer header
    carries, who holds the permission that command needs or the admin
    permission, and under that principal's name. With no token configured the
    service is open: the command runs for the nameless principal "-". *)
Theorem request_authorized ready r s :
  let s' := (mutationGate b auth health event_id ready r s).2 in
  s' = s ∨
  ∃ a, s' = (act b a s).2 ∧ ready = true ∧ h_Method r ≠ "GET"%string ∧ h_Method r ≠ "HEAD"%string ∧
    ∃ p perm, permission_of a = Some perm ∧ (∀ n, actor_of a = Some n → n = pr_Name p) ∧
      (Enabled auth = true →
        (PermAdmin ∈ pr_Perms p ∨ perm ∈ pr_Perms p) ∧
        ∃ raw id secret rec,
          h_Authorization r = ("Bearer " +:+ raw)%string ∧
          TrimSpace raw = ("flp_" +:+ id +:+ String "." secret)%string ∧
          byID auth !! id = Some rec ∧ Sum256 secret = tk_SHA256 rec ∧
          p = MkPrincipal (tk_ID rec) (tk_Name rec) (tk_Perms rec)) ∧
      (Enabled auth = false → p = MkPrincipal "" "-" ∅).
Proof.
  intros s'. subst s'. unfold mutationGate.
  destruct (negb ready && negb (mem (h_Method r) ["GET"; "HEAD"]%string)) eqn:Egate; [by left|].
  destruct (Handler_effect r s) as [Hs|(a & (Hg & Hh & p & perm & Hpa & Hadm & Hperm & Hact) & Hs)]; [by left|right].
  exists a. split_and!; [done| |done|done|].
  - destruct ready; [done|]. simpl in Egate. apply negb_false_iff, mem_true in Egate. set_solver.
  - exists p, perm. split_and!; [done|done| |intros Hen; unfold admitted in Hadm; by rewrite Hen in Hadm].
    intros Hen. unfold admitted, permitted in *. rewrite Hen in Hadm. split.
    + specialize (Hperm Hen). unfold Allows in Hperm. rewrite orb_true_iff, !bool_decide_eq_true in Hperm. done.
    + apply Authenticate_Ok in Hadm as (raw & id & secret & rec & ? & ? & _ & ? & ? & ->).
      by exists raw, id, secret, rec.
Qed.

(** ** Routing *)

Definition route_key (rt : RouteDef (P := P)) : string * string * string :=
  (rt_Method rt, rt_Pattern rt, rt_Verb rt).
Definition keys : list (string * string * string) := route_key <$> routes.

Fixpoint overlap (p q : list string) : bool :=
  match p, q with
  | [], [] => true
  | a :: p, b :: q => (is_some (wildcard a) || is_some (wildcard b) || bool_decide (a = b)) && overlap p q
  | _, _ => false
  end.
Lemma match_overlap p q segs v w x y :
  match_path p segs v = Some x → match_path q segs w = Some y → overlap p q = true.
Proof.
  revert q segs v w. induction p as [|a p IH]; intros [|c q] [|d segs] v w; simpl; try done.
  destruct (wildcard a), (wildcard c); simpl; repeat case_decide; try done; try (by apply IH).
  subst. rewrite bool_decide_eq_true_2 by done. by apply IH.
Qed.

(** Two registered patterns of one method that can match the same path are the
    same pattern, with verbs on all of its routes or on none. *)
Definition clash_free (k1 k2 : string * string * string) : bool :=
  negb (bool_decide (k1.1.1 = k2.1.1) && overlap (tail (Split "/" k1.1.2)) (tail (Split "/" k2.1.2)))
  || bool_decide (k1.1.2 = k2.1.2) && Bool.eqb (bool_decide (k1.2 = ""%string)) (bool_decide (k2.2 = ""%string)).
Lemma keys_clash_free : forallb (λ k1, forallb (clash_free k1) keys) keys = true.
Proof. vm_compute. reflexivity. Qed.
Lemma keys_NoDup : NoDup keys.
Proof. apply (bool_decide_unpack _). vm_compute. reflexivity. Qed.

Lemma same_route rt rt' : rt ∈ routes → rt' ∈ routes → route_key rt = route_key rt' → rt = rt'.
Proof.
  intros [i Hi]%list_elem_of_lookup [j Hj]%list_elem_of_lookup Hk.
  assert (i = j) as ->; [|congruence].
  eapply (NoDup_lookup keys); [apply keys_NoDup| |]; unfold keys; rewrite list_lookup_fmap.
  - by rewrite Hi.
  - rewrite Hj. simpl. by rewrite Hk.
Qed.

Definition reaches (rt : RouteDef (P := P)) (r : Http) : Prop :=
  rt ∈ routes ∧ method_ok rt r = true ∧ is_some (path_values rt r) = true.

Lemma method_ok_eq rt rt' r : rt ∈ routes → rt' ∈ routes →
  method_ok rt r = true → method_ok rt' r = true → rt_Method rt = rt_Method rt'.
Proof.
  intros Hr1%never_head Hr2%never_head. unfold method_ok. rewrite !orb_true_iff, !bool_decide_eq_true.
  intros [?|[??]] [?|[??]]; congruence.
Qed.

Lemma unambiguous rt rt' r : reaches rt r → reaches rt' r →
  rt_Method rt = rt_Method rt' ∧ rt_Pattern rt = rt_Pattern rt' ∧
  (rt_Verb rt = ""%string ↔ rt_Verb rt' = ""%string).
Proof.
  intros (I1 & M1 & P1) (I2 & M2 & P2). pose proof (method_ok_eq _ _ r I1 I2 M1 M2) as Hm. split; [done|].
  pose proof keys_clash_free as Hf. rewrite forallb_forall in Hf.
  specialize (Hf (route_key rt)). rewrite forallb_forall in Hf.
  assert (∀ x, x ∈ routes → In (route_key x) keys) as Hin
    by (intros x Hx; apply list_elem_of_In, list_elem_of_fmap; eauto).
  specialize (Hf (Hin _ I1) _ (Hin _ I2)). unfold clash_free in Hf. cbn [route_key fst snd] in Hf.
  unfold path_values in P1, P2.
  destruct (match_path (tail (Split "/" (rt_Pattern rt))) _ _) as [x|] eqn:E1; [|discriminate].
  destruct (match_path (tail (Split "/" (rt_Pattern rt'))) _ _) as [y|] eqn:E2; [|discriminate].
  rewrite (match_overlap _ _ _ _ _ _ _ E1 E2), (bool_decide_eq_true_2 _ Hm) in Hf. simpl in Hf.
  apply andb_true_iff in Hf as [Hp Hv]. apply bool_decide_eq_true in Hp. split; [done|].
  apply eqb_prop in Hv. do 2 case_bool_decide; done || naive_solver.
Qed.

(** The route a request names, with the values its handler sees. *)
Definition resolved (rt : RouteDef (P := P)) (r : Http) (v : string → string) : Prop :=
  rt ∈ routes ∧ method_ok rt r = true ∧ ∃ w, path_values rt r = Some w ∧
  ((rt_Verb rt = ""%string ∧ v = w) ∨
   (rt_Verb rt ≠ ""%string ∧ ∃ id, splitVerb (w "idverb"%string) = Some (id, rt_Verb rt) ∧
      v = λ k, if decide (k = "id"%string) then id else w k)).

Lemma resolved_Handler rt r v s : resolved rt r v →
  Handler b auth health event_id r s = withMiddleware auth (rt_Perm rt) r (λ p, rt_handler rt r p v) s.
Proof.
  intros (Hin & Hok & w & Hw & Hv).
  assert (∀ x, x ∈ filter (λ rt, method_ok rt r && is_some (path_values rt r)) routes → reaches x r) as Hall.
  { intros x [Hx Hi]%list_elem_of_filter. apply Is_true_true, andb_true_iff in Hx as [??]. done. }
  assert (rt ∈ filter (λ rt, method_ok rt r && is_some (path_values rt r)) routes) as Hrt.
  { apply list_elem_of_filter. split; [|done]. by rewrite Hok, Hw. }
  pose proof (Hall _ Hrt) as Hr. unfold Handler.
  destruct (filter _ routes) as [|rt0 rts] eqn:Ef; [by apply not_elem_of_nil in Hrt|].
  pose proof (Hall rt0 ltac:(left)) as Hr0. destruct (unambiguous _ _ _ Hr Hr0) as (Hm0 & Hp0 & Hv0).
  assert (path_values rt0 r = Some w) as Hw0 by (unfold path_values in *; by rewrite <-Hp0).
  rewrite Hw0. change (default _ (Some w)) with w. unfold dispatch. destruct Hv as [[Hverb ->]|(Hverb & id & Hid & ->)].
  - assert (rt0 = rt) as ->.
    { apply same_route; [apply Hr0|done|]. unfold route_key. rewrite Hm0, Hp0, Hverb, (proj1 Hv0 Hverb). done. }
    by rewrite decide_True.
  - rewrite decide_False by (by rewrite <-Hv0). rewrite Hid.
    assert (rt ∈ filter (λ d, rt_Verb d = rt_Verb rt) (rt0 :: rts)) as Hd
      by (by apply list_elem_of_filter).
    destruct (filter _ (rt0 :: rts)) as [|d l] eqn:Ed; [by apply not_elem_of_nil in Hd|].
    assert (d ∈ filter (λ d, rt_Verb d = rt_Verb rt) (rt0 :: rts)) as Hd0 by (rewrite Ed; left).
    apply list_elem_of_filter in Hd0 as [Hdv Hd0].
    assert (d = rt) as ->; [|done].
    destruct (unambiguous _ _ _ Hr (Hall _ Hd0)) as (Hm1 & Hp1 & _).
    apply same_route; [by destruct (Hall _ Hd0)|done|]. unfold route_key. by rewrite Hdv, Hm1, Hp1.
Qed.

(** C19: routing is unambiguous: a request whose method and path name a route
    of the table (and, for a route with a verb, that verb behind the last
    colon) gets exactly that route's handler, behind the check of that route's
    permission: 401 with a challenge without a valid token, 403 without the
    permission, both without any effect. *)
Theorem request_routed rt r v s :
  resolved rt r v →
  Handler b auth health event_id r s =
  if Enabled auth then
    match Authenticate auth (h_Authorization r) with
    | Ok p => if Allows (pr_Perms p) (rt_Perm rt) then rt_handler rt r p v s
              else (Ok (writeError 403 "permission_denied" false), s)
    | Err _ => (Ok (MkReply 401 (ErrorBody "unauthenticated" false None) false true), s)
    end
  else rt_handler rt r (MkPrincipal "" "-" ∅) v s.
Proof.
  intros Hr. rewrite (resolved_Handler rt r v s Hr). unfold withMiddleware. destruct (Enabled auth); [|done].
  destruct (Authenticate _ _); [|done]. by destruct (Allows _ _).
Qed.
End facts.

(** ** A small installation with one token *)

Import Demo.
#[local] Existing Instances Demo.clouds Demo.numbered Process.steady Process.offline.
#[local] Instance any_time : TimeText := λ _, true.

Definition operator : TokenRecord :=
  MkToken "0badcafe" "ops" (Sum256 "hunter2") {[ PermResourceDelete; PermResourceRead ]}.
Definition guard : TokenAuthenticator := NewTokenAuthenticator [operator] "noise".
Definition s_ready : Sys unit := MkSys w_ready tt false None false ∅ ∅ ∅ ∅ 0.
Definition post (path : list string) (bearer : string) : Http := MkHttp "POST" path [] bearer "" "".
Definition no_ids : nat → string := λ _, ""%string.
Definition drain_route : RouteDef (P := unit) :=
  MkRoute "POST" "/v1/resources/{idverb}" "drain" PermResourceDelete true (λ _ p v, drainResource p (v "id"%string)).
Definition start_route : RouteDef (P := unit) :=
  MkRoute "POST" "/v1/resources/{idverb}" "start" PermResourceCreate true
    (λ _ p v, startResource p (v "id"%string)).
Definition to_r1 (w : string → string) : string → string :=
  λ k, if decide (k = "id"%string) then "r1"%string else w k.
Definition drain_r1 (bearer : string) : Http := post ["v1"; "resources"; "r1:drain"]%string bearer.
Definition start_r1 (bearer : string) : Http := post ["v1"; "resources"; "r1:start"]%string bearer.

Lemma resolved_demo (rt : RouteDef (P := unit)) r w :
  rt ∈ Routes boot None no_ids → method_ok rt r = true → path_values rt r = Some w → rt_Verb rt ≠ ""%string →
  splitVerb (w "idverb"%string) = Some ("r1"%string, rt_Verb rt) →
  resolved boot None no_ids rt r (to_r1 w).
Proof. intros Hin Hm Hp Hv Hs. split_and!; [done|done|]. exists w. split; [done|]. right. split; [done|]. by exists "r1"%string. Qed.

(** The right token drains the machine; a token without the permission to
    start one is told so, a wrong secret is challenged, and both change
    nothing. *)
Lemma request_routed_witness :
  (r_Phase <$> db_Resources (w_DB (sy_World
     (Handler boot guard None no_ids (drain_r1 "Bearer flp_0badcafe.hunter2") s_ready).2)) !! "r1"%string)
    = Some Draining ∧
  Handler boot guard None no_ids (start_r1 "Bearer flp_0badcafe.hunter2") s_ready =
    (Ok (writeError 403 "permission_denied" false), s_ready) ∧
  Handler boot guard None no_ids (drain_r1 "Bearer flp_0badcafe.hunter3") s_ready =
    (Ok (MkReply 401 (ErrorBody "unauthenticated" false None) false true), s_ready).
Proof.
  assert (drain_route ∈ Routes boot None no_ids) as Hd by (do 8 right; left).
  assert (start_route ∈ Routes boot None no_ids) as Hs by (do 10 right; left).
  split_and!.
  - rewrite (request_routed boot guard None no_ids drain_route (drain_r1 "Bearer flp_0badcafe.hunter2") _ s_ready
      (resolved_demo drain_route (drain_r1 "Bearer flp_0badcafe.hunter2") _ Hd eq_refl eq_refl ltac:(done) eq_refl)).
    vm_compute. reflexivity.
  - rewrite (request_routed boot guard None no_ids start_route (start_r1 "Bearer flp_0badcafe.hunter2") _ s_ready
      (resolved_demo start_route (start_r1 "Bearer flp_0badcafe.hunter2") _ Hs eq_refl eq_refl ltac:(done) eq_refl)).
    vm_compute. reflexivity.
  - rewrite (request_routed boot guard None no_ids drain_route (drain_r1 "Bearer flp_0badcafe.hunter3") _ s_ready
      (resolved_demo drain_route (drain_r1 "Bearer flp_0badcafe.hunter3") _ Hd eq_refl eq_refl ltac:(done) eq_refl)).
    vm_compute. reflexivity.
Defined.
