(* ===== verification/RemoteFacts.v ===== *)
(** * What the client can rely on

    Every method of the client, on ids the service gives out and documents it
    can write, is one command of the service: the request arrives at that
    command's route, the body decodes to the fields that were written, and the
    client gets the reply of the command. *)

From stdpp Require Import base gmap strings list sorting pretty.
From Stdlib Require Import Ascii.
From S2P Require Import Prelude Errors Json Phase SDK Capacity Types Store Kinds Marshal Classes Provision Sys App Process Health Text Url Auth Queries Wire Api Remote.
From S2P Require ClientTypes Client TextFacts ApiFacts.

Import compute SpecFacts.

(** What holds for each element of a literal list. *)
Ltac each_in H := repeat (apply elem_of_cons in H as [->|H]; [try done|]); try by apply elem_of_nil in H.

(** ** Texts *)

Lemma CutPrefix_append p s : CutPrefix p (p +:+ s) = Some s.
Proof. by apply CutPrefix_Some. Qed.
Lemma read_print j : TextFacts.integral j = true → decode_first (print j) = Ok j.
Proof.
  intros Hj. unfold decode_first. rewrite <-(TextFacts.app_nil_r (print j)) at 2.
  rewrite (TextFacts.print_readable j Hj); [done|lia|done].
Qed.
Lemma unmarshal_encoded fs : TextFacts.integral (JObj fs) = true → unmarshal (encoded (Ok (JObj fs))) = Ok (JObj fs).
Proof. intros Hj. by apply TextFacts.object_readable. Qed.

(** ** Targets *)

(** A segment as it is written, and as it is read. *)
Record written_as (enc seg : string) : Prop := {
  wa_read : PathUnescape enc = Some seg;
  wa_clean : str_any control enc = false;
  wa_free c : c ∈ ["/"; "?"; "#"]%char → str_has c enc = false;
  wa_kept : mem seg ["."; ".."]%string = false
}.
Definition keeps (seg : string) : Prop := seg ≠ "."%string ∧ seg ≠ ".."%string.
(** The ids the service gives out. *)
Definition plain_id (id : string) : Prop := id ≠ ""%string ∧ keeps id ∧ str_all unreserved id = true.
Definition path_char (c : ascii) : bool := unreserved c || mem c ["$"; "&"; "+"; ":"; "="; "@"]%char.

Lemma str_any_app p s t : str_any p (s +:+ t) = str_any p s || str_any p t.
Proof. induction s as [|c s IH]; [done|]. rewrite TextFacts.app_cons. simpl. by rewrite IH, orb_assoc. Qed.
Lemma all_not_any (p q : ascii → bool) s : (∀ c, p c = true → q c = false) → str_all p s = true → str_any q s = false.
Proof. intros H. induction s as [|c s IH]; simpl; [done|]. intros [Hc Hs]%andb_true_iff. by rewrite (H _ Hc), IH. Qed.
Lemma all_not_has (p : ascii → bool) c s : p c = false → str_all p s = true → str_has c s = false.
Proof.
  intros Hc. induction s as [|d s IH]; simpl; [done|]. intros [Hd Hs]%andb_true_iff. rewrite (IH Hs), orb_false_r.
  apply bool_decide_eq_false. intros ->. congruence.
Qed.
Definition path_text (c : ascii) : bool := path_char c || bool_decide (c = "%"%char).
Lemma path_text_printing c : path_text c = true → control c = false.
Proof. by destruct c as [[] [] [] [] [] [] [] []]; vm_compute. Qed.
Lemma percent_text c : str_all path_text (percent c) = true.
Proof. by destruct c as [[] [] [] [] [] [] [] []]; vm_compute. Qed.
Lemma PathEscape_text s : str_all path_text (PathEscape s) = true.
Proof.
  induction s as [|c s IH]; [done|]. unfold PathEscape. cbn [url_escape]. rewrite str_all_app. fold (PathEscape s).
  rewrite IH, andb_true_r. destruct (_ || _) eqn:Hc; [cbn [str_all]; unfold path_text, path_char; by rewrite Hc|].
  apply percent_text.
Qed.
Lemma unescape_plain s t : str_all path_char s = true → url_unescape false (s +:+ t) = (λ r, s +:+ r)%string <$> url_unescape false t.
Proof.
  intros Hs. induction s as [|c s IH].
  - change (("" +:+ t)%string) with t. by destruct (url_unescape false t).
  - simpl in Hs. apply andb_true_iff in Hs as [Hc Hs]. rewrite TextFacts.app_cons. cbn [url_unescape].
    rewrite decide_False by (by intros ->). rewrite (IH Hs). by destruct (url_unescape false t).
Qed.
Lemma unescape_app s t s' : url_unescape false s = Some s' → str_all path_char t = true →
  url_unescape false (s +:+ t) = Some (s' +:+ t)%string.
Proof.
  intros Hs Ht. assert (url_unescape false t = Some t) as Ht'.
  { rewrite <-(TextFacts.app_nil_r t) at 1. rewrite unescape_plain by done. simpl. by rewrite TextFacts.app_nil_r. }
  revert s' Hs. remember (String.length s) as n eqn:Hn. revert s Hn. induction n as [n IH] using lt_wf_ind. intros s -> s' Hs.
  destruct s as [|c s]; [by injection Hs as <-|]. rewrite TextFacts.app_cons. cbn [url_unescape] in *.
  case_decide as Hc.
  - destruct s as [|a [|b s]]; [done|done|]. rewrite !TextFacts.app_cons.
    destruct (hex_value a), (hex_value b); [|done..]. destruct (url_unescape false s) as [r|] eqn:Hr; [|done].
    simplify_eq. erewrite IH; [reflexivity| |reflexivity|done]. simpl. lia.
  - destruct (url_unescape false s) as [r|] eqn:Hr; [|done]. simpl in Hs. simplify_eq.
    erewrite IH; [reflexivity| |reflexivity|done]. simpl. lia.
Qed.

Lemma escaped_as name verb : str_all path_char verb = true → keeps (name +:+ verb) →
  written_as (PathEscape name +:+ verb) (name +:+ verb).
Proof.
  intros Hv [Hk1 Hk2].
  assert (str_all path_text (PathEscape name +:+ verb) = true) as Ht.
  { rewrite str_all_app, PathEscape_text. eapply str_all_impl; [|exact Hv]. intros c Hc. unfold path_text. by rewrite Hc. }
  split.
  - apply unescape_app; [apply PathUnescape_Escape|done].
  - eapply all_not_any; [apply path_text_printing|done].
  - intros c Hc. eapply all_not_has; [|exact Ht]. by each_in Hc.
  - apply bool_decide_eq_false. set_solver.
Qed.
Lemma plain_as id verb : str_all unreserved id = true → str_all path_char verb = true → keeps (id +:+ verb) →
  written_as (id +:+ verb) (id +:+ verb).
Proof.
  intros Hid Hv Hk. assert (PathEscape id = id) as He.
  { clear Hk. induction id as [|c id IH]; [done|]. simpl in Hid. apply andb_true_iff in Hid as [Hc Hid].
    unfold PathEscape. cbn [url_escape]. rewrite Hc. simpl. f_equal. by apply IH. }
  rewrite <-He at 1. by apply escaped_as.
Qed.

(** A path of one collection, and of one thing in it. *)
Definition collections : list string := ["resources"; "acquisitions"; "pools"; "operations"; "classes"]%string.
Lemma parse_in coll enc seg : coll ∈ collections → written_as enc seg →
  parse_target ("/v1/" +:+ coll +:+ "/" +:+ enc) = Some (["v1"%string; coll; seg], []).
Proof.
  intros Hcoll [Hr Hclean Hfree Hk].
  assert (Split "/" enc = [enc]) as Hs by (apply Split_free, Hfree; set_solver).
  assert (parse_path ("/v1/" +:+ coll +:+ "/" +:+ enc) = Some ["v1"%string; coll; seg]) as Hp.
  { change ("/v1/" +:+ coll +:+ "/" +:+ enc)%string with (String "/" ("v1" +:+ String "/" (coll +:+ String "/" enc)))%string.
    unfold parse_path. cbn [Split]. rewrite decide_True, (Split_app "/" "v1") by done.
    rewrite Split_app by (by each_in Hcoll).
    rewrite Hs. cbn [mapM].
    assert (mem coll ["."; ".."]%string = false ∧ coll ≠ ""%string ∧ PathUnescape coll = Some coll) as (H1 & H2 & ->)
      by (by each_in Hcoll).
    simpl. rewrite Hr. simpl. rewrite Hk, H1. by rewrite bool_decide_eq_false_2. }
  assert (∀ c, c ∈ ["?"; "#"]%char → str_has c ("/v1/" +:+ coll +:+ "/" +:+ enc) = false) as Hh.
  { intros c Hc. rewrite !str_has_app, (Hfree c) by set_solver.
    by each_in Hc; each_in Hcoll. }
  unfold parse_target. rewrite !str_any_app, Hclean.
  assert (str_any control coll = false) as ->
    by (by each_in Hcoll).
  cbn [orb]. rewrite !Cut_none by (apply Hh; set_solver). cbn [from_option fst].
  by rewrite Hp.
Qed.

(** ** Queries *)

Lemma written_query q c : written c = false → c ≠ "="%char → c ≠ "&"%char → str_has c (Values_Encode q) = false.
Proof.
  intros Hc He Ha. unfold Values_Encode. induction (pairs q) as [|kv l IH]; [done|]. destruct l as [|kv' l].
  - by apply enc_pair_has.
  - change (between "&" (enc_pair <$> kv :: kv' :: l)) with (enc_pair kv +:+ String "&" (between "&" (enc_pair <$> kv' :: l)))%string.
    rewrite str_has_app, enc_pair_has by done. simpl. rewrite bool_decide_eq_false_2 by congruence. exact IH.
Qed.
Lemma written_printing q : str_any control (Values_Encode q) = false.
Proof.
  assert (∀ s, (∀ c, control c = true → str_has c s = false) → str_any control s = false) as Hall.
  { induction s as [|c s IH]; intros Hs; [done|]. simpl. apply orb_false_iff. split.
    - destruct (control c) eqn:Hc; [|done]. specialize (Hs c Hc). simpl in Hs. by rewrite bool_decide_eq_true_2 in Hs.
    - apply IH. intros d Hd. specialize (Hs d Hd). simpl in Hs. by apply orb_false_iff in Hs as [_ ?]. }
  apply Hall. intros c Hc. apply written_query.
  - revert Hc. by destruct c as [[] [] [] [] [] [] [] []]; vm_compute.
  - by intros ->.
  - by intros ->.
Qed.
Lemma no_pairs q : Values_Encode q = ""%string → pairs q = [].
Proof.
  intros Hq. rewrite <-ParseQuery_Encode, Hq. done.
Qed.
Lemma parse_listing coll q : coll ∈ ["resources"; "acquisitions"; "events"]%string →
  parse_target (Client.withQuery ("/v1/" +:+ coll) q) = Some (["v1"%string; coll], pairs q).
Proof.
  intros Hcoll. unfold Client.withQuery. case_decide as Hq.
  { rewrite (no_pairs q Hq). by each_in Hcoll. }
  unfold parse_target. rewrite !str_any_app, written_printing.
  assert (str_any control coll = false) as -> by (by each_in Hcoll). cbn [orb].
  rewrite (Cut_none "#").
  - cbn [from_option fst]. rewrite TextFacts.app_assoc. change ("?" +:+ ?x)%string with (String "?" x).
    rewrite <-TextFacts.app_assoc, Cut_free by (by each_in Hcoll). cbn [from_option id]. rewrite ParseQuery_Encode.
    by each_in Hcoll.
  - rewrite !str_has_app, written_query by done. by each_in Hcoll.
Qed.

Definition vals_of (k : string) (l : list (string * string)) : list string := (filter (λ kv, kv.1 = k) l).*2.
Lemma vals_of_entries k (l : list (string * list string)) : NoDup l.*1 →
  vals_of k (concat ((λ kvs : string * list string, (λ v, (kvs.1, v)) <$> kvs.2) <$> l)) =
  default [] ((list_to_map l : gmap string (list string)) !! k).
Proof.
  unfold vals_of. induction l as [|[k' vs] l IH]; [done|]. intros Hnd. inversion_clear Hnd as [|?? Hk Hl].
  rewrite fmap_cons. cbn [concat fst snd list_to_map foldr]. rewrite filter_app, fmap_app, (IH Hl). destruct (decide (k' = k)) as [->|Hne].
  - rewrite lookup_insert_eq, not_elem_of_list_to_map_1 by done. simpl. rewrite List.app_nil_r.
    induction vs as [|v vs IHv]; [done|]. simpl. rewrite filter_cons_True by done. simpl. by f_equal.
  - rewrite lookup_insert_ne by done. replace (filter _ ((λ v, (k', v)) <$> vs)) with (@nil (string * string)); [done|].
    induction vs as [|v vs IHv]; [done|]. simpl. by rewrite filter_cons_False.
Qed.
Lemma vals_of_pairs k q : vals_of k (pairs q) = default [] (q !! k).
Proof.
  unfold pairs. rewrite vals_of_entries, sorted_entries_map; [done|].
  unfold sorted_entries. rewrite (merge_sort_Permutation key_le). apply NoDup_fst_map_to_list.
Qed.
Lemma added k k' l q : default [] (foldl (λ q p, Values_Add k p q) q l !! k') =
  default [] (q !! k') ++ (if decide (k' = k) then l else []).
Proof.
  revert q. induction l as [|p l IH]; intros q; simpl; [by case_decide; rewrite List.app_nil_r|].
  rewrite IH. unfold Values_Add. destruct (decide (k' = k)) as [->|Hne].
  - rewrite lookup_insert_eq. simpl. by rewrite <-List.app_assoc.
  - by rewrite lookup_insert_ne.
Qed.

(** ** Bodies *)

Lemma dec_opt_bool name b : dec_field name dec_bool (ClientTypes.opt_bool name b) false = Ok b.
Proof. destruct b; simpl; [by rewrite key_match_refl|done]. Qed.
Lemma dec_opt_raw name r fs : raw_opt name r = Ok fs → dec_field name dec_raw fs RawEmpty = Ok r.
Proof. destruct r; simpl; intros [= <-]; [done|]. simpl. by rewrite key_match_refl. Qed.
Lemma dec_raw_skip {A} name k (d : json → A → result A) r fs old : raw_opt k r = Ok fs → key_match k name = false →
  dec_field name d fs old = Ok old.
Proof. intros Hr Hk. destruct r; simpl in Hr; simplify_eq; simpl; [done|by rewrite Hk]. Qed.
Lemma dec_bool_skip {A} name k (d : json → A → result A) b old : key_match k name = false →
  dec_field name d (ClientTypes.opt_bool k b) old = Ok old.
Proof. apply dec_opt_skip. Qed.
Lemma dec_time_skip {A} name k (d : json → A → result A) t old : key_match k name = false →
  dec_field name d (ClientTypes.opt_time k t) old = Ok old.
Proof. apply dec_ptr_skip. Qed.

(** Every field of an encoding is one the strict decoder knows. *)
Definition known (names : list string) (fs : list (string * json)) : bool :=
  forallb (λ '(k, _), existsb (key_match k) names) fs.
Lemma known_app names fs gs : known names (fs ++ gs) = known names fs && known names gs.
Proof. apply forallb_app. Qed.
Lemma known_opt names b k j : existsb (key_match k) names = true → known names (opt_field b k j) = true.
Proof. intros Hk. destruct b; [|done]. unfold known. simpl. by rewrite Hk. Qed.
Lemma known_ptr {A} names k (enc : A → json) o : existsb (key_match k) names = true → known names (opt_ptr k enc o) = true.
Proof. intros Hk. destruct o; [|done]. unfold known. simpl. by rewrite Hk. Qed.
Lemma known_raw names k r fs : raw_opt k r = Ok fs → existsb (key_match k) names = true → known names fs = true.
Proof. intros Hr Hk. destruct r; simpl in Hr; simplify_eq; [done|]. unfold known. simpl. by rewrite Hk. Qed.
Lemma known_cons names k j fs : existsb (key_match k) names = true → known names fs = true → known names ((k, j) :: fs) = true.
Proof. intros Hk Hf. unfold known in *. simpl. by rewrite Hk, Hf. Qed.
Lemma known_fields_ok strict names fs : known names fs = true → known_fields strict names fs = Ok tt.
Proof. unfold known_fields, known. intros ->. by rewrite orb_true_r. Qed.
Ltac known_tac :=
  repeat match goal with
  | |- known _ (_ ++ _) = true => rewrite known_app; apply andb_true_iff; split
  | |- known _ [] = true => reflexivity
  | |- known _ ((_, _) :: _) = true => apply known_cons; [reflexivity|]
  | |- known _ (opt_string _ _) = true => apply known_opt; reflexivity
  | |- known _ (opt_int _ _) = true => apply known_opt; reflexivity
  | |- known _ (opt_map _ _) = true => apply known_opt; reflexivity
  | |- known _ (ClientTypes.opt_bool _ _) = true => apply known_opt; reflexivity
  | |- known _ (ClientTypes.opt_time _ _) = true => apply known_ptr; reflexivity
  | |- known _ (opt_ptr _ _ _) = true => apply known_ptr; reflexivity
  | |- known _ (opt_field _ _ _) = true => apply known_opt; reflexivity
  | H : raw_opt _ _ = Ok ?fs |- known _ ?fs = true => eapply known_raw; [exact H|reflexivity]
  end.

Ltac meta := cbn [ClientTypes.md_ID ClientTypes.md_Name ClientTypes.md_Labels ClientTypes.md_Ownership ClientTypes.md_Protected
  ClientTypes.md_Generation ClientTypes.md_ObservedGeneration ClientTypes.md_CreatedAt ClientTypes.md_UpdatedAt ClientTypes.md_DeletedAt
  fst snd].
(** The field list of [fields]. *)
Ltac flat := unfold fields, str; cbn [mjoin list_join]; rewrite ?List.app_nil_r.

Section bodies.
Context `{TimeText} (strict : bool).

Definition time_ok (t : option string) : Prop := ∀ s, t = Some s → valid_time s = true.
Record meta_ok (m : ClientTypes.Metadata) : Prop := {
  mo_generation : in64 (ClientTypes.md_Generation m); mo_observed : in64 (ClientTypes.md_ObservedGeneration m);
  mo_created : time_ok (ClientTypes.md_CreatedAt m); mo_updated : time_ok (ClientTypes.md_UpdatedAt m);
  mo_deleted : time_ok (ClientTypes.md_DeletedAt m) }.

Lemma dec_checked name t : time_ok t → dec_field name dec_time (ClientTypes.opt_time name t) tt = Ok tt.
Proof. intros Ht. destruct t as [s|]; simpl; [|done]. rewrite key_match_refl. by rewrite (Ht s eq_refl). Qed.

Ltac step :=
  first [ rewrite dec_bool_skip by reflexivity | rewrite dec_time_skip by reflexivity
        | rewrite dec_opt_bool | rewrite dec_checked by done
        | match goal with Hr : raw_opt ?k ?r = Ok ?fs |- context [dec_field ?n dec_raw ?fs RawEmpty] =>
            rewrite (dec_opt_raw k r fs Hr) end
        | match goal with Hr : raw_opt ?k ?r = Ok ?fs |- context [dec_field ?n ?d ?fs ?old] =>
            rewrite (dec_raw_skip n k d r fs old Hr) by reflexivity end
        | dec_step ].
Ltac decode := unfold andThen; cbn [dec_object]; rewrite ?known_fields_ok by known_tac; repeat step.

Lemma read_Metadata_ok m : meta_ok m →
  dec_Metadata strict (ClientTypes.enc_Metadata m) (""%string, ∅) = Ok (ClientTypes.md_Name m, ClientTypes.md_Labels m).
Proof.
  intros [H1 H2 H3 H4 H5]. destruct m as [id name labels own prot gen obs created updated deleted].
  unfold dec_Metadata, ClientTypes.enc_Metadata. cbn in H1, H2, H3, H4, H5. meta. flat.
  decode. done.
Qed.
(** The metadata field, there or left out. *)
Lemma read_meta_field m : meta_ok m →
  dec_field "metadata" (dec_Metadata strict) (ClientTypes.opt_Metadata m) (""%string, ∅) =
  Ok (ClientTypes.md_Name m, ClientTypes.md_Labels m).
Proof.
  intros Hm. unfold ClientTypes.opt_Metadata. case_bool_decide as Hz; [by subst m|].
  cbn [negb opt_field dec_field]. rewrite key_match_refl. by rewrite read_Metadata_ok.
Qed.
Lemma meta_skip {A} name (d : json → A → result A) m old : key_match "metadata" name = false →
  dec_field name d (ClientTypes.opt_Metadata m) old = Ok old.
Proof. apply dec_opt_skip. Qed.
Lemma known_meta names m : existsb (key_match "metadata") names = true → known names (ClientTypes.opt_Metadata m) = true.
Proof. apply known_opt. Qed.

Lemma read_ResourceSpec_ok s j : ClientTypes.enc_ResourceSpec s = Ok j →
  dec_ResourceSpec strict j (""%string, ""%string, ""%string, RawEmpty) =
  Ok (ClientTypes.rs_Kind s, ClientTypes.rs_Provider s, ClientTypes.rs_Class s, ClientTypes.rs_Machine s).
Proof.
  destruct s as [kind prov class machine]. unfold ClientTypes.enc_ResourceSpec.
  cbn [ClientTypes.rs_Kind ClientTypes.rs_Provider ClientTypes.rs_Class ClientTypes.rs_Machine].
  intros Hs. apply RangeFacts.andThen_Ok in Hs as (fs & Hr & [= <-]). unfold dec_ResourceSpec. flat. decode. done.
Qed.

Ltac step_meta := first [ rewrite meta_skip by reflexivity | rewrite read_meta_field by done | step ].
Ltac decode_meta :=
  unfold andThen; cbn [dec_object];
  rewrite ?known_fields_ok by (known_tac; try (apply known_meta; reflexivity); known_tac); repeat step_meta.

Lemma read_create_ok req j : meta_ok (ClientTypes.cq_Metadata req) → ClientTypes.enc_CreateResourceRequest req = Ok j →
  let m := ClientTypes.cq_Metadata req in let s := ClientTypes.cq_Spec req in
  dec_CreateResourceRequest strict j = Ok (ClientTypes.md_Name m, ClientTypes.md_Labels m,
    (ClientTypes.rs_Kind s, ClientTypes.rs_Provider s, ClientTypes.rs_Class s, ClientTypes.rs_Machine s)).
Proof.
  destruct req as [version kind m s]. unfold ClientTypes.enc_CreateResourceRequest.
  cbn [ClientTypes.cq_APIVersion ClientTypes.cq_Kind ClientTypes.cq_Metadata ClientTypes.cq_Spec].
  intros Hm Hs. apply RangeFacts.andThen_Ok in Hs as (js & Hs & [= <-]). apply read_ResourceSpec_ok in Hs.
  unfold dec_CreateResourceRequest. flat. decode_meta. rewrite Hs. done.
Qed.

Lemma read_acquire_ok req j : in64 (ar_Quantity req) → ClientTypes.enc_AcquireRequest req = Ok j →
  dec_AcquireRequest strict j = Ok req.
Proof.
  destruct req as [kind class quantity constraints exclusive ttl wait key]. unfold ClientTypes.enc_AcquireRequest.
  cbn [ar_Kind ar_Class ar_Quantity ar_Constraints ar_Exclusive ar_TTL ar_MaxWait ar_IdempotencyKey].
  intros Hq Hs. apply RangeFacts.andThen_Ok in Hs as (fs & Hr & [= <-]).
  assert (dec_field "lease" (dec_ptr ""%string (dec_LeaseRequest strict)) (opt_ptr "lease" ClientTypes.enc_LeaseRequest ttl) None = Ok ttl) as Hl.
  { apply dec_opt_ptr. intros t ->. split; [|done]. unfold ClientTypes.enc_LeaseRequest, dec_LeaseRequest. flat. decode. done. }
  unfold dec_AcquireRequest. flat. decode. rewrite Hl. decode. done.
Qed.

Lemma dec_raw_field name r fs : raw_field name r = Ok fs → dec_field name dec_raw fs RawEmpty = Ok (sent_raw r).
Proof. destruct r; simpl; intros [= <-]; simpl; by rewrite key_match_refl. Qed.
Lemma raw_field_skip {A} name k (d : json → A → result A) r fs old : raw_field k r = Ok fs → key_match k name = false →
  dec_field name d fs old = Ok old.
Proof. intros Hr Hk. destruct r; simpl in Hr; simplify_eq; simpl; by rewrite Hk. Qed.
Lemma known_raw_field names k r fs : raw_field k r = Ok fs → existsb (key_match k) names = true → known names fs = true.
Proof. intros Hr Hk. destruct r; simpl in Hr; simplify_eq; unfold known; simpl; by rewrite Hk. Qed.
Ltac step_raw :=
  first [ match goal with Hr : raw_field ?k ?r = Ok ?fs |- context [dec_field ?n dec_raw ?fs RawEmpty] =>
            rewrite (dec_raw_field k r fs Hr) end
        | match goal with Hr : raw_field ?k ?r = Ok ?fs |- context [dec_field ?n ?d ?fs ?old] =>
            rewrite (raw_field_skip n k d r fs old Hr) by reflexivity end
        | step_meta ].
Ltac decode_raw :=
  unfold andThen; cbn [dec_object];
  rewrite ?known_fields_ok by (repeat first [ progress known_tac | apply known_meta; reflexivity
    | eapply known_raw_field; [eassumption|reflexivity] ]); repeat step_raw.

Lemma read_pool_ok m j : meta_ok (ClientTypes.pm_Metadata m) → ClientTypes.enc_PoolManifest m = Ok j →
  dec_PoolManifest strict j = Ok (ClientTypes.md_Name (ClientTypes.pm_Metadata m), sent_raw (ClientTypes.pm_Spec m)).
Proof.
  destruct m as [version kind m spec]. unfold ClientTypes.enc_PoolManifest.
  cbn [ClientTypes.pm_APIVersion ClientTypes.pm_Kind ClientTypes.pm_Metadata ClientTypes.pm_Spec].
  intros Hm Hs. apply RangeFacts.andThen_Ok in Hs as (fs & Hr & [= <-]).
  unfold dec_PoolManifest. flat. decode_raw. done.
Qed.

Lemma read_class_spec_ok s j : ClientTypes.enc_ClassSpec s = Ok j →
  dec_ClassSpec strict j ClientTypes.zeroClassSpec =
  Ok (MkClassSpec (cs_Kind s) (cs_Provider s) (sent_raw (cs_Template s)) (cs_Reclaim s) (cs_MaxWait s)).
Proof.
  destruct s as [kind prov template reclaim wait]. unfold ClientTypes.enc_ClassSpec.
  cbn [cs_Kind cs_Provider cs_Template cs_Reclaim cs_MaxWait].
  intros Hs. apply RangeFacts.andThen_Ok in Hs as (fs & Hr & [= <-]).
  assert (dec_field "reclaim" (dec_ptr (""%string, ""%string, ""%string) (dec_ClassReclaim strict))
    (opt_ptr "reclaim" ClientTypes.enc_reclaim reclaim) None = Ok reclaim) as Hrec.
  { apply dec_opt_ptr. intros [[idle park] del] ->. split; [|done]. unfold ClientTypes.enc_reclaim, dec_ClassReclaim. flat. decode. done. }
  assert (dec_field "scheduling" (dec_ptr None (dec_ClassScheduling strict))
    (opt_ptr "scheduling" ClientTypes.enc_scheduling wait) None = Ok (Some <$> wait)) as Hsched.
  { destruct wait as [w|]; [|done]. cbn [opt_ptr dec_field fmap option_fmap option_map]. rewrite key_match_refl.
    unfold dec_ptr, ClientTypes.enc_scheduling, dec_ClassScheduling. flat. cbn [from_option id]. decode.
    unfold dec_ptr, dec_ClassQueue. flat. cbn [from_option id]. decode. done. }
  unfold dec_ClassSpec, ClientTypes.zeroClassSpec. cbn [cs_Kind cs_Provider cs_Template cs_Reclaim cs_MaxWait]. flat.
  decode_raw. rewrite Hrec. decode_raw. cbn [fmap option_fmap option_map]. rewrite Hsched. by destruct wait.
Qed.
Lemma read_class_ok m j : meta_ok (ClientTypes.cm_Metadata m) → ClientTypes.enc_ClassManifest m = Ok j →
  let s := ClientTypes.cm_Spec m in
  dec_ClassManifest strict j = Ok (ClientTypes.md_Name (ClientTypes.cm_Metadata m),
    MkClassSpec (cs_Kind s) (cs_Provider s) (sent_raw (cs_Template s)) (cs_Reclaim s) (cs_MaxWait s)).
Proof.
  destruct m as [version kind m s]. unfold ClientTypes.enc_ClassManifest.
  cbn [ClientTypes.cm_APIVersion ClientTypes.cm_Kind ClientTypes.cm_Metadata ClientTypes.cm_Spec].
  intros Hm Hs. apply RangeFacts.andThen_Ok in Hs as (js & Hs & [= <-]). apply read_class_spec_ok in Hs.
  unfold dec_ClassManifest. flat. decode_meta. fold ClientTypes.zeroClassSpec. rewrite Hs. done.
Qed.
End bodies.

(** ** Every method reaches its command *)

Lemma substring_all s n : (String.length s ≤ n)%nat → String.substring 0 n s = s.
Proof.
  revert n. induction s as [|c s IH]; intros [|n] Hn; simpl in *; [done|done|lia|]. rewrite IH; [done|lia].
Qed.
Lemma CutLast_none c s : str_has c s = false → CutLast c s = None.
Proof.
  induction s as [|d s IH]; simpl; [done|]. intros [Hd%bool_decide_eq_false Hs]%orb_false_iff.
  by rewrite (IH Hs), decide_False.
Qed.
Lemma CutLast_app c s t : str_has c t = false → CutLast c (s +:+ String c t) = Some (s, t).
Proof.
  intros Ht. induction s as [|d s IH]; simpl.
  - by rewrite (CutLast_none _ _ Ht), decide_True.
  - by rewrite IH.
Qed.
Lemma splitVerb_app id verb : id ≠ ""%string → verb ≠ ""%string → str_has ":" verb = false →
  splitVerb (id +:+ ":" +:+ verb) = Some (id, verb).
Proof.
  intros Hi Hv Hc. unfold splitVerb. change (":" +:+ verb)%string with (String ":" verb). rewrite CutLast_app by done.
  by destruct id, verb.
Qed.

Section reach.
Context `{ULID} {P : Type} `{Providers P} `{TimeText} `{Wording}.
Context (b : Boot) (auth : TokenAuthenticator) (health : option HealthTracker) (event_id : nat → string) (c : Client.Client).

Abbreviation handler := (M (Sys P) Reply).
Abbreviation routes := (Routes (P := P) b health event_id).
#[local] Instance here : Client.RoundTrip (Sys P) := served b auth health event_id true (Client.c_base c).

Definition bearer : string := if decide (Client.c_token c = ""%string) then ""%string else ("Bearer " +:+ Client.c_token c)%string.
(** What the middleware sees of the caller. *)
Definition caller : Http := MkHttp "" [] [] (TrimSpace bearer) "" "".
Definition outcome {A} (call : Call A) : Client.C (Sys P) A := λ s,
  let '(r, s) := withMiddleware auth (permission call) caller (command b health event_id call) s in
  (Client.answered (reading call) (match r with Ok rep => Some (rp_Status rep, reply_text rep) | Err _ => None end), s).

(** The document of a body, small enough to be accepted. *)
Definition writable (j : result json) : Prop :=
  ∃ d, j = Ok d ∧ TextFacts.integral d = true ∧ (maxBody <? String.length (print d))%nat = false.
Definition key_ok (key : string) : Prop := sendable key = true ∧ TrimSpace key = key.
Definition name_ok (name : string) : Prop := name ≠ ""%string ∧ keeps name.

(** What a call needs: ids the service could have given out, keys and
    documents that can be sent. *)
Definition wf {A} (call : Call A) : Prop :=
  match call with
  | CreateResource_ req key => key_ok key ∧ meta_ok (ClientTypes.cq_Metadata req) ∧ writable (ClientTypes.enc_CreateResourceRequest req)
  | Acquire_ req key => key_ok key ∧ in64 (ar_Quantity req) ∧ writable (ClientTypes.enc_AcquireRequest req)
  | ApplyPool_ m => meta_ok (ClientTypes.pm_Metadata m) ∧ writable (ClientTypes.enc_PoolManifest m)
  | CreateClass_ m => meta_ok (ClientTypes.cm_Metadata m) ∧ writable (ClientTypes.enc_ClassManifest m)
  | UpsertClass_ name m => name_ok name ∧ meta_ok (ClientTypes.cm_Metadata m) ∧ writable (ClientTypes.enc_ClassManifest m)
  | DeleteResource_ id key => plain_id id ∧ key_ok key
  | GetResource_ id | DrainResource_ id | UndrainResource_ id | ProtectResource_ id | UnprotectResource_ id
  | GetAcquisition_ id | Release_ id | GetPool_ id | PausePool_ id | ResumePool_ id | ReconcilePool_ id
  | DeletePool_ id | GetOperation_ id => plain_id id
  | ParkResource_ id | StartResource_ id | GetClass_ id | DeleteClass_ id => name_ok id
  | ListEvents_ _ _ _ n => n ≤ max64
  | ListResources_ _ | ListAcquisitions_ _ _ | ListPools_ | ListOperations_ | ListProviders_ | ListClasses_ => True
  end.

Lemma middleware_caller perm r h s : h_Authorization r = TrimSpace bearer →
  withMiddleware (P := P) auth perm r h s = withMiddleware auth perm caller h s.
Proof. intros Hr. unfold withMiddleware. by rewrite Hr. Qed.

(** The exchange of a call whose request names a route. *)
Lemma reach {A} (call : Call A) method path (body : option string) key rt v segs query s :
  sendable bearer = true → sendable key = true → parse_target path = Some (segs, query) →
  let r := MkHttp method segs query (TrimSpace bearer) (TrimSpace key) (default ""%string body) in
  ApiFacts.resolved b health event_id rt r v → rt_Perm rt = permission call →
  (∀ p s, rt_handler rt r p v s = command b health event_id call p s) →
  (let '(reply, s) := Client.round_trip (Client.request c method path body key) s in
   (Client.answered (reading call) reply, s)) = outcome call s.
Proof.
  intros Hb Hk Hp r Hr Hperm Hh. unfold Client.round_trip, here, served, arrives, Client.request.
  cbn [Client.q_URL Client.q_IdempotencyKey Client.q_Authorization Client.q_Method Client.q_Body].
  fold bearer. rewrite CutPrefix_append. cbn [mbind option_bind]. rewrite Hp. cbn [mbind option_bind]. rewrite Hb, Hk.
  cbn [andb]. fold r. unfold mutationGate. cbn [negb andb].
  rewrite (ApiFacts.resolved_Handler b auth health event_id rt r v s Hr), Hperm, middleware_caller by done.
  unfold outcome.
  assert (withMiddleware auth (permission call) caller (λ p, rt_handler rt r p v) s =
          withMiddleware auth (permission call) caller (command b health event_id call) s) as ->.
  { unfold withMiddleware. destruct (Enabled auth); [|apply Hh].
    destruct (Authenticate _ _); [|done]. destruct (Allows _ _); [apply Hh|done]. }
  by destruct (withMiddleware _ _ _ _ _) as [[rep|e] s'].
Qed.

(** ** The three shapes of a route *)

Abbreviation resolved := (ApiFacts.resolved (P := P) b health event_id).
Definition pattern (rt : RouteDef (P := P)) : list string := tail (Split "/" (rt_Pattern rt)).

Lemma resolved_collection n rt r coll : routes !! n = Some rt → method_ok rt r = true → rt_Verb rt = ""%string →
  pattern rt = ["v1"%string; coll] → wildcard coll = None → h_Path r = ["v1"%string; coll] → resolved rt r (λ _, ""%string).
Proof.
  intros Hn Hm Hv Hp Hw Hr. split; [by eapply list_elem_of_lookup_2|]. split; [done|]. exists (λ _, ""%string).
  split; [|by left]. unfold path_values. fold (pattern rt). rewrite Hp, Hr. cbn [match_path]. rewrite Hw.
  change (wildcard "v1") with (@None string). cbn [match_path]. by rewrite !decide_True.
Qed.
Lemma one_value coll wc k seg r rt : pattern rt = ["v1"%string; coll; wc] → wildcard coll = None → wildcard wc = Some k →
  h_Path r = ["v1"%string; coll; seg] → seg ≠ ""%string →
  path_values rt r = Some (λ k', if decide (k' = k) then seg else ""%string).
Proof.
  intros Hp Hw Hk Hr Hs. unfold path_values. fold (pattern rt). rewrite Hp, Hr. cbn [match_path]. rewrite Hw, Hk.
  change (wildcard "v1") with (@None string). cbn [match_path]. by rewrite !decide_True, decide_False by done.
Qed.
Lemma resolved_one n rt r coll wc k seg : routes !! n = Some rt → method_ok rt r = true → rt_Verb rt = ""%string →
  pattern rt = ["v1"%string; coll; wc] → wildcard coll = None → wildcard wc = Some k →
  h_Path r = ["v1"%string; coll; seg] → seg ≠ ""%string →
  resolved rt r (λ k', if decide (k' = k) then seg else ""%string).
Proof.
  intros Hn Hm Hv Hp Hw Hk Hr Hs. split; [by eapply list_elem_of_lookup_2|]. split; [done|].
  eexists. split; [by eapply one_value|by left].
Qed.
Lemma resolved_verb n rt r coll id verb : routes !! n = Some rt → method_ok rt r = true → rt_Verb rt = verb →
  verb ≠ ""%string → str_has ":" verb = false → pattern rt = ["v1"%string; coll; "{idverb}"%string] → wildcard coll = None →
  h_Path r = ["v1"%string; coll; id +:+ ":" +:+ verb] → id ≠ ""%string →
  resolved rt r (λ k, if decide (k = "id"%string) then id else
                      if decide (k = "idverb"%string) then (id +:+ ":" +:+ verb)%string else ""%string).
Proof.
  intros Hn Hm Hv Hne Hc Hp Hw Hr Hi. split; [by eapply list_elem_of_lookup_2|]. split; [done|].
  eexists. split; [eapply one_value; [done|done|reflexivity|done|by destruct id]|]. right. rewrite Hv. split; [done|].
  exists id. split; [|done]. rewrite decide_True by done. by apply splitVerb_app.
Qed.

Lemma plain_seg id : plain_id id → written_as id id ∧ id ≠ ""%string.
Proof.
  intros (Hne & Hk & Ha). split; [|done]. rewrite <-(TextFacts.app_nil_r id). apply plain_as; [done|done|].
  by rewrite TextFacts.app_nil_r.
Qed.
Lemma keeps_verb id verb : keeps (id +:+ ":" +:+ verb).
Proof.
  assert (str_has ":" (id +:+ ":" +:+ verb) = true) as Hh by (rewrite !str_has_app; apply orb_true_r).
  split; intros He; by rewrite He in Hh.
Qed.
Lemma plain_verb id verb : plain_id id → verb ≠ ""%string → str_all unreserved verb = true →
  written_as (id +:+ ":" +:+ verb) (id +:+ ":" +:+ verb) ∧ id ≠ ""%string.
Proof.
  intros (Hne & Hk & Ha) Hv Hu. split; [|done]. apply plain_as; [done| |apply keeps_verb].
  change (":" +:+ verb)%string with (String ":" verb). cbn [str_all]. apply andb_true_iff. split; [done|].
  eapply str_all_impl; [|exact Hu]. intros x Hx. unfold path_char. by rewrite Hx.
Qed.
Lemma name_seg name : name_ok name → written_as (PathEscape name) name ∧ name ≠ ""%string.
Proof.
  intros [Hne Hk]. split; [|done]. pose proof (escaped_as name "" eq_refl) as He.
  rewrite !TextFacts.app_nil_r in He. by apply He.
Qed.
Lemma name_verb id verb : name_ok id → verb ≠ ""%string → str_all unreserved verb = true →
  written_as (PathEscape id +:+ ":" +:+ verb) (id +:+ ":" +:+ verb) ∧ id ≠ ""%string.
Proof.
  intros [Hne Hk] Hv Hu. split; [|done]. apply escaped_as; [|apply keeps_verb].
  change (":" +:+ verb)%string with (String ":" verb). cbn [str_all]. apply andb_true_iff. split; [done|].
  eapply str_all_impl; [|exact Hu]. intros x Hx. unfold path_char. by rewrite Hx.
Qed.

(** The body of a writable document. *)
Lemma writable_body j : writable j → ∃ d, j = Ok d ∧ decode_first (print d) = Ok d ∧ (maxBody <? String.length (print d))%nat = false.
Proof. intros (d & -> & Hi & Hl). exists d. split; [done|]. split; [by apply read_print|done]. Qed.

Lemma own_method (rt : RouteDef (P := P)) m segs query au key body : rt_Method rt = m → method_ok rt (MkHttp m segs query au key body) = true.
Proof. intros Hm. unfold method_ok. by rewrite bool_decide_eq_true_2. Qed.

Section exchange.
Context {A : Type} (call : Call A) (method : string) (body : option string) (key : string) (n : nat) (rt : RouteDef (P := P)).
Context (Hb : sendable bearer = true) (Hk : sendable key = true) (Hn : routes !! n = Some rt)
  (Hm : rt_Method rt = method) (Hperm : rt_Perm rt = permission call).
Definition exchanged (path : string) (s : Sys P) : (Client.failure + A) * Sys P :=
  let '(reply, s) := Client.round_trip (Client.request c method path body key) s in
  (Client.answered (reading call) reply, s).

Lemma reach_one coll enc seg wc k s : rt_Verb rt = ""%string → pattern rt = ["v1"%string; coll; wc] →
  wildcard coll = None → wildcard wc = Some k → coll ∈ collections → written_as enc seg ∧ seg ≠ ""%string →
  (∀ p s, rt_handler rt (MkHttp method ["v1"%string; coll; seg] [] (TrimSpace bearer) (TrimSpace key) (default ""%string body)) p
            (λ k', if decide (k' = k) then seg else ""%string) s = command b health event_id call p s) →
  exchanged ("/v1/" +:+ coll +:+ "/" +:+ enc) s = outcome call s.
Proof.
  intros Hv Hp Hw Hwc Hcoll [Hseg Hne] Hh.
  eapply (reach call method _ body key rt); [done|done|by apply parse_in| |done|exact Hh].
  by eapply resolved_one; [|apply own_method|..].
Qed.
Lemma reach_verb coll enc id verb s : rt_Verb rt = verb → verb ≠ ""%string → str_has ":" verb = false →
  pattern rt = ["v1"%string; coll; "{idverb}"%string] → wildcard coll = None → coll ∈ collections →
  written_as (enc +:+ ":" +:+ verb) (id +:+ ":" +:+ verb) ∧ id ≠ ""%string →
  (∀ p s, rt_handler rt (MkHttp method ["v1"%string; coll; (id +:+ ":" +:+ verb)%string] [] (TrimSpace bearer) (TrimSpace key)
                           (default ""%string body)) p
            (λ k, if decide (k = "id"%string) then id else
                  if decide (k = "idverb"%string) then (id +:+ ":" +:+ verb)%string else ""%string) s
          = command b health event_id call p s) →
  exchanged ("/v1/" +:+ coll +:+ "/" +:+ enc +:+ ":" +:+ verb) s = outcome call s.
Proof.
  intros Hv Hve Hc Hp Hw Hcoll [Hseg Hne] Hh.
  eapply (reach call method _ body key rt); [done|done|by apply parse_in| |done|exact Hh].
  by eapply resolved_verb; [|apply own_method|..].
Qed.
Lemma reach_collection coll path query s : rt_Verb rt = ""%string → pattern rt = ["v1"%string; coll] → wildcard coll = None →
  parse_target path = Some (["v1"%string; coll], query) →
  (∀ p s, rt_handler rt (MkHttp method ["v1"%string; coll] query (TrimSpace bearer) (TrimSpace key) (default ""%string body)) p
            (λ _, ""%string) s = command b health event_id call p s) →
  exchanged path s = outcome call s.
Proof.
  intros Hv Hp Hw Hpath Hh.
  eapply (reach call method path body key rt); [done|done|exact Hpath| |done|exact Hh].
  by eapply resolved_collection; [|apply own_method|..].
Qed.
End exchange.

Ltac as_exchange call m body key path :=
  match goal with |- _ = outcome _ ?s => change (exchanged call m body key path s = outcome call s) end.
Ltac one call m body key coll enc n seg :=
  as_exchange call m body key ("/v1/" +:+ coll +:+ "/" +:+ enc)%string;
  eapply (reach_one call m body key n); [done|done|reflexivity|reflexivity|reflexivity|reflexivity|reflexivity|reflexivity|reflexivity
    |unfold collections; set_solver|exact seg|try done].
Ltac verb call coll enc word n seg :=
  as_exchange call "POST"%string (@None string) ""%string ("/v1/" +:+ coll +:+ "/" +:+ enc +:+ ":" +:+ word)%string;
  eapply (reach_verb call _ None "" n); [done|done|reflexivity|reflexivity|reflexivity|reflexivity|done|reflexivity|reflexivity|reflexivity
    |unfold collections; set_solver|exact seg|done].
Ltac coll call m body key path n :=
  as_exchange call m body key path;
  eapply (reach_collection call m body key n); [done|try done|reflexivity|reflexivity|reflexivity|reflexivity|reflexivity|reflexivity| |try done].

(** The bodies, decoded at their handlers. *)
Lemma create_decoded req key d r p s : key_ok key → meta_ok (ClientTypes.cq_Metadata req) →
  ClientTypes.enc_CreateResourceRequest req = Ok d → decode_first (print d) = Ok d → (maxBody <? String.length (print d))%nat = false →
  h_Body r = print d → h_IdempotencyKey r = TrimSpace key →
  createResource b r p s = create b req key p s.
Proof.
  intros [_ Hk] Hm He Hd Hl Hr Hkey. unfold createResource, too_large, create, text. rewrite Hr, Hl, Hd, He, Hkey, Hk.
  by rewrite (read_create_ok true req d Hm He).
Qed.
Lemma acquire_decoded req key d r p s : key_ok key → in64 (ar_Quantity req) →
  ClientTypes.enc_AcquireRequest req = Ok d → decode_first (print d) = Ok d → (maxBody <? String.length (print d))%nat = false →
  h_Body r = print d → h_IdempotencyKey r = TrimSpace key →
  createAcquisition b r p s = acquire b req key p s.
Proof.
  intros [_ Hk] Hm He Hd Hl Hr Hkey. unfold createAcquisition, too_large, acquire, text. rewrite Hr, Hl, Hd, He, Hkey, Hk.
  by rewrite (read_acquire_ok true req d Hm He).
Qed.
Lemma class_decoded name m must d r p s : meta_ok (ClientTypes.cm_Metadata m) →
  ClientTypes.enc_ClassManifest m = Ok d → decode_first (print d) = Ok d → (maxBody <? String.length (print d))%nat = false →
  h_Body r = print d → upsertClass b r p name must s = define_class b name m must p s.
Proof.
  intros Hm He Hd Hl Hr. unfold upsertClass, define_class. rewrite Hr, substring_all by (by apply Nat.ltb_ge). rewrite Hd.
  by rewrite (read_class_ok true m d Hm He).
Qed.

Lemma pool_decoded m d r p s : meta_ok (ClientTypes.pm_Metadata m) →
  ClientTypes.enc_PoolManifest m = Ok d → TextFacts.integral d = true → (maxBody <? String.length (print d))%nat = false →
  h_Body r = print d → upsertPool r p "" s = command b health event_id (ApplyPool_ m) p s.
Proof.
  intros Hm He Hi Hl Hr. unfold upsertPool, too_large. rewrite Hr, Hl, TextFacts.json_round_trip by done.
  by rewrite (read_pool_ok false m d Hm He).
Qed.
(** What a listing finds in the query. *)
Lemma q_all_pairs k m segs q au key body : q_all k (MkHttp m segs (pairs q) au key body) = default [] (q !! k).
Proof. apply vals_of_pairs. Qed.
Lemma set_lookup k k' v q : default [] ((if decide (v = ""%string) then q else Values_Set k v q) !! k') =
  if decide (k' = k) then (if decide (v = ""%string) then default [] (q !! k) else [v]) else default [] (q !! k').
Proof.
  unfold Values_Set. destruct (decide (k' = k)) as [->|]; case_decide; try done.
  - by rewrite lookup_insert_eq.
  - by rewrite lookup_insert_ne.
Qed.
(** The values of the filter's own keys. *)
Definition given (o : string) : list string := if decide (o = ""%string) then [] else [o].
Lemma q_one o : default ""%string (head (given o)) = o.
Proof. unfold given. case_decide; by subst. Qed.
Lemma query_value f k : default [] (Client.query f !! k) =
  (if decide (k = "pool"%string) then given (Client.f_Pool f) else
   if decide (k = "provider"%string) then given (Client.f_Provider f) else
   if decide (k = "class"%string) then given (Client.f_Class f) else
   if decide (k = "kind"%string) then given (Client.f_Kind f) else []) ++
  (if decide (k = "phase"%string) then Client.f_Phases f else []).
Proof.
  unfold Client.query, given. cbv zeta. rewrite added. f_equal.
  destruct (decide (k = "pool"%string)) as [->|H4]; [by rewrite set_lookup, decide_True, !set_lookup|].
  rewrite set_lookup, (decide_False (P := k = "pool"%string)) by done.
  destruct (decide (k = "provider"%string)) as [->|H5]; [by rewrite set_lookup, decide_True, !set_lookup|].
  rewrite set_lookup, (decide_False (P := k = "provider"%string)) by done.
  destruct (decide (k = "class"%string)) as [->|H6]; [by rewrite set_lookup, decide_True, !set_lookup|].
  rewrite set_lookup, (decide_False (P := k = "class"%string)) by done.
  destruct (decide (k = "kind"%string)) as [->|H7]; [by rewrite set_lookup, decide_True|].
  by rewrite set_lookup, (decide_False (P := k = "kind"%string)).
Qed.
Lemma page_limit_written n : 0 < n ≤ max64 → page_limit (fmtInt n "") = if decide (0 < n ≤ 1000) then n else 100.
Proof.
  intros Hn. destruct (TextFacts.fmtInt_first n "") as (d & ds & Hd & Hz & Hds & -> & Hnum); [unfold max64 in Hn; lia|].
  assert (Forall DurationFacts.is_num (d :: ds)) as Hall by (by constructor).
  unfold page_limit.
  replace (match DurationFacts.render (d :: ds) "" with String "+" s' => s' | _ => DurationFacts.render (d :: ds) "" end)
    with (DurationFacts.render (d :: ds) "").
  - rewrite (TextFacts.span_digits_render (d :: ds) "" Hall I). cbn [DurationFacts.render].
    change (String (digit_char d) (DurationFacts.render ds "")) with (DurationFacts.render (d :: ds) "").
    by rewrite TextFacts.digits_value_render, Hnum.
  - cbn [DurationFacts.render]. unfold DurationFacts.is_num in Hd.
    assert (d = 1 ∨ d = 2 ∨ d = 3 ∨ d = 4 ∨ d = 5 ∨ d = 6 ∨ d = 7 ∨ d = 8 ∨ d = 9) as Hc by lia.
    repeat destruct Hc as [->|Hc]; try subst; reflexivity.
Qed.
Lemma events_value after since res n k : default [] (Client.events_query after since res n !! k) =
  if decide (k = "limit"%string) then (if decide (0 < n) then [fmtInt n ""] else []) else
  if decide (k = "resource"%string) then given res else
  if decide (k = "since"%string) then given since else
  if decide (k = "after"%string) then given after else [].
Proof.
  unfold Client.events_query, given. cbv zeta.
  assert (∀ q : Values, default [] ((if decide (0 < n) then Values_Set "limit" (fmtInt n "") q else q) !! k) =
    if decide (k = "limit"%string) then (if decide (0 < n) then [fmtInt n ""] else default [] (q !! k)) else default [] (q !! k)) as ->.
  { intros q. unfold Values_Set. destruct (decide (0 < n)), (decide (k = "limit"%string)) as [->|]; try done;
      [by rewrite lookup_insert_eq|by rewrite lookup_insert_ne]. }
  rewrite !set_lookup, lookup_empty. destruct (decide (k = "limit"%string)) as [->|]; [done|].
  destruct (decide (k = "resource"%string)) as [->|]; [done|]. destruct (decide (k = "since"%string)) as [->|]; [done|].
  by destruct (decide (k = "after"%string)) as [->|].
Qed.
Lemma events_decoded after since res n m segs au key body s : n ≤ max64 →
  listEvents event_id (P := P) (MkHttp m segs (pairs (Client.events_query after since res n)) au key body) s =
  list_events event_id after since res n s.
Proof.
  intros Hn. unfold listEvents. set (r := MkHttp _ _ _ _ _ _).
  assert (∀ k, q_get k r = default ""%string (head (default [] (Client.events_query after since res n !! k)))) as Hget.
  { intros k. unfold q_get, r. by rewrite q_all_pairs. }
  assert (q_get "since" r = since) as -> by (rewrite Hget, events_value; apply q_one).
  assert (q_get "resource" r = res) as -> by (rewrite Hget, events_value; apply q_one).
  assert (q_get "after" r = after) as -> by (rewrite Hget, events_value; apply q_one).
  assert (page_limit (q_get "limit" r) = if decide (0 < n ≤ 1000) then n else 100) as ->; [|done].
  rewrite Hget, events_value, decide_True by done. destruct (decide (0 < n)) as [Hp|Hp]; [by apply page_limit_written|].
  by rewrite decide_False by (by intros [? _]).
Qed.
Lemma performed A (call : Call A) s : sendable bearer = true → wf call →
  perform b auth health event_id true (Client.c_base c) c call s = outcome call s.
Proof.
  intros Hb Hwf. destruct call; cbn [wf] in Hwf.
  - destruct Hwf as (Hkey & Hm & Hw). destruct (writable_body _ Hw) as (d & He & Hd & Hl).
    unfold perform, Client.CreateResource, Client.do_. rewrite He.
    coll (CreateResource_ req key) "POST"%string (Some (print d)) key "/v1/resources"%string 4%nat; [apply Hkey|reflexivity|].
    intros p s'. by apply (create_decoded req key d).
  - one (GetResource_ id) "GET"%string (@None string) ""%string "resources"%string id 6%nat (plain_seg _ Hwf).
  - coll (ListResources_ f) "GET"%string (@None string) ""%string (Client.withQuery "/v1/resources" (Client.query f)) 5%nat;
      [apply (parse_listing "resources"); set_solver|].
    intros p s'. cbn [rt_handler command]. unfold listResources, q_get. rewrite !q_all_pairs, !query_value.
    match goal with |- ?l s' = ?r s' => change (list_resources (Client.f_Phases f) (default "" (head (given (Client.f_Kind f) ++ [])))
      (default "" (head (given (Client.f_Provider f) ++ []))) (default "" (head (given (Client.f_Class f) ++ [])))
      (default "" (head (given (Client.f_Pool f) ++ []))) s' = r s')%string end.
    by rewrite !List.app_nil_r, !q_one.
  - destruct Hwf as (Hid & Hkey).
    as_exchange (DeleteResource_ id key) "DELETE"%string (@None string) key ("/v1/" +:+ "resources" +:+ "/" +:+ id)%string.
    eapply (reach_one (DeleteResource_ id key) "DELETE" None key 7); [done|apply Hkey|reflexivity..|unfold collections; set_solver
      |exact (plain_seg _ Hid)|]. intros p s'. cbn [rt_handler]. rewrite (proj2 Hkey). done.
  - verb (DrainResource_ id) "resources"%string id "drain"%string 8%nat (plain_verb id "drain" Hwf ltac:(done) eq_refl).
  - verb (UndrainResource_ id) "resources"%string id "undrain"%string 11%nat (plain_verb id "undrain" Hwf ltac:(done) eq_refl).
  - verb (ProtectResource_ id) "resources"%string id "protect"%string 12%nat (plain_verb id "protect" Hwf ltac:(done) eq_refl).
  - verb (UnprotectResource_ id) "resources"%string id "unprotect"%string 13%nat (plain_verb id "unprotect" Hwf ltac:(done) eq_refl).
  - verb (ParkResource_ id) "resources"%string (PathEscape id) "park"%string 9%nat (name_verb id "park" Hwf ltac:(done) eq_refl).
  - verb (StartResource_ id) "resources"%string (PathEscape id) "start"%string 10%nat (name_verb id "start" Hwf ltac:(done) eq_refl).
  - destruct Hwf as (Hkey & Hq & Hw). destruct (writable_body _ Hw) as (d & He & Hd & Hl).
    unfold perform, Client.Acquire, Client.do_. rewrite He.
    coll (Acquire_ req key) "POST"%string (Some (print d)) key "/v1/acquisitions"%string 0%nat; [apply Hkey|reflexivity|].
    intros p s'. by apply (acquire_decoded req key d).
  - one (GetAcquisition_ id) "GET"%string (@None string) ""%string "acquisitions"%string id 2%nat (plain_seg _ Hwf).
  - coll (ListAcquisitions_ states resource) "GET"%string (@None string) ""%string (Client.withQuery "/v1/acquisitions" (Client.acquisition_query states resource)) 1%nat;
      [apply (parse_listing "acquisitions"); set_solver|].
    intros p s'. cbn [rt_handler command]. unfold listAcquisitions, q_get. rewrite !q_all_pairs. unfold Client.acquisition_query. cbv zeta.
    rewrite !set_lookup, !added, lookup_empty.
    match goal with |- ?l s' = ?r s' =>
      change (list_acquisitions ([] ++ states) (default "" (head (given resource))) s' = r s')%string end.
    by rewrite q_one.
  - one (Release_ id) "DELETE"%string (@None string) ""%string "acquisitions"%string id 3%nat (plain_seg _ Hwf).
  - destruct Hwf as (Hm & Hw). destruct Hw as (d & He & Hi & Hl).
    unfold perform, Client.ApplyPool, Client.do_. rewrite He.
    coll (ApplyPool_ m) "POST"%string (Some (print d)) ""%string "/v1/pools"%string 14%nat; [reflexivity|].
    intros p s'. by apply (pool_decoded m d).
  - one (GetPool_ id) "GET"%string (@None string) ""%string "pools"%string id 16%nat (plain_seg _ Hwf).
  - coll ListPools_ "GET"%string (@None string) ""%string "/v1/pools"%string 15%nat. reflexivity.
  - verb (PausePool_ id) "pools"%string id "pause"%string 20%nat (plain_verb id "pause" Hwf ltac:(done) eq_refl).
  - verb (ResumePool_ id) "pools"%string id "resume"%string 21%nat (plain_verb id "resume" Hwf ltac:(done) eq_refl).
  - verb (ReconcilePool_ id) "pools"%string id "reconcile"%string 19%nat (plain_verb id "reconcile" Hwf ltac:(done) eq_refl).
  - one (DeletePool_ id) "DELETE"%string (@None string) ""%string "pools"%string id 18%nat (plain_seg _ Hwf).
  - one (GetOperation_ id) "GET"%string (@None string) ""%string "operations"%string id 28%nat (plain_seg _ Hwf).
  - coll ListOperations_ "GET"%string (@None string) ""%string "/v1/operations"%string 27%nat. reflexivity.
  - coll (ListEvents_ after since resource limit) "GET"%string (@None string) ""%string
      (Client.withQuery "/v1/events" (Client.events_query after since resource limit)) 30%nat;
      [apply (parse_listing "events"); set_solver|].
    intros p s'. by apply events_decoded.
  - coll ListProviders_ "GET"%string (@None string) ""%string "/v1/providers"%string 31%nat. reflexivity.
  - destruct Hwf as (Hm & Hw). destruct (writable_body _ Hw) as (d & He & Hd & Hl).
    unfold perform, Client.CreateClass, Client.do_. rewrite He.
    coll (CreateClass_ m) "POST"%string (Some (print d)) ""%string "/v1/classes"%string 22%nat; [reflexivity|].
    intros p s'. by apply (class_decoded "" m true d).
  - destruct Hwf as (Hname & Hm & Hw). destruct (writable_body _ Hw) as (d & He & Hd & Hl).
    unfold perform, Client.UpsertClass, Client.do_. rewrite He.
    one (UpsertClass_ name m) "PUT"%string (Some (print d)) ""%string "classes"%string (PathEscape name) 25%nat (name_seg _ Hname).
    intros p s'. by apply (class_decoded name m false d).
  - one (GetClass_ name) "GET"%string (@None string) ""%string "classes"%string (PathEscape name) 24%nat (name_seg _ Hwf).
  - coll ListClasses_ "GET"%string (@None string) ""%string "/v1/classes"%string 23%nat. reflexivity.
  - one (DeleteClass_ name) "DELETE"%string (@None string) ""%string "classes"%string (PathEscape name) 26%nat (name_seg _ Hwf).
Qed.

(** C8: every method of the client is one command of the service: with ids the
    service could have given out, keys that can be sent and documents that can
    be written and hold no fractions, the request reaches that command's route,
    with its permission and for the caller the token proves, the body decodes
    to the fields that were written, and the client makes of the reply what it
    makes of the command's. *)
Theorem client_is_service A (call : Call A) s : sendable bearer = true → wf call →
  perform b auth health event_id true (Client.c_base c) c call s = outcome call s.
Proof. apply performed. Qed.
End reach.

(** ** An operator at a machine *)

Import Demo ApiFacts.
#[local] Existing Instances Demo.clouds Demo.numbered Process.steady Process.offline ApiFacts.any_time.
#[local] Instance silent : Wording :=
  {| error_text := λ _ _, ""%string; request_id := ""%string; cause_text := λ _, ""%string |}.
Definition remote_operator : Client.Client := Client.MkClient "http://fleet:8080" "flp_0badcafe.hunter2".

(** With the token of the operator, the machine is drained; and a machine that
    is not there is the error of the service. *)
Lemma client_is_service_witness :
  (let '(r, s) := perform boot guard None no_ids true "http://fleet:8080" remote_operator (DrainResource_ "r1") s_ready in
   (r, r_Phase <$> db_Resources (w_DB (sy_World s)) !! "r1"%string)) = (inr tt, Some Draining) ∧
  (let '(r, s) := perform boot guard None no_ids true "http://fleet:8080" remote_operator (DrainResource_ "r7") s_ready in
   match r with inl (Client.APIError status _) => status | _ => 0 end) = 404.
Proof.
  split.
  - rewrite (client_is_service boot guard None no_ids remote_operator unit (DrainResource_ "r1") s_ready) by (by repeat split).
    vm_compute. reflexivity.
  - rewrite (client_is_service boot guard None no_ids remote_operator unit (DrainResource_ "r7") s_ready) by (by repeat split).
    vm_compute. reflexivity.
Defined.
