(* ===== verification/EnvelopeFacts.v ===== *)
(** * The envelopes, read by the client

    What the server writes of a record (Wire.v) is what the client reads
    (ClientTypes.v): every field the client has comes back as it stands in the
    tables. *)

From stdpp Require Import base gmap strings list.
From S2P Require Import Prelude Errors Json Phase SDK Capacity Types Kinds Marshal Text Wire Remote RemoteFacts.
From S2P Require ClientTypes Client TextFacts.

Import compute SpecFacts.

(** ** What the client shows of a record *)

Definition seen_time (ms : Z) : option string :=
  match rfc3339 ms with
  | Some s => if decide (s = "0001-01-01T00:00:00Z"%string) then None else Some s
  | None => None
  end.
Definition seen_ptr (t : option Z) : option string := match t with Some ms => rfc3339 ms | None => None end.
Definition seen_col {A} (enc : A → json) (c : jcol A) : raw := match c with JVal a => RawDoc (enc a) | _ => RawEmpty end.

Definition seen_resource (r : Resource) : ClientTypes.Resource :=
  ClientTypes.MkResource APIVersion "Resource"
    (ClientTypes.MkMeta (r_ID r) (r_Name r) (r_Labels r) (ownership_string (r_Ownership r)) (r_DeleteProtected r)
       (r_Generation r) (r_ObservedGeneration r) (seen_time (r_CreatedAt r)) (seen_time (r_UpdatedAt r)) (seen_ptr (r_DeletedAt r)))
    (ClientTypes.MkResourceSpec (r_Kind r) (r_Provider r) (r_Class r) (r_Spec r))
    (ClientTypes.MkResourceStatus (phase_string (r_Phase r)) (default "" (r_ExternalID r))%string (seen_ptr (r_ParkedAt r))
       (seen_col enc_ExternalRef (r_ExternalRef r)) (seen_col (enc_map JInt) (r_Capacity r))
       (match r_Extension r with Some j => RawDoc j | None => RawEmpty end)).

(** The queue contract of an acquisition that waits. *)
Definition seen_wait (a : Acquisition) : string * option string :=
  match ParseRequest (a_Constraints a) with
  | Ok (req, _, _) =>
      if decide (0 < rq_MaxWaitMs req)
      then (Duration_String (mul64 (rq_MaxWaitMs req) Millisecond), rfc3339 (a_CreatedAt a + rq_MaxWaitMs req))
      else (""%string, None)
  | Err _ => (""%string, None)
  end.
Definition seen_acquisition (a : Acquisition) : ClientTypes.Acquisition :=
  ClientTypes.MkAcquisition APIVersion "Acquisition" (a_ID a) (acq_state_string (a_State a)) (a_Class a) (a_Kind a)
    (default "" (a_PendingResourceID a))%string (default "" (a_LeaseID a))%string (a_Actor a)
    (seen_wait a).1 (seen_wait a).2 (seen_time (a_CreatedAt a)) (seen_time (a_UpdatedAt a)).
Definition seen_pool (p : Pool) : ClientTypes.Pool :=
  ClientTypes.MkPool APIVersion "Pool"
    (ClientTypes.MkMeta (p_ID p) (p_Name p) ∅ "" false (p_Generation p) (p_ObservedGeneration p)
       (seen_time (p_CreatedAt p)) (seen_time (p_UpdatedAt p)) None)
    (sent_raw (p_Spec p)) (p_Paused p).
Definition seen_operation (o : Operation) : ClientTypes.Operation :=
  ClientTypes.MkOperation (o_ID o) (op_kind_string (o_Kind o)) (op_state_string (o_State o)) (o_Provider o)
    (default "" (o_ResourceID o))%string (o_Attempt o)
    (match o_ErrorClass o with Some c => class_string c | None => ""%string end)
    (seen_time (o_CreatedAt o)) (seen_time (o_UpdatedAt o)).

Definition seen_class (c : ClassRecord) : ClientTypes.Class_ :=
  let ms o := match o with Some d => ms_string d | None => ""%string end in
  ClientTypes.MkClass APIVersion "Class"
    (ClientTypes.MkMeta "" (c_Name c) ∅ "" false 0 0 (seen_time (c_CreatedAt c)) (seen_time (c_UpdatedAt c)) None)
    (MkClassSpec (c_Kind c) (c_Provider c) (sent_raw (c_Spec c))
       (if is_some (c_ReclaimIdleAfterMs c) || negb (bool_decide (c_ReclaimPark c = ""%string)) || is_some (c_ReclaimDeleteAfterMs c)
        then Some (ms (c_ReclaimIdleAfterMs c), c_ReclaimPark c, ms (c_ReclaimDeleteAfterMs c)) else None)
       (ms_string <$> c_QueueMaxWaitMs c))
    (c_Source c).

(** ** Reading them *)

(** What an encoder that succeeded wrote. *)
Ltac inv_all := repeat match goal with Hs : andThen _ _ = Ok _ |- _ =>
  let x := fresh "x" in let Hx := fresh "Hx" in apply RangeFacts.andThen_Ok in Hs as (x & Hx & Hs) end.

Section reading.
Context `{TimeText}.
(** The times that are written are read. *)
Context (times_read : ∀ ms s, rfc3339 ms = Some s → valid_time s = true).

Lemma dec_time_field name ms fs : time_field name ms = Ok fs → dec_field name ClientTypes.dec_Time fs None = Ok (seen_time ms).
Proof.
  unfold time_field, seen_time. case_decide as Hz.
  - intros [= <-]. subst ms. reflexivity.
  - unfold enc_time. destruct (rfc3339 ms) as [s|] eqn:Hs; [|done]. intros [= <-]. cbn [dec_field]. rewrite key_match_refl.
    unfold ClientTypes.dec_Time. by rewrite (times_read _ _ Hs).
Qed.
Lemma time_field_skip {A} name k (d : json → A → result A) ms fs old : time_field k ms = Ok fs → key_match k name = false →
  dec_field name d fs old = Ok old.
Proof.
  unfold time_field, enc_time. intros Ht Hk. case_decide; [by simplify_eq|].
  destruct (rfc3339 ms); simpl in Ht; simplify_eq. simpl. by rewrite Hk.
Qed.
Lemma dec_time_ptr name t fs : time_ptr name t = Ok fs → dec_field name ClientTypes.dec_TimePtr fs None = Ok (seen_ptr t).
Proof.
  destruct t as [ms|]; simpl; [|by intros [= <-]]. unfold enc_time. destruct (rfc3339 ms) as [s|] eqn:Hs; [|done].
  intros [= <-]. cbn [dec_field]. rewrite key_match_refl. unfold ClientTypes.dec_TimePtr. by rewrite (times_read _ _ Hs).
Qed.
Lemma time_ptr_skip {A} name k (d : json → A → result A) t fs old : time_ptr k t = Ok fs → key_match k name = false →
  dec_field name d fs old = Ok old.
Proof.
  unfold time_ptr, enc_time. intros Ht Hk. destruct t as [ms|]; [|by simplify_eq].
  destruct (rfc3339 ms); simpl in Ht; simplify_eq. simpl. by rewrite Hk.
Qed.
Lemma dec_col {A} name (enc : A → json) c fs : col_opt name enc c = Ok fs → dec_field name dec_raw fs RawEmpty = Ok (seen_col enc c).
Proof. destruct c; simpl; intros [= <-]; [done|]. cbn [dec_field]. by rewrite key_match_refl. Qed.
Lemma col_skip {A B} name k (d : json → B → result B) (enc : A → json) c fs old : col_opt k enc c = Ok fs → key_match k name = false →
  dec_field name d fs old = Ok old.
Proof. intros Hc Hk. destruct c; simpl in Hc; simplify_eq; simpl; [done|by rewrite Hk]. Qed.
Lemma dec_ext name (o : option json) :
  dec_field name dec_raw (opt_ptr name id o) RawEmpty = Ok (match o with Some j => RawDoc j | None => RawEmpty end).
Proof. destruct o; [|done]. cbn [opt_ptr dec_field]. by rewrite key_match_refl. Qed.

Lemma dec_flag name b : dec_field name dec_bool (opt_field b name (JBool true)) false = Ok b.
Proof. apply dec_opt_bool. Qed.

Ltac step :=
  first [ match goal with
          | Ht : time_field ?k ?ms = Ok ?fs |- context [dec_field ?k ClientTypes.dec_Time ?fs None] => rewrite (dec_time_field k ms fs Ht)
          | Ht : time_field ?k ?ms = Ok ?fs |- context [dec_field ?n ?d ?fs ?old] => rewrite (time_field_skip n k d ms fs old Ht) by reflexivity
          | Ht : time_ptr ?k ?t = Ok ?fs |- context [dec_field ?k ClientTypes.dec_TimePtr ?fs None] => rewrite (dec_time_ptr k t fs Ht)
          | Ht : time_ptr ?k ?t = Ok ?fs |- context [dec_field ?n ?d ?fs ?old] => rewrite (time_ptr_skip n k d t fs old Ht) by reflexivity
          | Hc : col_opt ?k ?enc ?c = Ok ?fs |- context [dec_field ?k dec_raw ?fs RawEmpty] => rewrite (dec_col k enc c fs Hc)
          | Hc : col_opt ?k ?enc ?c = Ok ?fs |- context [dec_field ?n ?d ?fs ?old] => rewrite (col_skip n k d enc c fs old Hc) by reflexivity
          | Hr : raw_opt ?k ?r = Ok ?fs |- context [dec_field ?k dec_raw ?fs RawEmpty] => rewrite (dec_opt_raw k r fs Hr)
          | Hr : raw_opt ?k ?r = Ok ?fs |- context [dec_field ?n ?d ?fs ?old] => rewrite (dec_raw_skip n k d r fs old Hr) by reflexivity
          | Hr : raw_field ?k ?r = Ok ?fs |- context [dec_field ?k dec_raw ?fs RawEmpty] => rewrite (dec_raw_field k r fs Hr)
          | Hr : raw_field ?k ?r = Ok ?fs |- context [dec_field ?n ?d ?fs ?old] => rewrite (raw_field_skip n k d r fs old Hr) by reflexivity
          end
        | rewrite dec_ext | rewrite dec_flag
        | rewrite (dec_opt_skip _ _ _ _ _ (JBool true)) by reflexivity
        | dec_step ].
Ltac decode := unfold andThen; cbn [dec_object]; repeat step.
Ltac all_known := rewrite known_fields_ok by
  (repeat first [progress known_tac | match goal with |- known _ (_ ++ _) = true => rewrite known_app; apply andb_true_iff; split end
                | eapply known_raw_field; [eassumption|reflexivity] | done]).

Ltac zero := unfold ClientTypes.zeroOperation, ClientTypes.zeroResource, ClientTypes.zeroAcquisition, ClientTypes.zeroPool,
    ClientTypes.zeroClass, ClientTypes.zeroMetadata, ClientTypes.zeroSpec, ClientTypes.zeroStatus;
  cbn [ClientTypes.op_ID ClientTypes.op_Kind ClientTypes.op_State ClientTypes.op_Provider ClientTypes.op_ResourceID ClientTypes.op_Attempt
       ClientTypes.op_ErrorClass ClientTypes.op_CreatedAt ClientTypes.op_UpdatedAt
       ClientTypes.re_APIVersion ClientTypes.re_Kind ClientTypes.re_Metadata ClientTypes.re_Spec ClientTypes.re_Status
       ClientTypes.rs_Kind ClientTypes.rs_Provider ClientTypes.rs_Class ClientTypes.rs_Machine
       ClientTypes.rt_Phase ClientTypes.rt_ExternalID ClientTypes.rt_ParkedAt ClientTypes.rt_ExternalRef ClientTypes.rt_Capacity
       ClientTypes.rt_Extensions ClientTypes.aq_APIVersion ClientTypes.aq_Kind ClientTypes.aq_ID ClientTypes.aq_State ClientTypes.aq_Class
       ClientTypes.aq_ResourceKind ClientTypes.aq_ResourceID ClientTypes.aq_LeaseID ClientTypes.aq_Actor ClientTypes.aq_MaxWait
       ClientTypes.aq_QueueDeadline ClientTypes.aq_CreatedAt ClientTypes.aq_UpdatedAt ClientTypes.po_APIVersion ClientTypes.po_Kind
       ClientTypes.po_Metadata ClientTypes.po_Spec ClientTypes.po_Paused ClientTypes.cl_APIVersion ClientTypes.cl_Kind
       ClientTypes.cl_Metadata ClientTypes.cl_Spec ClientTypes.cl_Source]; meta.
(** An object under its key. *)
Lemma dec_inner {A} name (d : json → A → result A) j old a : d j old = Ok a → dec_field name d [(name, j)] old = Ok a.
Proof. intros Hd. cbn [dec_field]. by rewrite key_match_refl, Hd. Qed.
Lemma inner_skip {A} name k (d : json → A → result A) j old : key_match k name = false → dec_field name d [(k, j)] old = Ok old.
Proof. intros Hk. cbn [dec_field]. by rewrite Hk. Qed.

(** Columns an int64 fits. *)
Lemma operation_reads_back o j : in64 (o_Attempt o) → toOpEnvelope o = Ok j →
  ClientTypes.read_Operation j ClientTypes.zeroOperation = Ok (seen_operation o).
Proof.
  intros Ha Hj. unfold toOpEnvelope in Hj. inv_all. injection Hj as <-.
  unfold ClientTypes.read_Operation, seen_operation. zero. flat. decode. done.
Qed.
Lemma acquisition_reads_back a j : toAcqEnvelope a = Ok j →
  ClientTypes.read_Acquisition j ClientTypes.zeroAcquisition = Ok (seen_acquisition a).
Proof.
  intros Hj. unfold toAcqEnvelope in Hj. inv_all. injection Hj as <-.
  assert (∀ {B} name (d : json → B → result B) old, key_match "maxWait" name = false → key_match "queueDeadline" name = false →
    dec_field name d x1 old = Ok old) as Hskip.
  { intros B name d old H1 H2. repeat case_match; simplify_eq; try done. unfold enc_time in Hx1.
    destruct (rfc3339 _); simpl in Hx1; simplify_eq. simpl. by rewrite H1, H2. }
  assert (dec_field "maxWait" dec_string x1 "" = Ok (seen_wait a).1 ∧
          dec_field "queueDeadline" ClientTypes.dec_TimePtr x1 None = Ok (seen_wait a).2) as [Hw Hd].
  { unfold seen_wait. destruct (ParseRequest (a_Constraints a)) as [[[req ?] ?]|]; [|by simplify_eq].
    case_decide; [|by simplify_eq]. unfold enc_time in Hx1. destruct (rfc3339 _) as [t|] eqn:Ht; simpl in Hx1; simplify_eq.
    split; [done|]. cbn. by rewrite (times_read _ _ Ht). }
  unfold ClientTypes.read_Acquisition, seen_acquisition. zero. flat.
  unfold andThen; cbn [dec_object]; repeat first [rewrite Hw|rewrite Hd|rewrite Hskip by reflexivity|step]. done.
Qed.
Lemma pool_reads_back p j : in64 (p_Generation p) → in64 (p_ObservedGeneration p) → toPoolEnvelope p = Ok j →
  ClientTypes.read_Pool j ClientTypes.zeroPool = Ok (seen_pool p).
Proof.
  intros Hg Ho Hj. unfold toPoolEnvelope in Hj. inv_all. injection Hj as <-.
  unfold ClientTypes.read_Pool, seen_pool. zero. flat.
  match goal with |- context [("metadata"%string, JObj ?fs)] =>
    assert (ClientTypes.read_Metadata (JObj fs) ClientTypes.zeroMetadata = Ok (ClientTypes.po_Metadata (seen_pool p))) as Hm end.
  { unfold ClientTypes.read_Metadata, seen_pool. zero. decode. done. }
  unfold ClientTypes.zeroMetadata in Hm. unfold andThen; cbn [dec_object]; repeat first [rewrite Hm|step]. done.
Qed.
Lemma resource_reads_back r j : in64 (r_Generation r) → in64 (r_ObservedGeneration r) → toEnvelope r = Ok j →
  ClientTypes.read_Resource j ClientTypes.zeroResource = Ok (seen_resource r).
Proof.
  intros Hg Ho Hj. unfold toEnvelope in Hj. inv_all. injection Hj as <-.
  unfold ClientTypes.read_Resource, seen_resource. zero. flat.
  match goal with |- context [("metadata"%string, JObj ?fs)] =>
    assert (ClientTypes.read_Metadata (JObj fs) ClientTypes.zeroMetadata = Ok (ClientTypes.re_Metadata (seen_resource r))) as Hm end.
  { unfold ClientTypes.read_Metadata, seen_resource. zero. decode. done. }
  match goal with |- context [("spec"%string, JObj ?fs)] =>
    assert (ClientTypes.read_ResourceSpec (JObj fs) ClientTypes.zeroSpec = Ok (ClientTypes.re_Spec (seen_resource r))) as Hs end.
  { unfold ClientTypes.read_ResourceSpec, seen_resource. zero. decode. done. }
  match goal with |- context [("status"%string, JObj ?fs)] =>
    assert (ClientTypes.read_ResourceStatus (JObj fs) ClientTypes.zeroStatus = Ok (ClientTypes.re_Status (seen_resource r))) as Ht end.
  { unfold ClientTypes.read_ResourceStatus, seen_resource. zero. decode. done. }
  unfold ClientTypes.zeroMetadata, ClientTypes.zeroSpec, ClientTypes.zeroStatus in Hm, Hs, Ht.
  unfold andThen; cbn [dec_object]; repeat first [rewrite Hm|rewrite Hs|rewrite Ht|step]. done.
Qed.
Lemma class_reads_back c j : toClassEnvelope c = Ok j →
  ClientTypes.read_Class j ClientTypes.zeroClass = Ok (seen_class c).
Proof.
  intros Hj. unfold toClassEnvelope in Hj. inv_all. injection Hj as <-.
  unfold ClientTypes.read_Class, seen_class. zero. flat.
  match goal with |- context [("metadata"%string, JObj ?fs)] =>
    assert (ClientTypes.read_Metadata (JObj fs) ClientTypes.zeroMetadata = Ok (ClientTypes.cl_Metadata (seen_class c))) as Hm end.
  { unfold ClientTypes.read_Metadata, seen_class. zero. decode. done. }
  match goal with |- context [("spec"%string, JObj ?fs)] =>
    assert (dec_ClassSpec false (JObj fs) ClientTypes.zeroClassSpec = Ok (ClientTypes.cl_Spec (seen_class c))) as Hs end.
  { unfold dec_ClassSpec, ClientTypes.zeroClassSpec, seen_class. cbn [cs_Kind cs_Provider cs_Template cs_Reclaim cs_MaxWait ClientTypes.cl_Spec].
    unfold andThen; cbn [dec_object]. all_known.
    set (keep := is_some (c_ReclaimIdleAfterMs c) || _ || _).
    set (ms := λ o, match o with Some d => ms_string d | None => ""%string end).
    match goal with |- context [opt_field keep "reclaim" ?o] => set (rec := o);
      assert (dec_field "reclaim" (dec_ptr (""%string, ""%string, ""%string) (dec_ClassReclaim false)) (opt_field keep "reclaim" rec) None =
        Ok (if keep then Some (ms (c_ReclaimIdleAfterMs c), c_ReclaimPark c, ms (c_ReclaimDeleteAfterMs c)) else None)) as Hrec end.
    { destruct keep; [|done]. cbn [opt_field dec_field]. rewrite key_match_refl. unfold dec_ptr, rec. cbn [from_option id].
      unfold dec_ClassReclaim. unfold andThen; cbn [dec_object]. all_known. decode. done. }
    match goal with |- context [opt_ptr "scheduling" ?e ?o] =>
      assert (dec_field "scheduling" (dec_ptr None (dec_ClassScheduling false)) (opt_ptr "scheduling" e o) None =
        Ok (Some <$> (ms_string <$> o))) as Hsched end.
    { destruct (c_QueueMaxWaitMs c) as [w|]; [|done]. cbn [opt_ptr dec_field fmap option_fmap option_map]. rewrite key_match_refl.
      unfold dec_ptr, dec_ClassScheduling, fields. cbn [mjoin list_join]. rewrite List.app_nil_r. cbn [from_option id].
      unfold andThen; cbn [dec_object]. all_known.
      rewrite dec_field_cons, key_match_refl. unfold dec_ptr, dec_ClassQueue. cbn [mjoin list_join]. rewrite List.app_nil_r.
      cbn [from_option id]. unfold andThen; cbn [dec_object]. all_known. decode. done. }
    repeat first [rewrite Hrec|rewrite Hsched|rewrite (dec_opt_skip _ "reclaim") by reflexivity|step].
    cbn [fmap option_fmap option_map] in Hsched |- *. rewrite Hsched. by destruct (c_QueueMaxWaitMs c). }
  unfold ClientTypes.zeroMetadata in Hm.
  unfold andThen; cbn [dec_object]; repeat first [rewrite Hm|rewrite Hs|step].
  reflexivity.
Qed.

(** A reply's text, stored bytes or a fresh document. *)
Definition as_text (j : json) (t : string) : Prop := t = print j ∨ t = encoded (Ok j).
Lemma into_text {A} (zero : A) d fs t a : TextFacts.integral (JObj fs) = true → as_text (JObj fs) t → d (JObj fs) zero = Ok a →
  Client.into zero d t = Ok a.
Proof.
  intros Hi Ht Hd. unfold Client.into.
  assert (unmarshal t = Ok (JObj fs)) as ->; [|exact Hd].
  destruct Ht as [->| ->]; [by apply TextFacts.json_round_trip|by apply unmarshal_encoded].
Qed.
End reading.

Section replies.
Context `{TimeText}.

Definition is_object (j : json) : bool := match j with JObj _ => true | _ => false end.
Ltac object Hj := apply RangeFacts.andThen_Ok in Hj as (? & ? & Hj).
Lemma resource_object r j : toEnvelope r = Ok j → is_object j = true.
Proof. intros Hj. unfold toEnvelope in Hj. repeat object Hj. by injection Hj as <-. Qed.
Lemma acquisition_object a j : toAcqEnvelope a = Ok j → is_object j = true.
Proof. intros Hj. unfold toAcqEnvelope in Hj. repeat object Hj. by injection Hj as <-. Qed.
Lemma pool_object p j : toPoolEnvelope p = Ok j → is_object j = true.
Proof. intros Hj. unfold toPoolEnvelope in Hj. repeat object Hj. by injection Hj as <-. Qed.
Lemma operation_object o j : toOpEnvelope o = Ok j → is_object j = true.
Proof. intros Hj. unfold toOpEnvelope in Hj. repeat object Hj. by injection Hj as <-. Qed.
Lemma class_object c j : toClassEnvelope c = Ok j → is_object j = true.
Proof. intros Hj. unfold toClassEnvelope in Hj. repeat object Hj. by injection Hj as <-. Qed.

(** A text of an envelope, read into a fresh value. *)
Definition reads {A} (zero : A) (d : json → A → result A) (envelope : result json) (a : A) : Prop :=
  ∀ j t, envelope = Ok j → TextFacts.integral j = true → as_text j t → Client.into zero d t = Ok a.
Lemma reads_by {A} (zero : A) d envelope a :
  (∀ j, envelope = Ok j → is_object j = true ∧ d j zero = Ok a) → reads zero d envelope a.
Proof.
  intros He j t Hj Hi Ht. destruct (He j Hj) as [Ho Hd]. destruct j; try done. by eapply into_text.
Qed.

(** C36: what the server writes of a resource, an acquisition, a pool, an
    operation or a class, the client reads: each field the client keeps has
    the value of its column, ids and states as their words, times as their
    texts, absent columns as absent. The columns are int64s and the documents
    stored in them hold no fractions. *)
Theorem envelopes_read_back :
  (∀ ms s, rfc3339 ms = Some s → valid_time s = true) →
  (∀ r, in64 (r_Generation r) → in64 (r_ObservedGeneration r) →
     reads ClientTypes.zeroResource ClientTypes.read_Resource (toEnvelope r) (seen_resource r)) ∧
  (∀ a, reads ClientTypes.zeroAcquisition ClientTypes.read_Acquisition (toAcqEnvelope a) (seen_acquisition a)) ∧
  (∀ p, in64 (p_Generation p) → in64 (p_ObservedGeneration p) →
     reads ClientTypes.zeroPool ClientTypes.read_Pool (toPoolEnvelope p) (seen_pool p)) ∧
  (∀ o, in64 (o_Attempt o) →
     reads ClientTypes.zeroOperation ClientTypes.read_Operation (toOpEnvelope o) (seen_operation o)) ∧
  (∀ c, reads ClientTypes.zeroClass ClientTypes.read_Class (toClassEnvelope c) (seen_class c)).
Proof.
  intros Ht. repeat split; intros; apply reads_by; intros j Hj.
  - by split; [eapply resource_object|apply resource_reads_back].
  - by split; [eapply acquisition_object|apply acquisition_reads_back].
  - by split; [eapply pool_object|apply pool_reads_back].
  - by split; [eapply operation_object|apply operation_reads_back].
  - by split; [eapply class_object|apply class_reads_back].
Qed.
End replies.

#[local] Instance reading_all : TimeText := λ _, true.
Lemma envelopes_read_back_witness :
  (∀ ms s, rfc3339 ms = Some s → valid_time s = true) ∧
  (let o := MkOperation "op-1" None None None OpKindStop (Some "r-1") None "hetzner" JNone OpJournaled 3 JNone JNone None None None None 1700000000000 1700000001000 None in
   ∃ j, toOpEnvelope o = Ok j ∧ Client.into ClientTypes.zeroOperation ClientTypes.read_Operation (print j) = Ok (seen_operation o)).
Proof.
  split; [done|]. cbv zeta. eexists. split; [vm_compute; reflexivity|].
  eapply (proj1 (proj2 (proj2 (proj2 (envelopes_read_back ltac:(done)))))); [by vm_compute|vm_compute; reflexivity|by vm_compute|by left].
Defined.
