(* ===== verification/Cli.v ===== *)
(** * The command line (internal/cli)

    Every client command is a program over the API client: the calls it makes,
    what it prints, the error it ends with, and the exit code of that error.
    Arguments arrive parsed: cobra's parser is outside the repository. What is
    printed is a list of lines, of rows of cells before [text/tabwriter] aligns
    them, and of documents before indentation. The two commands that are no clients of
    the API are elsewhere: cloud-init in CloudInit.v, serve in Serve.v. *)

From stdpp Require Import base gmap strings list pretty.
From Stdlib Require Import Ascii.
From S2P Require Import Prelude Errors Json SDK Kinds Marshal Text Auth Wire ClientTypes Client.

Import compute.

(** ** Output, errors and exit codes *)

Inductive Cell :=
| Txt (s : string)
| Age (since : option string)   (* [time.Since(t).Truncate(time.Second)] *)
| Clock (t : option string).    (* [t.Format("15:04:05")] *)
Inductive Output := Line (s : string) | Row (cells : list Cell) | Document (j : json).

Inductive fault :=
| Api (f : Client.failure)
| watchFailed (id state : string)
| Usage                          (* an error of the argument parser *)
| Runtime (e : err)
| Panic.                         (* the process dies *)

Definition ExitOK : Z := 0.
Definition ExitRuntime : Z := 1.
Definition ExitUsage : Z := 2.
Definition ExitNotFound : Z := 3.
Definition ExitAuth : Z := 4.
Definition ExitConflict : Z := 5.
Definition ExitWatch : Z := 6.
Definition ExitServer : Z := 7.

(** A panic is not an error: the Go runtime exits with 2. *)
Definition exitCode (f : fault) : Z :=
  match f with
  | watchFailed _ _ => ExitWatch
  | Api (APIError status _) =>
      if decide (status = 404) then ExitNotFound
      else if decide (status = 401 ∨ status = 403) then ExitAuth
      else if decide (status = 409) then ExitConflict
      else if decide (500 ≤ status) then ExitServer
      else ExitRuntime
  | Panic => 2
  | _ => ExitRuntime
  end.

Definition K (S A : Type) : Type := S → (fault + A) * list Output * S.
Definition doneK {S A} (a : A) : K S A := λ s, (inr a, [], s).
Definition raise {S A} (f : fault) : K S A := λ s, (inl f, [], s).
Definition bindK {S A B} (m : K S A) (k : A → K S B) : K S B := λ s,
  match m s with
  | (inr a, out, s) => let '(r, out', s) := k a s in (r, out ++ out', s)
  | (inl f, out, s) => (inl f, out, s)
  end.
Definition emit {S} (o : list Output) : K S unit := λ s, (inr tt, o, s).
Definition call {S A} (m : C S A) : K S A := λ s,
  match m s with (inr a, s) => (inr a, [], s) | (inl f, s) => (inl (Api f), [], s) end.
Definition liftK {S A} (r : result A) : K S A := match r with Ok a => doneK a | Err e => raise (Runtime e) end.
Definition refuse {S A} (why : string) : K S A := raise (Runtime (EOther why)).

Declare Scope cli_scope.
Delimit Scope cli_scope with cli.
Notation "x <~ m ; k" := (bindK m (λ x, k)) (at level 100, m at next level, right associativity) : cli_scope.
Notation "m ;~ k" := (bindK m (λ _, k)) (at level 100, right associativity) : cli_scope.
Open Scope cli_scope.

Record root := MkRoot { addr : string; token : string; output : string }.
(** The defaults of the persistent flags. *)
Definition default_root (environ : gmap string string) : root :=
  let or_else k d := let v := default ""%string (environ !! k) in if decide (v = ""%string) then d else v in
  MkRoot (or_else "FLEETPLANE_ADDR" "http://127.0.0.1:8080")%string (default ""%string (environ !! "FLEETPLANE_TOKEN"%string)) "table".
Definition client (r : root) : Client := MkClient (addr r) (token r).

Definition text (j : result json) : string := match j with Ok j => print j | Err _ => ""%string end.
(** [printJSON]. *)
Definition printJSON {S} (j : result json) : K S unit := d <~ liftK j ; emit [Document d].
Definition header {S} (cells : list string) : K S unit := emit [Row (Txt <$> cells)].
Definition rows {S A} (f : A → list Cell) (l : slice A) : K S unit := emit ((λ a, Row (f a)) <$> default [] l).
Definition orDash (s : string) : string := if decide (s = ""%string) then "-"%string else s.

(** A JSON slice, and a list envelope. *)
Definition enc_slice {A} (enc : A → result json) (l : slice A) : result json :=
  match l with None => Ok JNull | Some l => items ?<- enc_all enc l ; Ok (JArr items) end.
Definition enc_List {A} (enc : A → result json) (l : List_ A) : result json :=
  items ?<- enc_slice enc (li_Items l) ;
  Ok (fields [str "apiVersion" (li_APIVersion l); str "kind" (li_Kind l); [("items"%string, items)]]).

(** The bytes of a raw message. *)
Definition raw_text (r : raw) : string :=
  match r with RawEmpty => ""%string | RawDoc j => print j | RawBad t => t end.
Definition raw_of (t : string) : raw :=
  if decide (t = ""%string) then RawEmpty else match unmarshal t with Ok j => RawDoc j | Err _ => RawBad t end.
Definition compactJSON (r : raw) : string :=
  let s := raw_text r in
  if decide (60 < Z.of_nat (String.length s)) then (String.substring 0 57 s +:+ "...")%string else s.

(** Files, and the text of standard input under the name "-". *)
Class Files := read_file : string → result string.

(** The YAML library: the documents of a stream, decoded into maps and free of
    values that JSON lacks; an error in any of them. *)
Class Manifests := yaml_stream : string → result (list (gmap string json)).

(** JSON decoded as [any]: objects become maps, the last of equal keys counting, numbers float64s. What becomes
    of a number beyond the integers a float64 counts, and how a float64 is
    shown, is up to the library. *)
Class Floats := { any_number : string → result json; number_text : json → string }.
Definition any_fields (f : json → result json) : list (string * json) → result (list (string * json)) :=
  fix go fs := match fs with
               | [] => Ok []
               | (k, j) :: fs => j ?<- f j ; fs ?<- go fs ;
                                let m : gmap string json := list_to_map fs in
                                Ok (if decide (is_Some (m !! k)) then fs else sorted_entries (<[k := j]> m))
               end.
Definition any_items (f : json → result json) : list json → result (list json) :=
  fix go l := match l with [] => Ok [] | j :: l => j ?<- f j ; l ?<- go l ; Ok (j :: l) end.
Fixpoint any_value `{Floats} (j : json) : result json :=
  match j with
  | JInt z => if decide (-9007199254740992 ≤ z ≤ 9007199254740992) then Ok (JInt z) else any_number (pretty z)
  | JFloat lit => any_number lit
  | JArr l => l ?<- any_items any_value l ; Ok (JArr l)
  | JObj fs => fs ?<- any_fields any_value fs ; Ok (JObj fs)
  | j => Ok j
  end.
(** [fmt.Sprint] of a decoded value. *)
Fixpoint Sprint `{Floats} (j : json) : string :=
  match j with
  | JNull => "<nil>"
  | JBool b => if b then "true" else "false"
  | JInt _ | JFloat _ => number_text j
  | JStr s => s
  | JArr l => "[" +:+ between " " (Sprint <$> l) +:+ "]"
  | JObj fs => "map[" +:+ between " " ((λ '(k, v), k +:+ ":" +:+ Sprint v) <$> fs) +:+ "]"
  end%string.

(** A Go map, [None] if it is nil. *)
Abbreviation gomap := (option (gmap string json)).

Section commands.
Context {S : Type} `{RoundTrip S} `{TimeText} `{Files} `{Manifests} `{Floats} (r : root).

Abbreviation cmd := (K S unit).
Abbreviation c := (client r).
Definition json_output : bool := bool_decide (output r = "json"%string).

(** ** Acquisitions (acquire.go) *)

Record AcquireFlags := MkAcquireFlags {
  af_class : string; af_cpu : Z; af_memory : Z; af_exclusive : bool; af_ttl : string; af_max_wait : string; af_key : string }.

Definition minimum (name : string) (n : Z) : list (string * json) :=
  if decide (0 < n) then [(name, JObj [("min"%string, JInt n)])] else [].
Definition acquire_request (f : AcquireFlags) : Wire.AcquireRequest :=
  let constraints := minimum "cpu" (af_cpu f) ++ minimum "memoryMiB" (af_memory f) in
  Wire.MkAcquireRequest "" (af_class f) 0
    (match constraints with [] => RawEmpty | fs => RawDoc (JObj fs) end)
    (af_exclusive f) (if decide (af_ttl f = ""%string) then None else Some (af_ttl f)) (af_max_wait f) "".
Definition acquireCmd (f : AcquireFlags) : cmd :=
  acq <~ call (Acquire c (acquire_request f) (af_key f)) ;
  acq <~ (λ s, match GetAcquisition c (aq_ID acq) s with (inr cur, s) => (inr cur, [], s) | (inl _, s) => (inr acq, [], s) end) ;
  if json_output then printJSON (Ok (enc_Acquisition acq))
  else emit [Line (aq_ID acq +:+ " -> " +:+ orDash (aq_ResourceID acq)); Line ("state: " +:+ aq_State acq)]%string.

Definition releaseCmd (id : string) : cmd := call (Release c id) ;~ emit [Line (id +:+ ": released")].

(** A request under the timeout: it is made, or the timeout falls into it and
    it fails; [Some] is what becomes of the world meanwhile. *)
Definition under (cut : option (S → S)) {A} (m : C S A) : K S A :=
  match cut with None => call m | Some meanwhile => λ s, (inl (Api Transport), [], meanwhile s) end.
(** One look: the state to show, and whether it is the end, a good one or not. *)
Definition watchOnce (cut : option (S → S)) (id : string) : K S (string * bool * bool) :=
  if is_some (CutPrefix "acq_" id) then
    acq <~ under cut (GetAcquisition c id) ;
    let state := aq_State acq in
    if decide (state = "bound"%string)
    then doneK ("bound -> " +:+ aq_ResourceID acq +:+ " (lease " +:+ aq_LeaseID acq +:+ ")", true, true)%string
    else if mem state ["failed"; "expired"; "released"]%string then doneK (state, true, false)
    else doneK (state, false, false)
  else if is_some (CutPrefix "op_" id) then
    op <~ under cut (GetOperation c id) ;
    let state := op_State op in
    if decide (state = "succeeded"%string) then doneK (state, true, true)
    else if mem state ["failed"; "aborted"]%string then doneK (state, true, false)
    else doneK (state, false, false)
  else refuse "watch supports acq_ and op_ ids".
(** [waits] are the intervals the timeout leaves room for: what becomes of the
    world in each. The timeout comes after the look behind the last of them, or
    into its request. *)
Fixpoint watch (id : string) (waits : list (S → S)) (cut : option (S → S)) (last : string) : cmd :=
  seen <~ watchOnce (match waits with [] => cut | _ => None end) id ;
  let '(state, done, ok) := seen in
  emit (if decide (state = last) then [] else [Line (id +:+ ": " +:+ state)%string]) ;~
  if done then (if ok then doneK tt else raise (watchFailed id state))
  else match waits with
       | [] => raise (watchFailed id ("timeout waiting (last: " +:+ state +:+ ")")%string)
       | wait :: waits => (λ s, (inr tt, [], wait s)) ;~ watch id waits cut state
       end.
Definition watchCmd (id : string) (waits : list (S → S)) (cut : option (S → S)) : cmd := watch id waits cut "".

Definition acquisitionsCmd (states : list string) (resource : string) (all : bool) : cmd :=
  let states := if all then ["pending"; "provisioning"; "bound"; "failed"; "released"; "expired"]%string else states in
  l <~ call (ListAcquisitions c states resource) ;
  if json_output then printJSON (enc_List (λ a, Ok (enc_Acquisition a)) l)
  else header ["ID"; "STATE"; "CLASS"; "RESOURCE"; "LEASE"; "ACTOR"; "AGE"]%string ;~
       rows (λ a, (Txt <$> [aq_ID a; aq_State a; aq_Class a; aq_ResourceID a; aq_LeaseID a; aq_Actor a]) ++ [Age (aq_CreatedAt a)])
         (li_Items l).

(** ** Manifests (apply.go) *)

Record manifest := MkManifest { mf_APIVersion : string; mf_Kind : string; mf_Raw : json }.
(** The documents that say something, all before the first is applied. *)
Fixpoint decodeManifests (docs : list (gmap string json)) : result (list manifest) :=
  match docs with
  | [] => Ok []
  | v :: docs =>
      if decide (v = ∅) then decodeManifests docs
      else let fs := sorted_entries v in
           version ?<- dec_field "apiVersion" dec_string fs ""%string ;
           kind ?<- dec_field "kind" dec_string fs ""%string ;
           rest ?<- decodeManifests docs ;
           Ok (MkManifest version kind (JObj fs) :: rest)
  end.
Definition applyOne (m : manifest) : cmd :=
  let doc := mf_Raw m in
  if decide (mf_APIVersion m ≠ "" ∧ mf_APIVersion m ≠ APIVersion)%string then refuse "unsupported apiVersion"
  else if decide (mf_Kind m = "Class"%string) then
    cm <~ liftK (read_ClassManifest doc zeroClassManifest) ;
    cls <~ call (UpsertClass c (md_Name (cm_Metadata cm)) cm) ;
    emit [Line ("class/" +:+ md_Name (cl_Metadata cls) +:+ ": applied")]%string
  else if decide (mf_Kind m = "Pool"%string) then
    pm <~ liftK (read_PoolManifest doc zeroPoolManifest) ;
    pool <~ call (ApplyPool c pm) ;
    emit [Line ("pool/" +:+ md_Name (po_Metadata pool) +:+ " (" +:+ md_ID (po_Metadata pool) +:+ "): applied")]%string
  else if decide (mf_Kind m = "Resource"%string) then
    req <~ liftK (read_CreateResourceRequest doc zeroCreate) ;
    res <~ call (CreateResource c req ("apply:" +:+ md_Name (cq_Metadata req))) ;
    emit [Line ("resource/" +:+ md_Name (re_Metadata res) +:+ " (" +:+ md_ID (re_Metadata res) +:+ "): " +:+ rt_Phase (re_Status res))]%string
  else refuse "unsupported manifest kind".
(** The documents in order, up to the first that fails. *)
Fixpoint each {A} (f : A → cmd) (l : list A) : cmd :=
  match l with [] => doneK tt | a :: l => f a ;~ each f l end.
Definition applyCmd (file : string) : cmd :=
  raw <~ liftK (read_file file) ;
  docs <~ liftK (yaml_stream raw) ;
  docs <~ liftK (decodeManifests docs) ;
  match docs with [] => refuse "no manifests found" | docs => each applyOne docs end.

(** ** Resources (resources.go) *)

Definition resourcesCmd (f : ResourceFilter) : cmd :=
  l <~ call (ListResources c f) ;
  if json_output then printJSON (enc_List enc_Resource l)
  else header ["ID"; "KIND"; "PROVIDER"; "PHASE"; "EXTERNAL"; "NAME"]%string ;~
       rows (λ it, Txt <$> [md_ID (re_Metadata it); rs_Kind (re_Spec it); rs_Provider (re_Spec it);
                            rt_Phase (re_Status it); rt_ExternalID (re_Status it); md_Name (re_Metadata it)]) (li_Items l).
Definition getCmd (id : string) : cmd := res <~ call (GetResource c id) ; printJSON (enc_Resource res).
Definition deleteCmd (id key : string) : cmd := call (DeleteResource c id key) ;~ emit [Line (id +:+ ": deleting")].
(** The one-argument verbs: a call, and the word that is echoed. *)
Definition resourceVerb (done : string) (act : Client → string → C S unit) (id : string) : cmd :=
  call (act c id) ;~ emit [Line (id +:+ ": " +:+ done)%string].

Record CreateFlags := MkCreateFlags {
  cf_file : string; cf_key : string; cf_name : string; cf_class : string; cf_provider : string; cf_kind : string;
  cf_server_type : string; cf_image : string; cf_location : string; cf_user_data_file : string; cf_labels : list string }.

(** Writing to a nil map panics. *)
Definition put (k : string) (v : json) (m : gomap) : K S gomap :=
  match m with None => raise Panic | Some m => doneK (Some (<[k := v]> m)) end.
Definition put_flag (k v : string) (m : gomap) : K S gomap :=
  if decide (v = ""%string) then doneK m else put k (JStr v) m.
Fixpoint cut_labels (kvs : list string) (labels : gmap string string) : K S (gmap string string) :=
  match kvs with
  | [] => doneK labels
  | kv :: kvs => match Cut "="%char kv with
                 | None => refuse "--label wants key=value"
                 | Some (k, v) => cut_labels kvs (<[k := v]> labels)
                 end
  end.
(** The labels that are there, as [fmt.Sprint] shows them. *)
Definition labels_in (m : gomap) : gmap string string :=
  match m with
  | Some m => match m !! "labels"%string with Some (JObj fs) => list_to_map (prod_map id Sprint <$> fs) | _ => ∅ end
  | None => ∅
  end.
(** The machine of the manifest: a nil map when the document is null. *)
Definition machine_of (r : raw) : result gomap :=
  match r with
  | RawEmpty => Ok (Some ∅)
  | RawDoc JNull => Ok None
  | RawDoc j => fs ?<- dec_object j ; fs ?<- any_fields any_value fs ; Ok (Some (list_to_map fs))
  | RawBad _ => Err (EOther "json: syntax error")
  end.
Definition overlay (f : CreateFlags) (m : gomap) : K S gomap :=
  m <~ put_flag "serverType" (cf_server_type f) m ;
  m <~ put_flag "image" (cf_image f) m ;
  m <~ put_flag "location" (cf_location f) m ;
  m <~ (if decide (cf_user_data_file f = ""%string) then doneK m
        else ud <~ liftK (read_file (cf_user_data_file f)) ; put "userData" (JStr ud) m) ;
  match cf_labels f with
  | [] => doneK m
  | kvs => labels <~ cut_labels kvs (labels_in m) ; put "labels" (enc_map JStr labels) m
  end.
Definition or_flag (v old : string) : string := if decide (v = ""%string) then old else v.
(** The request: the manifest, the flags over it. *)
Definition create_request (f : CreateFlags) : K S CreateResourceRequest :=
  req <~ (if decide (cf_file f = ""%string) then doneK zeroCreate
          else raw <~ liftK (read_file (cf_file f)) ;
               liftK (j ?<- unmarshal raw ; read_CreateResourceRequest j zeroCreate)) ;
  let spec := cq_Spec req in
  machine <~ liftK (machine_of (rs_Machine spec)) ;
  machine <~ overlay f machine ;
  let meta := cq_Metadata req in
  let meta := MkMeta (md_ID meta) (or_flag (cf_name f) (md_Name meta)) (md_Labels meta) (md_Ownership meta) (md_Protected meta)
    (md_Generation meta) (md_ObservedGeneration meta) (md_CreatedAt meta) (md_UpdatedAt meta) (md_DeletedAt meta) in
  let class := or_flag (cf_class f) (rs_Class spec) in
  let provider := or_flag (cf_provider f) (rs_Provider spec) in
  let kind := or_flag (cf_kind f) (rs_Kind spec) in
  let kind := if decide (class = "" ∧ kind = "")%string then "compute.machine"%string else kind in
  if decide (cf_file f = "" ∧ class = "" ∧ provider = "")%string
  then refuse "need -f, --class, or --provider with --image/--server-type"
  else doneK (MkCreateRequest (cq_APIVersion req) (cq_Kind req) meta
    (MkResourceSpec kind provider class
       (match machine with
        | Some m => if decide (m = ∅) then rs_Machine spec else RawDoc (JObj (sorted_entries m))
        | None => rs_Machine spec
        end))).
Definition createCmd (f : CreateFlags) : cmd :=
  req <~ create_request f ;
  res <~ call (CreateResource c req (cf_key f)) ;
  emit [Line (md_ID (re_Metadata res) +:+ ": " +:+ rt_Phase (re_Status res))]%string.

(** ** Pools, operations, events, providers, tokens (misc.go) *)

Definition poolsCmd : cmd :=
  l <~ call (ListPools c) ;
  if json_output then printJSON (enc_List enc_Pool l)
  else header ["ID"; "NAME"; "STATUS"; "SPEC"]%string ;~
       rows (λ p, Txt <$> [md_ID (po_Metadata p); md_Name (po_Metadata p);
                           if po_Paused p then "paused" else "running"; compactJSON (po_Spec p)]%string) (li_Items l).
Definition poolsApplyCmd (file : string) : cmd :=
  raw <~ liftK (read_file file) ;
  m <~ liftK (j ?<- unmarshal raw ; read_PoolManifest j zeroPoolManifest) ;
  pool <~ call (ApplyPool c m) ;
  emit [Line (md_Name (po_Metadata pool) +:+ " (" +:+ md_ID (po_Metadata pool) +:+ "): applied")]%string.
Definition poolsGetCmd (id : string) : cmd := pool <~ call (GetPool c id) ; printJSON (enc_Pool pool).

Definition operationsCmd (id : option string) : cmd :=
  match id with
  | Some id => op <~ call (GetOperation c id) ; printJSON (Ok (enc_Operation op))
  | None =>
      ops <~ call (ListOperations c) ;
      if json_output then printJSON (enc_slice (λ op, Ok (enc_Operation op)) ops)
      else header ["ID"; "KIND"; "STATE"; "RESOURCE"; "ATTEMPT"; "ERROR"]%string ;~
           rows (λ op, Txt <$> [op_ID op; op_Kind op; op_State op; op_ResourceID op; pretty (op_Attempt op); op_ErrorClass op]) ops
  end.
Definition eventsCmd (since after resource : string) (limit : Z) : cmd :=
  events <~ call (ListEvents c after since resource limit) ;
  if json_output then printJSON (enc_slice (λ e, Ok (enc_Event e)) events)
  else header ["ID"; "TIME"; "TYPE"; "OUTCOME"; "RESOURCE"; "ACTOR"]%string ;~
       rows (λ e, [Txt (ev_ID e); Clock (ev_TS e)] ++ (Txt <$> [ev_Type e; ev_Outcome e; ev_ResourceID e; ev_Actor e])) events.
Definition providersCmd : cmd :=
  items <~ call (ListProviders c) ;
  if json_output then printJSON (enc_slice (λ p, Ok (enc_ProviderHealth p)) items)
  else header ["INSTANCE"; "DRIVER"; "STATE"; "FAILURES"; "LAST ERROR"]%string ;~
       rows (λ p, Txt <$> [pv_Instance p; pv_Driver p; pv_State p; pretty (pv_ConsecutiveFailures p); pv_LastError p]) items.
(** [idb] and [secretB] are the random bytes. *)
Definition tokenNewCmd (name : string) (perms : list string) (idb secretB : string) : cmd :=
  set <~ liftK (NewPermSet perms) ;
  let '(plaintext, rec) := GenerateToken name set idb secretB in
  emit (Line <$>
    ["token: " +:+ plaintext; ""; "add to fleetplane config:"; ""; "auth:"; "  tokens:"; "    - id: " +:+ tk_ID rec;
     "      name: " +:+ tk_Name rec; "      sha256: " +:+ EncodeToString (tk_SHA256 rec);
     "      permissions: [" +:+ between ", " perms +:+ "]"]%string).

(** ** Classes (classes.go) *)

Definition set_or (v other : string) : string := if decide (v = ""%string) then other else v.
Definition class_row (cls : Class_) : list Cell :=
  let '(idle, park, del) := default (""%string, ""%string, ""%string) (cs_Reclaim (cl_Spec cls)) in
  Txt <$> [md_Name (cl_Metadata cls); cs_Kind (cl_Spec cls); cs_Provider (cl_Spec cls); cl_Source cls;
           set_or idle "-"; set_or park "auto"; set_or del "-"; set_or (default "" (cs_MaxWait (cl_Spec cls))) "-"]%string.
Definition classesCmd : cmd :=
  classes <~ call (ListClasses c) ;
  if json_output then printJSON (enc_slice enc_Class classes)
  else header ["NAME"; "KIND"; "PROVIDER"; "SOURCE"; "RECLAIM"; "PARK"; "DELETE-AFTER"; "QUEUE"]%string ;~ rows class_row classes.
Definition classGetCmd (name : string) : cmd := cls <~ call (GetClass c name) ; printJSON (enc_Class cls).
Record ClassFlags := MkClassFlags {
  kf_kind : string; kf_provider : string; kf_template : string; kf_template_file : string; kf_reclaim_idle : string;
  kf_reclaim_park : string; kf_reclaim_delete : string; kf_max_wait : string }.
Definition class_manifest (name : string) (f : ClassFlags) (template : string) : ClassManifest :=
  MkClassManifest APIVersion "Class" (MkMeta "" name ∅ "" false 0 0 None None None)
    (MkClassSpec (kf_kind f) (kf_provider f) (raw_of template)
       (if decide (kf_reclaim_idle f = "" ∧ kf_reclaim_park f = "" ∧ kf_reclaim_delete f = "")%string then None
        else Some (kf_reclaim_idle f, kf_reclaim_park f, kf_reclaim_delete f))
       (if decide (kf_max_wait f = ""%string) then None else Some (kf_max_wait f))).
Definition classCreateCmd (name : string) (f : ClassFlags) : cmd :=
  template <~ (if decide (kf_template_file f = ""%string) then doneK (kf_template f) else liftK (read_file (kf_template_file f))) ;
  if decide (template = ""%string) then refuse "a template is required" else
  cls <~ call (CreateClass c (class_manifest name f template)) ;
  emit [Line ("class/" +:+ md_Name (cl_Metadata cls) +:+ " created")]%string.
Definition classDeleteCmd (name : string) : cmd := call (DeleteClass c name) ;~ emit [Line ("class/" +:+ name +:+ " deleted")]%string.

(** ** Administration (admin.go) *)

(** The ops listener's own exchange, without a token. *)
Definition adminBackupCmd (to opsAddr : string) : cmd := λ s,
  match round_trip (MkRequest "POST" (opsAddr +:+ "/admin/backup") true "" "" (print (JObj [("to"%string, JStr to)]))) s with
  | (None, s) => (inl (Api Transport), [], s)
  | (Some (status, _), s) =>
      if decide (status = 200) then (inr tt, [Line ("backup written to " +:+ to)%string], s)
      else (inl (Runtime (EOther "backup failed")), [], s)
  end.

(** ** The command tree (cli.go)

    Two more commands hang on it: [serve] is the process of [Serve.v], and
    [cloud-init] the command of [CloudInit.v]. *)

Inductive Command :=
| Version (version go : string)
| Acquire_ (f : AcquireFlags) | Release_ (id : string) | Watch_ (id : string) (waits : list (S → S)) (cut : option (S → S))
| Acquisitions_ (states : list string) (resource : string) (all : bool)
| Apply_ (file : string)
| Resources_ (f : ResourceFilter) | ResourceGet (id : string) | ResourceDelete (id key : string) | ResourceCreate (f : CreateFlags)
| Drain_ (id : string) | Undrain_ (id : string) | Park_ (id : string) | Start_ (id : string)
| Protect_ (id : string) | Unprotect_ (id : string)
| Pools_ | PoolApply (file : string) | PoolReconcile (id : string) | PoolGet (id : string)
| PoolPause (id : string) | PoolResume (id : string) | PoolDelete (id : string)
| Classes_ | ClassGet (name : string) | ClassCreate (name : string) (f : ClassFlags) | ClassDelete (name : string)
| Operations_ (id : option string) | Events_ (since after resource : string) (limit : Z) | Providers_
| TokenNew (name : string) (perms : list string) (idb secretB : string)
| AdminBackup (to opsAddr : string).

Definition run (cm : Command) : cmd :=
  match cm with
  | Version version go => emit [Line ("fleetplane " +:+ version +:+ " (" +:+ go +:+ ")")]%string
  | Acquire_ f => acquireCmd f
  | Release_ id => releaseCmd id
  | Watch_ id waits cut => watchCmd id waits cut
  | Acquisitions_ states resource all => acquisitionsCmd states resource all
  | Apply_ file => applyCmd file
  | Resources_ f => resourcesCmd f
  | ResourceGet id => getCmd id
  | ResourceDelete id key => deleteCmd id key
  | ResourceCreate f => createCmd f
  | Drain_ id => resourceVerb "draining" (λ c, DrainResource c) id
  | Undrain_ id => resourceVerb "ready" (λ c, UndrainResource c) id
  | Park_ id => resourceVerb "parking" (λ c, ParkResource c) id
  | Start_ id => resourceVerb "starting" (λ c, StartResource c) id
  | Protect_ id => resourceVerb "protected" (λ c, ProtectResource c) id
  | Unprotect_ id => resourceVerb "unprotected" (λ c, UnprotectResource c) id
  | Pools_ => poolsCmd
  | PoolApply file => poolsApplyCmd file
  | PoolReconcile id => resourceVerb "reconciling" (λ c, ReconcilePool c) id
  | PoolGet id => poolsGetCmd id
  | PoolPause id => resourceVerb "paused" (λ c, PausePool c) id
  | PoolResume id => resourceVerb "running" (λ c, ResumePool c) id
  | PoolDelete id => resourceVerb "deleted" (λ c, DeletePool c) id
  | Classes_ => classesCmd
  | ClassGet name => classGetCmd name
  | ClassCreate name f => classCreateCmd name f
  | ClassDelete name => classDeleteCmd name
  | Operations_ id => operationsCmd id
  | Events_ since after resource limit => eventsCmd since after resource limit
  | Providers_ => providersCmd
  | TokenNew name perms idb secretB => tokenNewCmd name perms idb secretB
  | AdminBackup to opsAddr => adminBackupCmd to opsAddr
  end.
End commands.

(** A parsed command line, [None] if the parser refused it. *)
Definition Execute {S} `{RoundTrip S} `{TimeText} `{Files} `{Manifests} `{Floats} (parsed : option (root * Command)) (s : S) :
  Z * list Output * S :=
  match parsed with
  | None => (exitCode Usage, [], s)
  | Some (r, cm) => let '(res, out, s) := run r cm s in ((match res with inr _ => ExitOK | inl f => exitCode f end), out, s)
  end.
