(* ===== verification/CliFacts.v ===== *)
(** * What the command line tells its user

    The exit codes; [watch] against a running server, through the client and
    the API down to the rows of the database; the request [resources create]
    makes of a manifest and flags. *)

From stdpp Require Import base gmap strings list.
From Stdlib Require Import Ascii.
From S2P Require Import Prelude Errors Json Phase SDK Capacity Types Store Kinds Marshal Sys App Process Health Text Auth Queries Wire Api Remote Cli.
From S2P Require ClientTypes Client TextFacts ApiFacts RemoteFacts EnvelopeFacts.

Import compute SpecFacts.

(** ** Exit codes *)

(** Every error a command can end with. *)
Definition faults {S A} (Q : fault → Prop) (m : K S A) : Prop := ∀ s, match (m s).1.1 with inl f => Q f | inr _ => True end.
(** The errors every command may have. *)
Definition common (f : fault) : Prop := match f with Api _ | Runtime _ => True | _ => False end.

Section faults.
Context {S : Type} (Q : fault → Prop) (Hc : ∀ f, common f → Q f).

Lemma faults_done {A} (a : A) : faults Q (@doneK S A a).
Proof. by intros s. Qed.
Lemma faults_emit o : faults Q (@emit S o).
Proof. by intros s. Qed.
Lemma faults_raise {A} f : Q f → faults Q (@raise S A f).
Proof. by intros Hf s. Qed.
Lemma faults_bind {A B} (m : K S A) (k : A → K S B) : faults Q m → (∀ a, faults Q (k a)) → faults Q (bindK m k).
Proof.
  intros Hm Hk s. specialize (Hm s). unfold bindK. destruct (m s) as [[[f|a] out] s1]; [done|].
  specialize (Hk a s1). by destruct (k a s1) as [[[f|b] out'] s2].
Qed.
Lemma faults_call {A} (m : Client.C S A) : faults Q (call m).
Proof. intros s. unfold call. destruct (m s) as [[f|a] s1]; [|done]. by apply Hc. Qed.
Lemma faults_lift {A} (x : result A) : faults Q (@liftK S A x).
Proof. destruct x; [apply faults_done|]. by apply faults_raise, Hc. Qed.
Lemma faults_refuse {A} why : faults Q (@refuse S A why).
Proof. by apply faults_raise, Hc. Qed.
Lemma faults_each {A} (f : A → K S unit) l : (∀ a, faults Q (f a)) → faults Q (each f l).
Proof. intros Hf. induction l; simpl; [apply faults_done|by apply faults_bind]. Qed.
End faults.
Ltac faults Hc := repeat first
  [ apply faults_done | apply faults_emit | apply (faults_call _ Hc) | apply (faults_lift _ Hc) | apply (faults_refuse _ Hc)
  | apply faults_bind; [|intros ?] | case_match | case_decide ].

Section codes.
Context {S : Type} `{Client.RoundTrip S} `{TimeText} `{Files} `{Manifests} `{Floats}.

(** A manifest whose machine is null. *)
Definition null_machine (file : string) : Prop := ∃ raw j req, read_file file = Ok raw ∧ unmarshal raw = Ok j ∧
  ClientTypes.read_CreateResourceRequest j ClientTypes.zeroCreate = Ok req ∧
  ClientTypes.rs_Machine (ClientTypes.cq_Spec req) = RawDoc JNull.
Definition may_end (cm : Command (S := S)) (f : fault) : Prop :=
  match f with
  | Api _ | Runtime _ => True
  | watchFailed _ _ => ∃ id waits cut, cm = Watch_ id waits cut
  | Panic => ∃ f, cm = ResourceCreate f ∧ null_machine (cf_file f)
  | Usage => False
  end.

(** What the flags set. *)
Definition flag (k v : string) : gmap string json := if decide (v = ""%string) then ∅ else {[k := JStr v]}.
Definition user_data (f : CreateFlags) (ud : string) : gmap string json :=
  if decide (cf_user_data_file f = ""%string) then ∅ else {["userData"%string := JStr ud]}.
Definition labelled (f : CreateFlags) (given : list (string * string)) (m : gmap string json) : gmap string json :=
  match cf_labels f with
  | [] => ∅
  | _ => {["labels"%string := enc_map JStr (list_to_map (reverse given) ∪ labels_in (Some m))]}
  end.
Definition flagged_by_word (f : CreateFlags) : gmap string json :=
  flag "location" (cf_location f) ∪ (flag "image" (cf_image f) ∪ flag "serverType" (cf_server_type f)).
Definition flagged (f : CreateFlags) (ud : string) : gmap string json := user_data f ud ∪ flagged_by_word f.

Lemma bindK_done {A B} (a : A) (k : A → K S B) s : bindK (doneK a) k s = k a s.
Proof. unfold bindK, doneK. by destruct (k a s) as [[res out] s']. Qed.
Lemma put_flag_some k v m : @put_flag S k v (Some m) = doneK (Some (flag k v ∪ m)).
Proof.
  unfold put_flag, flag, put. case_decide; [by rewrite (left_id_L ∅ (∪))|]. by rewrite insert_union_singleton_l.
Qed.
Definition given_pairs (kvs : list string) : option (list (string * string)) := mapM (Cut "="%char) kvs.
Lemma cut_labels_given kvs labels : @cut_labels S kvs labels =
  match given_pairs kvs with
  | Some given => doneK (list_to_map (reverse given) ∪ labels)
  | None => refuse "--label wants key=value"
  end.
Proof.
  unfold given_pairs. revert labels. induction kvs as [|kv kvs IH]; intros labels; simpl; [by rewrite (left_id_L ∅ (∪))|].
  destruct (Cut _ kv) as [[k v]|]; simpl; [|done]. rewrite IH. destruct (mapM _ kvs) as [given|]; simpl; [|done].
  f_equal. rewrite reverse_cons, list_to_map_app. simpl. by rewrite (insert_union_singleton_l labels), insert_empty, (assoc_L (∪)).
Qed.
Lemma overlay_some f m (s : S) : overlay f (Some m) s =
  match (if decide (cf_user_data_file f = ""%string) then Ok ""%string else read_file (cf_user_data_file f)) with
  | Err e => (inl (Runtime e), [], s)
  | Ok ud => match given_pairs (cf_labels f) with
             | None => (inl (Runtime (EOther "--label wants key=value")), [], s)
             | Some given => (inr (Some (labelled f given (flagged f ud ∪ m) ∪ (flagged f ud ∪ m))), [], s)
             end
  end.
Proof.
  unfold overlay. rewrite put_flag_some, bindK_done, put_flag_some, bindK_done, put_flag_some, bindK_done.
  set (m3 := flag "location" _ ∪ _).
  assert (m3 = flagged_by_word f ∪ m) as Hm3 by (unfold m3, flagged_by_word; by rewrite !(assoc_L (∪))). clearbody m3.
  destruct (decide (cf_user_data_file f = ""%string)) as [Hf|Hf].
  - rewrite bindK_done. unfold flagged, user_data. rewrite (decide_True _ _ Hf), (left_id_L ∅ (∪)), <-Hm3. unfold labelled.
    destruct (cf_labels f) as [|kv kvs]; [by rewrite (left_id_L ∅ (∪))|]. rewrite cut_labels_given.
    destruct (given_pairs (kv :: kvs)) as [given|]; [|done]. rewrite bindK_done. unfold put.
    by rewrite insert_union_singleton_l.
  - destruct (read_file (cf_user_data_file f)) as [ud|e]; [|done]. cbn [liftK put]. unfold bindK at 1. rewrite bindK_done.
    unfold flagged, user_data. rewrite (decide_False _ _ Hf), insert_union_singleton_l, Hm3, (assoc_L (∪)). unfold labelled.
    cbn [doneK]. destruct (cf_labels f) as [|kv kvs]; [by rewrite (left_id_L ∅ (∪))|]. rewrite cut_labels_given.
    destruct (given_pairs (kv :: kvs)) as [given|]; [|done]. rewrite bindK_done. unfold put.
    by rewrite insert_union_singleton_l.
Qed.
Lemma overlay_shape f m : (∃ m0, m = Some m0) →
  faults common (overlay (S := S) f m).
Proof.
  intros (m0 & ->) s. rewrite overlay_some. destruct (if decide _ then _ else _) as [ud|e]; [|done].
  by destruct (given_pairs (cf_labels f)).
Qed.
(** What the manifest says before the flags. *)
Definition manifest_of (f : CreateFlags) : result ClientTypes.CreateResourceRequest :=
  if decide (cf_file f = ""%string) then Ok ClientTypes.zeroCreate
  else compute.andThen (read_file (cf_file f)) (λ raw, compute.andThen (unmarshal raw) (λ j,
       ClientTypes.read_CreateResourceRequest j ClientTypes.zeroCreate)).
Lemma machine_null x : machine_of x = Ok None → x = RawDoc JNull.
Proof.
  destruct x as [|j|]; [done| |done]. unfold machine_of.
  destruct j; simpl; try done. by destruct (any_fields _ _).
Qed.
Lemma manifest_null f base : manifest_of f = Ok base → ClientTypes.rs_Machine (ClientTypes.cq_Spec base) = RawDoc JNull →
  null_machine (cf_file f).
Proof.
  unfold manifest_of. case_decide; [by intros [= <-]|]. intros Hb Hn.
  apply RangeFacts.andThen_Ok in Hb as (raw & Hr & Hb). apply RangeFacts.andThen_Ok in Hb as (j & Hj & Hb).
  by exists raw, j, base.
Qed.
Definition spec_of (f : CreateFlags) (base : ClientTypes.CreateResourceRequest) (machine : gomap) : ClientTypes.ResourceSpec :=
  let spec := ClientTypes.cq_Spec base in
  let class := or_flag (cf_class f) (ClientTypes.rs_Class spec) in
  let kind := or_flag (cf_kind f) (ClientTypes.rs_Kind spec) in
  ClientTypes.MkResourceSpec (if decide (class = "" ∧ kind = "")%string then "compute.machine"%string else kind)
    (or_flag (cf_provider f) (ClientTypes.rs_Provider spec)) class
    (match machine with
     | Some m => if decide (m = ∅) then ClientTypes.rs_Machine spec else RawDoc (JObj (sorted_entries m))
     | None => ClientTypes.rs_Machine spec
     end).
Lemma read_base f (s : S) :
  (if decide (cf_file f = ""%string) then doneK ClientTypes.zeroCreate
   else bindK (liftK (read_file (cf_file f))) (λ raw,
        liftK (compute.andThen (unmarshal raw) (λ j, ClientTypes.read_CreateResourceRequest j ClientTypes.zeroCreate)))) s =
  liftK (manifest_of f) s.
Proof.
  unfold manifest_of. case_decide; [done|]. destruct (read_file (cf_file f)) as [raw|e]; [|done]. cbn [liftK]. by rewrite bindK_done.
Qed.
Lemma bindK_eq {A B} (m m' : K S A) (k : A → K S B) s : m s = m' s → bindK m k s = bindK m' k s.
Proof. unfold bindK. by intros ->. Qed.

Lemma faults_create_request f : faults (may_end (ResourceCreate f)) (create_request (S := S) f).
Proof.
  assert (∀ fl, common fl → may_end (ResourceCreate f) fl) as Hc by (by intros []).
  intros s. unfold create_request. erewrite bindK_eq by apply read_base.
  destruct (manifest_of f) as [base|e] eqn:Hb; [|done]. cbn [liftK]. rewrite bindK_done. cbv zeta.
  destruct (machine_of _) as [m|e] eqn:Hm; [|done]. cbn [liftK]. rewrite bindK_done.
  revert s. apply faults_bind.
  - destruct m as [m|].
    + intros s. pose proof (overlay_shape f (Some m) ltac:(eauto) s) as Ho. destruct (overlay f (Some m) s) as [[[fl|x] out] s']; [|done].
      by apply Hc.
    + assert (may_end (ResourceCreate f) Panic) as Hp.
      { exists f. split; [done|]. eapply manifest_null; [done|]. by apply machine_null. }
      assert (∀ k v m, faults (may_end (ResourceCreate f)) (@put S k v m)) as Hput.
      { intros k v [m|]; [apply faults_done|by apply faults_raise]. }
      assert (∀ k v m, faults (may_end (ResourceCreate f)) (@put_flag S k v m)) as Hflag.
      { intros k v m. unfold put_flag. case_decide; [apply faults_done|apply Hput]. }
      assert (∀ kvs l, faults (may_end (ResourceCreate f)) (@cut_labels S kvs l)) as Hcut.
      { intros kvs l. rewrite cut_labels_given. destruct (given_pairs kvs); [apply faults_done|by apply faults_refuse]. }
      unfold overlay. repeat first [apply Hput|apply Hflag|apply Hcut|progress faults Hc].
  - intros machine. case_decide; [by apply faults_refuse|apply faults_done].
Qed.

Lemma flag_other k k' v : k' ≠ k → flag k v !! k' = None.
Proof. intros Hk. unfold flag. case_decide; [apply lookup_empty|by apply lookup_singleton_ne]. Qed.
Lemma labelled_flagged f given ud m : labelled f given (flagged f ud ∪ m) = labelled f given m.
Proof.
  unfold labelled. destruct (cf_labels f); [done|]. unfold labels_in.
  assert (flagged f ud !! "labels"%string = None) as Hn.
  { unfold flagged, user_data, flagged_by_word. rewrite !lookup_union_None, !flag_other by done. split; [|done].
    case_decide; [apply lookup_empty|by apply lookup_singleton_ne]. }
  by rewrite lookup_union_r.
Qed.
(** Nothing on the command line is about the machine. *)
Definition no_machine_flag (f : CreateFlags) : Prop :=
  cf_server_type f = ""%string ∧ cf_image f = ""%string ∧ cf_location f = ""%string ∧ cf_user_data_file f = ""%string ∧ cf_labels f = [].
Definition machine_flags (f : CreateFlags) (m : gmap string json) (new : gmap string json) : Prop :=
  ∃ ud given, (cf_user_data_file f ≠ ""%string → read_file (cf_user_data_file f) = Ok ud) ∧
    given_pairs (cf_labels f) = Some given ∧ new = labelled f given m ∪ (flagged f ud ∪ m).
Definition overlaid (f : CreateFlags) (old new : gomap) : Prop :=
  match old, new with
  | Some m, Some new => machine_flags f m new
  | None, None => no_machine_flag f
  | _, _ => False
  end.
Lemma put_flag_none k v (s : S) m out s' : put_flag k v None s = (inr m, out, s') → m = None ∧ out = [] ∧ s' = s ∧ v = ""%string.
Proof. unfold put_flag. case_decide; intros [= <- <- <-] || intros [=]; done. Qed.
Lemma bindK_inv {A B} (m : K S A) (k : A → K S B) s b out s' : bindK m k s = (inr b, out, s') →
  ∃ a o1 s1 o2, m s = (inr a, o1, s1) ∧ k a s1 = (inr b, o2, s') ∧ out = o1 ++ o2.
Proof.
  unfold bindK. destruct (m s) as [[[f|a] o1] s1]; [done|]. destruct (k a s1) as [[x o2] s2] eqn:Hk.
  intros [= -> <- <-]. by exists a, o1, s1, o2.
Qed.
Lemma overlay_ok f old (s : S) new out s' : overlay f old s = (inr new, out, s') → out = [] ∧ s' = s ∧ overlaid f old new.
Proof.
  destruct old as [m|].
  - rewrite overlay_some. destruct (decide _) as [Hu|Hu]; [|destruct (read_file _) as [ud|] eqn:Hud; [|done]];
      (destruct (given_pairs _) as [given|] eqn:Hg; [|done]); intros [= <- <- <-]; (split; [done|split; [done|]]); cbn [overlaid];
      [exists ""%string, given|exists ud, given]; rewrite labelled_flagged; split_and!; done.
  - intros Ho. unfold overlay in Ho.
    do 3 (apply bindK_inv in Ho as (? & ? & ? & ? & (-> & -> & -> & ?)%put_flag_none & Ho & ->)).
    apply bindK_inv in Ho as (m & o1 & s1 & o2 & Hud & Ho & ->).
    case_decide; [|apply bindK_inv in Hud as (? & ? & ? & ? & _ & Hp & _); done].
    injection Hud as <- <- <-. destruct (cf_labels f) as [|kv kvs] eqn:Hl.
    + injection Ho as <- <- <-. cbn [overlaid]. unfold no_machine_flag. split_and!; done.
    + apply bindK_inv in Ho as (? & ? & ? & ? & _ & Hp & _). done.
Qed.

(** Metadata under another name. *)
Definition named (name : string) (m : ClientTypes.Metadata) : ClientTypes.Metadata :=
  ClientTypes.MkMeta (ClientTypes.md_ID m) name (ClientTypes.md_Labels m) (ClientTypes.md_Ownership m)
    (ClientTypes.md_Protected m) (ClientTypes.md_Generation m) (ClientTypes.md_ObservedGeneration m)
    (ClientTypes.md_CreatedAt m) (ClientTypes.md_UpdatedAt m) (ClientTypes.md_DeletedAt m).
Context (r : root).
Lemma faults_watch (Q : fault → Prop) id waits cut last : (∀ f, common f → Q f) → (∀ t, Q (watchFailed id t)) →
  faults Q (watch r id waits cut last).
Proof.
  intros Hc Hw. assert (∀ cut, faults Q (watchOnce r cut id)) as Ho.
  { intros [meanwhile|]; unfold watchOnce, under; [|faults Hc]. 
    case_match; [|case_match; [|by apply faults_refuse]]; (apply faults_bind; [intros s; by apply Hc|intros ?; faults Hc]). }
  revert last. induction waits as [|wait waits IH]; intros last; cbn [watch]; (apply faults_bind; [done|intros [[state done] ok]]);
    (apply faults_bind; [apply faults_emit|intros _]); (destruct done; [destruct ok; [apply faults_done|by apply faults_raise]|]).
  - by apply faults_raise.
  - apply faults_bind; [by intros s|intros _; apply IH].
Qed.
Lemma faults_table {A} (Q : fault → Prop) (j : result json) h (f : A → list Cell) l : (∀ f, common f → Q f) →
  faults Q (if json_output r then printJSON j else bindK (@header S h) (λ _, rows f l)).
Proof. intros Hc. case_match; [unfold printJSON|]; faults Hc. Qed.
Lemma faults_verb (Q : fault → Prop) done_ act id : (∀ f, common f → Q f) → faults Q (resourceVerb (S := S) r done_ act id).
Proof. intros Hc. unfold resourceVerb. faults Hc. Qed.
Lemma faults_run cm : faults (may_end cm) (run r cm).
Proof.
  assert (∀ fl, common fl → may_end cm fl) as Hc by (by intros []).
  destruct cm; cbn [run].
  all: try (by apply faults_verb).
  all: try (apply faults_bind; [by apply faults_call|intros l; by apply faults_table]).
  all: unfold acquireCmd, releaseCmd, applyCmd, getCmd, deleteCmd, createCmd, poolsApplyCmd, poolsGetCmd,
    classGetCmd, classCreateCmd, classDeleteCmd, tokenNewCmd, operationsCmd, printJSON.
  all: try by (faults Hc).
  - apply faults_bind; [by apply faults_call|intros acq]. apply faults_bind; [|intros cur; unfold printJSON; faults Hc].
    intros s. by destruct (Client.GetAcquisition _ _ s) as [[?|?] ?].
  - apply faults_watch; [done|]. intros t. by exists id, waits, cut.
  - do 3 (apply faults_bind; [by apply faults_lift|intros ?]). case_match; [by apply faults_refuse|].
    apply faults_each. intros mf. unfold applyOne. faults Hc.
  - apply faults_bind; [apply faults_create_request|intros req]. faults Hc.
  - intros s. unfold adminBackupCmd. destruct (Client.round_trip _ s) as [[[status body]|] s']; [|done]. by case_decide.
Qed.
Lemma exitCode_listed fl : fl ≠ Panic → (∀ id t, fl ≠ watchFailed id t) →
  exitCode fl ∈ [ExitRuntime; ExitNotFound; ExitAuth; ExitConflict; ExitServer].
Proof.
  intros Hp Hw. destruct fl as [[]|id t| | |]; simpl; repeat case_decide; try set_solver.
Qed.
End codes.

(** C38: what an exit code tells. 0: the command did all it had to. 6: a watch
    ended without success. 2: the process died, which takes a manifest whose
    machine is null, given to [resources create]. A command line the parser
    refuses ends with 1, as any error does that is none of the service's; 3, 4,
    5 and 7 are its answers 404, 401 or 403, 409, and 500 or more. *)
Theorem exit_codes {S : Type} `{Hrt : Client.RoundTrip S} `{Htt : TimeText} `{Hf : Files} `{Hm : Manifests} `{Hfl : Floats}
    (parsed : option (root * Command (S := S))) (s : S) :
  let '(code, _, _) := Execute parsed s in
  match parsed with
  | None => code = ExitRuntime
  | Some (r, cm) =>
      match (run r cm s).1.1 with
      | inr _ => code = ExitOK
      | inl (watchFailed _ _) => code = ExitWatch ∧ ∃ id waits cut, cm = Watch_ id waits cut
      | inl Panic => code = 2 ∧ ∃ f, cm = ResourceCreate f ∧ null_machine (cf_file f)
      | inl (Api (Client.APIError status _)) =>
          code ∈ [ExitRuntime; ExitNotFound; ExitAuth; ExitConflict; ExitServer] ∧
          (code = ExitNotFound ↔ status = 404) ∧ (code = ExitAuth ↔ status = 401 ∨ status = 403) ∧
          (code = ExitConflict ↔ status = 409) ∧ (code = ExitServer ↔ 500 ≤ status)
      | inl _ => code = ExitRuntime
      end
  end.
Proof.
  destruct parsed as [[r cm]|]; [|done]. unfold Execute. pose proof (faults_run r cm s) as Hrun.
  destruct (run r cm s) as [[[fl|[]] out] s']; [|done]. cbn [fst] in Hrun |- *.
  destruct fl as [[status body| |e|e]|id t| |e|]; try done.
  split; [by apply exitCode_listed|]. simpl. unfold ExitNotFound, ExitAuth, ExitConflict, ExitServer, ExitRuntime.
  repeat case_decide; lia.
Qed.

(** ** Watching an acquisition of the running server *)

Definition ended (st : AcqState) : bool := mem st [AcqFailed; AcqExpired; AcqReleased].
(** What is shown of a row. *)
Definition shown (a : Acquisition) : string :=
  if decide (a_State a = AcqBound)
  then ("bound -> " +:+ default "" (a_PendingResourceID a) +:+ " (lease " +:+ default "" (a_LeaseID a) +:+ ")")%string
  else acq_state_string (a_State a).
(** The lines of a history: each change once. *)
Fixpoint changes (last : string) (l : list string) : list string :=
  match l with
  | [] => []
  | s :: l => if decide (s = last) then changes last l else s :: changes s l
  end.
(** The worlds the looks find. *)
Fixpoint visited {S} (waits : list (S → S)) (s : S) : list S :=
  s :: match waits with [] => [] | wait :: waits => visited waits (wait s) end.

Section served.
Context `{ULID} {P : Type} `{Providers P} `{TimeText} `{Wording} `{Files} `{Manifests} `{Floats}.
Context (b : Boot) (auth : TokenAuthenticator) (health : option HealthTracker) (event_id : nat → string) (r : root).
#[local] Instance server : Client.RoundTrip (Sys P) := served b auth health event_id true (addr r).
Context (times_read : ∀ ms s, rfc3339 ms = Some s → valid_time s = true).
Context (Hbearer : sendable (RemoteFacts.bearer (client r)) = true).
(** The token may read. *)
Context (p : Principal)
  (granted : ∀ h (s : Sys P), withMiddleware auth PermResourceRead (RemoteFacts.caller (client r)) h s = h p s).

(** An acquisition as the service answers it, its times within what JSON can
    say, its document within what the client reads. *)
Definition row (id : string) (s : Sys P) : result Acquisition := (GetAcquisition id (sy_World s)).1.
Definition readable (a : Acquisition) : Prop :=
  ∃ j, toAcqEnvelope a = Ok j ∧ (Z.of_nat (String.length (encoded (Ok j))) ≤ Client.limit).

Lemma acquisition_integral a j : toAcqEnvelope a = Ok j → TextFacts.integral j = true.
Proof.
  intros Hj. unfold toAcqEnvelope in Hj. EnvelopeFacts.inv_all. injection Hj as <-.
  assert (∀ k ms fs, time_field k ms = Ok fs → TextFacts.integral (JObj fs) = true) as Ht.
  { intros k ms fs Hf. unfold time_field, enc_time in Hf. case_decide; [by simplify_eq|].
    destruct (rfc3339 ms); simpl in Hf; by simplify_eq. }
  assert (∀ fs gs, TextFacts.integral (JObj (fs ++ gs)) = TextFacts.integral (JObj fs) && TextFacts.integral (JObj gs)) as Happ
    by (intros fs gs; cbn [TextFacts.integral]; apply forallb_app).
  assert (∀ k s, TextFacts.integral (JObj (opt_string k s)) = true) as Hs by (intros k s'; unfold opt_string, opt_field; by repeat case_match).
  assert (TextFacts.integral (JObj x1) = true) as Hw.
  { destruct (ParseRequest _) as [[[req ?] ?]|]; [|by simplify_eq]. case_decide; [|by simplify_eq].
    unfold enc_time in Hx1. destruct (rfc3339 _); simpl in Hx1; by simplify_eq. }
  apply Ht in Hx, Hx0. unfold fields, str. cbn [mjoin list_join]. by rewrite !Happ, !Hs, Hx, Hx0, Hw.
Qed.

Lemma row_kept id (s : Sys P) : (GetAcquisition id (sy_World s)).2 = sy_World s.
Proof. apply pure_GetAcquisition. Qed.
Lemma get_served id s a : RemoteFacts.plain_id id → row id s = Ok a → readable a →
  Client.GetAcquisition (client r) id s = (inr (EnvelopeFacts.seen_acquisition a), s).
Proof.
  intros Hid Hrow (j & Hj & Hlen).
  pose proof (RemoteFacts.performed b auth health event_id (client r) _ (GetAcquisition_ id) s Hbearer Hid) as Hp.
  change (perform b auth health event_id true (Client.c_base (client r)) (client r) (GetAcquisition_ id) s)
    with (Client.GetAcquisition (client r) id s) in Hp. rewrite Hp. clear Hp.
  unfold RemoteFacts.outcome. cbn [permission]. rewrite granted. cbn [command reading].
  unfold getAcquisition, answer, tryM, onWorld, bindM, retM.
  unfold row in Hrow. pose proof (row_kept id s) as Hk.
  destruct (GetAcquisition id (sy_World s)) as [res w] eqn:He. cbn [fst snd] in Hrow, Hk. subst.
  assert (with_sy_World (sy_World s) s = s) as -> by (by destruct s).
  unfold Client.answered, writeJSON. cbn [rp_Status rp_Payload reply_text]. rewrite Hj. cbn [rp_Payload reply_text].
  rewrite decide_False by lia. unfold Client.cut. rewrite decide_True by exact Hlen.
  pose proof (EnvelopeFacts.acquisition_object a j Hj) as Ho. destruct j as [| | | | | |fs]; try done.
  erewrite EnvelopeFacts.into_text; [reflexivity|by eapply acquisition_integral|by right|].
  by apply (EnvelopeFacts.acquisition_reads_back times_read).
Qed.

Lemma watch_once id s a : is_some (CutPrefix "acq_" id) = true → RemoteFacts.plain_id id → row id s = Ok a → readable a →
  watchOnce r None id s = (inr (shown a, bool_decide (a_State a = AcqBound) || ended (a_State a), bool_decide (a_State a = AcqBound)), [], s).
Proof.
  intros Hacq Hid Hrow Hr. unfold watchOnce. rewrite Hacq. unfold bindK at 1, under, call. rewrite (get_served id s a Hid Hrow Hr).
  unfold shown, EnvelopeFacts.seen_acquisition. cbn [ClientTypes.aq_State ClientTypes.aq_ResourceID ClientTypes.aq_LeaseID].
  destruct (a_State a); reflexivity.
Qed.

Definition line (id t : string) : Output := Line (id +:+ ": " +:+ t)%string.
Lemma watch_step id waits cut last s a : is_some (CutPrefix "acq_" id) = true → RemoteFacts.plain_id id → row id s = Ok a → readable a →
  (waits = [] → cut = None) →
  watch r id waits cut last s =
  let now := if decide (shown a = last) then [] else [line id (shown a)] in
  if decide (a_State a = AcqBound) then (inr tt, now, s) else
  if ended (a_State a) then (inl (watchFailed id (shown a)), now, s) else
  match waits with
  | [] => (inl (watchFailed id ("timeout waiting (last: " +:+ shown a +:+ ")")%string), now, s)
  | wait :: waits => let '(res, out, s') := watch r id waits cut (shown a) (wait s) in (res, now ++ out, s')
  end.
Proof.
  intros Hacq Hid Hrow Hr Hcut. destruct waits as [|wait waits]; [rewrite Hcut by done|]; cbn [watch]; unfold bindK at 1;
    rewrite (watch_once id s a) by done; unfold bindK, emit, raise, doneK, line;
    destruct (decide (a_State a = AcqBound)) as [Hb|Hb].
  1,3: rewrite bool_decide_eq_true_2 by done; cbn [orb]; rewrite ?List.app_nil_r; done.
  all: rewrite bool_decide_eq_false_2 by done; cbn [orb]; destruct (ended (a_State a)); rewrite ?List.app_nil_r; try done.
  destruct (watch r id waits cut (shown a) (wait s)) as [[res out] s']. done.
Qed.

Definition waiting (a : Acquisition) : Prop := a_State a = AcqPending ∨ a_State a = AcqProvisioning.
Definition over (a : Acquisition) : Prop := a_State a = AcqBound ∨ ended (a_State a) = true.
Lemma waiting_or_over a : waiting a ∨ over a.
Proof. unfold waiting, over. destruct (a_State a); auto. Qed.
(** A watch that saw the rows [acqs], and [a] at the end. *)
Definition watched (id : string) (waits : list (Sys P → Sys P)) (cut : option (Sys P → Sys P)) (s : Sys P)
    (acqs : list Acquisition) (a : Acquisition) (s' : Sys P) : Prop :=
  Forall2 (λ s a, row id s = Ok a) (take (S (length acqs)) (visited waits s)) (acqs ++ [a]) ∧
  visited waits s !! length acqs = Some s' ∧ Forall waiting acqs ∧ (over a ∨ length acqs = length waits) ∧
  (length acqs < length waits ∨ cut = None)%nat.
(** A watch that saw the rows [acqs], none of them an end, when the timeout fell
    into the request of the next look. *)
Definition cut_off (id : string) (waits : list (Sys P → Sys P)) (cut : option (Sys P → Sys P)) (s : Sys P)
    (acqs : list Acquisition) (s' : Sys P) : Prop :=
  Forall2 (λ s a, row id s = Ok a) (take (length waits) (visited waits s)) acqs ∧ Forall waiting acqs ∧
  ∃ meanwhile s1, cut = Some meanwhile ∧ visited waits s !! length waits = Some s1 ∧ s' = meanwhile s1.
Lemma watch_cut id meanwhile last s : is_some (CutPrefix "acq_" id) = true →
  watch r id [] (Some meanwhile) last s = (inl (Api Client.Transport), [], meanwhile s).
Proof. intros Hacq. cbn [watch]. unfold watchOnce. rewrite Hacq. done. Qed.

Lemma watch_steps id waits cut last (s : Sys P) :
  is_some (CutPrefix "acq_" id) = true → RemoteFacts.plain_id id →
  (∀ s', s' ∈ visited waits s → ∃ a, row id s' = Ok a ∧ readable a) →
  let '(res, out, s') := watch r id waits cut last s in
  (∃ acqs a, watched id waits cut s acqs a s' ∧
    (a_State a = AcqBound ∧ res = inr tt ∨ a_State a ≠ AcqBound ∧ ∃ t, res = inl (watchFailed id t)) ∧
    out = line id <$> changes last (shown <$> acqs ++ [a])) ∨
  (∃ acqs, cut_off id waits cut s acqs s' ∧ res = inl (Api Client.Transport) ∧
    out = line id <$> changes last (shown <$> acqs)).
Proof.
  intros Hacq Hid. revert s last. induction waits as [|wait waits IH]; intros s last Hrows;
    (destruct (Hrows s) as (a & Ha & Hr); [by left|]).
  - destruct cut as [meanwhile|].
    { rewrite watch_cut by done. right. exists []. split; [|done]. split; [constructor|split; [constructor|]].
      by exists meanwhile, s. }
    rewrite (watch_step id _ None last s a) by done; cbv zeta.
    assert (watched id [] None s [] a s) as Hw
      by (split_and!; [by apply Forall2_cons; split; [|constructor]|done|constructor|by right|by right]).
    case_decide as Hb; [|destruct (ended (a_State a))]; left; exists [], a; (split; [exact Hw|split; [eauto|]]); simpl; by case_decide.
  - rewrite (watch_step id _ cut last s a) by done; cbv zeta. destruct (waiting_or_over a) as [Hwa|Hov].
    + rewrite decide_False by (by destruct Hwa as [-> | ->]).
      replace (ended (a_State a)) with false by (by destruct Hwa as [-> | ->]).
      specialize (IH (wait s) (shown a)). destruct (watch r id waits cut (shown a) (wait s)) as [[res out] s'].
      destruct IH as [(acqs & a' & (Hf & Hn & Hw & He & Hlt) & Hres & ->)|(acqs & (Hf & Hw & m & s1 & Hm & Hn & Hs') & Hres & ->)];
        [intros s2 Hs2; apply Hrows; by right|left|right].
      * exists (a :: acqs), a'. split; [split_and!|split; [done|]].
        -- simpl. by constructor.
        -- done.
        -- by constructor.
        -- simpl. destruct He; [by left|right; lia].
        -- simpl. destruct Hlt; [left; lia|by right].
        -- simpl. by case_decide; subst.
      * exists (a :: acqs). split; [split; [|split]|split; [done|]].
        -- simpl. by constructor.
        -- by constructor.
        -- by exists m, s1.
        -- simpl. by case_decide; subst.
    + assert (watched id (wait :: waits) cut s [] a s) as Hw
        by (split_and!; [by apply Forall2_cons; split; [|constructor]|done|constructor|by left|left; simpl; lia]).
      case_decide as Hb; [|destruct Hov as [?| ->]; [done|]]; left; exists [], a; (split; [exact Hw|split; [eauto|]]); simpl; by case_decide.
Qed.

(** C37: what [watch] makes of an acquisition on record of the running server,
    with a token that may read, whatever happens there between the looks: it
    changes nothing itself and ends at the first look that finds the
    acquisition bound or over, or at the last the timeout leaves room for. The
    exit code is 0 when that look finds it bound and 6 when it does not; it is 1
    when the timeout falls into the request of a look after all before it found
    the acquisition waiting. Every change of what is to be shown is printed
    once, the last look's included. *)
Theorem watch_follows_the_rows id (waits : list (Sys P → Sys P)) (cut : option (Sys P → Sys P)) (s : Sys P) :
  is_some (CutPrefix "acq_" id) = true → RemoteFacts.plain_id id →
  (∀ s', s' ∈ visited waits s → ∃ a, row id s' = Ok a ∧ readable a) →
  let '(code, out, s') := Execute (Some (r, Watch_ id waits cut)) s in
  (∃ acqs a, watched id waits cut s acqs a s' ∧
     code = (if decide (a_State a = AcqBound) then ExitOK else ExitWatch) ∧
     out = line id <$> changes "" (shown <$> acqs ++ [a])) ∨
  (∃ acqs, cut_off id waits cut s acqs s' ∧ code = ExitRuntime ∧
     out = line id <$> changes "" (shown <$> acqs)).
Proof.
  intros Hacq Hid Hrows. unfold Execute, run, watchCmd. pose proof (watch_steps id waits cut "" s Hacq Hid Hrows) as Hw.
  destruct (watch r id waits cut "" s) as [[res out] s'].
  destruct Hw as [(acqs & a & Hw & Hres & Hout)|(acqs & Hw & -> & Hout)]; [left|right].
  - exists acqs, a. split; [done|]. split; [|done].
    destruct Hres as [[Hb ->]|[Hb [t ->]]]; [by rewrite decide_True|by rewrite decide_False].
  - by exists acqs.
Qed.
End served.

(** ** A watch that ends well *)

Import Demo ApiFacts RemoteFacts.
#[local] Existing Instances Demo.clouds Demo.numbered Process.steady Process.offline ApiFacts.any_time RemoteFacts.silent.
#[local] Instance no_files : Files := λ _, Err (EOther "no such file").
#[local] Instance no_manifests : Manifests := λ _, Ok [].
#[local] Instance as_written : Floats := {| any_number := λ lit, Ok (JFloat lit); number_text := print |}.

Definition asked : Acquisition :=
  MkAcquisition "acq_1" "alice" compute.Kind "" JNone 1 60 AcqPending None None 1000 1000.
Definition granted_r1 : Acquisition :=
  MkAcquisition "acq_1" "alice" compute.Kind "" JNone 1 60 AcqBound (Some "lease_1"%string) (Some "r1"%string) 1000 2000.
Definition holding (a : Acquisition) (s : Sys unit) : Sys unit :=
  with_sy_World (up_Acquisitions (λ _, {[ a_ID a := a ]}) (sy_World s)) s.
Definition operator_root : root := MkRoot "http://fleet:8080" "flp_0badcafe.hunter2" "table".
Definition ops : Principal := MkPrincipal "0badcafe" "ops" {[ PermResourceDelete; PermResourceRead ]}.

Lemma operator_may_read h (s : Sys unit) :
  withMiddleware guard PermResourceRead (RemoteFacts.caller (client operator_root)) h s = h ops s.
Proof.
  unfold withMiddleware.
  replace (Enabled guard) with true by (vm_compute; reflexivity).
  replace (Authenticate guard _) with (@Ok Principal ops) by (vm_compute; reflexivity).
  by replace (Allows _ _) with true by (vm_compute; reflexivity).
Qed.
#[local] Instance fleet : Client.RoundTrip (Sys unit) := server boot guard None no_ids operator_root.
(** Bound at the third look; cut off in the second. *)
Lemma watch_follows_the_rows_witness :
  let s0 := holding asked s_ready in let waits := [λ s, s; holding granted_r1] in
  (∃ acqs a s', watched "acq_1" waits None s0 acqs a s' ∧
     (Execute (Some (operator_root, Watch_ "acq_1" waits None)) s0).1.1 = (if decide (a_State a = AcqBound) then ExitOK else ExitWatch)) ∧
  (∃ acqs s', cut_off "acq_1" [λ s, s] (Some (λ s, s)) s0 acqs s' ∧
     (Execute (Some (operator_root, Watch_ "acq_1" [λ s, s] (Some (λ s, s)))) s0).1.1 = 1).
Proof.
  cbv zeta.
  assert (∀ s', s' ∈ visited [λ s, s; holding granted_r1] (holding asked s_ready) → ∃ a, row "acq_1" s' = Ok a ∧ readable a) as Hrows.
  { intros s' Hs. simpl in Hs. repeat (apply elem_of_cons in Hs as [->|Hs]); [..|by apply elem_of_nil in Hs].
    1,2: exists asked. 3: exists granted_r1.
    all: (split; [vm_compute; reflexivity|]); eexists; (split; [vm_compute; reflexivity|]); by vm_compute. }
  split.
  - pose proof (watch_follows_the_rows boot guard None no_ids operator_root ltac:(done) ltac:(by vm_compute) ops operator_may_read
      "acq_1" [λ s, s; holding granted_r1] None (holding asked s_ready) ltac:(by vm_compute) ltac:(by repeat split) Hrows) as Hw.
    unfold fleet. destruct (Execute _ _) as [[code out] s'].
    destruct Hw as [(acqs & a & Hw & Hc & _)|(acqs & (_ & _ & m & s1 & Hm & _) & _)]; [by exists acqs, a, s'|discriminate Hm].
  - assert (∀ s', s' ∈ visited [λ s, s] (holding asked s_ready) → ∃ a, row "acq_1" s' = Ok a ∧ readable a) as Hrows1.
    { intros s' Hs. apply Hrows. simpl in Hs. repeat (apply elem_of_cons in Hs as [->|Hs]); [by left..|by apply elem_of_nil in Hs]. }
    pose proof (watch_follows_the_rows boot guard None no_ids operator_root ltac:(done) ltac:(by vm_compute) ops operator_may_read
      "acq_1" [λ s, s] (Some (λ s, s)) (holding asked s_ready) ltac:(by vm_compute) ltac:(by repeat split) Hrows1) as Hw.
    assert ((Execute (Some (operator_root, Watch_ "acq_1" [λ s, s] (Some (λ s, s)))) (holding asked s_ready)).1.1 = 1) as Hone
      by (vm_compute; reflexivity).
    unfold fleet in *. destruct (Execute _ _) as [[code out] s']. simpl in Hone.
    destruct Hw as [(acqs & a & _ & Hc & _)|(acqs & Hw & Hc & _)]; [|by exists acqs, s'].
    rewrite Hc in Hone. case_decide; discriminate Hone.
Defined.

(** ** Creating from a manifest *)

Definition q : string := String quote EmptyString.
Definition quoted (s : string) : string := (q +:+ s +:+ q)%string.
(** A manifest with a machine of two fields, and one whose machine is null. *)
#[local] Instance one_file : Files := λ name,
  if decide (name = "m.json"%string)
  then Ok ("{" +:+ quoted "spec" +:+ ":{" +:+ quoted "provider" +:+ ":" +:+ quoted "hetzner" +:+ "," +:+ quoted "machine" +:+ ":{" +:+
           quoted "image" +:+ ":" +:+ quoted "ubuntu" +:+ "," +:+ quoted "labels" +:+ ":{" +:+ quoted "team" +:+ ":" +:+ quoted "ci" +:+ "}}}}")%string
  else if decide (name = "null.json"%string)
  then Ok ("{" +:+ quoted "spec" +:+ ":{" +:+ quoted "provider" +:+ ":" +:+ quoted "hetzner" +:+ "," +:+ quoted "machine" +:+ ":null}}")%string
  else Err (EOther "no such file").
Definition from_file (file : string) : CreateFlags :=
  MkCreateFlags file "" "box" "" "" "" "" "debian" "" "" ["tier=gold"]%string.

Definition sent (file : string) : (fault + ClientTypes.CreateResourceRequest) * list Output * unit :=
  create_request (from_file file) tt.

(** A null machine and a flag about the machine end in a panic. *)
Lemma create_null_machine_panics : sent "null.json" = (inl Panic, [], tt) ∧ null_machine "null.json".
Proof.
  split; [vm_compute; reflexivity|]. unfold null_machine. do 3 eexists.
  split; [vm_compute; reflexivity|]. split; [vm_compute; reflexivity|]. split; vm_compute; reflexivity.
Qed.

(** ** Applying manifests without names *)

Definition machine_doc (image : string) : gmap string json :=
  list_to_map [("kind", JStr "Resource"); ("spec", JObj [("kind", JStr "compute.machine"); ("provider", JStr "demo");
    ("machine", JObj [("serverType", JStr "small"); ("image", JStr image)])])]%string.
#[local] Instance unnamed_docs : Manifests := λ _, Ok [machine_doc "debian"; machine_doc "ubuntu"].
#[local] Instance open_fleet : Client.RoundTrip (Sys unit) :=
  served boot (NewTokenAuthenticator [] "") None no_ids true (addr operator_root).
(** Resources without a name are created under one key: of a file with two
    different ones only the first is, the second is a conflict. *)
Lemma apply_unnamed_refused :
  let '(code, out, s) := Execute (Some (operator_root, Apply_ "m.json")) s_ready in
  code = ExitConflict ∧ out = [Line "resource/res_0 (res_0): provisioning"] ∧
  r_Provider <$> db_Resources (w_DB (sy_World s)) !! "res_0"%string = Some "demo"%string ∧
  size (db_Resources (w_DB (sy_World s))) = S (size (db_Resources (w_DB (sy_World s_ready)))).
Proof. vm_compute. by split_and!. Qed.
