(* ===== verification/Config.v ===== *)
(** * Configuration (internal/config) and the wiring of the process (internal/boot)

    Defaults and validation of a decoded configuration file, the token table,
    and what boot makes of an accepted configuration: provider instances,
    classes in storage, authenticator and the parameters of the loops. The YAML
    decoder is a library: the model starts from the value it decodes to (maps
    with arbitrary values are JSON documents). *)

From stdpp Require Import base gmap strings list sorting.
From Stdlib Require Import Ascii.
From S2P Require Import Prelude Errors Json SDK Types Store Kinds Classes Engine Reconcile Discovery App Process Marshal Manager Text Auth Demo.

(** ** internal/config *)

Record Token := MkToken_ { t_ID : string; t_Name : string; t_SHA256 : string; t_Permissions : list string }.

Record ClassReclaim := MkClassReclaim { cr_IdleAfter : Z; cr_Park : string; cr_DeleteAfter : Z }.
Record Class := MkClassConfig {
  cc_Kind : string; cc_Provider : string; cc_Spec : json;
  cc_Reclaim : option ClassReclaim;
  cc_MaxWait : option Z   (* scheduling.queue.maxWait *)
}.

Record ProviderConfig := MkProviderConfig {
  pc_Driver : string; pc_Settings : json; pc_Billing : gmap string BillingOverride }.

Record Config := MkConfig {
  c_Addr : string; c_OpsAddr : string; c_ShutdownGrace : Z;
  c_StoragePath : string;
  c_Providers : gmap string ProviderConfig;
  c_Classes : gmap string Class;
  c_PollInterval : Z; c_VerifyWindow : Z;
  c_ReconcileInterval : Z; c_MaxMutations : Z;
  c_PendingTimeout : Z;
  c_Discovery : DiscoveryConfig;
  c_Tokens : list Token
}.

(** [Duration.UnmarshalYAML]. *)
Definition yaml_quote (c : ascii) : bool := bool_decide (c = quote ∨ c = "'"%char).
Fixpoint trim_quotes_left (s : string) : string :=
  match s with String c s' => if yaml_quote c then trim_quotes_left s' else s | EmptyString => EmptyString end.
Fixpoint all_quotes (s : string) : bool :=
  match s with String c s => yaml_quote c && all_quotes s | EmptyString => true end.
Fixpoint trim_quotes_right (s : string) : string :=
  match s with
  | String c s' => if all_quotes s then EmptyString else String c (trim_quotes_right s')
  | EmptyString => EmptyString
  end.
Definition UnmarshalYAML (b : string) : result Z :=
  ParseDuration (trim_quotes_right (trim_quotes_left (TrimSpace b))).

Definition applyDefaults (c : Config) : Config :=
  let ors s d := if decide (s = ""%string) then d else s in
  let orz (z d : Z) := if decide (z = 0) then d else z in
  MkConfig (ors (c_Addr c) ":8080"%string) (ors (c_OpsAddr c) "127.0.0.1:9090"%string)
    (orz (c_ShutdownGrace c) (20 * Second)) (c_StoragePath c) (c_Providers c) (c_Classes c)
    (c_PollInterval c) (c_VerifyWindow c) (c_ReconcileInterval c) (c_MaxMutations c)
    (orz (c_PendingTimeout c) (15 * Minute)) (c_Discovery c) (c_Tokens c).

Definition not_negative (d : option Z) : bool := match d with Some d => bool_decide (0 ≤ d) | None => true end.

Definition billing_ok (b : BillingOverride) : bool :=
  negb (bo_Disabled b && (is_some (bo_MinimumDuration b) || is_some (bo_Increment b)
                          || is_some (bo_TerminationBuffer b) || bo_Adaptive b)) &&
  not_negative (bo_MinimumDuration b) && not_negative (bo_Increment b) && not_negative (bo_TerminationBuffer b).
Definition provider_ok (p : ProviderConfig) : bool :=
  negb (bool_decide (pc_Driver p = ""%string)) && forallb (λ kb, billing_ok kb.2) (map_to_list (pc_Billing p)).

Definition class_ok (c : Config) (cls : Class) : bool :=
  negb (bool_decide (cc_Kind cls = ""%string) || bool_decide (cc_Provider cls = ""%string)) &&
  is_some (c_Providers c !! cc_Provider cls) &&
  match cc_Reclaim cls with
  | Some r => mem (cr_Park r) [""; "auto"; "never"]%string && bool_decide (0 ≤ cr_DeleteAfter r ∧ 0 ≤ cr_IdleAfter r)
  | None => true
  end &&
  match cc_MaxWait cls with
  | Some mw => bool_decide (0 ≤ mw ≤ c_PendingTimeout c)
  | None => true
  end.

Fixpoint tokens_ok (seen : gset string) (toks : list Token) : bool :=
  match toks with
  | [] => true
  | t :: toks =>
      negb (bool_decide (t_ID t = ""%string) || bool_decide (t_SHA256 t = ""%string)) &&
      (String.length (t_SHA256 t) =? 64)%nat &&
      negb (bool_decide (t_ID t ∈ seen)) && tokens_ok ({[ t_ID t ]} ∪ seen) toks
  end.

Definition validate (c : Config) : bool :=
  negb (bool_decide (c_StoragePath c = ""%string)) &&
  forallb (λ np, provider_ok np.2) (map_to_list (c_Providers c)) &&
  forallb (λ nc, class_ok c nc.2) (map_to_list (c_Classes c)) &&
  tokens_ok ∅ (c_Tokens c).

(** [Parse], after the decoder. *)
Definition Parse (c : Config) : result Config :=
  let c := applyDefaults c in
  if validate c then Ok c else Err (EOther "config").

(** ** internal/boot *)

(** [hex.DecodeString] and the length of a SHA-256 digest. *)
Fixpoint tokenRecords (toks : list Token) : result (list TokenRecord) :=
  match toks with
  | [] => Ok []
  | t :: toks =>
      match NewPermSet (t_Permissions t) with
      | Err e => Err e
      | Ok perms =>
          match DecodeString (t_SHA256 t) with
          | Some digest =>
              if negb (String.length digest =? 32)%nat then Err (EOther "auth.tokens") else
              match tokenRecords toks with
              | Ok rs => Ok (MkToken (t_ID t) (t_Name t) digest perms :: rs)
              | Err e => Err e
              end
          | None => Err (EOther "auth.tokens")
          end
      end
  end.
Definition buildAuth (c : Config) (rand : string) : result TokenAuthenticator :=
  match tokenRecords (c_Tokens c) with
  | Ok rs => Ok (NewTokenAuthenticator rs rand)
  | Err e => Err e
  end.

Definition providerSpec (np : string * ProviderConfig) : ProviderSpec :=
  MkProviderSpec np.1 (pc_Driver np.2) (RawDoc (pc_Settings np.2)) (pc_Billing np.2).

Definition toClass (cls : Class) : Class_ :=
  MkClass_ (cc_Kind cls) (cc_Provider cls) (RawDoc (cc_Spec cls))
    (match cc_Reclaim cls with
     | Some r =>
         if bool_decide (0 < cr_IdleAfter r) || negb (bool_decide (cr_Park r = ""%string))
            || bool_decide (0 < cr_DeleteAfter r)
         then Some (MkReclaim (cr_IdleAfter r) (cr_Park r) (cr_DeleteAfter r)) else None
     | None => None
     end)
    (default 0 (cc_MaxWait cls)).

(** The templates are validated before anything is stored. *)
Definition bootClasses (c : Config) : result (gmap string Class_) :=
  if forallb (λ nc, match Validate (cc_Kind nc.2) (RawDoc (cc_Spec nc.2)) with Ok _ => true | Err _ => false end)
       (map_to_list (c_Classes c))
  then Ok (toClass <$> c_Classes c) else Err (EOther "classes").

Section boot.
Context `{ULID} {P : Type}.

(** [New]: what the running process is made of. *)
Record Installation := MkInstallation {
  in_Boot : Boot; in_Manager : Manager P; in_Auth : TokenAuthenticator }.

Definition boot_New (reg : gmap string (Factory P)) (c : Config) (rand : string) : M World Installation :=
  now <- nowM ;;
  ownerID <- EnsureOwnerID now ;;
  now <- nowM ;;
  m <- BuildProviders reg (providerSpec <$> sorted_entries (c_Providers c)) ownerID now ;;
  classes <- liftR (bootClasses c) ;;
  now <- nowM ;;
  Tx (SeedConfigClasses classes now) ;;;
  auth <- liftR (buildAuth c rand) ;;
  retM (MkInstallation
    (MkBoot (Engine.defaults (Engine.MkConfig (c_PollInterval c) (c_VerifyWindow c) 0 0 0))
       (Reconcile.defaults (Reconcile.MkConfig (c_ReconcileInterval c) (c_MaxMutations c) 0 0))
       (discovery_defaults (c_Discovery c)) ownerID (Milliseconds (c_PendingTimeout c)))
    m auth).
End boot.
Arguments Installation P : clear implicits.

(** ** Classes at boot *)

Definition keyed_classes (w : World) : Prop := ∀ k rec, db_Classes (w_DB w) !! k = Some rec → c_Name rec = k.

Definition upserted (cur : option ClassRecord) (rec : ClassRecord) : ClassRecord :=
  match cur with None => rec | Some cur => with_c_CreatedAt (c_CreatedAt cur) rec end.

Lemma prune_spec (classes : gmap string Class_) l w w' :
  forM_ l (λ rec, if decide (is_Some (classes !! c_Name rec)) then retM tt else Classes_Delete (c_Name rec)) w
    = (Ok tt, w') →
  ∀ name, db_Classes (w_DB w') !! name =
    if decide (name ∈ c_Name <$> l ∧ classes !! name = None) then None else db_Classes (w_DB w) !! name.
Proof.
  revert w. induction l as [|rec l IH]; intros w H name; cbn [forM_] in H.
  { injection H as <-. rewrite decide_False; [done|]. intros [Hin _]. by apply not_elem_of_nil in Hin. }
  apply bindM_Ok in H as ([] & w1 & H1 & H2). specialize (IH w1 H2 name). rewrite IH. clear IH H2.
  revert H1. case_decide as Hs.
  - intros [= <-]. cbn [fmap list_fmap]. apply decide_ext. rewrite elem_of_cons. split; [tauto|].
    intros [[->|?] Hn]; [|done]. rewrite Hn in Hs. by destruct Hs.
  - unfold Classes_Delete. destruct (db_Classes (w_DB w) !! c_Name rec) as [x|]; [|done]. intros [= <-]. simpl.
    rewrite <-eq_None_not_Some in Hs.
    destruct (decide (name = c_Name rec)) as [->|Hne].
    + rewrite lookup_delete_eq. rewrite (decide_True (P := c_Name rec ∈ c_Name rec :: _ ∧ _)) by (split; [left|done]).
      by case_decide.
    + rewrite lookup_delete_ne by done. cbn [fmap list_fmap]. apply decide_ext. rewrite elem_of_cons. naive_solver.
Qed.

Lemma upsert_spec now (l : list (string * Class_)) w :
  NoDup l.*1 →
  ∃ w', forM_ l (λ '(name, cls), Classes_Upsert (configClass name cls now)) w = (Ok tt, w') ∧
  (∀ name, name ∉ l.*1 → db_Classes (w_DB w') !! name = db_Classes (w_DB w) !! name) ∧
  (∀ name cls, (name, cls) ∈ l →
     db_Classes (w_DB w') !! name = Some (upserted (db_Classes (w_DB w) !! name) (configClass name cls now))).
Proof.
  revert w. induction l as [|[name cls] l IH]; intros w Hnd.
  { exists w. split_and!; [done|done|]. intros ? ? H. by apply not_elem_of_nil in H. }
  cbn [fmap list_fmap fst] in Hnd. inversion_clear Hnd as [|?? Hn Hnd'].
  cbn [forM_]. unfold bindM at 1, Classes_Upsert at 1, modifyM. cbv beta iota.
  match goal with |- context [forM_ l _ ?w1] => destruct (IH w1 Hnd') as (w' & Hrun & Hother & Hin) end. exists w'. split; [exact Hrun|]. split.
  - intros k Hk. cbn [fmap list_fmap fst] in Hk. apply not_elem_of_cons in Hk as [Hne Hk].
    rewrite Hother by done. simpl. by rewrite lookup_insert_ne.
  - intros k c [[= -> ->]|Hkc]%elem_of_cons.
    + rewrite Hother by done. simpl. by rewrite lookup_insert_eq.
    + rewrite (Hin _ _ Hkc). simpl. rewrite lookup_insert_ne; [done|]. intros ->. apply Hn.
      apply list_elem_of_fmap. by exists (k, c).
Qed.

Lemma seed_spec classes now w w' :
  keyed_classes w → SeedConfigClasses classes now w = (Ok tt, w') →
  ∀ name, db_Classes (w_DB w') !! name =
    match classes !! name with
    | Some cls => Some (upserted (db_Classes (w_DB w) !! name) (configClass name cls now))
    | None => match db_Classes (w_DB w) !! name with
              | Some rec => if decide (c_Source rec = "config"%string) then None else Some rec
              | None => None
              end
    end.
Proof.
  intros Hk H name. unfold SeedConfigClasses in H. apply bindM_Ok in H as (existing & w0 & H0 & H).
  injection H0 as <- <-. apply bindM_Ok in H as ([] & w1 & H1 & H2).
  pose proof (prune_spec classes _ w w1 H1) as Hp.
  destruct (upsert_spec now (map_to_list classes) w1 (NoDup_fst_map_to_list classes)) as (w2 & Hrun & Hother & Hin).
  rewrite Hrun in H2. injection H2 as <-.
  destruct (classes !! name) as [cls|] eqn:Hc.
  - rewrite (Hin name cls) by (by apply elem_of_map_to_list). rewrite Hp, decide_False by (by intros [_ ?]; simplify_eq).
    done.
  - rewrite Hother.
    2: { intros Hn. apply list_elem_of_fmap in Hn as ([k c] & -> & Hn). apply elem_of_map_to_list in Hn.
         simpl in Hc. congruence. }
    rewrite Hp. case_decide as Hd.
    + destruct Hd as [Hd _]. apply list_elem_of_fmap in Hd as (rec & -> & Hd).
      apply elem_of_select in Hd as (Hs & k & Hrec). apply bool_decide_eq_true in Hs.
      rewrite (Hk _ _ Hrec), Hrec. by rewrite decide_True.
    + destruct (db_Classes (w_DB w) !! name) as [rec|] eqn:Hrec; [|done]. rewrite decide_False; [done|].
      intros Hs. apply Hd. split; [|done]. rewrite <-(Hk _ _ Hrec). apply list_elem_of_fmap_2, elem_of_select.
      split; [by apply bool_decide_eq_true|eauto].
Qed.

(** ** Tokens at boot *)

Lemma newPermSet_Ok perms s s' : newPermSet s perms = Ok s' →
  ∀ p, p ∈ s' ↔ p ∈ s ∨ p ∈ perms.
Proof.
  revert s. induction perms as [|q perms IH]; intros s; simpl.
  - intros [= <-] p. set_solver.
  - destruct (mem q AllPermissions); [|done]. intros H p. rewrite (IH _ H p). set_solver.
Qed.

(** The record of a configured token. *)
Definition token_record (t : Token) (r : TokenRecord) : Prop :=
  tk_ID r = t_ID t ∧ tk_Name r = t_Name t ∧ DecodeString (t_SHA256 t) = Some (tk_SHA256 r) ∧
  ∀ p, p ∈ tk_Perms r ↔ p ∈ t_Permissions t.

Lemma tokenRecords_Ok toks rs : tokenRecords toks = Ok rs → Forall2 token_record toks rs.
Proof.
  revert rs. induction toks as [|t toks IH]; intros rs; simpl; [by intros [= <-]|].
  destruct (NewPermSet (t_Permissions t)) as [perms|e] eqn:Hp; [|done].
  destruct (DecodeString (t_SHA256 t)) as [digest|] eqn:Hd; [|done].
  destruct (negb _); [done|]. destruct (tokenRecords toks) as [rs'|e]; [|done]. intros [= <-].
  constructor; [|by apply IH]. split_and!; [done|done|done|]. intros p.
  rewrite (newPermSet_Ok _ _ _ Hp p). set_solver.
Qed.

Lemma tokens_ok_NoDup seen toks : tokens_ok seen toks = true →
  NoDup (t_ID <$> toks) ∧ ∀ t, t ∈ toks → t_ID t ∉ seen.
Proof.
  revert seen. induction toks as [|t toks IH]; intros seen; simpl; [split; [constructor|set_solver]|].
  rewrite !andb_true_iff. intros [[_ Hs] H]. apply negb_true_iff, bool_decide_eq_false in Hs.
  destruct (IH _ H) as [Hnd Hseen]. split.
  - constructor; [|done]. intros (t' & Heq & Ht')%list_elem_of_fmap. apply (Hseen _ Ht'). rewrite Heq. set_solver.
  - intros t' [->|Ht']%elem_of_cons; [done|]. pose proof (Hseen _ Ht'). set_solver.
Qed.

Lemma authenticator_lookup rs rand : NoDup (tk_ID <$> rs) →
  ∀ id r, byID (NewTokenAuthenticator rs rand) !! id = Some r ↔ r ∈ rs ∧ tk_ID r = id.
Proof.
  intros Hnd id r. simpl. assert (∀ (m : gmap string TokenRecord),
    (∀ x, x ∈ rs → m !! tk_ID x = None) →
    foldl (λ (m : gmap string TokenRecord) r, <[tk_ID r:=r]> m) m rs !! id = Some r ↔
      (r ∈ rs ∧ tk_ID r = id) ∨ m !! id = Some r) as Hf.
  { induction rs as [|x rs IH]; intros m Hm; cbn [foldl]; [set_solver|].
    cbn [fmap list_fmap] in Hnd. inversion_clear Hnd as [|?? Hx Hnd']. rewrite (IH Hnd').
    - rewrite lookup_insert_Some, elem_of_cons. split.
      + intros [[? ?]|[[? ?]|[? ?]]]; subst; auto.
      + intros [[[->|Hr] <-]|Hr]; [auto|auto|]. right. right. split; [|done].
        intros Heq. rewrite <-Heq, (Hm x) in Hr; [done|by left].
    - intros y Hy. rewrite lookup_insert_ne; [apply Hm; by right|]. intros Heq. apply Hx. rewrite Heq.
      by apply list_elem_of_fmap_2. }
  rewrite Hf by (intros; apply lookup_empty). rewrite lookup_empty. naive_solver.
Qed.

(** The authenticator holds the configured tokens. *)
Lemma auth_exact c rand auth : validate c = true → buildAuth c rand = Ok auth →
  (∀ id r, byID auth !! id = Some r ↔
     ∃ t, t ∈ c_Tokens c ∧ t_ID t = id ∧ tk_ID r = id ∧ tk_Name r = t_Name t ∧
          DecodeString (t_SHA256 t) = Some (tk_SHA256 r) ∧ (∀ p, p ∈ tk_Perms r ↔ p ∈ t_Permissions t)) ∧
  (Enabled auth = true ↔ c_Tokens c ≠ []).
Proof.
  intros Hv H5. unfold buildAuth in H5. destruct (tokenRecords (c_Tokens c)) as [rs|e] eqn:Hrs; [|done].
  injection H5 as <-. apply tokenRecords_Ok in Hrs.
  unfold validate in Hv. rewrite !andb_true_iff in Hv. destruct Hv as [_ [Hnd _]%tokens_ok_NoDup].
  assert (tk_ID <$> rs = t_ID <$> c_Tokens c) as Hids.
  { clear -Hrs. induction Hrs as [|t r toks rs (Hi & _) _ IH]; [done|]. by rewrite !fmap_cons, Hi, IH. }
  split.
  - intros id r. rewrite authenticator_lookup by (by rewrite Hids). split.
    + intros [Hr <-]. apply list_elem_of_lookup in Hr as [i Hi].
      destruct (Forall2_lookup_r _ _ _ _ _ Hrs Hi) as (t & Ht & Hi1 & Hi2 & Hi3 & Hi4).
      exists t. split_and!; try done. by apply list_elem_of_lookup_2 in Ht.
    + intros (t & Ht & Hid & Hr1 & Hr2 & Hr3 & Hr4). split; [|done]. apply list_elem_of_lookup in Ht as [i Hi].
      destruct (Forall2_lookup_l _ _ _ _ _ Hrs Hi) as (r' & Hr' & Hi1 & Hi2 & Hi3 & Hi4).
      apply list_elem_of_lookup_2 in Hr'. assert (r = r') as ->; [|done].
      destruct r, r'; simpl in *. f_equal; [congruence..|]. apply set_eq. intros p. by rewrite Hr4, Hi4.
  - unfold Enabled. rewrite negb_true_iff, bool_decide_eq_false. split.
    + intros Hne Htoks. apply Hne. rewrite Htoks in Hrs. by inversion Hrs.
    + intros Htoks Hemp. destruct rs as [|r rs]; [inversion Hrs; congruence|].
      pose proof (proj2 (authenticator_lookup (r :: rs) rand ltac:(by rewrite Hids) (tk_ID r) r)) as Hl.
      rewrite Hemp, lookup_empty in Hl. specialize (Hl (conj (list_elem_of_here r rs) eq_refl)). done.
Qed.

(** ** An accepted configuration *)

Definition whole_ms (d : Z) : Z := d / Millisecond * Millisecond.

Lemma ms_col d : 0 ≤ d ≤ max64 →
  from_option msDuration 0 (msIfPositive d) = whole_ms d ∧
  positive (msIfPositive d) = bool_decide (0 < whole_ms d).
Proof.
  intros Hd. unfold msIfPositive, whole_ms, msDuration, Milliseconds, mul64, Millisecond. case_decide as Hp; simpl.
  - rewrite Z.quot_div_nonneg by lia.
    pose proof (Z.mul_div_le d 1000000 ltac:(lia)). pose proof (Z.div_pos d 1000000 ltac:(lia) ltac:(lia)). split; [apply wrap64_id; in64|].
    apply bool_decide_ext. lia.
  - assert (d = 0) as -> by lia. done.
Qed.

(** The class a configured one is resolved to: durations in whole
    milliseconds, and a reclaim policy when there is anything in it. *)
Definition resolves_to (cls : Class) : Class_ :=
  MkClass_ (cc_Kind cls) (cc_Provider cls) (RawDoc (cc_Spec cls))
    (match cc_Reclaim cls with
     | Some r =>
         if bool_decide (0 < whole_ms (cr_IdleAfter r)) || negb (bool_decide (cr_Park r = ""%string))
            || bool_decide (0 < whole_ms (cr_DeleteAfter r))
         then Some (MkReclaim (whole_ms (cr_IdleAfter r)) (cr_Park r) (whole_ms (cr_DeleteAfter r))) else None
     | None => None
     end)
    (whole_ms (default 0 (cc_MaxWait cls))).

Definition durations_int64 (cls : Class) : Prop :=
  default 0 (cc_MaxWait cls) ≤ max64 ∧
  match cc_Reclaim cls with Some r => cr_IdleAfter r ≤ max64 ∧ cr_DeleteAfter r ≤ max64 | None => True end.

Lemma class_resolves c cls cur name now :
  class_ok c cls = true → durations_int64 cls →
  toReconcileClass (upserted cur (configClass name (toClass cls) now)) = resolves_to cls.
Proof.
  intros Hok [Hw Hr]. unfold class_ok in Hok. rewrite !andb_true_iff in Hok. destruct Hok as [[_ Hrec] Hwait].
  assert (0 ≤ default 0 (cc_MaxWait cls) ≤ max64) as Hw'.
  { destruct (cc_MaxWait cls); [apply bool_decide_eq_true in Hwait|]; simpl in *; lia. }
  destruct (ms_col _ Hw') as [Hw1 Hw2].
  assert (toReconcileClass (upserted cur (configClass name (toClass cls) now)) =
          toReconcileClass (configClass name (toClass cls) now)) as -> by (by destruct cur).
  unfold toReconcileClass, configClass, resolves_to.
  cbn [c_Kind c_Provider c_Spec c_ReclaimIdleAfterMs c_ReclaimPark c_ReclaimDeleteAfterMs c_QueueMaxWaitMs
       toClass cl_Kind cl_Provider cl_Spec cl_Reclaim cl_QueueMaxWait]. f_equal.
  2: { rewrite Hw1, Hw2. case_bool_decide; [done|]. unfold whole_ms in *. pose proof Hw'. unfold Millisecond in *.
       assert (0 ≤ default 0 (cc_MaxWait cls) / 1000000) by (apply Z.div_pos; lia). lia. }
  revert Hr Hrec. destruct (cc_Reclaim cls) as [r|]; [|done]. intros Hr Hrec.
  apply andb_true_iff in Hrec as [_ Hrec%bool_decide_eq_true].
  destruct (ms_col (cr_IdleAfter r)) as [Hi1 Hi2]; [lia|]. destruct (ms_col (cr_DeleteAfter r)) as [Hd1 Hd2]; [lia|].
  destruct (bool_decide (0 < cr_IdleAfter r) || negb (bool_decide (cr_Park r = ""%string))
            || bool_decide (0 < cr_DeleteAfter r)) eqn:E.
  - change (Some ?x ≫= ?f) with (f x). cbv beta. cbn [IdleAfter Park DeleteAfter].
    change (Some (MkReclaim (cr_IdleAfter r) (cr_Park r) (cr_DeleteAfter r)) ≫= (λ r, msIfPositive (IdleAfter r)))
      with (msIfPositive (cr_IdleAfter r)).
    change (Some (MkReclaim (cr_IdleAfter r) (cr_Park r) (cr_DeleteAfter r)) ≫= (λ r, msIfPositive (DeleteAfter r)))
      with (msIfPositive (cr_DeleteAfter r)).
    rewrite Hi1, Hi2, Hd1, Hd2. done.
  - rewrite !orb_false_iff, !bool_decide_eq_false in E. destruct E as [[Ei Ep] Ed].
    assert (cr_IdleAfter r = 0) as -> by lia. assert (cr_DeleteAfter r = 0) as -> by lia.
    rewrite Ep. done.
Qed.

Section boot_facts.
Context `{ULID} {P : Type}.
Implicit Types (reg : gmap string (Factory P)).

Definition classes_are (T : gmap string ClassRecord) (w : World) : Prop := db_Classes (w_DB w) = T.

Lemma Tx_keeps {A} (I : World → Prop) (m : M World A) :
  (∀ w w', I w → w_DB w' = w_DB w → I w') → keeps I m → keeps I (Tx m).
Proof.
  intros HI Hm w Hw. specialize (Hm w Hw). unfold Tx. destruct (m w) as [[a|e] w']; [done|].
  simpl in *. by eapply HI.
Qed.
Lemma classes_are_DB T w w' : classes_are T w → w_DB w' = w_DB w → classes_are T w'.
Proof. unfold classes_are. by intros ? ->. Qed.

Lemma owner_keeps T now : keeps (classes_are T) (EnsureOwnerID now).
Proof.
  apply Tx_keeps; [apply classes_are_DB|]. apply keeps_bind; [apply keeps_try, keeps_pure|].
  - intros w. unfold Checkpoints_Get, row_get. by destruct (_ !! _).
  - intros [[|cp|]|[]]; try (by apply keeps_pure, pure_fail).
    + case_decide; [apply keeps_pure, pure_fail|apply keeps_pure, pure_ret].
    + apply keeps_bind; [by intros w Hw|intros owner].
      apply keeps_bind; [by intros w Hw|intros _; apply keeps_pure, pure_ret].
Qed.
Lemma buildAll_keeps T reg owner now specs m : keeps (classes_are T) (buildAll reg owner now specs m).
Proof.
  revert m. induction specs as [|spec specs IH]; intros m; cbn [buildAll]; [apply keeps_pure, pure_ret|].
  apply keeps_bind; [apply keeps_pure, pure_liftR|intros inst].
  apply keeps_bind; [apply keeps_pure, pure_liftR|intros billing].
  apply keeps_bind; [apply Tx_keeps; [apply classes_are_DB|by intros w Hw]|intros _; apply IH].
Qed.

Lemma sorted_entries_elem {A} (m : gmap string A) k x : (k, x) ∈ sorted_entries m ↔ m !! k = Some x.
Proof. unfold sorted_entries. rewrite (merge_sort_Permutation key_le). apply elem_of_map_to_list. Qed.
Lemma specs_NoDup (m : gmap string ProviderConfig) : NoDup (ps_Name <$> (providerSpec <$> sorted_entries m)).
Proof.
  rewrite <-list_fmap_compose. change (ps_Name ∘ providerSpec) with (@fst string ProviderConfig).
  unfold sorted_entries. rewrite (merge_sort_Permutation key_le). apply NoDup_fst_map_to_list.
Qed.

Lemma Parse_Ok c0 c : Parse c0 = Ok c → validate c = true.
Proof. unfold Parse. destruct (validate (applyDefaults c0)) eqn:E; [by intros <-%Ok_inj|done]. Qed.
Lemma validate_class c name cls : validate c = true → c_Classes c !! name = Some cls → class_ok c cls = true.
Proof.
  unfold validate. rewrite !andb_true_iff. intros [[_ Hc] _] Hn. rewrite forallb_forall in Hc.
  apply (Hc (name, cls)), list_elem_of_In, elem_of_map_to_list, Hn.
Qed.

(** The steps of a boot that succeeded. *)
Lemma boot_steps reg c rand w inst w' : boot_New reg c rand w = (Ok inst, w') →
  ∃ owner now1 now2 w1 w2 classes,
    EnsureOwnerID (w_Clock w) w = (Ok owner, w1) ∧
    BuildProviders reg (providerSpec <$> sorted_entries (c_Providers c)) owner now1 w1 = (Ok (in_Manager inst), w2) ∧
    bootClasses c = Ok classes ∧ SeedConfigClasses classes now2 w2 = (Ok tt, w') ∧
    buildAuth c rand = Ok (in_Auth inst).
Proof.
  intros Hb. unfold boot_New in Hb.
  apply bindM_Ok in Hb as (now & wa & Ha & Hb). injection Ha as <- <-.
  apply bindM_Ok in Hb as (owner & w1 & H1 & Hb). apply bindM_Ok in Hb as (now1 & wb & Hc & Hb). injection Hc as Hn1 <-.
  apply bindM_Ok in Hb as (m & w2 & H2 & Hb). apply bindM_Ok in Hb as (classes & wc & H3 & Hb).
  injection H3 as H3 <-. apply bindM_Ok in Hb as (now2 & wd & H4 & Hb). injection H4 as Hn2 <-.
  apply bindM_Ok in Hb as ([] & we & H5 & Hb). apply bindM_Ok in Hb as (auth & wf & H6 & Hb).
  injection H6 as H6 <-. injection Hb as <- <-. cbn [in_Manager in_Auth].
  exists owner, now1, now2, w1, w2, classes. split_and!; [done|done|done| |done].
  unfold Tx in H5. destruct (SeedConfigClasses classes now2 w2) as [[[]|e] wg]; [|done]. injection H5 as <-. done.
Qed.

(** C20: when the process boots from an accepted configuration, the classes
    table holds exactly the file's classes under the source "config", each
    resolving to what the file says (durations in whole milliseconds) on a
    provider instance that runs, and the API's classes are as they were; every
    configured token is known under its id with its digest and permissions,
    nothing else is, and the API is open exactly when there are no tokens. *)
Theorem accepted_config_boots reg c0 c rand w inst w' :
  Parse c0 = Ok c → keyed_classes w → (∀ name cls, c_Classes c !! name = Some cls → durations_int64 cls) →
  boot_New reg c rand w = (Ok inst, w') →
  (∀ name cls, c_Classes c !! name = Some cls →
     is_Some (Instance (in_Manager inst) (cc_Provider cls)) ∧
     (∃ rec, db_Classes (w_DB w') !! name = Some rec ∧ c_Source rec = "config"%string) ∧
     (lookupClass name w').1 = Ok (Some (resolves_to cls))) ∧
  (∀ name, c_Classes c !! name = None →
     db_Classes (w_DB w') !! name =
       match db_Classes (w_DB w) !! name with
       | Some rec => if decide (c_Source rec = "config"%string) then None else Some rec
       | None => None
       end) ∧
  (∀ id r, byID (in_Auth inst) !! id = Some r ↔
     ∃ t, t ∈ c_Tokens c ∧ t_ID t = id ∧ tk_ID r = id ∧ tk_Name r = t_Name t ∧
          DecodeString (t_SHA256 t) = Some (tk_SHA256 r) ∧ (∀ p, p ∈ tk_Perms r ↔ p ∈ t_Permissions t)) ∧
  (Enabled (in_Auth inst) = true ↔ c_Tokens c ≠ []).
Proof.
  intros Hparse Hk Hdur Hb. apply Parse_Ok in Hparse as Hv.
  destruct (boot_steps reg c rand w inst w' Hb) as (owner & now1 & now2 & w1 & w2 & classes & H1 & H2 & H3 & H4 & H5).
  assert (db_Classes (w_DB w2) = db_Classes (w_DB w)) as Hsame.
  { pose proof (owner_keeps _ (w_Clock w) w eq_refl) as K1. rewrite H1 in K1.
    pose proof (buildAll_keeps _ reg owner now1 (providerSpec <$> sorted_entries (c_Providers c)) (MkManager ∅ ∅) w1 K1) as K2.
    unfold BuildProviders in H2. rewrite H2 in K2. exact K2. }
  assert (keyed_classes w2) as Hk2 by (unfold keyed_classes in *; by rewrite Hsame).
  pose proof (seed_spec classes now2 w2 w' Hk2 H4) as Hseed. rewrite Hsame in Hseed.
  assert (classes = toClass <$> c_Classes c) as ->.
  { unfold bootClasses in H3. destruct (forallb _ _); [by injection H3|done]. }
  split_and!.
  - intros name cls Hc. pose proof (validate_class c name cls Hv Hc) as Hok.
    specialize (Hseed name). rewrite lookup_fmap, Hc in Hseed. simpl in Hseed. split_and!.
    + unfold class_ok in Hok. rewrite !andb_true_iff in Hok. destruct Hok as [[[_ Hp] _] _].
      destruct (c_Providers c !! cc_Provider cls) as [pc|] eqn:Hpc; [|done].
      destruct (buildAll_spec reg owner now1 (providerSpec <$> sorted_entries (c_Providers c)) (MkManager ∅ ∅) w1
        (in_Manager inst) w2 (specs_NoDup _)) as [Hs _]; [intros; apply lookup_empty|exact H2|].
      destruct (Hs (providerSpec (cc_Provider cls, pc))) as [(i & _ & Hi & _) _]; [|by exists i].
      by apply list_elem_of_fmap_2, sorted_entries_elem.
    + eexists. split; [exact Hseed|]. by destruct (db_Classes (w_DB w) !! name).
    + unfold lookupClass, bindM, tryM, Classes_Get, row_get. rewrite Hseed. cbn [fst retM].
      do 2 f_equal. apply (class_resolves c); [done|by apply (Hdur name)].
  - intros name Hc. specialize (Hseed name). by rewrite lookup_fmap, Hc in Hseed.
  - apply (proj1 (auth_exact c rand _ Hv H5)).
  - apply (proj2 (auth_exact c rand _ Hv H5)).
Qed.
End boot_facts.

(** A laboratory configuration: one cloud, one class, one token. *)
Definition labConfig : Config :=
  MkConfig "" "" 0 "/var/lib/fp.db"
    {[ "lab-1"%string := MkProviderConfig "lab" JNull ∅ ]}
    {[ "small"%string := MkClassConfig compute.Kind "lab-1"
         (JObj [("serverType"%string, JStr "s"); ("image"%string, JStr "debian"); ("location"%string, JStr "x")])
         (Some (MkClassReclaim (90 * Second) "auto" 0)) (Some (5 * Minute)) ]}
    0 0 0 0 0 (MkDiscovery 0 0 "" "")
    [MkToken_ "0badcafe" "ops" "f52fbd32b2b3b86ff88ef6c490628285f482af15ddcb29541f94bcf526a3f6c7" ["admin"%string]].

Import Demo.
#[local] Existing Instances Demo.numbered.

Lemma accepted_config_boots_witness : ∃ inst w',
  boot_New labRegistry (applyDefaults labConfig) "noise" w0 = (Ok inst, w') ∧
  (lookupClass "small" w').1 = Ok (Some (MkClass_ compute.Kind "lab-1"
     (RawDoc (JObj [("serverType"%string, JStr "s"); ("image"%string, JStr "debian"); ("location"%string, JStr "x")]))
     (Some (MkReclaim (90 * Second) "auto" 0)) (5 * Minute))) ∧
  Enabled (in_Auth inst) = true.
Proof.
  destruct (boot_New labRegistry (applyDefaults labConfig) "noise" w0) as [[inst|e] w'] eqn:Hb.
  2: { apply (f_equal fst) in Hb. vm_compute in Hb. discriminate. }
  exists inst, w'. split; [done|].
  destruct (accepted_config_boots labRegistry labConfig (applyDefaults labConfig) "noise" w0 inst w')
    as (H1 & _ & _ & H4).
  - vm_compute. reflexivity.
  - intros k rec Hk. vm_compute in Hk. discriminate.
  - intros name cls Hc. change (c_Classes (applyDefaults labConfig)) with (c_Classes labConfig) in Hc.
    cbn [c_Classes labConfig] in Hc. apply lookup_singleton_Some in Hc as [_ <-]. vm_compute. repeat split; discriminate.
  - exact Hb.
  - split; [|by apply H4].
    destruct (H1 "small"%string _ (lookup_singleton_eq _ _)) as (_ & _ & Hl). rewrite Hl. vm_compute. reflexivity.
Defined.
