(* ===== verification/Serve.v ===== *)
(** * Serving (internal/boot/boot.go)

    What [App.Serve] and its goroutines do, from the listeners to the closed
    store: the start-up that ends in readiness, the rounds of the loops, the
    two listeners with their handlers, and the shutdown. What the store, the
    network and the outside contribute comes with each event. *)

From stdpp Require Import base gmap strings list.
From S2P Require Import Prelude Errors Json Phase SDK Capacity Types Store Kinds Marshal Classes Provision Sys Engine Scheduler Reconcile Discovery Lease App Process Manager Health Text Auth Queries Wire Config Api.

Import compute.

Section serve.
Context `{ULID} {P : Type} `{Providers P} `{Rand} `{compute.Network} `{TimeText}.
Context (b : Boot) (auth : TokenAuthenticator) (event_id : nat → string).

(** [Serve] has been entered, is waiting for its end, is draining, or has
    returned. *)
Inductive Stage := Wired | Serving | Draining | Closed.
#[global] Instance Stage_eq_dec : EqDecision Stage.
Proof. solve_decision. Defined.
Record App := MkApp {
  ap_mainLn : bool; ap_opsLn : bool;   (* listeners bound *)
  ap_ready : bool;
  ap_stage : Stage;
  ap_started : bool;                   (* the start-up ran *)
  ap_sys : Sys P
}.
Definition with_sys (s : Sys P) (a : App) : App :=
  MkApp (ap_mainLn a) (ap_opsLn a) (ap_ready a) (ap_stage a) (ap_started a) s.
Definition with_stage (ready : bool) (st : Stage) (a : App) : App :=
  MkApp (ap_mainLn a) (ap_opsLn a) ready st (ap_started a) (ap_sys a).
(** What [New] leaves, over a database and its clouds. *)
Definition wired (s : Sys P) : App := MkApp false false false Wired false s.
Definition at_ (now : Z) (s : Sys P) : Sys P := with_sy_World (with_w_Clock now (sy_World s)) s.

(** [Listen]: without the ops listener the main one is closed, but still set. *)
Definition Listen (main ops : result unit) (a : App) : result unit * App :=
  match main with
  | Err e => (Err e, a)
  | Ok _ =>
      let a := MkApp true (ap_opsLn a) (ap_ready a) (ap_stage a) (ap_started a) (ap_sys a) in
      match ops with
      | Err e => (Err e, a)
      | Ok _ => (Ok tt, MkApp true true (ap_ready a) (ap_stage a) (ap_started a) (ap_sys a))
      end
  end.
Definition Serve (a : App) : result unit * App :=
  if negb (ap_mainLn a) || negb (ap_opsLn a) then (Err (EOther "boot: Serve called before Listen"), a)
  else (Ok tt, with_stage false Serving a).

(** Readiness = storage ping ∧ journal recovery complete; an acquisition that
    cannot be resumed is only logged. *)
Definition recover : M (Sys P) unit :=
  Engine_Resume ;;; ignoreM (Scheduler_Resume (bt_Owner b) (bt_PendingTimeout b)) ;;; poolKickAll.
Definition startup (now : Z) (ping : result unit) (a : App) : App :=
  let a := MkApp (ap_mainLn a) (ap_opsLn a) (ap_ready a) (ap_stage a) true (ap_sys a) in
  match ping with
  | Err _ => a
  | Ok _ => match recover (at_ now (ap_sys a)) with
            | (Ok _, s) => with_stage true (ap_stage a) (with_sys s a)
            | (Err _, s) => with_sys s a
            end
  end.

(** [sweepLoop], once its five seconds are over. *)
Definition sweep (ready : bool) : M (Sys P) unit :=
  if negb ready then retM tt
  else ignoreM SweepExpired ;;; ignoreM (Scheduler_Resume (bt_Owner b) (bt_PendingTimeout b)).
Inductive Loop := EngineLoop | ReconcileLoop (tick : bool) | DiscoveryLoop (names : list string) (healthy : string → bool) | SweepLoop.
Definition turn (l : Loop) (ready : bool) : M (Sys P) unit :=
  match l with
  | EngineLoop => act b EngineRound
  | ReconcileLoop tick => act b (ReconcileRound tick)
  | DiscoveryLoop names healthy => act b (DiscoveryRound names healthy)
  | SweepLoop => sweep ready
  end.

(** ** The listeners *)

(** What is answered: a reply, a file of the dashboard, a redirect, the mux's
    own redirect to the root of a subtree, the exposition of metrics, a page of
    the profiler. *)
Inductive Answer :=
| Replied (rep : Reply) | Asset (path : list string) | Redirect (code : Z) (to : string) | Slash (to : string)
| Metrics | Profile (path : list string).
Definition notFound : Reply := MkReply 404 Plain false false.
Definition notAllowed : Reply := MkReply 405 Plain false false.
Definition status (code : Z) (fs : list (string * string)) : Reply := writeJSON code (Ok (JObj (prod_map id JStr <$> fs))).
Definition is_get (r : Http) : bool := mem (h_Method r) ["GET"; "HEAD"]%string.

Definition healthHandler (ready : bool) (ping : result unit) (r : Http) : Reply :=
  if decide (h_Path r = ["health"; "live"]%string) then
    if is_get r then status 200 [("status", "ok")]%string else notAllowed
  else if decide (h_Path r = ["health"; "ready"]%string) then
    if negb (is_get r) then notAllowed
    else if negb ready then status 503 [("status", "unready")]%string
    else match ping with
         | Err _ => status 503 [("reason", "storage"); ("status", "unready")]%string
         | Ok _ => status 200 [("status", "ok")]%string
         end
  else notFound.

(** The main listener; [None] if the handler of a request fails. *)
Definition mainMux (health : option HealthTracker) (ping : result unit) (r : Http) (ready : bool) : M (Sys P) (option Answer) :=
  match h_Path r with
  | "health"%string :: _ :: _ => retM (Some (Replied (healthHandler ready ping r)))
  | "v1"%string :: _ :: _ =>
      rep <- tryM (mutationGate b auth health event_id ready r) ;;
      retM (match rep with Ok rep => Some (Replied rep) | Err _ => None end)
  | "ui"%string :: _ :: _ => retM (Some (if is_get r then Asset (tail (h_Path r)) else Replied notAllowed))
  | ["ui"%string] => retM (Some (if is_get r then Redirect 301 "/ui/" else Replied notAllowed))
  | [""%string] => retM (Some (if is_get r then Redirect 302 "/ui/" else Replied notAllowed))
  | ["health"%string] => retM (Some (Slash "/health/"))
  | ["v1"%string] => retM (Some (Slash "/v1/"))
  | _ => retM (Some (Replied notFound))
  end.

(** [handleBackup]; [backup] is what VACUUM INTO does with a path, the text of
    its error if it fails. *)
Definition backup_error (code : Z) (name message : string) : Reply :=
  writeJSON code (Ok (JObj [("error"%string, JObj [("code"%string, JStr name); ("message"%string, JStr message)])])).
Definition quoted (s : string) : string := String quote (s +:+ String quote EmptyString).
Definition handleBackup (backup : string → option string) (r : Http) : Reply :=
  let invalid := backup_error 400 "invalid" ("body must be {" +:+ quoted "to" +:+ ":" +:+ quoted "/abs/path.db" +:+ "}")%string in
  match (j ?<- decode_first (h_Body r) ; fs ?<- dec_object j ; dec_field "to" dec_string fs ""%string) with
  | Err _ => invalid
  | Ok to =>
      if decide (to = ""%string) then invalid
      else match backup to with
           | Some why => backup_error 500 "internal" why
           | None => status 200 [("status", "ok"); ("to", to)]%string
           end
  end.
(** The ops listener. *)
Definition opsMux (ping : result unit) (backup : string → option string) (r : Http) (ready : bool) : Answer :=
  match h_Path r with
  | "health"%string :: _ :: _ => Replied (healthHandler ready ping r)
  | ["health"%string] => Slash "/health/"
  | ["metrics"%string] => if is_get r then Metrics else Replied notAllowed
  | "debug"%string :: "pprof"%string :: _ :: _ => if is_get r then Profile (tail (h_Path r)) else Replied notAllowed
  | ["debug"; "pprof"]%string => if is_get r then Slash "/debug/pprof/" else Replied notAllowed
  | ["admin"; "backup"]%string =>
      Replied (if decide (h_Method r = "POST"%string) then handleBackup backup r else notAllowed)
  | _ => Replied notFound
  end.

(** ** A run of the process *)

Inductive Event :=
| Listened (main ops : result unit) | Entered
| StartUp (now : Z) (ping : result unit)
| Turn (now : Z) (l : Loop)
| Main (now : Z) (health : option HealthTracker) (ping : result unit) (r : Http)
| Ops (ping : result unit) (backup : string → option string) (r : Http)
| Cancelled                     (* the context: SIGINT or SIGTERM *)
| ListenerFailed                (* an error of one of the servers *)
| Drained.                      (* both servers are down, or the grace is over *)

(** The requests are taken up while the listeners serve and, those under way,
    while they drain; the loops end with the context. The end of the context
    and the failure of a listener are noticed once the start-up is over. *)
Definition handle (e : Event) (a : App) : option Answer * App :=
  match e, ap_stage a with
  | Listened main ops, Wired => (None, (Listen main ops a).2)
  | Entered, Wired => (None, (Serve a).2)
  | StartUp now ping, Serving => (None, if ap_started a then a else startup now ping a)
  | Turn now l, Serving => (None, with_sys (turn l (ap_ready a) (at_ now (ap_sys a))).2 a)
  | Main now health ping r, (Serving | Draining) =>
      let '(ans, s) := mainMux health ping r (ap_ready a) (at_ now (ap_sys a)) in
      (match ans with Ok ans => ans | Err _ => None end, with_sys s a)
  | Ops ping backup r, (Serving | Draining) => (Some (opsMux ping backup r (ap_ready a)), a)
  | Cancelled, Serving => (None, if ap_started a then with_stage false Draining a else a)
  | ListenerFailed, Serving => (None, if ap_started a then with_stage (ap_ready a) Closed a else a)
  | Drained, Draining => (None, with_stage false Closed a)
  | _, _ => (None, a)
  end.
Fixpoint serve (l : list Event) (a : App) : list (option Answer) * App :=
  match l with
  | [] => ([], a)
  | e :: l => let '(ans, a) := handle e a in let '(rest, a) := serve l a in (ans :: rest, a)
  end.
End serve.
Arguments App P : clear implicits.
