(* ===== verification/ServeFacts.v ===== *)
(** * What a served process keeps

    Runs of the process as boot.go orders them: the database stays one of those
    Safety.v speaks of, readiness lies between a completed recovery and the
    signal to stop, and without it no request changes anything. *)

From stdpp Require Import base gmap strings list relations.
From S2P Require Import Prelude Errors Json Phase SDK Capacity Types Store Kinds Marshal Classes Provision Sys Engine Scheduler Reconcile Discovery Lease App Spec Abs Refine System Via Handlers Process Manager Health Text Auth Queries Wire Config Api Serve.
From S2P Require ApiFacts Demo.

Section facts.
Context `{ULID} {P : Type} `{Providers P} `{Rand} `{compute.Network} `{TimeText}.
Context (b : Boot) (auth : TokenAuthenticator) (event_id : nat → string).

(** A computation of the process: its database moves along the transactions. *)
Definition travels {A} (m : M (Sys P) A) : Prop :=
  ∀ s, Good (sy_World s) → rtc (kstep any_op) (sy_World s) (sy_World (m s).2).
Lemma travels_still {A} (m : M (Sys P) A) : pure m → travels m.
Proof. intros Hm s _. rewrite Hm. apply rtc_refl. Qed.
Lemma travels_bind {A B} (m : M (Sys P) A) (k : A → M (Sys P) B) : travels m → (∀ a, travels (k a)) → travels (bindM m k).
Proof.
  intros Hm Hk s Hg. specialize (Hm s Hg). unfold bindM. destruct (m s) as [[x|e] s1]; [|done]. cbn [snd] in Hm.
  etrans; [exact Hm|]. apply Hk. by eapply Good_steps.
Qed.
Lemma travels_ignore {A} (m : M (Sys P) A) : travels m → travels (ignoreM m).
Proof. intros Hm s Hg. by apply Hm. Qed.
Lemma travels_act a : travels (act b a).
Proof. intros s Hg. by apply act_runs. Qed.
Lemma travels_kick : travels (poolKickAll (P := P)).
Proof. intros s Hg. apply rtc_refl. Qed.
Lemma travels_recover : travels (recover b (P := P)).
Proof.
  apply travels_bind; [apply (travels_act BootResume)|intros _].
  apply travels_bind; [apply travels_ignore, (travels_act AcquisitionRound)|intros _; apply travels_kick].
Qed.
Lemma travels_turn l ready : travels (turn b (P := P) l ready).
Proof.
  destruct l; cbn [turn]; [apply travels_act..|].
  unfold sweep. destruct ready; [|by apply travels_still]. simpl.
  apply travels_bind; [apply (travels_act LeaseRound)|intros _; apply travels_ignore, (travels_act AcquisitionRound)].
Qed.
Lemma mux_travels health ping r ready : travels (mainMux b auth event_id health ping r ready).
Proof.
  assert (∀ ans : option Answer, travels (retM ans)) as Hret by (by intros ans; apply travels_still).
  assert (travels (rep <- tryM (mutationGate b auth health event_id (P := P) ready r) ;;
                   retM (match rep with Ok rep => Some (Replied rep) | Err _ => None end))) as Hv1.
  { apply travels_bind; [|intros ?; apply Hret]. intros s Hg. unfold tryM.
    pose proof (ApiFacts.gate_effect b auth health event_id ready r s) as He.
    destruct (mutationGate b auth health event_id ready r s) as [rep s'].
    destruct He as [Hs|(a & _ & Hs)]; cbn [snd] in *; subst; [apply rtc_refl|by apply travels_act]. }
  unfold mainMux. repeat (case_match; try apply Hret). all: exact Hv1.
Qed.

(** ** Runs *)

Abbreviation handle := (handle b auth event_id).
Abbreviation serve := (serve b auth event_id).
Abbreviation world a := (sy_World (ap_sys (P := P) a)).

Lemma at_travels {A} now (m : M (Sys P) A) (s : Sys P) : travels m → Good (sy_World s) →
  rtc (kstep any_op) (sy_World s) (sy_World (m (at_ now s)).2).
Proof.
  intros Hm Hg. pose proof (tick now (sy_World s)) as Ht. eapply rtc_l; [exact Ht|]. apply (Hm (at_ now s)). by eapply Good_step.
Qed.
Lemma handle_moves e (a : App P) : Good (world a) → rtc (kstep any_op) (world a) (world (handle e a).2).
Proof.
  intros Hg. destruct a as [ml ol rd st sd s]. cbn [ap_sys] in *.
  destruct e as [main ops| |now ping|now l|now health ping r|ping backup r| | |], st; try apply rtc_refl; cbn [Serve.handle ap_stage snd].
  - by destruct main, ops.
  - unfold Serve. by case_match.
  - cbn [ap_started]. destruct sd; [apply rtc_refl|]. unfold startup. destruct ping; [|apply rtc_refl]. cbn [ap_sys].
    pose proof (at_travels now _ s travels_recover Hg) as Hr. by destruct (recover b (at_ now s)) as [[]].
  - by apply (at_travels now _ s (travels_turn l rd)).
  - pose proof (at_travels now _ s (mux_travels health ping r rd) Hg) as Hr. cbn [ap_ready ap_sys].
    by destruct (mainMux _ _ _ _ _ _ _ (at_ now s)) as [ans s'].
  - pose proof (at_travels now _ s (mux_travels health ping r rd) Hg) as Hr. cbn [ap_ready ap_sys].
    by destruct (mainMux _ _ _ _ _ _ _ (at_ now s)) as [ans s'].
  - by destruct sd.
  - by destruct sd.
Qed.
Lemma serve_cons e l (a : App P) : (serve (e :: l) a).2 = (serve l (handle e a).2).2.
Proof. cbn [Serve.serve]. destruct (handle e a) as [ans a']. cbn [snd]. by destruct (serve l a'). Qed.
Lemma serve_snoc l e (a : App P) : (serve (l ++ [e]) a).2 = (handle e (serve l a).2).2.
Proof.
  revert a. induction l as [|e' l IH]; intros a; [apply (serve_cons e [])|].
  change ((e' :: l) ++ [e]) with (e' :: (l ++ [e])). by rewrite !serve_cons, IH.
Qed.
Lemma serve_moves l (a : App P) : Good (world a) → rtc (kstep any_op) (world a) (world (serve l a).2).
Proof.
  intros Hg. induction l as [|e l IH] using rev_ind; [apply rtc_refl|]. rewrite serve_snoc. etrans; [exact IH|].
  apply handle_moves. by eapply Good_steps.
Qed.

(** A recovery that completed, with the stop not yet asked for. *)
Definition recovered (l : list (Event)) (s : Sys P) : Prop :=
  ∃ l1 now l2, l = l1 ++ StartUp now (Ok tt) :: l2 ∧
    (recover b (at_ now (ap_sys (serve l1 (wired s)).2))).1 = Ok tt ∧ Cancelled ∉ l2 ∧ ListenerFailed ∉ l2.
Lemma recovered_snoc l s e : e ≠ Cancelled → e ≠ ListenerFailed → recovered l s → recovered (l ++ [e]) s.
Proof.
  intros Hnc Hnf (l1 & now & l2 & -> & Hr & Hc & Hf). exists l1, now, (l2 ++ [e]).
  split; [by rewrite <-List.app_assoc|]. split; [done|]. rewrite !elem_of_app, !list_elem_of_singleton. split; by intros [|].
Qed.
(** Readiness: while [Serve] waits, a completed recovery; never before and
    never while draining. *)
Definition gated (l : list Event) (s : Sys P) (a : App P) : Prop :=
  match ap_stage a with
  | Wired => ap_ready a = false ∧ ap_started a = false
  | Serving => ap_ready a = true → recovered l s ∧ ap_started a = true
  | Draining => ap_ready a = false
  | Closed => True
  end.
Lemma serve_gated l s : gated l s (serve l (wired s)).2.
Proof.
  induction l as [|e l IH] using rev_ind; [done|]. rewrite serve_snoc.
  remember (serve l (wired s)).2 as a eqn:Ha. destruct a as [ml ol rd st sd s0]. unfold gated in *.
  cbn [ap_stage ap_ready ap_started] in IH.
  destruct e as [main ops| |now ping|now l'|now health ping r|ping backup r| | |], st; cbn [Serve.handle ap_stage snd]; try exact IH;
    try (intros Hrd; destruct (IH Hrd); split; [by apply recovered_snoc|done]).
  - by destruct main, ops.
  - unfold Serve. cbn [ap_mainLn ap_opsLn]. destruct ml, ol; [done|exact IH..].
  - cbn [ap_started]. destruct sd; cbn [ap_stage].
    + intros Hrd. destruct (IH Hrd). split; [by apply recovered_snoc|done].
    + assert (rd = true → False) as Hrd by (intros Hrd; by destruct (IH Hrd)).
      unfold startup. destruct ping as [[]|]; [|by intros ?%Hrd]. cbn [ap_sys].
      destruct (recover b (at_ now s0)) as [[[]|er] s1] eqn:Hr; [|by intros ?%Hrd]. intros _. split; [|done].
      exists l, now, []. rewrite <-Ha. cbn [ap_sys]. rewrite Hr. split; [done|]. split; [done|]. split; apply not_elem_of_nil.
  - destruct (mainMux _ _ _ _ _ _ _ _) as [ans s1]. cbn [with_sys snd ap_stage ap_ready ap_started]. intros Hrd. destruct (IH Hrd). split; [by apply recovered_snoc|done].
  - by destruct (mainMux _ _ _ _ _ _ _ _).
  - cbn [ap_started]. destruct sd; cbn; [done|]. intros Hrd. by destruct (IH Hrd).
  - cbn [ap_started]. destruct sd; cbn; [done|]. intros Hrd. by destruct (IH Hrd).
  - done.
Qed.

(** One request to the main listener. *)
Lemma mux_gated health ping r ready (s : Sys P) :
  let s' := (mainMux b auth event_id health ping r ready s).2 in
  s' = s ∨ ready = true ∧ is_get r = false ∧ ∃ a, s' = (act b a s).2.
Proof.
  intros s'. subst s'. unfold mainMux.
  assert (let s' := (bindM (tryM (mutationGate b auth health event_id (P := P) ready r))
    (λ rep, retM (match rep with Ok rep => Some (Replied rep) | Err _ => None end)) s).2 in
    s' = s ∨ ready = true ∧ is_get r = false ∧ ∃ a, s' = (act b a s).2) as Hv1.
  { unfold bindM, tryM, retM, is_get.
    assert (mutationGate b auth health event_id (P := P) ready r s = ((Ok (writeError 503 "unready" true)), s) ∨
            negb ready && negb (mem (h_Method r) ["GET"; "HEAD"]%string) = false) as [Hg|Hg].
    { unfold mutationGate. destruct (_ && _); [by left|by right]. }
    { rewrite Hg. by left. }
    pose proof (ApiFacts.gate_effect b auth health event_id ready r s) as He.
    destruct (mutationGate b auth health event_id ready r s) as [rep s']. cbn [snd] in He |- *.
    destruct He as [->|(a & (Hget & Hhead & _) & ->)]; [by left|right].
    assert (mem (h_Method r) ["GET"; "HEAD"]%string = false) as Hm by (apply bool_decide_eq_false; set_solver).
    rewrite Hm in *. destruct ready; [|done]. split; [done|]. split; [done|]. by exists a. }
  repeat (case_match; try by left). all: exact Hv1.
Qed.

(** C9: however the events of a serving process fall, from the wiring to its
    end: the database stays one the process can be in, every transaction a
    step of the lifecycle protocol; a request to the main listener leaves
    everything as it is or is one command of the service, the latter only
    after a recovery that completed and before the signal to stop, and never
    by GET or HEAD; and the readiness endpoint answers 200 only then. *)
Theorem serving_gated l (s : Sys P) : reachable (sy_World s) →
  let a := (serve l (wired s)).2 in
  reachable (world a) ∧ rtc astep (fleet (sy_World s)) (fleet (world a)) ∧
  ∀ now health ping r, let '(ans, a') := handle (Main now health ping r) a in
    (ap_sys a' = ap_sys a ∨ ap_sys a' = at_ now (ap_sys a) ∨
     recovered l s ∧ is_get r = false ∧ ∃ c, ap_sys a' = (act b c (at_ now (ap_sys a))).2) ∧
    (h_Path r = ["health"; "ready"]%string → (∃ rep, ans = Some (Replied rep) ∧ rp_Status rep = 200) →
     recovered l s ∧ ping = Ok tt).
Proof.
  intros Hr a. pose proof (Good_reachable _ Hr) as Hg. pose proof (serve_moves l (wired s) Hg) as Hm. cbn [wired ap_sys] in Hm.
  split; [|split].
  - destruct Hr as [t H0']. exists t. by etrans.
  - by eapply ksteps_refine.
  - intros now health ping r. pose proof (serve_gated l s) as Hgate. fold a in Hgate. unfold gated in Hgate.
    clearbody a. destruct a as [ml ol rd st sd s0]. cbn [ap_stage ap_ready ap_started ap_sys] in Hgate |- *.
    assert (rd = true → (st = Serving ∨ st = Draining) → recovered l s) as Hrec.
    { intros -> [->| ->]; [by destruct (Hgate eq_refl)|done]. }
    assert (st = Serving ∨ st = Draining ∨ handle (Main now health ping r) (MkApp ml ol rd st sd s0) = (None, MkApp ml ol rd st sd s0))
      as Hst by (destruct st; auto).
    destruct (decide (st = Serving ∨ st = Draining)) as [Hlive|Hdead].
    + replace (handle (Main now health ping r) (MkApp ml ol rd st sd s0)) with
        (let '(ans, s1) := mainMux b auth event_id health ping r rd (at_ now s0) in
         (match ans with Ok ans => ans | Err _ => None end, MkApp ml ol rd st sd s1)) by (by destruct Hlive as [-> | ->]).
      pose proof (mux_gated health ping r rd (at_ now s0)) as Hmux. cbv zeta in Hmux.
      assert (h_Path r = ["health"; "ready"]%string →
        mainMux b auth event_id health ping r rd (at_ now s0) = (Ok (Some (Replied (healthHandler rd ping r))), at_ now s0)) as Hh.
      { intros Hp. unfold mainMux. by rewrite Hp. }
      destruct (mainMux b auth event_id health ping r rd (at_ now s0)) as [ans s1]. cbn [snd ap_sys] in Hmux |- *. split.
      * destruct Hmux as [->|(Hrd & Hget & Hc)]; [by right; left|right; right]. split; [by apply Hrec|done].
      * intros Hp (rep & Hans & H200). specialize (Hh Hp). injection Hh as -> ->. injection Hans as <-.
        unfold healthHandler in H200. rewrite Hp in H200. destruct (is_get r), rd, ping as [[]|]; try done.
        split; [by apply Hrec|done].
    + destruct Hst as [?|[?| ->]]; [by destruct Hdead; auto..|]. split; [by left|]. intros _ (? & ? & _). done.
Qed.
End facts.

(** ** From the wiring to a request *)

Import Demo ApiFacts.
#[local] Existing Instances Demo.clouds Demo.numbered Process.steady Process.offline ApiFacts.any_time.

(** A sweep comes too early, the start-up completes, the engine turns. *)
Definition healthy_start : list Event :=
  [Listened (Ok tt) (Ok tt); Entered; Turn 5000 SweepLoop; StartUp 6000 (Ok tt); Turn 7000 EngineLoop].
Definition served_by (l : list Event) : App unit := (serve boot guard no_ids l (wired s_ready)).2.
(** After it a request drains a machine; without it, or once the signal has
    come, the same request changes nothing. *)
Definition drained_by (l : list Event) : bool :=
  let a := (handle boot guard no_ids (Main 8000 None (Ok tt) (drain_r1 "Bearer flp_0badcafe.hunter2")) (served_by l)).2 in
  match db_Resources (w_DB (sy_World (ap_sys a))) !! "r1"%string with Some r => bool_decide (r_Phase r = Phase.Draining) | None => false end.
Lemma serving_gated_witness :
  reachable (sy_World s_ready) ∧ reachable (sy_World (ap_sys (served_by healthy_start))) ∧
  drained_by healthy_start = true ∧ drained_by (take 3 healthy_start) = false ∧ drained_by (healthy_start ++ [Cancelled]) = false.
Proof.
  pose proof (serving_gated boot guard no_ids healthy_start s_ready Demo.Demo.reach_ready) as Hs. cbv zeta in Hs.
  destruct Hs as [Hs _]. split; [exact Demo.Demo.reach_ready|]. split; [exact Hs|].
  split_and!; vm_compute; reflexivity.
Defined.
