(* ===== verification/Pacer.v ===== *)
(** * Request pacing (providers/pacing)

    The rate policy of the cloud drivers: from the headers of a response to a
    parking time and a request rate. The token bucket and the semaphore are
    libraries: [Wait] and the slots are arguments of the call, and rates are
    the rational values of the floats in requests per second. Instants are
    nanoseconds; the zero [time.Time] is [None]. *)

From stdpp Require Import base strings list.
From Stdlib Require Import QArith_base.
From S2P Require Import Prelude Errors.

Definition LowWater : Z := 20.
Definition HighWater : Z := 100.
Definition ParkCap : Z := 60 * Second.

Record Pacer := MkPacer { pa_limit : Q; pa_sem : Z; pa_base : Q; pa_parked : option Z }.

(** [New]: the limiter starts at the base rate, with every slot free. *)
Definition New (rps : Q) (maxConcurrent : Z) : Pacer :=
  let rps := if Qle_bool rps 0 then 5%Q else rps in
  MkPacer rps (if decide (maxConcurrent ≤ 0) then 5 else maxConcurrent) rps None.

(** [DecidePace]: when to park until, and the rate. *)
Definition DecidePace (base : Q) (remaining : Z) (reset : option Z) (now : Z) : option Z * Q :=
  if decide (remaining = 0) then
    let cap := now + ParkCap in
    (Some (match reset with Some r => if decide (cap < r) then cap else r | None => cap end), 1%Q)
  else if decide (remaining < LowWater) then (None, 1%Q)
  else if decide (HighWater ≤ remaining) then (None, base)
  else (None, 1%Q).

Definition Observe (remaining : Z) (reset : option Z) (now : Z) (p : Pacer) : Pacer :=
  let '(park, limit) := DecidePace (pa_base p) remaining reset now in
  MkPacer limit (pa_sem p) (pa_base p) (match park with Some _ => park | None => pa_parked p end).

(** [time.Duration(LowWater-remaining) * time.Second] on int64. *)
Definition On429 (remaining now : Z) (p : Pacer) : Z * Pacer :=
  let d := mul64 (sub64 LowWater remaining) Second in
  let d := if decide (d < Second) then Second else d in
  let d := if decide (ParkCap < d) then ParkCap else d in
  (d, MkPacer (pa_limit p) (pa_sem p) (pa_base p) (Some (now + d))).

(** [Acquire]: [wall] is the wall clock, [slot] whether a slot came before the
    context ended, [wait] the limiter's answer. On success one slot is held. *)
Definition Acquire (wall : Z) (slot wait : bool) (p : Pacer) : result unit * Pacer :=
  let until := match pa_parked p with Some t => t - wall | None => 0 end in
  if decide (0 < until)
  then (Err (EProvider (MkError ErrRateLimited EffectNone "" "rate limiter parked" "" "" until)), p)
  else if negb slot then (Err EContext, p)
  else if negb wait then (Err EContext, p)
  else (Ok tt, MkPacer (pa_limit p) (pa_sem p - 1) (pa_base p) (pa_parked p)).
Definition release (p : Pacer) : Pacer :=
  MkPacer (pa_limit p) (pa_sem p + 1) (pa_base p) (pa_parked p).

(** ** Facts *)

Inductive event :=
| Response (remaining : Z) (reset : option Z) (now : Z)
| Throttled (remaining now : Z)
| Call (wall : Z) (slot wait : bool)
| Done.
Definition instant (e : event) : Z :=
  match e with Response _ _ t | Throttled _ t => t | Call _ _ _ | Done => 0 end.
Definition feed (p : Pacer) (e : event) : Pacer :=
  match e with
  | Response remaining reset now => Observe remaining reset now p
  | Throttled remaining now => (On429 remaining now p).2
  | Call wall slot wait => (Acquire wall slot wait p).2
  | Done => release p
  end.

Definition sane (last : Z) (p : Pacer) : Prop :=
  (pa_limit p = 1%Q ∨ pa_limit p = pa_base p) ∧ ∀ t, pa_parked p = Some t → t ≤ last + ParkCap.

Lemma On429_bounds remaining now p : Second ≤ (On429 remaining now p).1 ≤ ParkCap.
Proof. unfold On429, ParkCap, Second. simpl. repeat case_decide; lia. Qed.

Lemma feed_sane last p e : sane last p → sane (Z.max last (instant e)) (feed p e).
Proof.
  intros [Hl Hp]. assert (∀ t, pa_parked p = Some t → t ≤ Z.max last (instant e) + ParkCap) as Hp'
    by (intros t Ht; specialize (Hp t Ht); lia).
  destruct e as [remaining reset now|remaining now|wall slot wait|]; cbn [feed instant] in *.
  - unfold Observe, DecidePace. destruct (decide (remaining = 0)).
    + split; [by left|]. cbn [pa_parked]. intros t [= <-]. destruct reset as [r|]; [case_decide|]; lia.
    + repeat case_decide; (split; [cbn; auto|done]).
  - pose proof (On429_bounds remaining now p) as Hb. unfold On429 in *. cbn [fst snd] in *.
    split; [done|]. cbn [pa_parked]. intros t [= <-]. lia.
  - unfold Acquire. repeat case_decide; [done|]. destruct slot, wait; done.
  - done.
Qed.

(** Whatever headers come back, in whatever order, no call is refused later
    than a minute after the last response, and the rate is the base rate or one
    request per second. *)
Lemma never_parked_long (rps : Q) max last events wall slot wait :
  Forall (λ e, instant e ≤ last) events → last + ParkCap ≤ wall →
  let p := foldl feed (New rps max) events in
  (pa_limit p = 1%Q ∨ pa_limit p = pa_base p) ∧
  ∀ e, (Acquire wall slot wait p).1 = Err e → e = EContext.
Proof.
  intros He Hwall p. assert (sane last p) as [Hl Hp].
  { subst p. assert (sane last (New rps max)) as H0 by (split; [by right|done]). revert H0.
    generalize (New rps max). induction He as [|e events He _ IH]; intros p0 H0; [done|]. apply IH.
    pose proof (feed_sane last p0 e H0) as H1. by rewrite Z.max_l in H1. }
  split; [done|]. intros e. unfold Acquire, ParkCap, Second in *. destruct (pa_parked p) as [t|] eqn:Et.
  - specialize (Hp t eq_refl). rewrite decide_False by lia. destruct slot, wait; simpl; congruence.
  - rewrite decide_False by lia. destruct slot, wait; simpl; congruence.
Qed.
