(* ===== verification/SecretRef.v ===== *)
(** * Secret references (pkg/sdk/secretref)

    [secret://scheme/path] is resolved where it is used. The environment and
    the file system are the lookup functions of the schemes. *)

From stdpp Require Import base gmap strings list.
From Stdlib Require Import Ascii.
From S2P Require Import Prelude Errors Text Auth.

Definition prefix : string := "secret://".

(** A resolved secret prints redacted. *)
Record Secret := MkSecret { v : string }.
Definition Reveal (s : Secret) : string := v s.
Definition Secret_String (s : Secret) : string := "secret://[redacted]".

Definition SchemeFunc : Type := string → result string.

Definition Split (ref : string) : result (string * string) :=
  match CutPrefix prefix ref with
  | None => Err (EOther "secret reference must start with secret://")
  | Some rest =>
      match Cut "/" rest with
      | Some (String a scheme, String b path) => Ok (String a scheme, String b path)
      | _ => Err (EOther "secret reference must have the form secret://<scheme>/<path>")
      end
  end.

Definition IsRef (s : string) : bool := is_some (CutPrefix prefix s).

Definition Resolve (schemes : gmap string SchemeFunc) (ref : string) : result Secret :=
  match Split ref with
  | Err e => Err e
  | Ok (scheme, path) =>
      match schemes !! scheme with
      | None => Err (EOther "secret reference: unknown scheme")
      | Some fn => match fn path with Ok val => Ok (MkSecret val) | Err e => Err e end
      end
  end.

(** One newline, and the carriage return before it. *)
Fixpoint trim_cr (s : string) : string :=
  match s with
  | EmptyString => EmptyString
  | String c EmptyString => if decide (c = byte 13) then EmptyString else s
  | String c s => String c (trim_cr s)
  end.
Fixpoint cut_newline (s : string) : option string :=
  match s with
  | EmptyString => None
  | String c EmptyString => if decide (c = byte 10) then Some EmptyString else None
  | String c s => match cut_newline s with Some r => Some (String c r) | None => None end
  end.
Definition trimOneTrailingNewline (s : string) : string :=
  match cut_newline s with Some r => trim_cr r | None => s end.

(** [LookupEnv], and [ReadFile] of an absolute path. *)
Definition NewDefault (env : string → option string) (read : string → result string) : gmap string SchemeFunc :=
  {[ "env"%string := λ path, match env path with
                             | Some val => Ok val
                             | None => Err (EOther "environment variable is not set")
                             end;
     "file"%string := λ path, match read (String "/" path) with
                              | Ok b => Ok (trimOneTrailingNewline b)
                              | Err e => Err e
                              end ]}.

(** ** Facts *)

Lemma Split_Ok ref scheme path :
  Split ref = Ok (scheme, path) ↔
  ref = (prefix +:+ scheme +:+ String "/" path)%string ∧ free_of "/" scheme ∧
  scheme ≠ ""%string ∧ path ≠ ""%string.
Proof.
  unfold Split. split.
  - destruct (CutPrefix prefix ref) as [rest|] eqn:E1; [|done]. apply CutPrefix_Some in E1 as ->.
    destruct (Cut "/" rest) as [[[|a s] [|b p]]|] eqn:E2; try done. intros [= <- <-].
    by apply Cut_Some in E2 as [-> Hf].
  - intros (-> & Hf & Hs & Hp). rewrite (proj2 (CutPrefix_Some _ _ _) eq_refl).
    rewrite (proj2 (Cut_Some "/" _ scheme path) (conj eq_refl Hf)).
    by destruct scheme, path.
Qed.

(** A reference to an environment variable resolves to its value, whatever
    bytes its name and value have. *)
Lemma env_reference env read name val : name ≠ ""%string → env name = Some val →
  Resolve (NewDefault env read) (prefix +:+ "env/" +:+ name)%string = Ok (MkSecret val).
Proof.
  intros Hn Hv. unfold Resolve.
  assert (Split (prefix +:+ "env/" +:+ name)%string = Ok ("env"%string, name)) as ->.
  { apply Split_Ok. split_and!; [done|by vm_compute|done|done]. }
  unfold NewDefault. by rewrite lookup_insert_eq, Hv.
Qed.

Example trim_examples :
  trimOneTrailingNewline ("k" +:+ String (byte 13) (String (byte 10) ""))%string = "k"%string ∧
  trimOneTrailingNewline ("k" +:+ String (byte 10) (String (byte 10) ""))%string
    = ("k" +:+ String (byte 10) "")%string ∧
  trimOneTrailingNewline "k"%string = "k"%string.
Proof. vm_compute. done. Qed.
