(* ===== verification/Observer.v ===== *)
(** * Cost observer and fleet gauges (internal/app/cost.go, stats.go)

    What a finished delete adds to the cost metrics, and the gauges computed on
    a scrape. Both only read the tables. A metric is its labels and its value;
    seconds are the durations they are computed from, before the conversion to
    a float64. *)

From stdpp Require Import base gmap strings list.
From S2P Require Import Prelude Errors SDK Types Store Marshal Health Queries Wire Phase Billing.

(** ** Costs of a terminated machine *)

Inductive Metric :=
| TerminationSeconds (provider : string) (ms : Z)
| BoundaryOverruns (provider : string)
| PaidSeconds (provider kind : string) (d : Z)
| UsefulSeconds (provider kind : string) (d : Z)
| PaidIdleSeconds (provider kind : string) (d : Z).

Definition lease_span (l : Lease) : Interval := MkInterval (l_CreatedAt l) (default 0 (l_EndedAt l)).

Section observer.
Context {P : Type} `{Providers P}.

Definition cost_metrics (op : Operation) (res : Resource) (leases : list Lease) : list Metric :=
  let prov := o_Provider op in
  let pol := (Billing_ prov (r_Kind res)).1 in
  if FineGrained pol then [] else
  let overrun := match NextBoundary (r_CreatedAt res) pol (o_CreatedAt op) with
                 | Some b => bool_decide (b ≤ o_UpdatedAt op)
                 | None => false
                 end in
  let lifetime := mul64 (o_UpdatedAt op - r_CreatedAt res) Millisecond in
  let paid := Paid lifetime pol in
  let useful := mul64 (UsefulMillis (lease_span <$> leases) (o_UpdatedAt op)) Millisecond in
  let idle := sub64 paid useful in
  let idle := if decide (idle < 0) then 0 else idle in
  (if overrun then [BoundaryOverruns prov] else []) ++
  [PaidSeconds prov (r_Kind res) paid; UsefulSeconds prov (r_Kind res) useful;
   PaidIdleSeconds prov (r_Kind res) idle].

(** [CostObserver.HandleOpTerminal]. *)
Definition Observer_HandleOpTerminal (op : Operation) : M World (list Metric) :=
  match o_ResourceID op with
  | Some id =>
      if negb (bool_decide (o_Kind op = OpKindDelete)) || negb (bool_decide (o_State op = OpSucceeded))
      then retM []
      else
        let first := TerminationSeconds (o_Provider op) (o_UpdatedAt op - o_CreatedAt op) in
        r <- tryM (Resources_Get id) ;;
        match r with
        | Err _ => retM [first]
        | Ok res =>
            l <- tryM (Leases_ByResource (r_ID res)) ;;
            retM (first :: cost_metrics op res (match l with Ok l => l | Err _ => [] end))
        end
  | None => retM []
  end.

Lemma observer_reads op : pure (Observer_HandleOpTerminal op).
Proof.
  unfold Observer_HandleOpTerminal. destruct (o_ResourceID op) as [id|]; [|apply pure_ret].
  destruct (_ || _); [apply pure_ret|]. apply pure_bind; [apply pure_try, reads_row_get|].
  intros [res|e]; [|apply pure_ret]. apply pure_bind; [apply pure_try, pure_gets|intros; apply pure_ret].
Qed.

(** Paid time splits into useful and idle time as long as no more is used than
    is paid. *)
Lemma paid_is_useful_and_idle op res leases prov kind paid useful idle :
  PaidSeconds prov kind paid ∈ cost_metrics op res leases →
  UsefulSeconds prov kind useful ∈ cost_metrics op res leases →
  PaidIdleSeconds prov kind idle ∈ cost_metrics op res leases →
  0 ≤ useful ≤ paid → paid ≤ max64 → paid = useful + idle.
Proof.
  unfold cost_metrics. destruct (FineGrained _); [intros Hp; by apply not_elem_of_nil in Hp|]. cbv zeta.
  set (p := Paid _ _). set (u := mul64 _ _). rewrite !elem_of_app, !elem_of_cons, !elem_of_nil.
  assert (∀ m, m ∈ (if match NextBoundary (r_CreatedAt res) (Billing_ (o_Provider op) (r_Kind res)).1 (o_CreatedAt op)
                       with Some b => bool_decide (b ≤ o_UpdatedAt op) | None => false end
                    then [BoundaryOverruns (o_Provider op)] else []) → m = BoundaryOverruns (o_Provider op)) as Ho.
  { intros m. destruct (match _ with Some _ => _ | None => _ end); [by intros ?%list_elem_of_singleton|].
    intros Hm. by apply not_elem_of_nil in Hm. }
  intros [?%Ho|[[= -> -> ->]|[?|[?|[]]]]] [?%Ho|[?|[[= ->]|[?|[]]]]] [?%Ho|[?|[?|[[= ->]|[]]]]] Hu Hm; try done.
  assert (sub64 p u = p - u) as -> by (apply wrap64_id; in64). case_decide; lia.
Qed.
End observer.

(** ** Fleet gauges *)

Record Gauges := MkGauges {
  g_resources : gmap (string * string * string) Z;   (* provider, kind, phase *)
  g_leases : Z;
  g_operations : gmap string Z;
  g_pools : Z;
  g_health : list (string * hstate)
}.

Definition count {K} `{Countable K} {A} (key : A → K) (l : list A) : gmap K Z :=
  foldr (λ x m, <[key x := default 0 (m !! key x) + 1]> m) ∅ l.

Definition resource_key (r : Resource) : string * string * string :=
  (r_Provider r, r_Kind r, phase_string (r_Phase r)).

(** [Collect]: the "uncertain" gauge is always there. *)
Definition Collect (health : option HealthTracker) : M World Gauges :=
  resources <- Resources_List noFilter ;;
  leases <- getsM (λ w, zsum ((λ r, Z.of_nat (length (select (active_on (r_ID r)) (db_Leases (w_DB w))))) <$> resources)) ;;
  ops <- Operations_NonTerminal ;;
  pools <- Pools_List ;;
  let by_state := count (op_state_string ∘ o_State) ops in
  retM (MkGauges (count resource_key resources) leases
          (<["uncertain"%string := default 0 (by_state !! "uncertain"%string)]> by_state)
          (Z.of_nat (length pools))
          (match health with Some t => (λ ph, (ph_Instance ph, ph_State ph)) <$> Snapshot t | None => [] end)).

Lemma count_lookup {K} `{Countable K} {A} (key : A → K) l k :
  default 0 (count key l !! k) = Z.of_nat (length (filter (λ x, key x = k) l)).
Proof.
  induction l as [|x l IH]; cbn [count foldr]; [by rewrite lookup_empty|].
  destruct (decide (key x = k)) as [<-|Hne].
  - rewrite lookup_insert_eq, filter_cons_True by done. cbn [default from_option id length].
    fold (count key l). rewrite IH. lia.
  - rewrite lookup_insert_ne, filter_cons_False by done. apply IH.
Qed.

(** A scrape counts every machine on record once, under its provider, kind and
    phase, and every open operation under its state. *)
Lemma gauges_exact health w : ∃ g, Collect health w = (Ok g, w) ∧
  (∀ k, default 0 (g_resources g !! k) =
     Z.of_nat (length (filter (λ r, resource_key r = k) (select live (db_Resources (w_DB w)))))) ∧
  is_Some (g_operations g !! "uncertain"%string) ∧
  (∀ st, default 0 (g_operations g !! op_state_string st) =
     Z.of_nat (length (filter (λ o, o_State o = st) (order_by o_CreatedAt (select open (db_Operations (w_DB w))))))).
Proof.
  eexists. split; [reflexivity|]. split_and!; cbn [g_resources g_operations].
  - intros k. rewrite count_lookup. do 2 f_equal. unfold select. f_equal. apply list_filter_iff.
    intros r. unfold filter_match, live. simpl. by destruct (is_none _).
  - rewrite lookup_insert_eq. eauto.
  - intros st. assert (∀ m : gmap string Z,
      default 0 (<["uncertain"%string := default 0 (m !! "uncertain"%string)]> m !! op_state_string st)
      = default 0 (m !! op_state_string st)) as ->.
    { intros m. destruct (decide (op_state_string st = "uncertain"%string)) as [->|Hne].
      - by rewrite lookup_insert_eq.
      - by rewrite lookup_insert_ne. }
    rewrite count_lookup. f_equal. f_equal. apply list_filter_iff. intros o. simpl.
    destruct (o_State o), st; simpl; split; done.
Qed.
