(* ===== verification/Cloud.v ===== *)
(** * What the cloud drivers share (providers/)

    A driver talks to a vendor's API through the vendor's client library. The
    library and the service behind it are not part of the repository: each
    driver takes the calls it makes as a class over the state [W] of the
    outside world. This file has what the drivers have in common around such
    calls: the error chain, the rate headers, the pacer's gate, integers and
    rates as text, and the lenient decoding of an operation's data. *)

From stdpp Require Import base gmap strings list.
From Stdlib Require Import Ascii QArith_base.
From S2P Require Import Prelude Errors Json SDK Kinds Marshal Text Pacer.

(** ** Integers as text *)

(** [strconv.ParseInt(s, 10, 64)], and [strconv.Atoi] on a 64-bit machine. *)
Definition ParseInt (s : string) : option Z :=
  let '(neg, digits) := match s with
                        | String "-" s => (true, s)
                        | String "+" s => (false, s)
                        | _ => (false, s)
                        end in
  match span_digits digits with
  | (String _ _ as d, EmptyString) =>
      let v := digits_value d 0 in
      let z := if (neg : bool) then - v else v in
      if decide (in64 z) then Some z else None
  | _ => None
  end.

(** ** Numbers of a configuration *)

(** The value of a JSON number literal, exact where Go rounds to a float64. *)
Definition literal_value (lit : string) : Q :=
  let '(neg, s) := match lit with String "-" s => (true, s) | _ => (false, lit) end in
  let '(d, s) := span_digits s in
  let '(f, s) := match s with String "." s => span_digits s | _ => (EmptyString, s) end in
  let e := match s with
           | String _ (String "-" s) => - digits_value s 0
           | String _ (String "+" s) => digits_value s 0
           | String _ s => digits_value s 0
           | EmptyString => 0
           end in
  let v := digits_value (d +:+ f) 0 in
  (((if (neg : bool) then - v else v) # 1) * Qpower 10 (e - Z.of_nat (String.length f)))%Q.

(** A literal no float64 holds is an error: from halfway past the largest. *)
Definition float_bound : Q := ((2 ^ 1024 - 2 ^ 970) # 1)%Q.
Definition dec_float (j : json) (old : Q) : result Q :=
  match j with
  | JInt z => Ok (z # 1)%Q
  | JFloat lit =>
      let v := literal_value lit in
      if Qle_bool float_bound v || Qle_bool v (- float_bound) then type_error else Ok v
  | JNull => Ok old
  | _ => type_error
  end.

(** ** [_ = json.Unmarshal(data, &v)] *)

(** With the error ignored, a field of the wrong type keeps its value and the
    others are decoded all the same. *)
Fixpoint soft_field {A} (name : string) (d : json → A → result A) (fields : list (string * json)) (old : A) : A :=
  match fields with
  | [] => old
  | (k, j) :: fields =>
      soft_field name d fields
        (if key_match k name then match d j old with Ok a => a | Err _ => old end else old)
  end.
Fixpoint soft_elements {A} (zero : A) (d : json → A → result A) (l : list json) (old : list A) : list A :=
  match l with
  | [] => []
  | j :: l => let e := default zero (head old) in
              match d j e with Ok a => a | Err _ => e end :: soft_elements zero d l (tail old)
  end.
Definition soft_list {A} (zero : A) (d : json → A → result A) (j : json) (old : list A) : result (list A) :=
  match j with
  | JArr l => Ok (soft_elements zero d l old)
  | JNull => Ok []
  | _ => type_error
  end.

(** The fields of an operation's data: none when it is empty or no object. *)
Definition data_fields (data : option string) : list (string * json) :=
  match data with
  | Some text => match unmarshal text with Ok (JObj fs) => fs | _ => [] end
  | None => []
  end.

(** ** Failures of a call *)

(** An error chain: the vendor's typed error, possibly wrapped, or another. *)
Inductive failure (E : Type) :=
| FVendor (text : string) (e : E)
| FWrap (text : string) (inner : failure E)
| FPlain (text : string).
Arguments FVendor {E} text e.
Arguments FWrap {E} text inner.
Arguments FPlain {E} text.

Definition failure_text {E} (f : failure E) : string :=
  match f with FVendor t _ | FWrap t _ | FPlain t => t end.

(** The loop over [Unwrap]. *)
Fixpoint as_vendor {E} (f : failure E) : option E :=
  match f with
  | FVendor _ e => Some e
  | FWrap _ inner => as_vendor inner
  | FPlain _ => None
  end.

(** The rate headers of a response. *)
Record Rate := MkRate { rt_Limit : Z; rt_Remaining : Z; rt_Reset : option Z }.

(** A call answers with a failure or a value, a response if one came back, and
    the world after it. *)
Definition call (W E A : Type) : Type := W → (failure E + A) * option Rate * W.

(** ** The gate *)

(** What [Acquire] meets: the wall clock, whether a slot came free, whether the
    limiter let the call pass; and the pacer's own clock. *)
Class Ambient (W : Type) := { gate : W → (Z * bool * bool) * W; now : W → Z }.

(** A driver: the world it talks to, its pacer, and what it caches. *)
Record Link (W C : Type) := MkLink { ln_world : W; ln_pacer : Pacer; ln_cache : C }.
Arguments MkLink {W C}.
Arguments ln_world {W C}.
Arguments ln_pacer {W C}.
Arguments ln_cache {W C}.

Section link.
Context {W C : Type} `{Ambient W}.

(** [release, err := p.Acquire(ctx); if err != nil { return refuse(err) };
    defer release()]. *)
Definition paced {A} (refuse : err → err) (m : M (Link W C) A) : M (Link W C) A := λ s,
  let '(wall, slot, wait, w) := gate (ln_world s) in
  match Acquire wall slot wait (ln_pacer s) with
  | (Err e, p) => (Err (refuse e), MkLink w p (ln_cache s))
  | (Ok _, p) =>
      let '(r, s') := m (MkLink w p (ln_cache s)) in
      (r, MkLink (ln_world s') (release (ln_pacer s')) (ln_cache s'))
  end.

(** No rate headers, no news. *)
Definition observe_rate (resp : option Rate) (s : Link W C) : Link W C :=
  match resp with
  | Some r => if decide (rt_Limit r = 0) then s
              else MkLink (ln_world s) (Observe (rt_Remaining r) (rt_Reset r) (now (ln_world s)) (ln_pacer s)) (ln_cache s)
  | None => s
  end.

Definition throttled (s : Link W C) : Z * Link W C :=
  let '(d, p) := On429 0 (now (ln_world s)) (ln_pacer s) in (d, MkLink (ln_world s) p (ln_cache s)).

(** A call whose failure is dropped unmapped. *)
Definition attempt {E A} (c : call W E A) : M (Link W C) (option A) := λ s,
  let '(r, _, w) := c (ln_world s) in
  (Ok (match r with inr a => Some a | inl _ => None end), MkLink w (ln_pacer s) (ln_cache s)).
End link.
