(* ===== verification/Hetzner.v ===== *)
(** * Hetzner Cloud (providers/hetzner)

    The driver over the calls it makes of hcloud-go. The client's requests,
    the JSON of its types and the texts of its constants are the library's:
    they are the class [Hcloud]. *)

From stdpp Require Import base gmap strings list sorting.
From Stdlib Require Import Ascii QArith_base.
From S2P Require Import Prelude Errors Json SDK Kinds Marshal Text Auth SecretRef Manager Pacer Fake Cloud.

Definition Driver : string := "hetzner".

(** ** The library (hcloud-go) *)

(** The codes and states the driver names, and the others. *)
Inductive ErrorCode :=
| ErrorCodeNotFound | ErrorCodeRateLimitExceeded | ErrorCodeConflict | ErrorCodeLocked
| ErrorCodeUniquenessError | ErrorCodeResourceLimitExceeded | ErrorCodeInvalidInput
| ErrorCodeUnauthorized | ErrorCodeForbidden | ErrorCodeOther (s : string).
Inductive ServerStatus :=
| StatusInitializing | StatusStarting | StatusMigrating | StatusRebuilding | StatusRunning
| StatusOff | StatusStopping | StatusDeleting | StatusOther (s : string).
Inductive ActionStatus := ActionRunning | ActionError | ActionOther (s : string).

Record hError := MkHError { he_Code : ErrorCode; he_Message : string }.
Record ServerType := MkServerType {
  st_Name : string; st_Architecture : string; st_Cores : Z; st_Memory : Q }.
Record Image := MkImage { im_ID : Z; im_Created : Z }.

(** An address with its [String]; for IPv4 also what [IsUnspecified] says. *)
Record Server := MkServer {
  sv_ID : Z; sv_Status : ServerStatus; sv_Labels : gmap string string;
  sv_IPv4 : option string; sv_IPv4Unspecified : bool; sv_IPv6 : option string;
  sv_PrivateNet : list (option string); sv_ServerType : option ServerType;
  sv_JSON : option json
}.
Record ServerCreateOpts := MkServerCreate {
  so_Name : string; so_ServerType : ServerType; so_Image : Image; so_UserData : string;
  so_Labels : gmap string string; so_Location : option string
}.
Record ServerCreateResult := MkServerCreated {
  sr_Server : Server; sr_Action : option Z; sr_NextActions : list Z }.
Record hAction := MkHAction { ha_Status : ActionStatus; ha_ErrorCode : string; ha_ErrorMessage : string }.

(** The listings of images the driver asks for. *)
Inductive ImageListOpts :=
| ImagesNamed (name : string) (architecture : string)
| SnapshotsLabelled (selector : string).

Class Hcloud (W : Type) := {
  codeText : ErrorCode → string;
  statusText : ServerStatus → string;
  Location_List : call W hError unit;
  Server_AllWithOpts : string → call W hError (list Server);
  Server_GetByID : Z → call W hError (option Server);
  Server_Create : ServerCreateOpts → call W hError ServerCreateResult;
  Server_DeleteWithResult : Server → call W hError (option Z);
  Action_GetByID : Z → call W hError (option hAction);
  ServerType_GetByName : string → call W hError (option ServerType);
  Image_GetByID : Z → call W hError (option Image);
  Image_AllWithOpts : ImageListOpts → call W hError (list Image)
}.

(** ** Settings *)

Record Settings := MkSettings {
  Token : string; Location : string; Endpoint : string; RPS : Q; Burst : Z; MaxConc : Z }.

Definition dec_settings (j : json) : result Settings :=
  compute.andThen (dec_object j) (λ fs,
  compute.andThen (dec_field "token" dec_string fs ""%string) (λ t,
  compute.andThen (dec_field "location" dec_string fs ""%string) (λ l,
  compute.andThen (dec_field "endpoint" dec_string fs ""%string) (λ e,
  compute.andThen (dec_field "rps" dec_float fs 0%Q) (λ r,
  compute.andThen (dec_field "burst" dec_int64 fs 0) (λ b,
  compute.andThen (dec_field "maxConcurrent" dec_int64 fs 0) (λ m,
  Ok (MkSettings t l e r b m)))))))).

(** The struct [Hetzner], with the client as what it is made from. *)
Record Hetzner := MkHetzner {
  h_instance : string; h_ownerID : string; h_location : string; h_token : string; h_endpoint : string }.

Definition New (schemes : gmap string SchemeFunc) (cfg : InstanceConfig) : result (Hetzner * Pacer) :=
  let s := match ic_Settings cfg with
           | RawEmpty | RawDoc JNull => Ok (MkSettings "" "" "" 0%Q 0 0)
           | RawDoc j => match dec_settings j with
                         | Ok s => Ok s
                         | Err e => Err (Fake.invalid (ic_Instance cfg) ("hetzner settings: " +:+ err_text e))
                         end
           | RawBad t => Err (Fake.invalid (ic_Instance cfg) ("hetzner settings: " +:+ t))
           end in
  compute.andThen s (λ s,
  if decide (Token s = ""%string)
  then Err (Fake.invalid (ic_Instance cfg) "hetzner: token is required (secret:// reference)")
  else
  let token := if IsRef (Token s)
               then match Resolve schemes (Token s) with
                    | Ok sec => Ok (Reveal sec)
                    | Err e => Err (Fake.invalid (ic_Instance cfg) (err_text e))
                    end
               else Ok (Token s) in
  compute.andThen token (λ token,
  Ok (MkHetzner (ic_Instance cfg) (ic_OwnerID cfg) (Location s) token (Endpoint s),
      Pacer.New (RPS s) (MaxConc s)))).

(** ** What an operation carries *)

Record opData := MkOpData { od_ServerID : Z; od_Delete : bool; od_Actions : list Z }.
Definition enc_opData (d : opData) : json :=
  JObj ([("v"%string, JInt 1); ("serverId"%string, JInt (od_ServerID d))] ++
        opt_field (od_Delete d) "delete" (JBool true) ++
        opt_field (negb (bool_decide (od_Actions d = []))) "actions" (JArr (JInt <$> od_Actions d))).
Definition dec_opData (data : option string) : opData :=
  let fs := data_fields data in
  MkOpData (soft_field "serverId" dec_int64 fs 0) (soft_field "delete" dec_bool fs false)
    (soft_field "actions" (soft_list 0 dec_int64) fs []).

Definition Kind : string := compute.Kind.

Section driver.
Context {W : Type} `{Ambient W} `{Hcloud W} (h : Hetzner).

Abbreviation St := (Link W unit).

(** ** Mapping *)

Definition Billing (kind : string) : BillingPolicy :=
  if decide (kind = compute.Kind) then MkBilling 0 Hour (5 * Minute) else zeroBilling.

Definition Hetzner_Descriptor : Descriptor := MkDescriptor Driver (h_instance h) [compute.Kind] true.

Definition mapStatus (s : ServerStatus) : ObservedPhase :=
  match s with
  | StatusInitializing | StatusStarting | StatusMigrating | StatusRebuilding => PhasePending
  | StatusRunning => PhaseRunning
  | StatusOff | StatusStopping => PhaseStopped
  | StatusDeleting => PhaseDeleting
  | StatusOther _ => PhaseUnknown
  end.

(** [int64(float32 * 1024)]. *)
Definition memoryMiB (q : Q) : Z := Z.quot (Qnum q * 1024) (Z.pos (Qden q)).

Definition observe (srv : Server) : ObservedResource :=
  let labels := sv_Labels srv in
  let v4 := match sv_IPv4 srv with
            | Some a => if sv_IPv4Unspecified srv then [] else [MkAddress "public-v4" a]
            | None => []
            end in
  let v6 := match sv_IPv6 srv with Some a => [MkAddress "public-v6" a] | None => [] end in
  let private := omap (λ a, MkAddress "private" <$> a) (sv_PrivateNet srv) in
  let cap := match sv_ServerType srv with
             | Some t => {[ "cpu"%string := st_Cores t; "memoryMiB"%string := memoryMiB (st_Memory t) ]}
             | None => ∅
             end in
  MkObs (MkRef (write_int (sv_ID srv)) ∅) compute.Kind (map_get labels LabelID) (map_get labels LabelOp)
    (owned (h_ownerID h) labels) (mapStatus (sv_Status srv)) (statusText (sv_Status srv)) cap
    (v4 ++ v6 ++ private) labels (sv_JSON srv).

Definition hcloudAs (f : failure hError) : option hError := as_vendor f.

Definition mapErr (f : failure hError) (effectIfSent : SideEffect) (s : St) : err * St :=
  match hcloudAs f with
  | Some e =>
      let typed class effect retry :=
        EProvider (MkError class effect (codeText (he_Code e)) (he_Message e) (h_instance h) "" retry) in
      match he_Code e with
      | ErrorCodeNotFound => (typed ErrNotFound EffectNone 0, s)
      | ErrorCodeRateLimitExceeded => let '(d, s) := throttled s in (typed ErrRateLimited EffectNone d, s)
      | ErrorCodeConflict | ErrorCodeLocked | ErrorCodeUniquenessError => (typed ErrConflict effectIfSent 0, s)
      | ErrorCodeResourceLimitExceeded => (typed ErrQuota EffectNone 0, s)
      | ErrorCodeInvalidInput | ErrorCodeUnauthorized | ErrorCodeForbidden => (typed ErrInvalid EffectNone 0, s)
      | ErrorCodeOther _ => (typed ErrRetryable effectIfSent 0, s)
      end
  | None => (EProvider (MkError ErrRetryable effectIfSent "" (failure_text f) (h_instance h) "" 0), s)
  end.

Definition observeResp (resp : option Rate) : St → St := observe_rate resp.

(** [v, resp, err := call; h.observeResp(resp); if err != nil { return h.mapErr }];
    the library's listings hand out no response. *)
Definition api {A} (c : call W hError A) (effect : SideEffect) : M St A := λ s,
  let '(r, resp, w) := c (ln_world s) in
  let s := observeResp resp (MkLink w (ln_pacer s) (ln_cache s)) in
  match r with
  | inr a => (Ok a, s)
  | inl f => let '(e, s) := mapErr f effect s in (Err e, s)
  end.
Definition listing {A} (c : call W hError A) : M St A := λ s,
  let '(r, _, w) := c (ln_world s) in
  let s := MkLink w (ln_pacer s) (ln_cache s) in
  match r with
  | inr a => (Ok a, s)
  | inl f => let '(e, s) := mapErr f EffectNone s in (Err e, s)
  end.

Definition bad {A} (msg : string) : result A := Err (Fake.invalid (h_instance h) msg).
Definition notFound (id : string) : err :=
  EProvider (MkError ErrNotFound EffectNone "" ("server " +:+ id +:+ " not found") (h_instance h) "" 0).

Definition Health : M St unit := paced id (api Location_List EffectNone).

(** ** Reading *)

Definition equality (kv : string * string) : string := kv.1 +:+ "=" +:+ kv.2.

(** The order of the selector is that of the sorted parts. *)
Definition selector (req : DiscoverRequest) : string :=
  String.concat "," (merge_sort str_le
    ((if decide (dr_Scope req = ScopeAll) then []
      else [equality (LabelManaged, "true"%string); equality (LabelOwner, h_ownerID h)]) ++
     (equality <$> map_to_list (dr_Selector req)))).

Definition Hetzner_Discover (req : DiscoverRequest) : M St (list ObservedResource) :=
  paced id (servers <- listing (Server_AllWithOpts (selector req)) ;; retM (observe <$> servers)).

Definition Hetzner_Get (ref : ExternalRef) : M St ObservedResource :=
  match ParseInt (ref_ID ref) with
  | None => liftR (bad ("malformed server id " +:+ ref_ID ref))
  | Some id =>
      paced Datatypes.id (srv <- api (Server_GetByID id) EffectNone ;;
                          match srv with
                          | Some srv => retM (observe srv)
                          | None => failM (notFound (ref_ID ref))
                          end)
  end.

(** ** Plan *)

Definition Hetzner_Plan (req : PlanRequest) : result (list Action) :=
  match pr_Desired req, pr_Observed req with
  | Some d, None =>
      match compute.ParseSpec (ds_Spec d) with
      | Err e => bad (err_text e)
      | Ok spec =>
          Ok [MkAction "" "create" (pr_ResourceID req) None
                (Some (enc_createParams (MkCreateParams (ds_Name d) spec (ds_Labels d)))) false]
      end
  | None, Some o => Ok [MkAction "" "delete" (pr_ResourceID req) (Some (ob_Ref o)) None true]
  | _, _ => Ok []
  end.

(** ** Lookups *)

Definition serverType (name : string) : M St ServerType :=
  paced id (st <- api (ServerType_GetByName name) EffectNone ;;
            match st with
            | Some st => retM st
            | None => liftR (bad ("unknown server type " +:+ name))
            end).

Definition imageNotFound {A} (spec : string) : result A := bad ("no image matches " +:+ spec).

(** The head of the listing sorted newest first; of equally new ones, the
    first (Go's sort leaves that open). *)
Fixpoint newest (img : Image) (l : list Image) : Image :=
  match l with
  | [] => img
  | i :: l => newest (if decide (im_Created img < im_Created i) then i else img) l
  end.

Definition image (spec arch : string) : M St Image :=
  match Cut ":" spec with
  | None => liftR (bad "image must be id:<n>, name:<os> or snapshot:<label-selector>")
  | Some (kind, rest) =>
      paced id (
        if mem kind ["id"%string] then
          match ParseInt rest with
          | None => liftR (bad ("malformed image id " +:+ rest))
          | Some id => img <- api (Image_GetByID id) EffectNone ;;
                       match img with Some img => retM img | None => liftR (imageNotFound spec) end
          end
        else if mem kind ["name"%string] then
          imgs <- listing (Image_AllWithOpts (ImagesNamed rest arch)) ;;
          match imgs with img :: _ => retM img | [] => liftR (imageNotFound spec) end
        else if mem kind ["snapshot"%string] then
          imgs <- listing (Image_AllWithOpts (SnapshotsLabelled rest)) ;;
          match imgs with img :: imgs => retM (newest img imgs) | [] => liftR (imageNotFound spec) end
        else liftR (bad ("unknown image form " +:+ kind)))
  end.

(** ** Apply *)

Definition mergeLabels (a b : gmap string string) : gmap string string := b ∪ a.

Definition applyCreate (action : Action) : M St OperationRef :=
  match (match ac_Params action with
         | Some j => dec_createParams j
         | None => Err (EOther "unexpected end of JSON input")
         end) with
  | Err e => liftR (bad ("malformed create params: " +:+ err_text e))
  | Ok p =>
      existing <- tryM (Hetzner_Discover (MkDiscover ScopeOwned {[ LabelOp := ac_ActionID action ]})) ;;
      match existing with
      | Ok (o :: _) => retM (MkOpRef (ac_ActionID action) (Some (ob_Ref o)) None)
      | _ =>
          st <- serverType (compute.ServerType (cp_Spec p)) ;;
          img <- image (compute.Image (cp_Spec p)) (st_Architecture st) ;;
          let loc := if decide (compute.Location (cp_Spec p) = ""%string) then h_location h
                     else compute.Location (cp_Spec p) in
          let opts := MkServerCreate (cp_Name p) st img (compute.UserData (cp_Spec p))
                        (mergeLabels (compute.Labels (cp_Spec p)) (cp_Labels p))
                        (if decide (loc = ""%string) then None else Some loc) in
          paced id (
            res <- api (Server_Create opts) EffectMaybe ;;
            let id := sv_ID (sr_Server res) in
            let actions := option_list (sr_Action res) ++ sr_NextActions res in
            retM (MkOpRef (ac_ActionID action) (Some (MkRef (write_int id) ∅))
                    (Some (print (enc_opData (MkOpData id false actions))))))
      end
  end.

Definition applyDelete (action : Action) : M St OperationRef :=
  match ac_Ref action with
  | None => liftR (bad "delete requires a ref")
  | Some ref =>
      match ParseInt (ref_ID ref) with
      | None => liftR (bad ("malformed server id " +:+ ref_ID ref))
      | Some sid =>
          paced id (
            srv <- api (Server_GetByID sid) EffectNone ;;
            match srv with
            | None => retM (MkOpRef (ac_ActionID action) (Some ref) None)
            | Some srv =>
                act <- api (Server_DeleteWithResult srv) EffectMaybe ;;
                retM (MkOpRef (ac_ActionID action) (Some ref)
                        (Some (print (enc_opData (MkOpData sid true (option_list act))))))
            end)
      end
  end.

Definition Hetzner_Apply (action : Action) : M St OperationRef :=
  if mem (ac_Kind action) ["create"%string] then applyCreate action
  else if mem (ac_Kind action) ["delete"%string] then applyDelete action
  else liftR (bad ("unknown action kind " +:+ ac_Kind action)).

(** ** Observing an operation *)

(** The pending actions by id: the answer of the first that failed or still
    runs; an action the API no longer knows is passed over. *)
Fixpoint pollActions (ref : option ExternalRef) (actions : list Z) : M St (option OperationStatus) :=
  match actions with
  | [] => retM None
  | a :: actions =>
      act <- paced id (api (Action_GetByID a) EffectNone) ;;
      match act with
      | None => pollActions ref actions
      | Some act =>
          match ha_Status act with
          | ActionError => retM (Some (MkStatus PvFailed ref None
              (Some (MkError ErrTerminal EffectUnset (ha_ErrorCode act) (ha_ErrorMessage act) (h_instance h) "" 0)) 0))
          | ActionRunning => retM (Some (MkStatus PvRunning ref None None (2 * Second)))
          | ActionOther _ => pollActions ref actions
          end
      end
  end.

Definition Hetzner_ObserveOperation (op : OperationRef) : M St OperationStatus :=
  let data := dec_opData (or_Data op) in
  polled <- pollActions (or_Ref op) (od_Actions data) ;;
  match polled with
  | Some st => retM st
  | None =>
      match or_Ref op with
      | None => retM (MkStatus PvUnknown None None None 0)
      | Some ref =>
          obs <- Hetzner_Get ref ;;
          if od_Delete data then retM (MkStatus PvRunning (Some ref) None None (2 * Second))
          else match ob_Phase obs with
               | PhaseRunning => retM (MkStatus PvSucceeded (Some ref) (Some obs) None 0)
               | _ => retM (MkStatus PvRunning (Some ref) None None (2 * Second))
               end
      end
  end.

(** ** The provider *)

Definition machines : SDK.ResourceDriver St :=
  MkDriver St Hetzner_Discover Hetzner_Get Hetzner_Plan Hetzner_Apply Hetzner_ObserveOperation.
Definition Hetzner_ResourceDriver (kind : string) : option (SDK.ResourceDriver St) :=
  if decide (kind = compute.Kind) then Some machines else None.
Definition Hetzner_Provider : Provider St :=
  MkProvider St Hetzner_Descriptor Hetzner_ResourceDriver (Some Billing) None.
End driver.
