(* ===== verification/Droplets.v ===== *)
(** * DigitalOcean droplets (providers/digitalocean)

    The driver over the calls it makes of godo. Identity travels as flat tags
    ([Labels.v]); the listings filter by one tag and the driver filters the
    rest. The client is the class [Godo]. *)

From stdpp Require Import base gmap strings list sorting.
From Stdlib Require Import Ascii QArith_base.
From S2P Require Import Prelude Errors Json SDK Kinds Marshal Labels Text Auth SecretRef Manager Pacer Fake Cloud.

Import Labels.DigitalOcean.

Definition Driver : string := "digitalocean".

(** ** The library (godo) *)

(** [ErrorResponse]; the status is missing when there was no response. *)
Record gError := MkGError { ge_Message : string; ge_RequestID : string; ge_StatusCode : option Z }.
Record Droplet := MkDroplet {
  dr_ID : Z; dr_Status : string; dr_Tags : list string; dr_Vcpus : Z; dr_Memory : Z;
  (* V4 and V6: type and address *)
  dr_Networks : option (list (string * string) * list (string * string));
  dr_JSON : option json
}.
Record gImage := MkGImage { gi_ID : Z; gi_Name : string; gi_Created : string }.
Inductive DropletCreateImage := ImageID (id : Z) | ImageSlug (slug : string).
Record DropletCreateRequest := MkDropletCreate {
  dc_Name : string; dc_Region : string; dc_Size : string; dc_Image : DropletCreateImage;
  dc_UserData : string; dc_Tags : list string
}.

(** A page of a listing, and whether its response names no further page. *)
Class Godo (W : Type) := {
  Regions_List : call W gError unit;
  Droplets_List : Z → call W gError (list Droplet * bool);
  Droplets_ListByTag : string → Z → call W gError (list Droplet * bool);
  Droplets_Get : Z → call W gError Droplet;
  Droplets_Create : DropletCreateRequest → call W gError Droplet;
  Droplets_Delete : Z → call W gError unit;
  Images_ListUser : Z → call W gError (list gImage * bool)
}.

(** ** Settings *)

Record Settings := MkSettings {
  Token : string; Region : string; Endpoint : string; RPS : Q; Burst : Z; MaxConc : Z }.

Definition dec_settings (j : json) : result Settings :=
  compute.andThen (dec_object j) (λ fs,
  compute.andThen (dec_field "token" dec_string fs ""%string) (λ t,
  compute.andThen (dec_field "region" dec_string fs ""%string) (λ l,
  compute.andThen (dec_field "endpoint" dec_string fs ""%string) (λ e,
  compute.andThen (dec_field "rps" dec_float fs 0%Q) (λ r,
  compute.andThen (dec_field "burst" dec_int64 fs 0) (λ b,
  compute.andThen (dec_field "maxConcurrent" dec_int64 fs 0) (λ m,
  Ok (MkSettings t l e r b m)))))))).

(** The struct [DigitalOcean], with the client as what it is made from; making
    the client fails on an endpoint that is no URL ([valid_url]). *)
Record DigitalOcean := MkDigitalOcean {
  d_instance : string; d_ownerID : string; d_region : string; d_token : string; d_endpoint : string }.

Definition New (valid_url : string → bool) (schemes : gmap string SchemeFunc) (cfg : InstanceConfig) :
    result (DigitalOcean * Pacer) :=
  let s := match ic_Settings cfg with
           | RawEmpty | RawDoc JNull => Ok (MkSettings "" "" "" 0%Q 0 0)
           | RawDoc j => match dec_settings j with
                         | Ok s => Ok s
                         | Err e => Err (Fake.invalid (ic_Instance cfg) ("digitalocean settings: " +:+ err_text e))
                         end
           | RawBad t => Err (Fake.invalid (ic_Instance cfg) ("digitalocean settings: " +:+ t))
           end in
  compute.andThen s (λ s,
  if decide (Token s = ""%string)
  then Err (Fake.invalid (ic_Instance cfg) "digitalocean: token is required (secret:// reference)")
  else
  let token := if IsRef (Token s)
               then match Resolve schemes (Token s) with
                    | Ok sec => Ok (Reveal sec)
                    | Err e => Err (Fake.invalid (ic_Instance cfg) (err_text e))
                    end
               else Ok (Token s) in
  compute.andThen token (λ token,
  if negb (bool_decide (Endpoint s = ""%string)) && negb (valid_url (Endpoint s))
  then Err (EOther "digitalocean: malformed endpoint")
  else Ok (MkDigitalOcean (ic_Instance cfg) (ic_OwnerID cfg) (Region s) token (Endpoint s),
           Pacer.New (RPS s) (MaxConc s)))).

(** ** What an operation carries *)

Record opData := MkOpData { od_DropletID : Z; od_Delete : bool }.
Definition enc_opData (d : opData) : json :=
  JObj ([("v"%string, JInt 1); ("dropletId"%string, JInt (od_DropletID d))] ++
        opt_field (od_Delete d) "delete" (JBool true)).
Definition dec_opData (data : option string) : opData :=
  let fs := data_fields data in
  MkOpData (soft_field "dropletId" dec_int64 fs 0) (soft_field "delete" dec_bool fs false).

Definition Kind : string := compute.Kind.

Section driver.
Context {W : Type} `{Ambient W} `{Godo W} (d : DigitalOcean).
(** How many pages of a listing are fetched before the model gives up. *)
Context (fuel : nat).

Abbreviation St := (Link W unit).

(** ** Mapping *)

Definition Billing (kind : string) : BillingPolicy :=
  if decide (kind = compute.Kind) then MkBilling 0 Hour (5 * Minute) else zeroBilling.
Definition Droplets_Descriptor : Descriptor := MkDescriptor Driver (d_instance d) [compute.Kind] true.

Definition statusPhase (s : string) : ObservedPhase :=
  if mem s ["new"%string] then PhasePending
  else if mem s ["active"%string] then PhaseRunning
  else if mem s ["off"%string] then PhaseStopped
  else if mem s ["archive"%string] then PhaseGone
  else PhaseUnknown.

Definition addresses (nets : option (list (string * string) * list (string * string))) : list Address :=
  match nets with
  | None => []
  | Some (v4, v6) =>
      ((λ n, MkAddress (if decide (n.1 = "public"%string) then "public-v4" else "private") n.2) <$> v4) ++
      omap (λ n, if decide (n.1 = "public"%string) then Some (MkAddress "public-v6" n.2) else None) v6
  end.

Definition observe (dr : Droplet) : ObservedResource :=
  let labels := decodeTags (dr_Tags dr) in
  MkObs (MkRef (write_int (dr_ID dr)) ∅) compute.Kind (map_get labels LabelID) (map_get labels LabelOp)
    (owned (d_ownerID d) labels) (statusPhase (dr_Status dr)) (dr_Status dr)
    {[ "cpu"%string := dr_Vcpus dr; "memoryMiB"%string := dr_Memory dr ]}
    (addresses (dr_Networks dr)) labels (dr_JSON dr).

Definition asGodoErr (f : failure gError) : option gError := as_vendor f.

Definition mapErr (f : failure gError) (effectIfSent : SideEffect) (s : St) : err * St :=
  let plain := (EProvider (MkError ErrRetryable effectIfSent "" (failure_text f) (d_instance d) "" 0), s) in
  match asGodoErr f with
  | Some e =>
      match ge_StatusCode e with
      | Some code =>
          let typed class effect retry :=
            EProvider (MkError class effect "" (ge_Message e) (d_instance d) (ge_RequestID e) retry) in
          if decide (code = 404) then (typed ErrNotFound EffectNone 0, s)
          else if decide (code = 429) then let '(t, s) := throttled s in (typed ErrRateLimited EffectNone t, s)
          else if decide (code = 409 ∨ code = 423) then (typed ErrConflict effectIfSent 0, s)
          else if decide (code = 422 ∨ code = 400 ∨ code = 401 ∨ code = 403) then (typed ErrInvalid EffectNone 0, s)
          else (typed ErrRetryable effectIfSent 0, s)
      | None => plain
      end
  | None => plain
  end.

Definition observeResp (resp : option Rate) : St → St := observe_rate resp.

Definition api {A} (c : call W gError A) (effect : SideEffect) : M St A := λ s,
  let '(r, resp, w) := c (ln_world s) in
  let s := observeResp resp (MkLink w (ln_pacer s) (ln_cache s)) in
  match r with
  | inr a => (Ok a, s)
  | inl f => let '(e, s) := mapErr f effect s in (Err e, s)
  end.

Definition bad {A} (msg : string) : result A := Err (Fake.invalid (d_instance d) msg).

Definition Health : M St unit := paced id (api Regions_List EffectNone).

(** ** Reading *)

Definition nextPage (page : Z) : Z := if decide (page + 1 = 1) then 2 else page + 1.

(** [for { batch, resp, err := fetch(page); ... }]. *)
Fixpoint fetchAll {A} (n : nat) (fetch : Z → call W gError (list A * bool)) (page : Z) (acc : list A) : M St (list A) :=
  match n with
  | O => failM (EOther "listing: more pages than fuel")
  | S n =>
      got <- api (fetch page) EffectNone ;;
      let '(batch, last) := got in
      if (last : bool) then retM (acc ++ batch) else fetchAll n fetch (nextPage page) (acc ++ batch)
  end.

(** What the labels must be: the selector overrides the owner's. *)
Definition wanted (req : DiscoverRequest) : gmap string string :=
  dr_Selector req ∪
  (if decide (dr_Scope req = ScopeAll) then ∅
   else {[ LabelManaged := "true"%string; LabelOwner := d_ownerID d ]}).

(** The most selective tag. *)
Definition primary (want : gmap string string) : option string :=
  head (omap (λ key, want !! key ≫= encodeTag key) [LabelOp; LabelID; LabelOwner]).

Definition matches (have want : gmap string string) : bool := labelsMatch have want.

Definition Droplets_Discover (req : DiscoverRequest) : M St (list ObservedResource) :=
  paced id (
    let want := wanted req in
    droplets <- fetchAll fuel (match primary want with
                               | Some tag => Droplets_ListByTag tag
                               | None => Droplets_List
                               end) 0 [] ;;
    retM (filter (λ o, matches (ob_Labels o) want = true) (observe <$> droplets))).

Definition Droplet_Get (ref : ExternalRef) : M St ObservedResource :=
  match ParseInt (ref_ID ref) with
  | None => liftR (bad ("malformed droplet id " +:+ ref_ID ref))
  | Some did => paced id (dr <- api (Droplets_Get did) EffectNone ;; retM (observe dr))
  end.

(** ** Plan *)

Definition Droplets_Plan (req : PlanRequest) : result (list Action) :=
  match pr_Desired req, pr_Observed req with
  | Some ds, None =>
      match compute.ParseSpec (ds_Spec ds) with
      | Err e => bad (err_text e)
      | Ok spec =>
          Ok [MkAction "" "create" (pr_ResourceID req) None
                (Some (enc_createParams (MkCreateParams (ds_Name ds) spec (ds_Labels ds)))) false]
      end
  | None, Some o => Ok [MkAction "" "delete" (pr_ResourceID req) (Some (ob_Ref o)) None true]
  | _, _ => Ok []
  end.

(** ** Lookups *)

(** A colon at either end does not count. *)
Definition cut (s : string) : option (string * string) :=
  match Text.Cut ":" s with
  | Some (String a k, String b r) => Some (String a k, String b r)
  | _ => None
  end.

(** The newest of the snapshots of a name; of equally new ones, the first. *)
Fixpoint bestNamed (name : string) (images : list gImage) (best : option gImage) : option gImage :=
  match images with
  | [] => best
  | img :: images =>
      bestNamed name images
        (if decide (gi_Name img ≠ name) then best
         else match best with
              | None => Some img
              | Some b => if decide (str_le (gi_Created img) (gi_Created b)) then Some b else Some img
              end)
  end.

Definition image (spec : string) : M St DropletCreateImage :=
  match cut spec with
  | None => liftR (bad "image must be id:<n>, slug:<slug> or snapshot:<name>")
  | Some (kind, rest) =>
      if mem kind ["id"%string] then
        match ParseInt rest with
        | None => liftR (bad ("malformed image id " +:+ rest))
        | Some i => retM (ImageID i)
        end
      else if mem kind ["slug"%string] then retM (ImageSlug rest)
      else if mem kind ["snapshot"%string] then
        paced id (images <- fetchAll fuel Images_ListUser 0 [] ;;
                  match bestNamed rest images None with
                  | Some img => retM (ImageID (gi_ID img))
                  | None => liftR (bad ("no snapshot named " +:+ rest +:+ " (fail fast, not retry)"))
                  end)
      else liftR (bad ("unknown image form " +:+ kind))
  end.

(** ** Apply *)

(** The tags of a create: those of the identity and those of the spec, which
    nothing keeps apart. *)
Definition createTags (p : createParams) : list string :=
  merge_sort str_le (encodeTags (map_to_list (cp_Labels p)) ++
                     encodeTags (map_to_list (compute.Labels (cp_Spec p)))).

Definition applyCreate (action : Action) : M St OperationRef :=
  match (match ac_Params action with
         | Some j => dec_createParams j
         | None => Err (EOther "unexpected end of JSON input")
         end) with
  | Err e => liftR (bad ("malformed create params: " +:+ err_text e))
  | Ok p =>
      existing <- tryM (Droplets_Discover (MkDiscover ScopeOwned {[ LabelOp := ac_ActionID action ]})) ;;
      match existing with
      | Ok (o :: _) => retM (MkOpRef (ac_ActionID action) (Some (ob_Ref o)) None)
      | _ =>
          img <- image (compute.Image (cp_Spec p)) ;;
          let region := if decide (compute.Location (cp_Spec p) = ""%string) then d_region d
                        else compute.Location (cp_Spec p) in
          paced id (
            dr <- api (Droplets_Create (MkDropletCreate (cp_Name p) region (compute.ServerType (cp_Spec p))
                         img (compute.UserData (cp_Spec p)) (createTags p))) EffectMaybe ;;
            retM (MkOpRef (ac_ActionID action) (Some (MkRef (write_int (dr_ID dr)) ∅))
                    (Some (print (enc_opData (MkOpData (dr_ID dr) false))))))
      end
  end.

(** A delete of what is gone already is done. *)
Definition applyDelete (action : Action) : M St OperationRef :=
  match ac_Ref action with
  | None => liftR (bad "delete requires a ref")
  | Some ref =>
      match ParseInt (ref_ID ref) with
      | None => liftR (bad ("malformed droplet id " +:+ ref_ID ref))
      | Some did =>
          paced id (
            gone <- tryM (api (Droplets_Delete did) EffectMaybe) ;;
            match gone with
            | Ok _ => retM (MkOpRef (ac_ActionID action) (Some ref) (Some (print (enc_opData (MkOpData did true)))))
            | Err mapped =>
                if IsClass mapped ErrNotFound then retM (MkOpRef (ac_ActionID action) (Some ref) None)
                else failM mapped
            end)
      end
  end.

Definition Droplets_Apply (action : Action) : M St OperationRef :=
  if mem (ac_Kind action) ["create"%string] then applyCreate action
  else if mem (ac_Kind action) ["delete"%string] then applyDelete action
  else liftR (bad ("unknown action kind " +:+ ac_Kind action)).

Definition Droplets_ObserveOperation (op : OperationRef) : M St OperationStatus :=
  match or_Ref op with
  | None => retM (MkStatus PvUnknown None None None 0)
  | Some ref =>
      let data := dec_opData (or_Data op) in
      obs <- Droplet_Get ref ;;
      if od_Delete data then retM (MkStatus PvRunning (Some ref) None None (2 * Second))
      else match ob_Phase obs with
           | PhaseRunning => retM (MkStatus PvSucceeded (Some ref) (Some obs) None 0)
           | _ => retM (MkStatus PvRunning (Some ref) None None (2 * Second))
           end
  end.

(** ** The provider *)

Definition machines : SDK.ResourceDriver St :=
  MkDriver St Droplets_Discover Droplet_Get Droplets_Plan Droplets_Apply Droplets_ObserveOperation.
Definition Droplets_ResourceDriver (kind : string) : option (SDK.ResourceDriver St) :=
  if decide (kind = compute.Kind) then Some machines else None.
Definition Droplets_Provider : Provider St :=
  MkProvider St Droplets_Descriptor Droplets_ResourceDriver (Some Billing) None.
End driver.
