(* ===== verification/Docker.v ===== *)
(** * Containers as machines (providers/docker)

    The driver speaks the Engine HTTP API itself: what it builds is modelled
    down to the paths and bodies of its requests, and what it reads down to
    the bytes of the replies. The daemon behind the socket is the class
    [Engine]. *)

From stdpp Require Import base gmap strings list.
From Stdlib Require Import Ascii.
From S2P Require Import Prelude Errors Json SDK Kinds Marshal Text Url App Manager Fake Cloud.

Definition Driver : string := "docker".

(** ** The daemon (net/http, the Engine API) *)

(** What of a body could be read, and the error that ended it early. *)
Record Body := MkBody { b_text : string; b_err : option string }.
Inductive Response :=
| NotSent (text : string)                (* the request could not be built *)
| NoReply (text : string)                (* [http.Client.Do] failed *)
| Reply (status : Z) (body : Body).

Class EngineAPI (W : Type) :=
  (* method, URL, body *)
  round_trip : string → string → option string → W → Response * W.

(** ** Settings *)

Record Settings := MkSettings { Host : string; Command : list string; Network : string }.

Fixpoint dec_all {A} (zero : A) (dec : json → A → result A) (l : list json) : result (list A) :=
  match l with
  | [] => Ok []
  | j :: l => compute.andThen (dec j zero) (λ a, compute.andThen (dec_all zero dec l) (λ l, Ok (a :: l)))
  end.
Definition dec_list {A} (zero : A) (dec : json → A → result A) (j : json) (old : list A) : result (list A) :=
  match j with JArr l => dec_all zero dec l | JNull => Ok [] | _ => type_error end.

Definition dec_settings (j : json) : result Settings :=
  compute.andThen (dec_object j) (λ fs,
  compute.andThen (dec_field "host" dec_string fs ""%string) (λ h,
  compute.andThen (dec_field "command" (dec_list ""%string dec_string) fs []) (λ c,
  compute.andThen (dec_field "network" dec_string fs ""%string) (λ n,
  Ok (MkSettings h c n))))).

Definition defaultCommand : list string := ["sleep"; "2147483647"]%string.

(** The struct [Docker]; the socket the client dials is [k_socket]. *)
Record Docker := MkDocker {
  k_socket : option string; k_base : string; k_instance : string; k_ownerID : string;
  k_command : list string; k_network : string }.

Definition New (cfg : InstanceConfig) : result Docker :=
  let s := match ic_Settings cfg with
           | RawEmpty | RawDoc JNull => Ok (MkSettings "" [] "")
           | RawDoc j => match dec_settings j with
                         | Ok s => Ok s
                         | Err e => Err (Fake.invalid (ic_Instance cfg) ("docker settings: " +:+ err_text e))
                         end
           | RawBad t => Err (Fake.invalid (ic_Instance cfg) ("docker settings: " +:+ t))
           end in
  compute.andThen s (λ s,
  let host := if decide (Host s = ""%string) then "unix:///var/run/docker.sock"%string else Host s in
  let command := match Command s with [] => defaultCommand | c => c end in
  match CutPrefix "unix://" host with
  | Some path => Ok (MkDocker (Some path) "http://docker" (ic_Instance cfg) (ic_OwnerID cfg) command (Network s))
  | None =>
      match CutPrefix "tcp://" host with
      | Some addr => Ok (MkDocker None ("http://" +:+ addr) (ic_Instance cfg) (ic_OwnerID cfg) command (Network s))
      | None => Err (Fake.invalid (ic_Instance cfg) "docker host must be unix:// or tcp://")
      end
  end).

(** ** Sizes and images *)

(** "<cpu>x<memMiB>", or "<cpu>" without a memory limit. *)
Definition parseSize (serverType : string) : result (Z * Z) :=
  let '(c, m) := match Cut "x" serverType with Some cm => cm | None => (serverType, ""%string) end in
  match ParseInt c with
  | Some cpu =>
      if decide (cpu ≤ 0) then Err (EOther "docker serverType must be <cpu>x<memMiB>")
      else if decide (m = ""%string) then Ok (cpu, 0)
      else match ParseInt m with
           | Some mem => if decide (mem < 6) then Err (EOther "docker serverType memory must be an integer MiB >= 6")
                         else Ok (cpu, mem)
           | None => Err (EOther "docker serverType memory must be an integer MiB >= 6")
           end
  | None => Err (EOther "docker serverType must be <cpu>x<memMiB>")
  end.

Definition imageRef (image : string) : result string :=
  let ref := match CutPrefix "name:" image with Some r => r | None => image end in
  if bool_decide (ref = ""%string) || is_some (CutPrefix "snapshot:" ref) || is_some (CutPrefix "id:" ref)
  then Err (EOther "docker image must be name:<repo:tag> or a bare reference")
  else Ok ref.

(** ** Payloads *)

Record dParams := MkDParams {
  dp_Name : string; dp_Spec : compute.MachineSpec; dp_CPU : Z; dp_MemMiB : Z; dp_Labels : gmap string string }.
Definition enc_params (p : dParams) : json :=
  JObj [("name", JStr (dp_Name p)); ("spec", enc_machine (dp_Spec p)); ("cpu", JInt (dp_CPU p));
        ("memMiB", JInt (dp_MemMiB p)); ("labels", enc_map JStr (dp_Labels p))]%string.
Definition dec_params (j : json) : result dParams :=
  compute.andThen (dec_object j) (λ fs,
  compute.andThen (dec_field "name" dec_string fs ""%string) (λ n,
  compute.andThen (dec_field "spec" compute.dec_machine fs compute.zeroMachine) (λ s,
  compute.andThen (dec_field "cpu" dec_int64 fs 0) (λ c,
  compute.andThen (dec_field "memMiB" dec_int64 fs 0) (λ m,
  compute.andThen (dec_field "labels" compute.dec_labels fs ∅) (λ l,
  Ok (MkDParams n s c m l))))))).

Definition enc_opData (kind : string) : json := JObj [("v", JInt 1); ("kind", JStr kind)]%string.
Definition opData_kind (data : option string) : string := soft_field "kind" dec_string (data_fields data) ""%string.

(** The parts of an inspected container the driver reads. *)
Record inspect := MkInspect {
  in_Id : string; in_Labels : gmap string string; in_Status : string; in_ExitCode : Z;
  in_NanoCpus : Z; in_Memory : Z; in_Networks : gmap string string }.
Definition dec_struct {A} (dec : list (string * json) → A → result A) (j : json) (old : A) : result A :=
  compute.andThen (dec_object j) (λ fs, dec fs old).
Definition dec_inspect (j : json) : result inspect :=
  compute.andThen (dec_object j) (λ fs,
  compute.andThen (dec_field "Id" dec_string fs ""%string) (λ i,
  compute.andThen (dec_field "Name" dec_string fs ""%string) (λ _,
  compute.andThen (dec_field "Config" (dec_struct (dec_field "Labels" compute.dec_labels)) fs ∅) (λ l,
  compute.andThen (dec_field "State" (dec_struct (λ fs st,
      compute.andThen (dec_field "Status" dec_string fs st.1) (λ s,
      compute.andThen (dec_field "ExitCode" dec_int64 fs st.2) (λ c, Ok (s, c))))) fs (""%string, 0)) (λ st,
  compute.andThen (dec_field "HostConfig" (dec_struct (λ fs h,
      compute.andThen (dec_field "NanoCpus" dec_int64 fs h.1) (λ n,
      compute.andThen (dec_field "Memory" dec_int64 fs h.2) (λ m, Ok (n, m))))) fs (0, 0)) (λ h,
  compute.andThen (dec_field "NetworkSettings" (dec_struct (dec_field "Networks"
      (λ j old, match j with
                | JObj es => dec_map_fields ""%string (dec_struct (dec_field "IPAddress" dec_string)) es old
                | JNull => Ok ∅
                | _ => type_error
                end))) fs ∅) (λ n,
  Ok (MkInspect i l st.1 st.2 h.1 h.2 n)))))))).

Definition Kind : string := compute.Kind.

Section driver.
Context {W : Type} `{EngineAPI W} (d : Docker).

Definition invalid (msg : string) : err := Fake.invalid (k_instance d) msg.
Definition retryable (msg : string) : err :=
  EProvider (MkError ErrRetryable EffectNone "" msg (k_instance d) "" 0).

Definition Parking (kind : string) : ParkPolicy :=
  if decide (kind = compute.Kind) then MkPark true (2 * Second) else zeroPark.
Definition Docker_Descriptor : Descriptor := MkDescriptor Driver (k_instance d) [compute.Kind] true.

(** ** Transport *)

Definition mapStatus (code : Z) (msg : string) (effectIfSent : SideEffect) : err :=
  let typed class effect := EProvider (MkError class effect (write_int code) msg (k_instance d) "" 0) in
  if decide (code = 404) then typed ErrNotFound EffectNone
  else if decide (code = 409) then typed ErrConflict effectIfSent
  else if decide (code = 400 ∨ code = 403) then typed ErrInvalid EffectNone
  else typed ErrRetryable effectIfSent.

(** The message of an error reply. *)
Definition error_message (out : string) : string :=
  let m := match unmarshal out with
           | Ok (JObj fs) => soft_field "Message" dec_string fs ""%string
           | _ => ""%string
           end in
  if decide (m = ""%string) then TrimSpace out else m.

Definition do_ (method path : string) (body : option json) (effectIfSent : SideEffect) : M W (Z * string) := λ w,
  let '(r, w) := round_trip method (k_base d +:+ path) (print <$> body) w in
  (match r with
   | NotSent t => Err (EOther t)
   | NoReply t =>
       let effect := if decide (method = "GET"%string) then EffectNone else effectIfSent in
       Err (EProvider (MkError ErrRetryable effect "" t (k_instance d) "" 0))
   | Reply status b =>
       match b_err b with
       | Some t => Err (retryable t)
       | None =>
           if decide (300 ≤ status ∧ status ≠ 304)
           then Err (mapStatus status (error_message (b_text b)) effectIfSent)
           else Ok (status, b_text b)
       end
   end, w).

Definition Health : M W unit := do_ "GET" "/_ping" None EffectNone ;;; retM tt.

(** ** Reading *)

Definition containerPhase (status : string) : ObservedPhase :=
  if mem status ["created"; "restarting"]%string then PhasePending
  else if mem status ["running"]%string then PhaseRunning
  else if mem status ["exited"; "paused"]%string then PhaseStopped
  else if mem status ["removing"]%string then PhaseDeleting
  else PhaseUnknown.

Definition observe (text : string) : result ObservedResource :=
  match unmarshal text with
  | Err e => Err (retryable (err_text e))
  | Ok j =>
      match dec_inspect j with
      | Err e => Err (retryable (err_text e))
      | Ok c =>
          let labels := in_Labels c in
          let addrs := omap (λ a, if decide (a = ""%string) then None else Some (MkAddress "private" a))
                         (sorted_entries (in_Networks c)).*2 in
          Ok (MkObs (MkRef (in_Id c) ∅) compute.Kind (map_get labels LabelID) (map_get labels LabelOp)
                (owned (k_ownerID d) labels) (containerPhase (in_Status c)) (in_Status c)
                {[ "cpu"%string := Z.quot (in_NanoCpus c) 1000000000;
                   "memoryMiB"%string := Z.shiftr (in_Memory c) 20 ]}
                addrs labels (Some j))
      end
  end.

Definition containerPath (id tail : string) : string := "/containers/" +:+ PathEscape id +:+ tail.

Definition Docker_Get (ref : ExternalRef) : M W ObservedResource :=
  got <- do_ "GET" (containerPath (ref_ID ref) "/json") None EffectNone ;;
  liftR (observe got.2).

(** One inspection per container listed; those that vanished are left out. *)
Fixpoint inspectAll (ids : list string) (out : list ObservedResource) : M W (list ObservedResource) :=
  match ids with
  | [] => retM out
  | i :: ids =>
      got <- tryM (Docker_Get (MkRef i ∅)) ;;
      match got with
      | Ok obs => inspectAll ids (out ++ [obs])
      | Err e => if IsClass e ErrNotFound then inspectAll ids out else failM e
      end
  end.

Definition labelFilters (req : DiscoverRequest) : list string :=
  (if decide (dr_Scope req = ScopeAll) then []
   else [LabelManaged +:+ "=true"; LabelOwner +:+ "=" +:+ k_ownerID d]%string) ++
  ((λ kv, kv.1 +:+ "=" +:+ kv.2)%string <$> map_to_list (dr_Selector req)).
(** [url.Values.Encode]: keys sorted; a nil slice is null. *)
Definition listQuery (req : DiscoverRequest) : string :=
  let labels := labelFilters req in
  let filters := JObj [("label"%string, match labels with [] => JNull | _ => JArr (JStr <$> labels) end)] in
  "all=true&filters=" +:+ QueryEscape (print filters).

Definition dec_id (j : json) (old : string) : result string := dec_struct (dec_field "Id" dec_string) j old.

Definition Docker_Discover (req : DiscoverRequest) : M W (list ObservedResource) :=
  got <- do_ "GET" ("/containers/json?" +:+ listQuery req) None EffectNone ;;
  match compute.andThen (unmarshal got.2) (λ j, dec_list ""%string dec_id j []) with
  | Err e => failM (retryable (err_text e))
  | Ok ids => inspectAll ids []
  end.

(** ** Plan *)

Definition Docker_Plan (req : PlanRequest) : result (list Action) :=
  match pr_Desired req, pr_Observed req with
  | Some ds, None =>
      let refuse {A} (r : result A) : result A :=
        match r with Ok a => Ok a | Err e => Err (invalid (err_text e)) end in
      compute.andThen (refuse (compute.ParseSpec (ds_Spec ds))) (λ spec,
      compute.andThen (refuse (parseSize (compute.ServerType spec))) (λ size,
      compute.andThen (refuse (imageRef (compute.Image spec))) (λ _,
      Ok [MkAction "" "create" (pr_ResourceID req) None
            (Some (enc_params (MkDParams ("fp-" +:+ pr_ResourceID req) spec size.1 size.2 (ds_Labels ds)))) false])))
  | None, Some o => Ok [MkAction "" "delete" (pr_ResourceID req) (Some (ob_Ref o)) None true]
  | _, _ => Ok []
  end.

(** ** Pulling an image *)

Definition dec_progress (j : json) : result string := dec_struct (dec_field "Error" dec_string) j ""%string.

(** The stream of progress documents: the first that reports an error, or one
    that does not decode. Every document takes a byte of the text. *)
Fixpoint pullStream (fuel : nat) (ref text : string) (broken : option string) : result unit :=
  match fuel with
  | O => Err (retryable "unexpected end of stream")
  | S fuel =>
      match skip_space text, broken with
      | EmptyString, None => Ok tt
      | EmptyString, Some t => Err (retryable t)
      | s, _ =>
          match read_value (2 * S (String.length s)) s with
          | None => Err (retryable (default "invalid character"%string broken))
          | Some (j, rest) =>
              match dec_progress j with
              | Err e => Err (retryable (err_text e))
              | Ok m => if decide (m = ""%string) then pullStream fuel ref rest broken
                        else Err (invalid ("image pull " +:+ ref +:+ ": " +:+ m))
              end
          end
      end
  end.

Definition tagged (image : string) : string :=
  let name := match CutLast "/" image with Some (_, n) => n | None => image end in
  match Cut ":" name with Some _ => image | None => image +:+ ":latest" end.

Definition pull (image : string) : M W unit := λ w,
  let ref := tagged image in
  let '(r, w) := round_trip "POST" (k_base d +:+ "/images/create?fromImage=" +:+ QueryEscape ref) None w in
  (match r with
   | NotSent t => Err (EOther t)
   | NoReply t => Err (retryable t)
   | Reply status b =>
       if decide (300 ≤ status) then Err (mapStatus status (b_text b) EffectNone)
       else pullStream (S (String.length (b_text b))) ref (b_text b) (b_err b)
   end, w).

(** ** Apply *)

Definition opRef (action : Action) (ref : option ExternalRef) : OperationRef :=
  MkOpRef (ac_ActionID action) ref (Some (print (enc_opData (ac_Kind action)))).

(** The body of a create: maps are written with their keys sorted. *)
Definition createBody (p : dParams) (image : string) : json :=
  let labels := dp_Labels p ∪ compute.Labels (dp_Spec p) in
  let host := [("Init", JBool true); ("Memory", JInt (shl64 (dp_MemMiB p) 20));
               ("NanoCpus", JInt (mul64 (dp_CPU p) 1000000000))]%string ++
              opt_string "NetworkMode" (k_network d) in
  JObj ([("Cmd", JArr (JStr <$> k_command d))]%string ++
        opt_field (negb (bool_decide (compute.UserData (dp_Spec p) = ""%string))) "Env"
          (JArr [JStr ("FLEETPLANE_USER_DATA=" +:+ compute.UserData (dp_Spec p))]) ++
        [("HostConfig", JObj host); ("Image", JStr image); ("Labels", enc_map JStr labels)]%string).

(** A create whose image is missing pulls it and tries once more. *)
Definition createContainer (p : dParams) (image : string) : M W (Z * string) :=
  let post := do_ "POST" ("/containers/create?name=" +:+ QueryEscape (dp_Name p)) (Some (createBody p image)) EffectMaybe in
  r <- tryM post ;;
  match r with
  | Ok got => retM got
  | Err e => if IsClass e ErrNotFound then pull image ;;; post else failM e
  end.

Definition created_id (text : string) : result string :=
  match compute.andThen (unmarshal text) (λ j, dec_id j ""%string) with
  | Ok i => if decide (i = ""%string) then Err (retryable "create response: <nil>") else Ok i
  | Err e => Err (retryable ("create response: " +:+ err_text e))
  end.

Definition applyCreate (action : Action) : M W OperationRef :=
  match (match ac_Params action with
         | Some j => dec_params j
         | None => Err (EOther "unexpected end of JSON input")
         end) with
  | Err e => failM (invalid ("malformed create params: " +:+ err_text e))
  | Ok p =>
      existing <- tryM (Docker_Discover (MkDiscover ScopeOwned {[ LabelOp := ac_ActionID action ]})) ;;
      match existing with
      | Ok (o :: _) => retM (opRef action (Some (ob_Ref o)))
      | _ =>
          match imageRef (compute.Image (dp_Spec p)) with
          | Err e => failM (invalid (err_text e))
          | Ok image =>
              got <- createContainer p image ;;
              cid <- liftR (created_id got.2) ;;
              ignoreM (do_ "POST" ("/containers/" +:+ cid +:+ "/start") None EffectMaybe) ;;;
              retM (opRef action (Some (MkRef cid ∅)))
          end
      end
  end.

Definition applyDelete (action : Action) : M W OperationRef :=
  match ac_Ref action with
  | None => failM (invalid "delete requires a ref")
  | Some ref =>
      r <- tryM (do_ "DELETE" (containerPath (ref_ID ref) "?force=true&v=true") None EffectMaybe) ;;
      match r with
      | Ok _ => retM (opRef action (Some ref))
      | Err e => if IsClass e ErrNotFound then retM (opRef action (Some ref)) else failM e
      end
  end.

Definition applyPower (action : Action) : M W OperationRef :=
  match ac_Ref action with
  | None => failM (invalid (ac_Kind action +:+ " requires a ref"))
  | Some ref =>
      let tail := "/" +:+ ac_Kind action +:+ (if mem (ac_Kind action) ["stop"%string] then "?t=5" else "") in
      do_ "POST" (containerPath (ref_ID ref) tail) None EffectMaybe ;;;
      retM (opRef action (Some ref))
  end.

Definition Docker_Apply (action : Action) : M W OperationRef :=
  if mem (ac_Kind action) ["create"%string] then applyCreate action
  else if mem (ac_Kind action) ["delete"%string] then applyDelete action
  else if mem (ac_Kind action) ["stop"; "start"]%string then applyPower action
  else failM (invalid ("unknown action kind " +:+ ac_Kind action)).

(** ** Observing an operation *)

Definition exitCode (ext : option json) : Z :=
  match ext with
  | Some (JObj fs) =>
      soft_field "State" (λ j old, match j with
                                   | JObj fs => Ok (soft_field "ExitCode" dec_int64 fs old)
                                   | JNull => Ok old
                                   | _ => type_error
                                   end) fs 0
  | _ => 0
  end.

Definition Docker_ObserveOperation (op : OperationRef) : M W OperationStatus :=
  match or_Ref op with
  | None => retM (MkStatus PvUnknown None None None 0)
  | Some ref =>
      let kind := opData_kind (or_Data op) in
      obs <- Docker_Get ref ;;
      let running := MkStatus PvRunning (Some ref) None None Second in
      let done := MkStatus PvSucceeded (Some ref) (Some obs) None 0 in
      if mem kind ["delete"%string] then retM running
      else if mem kind ["stop"%string] then
        retM (if decide (ob_Phase obs = PhaseStopped) then done else running)
      else if mem (ob_ProviderState obs) ["running"%string] then retM done
      else if mem (ob_ProviderState obs) ["created"%string] then
        ignoreM (do_ "POST" (containerPath (ref_ID ref) "/start") None EffectMaybe) ;;;
        retM running
      else if mem (ob_ProviderState obs) ["exited"; "dead"]%string then
        if mem kind ["start"%string] then retM running
        else retM (MkStatus PvFailed (Some ref) None
               (Some (MkError ErrTerminal EffectMaybe ""
                  ("container exited (code " +:+ write_int (exitCode (ob_Extensions obs)) +:+ ") before becoming ready")
                  (k_instance d) "" 0)) 0)
      else retM running
  end.

(** ** The provider *)

Definition containers : SDK.ResourceDriver W :=
  MkDriver W Docker_Discover Docker_Get Docker_Plan Docker_Apply Docker_ObserveOperation.
Definition Docker_ResourceDriver (kind : string) : option (SDK.ResourceDriver W) :=
  if decide (kind = compute.Kind) then Some containers else None.
Definition Docker_Provider : Provider W :=
  MkProvider W Docker_Descriptor Docker_ResourceDriver None (Some Parking).
End driver.
