(* ===== verification/Ec2.v ===== *)
(** * Amazon EC2 (providers/aws)

    The driver over the slice of the EC2 client it names [ec2API]. Identity
    labels are native tags; every state of an instance decides for itself, as
    EC2 has no operation objects. The client is the class [EC2]. *)

From stdpp Require Import base gmap strings list sorting.
From Stdlib Require Import Ascii QArith_base.
From S2P Require Import Prelude Errors Json SDK Kinds Marshal Text Auth SecretRef Manager Pacer Fake Cloud Docker.

Definition Driver : string := "aws".

(** ** The library (aws-sdk-go-v2) *)

Inductive StateName :=
| NamePending | NameRunning | NameShuttingDown | NameTerminated | NameStopping | NameStopped
| NameOther (s : string).
#[global] Instance StateName_eq_dec : EqDecision StateName.
Proof. solve_decision. Defined.

(** A coded error, with the request id found along its chain. *)
Record apiError := MkApiError { ae_Code : string; ae_Message : string; ae_RequestID : string }.
Record Filter := MkFilter { fl_Name : string; fl_Values : list string }.
Record Instance := MkInstance {
  i_InstanceId : option string; i_State : option StateName; i_InstanceType : string;
  i_Tags : list (option string * option string);
  i_PublicIpAddress : option string; i_Ipv6Address : option string; i_PrivateIpAddress : option string;
  i_JSON : option json
}.
Record DescribeInput := MkDescribe {
  di_InstanceIds : list string; di_Filters : list Filter; di_MaxResults : option Z; di_NextToken : option string }.
Record RunInstancesInput := MkRun {
  ri_ImageId : string; ri_InstanceType : string; ri_ClientToken : string; ri_Tags : list (string * string);
  ri_AvailabilityZone : option string; ri_UserData : option string; ri_SubnetId : option string;
  ri_SecurityGroupIds : list string; ri_KeyName : option string; ri_IamInstanceProfile : option string
}.
Record Image := MkImage { mi_ImageId : option string; mi_CreationDate : option string }.
Record DescribeImagesInput := MkDescribeImages {
  dm_Owners : list string; dm_Filters : list Filter; dm_NextToken : option string }.
Record TypeInfo := MkTypeInfo { ti_DefaultVCpus : option Z; ti_SizeInMiB : option Z }.

Class EC2 (W : Type) := {
  stateText : StateName → string;
  DescribeRegions : string → call W apiError unit;
  (* the reservations, each a list of instances, and the next token *)
  DescribeInstances : DescribeInput → call W apiError (list (list Instance) * option string);
  (* one instance exactly *)
  RunInstances : RunInstancesInput → call W apiError (list Instance);
  TerminateInstances : string → call W apiError unit;
  StopInstances : string → call W apiError unit;
  StartInstances : string → call W apiError unit;
  DescribeImages : DescribeImagesInput → call W apiError (list Image * option string);
  DescribeInstanceTypes : string → call W apiError (list TypeInfo)
}.

(** [encoding/base64.StdEncoding]. *)
Definition base64_char (n : N) : ascii :=
  (if n <? 26 then ascii_of_N (65 + n) else if n <? 52 then ascii_of_N (71 + n)
   else if n <? 62 then ascii_of_N (n - 4) else if n =? 62 then "+" else "/")%N%char.
Fixpoint base64 (s : string) : string :=
  let digits (v : N) := (base64_char (v / 262144), base64_char ((v / 4096) mod 64),
                         base64_char ((v / 64) mod 64), base64_char (v mod 64))%N in
  match s with
  | EmptyString => EmptyString
  | String a EmptyString =>
      let '(w, x, _, _) := digits (65536 * N_of_ascii a)%N in
      String w (String x "==")
  | String a (String b EmptyString) =>
      let '(w, x, y, _) := digits (65536 * N_of_ascii a + 256 * N_of_ascii b)%N in
      String w (String x (String y "="))
  | String a (String b (String c s)) =>
      let '(w, x, y, z) := digits (65536 * N_of_ascii a + 256 * N_of_ascii b + N_of_ascii c)%N in
      String w (String x (String y (String z (base64 s))))
  end.

(** ** Settings *)

Record Settings := MkSettings {
  Region : string; AccessKeyID : string; SecretAccessKey : string; SessionToken : string; Endpoint : string;
  SubnetID : string; SecurityGroupIDs : list string; KeyName : string; InstanceProfile : string;
  RPS : Q; Burst : Z; MaxConc : Z }.

Definition dec_settings (j : json) : result Settings :=
  compute.andThen (dec_object j) (λ fs,
  compute.andThen (dec_field "region" dec_string fs ""%string) (λ r,
  compute.andThen (dec_field "accessKeyId" dec_string fs ""%string) (λ a,
  compute.andThen (dec_field "secretAccessKey" dec_string fs ""%string) (λ s,
  compute.andThen (dec_field "sessionToken" dec_string fs ""%string) (λ t,
  compute.andThen (dec_field "endpoint" dec_string fs ""%string) (λ e,
  compute.andThen (dec_field "subnetId" dec_string fs ""%string) (λ n,
  compute.andThen (dec_field "securityGroupIds" (dec_list ""%string dec_string) fs []) (λ g,
  compute.andThen (dec_field "keyName" dec_string fs ""%string) (λ k,
  compute.andThen (dec_field "instanceProfile" dec_string fs ""%string) (λ p,
  compute.andThen (dec_field "rps" dec_float fs 0%Q) (λ q,
  compute.andThen (dec_field "burst" dec_int64 fs 0) (λ b,
  compute.andThen (dec_field "maxConcurrent" dec_int64 fs 0) (λ m,
  Ok (MkSettings r a s t e n g k p q b m)))))))))))))).

(** The struct [AWS], with the client as the credentials and endpoint it is
    made from; [None] is the ambient chain. *)
Record AWS := MkAWS {
  a_instance : string; a_ownerID : string; a_region : string; a_credentials : option (string * string * string);
  a_endpoint : string; a_subnetID : string; a_sgIDs : list string; a_keyName : string; a_instanceProfile : string }.

Definition resolveSecret (schemes : gmap string SchemeFunc) (cfg : InstanceConfig) (ref : string) : result string :=
  if negb (IsRef ref) then Ok ref
  else match Resolve schemes ref with
       | Ok sec => Ok (Reveal sec)
       | Err e => Err (Fake.invalid (ic_Instance cfg) (err_text e))
       end.

(** [load] is what [config.LoadDefaultConfig] says of the region and the
    credentials. *)
Definition New (load : string → option (string * string * string) → result unit)
    (schemes : gmap string SchemeFunc) (cfg : InstanceConfig) : result (AWS * Pacer) :=
  let bad {A} msg : result A := Err (Fake.invalid (ic_Instance cfg) msg) in
  let s := match ic_Settings cfg with
           | RawEmpty | RawDoc JNull => Ok (MkSettings "" "" "" "" "" "" [] "" "" 0%Q 0 0)
           | RawDoc j => match dec_settings j with
                         | Ok s => Ok s
                         | Err e => bad ("aws settings: " +:+ err_text e)
                         end
           | RawBad t => bad ("aws settings: " +:+ t)
           end in
  compute.andThen s (λ s,
  if decide (Region s = ""%string) then bad "aws: region is required"
  else if negb (eqb (bool_decide (AccessKeyID s = ""%string)) (bool_decide (SecretAccessKey s = ""%string)))
  then bad "aws: accessKeyId and secretAccessKey are all-or-nothing"
  else if decide (SessionToken s ≠ ""%string ∧ AccessKeyID s = ""%string)
  then bad "aws: sessionToken requires the static accessKeyId/secretAccessKey pair"
  else
  let creds := if decide (AccessKeyID s = ""%string) then Ok None
               else compute.andThen (resolveSecret schemes cfg (AccessKeyID s)) (λ key,
                    compute.andThen (resolveSecret schemes cfg (SecretAccessKey s)) (λ secret,
                    compute.andThen (if decide (SessionToken s = ""%string) then Ok ""%string
                                     else resolveSecret schemes cfg (SessionToken s)) (λ session,
                    Ok (Some (key, secret, session))))) in
  compute.andThen creds (λ creds,
  match load (Region s) creds with
  | Err e => bad ("aws config: " +:+ err_text e)
  | Ok _ => Ok (MkAWS (ic_Instance cfg) (ic_OwnerID cfg) (Region s) creds (Endpoint s) (SubnetID s)
                  (SecurityGroupIDs s) (KeyName s) (InstanceProfile s), Pacer.New (RPS s) (MaxConc s))
  end)).

(** ** What an operation carries *)

Record opData := MkOpData { od_InstanceID : string; od_Delete : bool; od_Op : string }.
Definition enc_opData (d : opData) : json :=
  JObj ([("v", JInt 1); ("instanceId", JStr (od_InstanceID d))]%string ++
        opt_field (od_Delete d) "delete" (JBool true) ++ opt_string "op" (od_Op d)).
Definition dec_opData (data : option string) : opData :=
  let fs := data_fields data in
  MkOpData (soft_field "instanceId" dec_string fs ""%string) (soft_field "delete" dec_bool fs false)
    (soft_field "op" dec_string fs ""%string).

Definition liveStates : list string := ["pending"; "running"; "shutting-down"; "stopping"; "stopped"].
Definition dedupStates : list string := ["pending"; "running"; "stopping"; "stopped"].
Definition tagFilter (key value : string) : Filter := MkFilter ("tag:" +:+ key) [value].
Definition deref (s : option string) : string := default ""%string s.

Definition HasSuffix (suffix s : string) : bool :=
  bool_decide (String.substring (String.length s - String.length suffix) (String.length suffix) s = suffix ∧
               (String.length suffix ≤ String.length s)%nat).
Definition HasPrefix (prefix s : string) : bool := is_some (CutPrefix prefix s).

Definition Kind : string := compute.Kind.

Section driver.
Context {W : Type} `{Ambient W} `{EC2 W} (d : AWS).
(** How many pages of a listing are fetched before the model gives up. *)
Context (fuel : nat).

(** The cache of instance types. *)
Abbreviation St := (Link W (gmap string (gmap string Z))).

Definition Billing (kind : string) : BillingPolicy :=
  if decide (kind = compute.Kind) then MkBilling Minute 0 0 else zeroBilling.
Definition Parking (kind : string) : ParkPolicy :=
  if decide (kind = compute.Kind) then MkPark true (30 * Second) else zeroPark.
Definition Ec2_Descriptor : Descriptor := MkDescriptor Driver (a_instance d) [compute.Kind] true.

(** ** Errors *)

Definition mapErr (f : failure apiError) (effectIfSent : SideEffect) (s : St) : err * St :=
  match as_vendor f with
  | Some e =>
      let code := ae_Code e in
      let typed class effect retry :=
        EProvider (MkError class effect code (ae_Message e) (a_instance d) (ae_RequestID e) retry) in
      if mem code ["Throttling"; "ThrottlingException"; "RequestLimitExceeded"; "RequestThrottled";
                   "RequestThrottledException"]%string
      then let '(t, s) := throttled s in (typed ErrRateLimited EffectNone t, s)
      else if HasSuffix ".NotFound" code then (typed ErrNotFound EffectNone 0, s)
      else if mem code ["InstanceLimitExceeded"; "VcpuLimitExceeded"]%string then (typed ErrQuota EffectNone 0, s)
      else if mem code ["UnauthorizedOperation"; "AuthFailure"]%string then (typed ErrInvalid EffectNone 0, s)
      else if mem code ["UnsupportedOperation"]%string then (typed ErrInvalid EffectNone 0, s)
      else if mem code ["IncorrectInstanceState"]%string then (typed ErrRetryable EffectNone 0, s)
      else if mem code ["IdempotentParameterMismatch"]%string then (typed ErrConflict effectIfSent 0, s)
      else if HasSuffix ".Malformed" code || mem code ["ValidationError"; "MissingParameter"]%string ||
              HasPrefix "InvalidParameter" code
      then (typed ErrInvalid EffectNone 0, s)
      else (typed ErrRetryable effectIfSent 0, s)
  | None => (EProvider (MkError ErrRetryable effectIfSent "" (failure_text f) (a_instance d) "" 0), s)
  end.

Definition api {A} (c : call W apiError A) (effect : SideEffect) : M St A := λ s,
  let '(r, _, w) := c (ln_world s) in
  let s := MkLink w (ln_pacer s) (ln_cache s) in
  match r with
  | inr a => (Ok a, s)
  | inl f => let '(e, s) := mapErr f effect s in (Err e, s)
  end.

(** What never reached the API is typed as without effect. *)
Definition preflight (e : err) : err :=
  match e with
  | EProvider _ => e
  | _ => EProvider (MkError ErrRetryable EffectNone "" ("pre-flight: " +:+ err_text e) (a_instance d) "" 0)
  end.

Definition bad {A} (msg : string) : result A := Err (Fake.invalid (a_instance d) msg).
Definition badImage {A} (msg : string) : result A := bad msg.
Definition notFound (id : string) : err :=
  EProvider (MkError ErrNotFound EffectNone "InvalidInstanceID.NotFound" ("instance " +:+ id +:+ " not found")
    (a_instance d) "" 0).

Definition Health : M St unit := paced preflight (api (DescribeRegions (a_region d)) EffectNone).

(** ** Mapping *)

Definition mapState (s : option StateName) : ObservedPhase :=
  match s with
  | Some NamePending => PhasePending
  | Some NameRunning => PhaseRunning
  | Some NameStopping | Some NameStopped => PhaseStopped
  | Some NameShuttingDown => PhaseDeleting
  | Some NameTerminated => PhaseGone
  | Some (NameOther _) | None => PhaseUnknown
  end.
Definition state_string (s : option StateName) : string :=
  match s with Some n => stateText n | None => "" end.

Definition copyCapacity (m : gmap string Z) : gmap string Z := m.

(** Best effort: what cannot be looked up is not tracked. *)
Definition capacity (it : string) : M St (gmap string Z) := λ s,
  if decide (it = ""%string) then (Ok ∅, s)
  else match ln_cache s !! it with
  | Some c => (Ok (copyCapacity c), s)
  | None =>
      match paced id (attempt (DescribeInstanceTypes it)) s with
      | (Ok (Some (info :: _)), s) =>
          let c := match ti_DefaultVCpus info with Some n => {[ "cpu"%string := n ]} | None => ∅ end in
          let c := match ti_SizeInMiB info with Some n => <["memoryMiB"%string := n]> c | None => c end in
          (Ok (copyCapacity c), MkLink (ln_world s) (ln_pacer s) (<[it := c]> (ln_cache s)))
      | (_, s) => (Ok ∅, s)
      end
  end.

Definition tag_labels (tags : list (option string * option string)) : gmap string string :=
  foldl (λ m t, match t.1 with Some k => <[k := deref t.2]> m | None => m end) ∅ tags.

Definition observe (i : Instance) : M St ObservedResource :=
  let labels := tag_labels (i_Tags i) in
  let addr net a := if decide (deref a = ""%string) then [] else [MkAddress net (deref a)] in
  cap <- capacity (i_InstanceType i) ;;
  retM (MkObs (MkRef (deref (i_InstanceId i)) ∅) compute.Kind (map_get labels LabelID) (map_get labels LabelOp)
    (owned (a_ownerID d) labels) (mapState (i_State i)) (state_string (i_State i)) cap
    (addr "public-v4"%string (i_PublicIpAddress i) ++ addr "public-v6"%string (i_Ipv6Address i) ++
     addr "private"%string (i_PrivateIpAddress i)) labels (i_JSON i)).

Fixpoint observeAll (l : list Instance) : M St (list ObservedResource) :=
  match l with
  | [] => retM []
  | i :: l => o <- observe i ;; os <- observeAll l ;; retM (o :: os)
  end.

(** ** Reading *)

Definition last_page (next : option string) : bool := bool_decide (deref next = ""%string).

Fixpoint describePages (n : nat) (filters : list Filter) (next : option string) (acc : list Instance) :
    M St (list Instance) :=
  match n with
  | O => failM (EOther "listing: more pages than fuel")
  | S n =>
      out <- paced preflight (api (DescribeInstances (MkDescribe [] filters (Some 1000) next)) EffectNone) ;;
      let acc := acc ++ concat out.1 in
      if last_page out.2 then retM acc else describePages n filters out.2 acc
  end.
Definition describeAll (filters : list Filter) : M St (list Instance) := describePages fuel filters None [].

Definition Ec2_Discover (req : DiscoverRequest) : M St (list ObservedResource) :=
  let filters := MkFilter "instance-state-name" liveStates ::
    (if decide (dr_Scope req = ScopeAll) then []
     else [tagFilter LabelManaged "true"; tagFilter LabelOwner (a_ownerID d)]) ++
    ((λ kv, tagFilter kv.1 kv.2) <$> sorted_entries (dr_Selector req)) in
  instances <- describeAll filters ;; observeAll instances.

Definition describeOne (id : string) : M St (list Instance) :=
  out <- paced preflight (api (DescribeInstances (MkDescribe [id] [] None None)) EffectNone) ;;
  retM (concat out.1).

Definition Ec2_Get (ref : ExternalRef) : M St ObservedResource :=
  if decide (ref_ID ref = ""%string) then liftR (bad "empty instance id")
  else l <- describeOne (ref_ID ref) ;;
       match l with
       | i :: _ => observe i
       | [] => failM (notFound (ref_ID ref))
       end.

(** ** Plan *)

Definition Ec2_Plan (req : PlanRequest) : result (list Action) :=
  match pr_Desired req, pr_Observed req with
  | Some ds, None =>
      match compute.ParseSpec (ds_Spec ds) with
      | Err e => bad (err_text e)
      | Ok spec =>
          Ok [MkAction "" "create" (pr_ResourceID req) None
                (Some (enc_createParams (MkCreateParams (ds_Name ds) spec (ds_Labels ds)))) false]
      end
  | None, Some o => Ok [MkAction "" "delete" (pr_ResourceID req) (Some (ob_Ref o)) None true]
  | _, _ => Ok []
  end.

(** ** Images *)

Definition newer (best : option Image) (img : Image) : option Image :=
  match mi_ImageId img, best with
  | None, _ => best
  | _, None => Some img
  | _, Some b => if decide (str_le (deref (mi_CreationDate img)) (deref (mi_CreationDate b))) then Some b else Some img
  end.
Fixpoint newestImage (n : nat) (owners : list string) (filters : list Filter) (next : option string)
    (best : option Image) : M St (option Image) :=
  match n with
  | O => failM (EOther "listing: more pages than fuel")
  | S n =>
      out <- paced preflight (api (DescribeImages (MkDescribeImages owners filters next)) EffectNone) ;;
      let best := foldl newer best out.1 in
      if last_page out.2 then retM best else newestImage n owners filters out.2 best
  end.
Definition describeNewestImage (owners : list string) (f : Filter) (spec : string) : M St string :=
  best <- newestImage fuel owners [f; MkFilter "state" ["available"%string]] None None ;;
  match best with
  | Some img => retM (deref (mi_ImageId img))
  | None => liftR (badImage ("no image matches " +:+ spec))
  end.

Definition image (spec : string) : M St string :=
  match Cut ":" spec with
  | None | Some (_, EmptyString) => liftR (badImage "image must be id:ami-..., name:<pattern> or snapshot:<k=v>")
  | Some (kind, rest) =>
      if mem kind ["id"%string] then
        if HasPrefix "ami-" rest then retM rest
        else liftR (badImage ("malformed image id " +:+ rest))
      else if mem kind ["name"%string] then
        describeNewestImage ["self"; "amazon"]%string (MkFilter "name" [rest]) spec
      else if mem kind ["snapshot"%string] then
        match Cut "=" rest with
        | Some (String c k, v) => describeNewestImage ["self"%string] (tagFilter (String c k) v) spec
        | _ => liftR (badImage "snapshot image selector must be snapshot:<k=v>")
        end
      else liftR (badImage ("unknown image form " +:+ kind))
  end.

(** ** Apply *)

(** Spec labels, then the name, then the identity, which wins. *)
Definition createTags (name : string) (specLabels identity : gmap string string) : list (string * string) :=
  sorted_entries (identity ∪ (if decide (name = ""%string) then specLabels else <["Name"%string := name]> specLabels)).

Definition non_empty (s : string) : option string := if decide (s = ""%string) then None else Some s.

Definition applyCreate (action : Action) : M St OperationRef :=
  match (match ac_Params action with
         | Some j => dec_createParams j
         | None => Err (EOther "unexpected end of JSON input")
         end) with
  | Err e => liftR (bad ("malformed create params: " +:+ err_text e))
  | Ok p =>
      existing <- tryM (describeAll [tagFilter LabelOp (ac_ActionID action);
                                     MkFilter "instance-state-name" dedupStates]) ;;
      match (match existing with Ok (i :: _) => i_InstanceId i | _ => None end) with
      | Some i => retM (MkOpRef (ac_ActionID action) (Some (MkRef i ∅)) None)
      | None =>
          imageID <- image (compute.Image (cp_Spec p)) ;;
          let input := MkRun imageID (compute.ServerType (cp_Spec p)) (ac_ActionID action)
            (createTags (cp_Name p) (compute.Labels (cp_Spec p)) (cp_Labels p))
            (non_empty (compute.Location (cp_Spec p)))
            (base64 <$> non_empty (compute.UserData (cp_Spec p)))
            (non_empty (a_subnetID d)) (a_sgIDs d) (non_empty (a_keyName d)) (non_empty (a_instanceProfile d)) in
          paced preflight (
            out <- api (RunInstances input) EffectMaybe ;;
            match (match out with i :: _ => i_InstanceId i | [] => None end) with
            | Some i => retM (MkOpRef (ac_ActionID action) (Some (MkRef i ∅))
                                (Some (print (enc_opData (MkOpData i false "")))))
            | None => failM (EProvider (MkError ErrRetryable EffectMaybe "" "RunInstances returned no instance"
                                          (a_instance d) "" 0))
            end)
      end
  end.

Definition applyDelete (action : Action) : M St OperationRef :=
  match ac_Ref action with
  | None => liftR (bad "delete requires a ref")
  | Some ref =>
      paced preflight (
        r <- tryM (api (TerminateInstances (ref_ID ref)) EffectMaybe) ;;
        match r with
        | Ok _ => retM (MkOpRef (ac_ActionID action) (Some ref)
                          (Some (print (enc_opData (MkOpData (ref_ID ref) true "")))))
        | Err mapped => if IsClass mapped ErrNotFound then retM (MkOpRef (ac_ActionID action) (Some ref) None)
                        else failM mapped
        end)
  end.

(** The state of an instance, or that there is none. *)
Definition instanceState (id : string) : M St (option StateName) :=
  if decide (id = ""%string) then liftR (bad "empty instance id")
  else l <- describeOne id ;;
       match l with
       | i :: _ => retM (i_State i)
       | [] => failM (notFound id)
       end.

Definition applyStopStart (action : Action) : M St OperationRef :=
  match ac_Ref action with
  | None => liftR (bad (ac_Kind action +:+ " requires a ref"))
  | Some ref =>
      state <- instanceState (ref_ID ref) ;;
      if decide (state = Some NameShuttingDown ∨ state = Some NameTerminated) then failM (notFound (ref_ID ref))
      else
      let done := MkOpRef (ac_ActionID action) (Some ref)
                    (Some (print (enc_opData (MkOpData (ref_ID ref) false (ac_Kind action))))) in
      if mem (ac_Kind action) ["stop"%string] then
        if decide (state = Some NameStopped ∨ state = Some NameStopping) then retM done
        else paced preflight (api (StopInstances (ref_ID ref)) EffectMaybe ;;; retM done)
      else if decide (state = Some NameRunning ∨ state = Some NamePending) then retM done
      else paced preflight (api (StartInstances (ref_ID ref)) EffectMaybe ;;; retM done)
  end.

Definition Ec2_Apply (action : Action) : M St OperationRef :=
  if mem (ac_Kind action) ["create"%string] then applyCreate action
  else if mem (ac_Kind action) ["delete"%string] then applyDelete action
  else if mem (ac_Kind action) ["stop"; "start"]%string then applyStopStart action
  else liftR (bad ("unknown action kind " +:+ ac_Kind action)).

(** ** Observing an operation *)

(** One terminal predicate per kind of operation; data that names none of them
    decides nothing. *)
Definition Ec2_ObserveOperation (op : OperationRef) : M St OperationStatus :=
  match or_Ref op with
  | None => retM (MkStatus PvUnknown None None None 0)
  | Some ref =>
      let data := dec_opData (or_Data op) in
      obs <- Ec2_Get ref ;;
      let poll := MkStatus PvRunning (Some ref) None None (2 * Second) in
      let done := MkStatus PvSucceeded (Some ref) (Some obs) None 0 in
      let gone := bool_decide (ob_Phase obs = PhaseGone) in
      if mem (od_Op data) ["stop"%string] then
        if gone then failM (notFound (ref_ID ref))
        else retM (if decide (ob_ProviderState obs = stateText NameStopped) then done else poll)
      else if mem (od_Op data) ["start"%string] then
        if gone then failM (notFound (ref_ID ref))
        else retM (if decide (ob_ProviderState obs = stateText NameRunning) then done else poll)
      else if od_Delete data then retM (if gone then done else poll)
      else if negb (bool_decide (od_InstanceID data = ""%string)) && bool_decide (od_Op data = ""%string) then
        match ob_Phase obs with
        | PhaseRunning => retM done
        | PhaseGone => failM (notFound (ref_ID ref))
        | _ => retM poll
        end
      else if gone then failM (notFound (ref_ID ref))
      else retM (MkStatus PvUnknown (Some ref) (Some obs) None (2 * Second))
  end.

(** ** The provider *)

Definition machines : SDK.ResourceDriver St :=
  MkDriver St Ec2_Discover Ec2_Get Ec2_Plan Ec2_Apply Ec2_ObserveOperation.
Definition Ec2_ResourceDriver (kind : string) : option (SDK.ResourceDriver St) :=
  if decide (kind = compute.Kind) then Some machines else None.
Definition Ec2_Provider : Provider St :=
  MkProvider St Ec2_Descriptor Ec2_ResourceDriver (Some Billing) (Some Parking).
End driver.
