(* ===== verification/ComputeEngine.v ===== *)
(** * Google Compute Engine (providers/gcp)

    The driver over the REST calls it makes of compute/v1. Labels go through
    the codec of [Labels.v]; stop and start are idempotent, and every kind of
    operation has a terminal predicate of its own. The client is the class
    [GCE]; [time.Parse] of the standard library is an argument. *)

From stdpp Require Import base gmap strings list sorting.
From Stdlib Require Import Ascii QArith_base.
From S2P Require Import Prelude Errors Json SDK Kinds Marshal Labels Text Auth SecretRef Manager Pacer Fake Cloud Docker.

Import Labels.Gcp.

Definition Driver : string := "gcp".

(** ** The library (google.golang.org/api/compute/v1) *)

Record googleError := MkGoogleError {
  go_Code : Z; go_Message : string; go_Reasons : list string; go_RetryAfter : string }.
Record NetworkInterface := MkInterface { nf_NetworkIP : string; nf_AccessConfigs : list (option string) }.
Record Instance := MkInstance {
  gi_Name : string; gi_Zone : string; gi_MachineType : string; gi_Status : string;
  gi_Labels : gmap string string; gi_NetworkInterfaces : list (option NetworkInterface);
  gi_JSON : option json
}.
(** What an insert asks for; disk, network and access are fixed but for these. *)
Record NewInstance := MkNew {
  ni_Name : string; ni_MachineType : string; ni_Labels : gmap string string; ni_SourceImage : string;
  ni_Network : string; ni_Subnetwork : string; ni_UserData : option string }.
Record ZoneOperation := MkZoneOp { zo_Status : string; zo_Errors : list (string * string) }.
Record Image := MkImage { gm_Name : string; gm_SelfLink : string; gm_Labels : gmap string string;
  gm_CreationTimestamp : string }.

Class GCE (W : Type) := {
  Zones_Get : string → string → call W googleError unit;
  (* project, filter, page token: the instances of every zone, the next token *)
  Instances_AggregatedList : string → string → string → call W googleError (list (list (option Instance)) * string);
  (* project, zone, filter, page token *)
  Instances_List : string → string → string → string → call W googleError (list (option Instance) * string);
  Instances_Get : string → string → string → call W googleError Instance;
  (* the name of the zonal operation *)
  Instances_Insert : string → string → NewInstance → call W googleError string;
  Instances_Delete : string → string → string → call W googleError string;
  Instances_Stop : string → string → string → call W googleError string;
  Instances_Start : string → string → string → call W googleError string;
  ZoneOperations_Get : string → string → string → call W googleError ZoneOperation;
  Images_GetFromFamily : string → string → call W googleError Image;
  Images_Get : string → string → call W googleError Image;
  Images_List : string → string → call W googleError (list (option Image) * string);
  MachineTypes_Get : string → string → string → call W googleError (option (Z * Z))
}.

(** ** Settings *)

Record Settings := MkSettings {
  Project : string; Zone : string; CredentialsJSON : string; Endpoint : string; Network : string;
  Subnetwork : string; RPS : Q; Burst : Z; MaxConc : Z }.

Definition dec_settings (j : json) : result Settings :=
  compute.andThen (dec_object j) (λ fs,
  compute.andThen (dec_field "project" dec_string fs ""%string) (λ p,
  compute.andThen (dec_field "zone" dec_string fs ""%string) (λ z,
  compute.andThen (dec_field "credentialsJson" dec_string fs ""%string) (λ c,
  compute.andThen (dec_field "endpoint" dec_string fs ""%string) (λ e,
  compute.andThen (dec_field "network" dec_string fs ""%string) (λ n,
  compute.andThen (dec_field "subnetwork" dec_string fs ""%string) (λ s,
  compute.andThen (dec_field "rps" dec_float fs 0%Q) (λ q,
  compute.andThen (dec_field "burst" dec_int64 fs 0) (λ b,
  compute.andThen (dec_field "maxConcurrent" dec_int64 fs 0) (λ m,
  Ok (MkSettings p z c e n s q b m))))))))))).

(** How the client authenticates. *)
Inductive Credentials := NoAuthentication (endpoint : string) | KeyJSON (key : string) | AmbientADC.
Record GCP := MkGCP {
  g_instance : string; g_ownerID : string; g_project : string; g_zone : string; g_network : string;
  g_subnetwork : string; g_credentials : Credentials }.

(** [detect] and [service] are what the auth library makes of a key and the
    client library of its options. *)
Definition New (detect : string → result unit) (service : Credentials → result unit)
    (schemes : gmap string SchemeFunc) (cfg : InstanceConfig) : result (GCP * Pacer) :=
  let bad {A} msg : result A := Err (Fake.invalid (ic_Instance cfg) msg) in
  let s := match ic_Settings cfg with
           | RawEmpty | RawDoc JNull => Ok (MkSettings "" "" "" "" "" "" 0%Q 0 0)
           | RawDoc j => match dec_settings j with
                         | Ok s => Ok s
                         | Err e => bad ("gcp settings: " +:+ err_text e)
                         end
           | RawBad t => bad ("gcp settings: " +:+ t)
           end in
  compute.andThen s (λ s,
  if decide (Project s = ""%string) then bad "gcp: project is required"
  else if decide (Zone s = ""%string) then bad "gcp: zone is required"
  else if negb (bool_decide (CredentialsJSON s = ""%string)) && negb (IsRef (CredentialsJSON s))
  then bad "gcp: credentialsJson must be a secret:// reference (07 §4)"
  else
  let creds :=
    if negb (bool_decide (Endpoint s = ""%string)) then Ok (NoAuthentication (Endpoint s))
    else if negb (bool_decide (CredentialsJSON s = ""%string)) then
      match Resolve schemes (CredentialsJSON s) with
      | Err e => bad (err_text e)
      | Ok sec => match detect (Reveal sec) with
                  | Err e => bad ("gcp: credentials: " +:+ err_text e)
                  | Ok _ => Ok (KeyJSON (Reveal sec))
                  end
      end
    else Ok AmbientADC in
  compute.andThen creds (λ creds,
  match service creds with
  | Err e => bad ("gcp: constructing compute service: " +:+ err_text e)
  | Ok _ => Ok (MkGCP (ic_Instance cfg) (ic_OwnerID cfg) (Project s) (Zone s) (Network s) (Subnetwork s) creds,
                Pacer.New (RPS s) (MaxConc s))
  end)).

(** ** What an operation carries *)

Record opData := MkOpData { od_Kind : string; od_Op : string; od_Zone : string; od_Instance : string; od_Delete : bool }.
Definition enc_opData (d : opData) : json :=
  JObj ([("v", JInt 1)]%string ++ opt_string "kind" (od_Kind d) ++
        [("op", JStr (od_Op d)); ("zone", JStr (od_Zone d)); ("instance", JStr (od_Instance d))]%string ++
        opt_field (od_Delete d) "delete" (JBool true)).
Definition dec_opData (data : option string) : opData :=
  let fs := data_fields data in
  let str name := soft_field name dec_string fs ""%string in
  MkOpData (str "kind"%string) (str "op"%string) (str "zone"%string) (str "instance"%string)
    (soft_field "delete" dec_bool fs false).

(** ** Statuses *)

Definition mapStatus (s : string) : ObservedPhase :=
  if mem s ["PENDING"; "PROVISIONING"; "STAGING"]%string then PhasePending
  else if mem s ["RUNNING"]%string then PhaseRunning
  else if mem s ["PENDING_STOP"; "STOPPING"; "SUSPENDING"; "SUSPENDED"; "STOPPED"; "TERMINATED"; "DEPROVISIONING"]%string
  then PhaseStopped
  else PhaseUnknown.
Definition stopComplete (s : string) : bool := mem s ["TERMINATED"; "STOPPED"; "SUSPENDED"]%string.
Definition stopSettled (s : string) : bool := mem s ["STOPPING"; "PENDING_STOP"; "SUSPENDING"]%string || stopComplete s.
Definition startSettled (s : string) : bool := mem s ["RUNNING"; "STAGING"; "PROVISIONING"]%string.

Definition lastSegment (s : string) : string := match CutLast "/" s with Some (_, r) => r | None => s end.
Definition orElse (a b : string) : string := if decide (a = ""%string) then b else a.
Definition Contains (sub s : string) : bool :=
  bool_decide (Exists (λ n, String.substring n (String.length sub) s = sub) (seq 0 (S (String.length s)))).

(** "<project>/<value>", or a value of the project. *)
Definition splitProject (rest def : string) : string * string :=
  match Text.Cut "/" rest with
  | Some (String a proj, String b val) =>
      match Text.Cut "/" (String b val) with None => (String a proj, String b val) | Some _ => (def, rest) end
  | _ => (def, rest)
  end.

Definition mergeLabels (a b : gmap string string) : gmap string string := b ∪ a.
Definition matches (have want : gmap string string) : bool := labelsMatch have want.

Definition retryAfterHeader (h : string) : Z :=
  match ParseInt h with
  | Some secs => if decide (0 < secs) then mul64 secs Second else 0
  | None => 0
  end.

Definition Kind : string := compute.Kind.

Section driver.
Context {W : Type} `{Ambient W} `{GCE W} (g : GCP).
(** [time.Parse(time.RFC3339, s)] as an instant. *)
Context (parse_time : string → option Z).
(** How many pages of a listing are fetched before the model gives up. *)
Context (fuel : nat).

(** The cache of machine types, by zone and name. *)
Abbreviation St := (Link W (gmap string (gmap string Z))).

Definition Billing (kind : string) : BillingPolicy :=
  if decide (kind = compute.Kind) then MkBilling Minute 0 0 else zeroBilling.
Definition Parking (kind : string) : ParkPolicy :=
  if decide (kind = compute.Kind) then MkPark true (45 * Second) else zeroPark.
Definition Gce_Descriptor : Descriptor := MkDescriptor Driver (g_instance g) [compute.Kind] true.

(** ** Errors *)

Definition preflight (e : err) : err :=
  match e with
  | EProvider _ => e
  | _ => EProvider (MkError (Classify e) EffectNone "" (err_text e) (g_instance g) "" 0)
  end.

Definition mapErr (f : failure googleError) (effectIfSent : SideEffect) (s : St) : err * St :=
  match as_vendor f with
  | Some e =>
      let code := go_Code e in
      let msg := orElse (go_Message e) ("googleapi error " +:+ write_int code) in
      let reason r := mem r (go_Reasons e) in
      let typed class effect retry :=
        EProvider (MkError class effect (write_int code) msg (g_instance g) "" retry) in
      if decide (code = 404) then (typed ErrNotFound EffectNone 0, s)
      else if bool_decide (code = 429) ||
              bool_decide (code = 403) && (reason "rateLimitExceeded"%string || reason "userRateLimitExceeded"%string)
      then let '(t, s) := throttled s in
           let ra := retryAfterHeader (go_RetryAfter e) in
           (typed ErrRateLimited EffectNone (if decide (0 < ra) then ra else t), s)
      else if bool_decide (code = 403) && reason "quotaExceeded"%string then (typed ErrQuota EffectNone 0, s)
      else if decide (code = 401 ∨ code = 403) then (typed ErrInvalid EffectNone 0, s)
      else if decide (code = 409 ∨ code = 412) then (typed ErrConflict effectIfSent 0, s)
      else if decide (code = 400) then (typed ErrInvalid EffectNone 0, s)
      else (typed ErrRetryable effectIfSent 0, s)
  | None => (EProvider (MkError ErrRetryable effectIfSent "" (failure_text f) (g_instance g) "" 0), s)
  end.

Definition api {A} (c : call W googleError A) (effect : SideEffect) : M St A := λ s,
  let '(r, _, w) := c (ln_world s) in
  let s := MkLink w (ln_pacer s) (ln_cache s) in
  match r with
  | inr a => (Ok a, s)
  | inl f => let '(e, s) := mapErr f effect s in (Err e, s)
  end.

Definition bad {A} (msg : string) : result A := Err (Fake.invalid (g_instance g) msg).
Definition invalidImage {A} (msg : string) : result A := bad msg.

Definition Health : M St unit := paced id (api (Zones_Get (g_project g) (g_zone g)) EffectNone).

(** ** Mapping *)

Definition zoneOf (ref : ExternalRef) : string := orElse (map_get (ref_Extra ref) "zone") (g_zone g).
Definition zoned (name zone : string) : ExternalRef := MkRef name {[ "zone"%string := zone ]}.

(** Best effort: what cannot be looked up is not tracked. *)
Definition capacity (zone machineType : string) : M St (gmap string Z) := λ s,
  if decide (machineType = ""%string) then (Ok ∅, s)
  else
  let key := (zone +:+ "/" +:+ machineType)%string in
  match ln_cache s !! key with
  | Some c => (Ok c, s)
  | None =>
      match paced id (attempt (MachineTypes_Get (g_project g) zone machineType)) s with
      | (Ok (Some (Some (cpus, mb))), s) =>
          let c := {[ "cpu"%string := cpus; "memoryMiB"%string := mb ]} in
          (Ok c, MkLink (ln_world s) (ln_pacer s) (<[key := c]> (ln_cache s)))
      | (_, s) => (Ok ∅, s)
      end
  end.

Definition interface_addrs (i : option NetworkInterface) : list Address :=
  match i with
  | None => []
  | Some i =>
      (if decide (nf_NetworkIP i = ""%string) then [] else [MkAddress "private" (nf_NetworkIP i)]) ++
      omap (λ a, a ≫= λ ip, if decide (ip = ""%string) then None else Some (MkAddress "public-v4" ip)) (nf_AccessConfigs i)
  end.

Definition observe (inst : Instance) : M St ObservedResource :=
  let zone := orElse (lastSegment (gi_Zone inst)) (g_zone g) in
  let labels := decodeLabels (map_to_list (gi_Labels inst)) in
  cap <- capacity zone (lastSegment (gi_MachineType inst)) ;;
  retM (MkObs (zoned (gi_Name inst) zone) compute.Kind (map_get labels LabelID) (map_get labels LabelOp)
    (owned (g_ownerID g) labels) (mapStatus (gi_Status inst)) (gi_Status inst) cap
    (concat (interface_addrs <$> gi_NetworkInterfaces inst)) labels (gi_JSON inst)).

(** ** Reading *)

Definition wanted (req : DiscoverRequest) : gmap string string :=
  dr_Selector req ∪
  (if decide (dr_Scope req = ScopeAll) then ∅
   else {[ LabelManaged := "true"%string; LabelOwner := g_ownerID g ]}).
Definition filterText (want : gmap string string) : string :=
  String.concat " AND " (merge_sort str_le
    ((λ kv, "labels." +:+ encodeKey kv.1 +:+ " = " +:+ quoted (encodeValue kv.2))%string <$> map_to_list want)).

Fixpoint listPages {A} (n : nat) (fetch : string → call W googleError (A * string)) (items : A → list (option Instance))
    (token : string) (acc : list (option Instance)) : M St (list (option Instance)) :=
  match n with
  | O => failM (EOther "listing: more pages than fuel")
  | S n =>
      page <- paced id (api (fetch token) EffectNone) ;;
      let acc := acc ++ items page.1 in
      if decide (page.2 = ""%string) then retM acc else listPages n fetch items page.2 acc
  end.
Definition listAllInstances (filter : string) : M St (list (option Instance)) :=
  listPages fuel (Instances_AggregatedList (g_project g) filter) (@concat _) "" [].
Definition listInstances (zone filter : string) : M St (list (option Instance)) :=
  listPages fuel (Instances_List (g_project g) zone filter) id "" [].

Fixpoint observeMatching (want : gmap string string) (l : list (option Instance)) : M St (list ObservedResource) :=
  match l with
  | [] => retM []
  | None :: l => observeMatching want l
  | Some i :: l =>
      o <- observe i ;; os <- observeMatching want l ;;
      retM (if matches (ob_Labels o) want then o :: os else os)
  end.

Definition Gce_Discover (req : DiscoverRequest) : M St (list ObservedResource) :=
  let want := wanted req in
  instances <- listAllInstances (filterText want) ;;
  observeMatching want instances.

Definition getInstance (zone name : string) : M St Instance :=
  paced preflight (api (Instances_Get (g_project g) zone name) EffectNone).

Definition Gce_Get (ref : ExternalRef) : M St ObservedResource :=
  if decide (ref_ID ref = ""%string) then liftR (bad "empty instance name")
  else inst <- getInstance (zoneOf ref) (ref_ID ref) ;; observe inst.

(** ** Plan *)

Definition Gce_Plan (req : PlanRequest) : result (list Action) :=
  match pr_Desired req, pr_Observed req with
  | Some ds, None =>
      match compute.ParseSpec (ds_Spec ds) with
      | Err e => bad (err_text e)
      | Ok spec =>
          Ok [MkAction "" "create" (pr_ResourceID req) None
                (Some (enc_createParams (MkCreateParams (ds_Name ds) spec (ds_Labels ds)))) false]
      end
  | None, Some o => Ok [MkAction "" "delete" (pr_ResourceID req) (Some (ob_Ref o)) None true]
  | _, _ => Ok []
  end.

(** ** Images *)

Definition imageURL (img : Image) (proj : string) : string :=
  orElse (gm_SelfLink img) ("projects/" +:+ proj +:+ "/global/images/" +:+ gm_Name img).

(** A lookup that finds nothing is a configuration error. *)
Definition imageLookup (c : call W googleError Image) (proj spec : string) : M St string :=
  r <- tryM (paced preflight (api c EffectNone)) ;;
  match r with
  | Ok img => retM (imageURL img proj)
  | Err e => if IsClass e ErrNotFound then liftR (invalidImage ("no image matches " +:+ spec)) else failM e
  end.

(** The zero time is before every other. *)
Definition After (a b : option Z) : bool :=
  match a, b with
  | Some a, Some b => bool_decide (b < a)
  | Some _, None => true
  | None, _ => false
  end.
Definition newer (encK encV : string) (best : option (Image * option Z)) (img : option Image) : option (Image * option Z) :=
  match img with
  | Some img =>
      if decide (map_get (gm_Labels img) encK ≠ encV) then best
      else let at_ := parse_time (gm_CreationTimestamp img) in
           match best with
           | None => Some (img, at_)
           | Some (b, bestAt) => if After at_ bestAt then Some (img, at_) else best
           end
  | None => best
  end.
Fixpoint newestLabelled (n : nat) (encK encV token : string) (best : option (Image * option Z)) :
    M St (option (Image * option Z)) :=
  match n with
  | O => failM (EOther "listing: more pages than fuel")
  | S n =>
      page <- paced preflight (api (Images_List (g_project g) token) EffectNone) ;;
      let best := foldl (newer encK encV) best page.1 in
      if decide (page.2 = ""%string) then retM best else newestLabelled n encK encV page.2 best
  end.

Definition image (spec : string) : M St string :=
  match Text.Cut ":" spec with
  | Some (String a form, String b rest) =>
      let form := String a form in
      let rest := String b rest in
      if mem form ["id"%string] then
        retM (match Text.Cut "/" rest with
              | Some _ => rest
              | None => "projects/" +:+ g_project g +:+ "/global/images/" +:+ rest
              end)%string
      else if mem form ["family"%string] then
        let '(proj, family) := splitProject rest (g_project g) in
        imageLookup (Images_GetFromFamily proj family) proj spec
      else if mem form ["name"%string] then
        let '(proj, name) := splitProject rest (g_project g) in
        imageLookup (Images_Get proj name) proj spec
      else if mem form ["snapshot"%string] then
        match Text.Cut "=" rest with
        | Some (String c k, v) =>
            best <- newestLabelled fuel (encodeKey (String c k)) (encodeValue v) "" None ;;
            match best with
            | Some (img, _) => retM (imageURL img (g_project g))
            | None => liftR (invalidImage ("no image matches " +:+ spec +:+ " (fail fast, not retry)"))
            end
        | _ => liftR (invalidImage "snapshot selector must be <label>=<value>")
        end
      else liftR (invalidImage ("unknown image form " +:+ form))
  | _ => liftR (invalidImage "image must be id:<image>, family:<family>, name:<name> or snapshot:<k=v>")
  end.

(** ** Apply *)

(** The first live instance of the zone with the operation's label. *)
Fixpoint firstLive (zone actionID : string) (l : list (option Instance)) : option ExternalRef :=
  match l with
  | [] => None
  | Some i :: l =>
      if mem (gi_Status i) ["TERMINATED"; "DEPROVISIONING"]%string then firstLive zone actionID l
      else if decide (map_get (decodeLabels (map_to_list (gi_Labels i))) LabelOp ≠ actionID) then firstLive zone actionID l
      else Some (zoned (gi_Name i) (orElse (lastSegment (gi_Zone i)) zone))
  | None :: l => firstLive zone actionID l
  end.
Definition findByOp (zone actionID : string) : M St (option ExternalRef) :=
  let short := match alookup LabelOp shortNames with Some s => s | None => ""%string end in
  r <- tryM (listInstances zone ("labels." +:+ short +:+ " = " +:+ quoted (encodeValue actionID))) ;;
  retM (match r with Ok l => firstLive zone actionID l | Err _ => None end).

Definition op_ref (action : Action) (ref : ExternalRef) (d : opData) : OperationRef :=
  MkOpRef (ac_ActionID action) (Some ref) (Some (print (enc_opData d))).

Definition applyCreate (action : Action) : M St OperationRef :=
  match (match ac_Params action with
         | Some j => dec_createParams j
         | None => Err (EOther "unexpected end of JSON input")
         end) with
  | Err e => liftR (bad ("malformed create params: " +:+ err_text e))
  | Ok p =>
      let zone := orElse (compute.Location (cp_Spec p)) (g_zone g) in
      found <- findByOp zone (ac_ActionID action) ;;
      match found with
      | Some ref => retM (MkOpRef (ac_ActionID action) (Some ref) None)
      | None =>
          source <- image (compute.Image (cp_Spec p)) ;;
          let inst := MkNew (cp_Name p)
            ("zones/" +:+ zone +:+ "/machineTypes/" +:+ compute.ServerType (cp_Spec p))
            (encodeLabels (map_to_list (mergeLabels (compute.Labels (cp_Spec p)) (cp_Labels p)))) source
            (orElse (g_network g) "global/networks/default") (g_subnetwork g)
            (if decide (compute.UserData (cp_Spec p) = ""%string) then None else Some (compute.UserData (cp_Spec p))) in
          paced preflight (
            op <- api (Instances_Insert (g_project g) zone inst) EffectMaybe ;;
            retM (op_ref action (zoned (cp_Name p) zone) (MkOpData "create" op zone (cp_Name p) false)))
      end
  end.

Definition applyDelete (action : Action) : M St OperationRef :=
  match ac_Ref action with
  | None => liftR (bad "delete requires a ref")
  | Some ref =>
      if decide (ref_ID ref = ""%string) then liftR (bad "delete requires a ref") else
      let zone := zoneOf ref in
      paced preflight (
        r <- tryM (api (Instances_Delete (g_project g) zone (ref_ID ref)) EffectMaybe) ;;
        match r with
        | Ok op => retM (op_ref action ref (MkOpData "delete" op zone (ref_ID ref) true))
        | Err mapped => if IsClass mapped ErrNotFound then retM (MkOpRef (ac_ActionID action) (Some ref) None)
                        else failM mapped
        end)
  end.

(** A stop or start whose instance is there already, or on its way, changes
    nothing; one the API refuses because it got there meanwhile neither. *)
Definition applyStopStart (action : Action) : M St OperationRef :=
  match ac_Ref action with
  | None => liftR (bad (ac_Kind action +:+ " requires a ref"))
  | Some ref =>
      if decide (ref_ID ref = ""%string) then liftR (bad (ac_Kind action +:+ " requires a ref")) else
      let zone := zoneOf ref in
      inst <- getInstance zone (ref_ID ref) ;;
      let settled := if mem (ac_Kind action) ["start"%string] then startSettled else stopSettled in
      let noop := op_ref action ref (MkOpData (ac_Kind action) "" zone (ref_ID ref) false) in
      if settled (gi_Status inst) then retM noop
      else
        r <- tryM (paced preflight (api
               (if mem (ac_Kind action) ["stop"%string] then Instances_Stop (g_project g) zone (ref_ID ref)
                else Instances_Start (g_project g) zone (ref_ID ref)) EffectMaybe)) ;;
        match r with
        | Ok op => retM (op_ref action ref (MkOpData (ac_Kind action) op zone (ref_ID ref) false))
        | Err mapped =>
            if IsClass mapped ErrInvalid || IsClass mapped ErrTerminal then
              again <- tryM (getInstance zone (ref_ID ref)) ;;
              match again with
              | Ok i => if settled (gi_Status i) then retM noop else failM mapped
              | Err _ => failM mapped
              end
            else failM mapped
        end
  end.

Definition Gce_Apply (action : Action) : M St OperationRef :=
  if mem (ac_Kind action) ["create"%string] then applyCreate action
  else if mem (ac_Kind action) ["delete"%string] then applyDelete action
  else if mem (ac_Kind action) ["stop"; "start"]%string then applyStopStart action
  else liftR (bad ("unknown action kind " +:+ ac_Kind action)).

(** ** Observing an operation *)

(** The kind of an operation, also of records older than the kind. *)
Definition kindOf (data : opData) : string :=
  if decide (od_Kind data = ""%string) then (if od_Delete data then "delete" else "create") else od_Kind data.

Definition operationFailure (code msg : string) : Error :=
  let class :=
    if Contains "QUOTA_EXCEEDED" code then ErrQuota
    else if Contains "NOT_FOUND" code then ErrNotFound
    else if Contains "RESOURCE_POOL_EXHAUSTED" code || Contains "RATE_EXCEEDED" code then ErrRetryable
    else ErrTerminal in
  MkError class EffectMaybe code msg (g_instance g) "" 0.

(** The zonal operation, when there is one: an answer, or the instance decides. *)
Definition pollOperation (ref : option ExternalRef) (data : opData) : M St (option OperationStatus) :=
  if decide (od_Op data = ""%string) then retM None else
  r <- tryM (paced id (api (ZoneOperations_Get (g_project g) (orElse (od_Zone data) (g_zone g)) (od_Op data)) EffectNone)) ;;
  match r with
  | Err mapped => if IsClass mapped ErrNotFound then retM None else failM mapped
  | Ok zop =>
      if mem (zo_Status zop) ["PENDING"%string] then retM (Some (MkStatus PvPending ref None None (2 * Second)))
      else if mem (zo_Status zop) ["RUNNING"%string] then retM (Some (MkStatus PvRunning ref None None (2 * Second)))
      else if mem (zo_Status zop) ["DONE"%string] then
        retM (match zo_Errors zop with
              | (code, msg) :: _ => Some (MkStatus PvFailed ref None (Some (operationFailure code msg)) 0)
              | [] => None
              end)
      else retM None
  end.

Definition Gce_ObserveOperation (op : OperationRef) : M St OperationStatus :=
  let data := dec_opData (or_Data op) in
  let kind := kindOf data in
  polled <- pollOperation (or_Ref op) data ;;
  match polled with
  | Some st => retM st
  | None =>
      match (match or_Ref op with
             | Some ref => Some ref
             | None => if decide (od_Instance data = ""%string) then None
                       else Some (zoned (od_Instance data) (orElse (od_Zone data) (g_zone g)))
             end) with
      | None => retM (MkStatus PvUnknown None None None 0)
      | Some ref =>
          obs <- Gce_Get ref ;;
          let poll := MkStatus PvRunning (Some ref) None None (2 * Second) in
          let done := MkStatus PvSucceeded (Some ref) (Some obs) None 0 in
          if mem kind ["delete"%string] then retM poll
          else if mem kind ["create"%string] then retM (if decide (ob_Phase obs = PhaseRunning) then done else poll)
          else if mem kind ["stop"%string] then retM (if stopComplete (ob_ProviderState obs) then done else poll)
          else if mem kind ["start"%string] then retM (if decide (ob_ProviderState obs = "RUNNING"%string) then done else poll)
          else retM (MkStatus PvUnknown (Some ref) None None 0)
      end
  end.

(** ** The provider *)

Definition machines : SDK.ResourceDriver St :=
  MkDriver St Gce_Discover Gce_Get Gce_Plan Gce_Apply Gce_ObserveOperation.
Definition Gce_ResourceDriver (kind : string) : option (SDK.ResourceDriver St) :=
  if decide (kind = compute.Kind) then Some machines else None.
Definition Gce_Provider : Provider St :=
  MkProvider St Gce_Descriptor Gce_ResourceDriver (Some Billing) (Some Parking).
End driver.
