(* ===== verification/Database.v ===== *)
(** * The database handle (internal/storage/sqlite/db.go, store.go)

    What Open, Close, the migrations, transactions, views and backups do with
    the pools of connections. database/sql, the SQLite driver and goose are the
    class [Sql]: each call may fail and may change what is on disk. *)

From stdpp Require Import base gmap strings list pretty.
From Stdlib Require Import Ascii.
From S2P Require Import Prelude Errors Json SDK Kinds Marshal Text Url Store Cloud.
From S2P Require ComputeEngine.

Import compute.

(** An error of the driver. *)
Inductive dbErr := NoRows | Driver (msg : string).
(** A pool: its data source name and how many connections it may hold. *)
Record Pool := MkPool { pl_DSN : string; pl_MaxOpenConns : Z }.

(** A pool is opened without a connection; a transaction is begun, and then
    committed or rolled back. *)
Class Sql (D : Type) := {
  sql_Open : Pool → D → option dbErr * D;
  sql_Ping : Pool → D → option dbErr * D;
  sql_Close : Pool → D → option dbErr * D;
  sql_Begin : Pool → bool → D → option dbErr * D;
  sql_Commit : Pool → D → option dbErr * D;
  sql_Rollback : Pool → D → option dbErr * D;
  sql_Vacuum : Pool → string → D → option dbErr * D;
  goose_Version : Pool → D → (dbErr + Z) * D;
  goose_Up : Pool → D → option dbErr * D
}.

(** The pools that are open, and the world outside. *)
Record Files (D : Type) := MkFiles { fs_open : gmap nat Pool; fs_next : nat; fs_disk : D }.
Arguments MkFiles {D}.
Arguments fs_open {D}.
Arguments fs_next {D}.
Arguments fs_disk {D}.

Definition failed : err := EOther "database".

(** [mapErr]: the sentinels of internal/storage. *)
Definition mapErr (e : option dbErr) : result unit :=
  match e with
  | None => Ok tt
  | Some NoRows => Err ENotFound
  | Some (Driver msg) =>
      if ComputeEngine.Contains "UNIQUE constraint failed" msg || ComputeEngine.Contains "CHECK constraint failed" msg
         || ComputeEngine.Contains "FOREIGN KEY constraint failed" msg
      then Err EConflict else Err (EOther msg)
  end.

Definition migrations : list string := ["0001_baseline.sql"; "0002_domain.sql"; "0003_classes.sql"; "0004_parked.sql"]%string.
Fixpoint max_version (entries : list string) (max : Z) : result Z :=
  match entries with
  | [] => Ok max
  | name :: entries =>
      match Cut "_"%char name with
      | None => max_version entries max
      | Some (num, _) =>
          match ParseInt num with
          | None => Err (EOther "migration filename")
          | Some v => max_version entries (if decide (max < v) then v else max)
          end
      end
  end.
Definition maxMigrationVersion (entries : list string) : result Z :=
  max ?<- max_version entries 0 ;
  if decide (max = 0) then Err (EOther "no embedded migrations found") else Ok max.

Section database.
Context {D : Type} `{Sql D}.

Abbreviation io := (M (Files D)).
(** One call of the library on an open pool. *)
Definition lib (f : D → option dbErr * D) : M (Files D) (option dbErr) := λ s,
  let '(e, d) := f (fs_disk s) in (Ok e, MkFiles (fs_open s) (fs_next s) d).
Definition failing (e : option dbErr) : M (Files D) unit := match e with None => retM tt | Some _ => failM failed end.

Definition dsn (path txlock synchronous : string) : string :=
  ("file:" +:+ path +:+ "?_txlock=" +:+ txlock +:+ "&_pragma=journal_mode(WAL)" +:+ "&_pragma=busy_timeout(5000)" +:+
   "&_pragma=foreign_keys(1)" +:+ "&_pragma=temp_store(MEMORY)" +:+ "&_pragma=journal_size_limit(67108864)" +:+
   "&_pragma=synchronous(" +:+ QueryEscape synchronous +:+ ")")%string.
(** [open], a pool that is known by its number from then on. *)
Definition open (path txlock synchronous : string) (conns : Z) : M (Files D) (nat * Pool) := λ s,
  let p := MkPool (dsn path txlock synchronous) conns in
  match sql_Open p (fs_disk s) with
  | (Some _, d) => (Err failed, MkFiles (fs_open s) (fs_next s) d)
  | (None, d) => (Ok (fs_next s, p), MkFiles (<[fs_next s := p]> (fs_open s)) (S (fs_next s)) d)
  end.
(** A pool that is closed is closed, error or not. *)
Definition close (h : nat * Pool) : M (Files D) (option dbErr) := λ s,
  let '(e, d) := sql_Close h.2 (fs_disk s) in (Ok e, MkFiles (delete h.1 (fs_open s)) (fs_next s) d).

Definition migrate (entries : list string) (w : nat * Pool) : M (Files D) unit :=
  max <- liftR (maxMigrationVersion entries) ;;
  current <- (λ s, match goose_Version w.2 (fs_disk s) with
                   | (inl _, d) => (Err failed, MkFiles (fs_open s) (fs_next s) d)
                   | (inr v, d) => (Ok v, MkFiles (fs_open s) (fs_next s) d)
                   end) ;;
  if decide (max < current) then failM (EOther "database schema is newer than this binary")
  else e <- lib (goose_Up w.2) ;; failing e.

Record DB := MkDB { db_writer : nat * Pool; db_reader : nat * Pool; db_path : string }.

Definition Ping (db : DB) : M (Files D) unit :=
  e <- lib (sql_Ping (db_writer db).2) ;; failing e ;;;
  e <- lib (sql_Ping (db_reader db).2) ;; failing e.
Definition Close (db : DB) : M (Files D) unit :=
  e1 <- close (db_writer db) ;;
  e2 <- close (db_reader db) ;;
  match e1, e2 with None, None => retM tt | _, _ => failM failed end.

Definition on_error {A} (m : M (Files D) A) (cleanup : M (Files D) unit) : M (Files D) A :=
  r <- tryM m ;;
  match r with Ok a => retM a | Err e => ignoreM cleanup ;;; failM e end.
Definition Open (entries : list string) (path : string) : M (Files D) DB :=
  w <- open path "immediate" "FULL" 1 ;;
  on_error (migrate entries w) (ignoreM (close w)) ;;;
  r <- on_error (open path "deferred" "NORMAL" 4) (ignoreM (close w)) ;;
  let db := MkDB w r path in
  on_error (Ping db) (Close db) ;;;
  retM db.

(** A transaction on the writer, a view on the reader: what runs in between
    moves the disk as it will. *)
Definition withTx {A} (db : DB) (fn : M (Files D) A) : M (Files D) A :=
  e <- lib (sql_Begin (db_writer db).2 false) ;;
  liftR (mapErr e) ;;;
  a <- on_error fn (ignoreM (lib (sql_Rollback (db_writer db).2))) ;;
  e <- lib (sql_Commit (db_writer db).2) ;;
  liftR (mapErr e) ;;;
  retM a.
Definition View {A} (db : DB) (fn : M (Files D) A) : M (Files D) A :=
  e <- lib (sql_Begin (db_reader db).2 true) ;;
  liftR (mapErr e) ;;;
  r <- tryM fn ;;
  ignoreM (lib (sql_Rollback (db_reader db).2)) ;;;
  liftR r.
Definition Backup (db : DB) (destPath : string) : M (Files D) unit :=
  conn <- open (db_path db) "deferred" "NORMAL" 1 ;;
  r <- tryM (e <- lib (sql_Vacuum conn.2 destPath) ;; failing e) ;;
  ignoreM (close conn) ;;;
  liftR r.
End database.

(** * Opening the database

    No pool of connections is left behind by an Open that fails, a Close or a
    Backup, and a database from a newer binary is left as it was found. *)

Section facts.
Context {D : Type} `{Sql D}.
Implicit Types (s : Files D) (p : Pool) (h : nat * Pool).

(** Numbers are given out once. *)
Definition fresh (s : Files D) : Prop := ∀ n, (fs_next s ≤ n)%nat → fs_open s !! n = None.
(** Calls that open and close nothing. *)
Definition still {A} (m : M (Files D) A) : Prop := ∀ s, fs_open (m s).2 = fs_open s ∧ fs_next (m s).2 = fs_next s.
Lemma still_ret {A} (a : A) : still (retM a).
Proof. done. Qed.
Lemma still_fail {A} e : still (A := A) (failM e).
Proof. done. Qed.
Lemma still_lift {A} (r : result A) : still (liftR r).
Proof. done. Qed.
Lemma still_lib f : still (lib f).
Proof. intros s. unfold lib. by destruct (f (fs_disk s)). Qed.
Lemma still_bind {A B} (m : M (Files D) A) (k : A → M (Files D) B) : still m → (∀ a, still (k a)) → still (bindM m k).
Proof.
  intros Hm Hk s. specialize (Hm s). unfold bindM. destruct (m s) as [[a|e] s1]; [|done]. cbn [snd] in Hm.
  destruct Hm as [<- <-]. apply Hk.
Qed.
Lemma still_failing e : still (failing (D := D) e).
Proof. by destruct e. Qed.
Lemma still_ignore {A} (m : M (Files D) A) : still m → still (ignoreM m).
Proof. intros Hm s. apply Hm. Qed.
Lemma still_try {A} (m : M (Files D) A) : still m → still (tryM m).
Proof. intros Hm s. specialize (Hm s). unfold tryM. by destruct (m s). Qed.
Lemma still_on_error {A} (m : M (Files D) A) c : still m → still c → still (on_error m c).
Proof.
  intros Hm Hc. apply still_bind; [by apply still_try|intros [a|e]; [apply still_ret|]].
  apply still_bind; [by apply still_ignore|intros _; apply still_fail].
Qed.
Lemma still_Ping db : still (Ping (D := D) db).
Proof. unfold Ping. repeat (apply still_bind; [first [apply still_lib|apply still_failing]|intros ?]). apply still_failing. Qed.
Lemma still_migrate entries w : still (migrate (D := D) entries w).
Proof.
  unfold migrate. apply still_bind; [apply still_lift|intros max]. apply still_bind.
  - intros s. by destruct (goose_Version w.2 (fs_disk s)) as [[e|v] d].
  - intros v. case_decide; [apply still_fail|]. apply still_bind; [apply still_lib|intros e; apply still_failing].
Qed.

Lemma open_opens path txlock sync conns s : fresh s →
  match open path txlock sync conns s with
  | (Ok h, s') => h = (fs_next s, MkPool (dsn path txlock sync) conns) ∧
      fs_open s' = <[fs_next s := MkPool (dsn path txlock sync) conns]> (fs_open s) ∧ fs_next s' = S (fs_next s) ∧ fresh s'
  | (Err _, s') => fs_open s' = fs_open s ∧ fs_next s' = fs_next s
  end.
Proof.
  intros Hf. unfold open. destruct (sql_Open _ (fs_disk s)) as [[e|] d]; [done|]. split_and!; [done..|].
  intros n Hn. cbn in *. rewrite lookup_insert_ne by lia. apply Hf. lia.
Qed.
Lemma close_closes h s : fs_open (close h s).2 = delete h.1 (fs_open s) ∧ fs_next (close h s).2 = fs_next s ∧
  ∃ e, (close h s).1 = Ok e.
Proof. unfold close. destruct (sql_Close h.2 (fs_disk s)) as [e d]. split_and!; [done..|by exists e]. Qed.
Lemma Close_closes db s : fs_open (Close db s).2 = delete (db_reader db).1 (delete (db_writer db).1 (fs_open s)).
Proof.
  unfold Close. unfold bindM at 1. destruct (close_closes (db_writer db) s) as (H1 & _ & e1 & H2).
  destruct (close (db_writer db) s) as [r1 s1]. cbn [fst snd] in *. subst r1. unfold bindM.
  destruct (close_closes (db_reader db) s1) as (H3 & _ & e2 & H4). destruct (close (db_reader db) s1) as [r2 s2].
  cbn [fst snd] in *. subst r2. destruct e1, e2; cbn; by rewrite H3, H1.
Qed.

(** What Open leaves open: nothing, or the writer and the readers. *)
Definition opened (path : string) (s s' : Files D) (r : result DB) : Prop :=
  match r with
  | Err _ => fs_open s' = fs_open s
  | Ok db =>
      db_path db = path ∧
      (db_writer db).2 = MkPool (dsn path "immediate" "FULL") 1 ∧ (db_reader db).2 = MkPool (dsn path "deferred" "NORMAL") 4 ∧
      (db_writer db).1 ≠ (db_reader db).1 ∧
      fs_open s' = <[(db_reader db).1 := (db_reader db).2]> (<[(db_writer db).1 := (db_writer db).2]> (fs_open s)) ∧
      fs_open s !! (db_writer db).1 = None ∧ fs_open s !! (db_reader db).1 = None
  end.
Lemma on_error_spec {A} (m : M (Files D) A) c s : on_error m c s =
  match m s with (Ok a, s') => (Ok a, s') | (Err e, s') => (Err e, (c s').2) end.
Proof. unfold on_error, bindM, tryM, ignoreM, retM, failM. by destruct (m s) as [[a|e] s']. Qed.
Lemma Open_opened entries path s : fresh s → opened path s (Open entries path s).2 (Open entries path s).1.
Proof.
  intros Hf. set (P := λ out : result DB * Files D, opened path s out.2 out.1). change (P (Open entries path s)).
  unfold Open. unfold bindM at 1.
  pose proof (open_opens path "immediate" "FULL" 1 s Hf) as Hw.
  destruct (open path "immediate" "FULL" 1 s) as [[w|e] s1]; [|exact (proj1 Hw)].
  destruct Hw as (-> & Ho1 & Hn1 & Hf1). set (pw := MkPool (dsn path "immediate" "FULL") 1) in *.
  assert (fs_open s !! fs_next s = None) as Hfresh by (by apply Hf).
  unfold bindM at 1. rewrite on_error_spec. destruct (still_migrate entries (fs_next s, pw) s1) as [Hm1 Hm2].
  destruct (migrate entries (fs_next s, pw) s1) as [[[]|e] s2]; cbn [snd] in Hm1, Hm2.
  2: { unfold P. cbn [fst snd opened ignoreM]. destruct (close_closes (fs_next s, pw) s2) as (Hc & _ & _).
       rewrite Hc, Hm1, Ho1. by rewrite delete_insert_id. }
  assert (fresh s2) as Hf2 by (intros n Hn; rewrite Hm1; apply Hf1; lia).
  unfold bindM at 1. rewrite on_error_spec. pose proof (open_opens path "deferred" "NORMAL" 4 s2 Hf2) as Hr.
  destruct (open path "deferred" "NORMAL" 4 s2) as [[r|e] s3].
  2: { destruct Hr as [Ho3 _]. unfold P. cbn [fst snd opened ignoreM]. destruct (close_closes (fs_next s, pw) s3) as (Hc & _ & _).
       rewrite Hc, Ho3, Hm1, Ho1. by rewrite delete_insert_id. }
  destruct Hr as (-> & Ho3 & Hn3 & Hf3). set (pr := MkPool (dsn path "deferred" "NORMAL") 4) in *.
  assert (fs_next s2 = S (fs_next s)) as Hn2 by congruence.
  assert (fs_open s !! fs_next s2 = None) as Hfresh2 by (apply Hf; lia).
  assert (fs_next s ≠ fs_next s2) as Hne by lia.
  set (db := MkDB (fs_next s, pw) (fs_next s2, pr) path). unfold bindM at 1. rewrite on_error_spec.
  destruct (still_Ping db s3) as [Hp _]. destruct (Ping db s3) as [[[]|e] s4]; cbn [snd] in Hp; unfold P; cbn [fst snd opened retM].
  - split_and!; try done. by rewrite Hp, Ho3, Hm1, Ho1.
  - rewrite Close_closes. cbn [db db_reader db_writer fst]. rewrite Hp, Ho3, Hm1, Ho1.
    rewrite (delete_insert_ne _ (fs_next s)) by done. rewrite (delete_insert_id (fs_open s)) by done.
    by rewrite delete_insert_id.
Qed.
Lemma Backup_closes db dest s : fresh s → fs_open (Backup db dest s).2 = fs_open s.
Proof.
  intros Hf. unfold Backup. unfold bindM at 1. pose proof (open_opens (db_path db) "deferred" "NORMAL" 1 s Hf) as Ho.
  destruct (open (db_path db) "deferred" "NORMAL" 1 s) as [[conn|e] s1]; [|exact (proj1 Ho)].
  destruct Ho as (-> & Ho1 & _ & _).
  assert (still (tryM (e <- lib (sql_Vacuum (fs_next s, MkPool (dsn (db_path db) "deferred" "NORMAL") 1).2 dest) ;; failing e))) as Hv.
  { apply still_try, still_bind; [apply still_lib|apply still_failing]. }
  specialize (Hv s1). unfold bindM at 1. destruct (tryM _ s1) as [[r|e] s2] eqn:Ht; cbn [snd] in Hv.
  - destruct Hv as [Hv _]. unfold bindM, ignoreM, liftR. cbn [snd].
    destruct (close_closes (fs_next s, MkPool (dsn (db_path db) "deferred" "NORMAL") 1) s2) as (-> & _ & _).
    rewrite Hv, Ho1. apply delete_insert_id. by apply Hf.
  - exfalso. unfold tryM in Ht. by destruct (bindM _ _ s1).
Qed.

(** C40: Open leaves no pool of connections behind when it fails, at whatever
    step, and when it succeeds exactly the two it returns, a writer of one
    connection that begins its transactions at once and is synced in full and
    four readers; Close gives both back even if it reports errors, and a
    Backup its own. A database whose schema is newer than the binary's is not
    migrated and not read any further: its version is looked up and the pool
    closed. *)
Theorem open_guarded entries path s : fresh s →
  let w := MkPool (dsn path "immediate" "FULL") 1 in
  let '(r, s') := Open entries path s in
  opened path s s' r ∧
  (∀ db s2, r = Ok db → fs_open s2 = fs_open s' → fs_open (Close db s2).2 = fs_open s) ∧
  (∀ db dest s2, r = Ok db → fresh s2 → fs_open (Backup db dest s2).2 = fs_open s2) ∧
  (∀ d0 d1 v max, sql_Open w (fs_disk s) = (None, d0) → goose_Version w d0 = (inr v, d1) →
     maxMigrationVersion entries = Ok max → max < v → (∃ e, r = Err e) ∧ fs_disk s' = (sql_Close w d1).2).
Proof.
  intros Hf w. pose proof (Open_opened entries path s Hf) as Ho. destruct (Open entries path s) as [r s'] eqn:He.
  cbn [fst snd] in Ho. split; [done|]. split; [|split].
  - intros db s2 -> H2. rewrite Close_closes, H2. destruct Ho as (_ & _ & _ & Hne & -> & Hw & Hr).
    rewrite (delete_insert_ne _ (db_writer db).1) by done. rewrite (delete_insert_id (fs_open s)) by done.
    by rewrite delete_insert_id.
  - intros db dest s2 _. apply Backup_closes.
  - intros d0 d1 v max Hop Hver Hmax Hlt. unfold Open in He. unfold bindM at 1, open at 1 in He.
    fold w in He. rewrite Hop in He. unfold bindM at 1 in He. rewrite on_error_spec in He.
    unfold migrate in He. unfold bindM, liftR in He. rewrite Hmax in He. cbn [snd fs_disk] in He. rewrite Hver in He.
    rewrite decide_True in He by done. unfold failM, ignoreM, close in He. cbn [snd fs_disk] in He.
    destruct (sql_Close w d1) as [ce d2]. injection He as <- <-. split; [by eexists|done].
Qed.
End facts.

(** ** A file with a schema version *)

#[local] Instance versioned : Sql Z := {|
  sql_Open _ d := (None, d); sql_Ping _ d := (None, d); sql_Close _ d := (None, d); sql_Begin _ _ d := (None, d);
  sql_Commit _ d := (None, d); sql_Rollback _ d := (None, d); sql_Vacuum _ _ d := (None, d);
  goose_Version _ d := (inr d, d); goose_Up _ _ := (None, 4) |}.
Definition on_disk (version : Z) : Files Z := MkFiles ∅ 0 version.
Definition is_ok {A} (r : result A) : bool := match r with Ok _ => true | Err _ => false end.
(** An old database is migrated and opened, a newer one stays as it is. *)
Lemma open_guarded_witness :
  maxMigrationVersion migrations = Ok 4 ∧
  is_ok (Open migrations "fleet.db" (on_disk 2)).1 = true ∧ fs_disk (Open migrations "fleet.db" (on_disk 2)).2 = 4 ∧
  opened "fleet.db" (on_disk 7) (Open migrations "fleet.db" (on_disk 7)).2 (Open migrations "fleet.db" (on_disk 7)).1 ∧
  fs_disk (Open migrations "fleet.db" (on_disk 7)).2 = 7.
Proof.
  split; [by vm_compute|]. split; [by vm_compute|]. split; [by vm_compute|].
  pose proof (open_guarded migrations "fleet.db" (on_disk 7) ltac:(done)) as Ho. cbv zeta in Ho.
  destruct (Open migrations "fleet.db" (on_disk 7)) as [r s']. destruct Ho as (Ho & _ & _ & Hv).
  split; [exact Ho|]. by apply (Hv 7 7 7 4).
Defined.
