(* ===== verification/Contract.v ===== *)
(** * What the kernel asks of the clouds

    The contract between the operation engine and the drivers, as an interface:
    what an [Apply] may add, what its errors promise, and what the search by op
    label (docs: the verification of creates) must not miss. The kernel's claim
    that a create is carried out at most once ([Once.v]) is proved against it;
    the drivers' files discharge it. *)

From stdpp Require Import base gmap strings list.
From S2P Require Import Prelude Errors Json SDK Types Store Provision Spec Abs.

(** Where a driver is reached: the instance and the resource kind. *)
Definition address : Type := string * string.

(** What [Prepare] makes of the one action a driver plans. *)
Definition stamp (op : string) (a : Action) : Action :=
  MkAction op (ac_Kind a) (ac_ResourceID a) (ac_Ref a) (ac_Params a) (ac_Destructive a).

(** The actions the kernel makes itself. *)
Definition follow_up (a : Action) : Prop :=
  ac_Kind a ∈ ["stop"%string; "start"%string; "delete"%string].

(** The search a create of unknown outcome is resolved with. *)
Definition search (op : string) : DiscoverRequest := MkDiscover ScopeOwned {[ LabelOp := op ]}.

Section contract.
Context {P : Type} `{Providers P}.

Definition driver_at (x : address) : option (ResourceDriver P) :=
  Instance_ x.1 ≫= λ p, pv_ResourceDriver p x.2.
Definition searchable (x : address) : Prop :=
  ∃ p, Instance_ x.1 = Some p ∧ de_SupportsLabelDiscovery (pv_Descriptor p) = true.

(** The action of a create at [x] for operation [op] of the installation
    [owner]: planned for a request under the identity labels. *)
Definition planned (owner : string) (x : address) (op : string) (a : Action) : Prop :=
  ∃ d res name spec labels a0, driver_at x = Some d ∧ IdentityLabels owner res op ⊆ labels ∧
    Plan d (MkPlanReq res (Some (MkDesired name spec labels)) None) = Ok [a0] ∧ a = stamp op a0.

(** A call that only reads. *)
Inductive read_call (d : ResourceDriver P) : (P → P) → Prop :=
| RC_discover rq : read_call d (λ p, (Discover d rq p).2)
| RC_get ref : read_call d (λ p, (Get d ref p).2)
| RC_observe op : read_call d (λ p, (ObserveOperation d op p).2).

(** The clouds as the kernel can know them: how many machines of the
    installation live at an address under an op label, whether a listing by
    that label shows all of them, which states occur, and what the clouds do
    on their own. *)
Class Cloud := {
  machines : P → address → string → nat;
  complete : P → address → string → Prop;
  sane : P → Prop;
  drifts : P → P → Prop
}.

Definition fewer `{Cloud} (p p' : P) : Prop := ∀ y j, (machines p' y j ≤ machines p y j)%nat.

Class HonestClouds (owner : string) `{Cloud} : Prop := {
  drift_ok p p' : sane p → drifts p p' → sane p' ∧ fewer p p';
  read_ok x d f p : driver_at x = Some d → read_call d f → sane p → sane (f p) ∧ fewer p (f p);
  follow_up_ok x d a p : driver_at x = Some d → follow_up a → sane p →
    sane (Apply d a p).2 ∧ fewer p (Apply d a p).2;
  (* a create adds at most one machine, the one it is for *)
  create_ok x d op a p : driver_at x = Some d → planned owner x op a → sane p →
    sane (Apply d a p).2 ∧
    (∀ y j, machines (Apply d a p).2 y j ≤
       machines p y j + (if decide ((y, j) = (x, op)) then 1 else 0))%nat;
  (* an error that says nothing happened is true *)
  no_effect_ok x d op a p e : driver_at x = Some d → planned owner x op a → sane p →
    (Apply d a p).1 = Err e → Effect e = EffectNone → fewer p (Apply d a p).2;
  (* a search that finds nothing is true, once listings are complete *)
  search_ok x d op p : driver_at x = Some d → searchable x → sane p → complete p x op →
    (Discover d (search op) p).1 = Ok [] → machines (Discover d (search op) p).2 x op = 0%nat
}.
End contract.
Arguments Cloud P : clear implicits.

Section prepared.
Context `{ULID} {P : Type} `{Providers P}.

Lemma identity_labels owner res op class :
  IdentityLabels owner res op ⊆
    (if decide (class = ""%string) then IdentityLabels owner res op
     else <[LabelClass := class]> (IdentityLabels owner res op)).
Proof.
  case_decide; [done|]. apply insert_subseteq. unfold IdentityLabels.
  by rewrite !lookup_insert_ne, lookup_singleton_ne by done.
Qed.

(** What [Prepare] hands over is a planned create, for the address of its
    record. *)
Lemma Prepare_planned owner cs t w p w' : Prepare owner cs t w = (Ok p, w') →
  ∃ a, o_Action (Prepared_Op p) = JVal a ∧
    planned owner (o_Provider (Prepared_Op p), r_Kind (Prepared_Resource p)) (o_ID (Prepared_Op p)) a.
Proof.
  unfold Prepare. destruct (Instance_ (cs_Provider cs)) as [inst|] eqn:Hi; [|done].
  destruct (pv_ResourceDriver inst (cs_Kind cs)) as [d|] eqn:Hd; [|done]. intros Hp.
  apply bindM_Ok in Hp as (rid & w1 & _ & Hp). apply bindM_Ok in Hp as (oid & w2 & _ & Hp).
  cbv zeta in Hp. apply bindM_Ok in Hp as (acts & w3 & Ha & Hp). apply liftR_ok in Ha as [Ha _].
  destruct acts as [|a0 [|]]; [done| |done]. apply ret_ok in Hp as [-> _]. simpl.
  eexists. split; [done|]. eexists d, rid, _, _, _, a0. split_and!; [|apply identity_labels|exact Ha|done].
  unfold driver_at. simpl. by rewrite Hi.
Qed.
End prepared.

(** What the identity labels say, under any more labels. *)
Lemma identity_says owner res op labels : IdentityLabels owner res op ⊆ labels →
  labels !! LabelOp = Some op ∧ labels !! LabelManaged = Some "true"%string ∧ labels !! LabelOwner = Some owner.
Proof.
  intros Hl. split_and!; (eapply lookup_weaken; [|exact Hl]); unfold IdentityLabels;
    by rewrite ?lookup_insert_ne, ?lookup_insert_eq, ?lookup_singleton_eq by done.
Qed.

(** ** Counting rows of a table *)

Definition count `{Countable K} {A} (Q : A → bool) (m : gmap K A) : nat :=
  size (dom (filter (λ kx : K * A, Q kx.2 = true) m)).

Section counting.
Context `{Countable K} {A : Type}.
Implicit Types (m : gmap K A) (Q : A → bool).

Lemma elem_of_counted Q m k :
  k ∈ dom (filter (λ kx : K * A, Q kx.2 = true) m) ↔ ∃ x, m !! k = Some x ∧ Q x = true.
Proof.
  rewrite elem_of_dom. split.
  - intros [x [Hx HQ]%map_lookup_filter_Some]. by exists x.
  - intros (x & Hx & HQ). exists x. by apply map_lookup_filter_Some.
Qed.

(** Every counted row of [m'] was a counted row of [m]. *)
Lemma count_sub Q m m' :
  (∀ k x', m' !! k = Some x' → Q x' = true → ∃ x, m !! k = Some x ∧ Q x = true) →
  (count Q m' ≤ count Q m)%nat.
Proof.
  intros Hs. apply subseteq_size. intros k. rewrite !elem_of_counted. intros (x' & Hx' & HQ). by eapply Hs.
Qed.
(** All but one. *)
Lemma count_add Q m m' k0 :
  (∀ k x', k ≠ k0 → m' !! k = Some x' → Q x' = true → ∃ x, m !! k = Some x ∧ Q x = true) →
  (count Q m' ≤ count Q m + 1)%nat.
Proof.
  intros Hs. unfold count. set (D := dom _). set (D0 := dom (filter _ m)).
  assert (D ⊆ {[ k0 ]} ∪ D0) as Hsub.
  { intros k Hk. apply elem_of_union. destruct (decide (k = k0)) as [->|Hne]; [left; set_solver|right].
    apply elem_of_counted in Hk as (x' & Hx' & HQ). apply elem_of_counted. by eapply Hs. }
  apply subseteq_size in Hsub. pose proof (size_union_alt {[ k0 ]} D0) as Hu.
  assert (size (D0 ∖ {[ k0 ]}) ≤ size D0)%nat by (apply subseteq_size; set_solver).
  rewrite size_singleton in Hu. lia.
Qed.
Lemma count_zero Q m : (∀ k x, m !! k = Some x → Q x = false) → count Q m = 0%nat.
Proof.
  intros Hz. unfold count. apply size_empty_iff. intros k. split; [|set_solver].
  rewrite elem_of_counted. intros (x & Hx & HQ). by rewrite (Hz _ _ Hx) in HQ.
Qed.
Lemma count_insert Q m k x : Q x = false → (count Q (<[k := x]> m) ≤ count Q m)%nat.
Proof.
  intros Hx. apply count_sub. intros j y. rewrite lookup_insert_Some.
  intros [[<- <-]|[_ Hy]] HQ; [congruence|by exists y].
Qed.
Lemma count_le_1 Q m k1 k2 x1 x2 : (count Q m ≤ 1)%nat →
  m !! k1 = Some x1 → m !! k2 = Some x2 → Q x1 = true → Q x2 = true → k1 = k2.
Proof.
  intros Hle H1 H2 Q1 Q2. destruct (decide (k1 = k2)) as [|Hne]; [done|].
  assert (({[ k1; k2 ]} : gset K) ⊆ dom (filter (λ kx : K * A, Q kx.2 = true) m)) as Hsub.
  { intros k Hk. apply elem_of_counted. apply elem_of_union in Hk as [->%elem_of_singleton| ->%elem_of_singleton]; eauto. }
  apply subseteq_size in Hsub. rewrite size_union, !size_singleton in Hsub by set_solver. unfold count in Hle. lia.
Qed.
Lemma count_pos Q m k x : m !! k = Some x → Q x = true → (0 < count Q m)%nat.
Proof.
  intros Hk Hq. destruct (decide (count Q m = 0%nat)) as [Hz|]; [|lia]. exfalso.
  apply size_empty_inv in Hz. apply (not_elem_of_empty (C := gset K) k), Hz, elem_of_counted. eauto.
Qed.
End counting.
