(* ===== verification/Calls.v ===== *)
(** * What a driver does to the outside world

    A driver reaches the world through the calls of its client library and the
    pacer's gate. A relation [R] kept by those calls is kept by the driver's
    operations; an operation that ends in one call that matters is described
    by what its result says of the worlds before and after ([outcome]). *)

From stdpp Require Import base gmap strings list.
From S2P Require Import Prelude Errors SDK Pacer Cloud.

Section calls.
Context {W C : Type} `{Ambient W}.
Implicit Types (R : W → W → Prop).

Definition outcome {A} (Q : result A → W → W → Prop) (m : M (Link W C) A) : Prop :=
  ∀ s, Q (m s).1 (ln_world s) (ln_world (m s).2).
(** Whatever the result. *)
Definition leads R {A} (m : M (Link W C) A) : Prop := outcome (λ _, R) m.
(** A call of the library. *)
Definition called R {E A} (c : call W E A) : Prop := ∀ w, R w (c w).2.

(** What a result says may be put off past steps of [R], and an error before
    anything else promises no more than [R]. *)
Record after R {A} (Q : result A → W → W → Prop) : Prop := {
  af_past r w1 w2 w3 : R w1 w2 → Q r w2 w3 → Q r w1 w3;
  af_then r w1 w2 w3 : Q r w1 w2 → R w2 w3 → Q r w1 w3;
  af_error e w w' : R w w' → Q (Err e) w w'
}.

Lemma leads_after R {A} : PreOrder R → after R (A := A) (λ _, R).
Proof. intros HR. split; [intros; by etrans|intros; by etrans|done]. Qed.

Section rel.
Context (R : W → W → Prop) `{HR : !PreOrder R}.

Lemma outcome_conseq {A} (Q Q' : result A → W → W → Prop) m :
  outcome Q m → (∀ r w w', Q r w w' → Q' r w w') → outcome Q' m.
Proof. intros Hm Hq s. apply Hq, Hm. Qed.

Lemma leads_ret {A} (a : A) : leads R (retM a).
Proof. intros s. simpl. reflexivity. Qed.
Lemma leads_fail {A} e : leads R (failM (A := A) e).
Proof. intros s. simpl. reflexivity. Qed.
Lemma leads_liftR {A} (r : result A) : leads R (liftR r).
Proof. intros s. simpl. reflexivity. Qed.

Lemma outcome_bind {A B} (Q : result B → W → W → Prop) (m : M (Link W C) A) k :
  after R Q → leads R m → (∀ a, outcome Q (k a)) → outcome Q (bindM m k).
Proof.
  intros HQ Hm Hk s. unfold bindM. specialize (Hm s). destruct (m s) as [[a|e] s1]; simpl in *.
  - by apply (af_past _ _ HQ _ _ _ _ Hm), Hk.
  - by apply (af_error _ _ HQ).
Qed.
Lemma leads_bind {A B} (m : M (Link W C) A) (k : A → M (Link W C) B) :
  leads R m → (∀ a, leads R (k a)) → leads R (bindM m k).
Proof. apply outcome_bind, leads_after, HR. Qed.
Lemma leads_try {A} (m : M (Link W C) A) : leads R m → leads R (tryM m).
Proof. intros Hm s. unfold tryM. specialize (Hm s). by destruct (m s) as [r s1]. Qed.
Lemma leads_ignore {A} (m : M (Link W C) A) : leads R m → leads R (ignoreM m).
Proof. intros Hm s. apply (Hm s). Qed.

Lemma outcome_error {A} (Q : result A → W → W → Prop) (m : M (Link W C) A) :
  after R Q → (∀ s, ∃ e, (m s).1 = Err e) → leads R m → outcome Q m.
Proof. intros HQ He Hm s. destruct (He s) as [e ->]. by apply (af_error _ _ HQ), Hm. Qed.

Lemma observe_rate_world resp (s : Link W C) : ln_world (observe_rate resp s) = ln_world s.
Proof. unfold observe_rate. destruct resp; [|done]. by case_decide. Qed.
Lemma throttled_world (s : Link W C) : ln_world (throttled s).2 = ln_world s.
Proof. unfold throttled. by destruct (On429 _ _ _). Qed.

Lemma leads_attempt {E A} (c : call W E A) : called R c → leads R (attempt c).
Proof. intros Hc s. unfold attempt. specialize (Hc (ln_world s)). by destruct (c _) as [[[f|a] resp] w]. Qed.

(** The slot taken is given back; a closed gate answers with an error. *)
Hypothesis gate_R : ∀ w, R w (gate w).2.

Lemma outcome_paced {A} (Q : result A → W → W → Prop) refuse (m : M (Link W C) A) :
  after R Q → outcome Q m → outcome Q (paced refuse m).
Proof.
  intros HQ Hm s. unfold paced. specialize (gate_R (ln_world s)).
  destruct (gate (ln_world s)) as [[[wall slot] wait] w]; simpl in gate_R.
  destruct (Acquire wall slot wait (ln_pacer s)) as [[[]|e] p]; [|by apply (af_error _ _ HQ)].
  specialize (Hm (MkLink w p (ln_cache s))). destruct (m _) as [r s']. simpl in *.
  by apply (af_past _ _ HQ _ _ w).
Qed.
Lemma leads_paced {A} refuse (m : M (Link W C) A) : leads R m → leads R (paced refuse m).
Proof. apply outcome_paced, leads_after, HR. Qed.
End rel.
End calls.

#[export] Hint Resolve leads_ret leads_fail leads_liftR : calls.

(** Descends through the binds, gates and branches of an operation; what is
    left are the calls. *)
Ltac leads_step := lazymatch goal with
  | |- leads _ (retM _) => eapply leads_ret; apply _
  | |- leads _ (failM _) => eapply leads_fail; apply _
  | |- leads _ (liftR _) => eapply leads_liftR; apply _
  | |- leads _ (bindM _ _) => eapply leads_bind; [apply _| |intros ?]
  | |- leads _ (tryM _) => eapply leads_try
  | |- leads _ (ignoreM _) => eapply leads_ignore
  | |- leads _ (paced _ _) => eapply leads_paced; [apply _|assumption|]
  | |- leads _ (match ?x with _ => _ end) => destruct x eqn:?
  end.
Ltac leads := repeat leads_step.

(** ** What an operation returns *)

Definition returns {S A} (Q : A → Prop) (m : M S A) : Prop := ∀ s a, (m s).1 = Ok a → Q a.

Section returns.
Context {S : Type}.

Lemma returns_ret {A} (Q : A → Prop) a : Q a → returns (S := S) Q (retM a).
Proof. by intros HQ s b [= <-]. Qed.
Lemma returns_fail {A} (Q : A → Prop) e : returns (S := S) Q (failM e).
Proof. by intros s a. Qed.
Lemma returns_liftR {A} (Q : A → Prop) r : (∀ a, r = Ok a → Q a) → returns (S := S) Q (liftR r).
Proof. intros HQ s a. apply HQ. Qed.
Lemma returns_bind_of {A B} (P : A → Prop) (Q : B → Prop) (m : M S A) k :
  returns P m → (∀ a, P a → returns Q (k a)) → returns Q (bindM m k).
Proof.
  intros Hm Hk s b. unfold bindM. specialize (Hm s). destruct (m s) as [[a|e] s1]; simpl; [|done].
  apply Hk. by apply Hm.
Qed.
Lemma returns_bind {A B} (Q : B → Prop) (m : M S A) k : (∀ a, returns Q (k a)) → returns Q (bindM m k).
Proof. intros Hk. by apply (returns_bind_of (λ _, True)). Qed.
Lemma returns_conseq {A} (P Q : A → Prop) (m : M S A) : returns P m → (∀ a, P a → Q a) → returns Q m.
Proof. intros Hm HPQ s a Ha. apply HPQ. by eapply Hm. Qed.
(** The values themselves: those [m] can return. *)
Lemma returns_self {A} (m : M S A) : returns (λ a, ∃ s, (m s).1 = Ok a) m.
Proof. intros s a Ha. by exists s. Qed.
Lemma returns_paced {W C A} `{Ambient W} (Q : A → Prop) refuse (m : M (Link W C) A) :
  returns Q m → returns Q (paced refuse m).
Proof.
  intros Hm s a. unfold paced. destruct (gate (ln_world s)) as [[[wall slot] wait] w].
  destruct (Acquire wall slot wait (ln_pacer s)) as [[[]|e] p]; [|done].
  specialize (Hm (MkLink w p (ln_cache s))). destruct (m _). simpl. apply Hm.
Qed.
End returns.

Ltac returns_step := lazymatch goal with
  | |- returns _ (retM _) => apply returns_ret
  | |- returns _ (failM _) => apply returns_fail
  | |- returns _ (liftR (Err _)) => apply returns_liftR; discriminate
  | |- returns _ (bindM _ _) => apply returns_bind; intros ?
  | |- returns _ (paced _ _) => apply returns_paced
  | |- returns _ (match ?x with _ => _ end) => destruct x eqn:?
  end.
Ltac returns := repeat returns_step.

(** ** What an operation ends in: a value and a state *)

Definition ends {S A} (Q : A → S → Prop) (m : M S A) (s : S) : Prop := ∀ a s', m s = (Ok a, s') → Q a s'.

Section ends.
Context {S : Type}.

Lemma ends_ret {A} (Q : A → S → Prop) a s : Q a s → ends Q (retM a) s.
Proof. by intros HQ b s' [= <- <-]. Qed.
Lemma ends_fail {A} (Q : A → S → Prop) e s : ends Q (failM e) s.
Proof. by intros a s'. Qed.
Lemma ends_bind {A B} (Q : B → S → Prop) (m : M S A) k s :
  (∀ a s1, m s = (Ok a, s1) → ends Q (k a) s1) → ends Q (bindM m k) s.
Proof.
  intros Hk b s'. unfold bindM. destruct (m s) as [[a|e] s1] eqn:Hm; [|done]. by apply Hk.
Qed.
Lemma returned {A} (P : A → Prop) (m : M S A) s a s' : returns P m → m s = (Ok a, s') → P a.
Proof. intros Hm He. apply (Hm s). by rewrite He. Qed.
End ends.

Ltac ends_step := lazymatch goal with
  | |- ends _ (retM _) _ => apply ends_ret
  | |- ends _ (failM _) _ => apply ends_fail
  | |- ends _ (bindM _ _) _ => apply ends_bind; intros ???
  | |- ends _ (match ?x with _ => _ end) _ => destruct x eqn:?
  end.
Ltac ends := repeat ends_step.
