(* ===== verification/DriverReads.v ===== *)
(** * What the drivers leave alone

    Reading a cloud changes nothing there, and a stop, start or delete makes
    no changing call but the one on the machine its reference names: whatever
    relation the library's reading calls keep (and that one call, where there
    is one), the driver's operation keeps. One section per driver; Docker is
    apart, whose observation of a create starts a container left unstarted. *)

From stdpp Require Import base gmap strings list.
From S2P Require Import Prelude Errors Json SDK Text Pacer Cloud Calls Contract.
From S2P Require Hetzner Droplets Ec2 ComputeEngine Docker.

Lemma follow_up_no_create a : follow_up a → mem (ac_Kind a) ["create"%string] = false.
Proof.
  intros Ha. apply bool_decide_eq_false. intros Hk%list_elem_of_singleton. unfold follow_up in Ha. rewrite Hk in Ha. set_solver.
Qed.

Section with_pacer.
Context {W : Type} `{Ambient W} (R : W → W → Prop) `{!PreOrder R}.

(** ** Hetzner Cloud *)

Section hetzner.
Context `{Hetzner.Hcloud W} (h : Hetzner.Hetzner).
Import Hetzner.

Record Hetzner_reads : Prop := {
  hr_gate w : R w (gate w).2;
  hr_locations : called R Location_List;
  hr_list sel : called R (Server_AllWithOpts sel);
  hr_get i : called R (Server_GetByID i);
  hr_action i : called R (Action_GetByID i);
  hr_type n : called R (ServerType_GetByName n);
  hr_image i : called R (Image_GetByID i);
  hr_images o : called R (Image_AllWithOpts o)
}.

Lemma Hetzner_mapErr_world f e (s : Link W unit) : ln_world (mapErr h f e s).2 = ln_world s.
Proof.
  unfold mapErr. destruct (hcloudAs f) as [v|]; [|done].
  pose proof (throttled_world s) as Ht. destruct (he_Code v); try done; by destruct (throttled s).
Qed.
Lemma Hetzner_api_leads {A} (c : call W hError A) e : called R c → leads R (api h c e).
Proof.
  intros Hc s. unfold api. specialize (Hc (ln_world s)). destruct (c _) as [[[f|a] resp] w]; simpl in *.
  - pose proof (Hetzner_mapErr_world f e (observeResp resp (MkLink w (ln_pacer s) (ln_cache s)))) as Hw.
    destruct (mapErr _ _ _ _). simpl in *. rewrite Hw. unfold observeResp. by rewrite observe_rate_world.
  - unfold observeResp. by rewrite observe_rate_world.
Qed.
Lemma Hetzner_listing_leads {A} (c : call W hError A) : called R c → leads R (listing h c).
Proof.
  intros Hc s. unfold listing. specialize (Hc (ln_world s)). destruct (c _) as [[[f|a] resp] w]; simpl in *; [|done].
  pose proof (Hetzner_mapErr_world f EffectNone (MkLink w (ln_pacer s) (ln_cache s))) as Hw.
  destruct (mapErr _ _ _ _). simpl in *. by rewrite Hw.
Qed.

Context (Hr : Hetzner_reads).
Let gate_ok := hr_gate Hr.
Hint Resolve Hetzner_api_leads Hetzner_listing_leads hr_locations hr_list hr_get hr_action hr_type hr_image hr_images : core.

Lemma Hetzner_Discover_leads rq : leads R (Hetzner_Discover h rq).
Proof. unfold Hetzner_Discover. leads. auto. Qed.
Lemma Hetzner_Get_leads ref : leads R (Hetzner_Get h ref).
Proof. unfold Hetzner_Get. leads. auto. Qed.
Lemma Hetzner_pollActions_leads ref l : leads R (pollActions h ref l).
Proof. induction l; simpl; leads; auto. Qed.
Lemma Hetzner_Observe_leads op : leads R (Hetzner_ObserveOperation h op).
Proof. unfold Hetzner_ObserveOperation. leads; auto using Hetzner_pollActions_leads, Hetzner_Get_leads. Qed.
Lemma Hetzner_read_leads f : read_call (machines h) f → ∀ s, R (ln_world s) (ln_world (f s)).
Proof. intros []; simpl; [apply Hetzner_Discover_leads|apply Hetzner_Get_leads|apply Hetzner_Observe_leads]. Qed.

Lemma Hetzner_serverType_leads n : leads R (serverType h n).
Proof. unfold serverType. leads. auto. Qed.
Lemma Hetzner_image_leads spec arch : leads R (image h spec arch).
Proof. unfold image, imageNotFound. leads; auto. Qed.

Lemma Hetzner_delete_leads a ref sid : ac_Ref a = Some ref → ParseInt (ref_ID ref) = Some sid →
  (∀ w srv, (Server_GetByID sid w).1.1 = inr (Some srv) → called R (Server_DeleteWithResult srv)) →
  leads R (applyDelete h a).
Proof.
  intros Href Hid Hdel. unfold applyDelete. rewrite Href, Hid. apply leads_paced; [assumption..|].
  intros s. unfold bindM. pose proof (Hetzner_api_leads (Server_GetByID sid) EffectNone (hr_get Hr sid) s) as Hg.
  destruct (api h (Server_GetByID sid) EffectNone s) as [[[srv|]|e] s1] eqn:E; simpl in Hg; [|done|done].
  assert (called R (Server_DeleteWithResult srv)) as Hd.
  { apply (Hdel (ln_world s)). unfold api in E. destruct (Server_GetByID sid _) as [[[f|o] resp] w]; simpl.
    - by destruct (mapErr _ _ _ _).
    - by simplify_eq. }
  etrans; [exact Hg|]. apply (leads_bind R); [by apply Hetzner_api_leads|]. intros. by apply leads_ret.
Qed.

(** The other actions the kernel makes are refused. *)
Lemma Hetzner_follow_leads a : follow_up a →
  (∀ ref sid, ac_Kind a = "delete"%string → ac_Ref a = Some ref → ParseInt (ref_ID ref) = Some sid →
     ∀ w srv, (Server_GetByID sid w).1.1 = inr (Some srv) → called R (Server_DeleteWithResult srv)) →
  leads R (Hetzner_Apply h a).
Proof.
  intros Ha Hdel. unfold Hetzner_Apply. rewrite (follow_up_no_create a Ha).
  destruct (mem (ac_Kind a) _) eqn:Hk; [|leads]. apply mem_true, list_elem_of_singleton in Hk.
  destruct (ac_Ref a) as [ref|] eqn:Hf; [|unfold applyDelete; rewrite Hf; leads].
  destruct (ParseInt (ref_ID ref)) as [sid|] eqn:Hi; [|unfold applyDelete; rewrite Hf, Hi; leads].
  by apply (Hetzner_delete_leads a ref sid Hf Hi), (Hdel ref sid).
Qed.
End hetzner.

(** ** DigitalOcean *)

Section droplets.
Context `{Droplets.Godo W} (d : Droplets.DigitalOcean) (fuel : nat).
Import Droplets.

Record Droplets_reads : Prop := {
  dor_gate w : R w (gate w).2;
  dor_regions : called R Regions_List;
  dor_list n : called R (Droplets_List n);
  dor_tag t n : called R (Droplets_ListByTag t n);
  dor_get i : called R (Droplets_Get i);
  dor_images n : called R (Images_ListUser n)
}.

Lemma Droplets_mapErr_world f e (s : Link W unit) : ln_world (mapErr d f e s).2 = ln_world s.
Proof.
  unfold mapErr. destruct (asGodoErr f) as [v|]; [|done]. destruct (ge_StatusCode v); [|done].
  pose proof (throttled_world s) as Ht. repeat case_decide; try done; by destruct (throttled s).
Qed.
Lemma Droplets_api_leads {A} (c : call W gError A) e : called R c → leads R (api d c e).
Proof.
  intros Hc s. unfold api. specialize (Hc (ln_world s)). destruct (c _) as [[[f|a] resp] w]; simpl in *.
  - pose proof (Droplets_mapErr_world f e (observeResp resp (MkLink w (ln_pacer s) (ln_cache s)))) as Hw.
    destruct (mapErr _ _ _ _). simpl in *. rewrite Hw. unfold observeResp. by rewrite observe_rate_world.
  - unfold observeResp. by rewrite observe_rate_world.
Qed.

Context (Hr : Droplets_reads).
Let gate_ok := dor_gate Hr.
Hint Resolve Droplets_api_leads dor_regions dor_list dor_tag dor_get dor_images : core.

Lemma Droplets_fetchAll_leads {A} n (fetch : Z → call W gError (list A * bool)) page acc :
  (∀ p, called R (fetch p)) → leads R (fetchAll d n fetch page acc).
Proof. intros Hf. revert page acc. induction n; intros page acc; simpl; leads; auto. Qed.
Lemma Droplets_Discover_leads rq : leads R (Droplets_Discover d fuel rq).
Proof. unfold Droplets_Discover. leads. apply Droplets_fetchAll_leads. intros p. case_match; auto. Qed.
Lemma Droplets_Get_leads ref : leads R (Droplet_Get d ref).
Proof. unfold Droplet_Get. leads. auto. Qed.
Lemma Droplets_Observe_leads op : leads R (Droplets_ObserveOperation d op).
Proof. unfold Droplets_ObserveOperation. leads; auto using Droplets_Get_leads. Qed.
Lemma Droplets_read_leads f : read_call (machines d fuel) f → ∀ s, R (ln_world s) (ln_world (f s)).
Proof. intros []; simpl; [apply Droplets_Discover_leads|apply Droplets_Get_leads|apply Droplets_Observe_leads]. Qed.

Lemma Droplets_follow_leads a : follow_up a →
  (∀ ref did, ac_Kind a = "delete"%string → ac_Ref a = Some ref → ParseInt (ref_ID ref) = Some did →
     called R (Droplets_Delete did)) →
  leads R (Droplets_Apply d fuel a).
Proof.
  intros Ha Hdel. unfold Droplets_Apply. rewrite (follow_up_no_create a Ha).
  destruct (mem (ac_Kind a) _) eqn:Hk; [|leads]. apply mem_true, list_elem_of_singleton in Hk.
  unfold applyDelete. leads. eauto.
Qed.
End droplets.

(** ** AWS EC2 *)

Section ec2.
Context `{Ec2.EC2 W} (d : Ec2.AWS) (fuel : nat).
Import Ec2.

Record Ec2_reads : Prop := {
  er_gate w : R w (gate w).2;
  er_regions r : called R (DescribeRegions r);
  er_instances i : called R (DescribeInstances i);
  er_images i : called R (DescribeImages i);
  er_types t : called R (DescribeInstanceTypes t)
}.

Lemma Ec2_mapErr_world f e s : ln_world (mapErr d f e s).2 = ln_world s.
Proof.
  unfold mapErr. destruct (as_vendor f) as [v|]; [|done]. pose proof (throttled_world s) as Ht.
  repeat case_match; try done; simplify_eq; by destruct (throttled s); simplify_eq.
Qed.
Lemma Ec2_api_leads {A} (c : call W apiError A) e : called R c → leads R (api d c e).
Proof.
  intros Hc s. unfold api. specialize (Hc (ln_world s)). destruct (c _) as [[[f|a] resp] w]; simpl in *; [|done].
  pose proof (Ec2_mapErr_world f e (MkLink w (ln_pacer s) (ln_cache s))) as Hw.
  destruct (mapErr _ _ _ _). simpl in *. by rewrite Hw.
Qed.

Context (Hr : Ec2_reads).
Let gate_ok := er_gate Hr.
Hint Resolve Ec2_api_leads er_regions er_instances er_images er_types : core.

Lemma Ec2_capacity_leads t : leads R (capacity t).
Proof.
  intros s. unfold capacity. case_decide; [done|]. destruct (ln_cache s !! t); [done|].
  assert (leads R (paced id (C := gmap string (gmap string Z)) (attempt (DescribeInstanceTypes t)))) as Hl.
  { leads. apply leads_attempt. auto. }
  specialize (Hl s). destruct (paced _ _ _) as [r s1]. simpl in Hl. by repeat case_match; simplify_eq/=.
Qed.
Lemma Ec2_observe_leads i : leads R (observe d i).
Proof. unfold observe. leads. apply Ec2_capacity_leads. Qed.
Lemma Ec2_observeAll_leads l : leads R (observeAll d l).
Proof. induction l; simpl; leads; auto using Ec2_observe_leads. Qed.
Lemma Ec2_pages_leads n fs next acc : leads R (describePages d n fs next acc).
Proof. revert next acc. induction n; intros next acc; simpl; leads; auto. Qed.
Lemma Ec2_describeOne_leads i : leads R (describeOne d i).
Proof. unfold describeOne. leads. auto. Qed.
Lemma Ec2_Discover_leads rq : leads R (Ec2_Discover d fuel rq).
Proof. unfold Ec2_Discover, describeAll. leads; [apply Ec2_pages_leads|apply Ec2_observeAll_leads]. Qed.
Lemma Ec2_Get_leads ref : leads R (Ec2_Get d ref).
Proof. unfold Ec2_Get. leads; auto using Ec2_describeOne_leads, Ec2_observe_leads. Qed.
Lemma Ec2_Observe_leads op : leads R (Ec2_ObserveOperation d op).
Proof. unfold Ec2_ObserveOperation. leads; auto using Ec2_Get_leads. Qed.
Lemma Ec2_read_leads f : read_call (machines d fuel) f → ∀ s, R (ln_world s) (ln_world (f s)).
Proof. intros []; simpl; [apply Ec2_Discover_leads|apply Ec2_Get_leads|apply Ec2_Observe_leads]. Qed.

Lemma Ec2_follow_leads a : follow_up a →
  (∀ ref, ac_Ref a = Some ref →
     (ac_Kind a = "delete"%string → called R (TerminateInstances (ref_ID ref))) ∧
     (ac_Kind a = "stop"%string → called R (StopInstances (ref_ID ref))) ∧
     (ac_Kind a = "start"%string → called R (StartInstances (ref_ID ref)))) →
  leads R (Ec2_Apply d fuel a).
Proof.
  intros Ha Hcall. unfold Ec2_Apply. rewrite (follow_up_no_create a Ha).
  destruct (mem (ac_Kind a) ["delete"%string]) eqn:Hk.
  { apply mem_true, list_elem_of_singleton in Hk. unfold applyDelete. leads. apply Ec2_api_leads. by eapply Hcall. }
  clear Hk. destruct (mem (ac_Kind a) ["stop"; "start"]%string) eqn:Hk; [|leads].
  apply mem_true in Hk. unfold applyStopStart, instanceState. leads; auto using Ec2_describeOne_leads.
  - apply Ec2_api_leads. eapply Hcall; [done|]. by apply list_elem_of_singleton, mem_true.
  - apply Ec2_api_leads. eapply Hcall; [done|].
    match goal with Hm : mem _ ["stop"%string] = false |- _ => apply bool_decide_eq_false in Hm; set_solver end.
Qed.
End ec2.

(** ** Google Compute Engine *)

Section gce.
Context `{ComputeEngine.GCE W} (g : ComputeEngine.GCP) (fuel : nat).
Import ComputeEngine.

Record Gce_reads : Prop := {
  gr_gate w : R w (gate w).2;
  gr_zone p z : called R (Zones_Get p z);
  gr_all p f t : called R (Instances_AggregatedList p f t);
  gr_list p z f t : called R (Instances_List p z f t);
  gr_get p z n : called R (Instances_Get p z n);
  gr_op p z o : called R (ZoneOperations_Get p z o);
  gr_family p f : called R (Images_GetFromFamily p f);
  gr_image p n : called R (Images_Get p n);
  gr_images p t : called R (Images_List p t);
  gr_type p z t : called R (MachineTypes_Get p z t)
}.

Lemma Gce_mapErr_world f e s : ln_world (mapErr g f e s).2 = ln_world s.
Proof.
  unfold mapErr. destruct (as_vendor f) as [v|]; [|done]. pose proof (throttled_world s) as Ht.
  repeat case_match; try done; simplify_eq; by destruct (throttled s); simplify_eq.
Qed.
Lemma Gce_api_leads {A} (c : call W googleError A) e : called R c → leads R (api g c e).
Proof.
  intros Hc s. unfold api. specialize (Hc (ln_world s)). destruct (c _) as [[[f|a] resp] w]; simpl in *; [|done].
  pose proof (Gce_mapErr_world f e (MkLink w (ln_pacer s) (ln_cache s))) as Hw.
  destruct (mapErr _ _ _ _). simpl in *. by rewrite Hw.
Qed.

Context (Hr : Gce_reads).
Let gate_ok := gr_gate Hr.
Hint Resolve Gce_api_leads gr_zone gr_all gr_list gr_get gr_op gr_family gr_image gr_images gr_type : core.

Lemma Gce_capacity_leads z t : leads R (capacity g z t).
Proof.
  intros s. unfold capacity. case_decide; [done|]. destruct (ln_cache s !! _); [done|].
  assert (leads R (paced id (C := gmap string (gmap string Z)) (attempt (MachineTypes_Get (g_project g) z t)))) as Hl.
  { leads. apply leads_attempt. auto. }
  specialize (Hl s). destruct (paced _ _ _) as [r s1]. simpl in Hl. by repeat case_match; simplify_eq/=.
Qed.
Lemma Gce_observe_leads i : leads R (observe g i).
Proof. unfold observe. leads. apply Gce_capacity_leads. Qed.
Lemma Gce_observeMatching_leads want l : leads R (observeMatching g want l).
Proof. induction l as [|[]]; simpl; leads; auto using Gce_observe_leads. Qed.
Lemma Gce_pages_leads {A} n (fetch : string → call W googleError (A * string)) items t acc :
  (∀ t, called R (fetch t)) → leads R (listPages g n fetch items t acc).
Proof. intros Hf. revert t acc. induction n; intros t acc; simpl; leads; auto. Qed.
Lemma Gce_getInstance_leads z n : leads R (getInstance g z n).
Proof. unfold getInstance. leads. auto. Qed.
Lemma Gce_Discover_leads rq : leads R (Gce_Discover g fuel rq).
Proof.
  unfold Gce_Discover, listAllInstances. leads; [apply Gce_pages_leads; auto|apply Gce_observeMatching_leads].
Qed.
Lemma Gce_Get_leads ref : leads R (Gce_Get g ref).
Proof. unfold Gce_Get. leads; auto using Gce_getInstance_leads, Gce_observe_leads. Qed.
Lemma Gce_poll_leads ref data : leads R (pollOperation g ref data).
Proof. unfold pollOperation. leads; auto. Qed.
Lemma Gce_Observe_leads op : leads R (Gce_ObserveOperation g op).
Proof. unfold Gce_ObserveOperation. leads; auto using Gce_poll_leads, Gce_Get_leads. Qed.
Lemma Gce_read_leads pt f : read_call (machines g pt fuel) f → ∀ s, R (ln_world s) (ln_world (f s)).
Proof. intros []; simpl; [apply Gce_Discover_leads|apply Gce_Get_leads|apply Gce_Observe_leads]. Qed.

Lemma Gce_follow_leads pt a : follow_up a →
  (∀ ref, ac_Ref a = Some ref → let zone := zoneOf g ref in
     (ac_Kind a = "delete"%string → called R (Instances_Delete (g_project g) zone (ref_ID ref))) ∧
     (ac_Kind a = "stop"%string → called R (Instances_Stop (g_project g) zone (ref_ID ref))) ∧
     (ac_Kind a = "start"%string → called R (Instances_Start (g_project g) zone (ref_ID ref)))) →
  leads R (Gce_Apply g pt fuel a).
Proof.
  intros Ha Hcall. unfold Gce_Apply. rewrite (follow_up_no_create a Ha).
  destruct (mem (ac_Kind a) ["delete"%string]) eqn:Hk.
  { apply mem_true, list_elem_of_singleton in Hk. unfold applyDelete. cbv zeta. leads. apply Gce_api_leads. by eapply Hcall. }
  clear Hk. destruct (mem (ac_Kind a) ["stop"; "start"]%string) eqn:Hk; [|leads].
  apply mem_true in Hk. unfold applyStopStart. cbv zeta. leads; auto using Gce_getInstance_leads.
  apply Gce_api_leads. specialize (Hcall _ eq_refl) as (_ & Hs & Ht). destruct (mem _ ["stop"%string]) eqn:Hm.
  - by apply Hs, list_elem_of_singleton, mem_true.
  - apply Ht. apply bool_decide_eq_false in Hm. set_solver.
Qed.
End gce.
End with_pacer.

(** C33: reading a cloud changes nothing there, and a delete, stop or start makes
    no changing call but that one on the machine its reference names: any
    relation kept by the waits and the library's reading calls is kept by
    Discover, Get and ObserveOperation, and by such an Apply once it is kept by
    the one call on the named machine. *)
Theorem drivers_touch_only_the_named {W} `{Ambient W} (R : W → W → Prop) `{!PreOrder R} :
  (∀ (API : Hetzner.Hcloud W) h, Hetzner_reads R →
     (∀ f s, read_call (Hetzner.machines h) f → R (ln_world s) (ln_world (f s))) ∧
     ∀ a, follow_up a →
       (∀ ref sid, ac_Kind a = "delete"%string → ac_Ref a = Some ref → ParseInt (ref_ID ref) = Some sid →
          ∀ w srv, (Hetzner.Server_GetByID sid w).1.1 = inr (Some srv) → called R (Hetzner.Server_DeleteWithResult srv)) →
       leads R (Hetzner.Hetzner_Apply h a)) ∧
  (∀ (API : Droplets.Godo W) d fuel, Droplets_reads R →
     (∀ f s, read_call (Droplets.machines d fuel) f → R (ln_world s) (ln_world (f s))) ∧
     ∀ a, follow_up a →
       (∀ ref did, ac_Kind a = "delete"%string → ac_Ref a = Some ref → ParseInt (ref_ID ref) = Some did →
          called R (Droplets.Droplets_Delete did)) →
       leads R (Droplets.Droplets_Apply d fuel a)) ∧
  (∀ (API : Ec2.EC2 W) d fuel, Ec2_reads R →
     (∀ f s, read_call (Ec2.machines d fuel) f → R (ln_world s) (ln_world (f s))) ∧
     ∀ a, follow_up a →
       (∀ ref, ac_Ref a = Some ref →
          (ac_Kind a = "delete"%string → called R (Ec2.TerminateInstances (ref_ID ref))) ∧
          (ac_Kind a = "stop"%string → called R (Ec2.StopInstances (ref_ID ref))) ∧
          (ac_Kind a = "start"%string → called R (Ec2.StartInstances (ref_ID ref)))) →
       leads R (Ec2.Ec2_Apply d fuel a)) ∧
  (∀ (API : ComputeEngine.GCE W) g pt fuel, Gce_reads R →
     (∀ f s, read_call (ComputeEngine.machines g pt fuel) f → R (ln_world s) (ln_world (f s))) ∧
     ∀ a, follow_up a →
       (∀ ref, ac_Ref a = Some ref →
          let zone := ComputeEngine.zoneOf g ref in let project := ComputeEngine.g_project g in
          (ac_Kind a = "delete"%string → called R (ComputeEngine.Instances_Delete project zone (ref_ID ref))) ∧
          (ac_Kind a = "stop"%string → called R (ComputeEngine.Instances_Stop project zone (ref_ID ref))) ∧
          (ac_Kind a = "start"%string → called R (ComputeEngine.Instances_Start project zone (ref_ID ref)))) →
       leads R (ComputeEngine.Gce_Apply g pt fuel a)).
Proof.
  split_and!; intros ? x; intros.
  - split; [intros f s Hf; by eapply Hetzner_read_leads|intros a Ha Hd; by eapply Hetzner_follow_leads].
  - split; [intros f s Hf; by eapply Droplets_read_leads|intros a Ha Hd; by eapply Droplets_follow_leads].
  - split; [intros f s Hf; by eapply Ec2_read_leads|intros a Ha Hd; by eapply Ec2_follow_leads].
  - split; [intros f s Hf; by eapply Gce_read_leads|intros a Ha Hd; by eapply Gce_follow_leads].
Qed.
