(* ===== verification/DriverFacts.v ===== *)
(** * What an operation carries, and what its success means

    The data a driver stores with an accepted operation comes back as it was
    written, and an operation is reported succeeded only when the machine was
    seen where the action was to take it. *)

From stdpp Require Import base gmap strings list sorting.
From Stdlib Require Import Ascii QArith_base.
From S2P Require Import Prelude Errors Json SDK Kinds Marshal Text TextFacts Pacer Cloud Calls Fake Labels.
From S2P Require Hetzner Droplets Docker Ec2 ComputeEngine.

(** ** Round trips *)

Lemma data_fields_print fs : integral (JObj fs) = true → data_fields (Some (print (JObj fs))) = fs.
Proof. intros Hi. unfold data_fields. by rewrite json_round_trip. Qed.

Lemma integral_fields fs : Forall (λ kv, integral kv.2 = true) fs → integral (JObj fs) = true.
Proof. intros Hf. simpl. apply forallb_forall. rewrite Forall_forall in Hf. intros kv Hin%list_elem_of_In. by apply Hf. Qed.
Lemma integral_opt keep k j : integral j = true → Forall (λ kv : string * json, integral kv.2 = true) (opt_field keep k j).
Proof. intros Hj. destruct keep; by repeat constructor. Qed.
Lemma integral_int z : in64 z → integral (JInt z) = true.
Proof. intros Hz. by apply bool_decide_eq_true. Qed.
Lemma in64_1 : in64 1.
Proof. split; vm_compute; discriminate. Qed.
Ltac integral := apply integral_fields; repeat first
  [apply Forall_cons; split | apply Forall_app; split | apply integral_opt | apply Forall_nil_2
  |apply integral_int; first [apply in64_1|assumption] | reflexivity].

Section soft.
Context {A : Type} (name : string) (d : json → A → result A).

Lemma soft_hit k j fs old a : key_match k name = true → d j old = Ok a →
  soft_field name d ((k, j) :: fs) old = soft_field name d fs a.
Proof. intros Hk Hd. simpl. by rewrite Hk, Hd. Qed.
Lemma soft_miss k j fs old : key_match k name = false →
  soft_field name d ((k, j) :: fs) old = soft_field name d fs old.
Proof. intros Hk. simpl. by rewrite Hk. Qed.
Lemma soft_opt_miss keep k j fs old : key_match k name = false →
  soft_field name d (opt_field keep k j ++ fs) old = soft_field name d fs old.
Proof. intros Hk. destruct keep; [by apply soft_miss|done]. Qed.
(** A field left out when it is the zero value reads as that. *)
Lemma soft_opt_hit (keep : bool) k j fs old a : key_match k name = true →
  (if keep then d j old = Ok a else old = a) →
  soft_field name d (opt_field keep k j ++ fs) old = soft_field name d fs a.
Proof. intros Hk Hd. destruct keep; [by apply soft_hit|by subst]. Qed.
Lemma soft_nil old : soft_field name d [] old = old.
Proof. done. Qed.
End soft.
Lemma dec_int64_in z old : in64 z → dec_int64 (JInt z) old = Ok z.
Proof. intros Hz. unfold dec_int64. by rewrite decide_True. Qed.

(** Integers of a list, into nothing. *)
Lemma soft_ints l : Forall in64 l → soft_elements 0 dec_int64 (JInt <$> l) [] = l.
Proof.
  induction 1 as [|z l Hz _ IH]; [done|]. rewrite fmap_cons. cbn [soft_elements tail]. rewrite IH. f_equal.
  unfold dec_int64. by rewrite decide_True.
Qed.
Lemma integral_ints l : Forall in64 l → forallb integral (JInt <$> l) = true.
Proof.
  induction 1 as [|z l Hz _ IH]; [done|]. rewrite fmap_cons. cbn [forallb integral]. rewrite IH.
  by rewrite bool_decide_eq_true_2.
Qed.

(** One field after the other: another's, or its own. *)
Ltac soft :=
  repeat first [rewrite soft_miss by reflexivity | rewrite soft_opt_miss by reflexivity];
  try (erewrite soft_hit; [|reflexivity|first [reflexivity|by apply dec_int64_in]]);
  repeat first [rewrite soft_miss by reflexivity | rewrite soft_opt_miss by reflexivity].

Section hetzner.
Import Hetzner.
Lemma Hetzner_data_round_trip d : in64 (od_ServerID d) → Forall in64 (od_Actions d) →
  dec_opData (Some (print (enc_opData d))) = d.
Proof.
  destruct d as [i del l]. intros Hi Hl. unfold dec_opData, enc_opData. cbn [od_ServerID od_Delete od_Actions] in *.
  rewrite data_fields_print.
  - rewrite <-(List.app_nil_r (opt_field _ "actions" _)). cbn [app]. f_equal; soft; try done.
    + rewrite (soft_opt_hit _ _ _ _ _ _ _ del); [by soft|done|by destruct del].
    + rewrite (soft_opt_hit _ _ _ _ _ _ _ l); [done|done|]. case_bool_decide; simpl; [done|by rewrite soft_ints].
  - integral. by apply integral_ints.
Qed.
End hetzner.

Section droplets.
Import Droplets.
Lemma Droplets_data_round_trip d : in64 (od_DropletID d) → dec_opData (Some (print (enc_opData d))) = d.
Proof.
  destruct d as [i del]. intros Hi. unfold dec_opData, enc_opData. cbn [od_DropletID od_Delete] in *.
  rewrite data_fields_print by integral. rewrite <-(List.app_nil_r (opt_field _ _ _)). cbn [app]. f_equal; soft; [done|].
  rewrite (soft_opt_hit _ _ _ _ _ _ _ del); [done|done|by destruct del].
Qed.
End droplets.

Lemma Docker_kind_round_trip k : Docker.opData_kind (Some (print (Docker.enc_opData k))) = k.
Proof. unfold Docker.opData_kind, Docker.enc_opData. rewrite data_fields_print by integral. by soft. Qed.

Section ec2.
Import Ec2.
Lemma Ec2_data_round_trip d : dec_opData (Some (print (enc_opData d))) = d.
Proof.
  destruct d as [i del op]. unfold dec_opData, enc_opData, opt_string. cbn [od_InstanceID od_Delete od_Op].
  rewrite data_fields_print by integral. rewrite <-(List.app_nil_r (opt_field _ "op" _)). cbn [app]. f_equal; soft; [done|..].
  - rewrite (soft_opt_hit _ _ _ _ _ _ _ del); [by soft|done|by destruct del].
  - rewrite (soft_opt_hit _ _ _ _ _ _ _ op); [done|done|by case_bool_decide].
Qed.
End ec2.

Section gce.
Import ComputeEngine.
Lemma Gce_data_round_trip d : dec_opData (Some (print (enc_opData d))) = d.
Proof.
  destruct d as [k op z i del]. unfold dec_opData, enc_opData, opt_string. cbn [od_Kind od_Op od_Zone od_Instance od_Delete].
  rewrite data_fields_print by integral. rewrite <-(List.app_nil_r (opt_field _ "delete" _)). cbn [app]. f_equal; soft; try done.
  - rewrite (soft_opt_hit _ _ _ _ _ _ _ k); [by soft|done|by case_bool_decide].
  - rewrite (soft_opt_hit _ _ _ _ _ _ _ del); [done|done|by destruct del].
Qed.
End gce.

(** The data each driver stores with an accepted operation decodes, after
    any restart, to what was stored. *)
Theorem operation_data_round_trip :
  (∀ d, in64 (Hetzner.od_ServerID d) → Forall in64 (Hetzner.od_Actions d) →
     Hetzner.dec_opData (Some (print (Hetzner.enc_opData d))) = d) ∧
  (∀ d, in64 (Droplets.od_DropletID d) → Droplets.dec_opData (Some (print (Droplets.enc_opData d))) = d) ∧
  (∀ k, Docker.opData_kind (Some (print (Docker.enc_opData k))) = k) ∧
  (∀ d, Ec2.dec_opData (Some (print (Ec2.enc_opData d))) = d) ∧
  (∀ d, ComputeEngine.dec_opData (Some (print (ComputeEngine.enc_opData d))) = d).
Proof.
  split_and!; intros; [by apply Hetzner_data_round_trip|by apply Droplets_data_round_trip|apply Docker_kind_round_trip
    |apply Ec2_data_round_trip|apply Gce_data_round_trip].
Qed.

(** ** Success *)

(** Where an action takes the machine. *)
Definition goal (running stopped deleted : ObservedResource → Prop) (kind : string) : ObservedResource → Prop :=
  if decide (kind = "delete"%string) then deleted else if decide (kind = "stop"%string) then stopped else running.

(** A status of success comes with the operation's machine at its goal, and
    reading that machine was the last thing the observation did. *)
Definition seen {S} (op : OperationRef) (get : ExternalRef → M S ObservedResource) (at_goal : ObservedResource → Prop)
    (st : OperationStatus) (s' : S) : Prop :=
  os_State st = PvSucceeded → ∃ ref obs s, os_Ref st = Some ref ∧ os_Resource st = Some obs ∧
    (∀ own, or_Ref op = Some own → own = ref) ∧ get ref s = (Ok obs, s') ∧ at_goal obs.

(** An operation the driver accepted is reported succeeded only then. *)
Definition success_seen {S} (d : ResourceDriver S) (goal_of : string → ObservedResource → Prop) (a : Action) : Prop :=
  returns (λ op, ∀ s, ends (seen op (Get d) (goal_of (ac_Kind a))) (ObserveOperation d op) s) (Apply d a).
(** Or else it is a delete that found nothing to delete, stored no data, and is
    taken for a create when the machine is observed again. *)
Definition success_seen_or_gone {S} (d : ResourceDriver S) (goal_of : string → ObservedResource → Prop) (a : Action) : Prop :=
  returns (λ op, ∀ s, ends (seen op (Get d) (λ obs, goal_of (ac_Kind a) obs ∨
    (ac_Kind a = "delete" ∧ or_Data op = None)%string ∧ goal_of "create"%string obs)) (ObserveOperation d op) s) (Apply d a).

Lemma seen_not {S} op get at_goal st s : os_State st ≠ PvSucceeded → seen (S := S) op get at_goal st s.
Proof. by intros Hne Hs. Qed.
Lemma seen_conseq {S} op get (g g' : ObservedResource → Prop) st s : (∀ o, g o → g' o) →
  seen (S := S) op get g st s → seen op get g' st s.
Proof. intros Hg Hs Hst. destruct (Hs Hst) as (ref & obs & s0 & ? & ? & ? & ? & ?). exists ref, obs, s0. auto 10. Qed.

Ltac seen_cases := repeat match goal with |- seen _ _ _ (match ?x with _ => _ end) _ => destruct x eqn:? end.

(** The kinds in the hypotheses. *)
Ltac kinds := subst; repeat match goal with
  | Hm : mem ?k _ = _ |- context [mem ?k _] => rewrite Hm
  | Hm : mem _ [_] = true |- _ => apply mem_true, list_elem_of_singleton in Hm; rewrite ?Hm
  | Hm : bool_decide _ = true |- _ => apply bool_decide_eq_true in Hm
  end.
Lemma stop_or_start k : mem k ["stop"; "start"]%string = true → mem k ["stop"%string] = false → k = "start"%string.
Proof.
  intros [->|Hk]%mem_true%elem_of_cons Hs; [by apply bool_decide_eq_false in Hs; set_solver|].
  by apply list_elem_of_singleton.
Qed.
Lemma stop_start_some k : mem k ["stop"; "start"]%string = true → k ≠ ""%string.
Proof. intros Hk ->. by vm_compute in Hk. Qed.
Ltac start := match goal with
  | Hm : mem ?k ["stop"; "start"]%string = true, Hs : mem ?k ["stop"%string] = false |- _ =>
      by rewrite (stop_or_start k Hm Hs)
  end.
Lemma mem_one_false (k x : string) : mem k [x] = false → k ≠ x.
Proof. intros Hm ->. by apply bool_decide_eq_false in Hm; set_solver. Qed.
Ltac at_goal := repeat match goal with Hm : mem _ [_] = false |- _ => apply mem_one_false in Hm end;
  unfold goal; cbn; rewrite ?decide_False, ?decide_True by done; eauto.

Section ec2_success.
Context {W : Type} `{Ambient W} `{Ec2.EC2 W} (d : Ec2.AWS) (fuel : nat).
Import Ec2.

Definition Ec2_goal : string → ObservedResource → Prop :=
  goal (λ o, ob_Phase o = PhaseRunning ∨ ob_ProviderState o = stateText NameRunning)
    (λ o, ob_ProviderState o = stateText NameStopped) (λ o, ob_Phase o = PhaseGone).
(** The data of an action: its kind. *)
Definition Ec2_kind (x : opData) : string :=
  if mem (od_Op x) ["stop"%string] then "stop" else if mem (od_Op x) ["start"%string] then "start"
  else if od_Delete x then "delete" else "create".

Lemma Ec2_Apply_records a : returns (λ op, or_Data op = None ∨ Ec2_kind (dec_opData (or_Data op)) = ac_Kind a)
  (Ec2_Apply d fuel a).
Proof.
  assert (∀ i r x, Ec2_kind x = ac_Kind a → let op := MkOpRef i r (Some (print (enc_opData x))) in
    or_Data op = None ∨ Ec2_kind (dec_opData (or_Data op)) = ac_Kind a) as Hrec.
  { intros i r x Hx. right. cbn [or_Data]. by rewrite Ec2_data_round_trip. }
  unfold Ec2_Apply, applyCreate, applyDelete, applyStopStart, image, describeNewestImage, bad, badImage. returns.
  all: first [by left | apply Hrec; unfold Ec2_kind; cbn [od_Op od_Delete]].
  all: kinds; try done; start.
Qed.

Lemma Ec2_observe_seen op s :
  ends (seen op (Ec2_Get d) (Ec2_goal (Ec2_kind (dec_opData (or_Data op))))) (Ec2_ObserveOperation d op) s.
Proof.
  unfold Ec2_ObserveOperation. destruct (or_Ref op) as [ref|] eqn:Href; [|apply ends_ret; discriminate]. cbv zeta.
  destruct (dec_opData (or_Data op)) as [i del k]. apply ends_bind. intros obs s1 Hs. ends; seen_cases; try discriminate.
  all: intros _; exists ref, obs, s; rewrite Href; split_and!; [done|done|by intros ? [= ->]|exact Hs|]; unfold Ec2_goal, Ec2_kind; cbn [od_Op od_Delete] in *.
  all: kinds; at_goal.
Qed.

(** Without data nothing is ever decided. *)
Lemma Ec2_no_data op : or_Data op = None → returns (λ st, os_State st ≠ PvSucceeded) (Ec2_ObserveOperation d op).
Proof.
  intros Hnone. unfold Ec2_ObserveOperation. rewrite Hnone. cbn [dec_opData data_fields soft_field od_Op od_Delete od_InstanceID].
  destruct (or_Ref op) as [ref|]; [|by apply returns_ret]. apply returns_bind. intros obs. cbn. returns; done.
Qed.
Lemma Ec2_success_seen a : success_seen (Ec2.machines d fuel) Ec2_goal a.
Proof.
  eapply returns_conseq; [apply Ec2_Apply_records|]. intros op [Hnone|<-] s; [|apply Ec2_observe_seen].
  intros st s' Hst. apply seen_not. exact (returned _ _ _ _ _ (Ec2_no_data op Hnone) Hst).
Qed.
End ec2_success.

(** *** Google Compute Engine *)

Section gce_success.
Context {W : Type} `{Ambient W} `{ComputeEngine.GCE W} (g : ComputeEngine.GCP) (pt : string → option Z) (fuel : nat).
Import ComputeEngine.

Definition Gce_goal : string → ObservedResource → Prop :=
  goal (λ o, ob_Phase o = PhaseRunning ∨ ob_ProviderState o = "RUNNING"%string)
    (λ o, stopComplete (ob_ProviderState o) = true) (λ _, False).

Lemma Gce_Apply_records a : returns (λ op, (or_Data op = None ∧ ac_Kind a ≠ "stop"%string) ∨
    kindOf (dec_opData (or_Data op)) = ac_Kind a) (Gce_Apply g pt fuel a).
Proof.
  assert (∀ ref x, kindOf x = ac_Kind a → let op := op_ref a ref x in
    (or_Data op = None ∧ ac_Kind a ≠ "stop"%string) ∨ kindOf (dec_opData (or_Data op)) = ac_Kind a) as Hrec.
  { intros ref x Hx. right. cbn [op_ref or_Data]. by rewrite Gce_data_round_trip. }
  unfold Gce_Apply, applyCreate, applyDelete, applyStopStart, image, imageLookup, findByOp, getInstance, bad, invalidImage.
  cbv zeta. returns.
  all: try (apply Hrec; unfold kindOf; cbn [od_Kind]).
  all: kinds; try done; try (left; split; [done|congruence]).
  all: by rewrite decide_False by by apply stop_start_some.
Qed.

Lemma Gce_poll_undecided ref x :
  returns (from_option (λ st, os_State st ≠ PvSucceeded) True) (pollOperation g ref x).
Proof. unfold pollOperation. returns; try done. by case_match; [|case_match]. Qed.
Lemma Gce_observe_seen op s :
  ends (seen op (Gce_Get g) (Gce_goal (kindOf (dec_opData (or_Data op))))) (Gce_ObserveOperation g op) s.
Proof.
  unfold Gce_ObserveOperation. cbv zeta. apply ends_bind. intros [st|] s1 Hpoll.
  { apply ends_ret. apply (returned _ _ _ _ _ (Gce_poll_undecided _ _)) in Hpoll. by apply seen_not. }
  destruct (match or_Ref op with Some _ => _ | None => _ end) as [ref|] eqn:Href; [|apply ends_ret; discriminate].
  assert (∀ own, or_Ref op = Some own → own = ref) as Hown by (intros own Ho; rewrite Ho in Href; congruence).
  apply ends_bind. intros obs s2 Hs.
  generalize (kindOf (dec_opData (or_Data op))). intros k. ends; seen_cases; try discriminate.
  all: intros _; exists ref, obs, s1; split_and!; [done|done|exact Hown|exact Hs|]; unfold Gce_goal.
  all: kinds; at_goal.
Qed.
Lemma Gce_success_seen a : success_seen_or_gone (ComputeEngine.machines g pt fuel) Gce_goal a.
Proof.
  eapply returns_conseq; [apply Gce_Apply_records|]. intros op Hr s st s' Hst.
  pose proof (Gce_observe_seen op s st s' Hst) as Hseen. destruct Hr as [[Hnone Hk]|Hk].
  - rewrite Hnone in Hseen. eapply seen_conseq; [|exact Hseen]. intros o Ho.
    destruct (decide (ac_Kind a = "delete"%string)) as [Hd|Hd]; [by right|left].
    unfold Gce_goal, goal in *. by rewrite !decide_False.
  - eapply seen_conseq; [|exact Hseen]. rewrite Hk. auto.
Qed.
End gce_success.

(** *** Docker *)

Section docker_success.
Context {W : Type} `{Docker.EngineAPI W} (d : Docker.Docker).
Import Docker.

Definition Docker_goal : string → ObservedResource → Prop :=
  goal (λ o, ob_ProviderState o = "running"%string) (λ o, ob_Phase o = PhaseStopped) (λ _, False).

Lemma Docker_Apply_records a : returns (λ op, opData_kind (or_Data op) = ac_Kind a) (Docker_Apply d a).
Proof.
  assert (∀ ref, opData_kind (or_Data (opRef a ref)) = ac_Kind a) as Hrec by (intros; apply Docker_kind_round_trip).
  unfold Docker_Apply, applyCreate, applyDelete, applyPower. returns; apply Hrec.
Qed.
Lemma Docker_observe_seen op s :
  ends (seen op (Docker_Get d) (Docker_goal (opData_kind (or_Data op)))) (Docker_ObserveOperation d op) s.
Proof.
  unfold Docker_ObserveOperation. destruct (or_Ref op) as [ref|] eqn:Href; [|apply ends_ret; discriminate]. cbv zeta.
  generalize (opData_kind (or_Data op)). intros k. apply ends_bind. intros obs s1 Hs.
  ends; seen_cases; try discriminate.
  all: intros _; exists ref, obs, s; rewrite Href; split_and!; [done|done|by intros ? [= ->]|exact Hs|]; unfold Docker_goal.
  all: kinds; at_goal.
Qed.
Lemma Docker_success_seen a : success_seen (containers d) Docker_goal a.
Proof.
  eapply returns_conseq; [apply Docker_Apply_records|]. intros op <- s. apply Docker_observe_seen.
Qed.
End docker_success.

(** *** DigitalOcean *)

Section droplets_success.
Context {W : Type} `{Ambient W} `{Droplets.Godo W} (d : Droplets.DigitalOcean) (fuel : nat).
Import Droplets.
(** Ids are int64. *)
Hypothesis ids : ∀ req w dr, (Droplets_Create req w).1.1 = inr dr → in64 (dr_ID dr).

(** Only creates end in success here. *)
Definition machine_goal : string → ObservedResource → Prop :=
  goal (λ o, ob_Phase o = PhaseRunning) (λ _, False) (λ _, False).
Definition records_delete (del : bool) (kind : string) : Prop :=
  kind = (if del then "delete" else "create")%string.

Lemma ParseInt_in64 s z : ParseInt s = Some z → in64 z.
Proof. unfold ParseInt. intros Hp. repeat case_match; simplify_eq; by case_decide; simplify_eq. Qed.

Lemma Droplets_create_id req e : returns (λ dr, in64 (dr_ID dr)) (api d (Droplets_Create req) e).
Proof.
  intros s dr. unfold api. pose proof (ids req (ln_world s)) as Hid.
  destruct (Droplets_Create req _) as [[[f|x] resp] w]; simpl; [by destruct (mapErr _ _ _ _)|]. intros [= <-]. by apply Hid.
Qed.
Lemma Droplets_Apply_records a : returns (λ op, (or_Data op = None ∧ ac_Kind a ≠ "stop"%string) ∨
    records_delete (od_Delete (dec_opData (or_Data op))) (ac_Kind a)) (Droplets_Apply d fuel a).
Proof.
  assert (∀ i r x, in64 (od_DropletID x) → records_delete (od_Delete x) (ac_Kind a) →
    let op := MkOpRef i r (Some (print (enc_opData x))) in
    (or_Data op = None ∧ ac_Kind a ≠ "stop"%string) ∨
    records_delete (od_Delete (dec_opData (or_Data op))) (ac_Kind a)) as Hrec.
  { intros i r x Hi Hx. right. cbn [or_Data]. by rewrite Droplets_data_round_trip. }
  unfold Droplets_Apply, applyCreate, applyDelete, bad.
  repeat first [eapply returns_bind_of; [apply Droplets_create_id|intros ? ?] | returns_step].
  all: first [apply Hrec; cbn [od_DropletID od_Delete]|left; split; [done|]]; unfold records_delete; kinds.
  all: eauto using ParseInt_in64.
Qed.
Lemma Droplets_observe_seen op s : ends (seen op (Droplet_Get d)
    (machine_goal (if od_Delete (dec_opData (or_Data op)) then "delete" else "create"))) (Droplets_ObserveOperation d op) s.
Proof.
  unfold Droplets_ObserveOperation. destruct (or_Ref op) as [ref|] eqn:Href; [|apply ends_ret; discriminate]. cbv zeta.
  destruct (dec_opData (or_Data op)) as [i del]. apply ends_bind. intros obs s1 Hs.
  ends; try discriminate. intros _; exists ref, obs, s. rewrite Href. split_and!; [done|done|by intros ? [= ->]|exact Hs|]. cbn [od_Delete] in *. kinds. unfold machine_goal. at_goal.
Qed.
Lemma machine_goal_unrecorded kind : kind ≠ "stop"%string → kind ≠ "delete"%string →
  machine_goal kind = machine_goal "create".
Proof. intros. unfold machine_goal, goal. by rewrite !decide_False. Qed.
Lemma machine_seen {S} op get del a st (s : S) :
  (or_Data op = None ∧ ac_Kind a ≠ "stop"%string ∧ del = false) ∨ records_delete del (ac_Kind a) →
  seen op get (machine_goal (if del then "delete" else "create")) st s →
  seen op get (λ obs, machine_goal (ac_Kind a) obs ∨
    (ac_Kind a = "delete" ∧ or_Data op = None)%string ∧ machine_goal "create" obs) st s.
Proof.
  intros [(Hnone & Hk & ->)| ->]; apply seen_conseq; intros o Ho; [|by left].
  destruct (decide (ac_Kind a = "delete"%string)) as [Hd|Hd]; [by right|left]. by rewrite machine_goal_unrecorded.
Qed.
Lemma Droplets_success_seen a : success_seen_or_gone (Droplets.machines d fuel) machine_goal a.
Proof.
  eapply returns_conseq; [apply Droplets_Apply_records|]. intros op Hr s st s' Hst.
  eapply machine_seen; [|exact (Droplets_observe_seen op s st s' Hst)].
  destruct Hr as [[Hnone Hk]|Hr]; [left; by rewrite Hnone|by right].
Qed.
End droplets_success.

(** *** Hetzner Cloud *)

Section hetzner_success.
Context {W : Type} `{Ambient W} `{Hetzner.Hcloud W} (h : Hetzner.Hetzner).
Import Hetzner.
(** Ids are int64. *)
Hypothesis server_ids : ∀ o w res, (Server_Create o w).1.1 = inr res →
  in64 (sv_ID (sr_Server res)) ∧ Forall in64 (option_list (sr_Action res) ++ sr_NextActions res).
Hypothesis action_ids : ∀ srv w act, (Server_DeleteWithResult srv w).1.1 = inr (Some act) → in64 act.

Lemma Hetzner_api_returns {A} (P : A → Prop) (c : call W hError A) e :
  (∀ w a, (c w).1.1 = inr a → P a) → returns P (api h c e).
Proof.
  intros Hc s a. unfold api. specialize (Hc (ln_world s)).
  destruct (c _) as [[[f|x] resp] w]; simpl; [by destruct (mapErr _ _ _ _)|]. intros [= <-]. by apply Hc.
Qed.
Lemma Hetzner_create_ids o e : returns (λ res, in64 (sv_ID (sr_Server res)) ∧
  Forall in64 (option_list (sr_Action res) ++ sr_NextActions res)) (api h (Server_Create o) e).
Proof. apply Hetzner_api_returns. intros w a. apply server_ids. Qed.
Lemma Hetzner_delete_ids srv e : returns (λ act, Forall in64 (option_list act)) (api h (Server_DeleteWithResult srv) e).
Proof. apply Hetzner_api_returns. intros w [act|] Ha; simpl; [|done]. by repeat constructor; eapply action_ids. Qed.

Lemma Hetzner_Apply_records a : returns (λ op, (or_Data op = None ∧ ac_Kind a ≠ "stop"%string) ∨
    records_delete (od_Delete (dec_opData (or_Data op))) (ac_Kind a)) (Hetzner_Apply h a).
Proof.
  assert (∀ i r x, in64 (od_ServerID x) → Forall in64 (od_Actions x) → records_delete (od_Delete x) (ac_Kind a) →
    let op := MkOpRef i r (Some (print (enc_opData x))) in
    (or_Data op = None ∧ ac_Kind a ≠ "stop"%string) ∨
    records_delete (od_Delete (dec_opData (or_Data op))) (ac_Kind a)) as Hrec.
  { intros i r x Hi Hl Hx. right. cbn [or_Data]. by rewrite Hetzner_data_round_trip. }
  unfold Hetzner_Apply, applyCreate, applyDelete, serverType, bad. cbv zeta.
  repeat first [eapply returns_bind_of; [apply Hetzner_create_ids|intros ? [? ?]]
    |eapply returns_bind_of; [apply Hetzner_delete_ids|intros ? ?] | returns_step].
  all: first [apply Hrec; cbn [od_ServerID od_Actions od_Delete]|left; split; [done|]]; unfold records_delete; kinds.
  all: eauto using ParseInt_in64.
Qed.
Lemma Hetzner_poll_undecided ref l :
  returns (from_option (λ st, os_State st ≠ PvSucceeded) True) (pollActions h ref l).
Proof. induction l; simpl; returns; done. Qed.
Lemma Hetzner_observe_seen op s : ends (seen op (Hetzner_Get h)
    (machine_goal (if od_Delete (dec_opData (or_Data op)) then "delete" else "create"))) (Hetzner_ObserveOperation h op) s.
Proof.
  unfold Hetzner_ObserveOperation. cbv zeta. apply ends_bind. intros [st|] s1 Hpoll.
  { apply ends_ret. apply (returned _ _ _ _ _ (Hetzner_poll_undecided _ _)) in Hpoll. by apply seen_not. }
  destruct (or_Ref op) as [ref|] eqn:Href; [|apply ends_ret; discriminate]. destruct (dec_opData (or_Data op)) as [i del acts].
  apply ends_bind. intros obs s2 Hs.
  ends; try discriminate. intros _; exists ref, obs, s1. rewrite Href. split_and!; [done|done|by intros ? [= ->]|exact Hs|]. cbn [od_Delete] in *. kinds. unfold machine_goal. at_goal.
Qed.
Lemma Hetzner_success_seen a : success_seen_or_gone (Hetzner.machines h) machine_goal a.
Proof.
  eapply returns_conseq; [apply Hetzner_Apply_records|]. intros op Hr s st s' Hst.
  eapply machine_seen; [|exact (Hetzner_observe_seen op s st s' Hst)].
  destruct Hr as [[Hnone Hk]|Hr]; [left; by rewrite Hnone|by right].
Qed.
End hetzner_success.

(** C34: whatever the clouds answer, an operation that a driver accepted is
    reported succeeded only with its machine at the goal of that very action,
    as read by the last call of the observation: running after a create or
    start, stopped after a stop. A delete succeeds on EC2 only with the machine
    terminated and on Docker never; on the other three only when it had found
    nothing to delete, stored no data for that reason, and the machine is there
    and running after all. *)
Theorem success_means_goal_seen {W} `{Ambient W} :
  (∀ (API : Hetzner.Hcloud W) h,
     (∀ o w res, (Hetzner.Server_Create o w).1.1 = inr res → in64 (Hetzner.sv_ID (Hetzner.sr_Server res)) ∧
        Forall in64 (option_list (Hetzner.sr_Action res) ++ Hetzner.sr_NextActions res)) →
     (∀ srv w act, (Hetzner.Server_DeleteWithResult srv w).1.1 = inr (Some act) → in64 act) →
     ∀ a, success_seen_or_gone (Hetzner.machines h) machine_goal a) ∧
  (∀ (API : Droplets.Godo W) d fuel,
     (∀ req w dr, (Droplets.Droplets_Create req w).1.1 = inr dr → in64 (Droplets.dr_ID dr)) →
     ∀ a, success_seen_or_gone (Droplets.machines d fuel) machine_goal a) ∧
  (∀ (API : Docker.EngineAPI W) d a, success_seen (Docker.containers d) Docker_goal a) ∧
  (∀ (API : Ec2.EC2 W) d fuel a, success_seen (Ec2.machines d fuel) Ec2_goal a) ∧
  (∀ (API : ComputeEngine.GCE W) g pt fuel a,
     success_seen_or_gone (ComputeEngine.machines g pt fuel) Gce_goal a).
Proof.
  split_and!; intros.
  - by apply Hetzner_success_seen.
  - by apply Droplets_success_seen.
  - apply Docker_success_seen.
  - apply Ec2_success_seen.
  - apply Gce_success_seen.
Qed.

Lemma operation_data_round_trip_witness :
  let d := Hetzner.MkOpData 4711 true [7; - 8] in
  print (Hetzner.enc_opData d) =
    String.concat (String quote "") ["{";"v";":1,";"serverId";":4711,";"delete";":true,";"actions";":[7,-8]}"]%string ∧
  Hetzner.dec_opData (Some (print (Hetzner.enc_opData d))) = d.
Proof.
  split; [vm_compute; reflexivity|]. destruct operation_data_round_trip as [Hz _].
  apply Hz; [split; vm_compute; discriminate|]. repeat constructor; vm_compute; discriminate.
Defined.

(** * Where drivers fall short of the contract

    Inputs on which what a driver does is not what [Contract.v] asks of it: the
    errors of the Docker driver once a container is made, and identity labels
    on DigitalOcean beside labels of the spec. *)

(** ** DigitalOcean: one namespace for all tags *)

Section droplets.
Import Labels.DigitalOcean Droplets.

Lemma encodeTags_foreign l : (∀ kv, kv ∈ l → alookup kv.1 shortNames = None) → encodeTags l = [].
Proof.
  induction l as [|[k v] l IH]; [done|]. intros Hl. unfold encodeTags, encodeTag. simpl.
  pose proof (Hl (k, v) (list_elem_of_here _ _)) as Hk. simpl in Hk. rewrite Hk. apply IH. intros kv Hin. apply Hl. by right.
Qed.

Lemma identity_kept p :
  (∀ k v, cp_Labels p !! k = Some v → alookup k shortNames ≠ None ∧ str_all legal v = true) →
  (∀ k, is_Some (compute.Labels (cp_Spec p) !! k) → alookup k shortNames = None) →
  decodeTags (createTags p) = cp_Labels p.
Proof.
  intros Hid Hspec. apply (DigitalOceanFacts.digitalocean_tags_round_trip _ _ _ Hid (Permutation_refl _)).
  unfold createTags. rewrite merge_sort_Permutation, (encodeTags_foreign (map_to_list (compute.Labels _))), List.app_nil_r; [done|].
  intros [k v] Hin%elem_of_map_to_list. apply (Hspec k). by exists v.
Qed.

(** A spec that sets the label of another operation. *)
Definition shadow_spec : raw :=
  RawDoc (JObj [("serverType", JStr "s-1vcpu-1gb"); ("image", JStr "slug:debian-12");
                ("labels", JObj [(LabelOp, JStr "op_9")])]%string).
Definition shadowed : createParams :=
  MkCreateParams "m" (match compute.ParseSpec shadow_spec with Ok s => s | Err _ => compute.zeroMachine end)
    (IdentityLabels "own_1" "res_1" "op_1").
Lemma shadow_planned d : (acts ← match Droplets_Plan d (MkPlanReq "res_1"
    (Some (MkDesired "m" shadow_spec (IdentityLabels "own_1" "res_1" "op_1"))) None) with Ok l => Some l | Err _ => None end;
    a ← head acts; ac_Params a) = Some (enc_createParams shadowed).
Proof. unfold Droplets_Plan. vm_compute. reflexivity. Qed.
Lemma shadow_tags : decodeTags (createTags shadowed) !! LabelOp = Some "op_9"%string.
Proof. vm_compute. reflexivity. Qed.
End droplets.

(** The tags of a create decode to its identity labels, whatever labels the
    spec has, as long as none of those is a reserved one; the driver does not
    see to that: a spec that sets the op label is planned, and the droplet
    carries the operation the spec names, not the one that created it. *)
Theorem droplet_identity_kept :
  (∀ p, (∀ k v, cp_Labels p !! k = Some v →
           alookup k DigitalOcean.shortNames ≠ None ∧ str_all DigitalOcean.legal v = true) →
        (∀ k, is_Some (compute.Labels (cp_Spec p) !! k) → alookup k DigitalOcean.shortNames = None) →
        DigitalOcean.decodeTags (Droplets.createTags p) = cp_Labels p) ∧
  cp_Labels shadowed !! LabelOp = Some "op_1"%string ∧
  DigitalOcean.decodeTags (Droplets.createTags shadowed) !! LabelOp = Some "op_9"%string.
Proof. split_and!; [apply identity_kept|done|apply shadow_tags]. Qed.

Lemma droplet_identity_kept_witness :
  let p := MkCreateParams "m" (compute.MkMachine "s-1vcpu-1gb" "slug:debian-12" "" "" {["team" := "a b"]} None)
             (IdentityLabels "own_1" "res_1" "op_1") in
  DigitalOcean.decodeTags (Droplets.createTags p) = IdentityLabels "own_1" "res_1" "op_1".
Proof.
  destruct droplet_identity_kept as [Hk _]. intros p. apply (Hk p).
  - intros k v Hkv. simpl in Hkv. unfold IdentityLabels in Hkv.
    repeat (apply lookup_insert_Some in Hkv as [[<- <-]|[_ Hkv]]; [split; [discriminate|reflexivity]|]).
    apply lookup_singleton_Some in Hkv as [<- <-]. split; [discriminate|reflexivity].
  - intros k [v Hv]. simpl in Hv. apply lookup_singleton_Some in Hv as [<- _]. reflexivity.
Defined.

(** ** Docker: the reply of a create *)

Section docker.
Import Docker.

(** A daemon that makes the container and then drops the connection within
    the reply; the containers by name. *)
#[local] Instance cutting : EngineAPI (list string) := λ method url body made,
  match CutPrefix "http://docker/containers/create?name=" url with
  | Some name => (Reply 201 (MkBody "" (Some "unexpected EOF"%string)), name :: made)
  | None => if decide (method = "GET"%string) then (Reply 200 (MkBody "[]" None), made)
            else (Reply 204 (MkBody "" None), made)
  end.
Definition local_docker : Docker := MkDocker (Some "/var/run/docker.sock") "http://docker" "docker" "own_1" defaultCommand "".
Definition container_create : Action :=
  MkAction "op_1" "create" "res_1" None
    (Some (enc_params (MkDParams "fp-res_1" (compute.MkMachine "1x64" "name:alpine" "" "" ∅ None) 1 64
             (IdentityLabels "own_1" "res_1" "op_1")))) false.
Definition cut_off : result OperationRef * list string := Docker_Apply (W := list string) local_docker container_create [].
End docker.

(** A request whose reply breaks off is reported as retryable and without
    effect, whatever it was and whatever the daemon did with it; so is a create
    whose container was made. *)
Theorem docker_denies_its_effect :
  (∀ W (API : Docker.EngineAPI W) d method path body effect w status text cause w',
     Docker.round_trip method (Docker.k_base d +:+ path) (print <$> body) w =
       (Docker.Reply status (Docker.MkBody text (Some cause)), w') →
     ∃ e, Docker.do_ d method path body effect w = (Err e, w') ∧ Classify e = ErrRetryable ∧ Effect e = EffectNone) ∧
  cut_off.2 = ["fp-res_1"%string] ∧ ∃ e, cut_off.1 = Err e ∧ Classify e = ErrRetryable ∧ Effect e = EffectNone.
Proof.
  split_and!.
  - intros W API d method path body effect w status text cause w' Hr. unfold Docker.do_. rewrite Hr. by eexists.
  - vm_compute. reflexivity.
  - eexists. split; [vm_compute; reflexivity|]. split; reflexivity.
Qed.
