(* ===== verification/Once.v ===== *)
(** * Creates happen once

    The process and the clouds as one transition system, [cstep], with its
    invariant, after what every transaction leaves of the journal.

    The columns of an operation that never change, the kind of the resource it
    is about, and the rule that a create is only put back into the journal by
    the engine: [grows], a preorder on worlds along which every transaction of
    the process moves, the engine's own [retry] aside. *)

From stdpp Require Import base gmap strings list relations.
From S2P Require Import Prelude Errors Json Phase SDK Capacity Types Store Kinds Classes Provision Sys Lease Engine Scheduler Reconcile Discovery App Spec Abs Refine System Contract Via Handlers.

Definition core (o : Operation) : OpKind * option string * string * jcol Action :=
  (o_Kind o, o_ResourceID o, o_Provider o, o_Action o).
Definition kinds (w : World) : gmap string string := r_Kind <$> db_Resources (w_DB w).
Definition row (w : World) (k : string) : option Operation := db_Operations (w_DB w) !! k.

(** The address an operation is carried out at. *)
Definition home (w : World) (o : Operation) : option address :=
  r ← o_ResourceID o; kind ← kinds w !! r; Some (o_Provider o, kind).

Section journal.
Context `{ULID} {P : Type} `{Providers P}.
Variable owner : string.

(** What an operation was appended with. *)
Definition issued (k : string) (o : Operation) (w : World) : Prop :=
  ∃ x a, home w o = Some x ∧ o_Action o = JVal a ∧
    (if decide (o_Kind o = OpKindCreate) then planned owner x k a else follow_up a).

Record grows (w w' : World) : Prop := {
  gr_kinds : kinds w ⊆ kinds w';
  gr_kept k o : row w k = Some o → ∃ o', row w' k = Some o' ∧ core o' = core o ∧
    (o_Kind o = OpKindCreate → o_State o' = OpJournaled → o_State o = OpJournaled);
  gr_new k o : row w' k = Some o → row w k = None → issued k o w'
}.

Lemma home_grows w w' o o' x :
  kinds w ⊆ kinds w' → core o' = core o → home w o = Some x → home w' o' = Some x.
Proof.
  unfold home, core. intros Hk [= Ek Er Ep Ea] Hx. rewrite Er, Ep.
  apply bind_Some in Hx as (r & Hr & Hx). apply bind_Some in Hx as (kd & Hkd & Hx).
  rewrite Hr. simpl. by rewrite (lookup_weaken _ _ _ _ Hkd Hk).
Qed.

Lemma issued_grows w w' k o o' :
  kinds w ⊆ kinds w' → core o' = core o → issued k o w → issued k o' w'.
Proof.
  intros Hk Hc (x & a & Hx & Ha & Hi). exists x, a. split; [by eapply home_grows|].
  injection Hc as -> _ _ ->. by split.
Qed.

#[global] Instance grows_refl : Reflexive grows.
Proof. intros w. split; [done|intros k o Hr; by exists o|]. intros. congruence. Qed.
#[global] Instance grows_trans : Transitive grows.
Proof.
  intros w1 w2 w3 [K1 R1 N1] [K2 R2 N2]. split.
  - by etrans.
  - intros k o Ho. destruct (R1 _ _ Ho) as (o2 & H2 & C2 & J2). destruct (R2 _ _ H2) as (o3 & H3 & C3 & J3).
    exists o3. split_and!; [done|congruence|]. intros Hk Hj. apply J2; [done|]. apply J3; [|done].
    injection C2 as E _ _ _. by rewrite E.
  - intros k o Ho Hn. destruct (row w2 k) as [o2|] eqn:E2; [|by apply N2].
    destruct (R2 _ _ E2) as (o3 & H3 & C3 & _). assert (o3 = o) as -> by congruence.
    eapply issued_grows; [exact K2|exact C3|]. by apply N1.
Qed.

Lemma grows_same w w' : kinds w ⊆ kinds w' → db_Operations (w_DB w') = db_Operations (w_DB w) → grows w w'.
Proof.
  intros Hk Ho. split; [done|..]; unfold row; rewrite Ho; [intros k o Hr; by exists o|]. intros. congruence.
Qed.

(** ** Statements *)

Definition moves {A} (m : M World A) : Prop := ∀ w, grows w (m w).2.

Lemma moves_bind {A B} (m : M World A) (k : A → M World B) :
  moves m → (∀ a, moves (k a)) → moves (bindM m k).
Proof.
  intros Hm Hk w. specialize (Hm w). unfold bindM.
  destruct (m w) as [[a|e] w']; simpl in *; [|done]. etrans; [done|apply Hk].
Qed.
Lemma moves_try {A} (m : M World A) : moves m → moves (tryM m).
Proof. intros Hm w. specialize (Hm w). unfold tryM. by destruct (m w). Qed.
Lemma moves_ignore {A} (m : M World A) : moves m → moves (ignoreM m).
Proof. intros Hm w. apply Hm. Qed.
Lemma Tx_grows {A} (m : M World A) w : grows w (m w).2 → grows w (Tx m w).2.
Proof. intros Hm. unfold Tx. destruct (m w) as [[?|?] ?]; [done|]. by apply grows_same. Qed.
Lemma moves_Tx {A} (m : M World A) : moves m → moves (Tx m).
Proof. intros Hm w. apply Tx_grows, Hm. Qed.
Lemma moves_pure {A} (m : M World A) : pure m → moves m.
Proof. intros Hm w. by rewrite Hm. Qed.

(** Statements on other tables. *)
Lemma moves_apart {A} (m : M World A) : spares db_Resources m → spares db_Operations m → moves m.
Proof. intros Hr Ho w. apply grows_same; [|apply Ho]. unfold kinds. by rewrite Hr. Qed.

Lemma moves_res_update id Q f e : (∀ r, r_Kind (f r) = r_Kind r) →
  moves (row_update db_Resources up_Resources id Q f e).
Proof.
  intros Hf w. unfold row_update. destruct (_ !! id) as [r|] eqn:E; [|done]. destruct (Q r); [|done].
  apply grows_same; [|done]. unfold kinds. simpl. rewrite fmap_insert, Hf, insert_id; [done|].
  by rewrite lookup_fmap, E.
Qed.
Lemma moves_CASPhase id p q t : moves (Resources_CASPhase id p q t).
Proof. apply moves_res_update. intros r. unfold cas_row. by repeat case_decide. Qed.
Lemma moves_SetExternalRef id e r : moves (Resources_SetExternalRef id e r).
Proof.
  intros w. unfold Resources_SetExternalRef. destruct (_ !! id) as [x|] eqn:E; [|done].
  case_match; [done|]. apply grows_same; [|done]. unfold kinds. simpl. rewrite fmap_insert. simpl.
  rewrite insert_id; [done|]. by rewrite lookup_fmap, E.
Qed.
Lemma moves_Create r : moves (Resources_Create r).
Proof.
  intros w. unfold Resources_Create, row_insert. destruct (_ !! _) eqn:E; [done|]. destruct (_ && _); [|done].
  apply grows_same; [|done]. unfold kinds. simpl. rewrite fmap_insert. apply insert_subseteq.
  by rewrite lookup_fmap, E.
Qed.

(** What a transition leaves of the journal: all but the state of its row. *)
Lemma Transition_core id p q mut w : (∀ o, o_State (mut o) = o_State o) →
  let w' := (Operations_Transition id p q mut w).2 in
  kinds w' = kinds w ∧
  (∀ k o, row w k = Some o → ∃ o', row w' k = Some o' ∧ core o' = core o ∧ (k ≠ id → o' = o) ∧
     (o_State o' = o_State o ∨ o_State o' = q)) ∧
  (∀ k, row w k = None → row w' k = None).
Proof.
  intros Hm w'. subst w'. unfold Operations_Transition, Operations_Get, row_get, bindM.
  destruct (_ !! id) as [cur|] eqn:E; [|split_and!; eauto 10]. case_decide; [|split_and!; eauto 10].
  simpl. unfold row_update. rewrite E. destruct (bool_decide _); [|split_and!; eauto 10]. simpl.
  split_and!; [done|..]; unfold row; simpl.
  - intros k o. rewrite lookup_insert. case_decide; [subst|eauto 10]. rewrite E. intros [= <-].
    eexists. split_and!; [done|done|done|]. right. simpl. rewrite Hm. unfold transitioned. by case_match.
  - intros k. rewrite lookup_insert. case_decide; [subst; congruence|done].
Qed.
Lemma Transition_Tx id p q mut w :
  w_DB (Tx (Operations_Transition id p q mut) w).2 = w_DB (Operations_Transition id p q mut w).2.
Proof.
  unfold Tx, Operations_Transition, Operations_Get, row_get, bindM.
  destruct (_ !! id) as [cur|] eqn:E; [|done]. case_decide; [|done].
  simpl. unfold row_update. rewrite E. by destruct (bool_decide _).
Qed.

(** No create is put back into the journal. *)
Lemma Transition_grows id p q mut w :
  (∀ o, row w id = Some o → o_Kind o = OpKindCreate → q ≠ OpJournaled) →
  (∀ o, o_State (mut o) = o_State o) → grows w (Operations_Transition id p q mut w).2.
Proof.
  intros Hq Hm. destruct (Transition_core id p q mut w Hm) as (Hk & Hr & Hn). split; [by rewrite Hk|..].
  - intros k o Ho. destruct (Hr _ _ Ho) as (o' & Ho' & Hc & Hne & Hst). exists o'. split_and!; [done..|].
    intros Hkind Hj. destruct Hst as [Hst|Hst]; [by rewrite <-Hst|].
    destruct (decide (k = id)) as [->|Hd]; [|by rewrite <-(Hne Hd)]. exfalso. eapply Hq; [done..|congruence].
  - intros k o Ho Hno. by rewrite (Hn _ Hno) in Ho.
Qed.
Lemma moves_Transition id p q mut :
  (q ≠ OpJournaled ∧ ∀ o, o_State (mut o) = o_State o) → moves (Operations_Transition id p q mut).
Proof. intros [Hq Hm] w. by apply Transition_grows. Qed.

(** A follow-up of a resource on record. *)
Lemma moves_Append o r a : o_Kind o ≠ OpKindCreate → o_ResourceID o = Some r → o_Action o = JVal a →
  follow_up a → moves (Operations_Append o).
Proof.
  intros Hk Hr Ha Hf w. unfold Operations_Append. case_decide; [|done]. unfold row_insert.
  destruct (_ !! o_ID o) eqn:E; [done|]. destruct (_ && _) eqn:Hfk; [|done]. split; [done|..]; unfold row; simpl.
  - intros k o'. rewrite lookup_insert. case_decide; [subst; congruence|intros Hko; by exists o'].
  - intros k o'. rewrite lookup_insert. case_decide; [subst|congruence]. intros [= <-] _.
    rewrite !andb_true_iff, Hr in Hfk. destruct Hfk as [[[_ Hres] _] _]. simpl in Hres.
    destruct (db_Resources (w_DB w) !! r) as [x|] eqn:Hx; [|done].
    exists (o_Provider o, r_Kind x), a. rewrite decide_False by done. split; [|done].
    unfold home, kinds. rewrite Hr. simpl. by rewrite lookup_fmap, Hx.
Qed.
Lemma moves_Pools_Delete id : moves (Pools_Delete id).
Proof.
  intros w. set (f := λ o, if points_at id (o_PoolID o) && negb (open o) then with_o_PoolID None o else o).
  assert (∀ w', kinds w' = kinds w → db_Operations (w_DB w') = f <$> db_Operations (w_DB w) → grows w w') as Hd.
  { intros w' Hk Ho. split; [by rewrite Hk|..]; unfold row; rewrite Ho.
    - intros k o Hko. rewrite lookup_fmap, Hko. eexists. split; [done|]. unfold f. by case_match.
    - intros k o. rewrite lookup_fmap. intros (o' & Ho' & _)%fmap_Some ?. congruence. }
  assert (∀ g, (∀ r : Resource, r_Kind (g r) = r_Kind r) →
    r_Kind <$> (g <$> db_Resources (w_DB w)) = r_Kind <$> db_Resources (w_DB w)) as Hk.
  { intros g Hg. rewrite <-map_fmap_compose. apply map_fmap_ext. intros i x _. apply Hg. }
  unfold Pools_Delete. repeat case_match; apply Hd; try done; apply Hk; intros r; by case_match.
Qed.

(** ** Transactions *)

(** A journaled create with its record. *)
Definition stamped (p : Prepared) : Prop :=
  ∃ a, o_Action (Prepared_Op p) = JVal a ∧
    planned owner (o_Provider (Prepared_Op p), r_Kind (Prepared_Resource p)) (o_ID (Prepared_Op p)) a.

Lemma moves_Events ev : moves (Events_Append ev).
Proof. by apply moves_apart; intros w. Qed.

Lemma moves_Journal p actor key : prepared p → stamped p → moves (Journal p actor key).
Proof.
  intros Hp (a & Ha & Hpl) w. unfold Journal. set (r := Prepared_Resource p) in *.
  pose proof (moves_Create r w) as Hc. unfold bindM at 1.
  destruct (Resources_Create r w) as [[[]|e] w1] eqn:Hr; simpl in Hc; [|exact Hc]. etrans; [exact Hc|].
  assert (kinds w1 !! r_ID r = Some (r_Kind r)) as Hkd.
  { unfold Resources_Create, row_insert in Hr. destruct (_ !! _); [done|]. destruct (_ && _); [|done].
    injection Hr as <-. unfold kinds. simpl. by rewrite lookup_fmap, lookup_insert_eq. }
  assert (grows w1 (Operations_Append (Prepared_Op p) w1).2) as Happ.
  { unfold Operations_Append. case_decide; [|done]. unfold row_insert.
    destruct (_ !! o_ID _) eqn:E; [done|]. destruct (_ && _); [|done]. split; [done|..]; unfold row; simpl.
    - intros k o'. rewrite lookup_insert. case_decide; [subst; congruence|intros Hko; by exists o'].
    - intros k o'. rewrite lookup_insert. case_decide; [subst|congruence]. intros [= <-] _.
      exists (o_Provider (Prepared_Op p), r_Kind r), a. rewrite decide_True by apply (prepared_kind _ Hp).
      split; [|done]. unfold home. rewrite (prepared_res _ Hp). fold r. simpl. unfold kinds in Hkd |- *. simpl.
      by rewrite Hkd. }
  unfold bindM. destruct (Operations_Append _ w1) as [[[]|e] w2]; simpl in Happ; [|exact Happ].
  etrans; [exact Happ|]. apply moves_Events.
Qed.

End journal.

Create HintDb jn discriminated.
#[export] Hint Resolve moves_CASPhase moves_SetExternalRef moves_Create moves_Events moves_Pools_Delete : jn.

(** Discharges [moves] of a statement on another table. *)
Ltac moves_other :=
  apply moves_apart; intros ?;
  unfold Resources_PutObserved, Leases_Insert, Leases_Transition, Acquisitions_Insert,
    Acquisitions_Transition, Acquisitions_Bind, Acquisitions_SetPendingResource,
    Acquisitions_ClearPendingResource, Idempotency_Begin, Idempotency_finish, Idempotency_get,
    row_get, row_update, row_insert, bindM, nowM, getsM, failM;
  repeat (case_match; simplify_eq/=); done.

Ltac moves_step :=
  match goal with
  | |- moves _ (match ?x with _ => _ end) => destruct x
  | |- moves _ (bindM _ _) => apply moves_bind; [|intros ?]
  | |- moves _ (ignoreM _) => apply moves_ignore
  | |- moves _ (tryM _) => apply moves_try
  | |- moves _ (let _ := _ in _) => cbv zeta
  | |- moves _ (Operations_Transition _ _ _ _) => apply moves_Transition; by auto
  | |- moves _ (Operations_Append _) => eapply moves_Append; [done..|set_solver]
  | |- moves _ (Resources_MarkDeleted _ _) => by apply moves_res_update
  | |- moves _ (Resources_SetProviderFacts _ _ _ _) => by apply moves_res_update
  | |- moves _ (Resources_SetLastLeaseEnded _ _) => by apply moves_res_update
  | |- moves _ (Resources_SetDeleteProtected _ _ _) => by apply moves_res_update
  | |- moves _ _ => first [solve [auto with jn] | apply moves_pure; solve [auto with fp]]
  end.
Ltac moves_tac := repeat moves_step.

Section transactions.
Context `{ULID} {P : Type} `{Providers P}.
Context (owner : string) (G : Grant).
Hypothesis Hmay : ∀ k, ¬ may G k.
Hypothesis Hstamped : ∀ p, journals G p → stamped owner p.

Lemma kstep_grows w w' : kstep G w w' → grows owner w w'.
Proof.
  intros Hst. destruct Hst;
    try (lazymatch goal with
         | |- grows _ _ (Tx (Operations_Transition _ _ _ _) _).2 => apply Tx_grows
         | |- grows _ _ (Tx ?m w).2 => apply (moves_Tx owner m) end).
  { destruct (H1 w) as (Hr & _ & _ & Ho). apply grows_same; [|done]. unfold kinds. by rewrite Hr. }
  all: unfold createTx, acquireTx, keyedTx, beginKeyed, completeKeyed, Idempotency_Complete, deleteTx,
    deleteGates, deletePoolTx, reserveTx, acceptTx, adoptTx, rescheduleTx, succeedRunningTx,
    succeedStopTx, succeedDeleteTx, failOpTx, prebindTx, startParkedTx, rePendTx, closeAcqTx, stopTx,
    startTx, journalTx, mintTx, drainTx, undrainTx, protectTx, retryVerificationTx, markFailedTx,
    dispatchTx, releaseTx, expireTx, finishLease, endLeaseLocked, refreshTx, tombstoneTx,
    journalDeleteTx, costReclaimTx, JournalStop, JournalStart, journalPhaseOp, journalDeleteInTx.
  all: moves_tac; try moves_other.
  - apply Transition_grows; [|by intros o; apply H1]. intros o Ho Hk Hto.
    destruct (H5 Hto) as [Hg|Hg]; [by eapply Hmay|by eapply Hg].
  - apply moves_Journal; auto.
  - apply moves_Journal; auto.
  - apply moves_Journal; auto.
  - eapply moves_Append; [unfold stampKey; by case_match..|]. unfold follow_up. simpl. set_solver.
Qed.

Lemma ksteps_grow w w' : rtc (kstep G) w w' → grows owner w w'.
Proof. induction 1; [done|]. etrans; [by apply kstep_grows|done]. Qed.
End transactions.

(** * A create is carried out at most once

    The process and the clouds as one transition system: a transaction of any
    goroutine, a driver call that reads, a follow-up call, and the engine's
    dispatch of a create cut into its parts, the journal entry, the call, the
    answer, the retry; and the verification of a create of unknown outcome,
    the search and what is done when it finds nothing. A crash can come
    anywhere: the call that was under way is then in flight, and lands later
    or never. The retry rules and the [HonestClouds] contract together keep an
    invariant that yields: for every journaled create there is at most one
    machine, whatever crashes, lost replies and interleavings. *)

(** What the engine's goroutine is in the middle of: the call of a create at
    an address, its answer, or the verdict of a search that found nothing. *)
Inductive Thread :=
| Idle | Calling (x : address) (op : string) (a : Action)
| Called (op : string) (r : result OperationRef) | Missing (op : string).

(** A create call that a crashed process has left behind. *)
Definition request : Type := address * string * Action.

Section once.
Context `{ULID} {P : Type} `{Providers P} `{Cloud P}.
Variable owner : string.

Record Conf := MkConf {
  cf_World : World; cf_Clouds : P; cf_Thread : Thread; cf_Flying : list request;
  cf_Misses : list string }.

(** The goroutines other than the engine's dispatch of creates. *)
Definition others : Grant := MkGrant (λ _, False) (stamped owner).

(** The listing at [x] has caught up with the machines of [k], and no request
    for [k] is still to land. *)
Definition caught_up (p : P) (fl : list request) (x : address) (k : string) : Prop :=
  complete p x k ∧ ∀ y a, (y, k, a) ∉ fl.

Inductive cstep : Conf → Conf → Prop :=
(* a transaction, a read of the clouds, a stop, start or delete, the clouds
   themselves *)
| C_other w w' p t fl ms : kstep others w w' → cstep (MkConf w p t fl ms) (MkConf w' p t fl ms)
| C_read w p t fl ms x d f : driver_at x = Some d → read_call d f →
    cstep (MkConf w p t fl ms) (MkConf w (f p) t fl ms)
| C_follow w p t fl ms x d a : driver_at x = Some d → follow_up a →
    cstep (MkConf w p t fl ms) (MkConf w (Apply d a p).2 t fl ms)
| C_follow_dispatch w p t fl ms k dl o : row w k = Some o → o_Kind o ≠ OpKindCreate →
    kstep (dispatching k) w (Tx (dispatchTx k dl) w).2 →
    cstep (MkConf w p t fl ms) (MkConf (Tx (dispatchTx k dl) w).2 p t fl ms)
| C_drift w p p' t fl ms : drifts p p' → cstep (MkConf w p t fl ms) (MkConf w p' t fl ms)
(* the dispatch of a create *)
| C_dispatch w p fl ms k dl o x a :
    row w k = Some o → o_Kind o = OpKindCreate → o_State o = OpJournaled →
    home w o = Some x → o_Action o = JVal a →
    cstep (MkConf w p Idle fl ms) (MkConf (Tx (dispatchTx k dl) w).2 p (Calling x k a) fl ms)
| C_call w p fl ms x k a d : driver_at x = Some d →
    cstep (MkConf w p (Calling x k a) fl ms) (MkConf w (Apply d a p).2 (Called k (Apply d a p).1) fl ms)
| C_retry w p fl ms k e next : Effect e = EffectNone →
    cstep (MkConf w p (Called k (Err e)) fl ms)
      (MkConf (Tx (applyErrorTx k OpJournaled next e) w).2 p Idle fl ms)
(* the verification of a create: a search comes back empty and the engine takes
   the create for absent. The verdict holds when the listing shows what there is
   and no request is on its way any more; otherwise it is a miss, and recorded *)
| C_search w p fl ms k o x d : row w k = Some o → home w o = Some x →
    driver_at x = Some d → searchable x → caught_up p fl x k →
    (Discover d (search k) p).1 = Ok [] →
    cstep (MkConf w p Idle fl ms) (MkConf w (Discover d (search k) p).2 (Missing k) fl ms)
| C_miss w p fl ms k o x d : row w k = Some o → o_Kind o = OpKindCreate → home w o = Some x →
    driver_at x = Some d → searchable x → ¬ caught_up p fl x k →
    (Discover d (search k) p).1 = Ok [] →
    cstep (MkConf w p Idle fl ms) (MkConf w (Discover d (search k) p).2 (Missing k) fl (k :: ms))
| C_rejournal w p fl ms k :
    cstep (MkConf w p (Missing k) fl ms) (MkConf (Tx (moveTx k OpVerifying OpJournaled) w).2 p Idle fl ms)
(* the end of a turn, or a crash; a crash during a call *)
| C_end w p t fl ms : cstep (MkConf w p t fl ms) (MkConf w p Idle fl ms)
| C_crash w p fl ms x k a : cstep (MkConf w p (Calling x k a) fl ms) (MkConf w p Idle ((x, k, a) :: fl) ms)
| C_land w p t fl1 fl2 ms x k a d : driver_at x = Some d →
    cstep (MkConf w p t (fl1 ++ (x, k, a) :: fl2) ms) (MkConf w (Apply d a p).2 t (fl1 ++ fl2) ms).

(** ** The invariant *)

(** The create calls that may still have an effect. *)
Definition pending (c : Conf) : list request :=
  match cf_Thread c with Calling x k a => [(x, k, a)] | _ => [] end ++ cf_Flying c.
Definition is_for (y : address) (k : string) (r : request) : Prop := r.1 = (y, k).
#[local] Instance is_for_dec y k r : Decision (is_for y k r).
Proof. unfold is_for. apply _. Defined.
Definition load (c : Conf) (y : address) (k : string) : nat :=
  (machines (cf_Clouds c) y k + length (filter (is_for y k) (pending c)))%nat.

(** A create of which the engine believes that nothing came of it. *)
Definition refuted (t : Thread) (k : string) : Prop :=
  match t with
  | Missing j => j = k
  | Called j (Err e) => j = k ∧ Effect e = EffectNone
  | _ => False
  end.
Definition undispatched (w : World) (k : string) : Prop :=
  ∀ o, row w k = Some o → o_Kind o = OpKindCreate → o_State o = OpJournaled.

(** How often the engine took [k] for absent too early. *)
Definition misses (c : Conf) (k : string) : nat := length (filter (λ j, j = k) (cf_Misses c)).

Record Once (c : Conf) : Prop := {
  on_good : Good (cf_World c);
  on_sane : sane (cf_Clouds c);
  on_issued k o : row (cf_World c) k = Some o → issued owner k o (cf_World c);
  on_pending x k a : (x, k, a) ∈ pending c → planned owner x k a;
  on_once y k : (load c y k ≤ 1 + misses c k)%nat;
  on_fresh k y : undispatched (cf_World c) k → (load c y k ≤ misses c k)%nat;
  on_home k o x y : row (cf_World c) k = Some o → home (cf_World c) o = Some x → y ≠ x →
    load c y k = 0%nat;
  on_refuted k y : refuted (cf_Thread c) k → (load c y k ≤ misses c k)%nat;
  on_missed k : k ∈ cf_Misses c → ∃ o, row (cf_World c) k = Some o ∧ o_Kind o = OpKindCreate
}.

(** No misses of what is not a create on record. *)
Lemma unmissed c k : Once c → (∀ o, row (cf_World c) k = Some o → o_Kind o ≠ OpKindCreate) → misses c k = 0%nat.
Proof.
  intros HO Hn. unfold misses. destruct (filter _ _) as [|j l] eqn:E; [done|]. exfalso.
  assert (j ∈ filter (λ j, j = k) (cf_Misses c)) as Hin by (rewrite E; left).
  apply list_elem_of_filter in Hin as [-> (o & Ho & Hk)%(on_missed _ HO)]. by apply (Hn o).
Qed.
Lemma not_loaded c y k : Once c → row (cf_World c) k = None → load c y k = 0%nat.
Proof.
  intros HO Hn. apply Nat.le_0_r. rewrite <-(unmissed c k HO) by (intros o; congruence).
  apply (on_fresh _ HO). intros o. congruence.
Qed.

(** What a step that adds no load has to keep. *)
Record shrinks (c c' : Conf) : Prop := {
  sh_kinds : kinds (cf_World c) ⊆ kinds (cf_World c');
  sh_kept k o : row (cf_World c) k = Some o → ∃ o', row (cf_World c') k = Some o' ∧ core o' = core o ∧
    (o_Kind o = OpKindCreate → o_State o' = OpJournaled →
     o_State o = OpJournaled ∨ ∀ y, (load c y k ≤ misses c k)%nat);
  sh_new k o : row (cf_World c') k = Some o → row (cf_World c) k = None → issued owner k o (cf_World c');
  sh_pending r : r ∈ pending c' → r ∈ pending c;
  sh_load y k : (load c' y k ≤ load c y k)%nat;
  sh_refuted k : refuted (cf_Thread c') k → refuted (cf_Thread c) k ∨ ∀ y, (load c' y k ≤ misses c k)%nat;
  sh_misses : cf_Misses c' = cf_Misses c
}.

Lemma Once_shrinks c c' :
  Once c → Good (cf_World c') → sane (cf_Clouds c') → shrinks c c' → Once c'.
Proof.
  intros HO Hg Hs [Ek Ekept Enew Epen Eload Eref Em].
  pose proof HO as [_ _ Hi Hp Hon Hf Hh Hr Hm].
  assert (∀ k, misses c' k = misses c k) as Hms by (intros k; unfold misses; by rewrite Em).
  split; [done|done|..].
  - intros k o Ho. destruct (row (cf_World c) k) as [o0|] eqn:E; [|by apply Enew].
    destruct (Ekept _ _ E) as (o' & Ho' & Hc & _). assert (o' = o) as -> by congruence.
    eapply issued_grows; [exact Ek|exact Hc|by apply Hi].
  - intros x k a Hin. by apply Hp, Epen.
  - intros y k. rewrite Hms. etrans; [apply Eload|apply Hon].
  - intros k y Hu. rewrite Hms. etrans; [apply Eload|]. destruct (row (cf_World c) k) as [o|] eqn:E.
    + destruct (Ekept _ _ E) as (o' & Ho' & [= Hk _ _ _] & Hj). destruct (decide (o_Kind o = OpKindCreate)) as [Hc|Hc].
      * assert (o_State o' = OpJournaled) as Hs' by (apply (Hu _ Ho'); congruence).
        destruct (Hj Hc Hs') as [Hjo|Hl]; [|apply Hl]. apply Hf. intros o2 Ho2. congruence.
      * apply Hf. intros o2 Ho2 ?. congruence.
    + apply Hf. intros o2 Ho2. congruence.
  - intros k o x y Ho Hx Hy. apply Nat.le_0_r. etrans; [apply Eload|]. apply Nat.le_0_r.
    destruct (row (cf_World c) k) as [o0|] eqn:E.
    + destruct (Ekept _ _ E) as (o' & Ho' & Hc & _). assert (o' = o) as -> by congruence.
      destruct (Hi _ _ E) as (x0 & a0 & Hx0 & _). eapply Hh; [exact E|exact Hx0|].
      intros ->. apply Hy. pose proof (home_grows _ _ _ _ _ Ek Hc Hx0). congruence.
    + by apply not_loaded.
  - intros k y Hk. rewrite Hms. destruct (Eref _ Hk) as [Hk'|Hk']; [|apply Hk'].
    etrans; [apply Eload|by apply Hr].
  - intros k. rewrite Em. intros (o & Ho & Hk)%Hm. destruct (Ekept _ _ Ho) as (o' & Ho' & [= Hk' _ _ _] & _).
    exists o'. split; [done|congruence].
Qed.

Lemma shrinks_grows c c' :
  grows owner (cf_World c) (cf_World c') → (∀ r, r ∈ pending c' → r ∈ pending c) →
  (∀ y k, (load c' y k ≤ load c y k)%nat) →
  (∀ k, refuted (cf_Thread c') k → refuted (cf_Thread c) k ∨ ∀ y, (load c' y k ≤ misses c k)%nat) →
  cf_Misses c' = cf_Misses c → shrinks c c'.
Proof.
  intros [Hk Hr Hn]. split; try done. intros k o Ho. destruct (Hr _ _ Ho) as (o' & ? & ? & Hj).
  exists o'. split_and!; [done|done|]. intros Hc Hs. left. by apply Hj.
Qed.

(** A transaction that adds nothing to the journal's undispatched creates. *)
Lemma Once_world c w' : Once c → Good w' → grows owner (cf_World c) w' →
  Once (MkConf w' (cf_Clouds c) (cf_Thread c) (cf_Flying c) (cf_Misses c)).
Proof. intros HO Hg Hw. eapply Once_shrinks; [exact HO|done|apply HO|]. apply shrinks_grows; auto. Qed.

(** A call after which there are no more machines than before. *)
Lemma Once_clouds c p' : Once c → sane p' → fewer (cf_Clouds c) p' →
  Once (MkConf (cf_World c) p' (cf_Thread c) (cf_Flying c) (cf_Misses c)).
Proof.
  intros HO Hs Hp. eapply Once_shrinks; [exact HO|apply HO|done|]. apply shrinks_grows; simpl; [done|done| |auto|done].
  intros y k. unfold load. simpl. specialize (Hp y k). 
  change (pending (MkConf _ _ _ _ _)) with (pending c). lia.
Qed.

(** The end of a turn. *)
Lemma Once_end w p t fl ms : Once (MkConf w p t fl ms) → Once (MkConf w p Idle fl ms).
Proof.
  intros HO. eapply Once_shrinks; [exact HO|apply HO..|]. apply shrinks_grows; simpl; [done| | |done|done].
  - intros r Hr. unfold pending in *. simpl in *. destruct t; set_solver.
  - intros y k. unfold load, pending. simpl. rewrite filter_app, length_app. lia.
Qed.

(** The engine puts back a create nothing came of. *)
Lemma Once_rejournal w p t fl ms k from mut :
  Once (MkConf w p t fl ms) → schedules mut → op_move from OpJournaled = true → refuted t k →
  Once (MkConf (Tx (Operations_Transition k from OpJournaled mut) w).2 p Idle fl ms).
Proof.
  intros HO Hm Hmv Hk. pose proof (on_good _ HO) as Hg. simpl in Hg.
  eapply Once_shrinks; [apply (Once_end _ _ _ _ _ HO)| |apply HO|].
  { simpl. eapply (Good_step any_op); [exact Hg|]. apply K_transition; [done..| |by left].
    by intros. }
  assert (∀ y, (load (MkConf w p Idle fl ms) y k ≤ misses (MkConf w p Idle fl ms) k)%nat) as Hz.
  { intros y. pose proof (on_refuted _ HO k y Hk) as Hl. revert Hl. unfold load, misses, pending. simpl.
    rewrite filter_app, length_app. lia. }
  destruct (Transition_core k from OpJournaled mut w) as (Ek & Ekept & Enew); [by intros o; apply Hm|].
  unfold kinds, row in *. rewrite <-Transition_Tx in Ek, Ekept, Enew.
  split; simpl; unfold kinds, row; try done.
  - by rewrite Ek.
  - intros j o Ho. destruct (Ekept _ _ Ho) as (o' & Ho' & Hc & Hs & _). exists o'. split_and!; [done|done|].
    intros _ Hj. destruct (decide (j = k)) as [->|Hne]; [by right|left]. by rewrite <-(Hs Hne).
  - intros j o Ho Hn. by rewrite (Enew _ Hn) in Ho.
Qed.

(** The dispatch of a create: its row leaves the journaled state, and from then
    on there is one call to be made. *)
Lemma dispatchTx_row w k dl o : row w k = Some o → o_State o = OpJournaled →
  ∃ o', row (Tx (dispatchTx k dl) w).2 k = Some o' ∧ core o' = core o ∧ o_State o' = OpInFlight.
Proof.
  unfold row. intros Ho Hs. unfold Tx, dispatchTx, Operations_Transition, Operations_Get, row_get, bindM.
  rewrite Ho, decide_True by done. simpl. unfold row_update. rewrite Ho, bool_decide_eq_true_2 by done.
  eexists. simpl. by rewrite lookup_insert_eq.
Qed.

Lemma dispatchTx_steps w k dl o : row w k = Some o → o_Kind o = OpKindCreate →
  kstep any_op w (Tx (dispatchTx k dl) w).2 ∧ grows owner w (Tx (dispatchTx k dl) w).2.
Proof.
  intros Ho Hk. split.
  - apply K_dispatch; [done|]. intros o' Ho'. unfold row in Ho. assert (o' = o) as -> by congruence.
    by rewrite Hk.
  - apply Tx_grows, moves_Transition. by split.
Qed.

Lemma planned_at x k a : planned owner x k a → ∃ d, driver_at x = Some d.
Proof. intros (d & _ & _ & _ & _ & _ & Hd & _). by exists d. Qed.

Lemma filter_for y k x j (a : Action) :
  length (filter (is_for y k) [(x, j, a)]) = if decide ((y, k) = (x, j)) then 1%nat else 0%nat.
Proof.
  rewrite filter_cons. unfold is_for. simpl. repeat case_decide; simplify_eq; done.
Qed.

Lemma Once_dispatch w p fl ms k dl o x a :
  Once (MkConf w p Idle fl ms) → row w k = Some o → o_Kind o = OpKindCreate → o_State o = OpJournaled →
  home w o = Some x → o_Action o = JVal a →
  Once (MkConf (Tx (dispatchTx k dl) w).2 p (Calling x k a) fl ms).
Proof.
  intros HO Ho Hk Hs Hx Ha. destruct (dispatchTx_steps w k dl o Ho Hk) as [Hst Hgr].
  destruct (dispatchTx_row w k dl o Ho Hs) as (o' & Ho' & Hc & Hs').
  pose proof (Once_world _ _ HO (Good_step _ _ _ (on_good _ HO) Hst) Hgr) as [G1 S1 I1 P1 O1 F1 L1 R1 M1].
  simpl in *. set (w' := (Tx (dispatchTx k dl) w).2) in *.
  assert (∀ y, (load (MkConf w p Idle fl ms) y k ≤ misses (MkConf w p Idle fl ms) k)%nat) as Hz.
  { intros y. apply (on_fresh _ HO). simpl. intros o2 Ho2 _. congruence. }
  assert (∀ y j, load (MkConf w' p (Calling x k a) fl ms) y j =
    load (MkConf w p Idle fl ms) y j + if decide ((y, j) = (x, k)) then 1 else 0)%nat as Hl.
  { intros y j. unfold load. change (pending (MkConf w' p (Calling x k a) fl ms)) with ([(x, k, a)] ++ fl).
    rewrite filter_app, length_app, filter_for. unfold pending. simpl. lia. }
  assert (o_Kind o' = OpKindCreate) as Hk' by (injection Hc as E _ _ _; congruence).
  split; simpl; [done|done|done|..].
  - intros x2 k2 a2 [[= -> -> ->]|Hin]%elem_of_cons; [|by apply P1].
    destruct (on_issued _ HO k o Ho) as (x' & a' & Hx' & Ha' & Hpl). simpl in Hx'.
    rewrite decide_True in Hpl by done. congruence.
  - intros y j. rewrite Hl. case_decide as Heq; [|specialize (O1 y j); unfold load, misses, pending in *; simpl in *; lia].
    injection Heq as -> ->. specialize (Hz x). unfold misses in *. simpl in *. lia.
  - intros j y Hu. rewrite Hl. case_decide as Heq; [|rewrite Nat.add_0_r; by apply F1].
    injection Heq as -> ->. exfalso. specialize (Hu _ Ho' Hk'). congruence.
  - intros j oj xj y Hoj Hxj Hy. rewrite Hl. case_decide as Heq; [|rewrite Nat.add_0_r; by eapply L1].
    injection Heq as -> ->. exfalso. apply Hy. assert (oj = o') as -> by congruence.
    pose proof (home_grows _ _ _ _ _ (gr_kinds _ _ _ Hgr) Hc Hx). congruence.
  - done.
  - exact M1.
Qed.

(** Load is only where the operation is to be carried out. *)
Lemma loaded_home c y k : Once c → (0 < load c y k)%nat → ∃ o,
  row (cf_World c) k = Some o ∧ home (cf_World c) o = Some y ∧
  o_Kind o = OpKindCreate ∧ (o_State o ≠ OpJournaled ∨ k ∈ cf_Misses c).
Proof.
  intros HO Hl. destruct (row (cf_World c) k) as [o|] eqn:Ho; [|rewrite (not_loaded c y k HO Ho) in Hl; lia].
  destruct (on_issued _ HO k o Ho) as (x & a & Hx & _). exists o. split; [done|].
  destruct (decide (y = x)) as [->|Hne]; [|rewrite (on_home _ HO k o x y Ho Hx Hne) in Hl; lia].
  split; [done|]. destruct (decide (k ∈ cf_Misses c)) as [Hin|Hout].
  { destruct (on_missed _ HO k Hin) as (o2 & Ho2 & Hk). assert (o2 = o) as -> by congruence. auto. }
  assert (misses c k = 0%nat) as Hz.
  { unfold misses. destruct (filter _ _) as [|j l] eqn:E; [done|]. exfalso. apply Hout.
    assert (j ∈ filter (λ j, j = k) (cf_Misses c)) as Hin by (rewrite E; left).
    by apply list_elem_of_filter in Hin as [-> ?]. }
  destruct (decide (o_Kind o = OpKindCreate ∧ o_State o ≠ OpJournaled)) as [[? ?]|Hn]; [auto|].
  pose proof (on_fresh _ HO k x) as Hf. rewrite Hz in Hf. exfalso. apply (Nat.lt_irrefl 0).
  eapply Nat.lt_le_trans; [exact Hl|]. apply Hf. intros o2 Ho2 Hk. assert (o2 = o) as -> by congruence.
  destruct (decide (o_State o = OpJournaled)); [done|]. exfalso. by apply Hn.
Qed.
Lemma load_pending c x k a : (x, k, a) ∈ pending c → (0 < load c x k)%nat.
Proof.
  intros Hin. unfold load. assert ((x, k, a) ∈ filter (is_for x k) (pending c)) as Hf.
  { by apply list_elem_of_filter. }
  destruct (filter _ _); [by apply elem_of_nil in Hf|]. simpl. lia.
Qed.

(** ** Under the contract *)

Context `{!HonestClouds owner}.

(** A pending call takes effect: what it may add was counted before. *)
Lemma load_land p p' (x : address) k (a : Action) (l : list request) y j :
  (∀ y j, machines p' y j ≤ machines p y j + (if decide ((y, j) = (x, k)) then 1 else 0))%nat →
  (machines p' y j + length (filter (is_for y j) l) ≤
   machines p y j + length (filter (is_for y j) ((x, k, a) :: l)))%nat.
Proof.
  intros Hm. specialize (Hm y j). change ((x, k, a) :: l) with ([(x, k, a)] ++ l).
  rewrite filter_app, length_app, filter_for. lia.
Qed.

Lemma Once_land w p t fl1 fl2 ms x k a d :
  Once (MkConf w p t (fl1 ++ (x, k, a) :: fl2) ms) → driver_at x = Some d →
  Once (MkConf w (Apply d a p).2 t (fl1 ++ fl2) ms).
Proof.
  intros HO Hd. set (c := MkConf w p t _ _) in *.
  assert (planned owner x k a) as Hpl.
  { apply (on_pending _ HO). unfold pending, c. simpl. set_solver. }
  destruct (create_ok x d k a p Hd Hpl (on_sane _ HO)) as [Hs Hm].
  eapply Once_shrinks; [exact HO|apply HO|done|]. apply shrinks_grows; [done|..|auto|done].
  - intros r. unfold pending, c. simpl. set_solver.
  - intros y j. unfold load, pending, c. simpl. pose proof (load_land p _ x k a (fl1 ++ fl2) y j Hm) as Hl.
    revert Hl. change ((x, k, a) :: fl1 ++ fl2) with ([(x, k, a)] ++ fl1 ++ fl2).
    change ((x, k, a) :: fl2) with ([(x, k, a)] ++ fl2). rewrite !filter_app, !length_app. lia.
Qed.

Lemma Once_call w p fl ms x k a d :
  Once (MkConf w p (Calling x k a) fl ms) → driver_at x = Some d →
  Once (MkConf w (Apply d a p).2 (Called k (Apply d a p).1) fl ms).
Proof.
  intros HO Hd. set (c := MkConf w p _ fl ms) in *.
  assert (planned owner x k a) as Hpl by (apply (on_pending _ HO); left).
  destruct (create_ok x d k a p Hd Hpl (on_sane _ HO)) as [Hs Hm].
  assert (∀ y j, machines (Apply d a p).2 y j + length (filter (is_for y j) fl) ≤ load c y j)%nat as Hle.
  { intros y j. by apply load_land. }
  eapply Once_shrinks; [exact HO|apply HO|done|]. apply shrinks_grows; [done|..|done].
  - intros r. unfold pending, c. simpl. set_solver.
  - intros y j. apply Hle.
  - intros j. simpl. destruct (Apply d a p).1 as [r|e] eqn:Hr; [done|]. intros [<- He]. right. intros y.
    pose proof (no_effect_ok x d k a p e Hd Hpl (on_sane _ HO) Hr He y k) as Hf. simpl in Hf.
    pose proof (on_once _ HO y k) as H1'. unfold load, pending, c in *. simpl in *.
    change ((x, k, a) :: fl) with ([(x, k, a)] ++ fl) in *. rewrite filter_app, length_app, filter_for in *.
    destruct (decide ((y, k) = (x, k))) as [|Hne]; [lia|].
    destruct (decide (y = x)) as [->|Hyx]; [done|].
    destruct (loaded_home c x k HO (load_pending c x k a ltac:(left))) as (o & Ho & Hx & _).
    pose proof (on_home _ HO k o x y Ho Hx Hyx) as Hz. unfold load, pending, c in Hz. simpl in Hz.
    change ((x, k, a) :: fl) with ([(x, k, a)] ++ fl) in Hz. rewrite filter_app, length_app in Hz. lia.
Qed.

Lemma Once_search w p fl ms k o x d :
  Once (MkConf w p Idle fl ms) → row w k = Some o → home w o = Some x →
  driver_at x = Some d → searchable x → caught_up p fl x k →
  (Discover d (search k) p).1 = Ok [] →
  Once (MkConf w (Discover d (search k) p).2 (Missing k) fl ms).
Proof.
  intros HO Ho Hx Hd Hse [Hc Hfl] Hr. set (c := MkConf w p Idle fl ms) in *.
  destruct (read_ok x d _ p Hd (RC_discover d (search k)) (on_sane _ HO)) as [Hs Hf].
  pose proof (search_ok x d k p Hd Hse (on_sane _ HO) Hc Hr) as Hz. simpl in Hf, Hs.
  set (q := (Discover d (search k) p).2) in *.
  eapply Once_shrinks; [exact HO|apply HO|done|]. apply shrinks_grows; [done|done|..|done].
  - intros y j. unfold load. change (pending _) with (pending c). specialize (Hf y j). simpl in *. lia.
  - intros j Hj. simpl in Hj. subst j. right. intros y. etrans; [|apply Nat.le_0_l]. apply Nat.le_0_r.
    destruct (decide (y = x)) as [->|Hne].
    + unfold load, pending. simpl. rewrite Hz. simpl.
      destruct (filter (is_for x k) fl) as [|[[x' k'] a] l] eqn:E; [done|]. exfalso.
      assert ((x', k', a) ∈ filter (is_for x k) fl) as Hin by (rewrite E; left).
      apply list_elem_of_filter in Hin as [Hfor Hin]. unfold is_for in Hfor. simpl in Hfor. simplify_eq.
      by eapply Hfl.
    + pose proof (on_home _ HO k o x y Ho Hx Hne) as Hl. specialize (Hf y k).
      unfold load, pending, c in *. simpl in *. lia.
Qed.

(** A miss: whatever there is of [k], it is allowed for. *)
Lemma Once_miss w p fl ms k o x d :
  Once (MkConf w p Idle fl ms) → row w k = Some o → o_Kind o = OpKindCreate → driver_at x = Some d →
  Once (MkConf w (Discover d (search k) p).2 (Missing k) fl (k :: ms)).
Proof.
  intros HO Ho Hk Hd. destruct (read_ok x d _ p Hd (RC_discover d (search k)) (on_sane _ HO)) as [Hs Hf].
  simpl in Hs, Hf. set (q := (Discover d (search k) p).2) in *.
  assert (∀ y j, (load (MkConf w q (Missing k) fl (k :: ms)) y j ≤ load (MkConf w p Idle fl ms) y j)%nat) as Hl.
  { intros y j. specialize (Hf y j). unfold load, pending. simpl. lia. }
  assert (∀ j, misses (MkConf w q (Missing k) fl (k :: ms)) j =
    misses (MkConf w p Idle fl ms) j + if decide (k = j) then 1 else 0)%nat as Hm.
  { intros j. unfold misses. simpl. rewrite filter_cons. case_decide; simpl; lia. }
  split; simpl; [apply HO|done|apply (on_issued _ HO)|apply (on_pending _ HO)|..].
  - intros y j. rewrite Hm. pose proof (on_once _ HO y j). specialize (Hl y j). lia.
  - intros j y Hu. rewrite Hm. pose proof (on_fresh _ HO j y Hu). specialize (Hl y j). lia.
  - intros j oj xj y Hoj Hxj Hne. pose proof (on_home _ HO j oj xj y Hoj Hxj Hne). specialize (Hl y j). lia.
  - intros j y <-. rewrite Hm, decide_True by done. pose proof (on_once _ HO y k). specialize (Hl y k). lia.
  - intros j [->|Hj]%elem_of_cons; [by exists o|by apply (on_missed _ HO)].
Qed.

Lemma others_grow w w' : kstep others w w' → grows owner w w'.
Proof. apply (kstep_grows owner others); [by intros k []|done]. Qed.

Lemma Once_step c c' : Once c → cstep c c' → Once c'.
Proof.
  intros HO Hst. destruct Hst as [w w' p t fl ms Hk|w p t fl ms x d f Hd Hf|w p t fl ms x d a Hd Hf|
    w p t fl ms k dl o Ho Hne Hk|w p p' t fl ms Hdr|w p fl ms k dl o x a Ho Hk Hs Hx Ha|w p fl ms x k a d Hd|
    w p fl ms k e next He|w p fl ms k o x d Ho Hx Hd Hse Hc Hr|w p fl ms k o x d Ho Hk Hx Hd Hse Hc Hr|
    w p fl ms k|w p t fl ms|w p fl ms x k a|w p t fl1 fl2 ms x k a d Hd].
  - apply (Once_world (MkConf w p t fl ms)); [done| |by apply others_grow].
    eapply Good_step; [apply HO|exact Hk].
  - destruct (read_ok x d f p Hd Hf (on_sane _ HO)). by apply (Once_clouds (MkConf w p t fl ms)).
  - destruct (follow_up_ok x d a p Hd Hf (on_sane _ HO)). by apply (Once_clouds (MkConf w p t fl ms)).
  - apply (Once_world (MkConf w p t fl ms)); [done| |].
    + eapply Good_step; [apply HO|exact Hk].
    + apply Tx_grows, moves_Transition. by split.
  - destruct (drift_ok p p' (on_sane _ HO) Hdr). by apply (Once_clouds (MkConf w p t fl ms)).
  - by apply (Once_dispatch w p fl ms k dl o x a).
  - by apply (Once_call w p fl ms x k a d).
  - by apply (Once_rejournal _ _ (Called k (Err e))).
  - by apply (Once_search w p fl ms k o x d).
  - by apply (Once_miss w p fl ms k o x d).
  - by apply (Once_rejournal _ _ (Missing k)).
  - by apply (Once_end w p t fl).
  - eapply Once_shrinks; [exact HO|apply HO..|]. by apply shrinks_grows.
  - by apply (Once_land w p t fl1 fl2 ms x k a d).
Qed.

Lemma Once_steps c c' : Once c → rtc cstep c c' → Once c'.
Proof. intros HO Hst. revert HO. induction Hst; eauto using Once_step. Qed.

(** An empty database, and no machine of the installation anywhere. *)
Definition start (now : Z) (p : P) : Conf := MkConf (fresh now) p Idle [] [].
Lemma Once_start now p : sane p → (∀ y k, machines p y k = 0%nat) → Once (start now p).
Proof.
  intros Hs Hm. assert (∀ y k, load (start now p) y k = 0%nat) as Hl.
  { intros y k. unfold load. simpl. by rewrite Hm. }
  split; simpl; [apply Good_fresh|done|..].
  - intros k o. unfold row. simpl. by rewrite lookup_empty.
  - intros x k a Hin. by apply elem_of_nil in Hin.
  - intros y k. rewrite Hl. lia.
  - intros k y _. rewrite Hl. lia.
  - intros k o x y _ _ _. apply Hl.
  - intros k y [].
  - intros k Hin. by apply elem_of_nil in Hin.
Qed.

(** C1: on clouds that keep the contract, whatever transactions, driver calls,
    crashes, lost replies and late requests interleave, and however often the
    engine retries and searches again: every machine of the installation
    belongs to a create in the journal, which has been dispatched, on the
    instance the create is for; and a create has one machine at most, and one
    more for every time the engine took it for absent too early, that is, on an
    empty listing that was behind or before a request still on its way landed. *)
Theorem create_at_most_once now p c :
  sane p → (∀ y k, machines p y k = 0%nat) → rtc cstep (start now p) c →
  ∀ y k, (machines (cf_Clouds c) y k ≤ 1 + misses c k)%nat ∧
    ((0 < machines (cf_Clouds c) y k)%nat → ∃ o, row (cf_World c) k = Some o ∧
       o_Kind o = OpKindCreate ∧ (o_State o ≠ OpJournaled ∨ k ∈ cf_Misses c) ∧ home (cf_World c) o = Some y).
Proof.
  intros Hs Hm Hst y k. pose proof (Once_steps _ _ (Once_start now p Hs Hm) Hst) as HO.
  pose proof (on_once _ HO y k) as H1'. assert (machines (cf_Clouds c) y k ≤ load c y k)%nat by (unfold load; lia).
  split; [lia|]. intros Hpos. destruct (loaded_home c y k HO) as (o & ? & ? & ? & ?); [lia|]. by exists o.
Qed.
End once.
