(* ===== verification/Reads.v ===== *)
(** * Which handlers touch the clouds

    Outside the engine's dispatch no handler changes the clouds: each runs the
    reading calls of drivers, in some order, and nothing else. *)

From stdpp Require Import base gmap strings list relations.
From S2P Require Import Prelude Errors Json Phase SDK Capacity Types Store Kinds Classes Provision Sys Lease Engine Scheduler Reconcile Discovery App Contract.
From S2P Require Billing.

Section rules.
Context {P : Type} `{Providers P}.

(** One reading call of a configured driver. *)
Definition read_step (p p' : P) : Prop :=
  ∃ x d f, driver_at x = Some d ∧ read_call d f ∧ p' = f p.
Definition reads {A} (m : M (Sys P) A) : Prop := ∀ s, rtc read_step (sy_Prov s) (sy_Prov (m s).2).

Lemma reads_ret {A} (a : A) : reads (retM a).
Proof. intros s. apply rtc_refl. Qed.
Lemma reads_fail {A} e : reads (A := A) (failM e).
Proof. intros s. apply rtc_refl. Qed.
Lemma reads_liftR {A} (r : result A) : reads (liftR r).
Proof. intros s. apply rtc_refl. Qed.
Lemma reads_gets {A} (f : Sys P → A) : reads (getsM f).
Proof. intros s. apply rtc_refl. Qed.
Lemma reads_modify (f : Sys P → Sys P) : (∀ s, sy_Prov (f s) = sy_Prov s) → reads (modifyM f).
Proof. intros Hf s. simpl. rewrite Hf. apply rtc_refl. Qed.
Lemma reads_onWorld {A} (m : M World A) : reads (onWorld m).
Proof. intros s. unfold onWorld. destruct (m _). apply rtc_refl. Qed.
Lemma reads_inTx {A} (m : M World A) : reads (inTx m).
Proof. apply reads_onWorld. Qed.
Lemma reads_clock : reads clockNow.
Proof. apply reads_onWorld. Qed.
Lemma reads_refuse c e : reads (refuse c e).
Proof. intros s. unfold refuse. destruct c; apply rtc_refl. Qed.

(** The three reading calls. *)
Lemma reads_call {A} x d (m : M P A) :
  driver_at x = Some d → read_call d (λ p, (m p).2) → reads (onProv m).
Proof.
  intros Hx Hc s. unfold onProv. pose proof (rtc_once (R := read_step) (sy_Prov s) (m (sy_Prov s)).2) as Ho.
  destruct (m (sy_Prov s)) as [r p] eqn:E. simpl in *. apply Ho.
  exists x, d, (λ p, (m p).2). by rewrite E.
Qed.

Lemma reads_bind_ok {A B} (m : M (Sys P) A) (k : A → M (Sys P) B) :
  reads m → (∀ a s s', m s = (Ok a, s') → reads (k a)) → reads (bindM m k).
Proof.
  intros Hm Hk s. specialize (Hm s). unfold bindM.
  destruct (m s) as [[a|e] s'] eqn:E; simpl in *; [|done]. etrans; [done|by eapply Hk].
Qed.
Lemma reads_bind {A B} (m : M (Sys P) A) (k : A → M (Sys P) B) :
  reads m → (∀ a, reads (k a)) → reads (bindM m k).
Proof. intros Hm Hk. by apply reads_bind_ok. Qed.
Lemma reads_try {A} (m : M (Sys P) A) : reads m → reads (tryM m).
Proof. intros Hm s. specialize (Hm s). unfold tryM. by destruct (m s). Qed.
Lemma reads_ignore {A} (m : M (Sys P) A) : reads m → reads (ignoreM m).
Proof. intros Hm s. apply Hm. Qed.
Lemma reads_forM {X} (l : list X) (f : X → M (Sys P) unit) : (∀ x, reads (f x)) → reads (forM_ l f).
Proof.
  intros Hf. induction l as [|x l IH]; simpl; [apply reads_ret|]. by apply reads_bind.
Qed.
Lemma reads_countM {X} (l : list X) (f : X → M (Sys P) unit) : (∀ x, reads (f x)) → reads (countM l f).
Proof.
  intros Hf. induction l as [|x l IH]; simpl; [apply reads_ret|].
  apply reads_bind; [by apply reads_try|intros r]. apply reads_bind; [done|intros n; apply reads_ret].
Qed.
End rules.

Create HintDb rd discriminated.
Ltac reads_step :=
  match goal with
  | |- reads (match ?x with _ => _ end) => destruct x eqn:?
  | |- reads (let _ := _ in _) => cbv zeta
  | |- reads (bindM _ _) => apply reads_bind; [|intros ?]
  | |- reads (ignoreM _) => apply reads_ignore
  | |- reads (tryM _) => apply reads_try
  | |- reads (forM_ _ _) => apply reads_forM; intros ?
  | |- reads (countM _ _) => apply reads_countM; intros ?
  | |- reads (retM _) => apply reads_ret
  | |- reads (failM _) => apply reads_fail
  | |- reads (liftR _) => apply reads_liftR
  | |- reads (getsM _) => apply reads_gets
  | |- reads (refuse _ _) => apply reads_refuse
  | |- reads (modifyM _) => apply reads_modify; intros ?; repeat case_match; done
  | |- reads engineKick => by apply reads_modify
  | |- reads (poolKick _) => by apply reads_modify
  | |- reads poolKickAll => by apply reads_modify
  | |- reads clockNow => apply reads_clock
  | |- reads (onWorld _) => apply reads_onWorld
  | |- reads (inTx _) => apply reads_inTx
  | |- reads _ => solve [auto with rd]
  end.
Ltac reads_tac := repeat reads_step.

Section handlers.
Context `{ULID} {P : Type} `{Providers P}.

(** ** Leases and the scheduler *)

Lemma kick_reads p : reads (P := P) (kick p).
Proof. unfold kick. reads_tac. Qed.
Local Hint Resolve kick_reads : rd.
Lemma Release_reads id : reads (P := P) (Release id).
Proof. unfold Release. reads_tac. Qed.
Local Hint Resolve Release_reads : rd.
Lemma ReleaseAcquisition_reads id : reads (P := P) (ReleaseAcquisition id).
Proof. unfold ReleaseAcquisition. reads_tac. Qed.
Lemma SweepExpired_reads : reads (P := P) SweepExpired.
Proof. unfold SweepExpired. reads_tac. Qed.
Local Hint Resolve ReleaseAcquisition_reads SweepExpired_reads : rd.

Lemma reserve_reads acq r want ex : reads (P := P) (reserve acq r want ex).
Proof. unfold reserve. reads_tac. Qed.
Local Hint Resolve reserve_reads : rd.
Lemma tryReserve_reads n acq want ex cands : reads (P := P) (tryReserve n acq want ex cands).
Proof. revert cands. induction n as [|n IH]; intros [|c cands]; simpl; reads_tac; by apply IH. Qed.
Lemma tryStart_reads n acq t cands : reads (P := P) (tryStart n acq t cands).
Proof. revert cands. induction n as [|n IH]; intros [|c cands]; simpl; reads_tac; by apply IH. Qed.
Local Hint Resolve tryReserve_reads tryStart_reads : rd.
Lemma startParked_reads acq want : reads (P := P) (startParked acq want).
Proof. unfold startParked. reads_tac. Qed.
Lemma scaleOnDemand_reads owner acq : reads (P := P) (scaleOnDemand owner acq).
Proof. unfold scaleOnDemand. reads_tac. Qed.
Local Hint Resolve startParked_reads scaleOnDemand_reads : rd.
Lemma Satisfy_reads owner id : reads (P := P) (Satisfy owner id).
Proof. unfold Satisfy, observeBound, markQueued. reads_tac. Qed.
Local Hint Resolve Satisfy_reads : rd.
Lemma resolvePending_reads acq k st : reads (P := P) (resolvePending acq k st).
Proof. unfold resolvePending, rePend. reads_tac. Qed.
Local Hint Resolve resolvePending_reads : rd.
Lemma Scheduler_HandleOpTerminal_reads op : reads (P := P) (Scheduler_HandleOpTerminal op).
Proof. unfold Scheduler_HandleOpTerminal, clearStartBackoff, bumpStartBackoff. reads_tac. Qed.
Lemma resumePending_reads owner pt t acq : reads (P := P) (resumePending owner pt t acq).
Proof. unfold resumePending. reads_tac. Qed.
Lemma resumeProvisioning_reads pt t acq : reads (P := P) (resumeProvisioning pt t acq).
Proof. unfold resumeProvisioning, rePend. reads_tac. Qed.
Local Hint Resolve resumePending_reads resumeProvisioning_reads : rd.
Lemma Scheduler_Resume_reads owner pt : reads (P := P) (Scheduler_Resume owner pt).
Proof. unfold Scheduler_Resume. reads_tac. Qed.

(** ** The reconciler *)

Section reconciler.
Context (cfg : Reconcile.Config) (owner : string).

Lemma Reconciler_HandleOpTerminal_reads op : reads (P := P) (Reconciler_HandleOpTerminal cfg op).
Proof. unfold Reconciler_HandleOpTerminal, bumpFailureBackoff, resetFailureBackoff. reads_tac. Qed.
Lemma adaptiveBuffer_reads p pol b t : reads (P := P) (adaptiveBuffer p pol b t).
Proof. unfold adaptiveBuffer. reads_tac. Qed.
Local Hint Resolve adaptiveBuffer_reads : rd.
Lemma billingAllows_reads r t : reads (P := P) (billingAllows cfg r t).
Proof. unfold billingAllows, effectiveBuffer. reads_tac. Qed.
Local Hint Resolve billingAllows_reads : rd.
Lemma reclaimOne_reads t sw r : reads (P := P) (reclaimOne cfg t sw r).
Proof.
  unfold reclaimOne, reclaimParked, reclaimIdle, costly, costReclaim, journalDelete, forgetMissed. reads_tac.
Qed.
Local Hint Resolve reclaimOne_reads : rd.
Lemma sweepAll_reads t sw l : reads (P := P) (sweepAll cfg t sw l).
Proof. revert sw. induction l as [|r l IH]; intros; simpl; reads_tac. Qed.
Local Hint Resolve sweepAll_reads : rd.
Lemma ReclaimPoolless_reads : reads (P := P) (ReclaimPoolless cfg).
Proof. unfold ReclaimPoolless. reads_tac. Qed.
Lemma attempts_reads {X} stop body (l : list X) k :
  (∀ x, reads (P := P) (body x)) → reads (attempts stop body l k).
Proof. intros Hb. revert k. induction l as [|x l IH]; intros; simpl; reads_tac; auto. Qed.
Lemma creates_reads n create : reads (P := P) create → reads (creates n create).
Proof. intros Hc. induction n; simpl; reads_tac. Qed.
Lemma createOne_reads pool k p m t : reads (P := P) (createOne owner pool k p m t).
Proof. unfold createOne. reads_tac. Qed.
Lemma RunOnce_reads pool : reads (P := P) (RunOnce cfg owner pool).
Proof.
  unfold RunOnce, undrainPass, warmUpPass, createPass, deleteParkedPass, drainPass, deletePass,
    parkPass, kickIf, drainOne, casPhase, costReclaim, journalDelete. reads_tac.
  all: first [apply creates_reads, createOne_reads | apply attempts_reads; intros ?; reads_tac].
Qed.
Local Hint Resolve RunOnce_reads ReclaimPoolless_reads : rd.
Lemma Reconciler_round_reads tick : reads (P := P) (Reconciler_round cfg owner tick).
Proof. unfold Reconciler_round, kickIf. reads_tac. Qed.
End reconciler.

(** ** Discovery *)

Section discovery.
Context (dc : DiscoveryConfig) (healthy : string → bool).

Lemma mintRecord_reads inst obs own t ev : reads (P := P) (mintRecord inst obs own t ev).
Proof. unfold mintRecord. reads_tac. Qed.
Local Hint Resolve mintRecord_reads : rd.
Lemma handleGhost_reads inst obs t : reads (P := P) (handleGhost dc inst obs t).
Proof. unfold handleGhost, casPhase, journalDelete. reads_tac. Qed.
Local Hint Resolve handleGhost_reads : rd.
Lemma sweepObserved_reads inst byExt byID ops t obs :
  reads (P := P) (sweepObserved dc inst byExt byID ops t obs).
Proof. unfold sweepObserved, refreshObserved, resolveOwnedUnmatched, readopt, adoptObserved. reads_tac. Qed.
Local Hint Resolve sweepObserved_reads : rd.

Lemma confirmOrphan_reads x driver res ext t : driver_at x = Some driver →
  reads (confirmOrphan dc driver res ext t).
Proof.
  intros Hx. assert (∀ ref, reads (onProv (Get driver ref))) as Hg.
  { intros ref. apply (reads_call x driver); [done|constructor]. }
  unfold confirmOrphan, casPhase. reads_tac.
Qed.
Lemma sweepKind_reads inst kind driver : driver_at (inst, kind) = Some driver →
  reads (sweepKind dc healthy inst kind driver).
Proof.
  intros Hx. unfold sweepKind. apply reads_bind.
  { eapply reads_call; [exact Hx|constructor]. }
  intros observed. reads_tac. by eapply confirmOrphan_reads.
Qed.
Lemma SweepProvider_reads inst : reads (SweepProvider dc healthy inst).
Proof.
  unfold SweepProvider. destruct (Instance_ inst) as [pv|] eqn:Hi; [|reads_tac].
  apply reads_forM. intros kind. destruct (pv_ResourceDriver pv kind) as [d|] eqn:Hd; [|reads_tac].
  apply sweepKind_reads. unfold driver_at. simpl. by rewrite Hi.
Qed.
Lemma Discovery_round_reads names : reads (Discovery_round dc healthy names).
Proof. unfold Discovery_round. apply reads_forM. intros name. apply reads_ignore, SweepProvider_reads. Qed.
End discovery.

(** ** Application commands *)

Section service.
Context (owner : string) (pt : Z).

Lemma CreateResource_reads cmd respond : reads (P := P) (CreateResource owner cmd respond).
Proof. unfold CreateResource. reads_tac. Qed.
Lemma DeleteResource_reads id actor dry i respond : reads (P := P) (DeleteResource id actor dry i respond).
Proof. unfold DeleteResource. reads_tac. Qed.
Lemma ParkResource_reads id actor : reads (P := P) (ParkResource id actor).
Proof. unfold ParkResource. reads_tac. Qed.
Lemma StartResource_reads id actor : reads (P := P) (StartResource id actor).
Proof. unfold StartResource. reads_tac. Qed.
Lemma DrainResource_reads id actor : reads (P := P) (DrainResource id actor).
Proof. unfold DrainResource. reads_tac. Qed.
Lemma UndrainResource_reads id actor : reads (P := P) (UndrainResource id actor).
Proof. unfold UndrainResource. reads_tac. Qed.
Lemma SetResourceProtected_reads id b actor : reads (P := P) (SetResourceProtected id b actor).
Proof. unfold SetResourceProtected. reads_tac. Qed.
Lemma ResolveOperation_reads id act actor : reads (P := P) (ResolveOperation id act actor).
Proof. unfold ResolveOperation. reads_tac. Qed.
Lemma Acquire_reads cmd respond : reads (P := P) (Acquire owner pt cmd respond).
Proof. unfold Acquire. reads_tac. Qed.
Lemma Service_Release_reads id : reads (P := P) (Service_Release id).
Proof. unfold Service_Release. reads_tac. Qed.
Lemma UpsertPool_reads cmd : reads (P := P) (UpsertPool cmd).
Proof. unfold UpsertPool. reads_tac. Qed.
Lemma SetPoolPaused_reads id b actor : reads (P := P) (SetPoolPaused id b actor).
Proof. unfold SetPoolPaused. reads_tac. Qed.
Lemma DeletePool_reads id actor : reads (P := P) (DeletePool id actor).
Proof. unfold DeletePool. reads_tac. Qed.
Lemma ReconcilePool_reads id : reads (P := P) (ReconcilePool id).
Proof. unfold ReconcilePool. reads_tac. Qed.
Lemma UpsertClass_reads cmd : reads (P := P) (UpsertClass pt cmd).
Proof. unfold UpsertClass. reads_tac. Qed.
Lemma DeleteClass_reads name actor : reads (P := P) (DeleteClass name actor).
Proof. unfold DeleteClass. reads_tac. Qed.
End service.
End handlers.
