(* ===== verification/OnceRun.v ===== *)
(** * The process runs along the system of [Once.v]

    Every round of every goroutine, from the handlers as the code has them, is
    a history of [cstep]: the engine's batches with their calls in between,
    everything else as transactions and reading calls. *)

From stdpp Require Import base gmap strings list relations.
From S2P Require Import Prelude Errors Json Phase SDK Capacity Types Store Kinds Classes Provision Sys Lease Engine Scheduler Reconcile Discovery App Spec Abs Refine System Via Handlers Process Contract Once Reads.

Section engine.
Context `{ULID} {P : Type} `{Providers P} `{Rand} `{compute.Network} `{Cloud P}.
Variable owner : string.
Context (cfg : Engine.Config) (OnTerminal : Operation → M (Sys P) unit).
Hypothesis OnTerminal_runs : ∀ G op, via (steps G (λ _, True)) (OnTerminal op).
Hypothesis OnTerminal_reads : ∀ op, reads (OnTerminal op).
Context `{!HonestClouds owner}.

Definition conf (s : Sys P) (t : Thread) : Conf := MkConf (sy_World s) (sy_Prov s) t [] [].
Abbreviation leads c c' := (rtc (cstep owner) c c').

Lemma world_leads w w' p t : rtc (kstep (others owner)) w w' → leads (MkConf w p t [] []) (MkConf w' p t [] []).
Proof.
  apply (rtc_congruence (λ w, MkConf w p t [] [])). intros a b Hab. by apply C_other.
Qed.
Lemma prov_leads w p p' t : rtc read_step p p' → leads (MkConf w p t [] []) (MkConf w p' t [] []).
Proof.
  apply (rtc_congruence (λ p, MkConf w p t [] [])). intros a b (x & d & f & Hx & Hf & ->). by eapply C_read.
Qed.

(** A handler that only reads the clouds. *)
Lemma apart_leads {A} K (m : M (Sys P) A) s t :
  via (steps (others owner) K) m → reads m → Good (sy_World s) → K (sy_World s) →
  leads (conf s t) (conf (m s).2 t).
Proof.
  intros Hm Hr Hg HK. etrans; [by apply world_leads, Hm|]. apply prov_leads, Hr.
Qed.
Lemma end_leads s t : leads (conf s t) (conf s Idle).
Proof. apply rtc_once, C_end. Qed.

(** What a batch knows of an operation: the columns that never change. *)
Definition held (op : Operation) (w : World) : Prop :=
  ∃ cur, row w (o_ID op) = Some cur ∧ core cur = core op.
Lemma held_same op w : held op w → same_op op w.
Proof. intros (cur & Hc & [= ? ? _ _]). by exists cur. Qed.
Lemma held_grows op w w' : grows owner w w' → held op w → held op w'.
Proof.
  intros Hg (cur & Hc & Heq). destruct (gr_kept _ _ _ Hg _ _ Hc) as (o' & Ho' & Hc' & _).
  exists o'. split; [done|congruence].
Qed.

Lemma driverAndAction_ok op s d a s' :
  held op (sy_World s) → issued owner (o_ID op) op (sy_World s) →
  driverAndAction op s = (Ok (d, a), s') →
  sy_World s' = sy_World s ∧ sy_Prov s' = sy_Prov s ∧ o_Action op = JVal a ∧
  ∃ x, home (sy_World s) op = Some x ∧ driver_at x = Some d ∧ x.1 = o_Provider op.
Proof.
  intros _ (x & a' & Hx & Ha & _). unfold driverAndAction. rewrite Ha.
  unfold home in Hx. apply bind_Some in Hx as (r & Hr & Hx). apply bind_Some in Hx as (kd & Hkd & [= <-]).
  destruct (Instance_ (o_Provider op)) as [pv|] eqn:Hi; [|done]. rewrite Hr.
  unfold kinds in Hkd. rewrite lookup_fmap in Hkd. apply fmap_Some in Hkd as (rr & Hrr & ->).
  unfold bindM, tryM, onWorld, Resources_Get, row_get, retM. rewrite Hrr.
  destruct (pv_ResourceDriver pv (r_Kind rr)) as [d'|] eqn:Hd; [|done]. intros [= <- <- <-]. split_and!; [done..|].
  exists (o_Provider op, r_Kind rr). split_and!; [|unfold driver_at; simpl; by rewrite Hi|done].
  unfold home, kinds. rewrite Hr. simpl. by rewrite lookup_fmap, Hrr.
Qed.
Lemma driverAndAction_only_reads op : reads (driverAndAction op).
Proof. unfold driverAndAction. reads_tac. Qed.

(** ** Reads of the engine's handlers *)

Lemma notifyTerminal_reads id : reads (notifyTerminal OnTerminal id).
Proof. unfold notifyTerminal. reads_tac. Qed.
Local Hint Resolve notifyTerminal_reads : rd.
Lemma failOpPhases_reads id from cause p q : reads (failOpPhases OnTerminal id from cause p q).
Proof. unfold failOpPhases. reads_tac. Qed.
Local Hint Resolve failOpPhases_reads : rd.
Lemma failOp_reads id from cause : reads (failOp OnTerminal id from cause).
Proof. unfold failOp. reads_tac. Qed.
Lemma reschedule_reads op cause : reads (P := P) (reschedule cfg op cause).
Proof. unfold reschedule. reads_tac. by intros s. Qed.
Lemma succeedDelete_reads op from : reads (succeedDelete OnTerminal op from).
Proof. unfold succeedDelete. reads_tac. Qed.
Lemma succeedCreate_reads op st : reads (succeedCreate OnTerminal op st).
Proof. unfold succeedCreate. reads_tac. Qed.
Lemma succeedStart_reads op st : reads (succeedStart OnTerminal op st).
Proof. unfold succeedStart. reads_tac. Qed.
Lemma succeedStop_reads op st : reads (succeedStop OnTerminal op st).
Proof. unfold succeedStop. reads_tac. Qed.
Lemma readinessGate_reads' op st : reads (P := P) (readinessGate op st).
Proof. unfold readinessGate. reads_tac. Qed.
Lemma backoff_reads' n c : reads (P := P) (backoff cfg n c).
Proof. intros s. apply rtc_refl. Qed.
Local Hint Resolve failOp_reads reschedule_reads succeedDelete_reads succeedCreate_reads succeedStart_reads
  succeedStop_reads readinessGate_reads' backoff_reads' driverAndAction_only_reads : rd.
Lemma handleApplyError_reads op e : reads (handleApplyError cfg OnTerminal op e).
Proof. unfold handleApplyError. reads_tac. Qed.

Lemma driverAndAction_same op (s : Sys P) : sy_Prov (driverAndAction op s).2 = sy_Prov s.
Proof.
  unfold driverAndAction. destruct (o_Action op); [done| |done]. destruct (Instance_ _); [|done].
  unfold bindM, tryM, onWorld, retM. destruct (o_ResourceID op); simpl;
    [destruct (Resources_Get _ _); simpl|]; by destruct (pv_ResourceDriver _ _).
Qed.

(** ** What a batch needs of the world *)

Definition all_issued (w : World) : Prop := ∀ k o, row w k = Some o → issued owner k o w.
Definition ready (w : World) : Prop := Good w ∧ all_issued w.

Lemma all_issued_grows w w' : grows owner w w' → all_issued w → all_issued w'.
Proof.
  intros [Hk Hr Hn] Hi k o Ho. destruct (row w k) as [o0|] eqn:E; [|by apply Hn].
  destruct (Hr _ _ E) as (o' & Ho' & Hc & _). assert (o' = o) as -> by congruence.
  eapply issued_grows; [exact Hk|exact Hc|by apply Hi].
Qed.
Lemma held_issued op w : all_issued w → held op w → issued owner (o_ID op) op w.
Proof. intros Hi (cur & Hc & Heq). eapply issued_grows; [reflexivity|symmetry; exact Heq|by apply Hi]. Qed.

Lemma ready_others w w' : rtc (kstep (others owner)) w w' → ready w → ready w'.
Proof.
  intros Hst [Hg Hi]. split; [by eapply Good_steps|].
  eapply all_issued_grows; [|exact Hi]. eapply (ksteps_grow owner (others owner)); [by intros k []|done|exact Hst].
Qed.

(** An answer of [Apply] that is not retried as it is. *)
Lemma answered_leads op e s t :
  Good (sy_World s) → held op (sy_World s) → ¬ retried op e →
  leads (conf s t) (conf (handleApplyError cfg OnTerminal op e s).2 Idle).
Proof.
  intros Hg Hh Hn. etrans; [|apply end_leads].
  apply (apart_leads (same_op op)); [|apply handleApplyError_reads|done|by apply held_same].
  apply handleApplyError_runs; [done|by right].
Qed.
Lemma create_answered_leads op e s :
  Good (sy_World s) → held op (sy_World s) →
  leads (conf s (Called (o_ID op) (Err e))) (conf (handleApplyError cfg OnTerminal op e s).2 Idle).
Proof.
  intros Hg Hh. destruct (decide (o_Kind op = OpKindCreate)) as [Hk|Hk];
    [|apply answered_leads; [done..|by intros [? _]]].
  destruct (decide (Effect e = EffectNone)) as [He|He]; [|apply answered_leads; [done..|by intros [_ ?]]].
  unfold handleApplyError. cbv zeta. unfold bindM at 1. unfold clockNow, nowM, onWorld at 1, getsM at 1.
  set (s0 := with_sy_World _ s).
  assert (conf s0 = conf s) as Hc by done. rewrite <-Hc.
  rewrite decide_False by (intros [Hd _]; congruence). rewrite Hk. cbn [isParkOp andb].
  case_decide as Hcl.
  - etrans; [|apply end_leads]. apply (apart_leads (λ _, True)); [|apply failOp_reads|done|done].
    by apply failOp_runs.
  - rewrite decide_True by done. unfold bindM, backoff, inTx, onWorld. cbv zeta.
    set (s1 := with_sy_Draws _ s0).
    match goal with |- context [Tx ?m ?w] => destruct (Tx m w) as [r w'] eqn:E end. simpl.
    change (conf s0 (Called (o_ID op) (Err e))) with (conf s1 (Called (o_ID op) (Err e))).
    unfold conf. simpl. eapply rtc_once.
    replace w' with (Tx (applyErrorTx (o_ID op) OpJournaled
      (w_Clock (sy_World s) + Milliseconds (floorDelay (jitter (backoffBase cfg (o_Attempt op)) (draw (sy_Draws s0))) (Some e))) e)
      (sy_World s1)).2; [by apply C_retry|].
    change (sy_World s1) with (sy_World s0) in E. simpl in E |- *. by rewrite E.
Qed.

(** ** One operation *)

(** TxB commits on a journaled row, or does nothing. *)
Lemma dispatchTx_run k dl s :
  let '(r, s') := inTx (P := P) (dispatchTx k dl) s in
  sy_Prov s' = sy_Prov s ∧ sy_World s' = (Tx (dispatchTx k dl) (sy_World s)).2 ∧
  match r with
  | Ok _ => ∃ o, row (sy_World s) k = Some o ∧ o_State o = OpJournaled
  | Err _ => sy_World s' = sy_World s
  end.
Proof.
  unfold inTx, onWorld, Tx, dispatchTx, Operations_Transition, Operations_Get, row_get, bindM, row.
  destruct (db_Operations (w_DB (sy_World s)) !! k) as [o|] eqn:E; simpl; [|by destruct s as [[] ?]].
  case_decide; simpl; [|by destruct s as [[] ?]]. unfold row_update. rewrite E.
  rewrite bool_decide_eq_true_2 by done. simpl. eauto.
Qed.

Lemma held_row op w o : held op w → row w (o_ID op) = Some o → core o = core op.
Proof. intros (cur & Hc & Heq) Ho. congruence. Qed.

(** From the answer of the call on. *)
Lemma settle_leads op s (r : result OperationRef) t :
  Good (sy_World s) → held op (sy_World s) →
  (∀ e, r = Err e → retried op e → t = Called (o_ID op) (Err e)) →
  leads (conf s t) (conf (match r with
    | Err e => handleApplyError cfg OnTerminal op e
    | Ok opRef => inTx (acceptTx op opRef) ;;; engineKick end s).2 Idle).
Proof.
  intros Hg Hh Ht. destruct r as [ref|e].
  - etrans; [|apply end_leads]. apply (apart_leads (same_op op)); [|reads_tac|done|by apply held_same].
    via_step; [|via_tac]. apply via_inTx. intros w _ Hw. by apply K_accept.
  - destruct (decide (o_Kind op = OpKindCreate ∧ Effect e = EffectNone)) as [Hr|Hr].
    + rewrite (Ht e eq_refl Hr). by apply create_answered_leads.
    + by apply answered_leads.
Qed.

Lemma call_leads op x d a s dl :
  ready (sy_World s) → held op (sy_World s) → knows op (sy_World s) →
  isParkOp (o_Kind op) && bool_decide (maxParkOpAttempts ≤ o_Attempt op) = false →
  home (sy_World s) op = Some x → driver_at x = Some d → o_Action op = JVal a →
  leads (conf s Idle) (conf ((inTx (dispatchTx (o_ID op) dl) ;;;
    applied <- tryM (onProv (Apply d a)) ;;
    match applied with
    | Err e => handleApplyError cfg OnTerminal op e
    | Ok opRef => inTx (acceptTx op opRef) ;;; engineKick
    end) s).2 Idle).
Proof.
  intros [Hg Hi] Hh Hkn Hp Hx Hd Ha. pose proof (dispatchTx_run (o_ID op) dl s) as Hrun.
  unfold bindM at 1. destruct (inTx _ s) as [[[]|e] s1]; destruct Hrun as (Hpr & Hw & Ho).
  2:{ simpl. unfold conf. rewrite Hpr, Ho. done. }
  destruct Ho as (o & Hro & Hst). pose proof (held_row _ _ _ Hh Hro) as Hcore.
  assert (o_Kind o = o_Kind op ∧ o_Action o = o_Action op) as [Hok Hoa] by (by injection Hcore as -> _ _ ->).
  assert (home (sy_World s) o = Some x) as Hox by (eapply home_grows; [reflexivity|exact Hcore|exact Hx]).
  assert (grows owner (sy_World s) (sy_World s1)) as Hgr.
  { rewrite Hw. apply Tx_grows, moves_Transition. by split. }
  assert (Good (sy_World s1) ∧ kstep (dispatching (o_ID op)) (sy_World s) (sy_World s1)) as [Hg1 Hk1].
  { assert (kstep (dispatching (o_ID op)) (sy_World s) (sy_World s1)) as Hk; [|split; [by eapply Good_step|done]].
    rewrite Hw. apply K_dispatch; [done|]. destruct Hkn as [_ (o2 & Ho2 & Hatt)].
    intros o3 Ho3 Hpark. unfold row in Hro. assert (o3 = o) as -> by congruence.
    assert (o2 = o) as -> by congruence. rewrite Hok in Hpark. rewrite Hpark in Hp. simpl in Hp.
    apply bool_decide_eq_false in Hp. unfold maxParkOpAttempts in Hp. lia. }
  pose proof (held_grows _ _ _ Hgr Hh) as Hh1.
  destruct (Apply d a (sy_Prov s1)) as [r p] eqn:Happ.
  assert (bindM (tryM (onProv (Apply d a))) (λ applied, match applied with
    | Err e => handleApplyError cfg OnTerminal op e
    | Ok opRef => inTx (acceptTx op opRef) ;;; engineKick end) s1 =
    match r with
    | Err e => handleApplyError cfg OnTerminal op e
    | Ok opRef => inTx (acceptTx op opRef) ;;; engineKick end (with_sy_Prov p s1)) as ->.
  { unfold bindM at 1. unfold tryM, onProv. rewrite Happ. by destruct r. }
  destruct (decide (o_Kind op = OpKindCreate)) as [Hc|Hc].
  - eapply rtc_l; [eapply (C_dispatch owner (sy_World s) (sy_Prov s) [] [] (o_ID op) dl o x a); [done|congruence|done|done|congruence]|].
    eapply rtc_l; [by apply (C_call owner _ _ [] [] x (o_ID op) a d)|].
    rewrite <-Hw, <-Hpr, Happ. cbn [fst snd].
    apply (settle_leads op (with_sy_Prov p s1) r (Called (o_ID op) r)); [done|done|]. by intros e ->.
  - destruct (held_issued _ _ Hi Hh) as (x' & a' & _ & Ha' & Hf). rewrite decide_False in Hf by done.
    assert (a' = a) as -> by congruence.
    eapply rtc_l; [eapply (C_follow_dispatch owner (sy_World s) (sy_Prov s) Idle [] [] (o_ID op) dl o); [done|congruence|by rewrite <-Hw]|].
    eapply rtc_l; [by apply (C_follow owner _ _ Idle [] [] x d a)|].
    rewrite <-Hw, <-Hpr, Happ. cbn [fst snd].
    apply (settle_leads op (with_sy_Prov p s1) r Idle); [done|done|]. by intros e _ [? _].
Qed.

(** What [driverAndAction] answers, and that it changes nothing. *)
Lemma driverAndAction_cases op s : ready (sy_World s) → held op (sy_World s) →
  ∃ r s', driverAndAction op s = (r, s') ∧ sy_World s' = sy_World s ∧ sy_Prov s' = sy_Prov s ∧
    (∀ d a, r = Ok (d, a) → o_Action op = JVal a ∧
       ∃ x, home (sy_World s) op = Some x ∧ driver_at x = Some d ∧ x.1 = o_Provider op).
Proof.
  intros [_ Hi] Hh. destruct (driverAndAction op s) as [r s'] eqn:E. exists r, s'. split; [done|].
  pose proof (driverAndAction_reads op s) as Hw. pose proof (driverAndAction_same op s) as Hp.
  rewrite E in Hw, Hp. simpl in Hw, Hp. split_and!; [done|done|]. intros d a ->.
  destruct (driverAndAction_ok op s d a s' Hh (held_issued _ _ Hi Hh) E) as (_ & _ & ? & ?). done.
Qed.

Lemma dispatch_leads op s :
  ready (sy_World s) → held op (sy_World s) → knows op (sy_World s) → o_State op = OpJournaled →
  leads (conf s Idle) (conf (dispatch cfg OnTerminal op s).2 Idle).
Proof.
  intros Hr Hh Hkn Hst. destruct (driverAndAction_cases op s Hr Hh) as (r & s' & E & Hw & Hp & Hd).
  unfold dispatch, bindM at 1, tryM at 1. rewrite E. unfold conf at 1. rewrite <-Hw, <-Hp.
  change (MkConf (sy_World s') (sy_Prov s') Idle [] []) with (conf s' Idle). rewrite <-Hw in Hr, Hh, Hkn, Hd.
  assert (∀ e, leads (conf s' Idle) (conf (failOp OnTerminal (o_ID op) (o_State op) e s').2 Idle)) as Hfail.
  { intros e. apply (apart_leads (λ _, True)); [|apply failOp_reads|apply Hr|done]. apply failOp_runs; [done|by rewrite Hst]. }
  destruct r as [[d a]|e]; [|apply Hfail]. destruct (_ && _) eqn:Hpark; [apply Hfail|].
  destruct (Hd d a eq_refl) as (Ha & x & Hx & Hdx & _).
  unfold bindM at 1. unfold clockNow, nowM, onWorld at 1, getsM at 1.
  set (s1 := with_sy_World _ s'). change (conf s' Idle) with (conf s1 Idle). by eapply (call_leads op x d a s1).
Qed.

Lemma poll_leads op s :
  ready (sy_World s) → held op (sy_World s) → o_State op = OpExternalAccepted →
  leads (conf s Idle) (conf (poll cfg OnTerminal op s).2 Idle).
Proof.
  intros Hr Hh Hst. destruct (driverAndAction_cases op s Hr Hh) as (r & s' & E & Hw & Hp & Hd).
  etrans; [apply world_leads, (poll_runs cfg OnTerminal OnTerminal_runs (others owner) op Hst)|];
    [apply Hr|by apply held_same|].
  apply prov_leads. unfold poll, bindM at 1, tryM at 1. rewrite E. rewrite <-Hp.
  destruct r as [[d a]|e]; [|apply failOp_reads].
  destruct (Hd d a eq_refl) as (_ & x & _ & Hx & _).
  assert (∀ ref, reads (onProv (ObserveOperation d ref))) as Ho.
  { intros ref. eapply reads_call; [exact Hx|constructor]. }
  match goal with |- rtc _ _ (sy_Prov ((?m) s').2) => assert (reads m) as Hm by reads_tac; apply Hm end.
Qed.

Lemma verify_other_leads op s :
  ready (sy_World s) → held op (sy_World s) → o_State op = OpVerifying → o_Kind op ≠ OpKindCreate →
  leads (conf s Idle) (conf (verify cfg OnTerminal op s).2 Idle).
Proof.
  intros Hr Hh Hst Hk. destruct (driverAndAction_cases op s Hr Hh) as (r & s' & E & Hw & Hp & Hd).
  etrans; [apply world_leads, (verify_runs cfg OnTerminal OnTerminal_runs (others owner) op (or_intror Hk) Hst)|];
    [apply Hr|by apply held_same|].
  apply prov_leads. unfold verify, bindM at 1, tryM at 1. rewrite E. rewrite <-Hp.
  destruct r as [[d a]|e]; [|apply failOp_reads].
  destruct (Hd d a eq_refl) as (_ & x & _ & Hx & _).
  assert (∀ ref, reads (onProv (Get d ref))) as Hget.
  { intros ref. eapply reads_call; [exact Hx|constructor]. }
  match goal with |- rtc _ _ (sy_Prov ((?m) s').2) => assert (reads m) as Hm; [|apply Hm] end.
  destruct (o_Kind op); [done|reads_tac..].
Qed.

(** A search that comes back, whatever it found, and what follows it. *)
Lemma search_leads {A} op x d s (m : result (list ObservedResource) → M (Sys P) A) :
  driver_at x = Some d → held op (sy_World s) →
  (∀ r s1, sy_World s1 = sy_World s → r ≠ Ok [] → leads (conf s1 Idle) (conf (m r s1).2 Idle)) →
  (∀ s1, sy_World s1 = sy_World s → (Discover d (search (o_ID op)) (sy_Prov s)).1 = Ok [] →
     sy_Prov s1 = (Discover d (search (o_ID op)) (sy_Prov s)).2 →
     leads (conf s Idle) (conf (m (Ok []) s1).2 Idle)) →
  leads (conf s Idle) (conf ((found <- tryM (onProv (Discover d (search (o_ID op)))) ;; m found) s).2 Idle).
Proof.
  intros Hx Hh Hfound Hnone. unfold bindM, tryM, onProv.
  destruct (Discover d (search (o_ID op)) (sy_Prov s)) as [r p'] eqn:E. simpl in Hnone.
  assert (read_step (sy_Prov s) p') as Hstep.
  { exists x, d, (λ p, (Discover d (search (o_ID op)) p).2). split_and!; [done|constructor|by rewrite E]. }
  destruct r as [[|obs l]|e].
  - by apply Hnone.
  - etrans; [apply prov_leads, rtc_once, Hstep|]. by apply (Hfound _ (with_sy_Prov p' s)).
  - etrans; [apply prov_leads, rtc_once, Hstep|]. by apply (Hfound _ (with_sy_Prov p' s)).
Qed.

(** When the window of a create is over, and what has to be the case when the
    engine then looks for it: the listing has caught up with its machines. *)
Definition window_over (op : Operation) (now : Z) : Prop :=
  match o_VerifyDeadlineAt op with Some d => d ≤ now | None => True end.
Definition op_in_time (op : Operation) (s : Sys P) : Prop :=
  o_Kind op = OpKindCreate → o_State op = OpVerifying → window_over op (w_Clock (sy_World s)) →
  sane (sy_Prov s) → ∀ x, home (sy_World s) op = Some x → complete (sy_Prov s) x (o_ID op).

Lemma verify_create_leads op s : op_in_time op s →
  sane (sy_Prov s) → ready (sy_World s) → held op (sy_World s) → o_State op = OpVerifying → o_Kind op = OpKindCreate →
  leads (conf s Idle) (conf (verify cfg OnTerminal op s).2 Idle).
Proof.
  intros Htime Hsane Hr Hh Hst Hk. destruct (driverAndAction_cases op s Hr Hh) as (r & s' & E & Hw & Hp & Hd).
  unfold verify, bindM at 1, tryM at 1. rewrite E. unfold conf at 1. rewrite <-Hw, <-Hp.
  change (MkConf (sy_World s') (sy_Prov s') Idle [] []) with (conf s' Idle). rewrite <-Hw in Hr, Hh, Hd.
  rewrite <-Hp in Hsane.
  destruct r as [[d a]|e];
    [|apply (apart_leads (λ _, True)); [apply failOp_runs; [done|by rewrite Hst]|apply failOp_reads|apply Hr|done]].
  destruct (Hd d a eq_refl) as (Ha & x & Hx & Hdx & Hxp). rewrite Hk.
  unfold bindM at 1. unfold clockNow, nowM, onWorld at 1, getsM at 1.
  set (s1 := with_sy_World _ s'). change (conf s' Idle) with (conf s1 Idle).
  destruct (supportsLabelDiscovery op) eqn:Hsup; cbn [negb].
  2:{ apply (apart_leads (same_op op)); [|reads_tac|apply Hr|by apply held_same].
      apply via_inTx. intros w _ (cur & Hcur & Hck & _). apply K_transition; [done..| |done].
      intros _ o Ho. congruence. }
  assert (searchable x) as Hse.
  { unfold supportsLabelDiscovery in Hsup. rewrite <-Hxp in Hsup. destruct (Instance_ x.1) as [pv|] eqn:Hi; [|done].
    by exists pv. }
  change (MkDiscover ScopeOwned {[LabelOp := o_ID op]}) with (search (o_ID op)).
  assert (∀ c s2, sy_World s2 = sy_World s1 → leads (conf s2 Idle) (conf (reschedule cfg op c s2).2 Idle)) as Hre.
  { intros c s2 Hs2. apply (apart_leads (λ _, True)); [|apply reschedule_reads|rewrite Hs2; apply Hr|done].
    apply reschedule_runs. by rewrite Hst. }
  apply (search_leads op x d s1); [done|done|..].
  - intros [[|obs l]|e] s2 Hs2 Hne; [done| |by apply Hre].
    apply (apart_leads (same_op op)); [|reads_tac|rewrite Hs2; apply Hr|rewrite Hs2; by apply held_same].
    via_step; [|via_tac]. apply via_inTx. intros w _ Hw'. by apply K_adopt.
  - intros s2 Hs2 Hnone Hp2. destruct (match o_VerifyDeadlineAt op with Some _ => _ | None => _ end) eqn:Hover.
    + etrans; [|by apply Hre]. apply rtc_once. unfold conf. rewrite Hs2, Hp2.
      apply (C_read _ _ _ _ _ _ x d (λ p, (Discover d (search (o_ID op)) p).2)); [done|constructor].
    + destruct Hh as (cur & Hcur & Hcore).
      eapply rtc_l; [eapply (C_search owner _ _ [] [] (o_ID op) cur x d); try done|].
      * eapply home_grows; [reflexivity|exact Hcore|exact Hx].
      * split; [|intros y b Hin; by apply elem_of_nil in Hin].
        assert (sy_Prov s1 = sy_Prov s) as -> by exact Hp.
        apply (Htime Hk Hst); [|by rewrite <-Hp|by rewrite <-Hw]. rewrite <-Hw. unfold window_over.
        destruct (o_VerifyDeadlineAt op); [by apply bool_decide_eq_false, Z.nlt_ge in Hover|done].
      * unfold inTx, onWorld. rewrite Hs2.
        match goal with |- context [Tx ?m ?w] => destruct (Tx m w) as [r w'] eqn:E2 end. simpl.
        apply rtc_once. unfold conf. simpl. rewrite Hp2.
        replace w' with (Tx (moveTx (o_ID op) OpVerifying OpJournaled) (sy_World s1)).2 by (by rewrite E2).
        apply C_rejournal.
Qed.

Lemma drive_leads op s : op_in_time op s →
  sane (sy_Prov s) → ready (sy_World s) → held op (sy_World s) → knows op (sy_World s) →
  leads (conf s Idle) (conf (drive cfg OnTerminal op s).2 Idle).
Proof.
  intros Ht Hs Hr Hh Hkn. unfold drive. destruct (o_State op) eqn:Hst; try done.
  - by apply dispatch_leads.
  - by apply poll_leads.
  - destruct (decide (o_Kind op = OpKindCreate)); [by apply verify_create_leads|by apply verify_other_leads].
Qed.

(** ** A whole batch *)

(** What every step leaves of the journal, retries included. *)
Record kept (w w' : World) : Prop := {
  kp_kinds : kinds w ⊆ kinds w';
  kp_row k o : row w k = Some o → ∃ o', row w' k = Some o' ∧ core o' = core o;
  kp_new k o : row w' k = Some o → row w k = None → issued owner k o w'
}.
Lemma grows_kept w w' : grows owner w w' → kept w w'.
Proof.
  intros [Hk Hr Hn]. split; [done| |done]. intros k o Ho. destruct (Hr _ _ Ho) as (o' & ? & ? & _). eauto.
Qed.
Lemma Transition_kept k p q mut w :
  (∀ o, o_State (mut o) = o_State o) → kept w (Tx (Operations_Transition k p q mut) w).2.
Proof.
  intros Hm. destruct (Transition_core k p q mut w Hm) as (Ek & Er & En).
  unfold kinds, row in *. rewrite <-Transition_Tx in Ek, Er, En. split; unfold kinds, row.
  - by rewrite Ek.
  - intros j o Ho. destruct (Er _ _ Ho) as (o' & ? & ? & _). eauto.
  - intros j o Ho Hn. by rewrite (En _ Hn) in Ho.
Qed.
Lemma cstep_kept c c' : cstep owner c c' → kept (cf_World c) (cf_World c').
Proof.
  intros Hst. destruct Hst; simpl; try (by apply grows_kept).
  - apply grows_kept. by apply others_grow.
  - apply grows_kept, Tx_grows, moves_Transition. by split.
  - apply grows_kept, Tx_grows, moves_Transition. by split.
  - by apply Transition_kept.
  - by apply Transition_kept.
Qed.
Lemma held_leads op c c' : leads c c' → held op (cf_World c) → held op (cf_World c').
Proof.
  induction 1 as [|c1 c2 c3 H12 _ IH]; [done|]. intros (cur & Hc & Heq). apply IH.
  destruct (kp_row _ _ (cstep_kept _ _ H12) _ _ Hc) as (o' & Ho' & Hc'). exists o'. split; [done|congruence].
Qed.
Lemma Once_ready c : Once owner c → ready (cf_World c).
Proof. intros HO. split; [apply HO|]. intros k o. apply (on_issued _ _ HO). Qed.

(** The batch, and every search of it in time. *)
Fixpoint batch_in_time (l : list Operation) (s : Sys P) : Prop :=
  match l with
  | [] => True
  | op :: l => op_in_time op s ∧
      match drive cfg OnTerminal op s with (Ok _, s') => batch_in_time l s' | (Err _, _) => True end
  end.
Definition round_in_time (s : Sys P) : Prop :=
  match Operations_Due (w_Clock (sy_World s)) (MaxBatch cfg) (sy_World s) with
  | (Ok l, _) => batch_in_time l s
  | (Err _, _) => True
  end.

(** While no window is over there is nothing to keep. *)
Definition window_open (op : Operation) (now : Z) : bool :=
  match o_VerifyDeadlineAt op with Some d => bool_decide (now < d) | None => false end.
Definition op_early (op : Operation) (s : Sys P) : bool :=
  bool_decide (o_State op ≠ OpVerifying) || window_open op (w_Clock (sy_World s)).
Fixpoint batch_early (l : list Operation) (s : Sys P) : bool :=
  match l with
  | [] => true
  | op :: l => op_early op s && match drive cfg OnTerminal op s with (Ok _, s') => batch_early l s' | (Err _, _) => true end
  end.
Definition round_early (s : Sys P) : bool :=
  match Operations_Due (w_Clock (sy_World s)) (MaxBatch cfg) (sy_World s) with
  | (Ok l, _) => batch_early l s
  | (Err _, _) => true
  end.
Lemma batch_early_in_time l s : batch_early l s = true → batch_in_time l s.
Proof.
  revert s. induction l as [|op l IH]; intros s; simpl; [done|]. intros [He Hl]%andb_true_iff. split.
  - intros _ Hst Hw. exfalso. apply orb_true_iff in He as [He|He]; [by apply bool_decide_eq_true in He|].
    unfold window_open, window_over in *. destruct (o_VerifyDeadlineAt op); [|done].
    apply bool_decide_eq_true in He. lia.
  - destruct (drive cfg OnTerminal op s) as [[?|?] ?]; [by apply IH|done].
Qed.

Lemma drive_all_leads l s : batch_in_time l s →
  NoDup (o_ID <$> l) → Once owner (conf s Idle) →
  (∀ op, op ∈ l → held op (sy_World s) ∧ knows op (sy_World s)) →
  leads (conf s Idle) (conf (forM_ l (drive cfg OnTerminal) s).2 Idle).
Proof.
  revert s. induction l as [|op l IH]; intros s [Ht Hts] Hnd HO Hk || intros s _ Hnd HO Hk; [done|].
  apply NoDup_cons in Hnd as [Hnin Hnd]. simpl. destruct (Hk op) as [Hh Hkn]; [left|].
  pose proof (Once_ready _ HO) as Hr. pose proof (drive_leads op s Ht (on_sane _ _ HO) Hr Hh Hkn) as Hl.
  assert (rtc (kstep (dispatching (o_ID op))) (sy_World s) (sy_World (drive cfg OnTerminal op s).2)) as Hd.
  { apply (drive_runs cfg OnTerminal OnTerminal_runs); [done|apply Hr|done]. }
  unfold bindM. destruct (drive cfg OnTerminal op s) as [[u|e] s'] eqn:E; simpl in *; [|done].
  etrans; [exact Hl|]. apply IH; [done|done| |].
  - exact (Once_steps owner _ _ HO Hl).
  - intros op' Hop'. destruct (Hk op') as [Hh' Hkn']; [by right|]. split; [by eapply (held_leads _ _ _ Hl)|].
    eapply knows_steps; [|apply Hr|exact Hd|done].
    intros Heq. apply Hnin. rewrite Heq. by apply list_elem_of_fmap_2.
Qed.

Lemma Step_leads s : round_in_time s → Once owner (conf s Idle) → leads (conf s Idle) (conf (Step cfg OnTerminal s).2 Idle).
Proof.
  intros Ht HO. pose proof (Once_ready _ HO) as Hr. simpl in Hr. destruct (due_rows (w_Clock (sy_World s)) (MaxBatch cfg) (sy_World s) (proj1 (proj1 Hr)))
    as [Hnd Hk].
  unfold Step, Operations_Due, clockNow, nowM, onWorld, getsM. unfold bindM at 1 2. simpl.
  set (l := limit _ _) in *. set (s0 := with_sy_World _ (with_sy_World _ s)).
  assert (s0 = s) as Hs0 by (by destruct s).
  assert (∀ op, op ∈ l → held op (sy_World s) ∧ knows op (sy_World s)) as Hl.
  { intros op Hop. split; [|by apply Hk]. unfold l in Hop. apply elem_of_limit in Hop. rewrite elem_of_order_by in Hop.
    apply elem_of_select in Hop as (_ & k & Ho). pose proof (keyed_op _ (proj1 (proj1 Hr)) _ _ Ho) as Hid.
    exists op. unfold row. by rewrite Hid. }
  rewrite Hs0 in *. pose proof (drive_all_leads l s Ht Hnd HO Hl) as Hd. unfold bindM.
  by destruct (forM_ l (drive cfg OnTerminal) s) as [[u|e] s'].
Qed.
End engine.

(** ** The process *)

Section process.
Context `{ULID} {P : Type} `{Providers P} `{Rand} `{compute.Network} `{Cloud P}.
Context (b : Boot).
Abbreviation owner := (bt_Owner b).
Context `{!HonestClouds owner}.

Lemma onTerminal_reads op : reads (P := P) (onTerminal b op).
Proof.
  unfold onTerminal. apply reads_bind; [apply Reconciler_HandleOpTerminal_reads|].
  intros _. apply Scheduler_HandleOpTerminal_reads.
Qed.
Lemma others_plans : plans (others owner) owner.
Proof.
  intros cs t w p w' Hp. destruct (Prepare_planned _ _ _ _ _ _ Hp) as (a & Ha & Hpl).
  split; [by exists a|]. intros i. exists a. simpl. unfold stampKey. by case_match.
Qed.

(** Every round but the engine's. *)
Lemma act_apart a : a ≠ EngineRound →
  via (P := P) (steps (others owner) (λ _, True)) (act b a) ∧ reads (P := P) (act b a).
Proof.
  pose proof others_plans as Hpl. intros Ha. split.
  - destruct a; simpl; try done; try apply via_ignore;
    first [by apply Engine_Resume_runs|by apply SeedConfigClasses_runs|by apply Reconciler_round_runs
      |by apply SweepExpired_runs|by apply Discovery_round_runs|by apply Scheduler_Resume_runs
      |by apply CreateResource_runs|by apply DeleteResource_runs|by apply ParkResource_runs
      |by apply StartResource_runs|by apply DrainResource_runs|by apply UndrainResource_runs
      |by apply SetResourceProtected_runs|by apply ResolveOperation_runs|by apply Acquire_runs
      |by apply Service_Release_runs|by apply UpsertPool_runs|by apply SetPoolPaused_runs
      |by apply DeletePool_runs|by apply ReconcilePool_runs|by apply UpsertClass_runs
      |by apply DeleteClass_runs].
  - destruct a; simpl; try done; try apply reads_ignore;
    first [apply reads_inTx|apply Reconciler_round_reads|apply SweepExpired_reads|apply Discovery_round_reads
      |apply Scheduler_Resume_reads|apply CreateResource_reads|apply DeleteResource_reads|apply ParkResource_reads
      |apply StartResource_reads|apply DrainResource_reads|apply UndrainResource_reads
      |apply SetResourceProtected_reads|apply ResolveOperation_reads|apply Acquire_reads
      |apply Service_Release_reads|apply UpsertPool_reads|apply SetPoolPaused_reads|apply DeletePool_reads
      |apply ReconcilePool_reads|apply UpsertClass_reads|apply DeleteClass_reads|unfold Engine_Resume; reads_tac].
Qed.

Lemma act_leads a s : (a = EngineRound → round_in_time (bt_Engine b) (onTerminal b) s) → Once owner (conf s Idle) →
  rtc (cstep owner) (conf s Idle) (conf (act b a s).2 Idle).
Proof.
  intros Ht HO. assert (a = EngineRound ∨ a ≠ EngineRound) as [->|Hne] by (destruct a; auto).
  - simpl. apply (Step_leads owner (bt_Engine b) (onTerminal b) (onTerminal_runs b) onTerminal_reads s (Ht eq_refl) HO).
  - destruct (act_apart a Hne) as [Hv Hre].
    apply (apart_leads owner (λ _, True)); [done|done|apply (Once_ready _ _ HO)|done].
Qed.

(** The engine's searches of a run, in time. *)
Fixpoint in_time (l : list (Z * Activity)) (s : Sys P) : Prop :=
  match l with
  | [] => True
  | (now, a) :: l =>
      let s0 := with_sy_World (with_w_Clock now (sy_World s)) s in
      (a = EngineRound → round_in_time (bt_Engine b) (onTerminal b) s0) ∧ in_time l (act b a s0).2
  end.
Fixpoint early (l : list (Z * Activity)) (s : Sys P) : bool :=
  match l with
  | [] => true
  | (now, a) :: l =>
      let s0 := with_sy_World (with_w_Clock now (sy_World s)) s in
      match a with EngineRound => round_early (bt_Engine b) (onTerminal b) s0 | _ => true end && early l (act b a s0).2
  end.
Lemma early_in_time l s : early l s = true → in_time l s.
Proof.
  revert s. induction l as [|[now a] l IH]; intros s; simpl; [done|]. intros [He Hl]%andb_true_iff.
  split; [|by apply IH]. intros ->. by apply batch_early_in_time.
Qed.
(** So they are when the clouds always list what they have. *)
Lemma lists_in_time l s : (∀ p x k, sane p → complete p x k) → in_time l s.
Proof.
  intros Hl. assert (∀ ops s, batch_in_time (bt_Engine b) (onTerminal b) ops s) as Hb.
  { induction ops as [|op ops IH]; intros s1; [done|]. split; [intros _ _ _ Hs x _; by apply Hl|]. by destruct (drive _ _ op s1) as [[?|?] ?]. }
  revert s. induction l as [|[now a] l IH]; intros s; [done|]. split; [|apply IH]. intros _. apply Hb.
Qed.

Lemma run_leads l s : in_time l s → Once owner (conf s Idle) →
  rtc (cstep owner) (conf s Idle) (conf (run b l s) Idle).
Proof.
  revert s. induction l as [|[now a] l IH]; intros s Ht HO; simpl; [done|]. destruct Ht as [Ht Hts].
  set (s0 := with_sy_World _ s).
  assert (rtc (cstep owner) (conf s Idle) (conf s0 Idle)) as H0'.
  { apply rtc_once, C_other. by apply (K_aside _ (sy_World s) (modifyM (with_w_Clock now))). }
  pose proof (Once_steps owner _ _ HO H0') as HO0. pose proof (act_leads a s0 Ht HO0) as Ha.
  etrans; [exact H0'|]. etrans; [exact Ha|]. apply IH; [exact Hts|]. exact (Once_steps owner _ _ HO0 Ha).
Qed.

(** Then there is at most one machine per create, and none without. *)
Lemma run_creates_once now l s :
  in_time l s → sy_World s = fresh now → sane (sy_Prov s) → (∀ y k, machines (sy_Prov s) y k = 0%nat) →
  ∀ y k, (machines (sy_Prov (run b l s)) y k ≤ 1)%nat ∧
    ((0 < machines (sy_Prov (run b l s)) y k)%nat → ∃ o, row (sy_World (run b l s)) k = Some o ∧
       o_Kind o = OpKindCreate ∧ o_State o ≠ OpJournaled ∧ home (sy_World (run b l s)) o = Some y).
Proof.
  intros Ht Hw Hs Hm y k.
  assert (Once owner (conf s Idle)) as HO.
  { unfold conf. rewrite Hw. by apply (Once_start owner). }
  pose proof (Once_steps owner _ _ HO (run_leads l s Ht HO)) as HO'.
  pose proof (on_once _ _ HO' y k) as H1'. simpl in H1'.
  assert (machines (sy_Prov (run b l s)) y k ≤ load (conf (run b l s) Idle) y k)%nat by (unfold load; simpl; lia).
  split; [unfold misses in H1'; simpl in H1'; lia|]. intros Hpos.
  destruct (loaded_home owner (conf (run b l s) Idle) y k HO') as (o & ? & ? & ? & [?|Hin]); [lia| |].
  - by exists o.
  - by apply elem_of_nil in Hin.
Qed.

Hypothesis lists : ∀ p x k, sane p → complete p x k.

(** C2: the rounds of all goroutines, from the code's own handlers: whatever
    runs in whatever order from an empty database, on clouds that keep the
    contract and list what they have, every machine of the installation
    belongs to one dispatched create of the journal, and no create has two. *)
Theorem process_creates_once now l s :
  sy_World s = fresh now → sane (sy_Prov s) → (∀ y k, machines (sy_Prov s) y k = 0%nat) →
  ∀ y k, (machines (sy_Prov (run b l s)) y k ≤ 1)%nat ∧
    ((0 < machines (sy_Prov (run b l s)) y k)%nat → ∃ o, row (sy_World (run b l s)) k = Some o ∧
       o_Kind o = OpKindCreate ∧ o_State o ≠ OpJournaled ∧ home (sy_World (run b l s)) o = Some y).
Proof. apply run_creates_once, lists_in_time, lists. Qed.
End process.
