(* ===== verification/FakeHonest.v ===== *)
(** * The in-memory provider keeps the contract

    One instance of the fake under the kernel: machines and volumes by op
    label, queued faults that tell the truth about their effect, and list lag
    up to a bound. *)

From stdpp Require Import base gmap strings list pretty relations.
From S2P Require Import Prelude Errors Json SDK Types Store Kinds Marshal Provision Spec Abs Fake FakeFacts Contract Phase Capacity Classes Sys Lease Engine Scheduler Reconcile Discovery App Refine System Via Process Once Reads OnceRun.
From S2P Require Demo.

(** ** Pages and volume parameters *)

Lemma paginate_extends {A} fuel size i (all paged : list A) : ∃ rest, paginate fuel size i all paged = paged ++ rest.
Proof.
  revert i paged. induction fuel as [|fuel IH]; intros i paged; simpl; [exists []; by rewrite app_nil_r|].
  case_decide; [|exists []; by rewrite app_nil_r].
  edestruct IH as [rest ->]. rewrite <-app_assoc. by eexists.
Qed.
Lemma paginate_nonempty {A} size (x : A) all : in64 size → 0 < size →
  paginate (S (length (x :: all))) size 0 (x :: all) [] ≠ [].
Proof.
  intros Hs Hpos. cbn [paginate]. rewrite decide_True by (simpl; lia).
  assert (add64 0 size = size) as -> by (unfold add64; rewrite Z.add_0_l; by apply wrap64_id).
  rewrite drop_0, Z.sub_0_r. edestruct @paginate_extends as [rest ->].
  destruct (Z.to_nat _) as [|n] eqn:E; [|done]. simpl length in E. lia.
Qed.

Lemma ParseSpec_volume r s : volume.ParseSpec r = Ok s → in64 (volume.SizeGiB s).
Proof.
  unfold volume.ParseSpec. intros Hp. apply RangeFacts.andThen_Ok in Hp as (j & _ & Hp).
  apply RangeFacts.andThen_Ok in Hp as (s' & Hs & Hp). case_decide; [done|]. injection Hp as ->.
  unfold volume.dec_spec in Hs. apply RangeFacts.andThen_Ok in Hs as (fs & _ & Hs).
  apply RangeFacts.andThen_Ok in Hs as (size & Hsize & Hs). do 2 (apply RangeFacts.andThen_Ok in Hs as (? & _ & Hs)).
  injection Hs as <-. simpl. eapply (RangeFacts.dec_field_inv in64); [|apply RangeFacts.in64_0|exact Hsize].
  intros. by eapply RangeFacts.dec_int64_range.
Qed.
Import SpecFacts.
Lemma volParams_round_trip q : in64 (volume.SizeGiB (Volumes.vp_Spec q)) →
  Volumes.dec_volParams (Volumes.enc_volParams q) = Ok q.
Proof.
  intros Hr. destruct q as [name spec labels]. unfold Volumes.dec_volParams, Volumes.enc_volParams.
  cbn [Volumes.vp_Name Volumes.vp_Spec Volumes.vp_Labels] in *.
  assert (compute.dec_labels (enc_map JStr labels) ∅ = Ok labels) as Hl.
  { unfold enc_map. simpl. by rewrite (dec_enc_map ""%string dec_string JStr). }
  repeat (dec_fields; first [rewrite (volume_round_trip spec Hr) | rewrite Hl]). by dec_fields.
Qed.

Section honest.
Context `{Providers Fake}.
Context (owner inst : string) (opt : Options) (lag : Z).
(** The only instance is the fake one. *)
Hypothesis one_instance : ∀ name p, Instance_ name = Some p → name = inst ∧ p = Fake_Provider inst opt.

(** Labels of the installation [owner] for the operation [op]. *)
Definition ours (op : string) (labels : gmap string string) : bool :=
  owned owner labels && bool_decide (map_get labels LabelOp = op).
Definition our_machine (op : string) (o : object) : bool := live o && ours op (fo_labels o).
Definition our_volume (op : string) (o : volObject) : bool := negb (vo_gone o) && ours op (vo_labels o).

Record tame (f : Fake) : Prop := {
  tm_owner : f_ownerID f = owner;
  tm_page : in64 (PageSize (f_opt f));
  tm_new_lag : ListLagSteps (f_opt f) ≤ lag;
  tm_lag k o : f_objects f !! k = Some o → fo_listLag o ≤ lag;
  tm_objects k o : f_objects f !! k = Some o → fo_id o = k;
  tm_volumes k o : f_volumes f !! k = Some o → vo_id o = k;
  tm_faults : Forall (λ a, af_mutate a = true → af_effect a ≠ EffectNone) (f_applyFaults f)
}.

#[export] Instance fake_cloud : Cloud Fake := {|
  machines f y op :=
    if decide (y = (inst, compute.Kind)) then count (our_machine op) (f_objects f)
    else if decide (y = (inst, volume.Kind)) then count (our_volume op) (f_volumes f) else 0%nat;
  complete f y op := y = (inst, compute.Kind) →
    ∀ k o, f_objects f !! k = Some o → our_machine op o = true → fo_listLag o ≤ 1;
  sane := tame;
  drifts f f' := ∃ n class effect t, f' = FailNextApply class effect n f ∨ f' = AcceptButDropResponse f ∨
                                     f' = RateLimitNext n t f
|}.

(** ** Calls that add nothing *)

(** Every object of [f'] is one of [f], alive only if it was. *)
Record calm (f f' : Fake) : Prop := {
  cm_owner : f_ownerID f' = f_ownerID f;
  cm_opt : f_opt f' = f_opt f;
  cm_objects k o' : f_objects f' !! k = Some o' → ∃ o, f_objects f !! k = Some o ∧
    fo_id o' = fo_id o ∧ fo_labels o' = fo_labels o ∧ (live o' = true → live o = true) ∧
    fo_listLag o' ≤ fo_listLag o;
  cm_volumes k o' : f_volumes f' !! k = Some o' → ∃ o, f_volumes f !! k = Some o ∧
    vo_id o' = vo_id o ∧ vo_labels o' = vo_labels o ∧ (vo_gone o' = false → vo_gone o = false);
  cm_faults : ∀ a, a ∈ f_applyFaults f' → a ∈ f_applyFaults f
}.

#[local] Instance calm_refl : Reflexive calm.
Proof. intros f. split; try done; intros k o Ho; exists o; auto with lia. Qed.
#[local] Instance calm_trans : Transitive calm.
Proof.
  intros f1 f2 f3 [A1 B1 C1 D1 E1] [A2 B2 C2 D2 E2]. split; [congruence|congruence|..].
  - intros k o3 H3. destruct (C2 _ _ H3) as (o2 & H2 & I2 & L2 & V2 & G2).
    destruct (C1 _ _ H2) as (o1 & H1 & I1 & L1 & V1 & G1). exists o1. split_and!; [done|congruence|congruence|auto|lia].
  - intros k o3 H3. destruct (D2 _ _ H3) as (o2 & H2 & I2 & L2 & V2).
    destruct (D1 _ _ H2) as (o1 & H1 & I1 & L1 & V1). exists o1. split_and!; [done|congruence|congruence|auto].
  - auto.
Qed.

Lemma calm_tame f f' : calm f f' → tame f → tame f'.
Proof.
  intros [A B C D E] [T1 T2 T3 T4 T5 T6 T7]. split; [congruence|by rewrite B|by rewrite B|..].
  - intros k o Ho. destruct (C _ _ Ho) as (o0 & Ho0 & _ & _ & _ & Hl). specialize (T4 _ _ Ho0). lia.
  - intros k o Ho. destruct (C _ _ Ho) as (o0 & Ho0 & -> & _). by apply T5.
  - intros k o Ho. destruct (D _ _ Ho) as (o0 & Ho0 & -> & _). by apply T6.
  - apply Forall_forall. intros a Ha. rewrite Forall_forall in T7. by apply T7, E.
Qed.
Lemma calm_fewer f f' : calm f f' → fewer f f'.
Proof.
  intros [A B C D E] y k. simpl. repeat case_decide; [..|done]; apply count_sub; intros j o' Ho'.
  - destruct (C _ _ Ho') as (o & Ho & _ & Hl & Hv & _). unfold our_machine. rewrite Hl.
    intros [Hlive Hours]%andb_true_iff. exists o. split; [done|]. by rewrite Hv, Hours.
  - destruct (D _ _ Ho') as (o & Ho & _ & Hl & Hv). unfold our_volume. rewrite Hl.
    intros [Hlive%negb_true_iff Hours]%andb_true_iff. exists o. split; [done|]. by rewrite Hv, Hours.
Qed.
Lemma calm_ok f f' : calm f f' → tame f → tame f' ∧ fewer f f'.
Proof. intros Hc Ht. split; [by eapply calm_tame|by apply calm_fewer]. Qed.

(** The drivers there are. *)
Lemma driver_cases x d : driver_at x = Some d →
  (x = (inst, compute.Kind) ∧ d = Fake.machines inst) ∨ (x = (inst, volume.Kind) ∧ d = Fake.volumes inst).
Proof.
  destruct x as [name kind]. unfold driver_at. intros (p & Hp & Hd)%bind_Some. simpl in *.
  destruct (one_instance _ _ Hp) as [-> ->]. simpl in Hd. unfold Fake_ResourceDriver in Hd.
  destruct (mem kind [compute.Kind]) eqn:E1.
  - apply bool_decide_eq_true in E1. apply list_elem_of_singleton in E1 as ->. left. by simplify_eq.
  - destruct (mem kind [volume.Kind]) eqn:E2; [|done]. apply bool_decide_eq_true in E2.
    apply list_elem_of_singleton in E2 as ->. right. by simplify_eq.
Qed.

Lemma calm_put f o o' : f_objects f !! fo_id o = Some o → fo_id o' = fo_id o → fo_labels o' = fo_labels o →
  (live o' = true → live o = true) → fo_listLag o' ≤ fo_listLag o → calm f (put o' f).
Proof.
  intros Ho Hi Hl Hv Hg. split; try done; simpl.
  - intros k x. rewrite Hi, lookup_insert_Some. intros [[<- <-]|[_ Hk]]; [by exists o|exists x; auto with lia].
  - intros k x Hk. by exists x.
Qed.
Lemma calm_calls f a b c : calm f (with_calls a b c f).
Proof. split; try done; intros k x Hk; exists x; auto with lia. Qed.
Lemma calm_rate f a b : calm f (with_rateLimit a b f).
Proof. split; try done; intros k x Hk; exists x; auto with lia. Qed.

(** The rate limiter comes first: a call is refused, or runs. *)
Lemma limited_calm {A} (k : M Fake A) f f0 : calm f f0 → (∀ f1, calm f f1 → f_objects f1 = f_objects f0 →
    f_volumes f1 = f_volumes f0 → f_applyFaults f1 = f_applyFaults f0 → calm f (k f1).2) →
  calm f ((rateLimited ;;; k) f0).2.
Proof.
  intros Hc Hk. unfold bindM, rateLimited. case_decide; simpl; [|by apply Hk].
  etrans; [exact Hc|apply calm_rate].
Qed.

Lemma Discover_calm rq f : calm f (Fake_Discover rq f).2.
Proof.
  unfold Fake_Discover, bindM at 1, modifyM at 1. apply limited_calm; [apply calm_calls|]. intros f1 Hc _ _ _.
  simpl. etrans; [exact Hc|]. split; try done; simpl.
  - intros k o'. rewrite lookup_fmap_Some. intros (o & <- & Ho). exists o. split; [done|].
    unfold tickLag. case_decide; simpl; auto with lia.
  - intros k o Ho. by exists o.
Qed.
Lemma Get_calm ref f : calm f (Fake_Get ref f).2.
Proof.
  unfold Fake_Get. apply limited_calm; [done|]. intros f1 Hc _ _ _. by destruct (findLive _ f1).
Qed.
Lemma stepObject_lag o : fo_listLag (stepObject o).1 = fo_listLag o.
Proof. unfold stepObject. destruct (fo_state o); try case_decide; done. Qed.
Lemma Observe_calm op f : tame f → calm f (Fake_ObserveOperation op f).2.
Proof.
  intros Ht. unfold Fake_ObserveOperation, bindM at 1, modifyM at 1. apply limited_calm; [apply calm_calls|].
  intros f1 Hc Ho _ _. destruct (or_Ref op) as [ref|]; [|done].
  destruct (findLive (ref_ID ref) f1) as [o|] eqn:E; [|done]. apply findLive_Some in E as [Hk Hl].
  pose proof (stepObject_lag o) as Hlag. destruct (stepObject o) as [o' b] eqn:Hst. simpl in Hlag |- *.
  destruct (stepObject_keeps _ _ _ Hst) as (Hi & Hlb & Hv). etrans; [exact Hc|].
  pose proof (tm_objects _ (calm_tame _ _ Hc Ht) _ _ Hk) as Hid.
  apply (calm_put f1 o o'); [by rewrite Hid|done|done|done|lia].
Qed.

Lemma read_calm x d g f : driver_at x = Some d → read_call d g → tame f → calm f (g f).
Proof.
  intros Hd Hg Ht. apply driver_cases in Hd as [[_ ->]|[_ ->]]; destruct Hg; simpl.
  - apply Discover_calm.
  - apply Get_calm.
  - by apply Observe_calm.
  - done.
  - unfold Volumes.Get. by destruct (Volumes.findLive _ f).
  - unfold Volumes.ObserveOperation. destruct (or_Ref op) as [ref|]; [|done]. by destruct (Volumes.findLive _ f).
Qed.

(** ** Stops, starts and deletes *)

Lemma applyLocked_follow a f : follow_up a → tame f → calm f (applyLocked a f).2.
Proof.
  intros Ha Ht. assert (∀ o st n, f_objects f !! fo_id o = Some o → live o = true →
    calm f (put (with_state st n o) f)) as Hput.
  { intros o st n Ho Hl. by apply (calm_put f o). }
  assert (∀ id o, findLive id f = Some o → f_objects f !! fo_id o = Some o ∧ live o = true) as Hlive.
  { intros id o [Hk Hl]%findLive_Some. by rewrite (tm_objects _ Ht _ _ Hk). }
  assert (∀ goal way n, calm f (applyPark a goal way n f).2) as Hpark.
  { intros goal way n. unfold applyPark. destruct (ac_Ref a) as [ref|]; [|done]. destruct (negb _); [done|].
    destruct (findLive _ f) as [o|] eqn:E; [|done]. destruct (Hlive _ _ E). simpl.
    destruct (mem _ _); [done|]. case_decide; by apply Hput. }
  unfold follow_up in Ha. unfold applyLocked.
  destruct (mem (ac_Kind a) ["create"%string]) eqn:E1.
  { apply bool_decide_eq_true, list_elem_of_singleton in E1. rewrite E1 in Ha. exfalso. set_solver. }
  clear E1. destruct (mem _ _); [|destruct (mem _ _); [apply Hpark|]; destruct (mem _ _); [apply Hpark|done]].
  unfold applyDelete. destruct (ac_Ref a) as [ref|]; [|done]. simpl.
  destruct (findLive _ f) as [o|] eqn:E; [|done]. destruct (Hlive _ _ E). case_decide; by apply Hput.
Qed.

(** ** Apply *)

Lemma calm_faults f rest a : f_applyFaults f = a :: rest → calm f (with_applyFaults rest f).
Proof.
  intros Hf. split; try done; simpl; [intros k x Hk; exists x; auto with lia|intros k x Hk; by exists x|].
  intros b Hb. rewrite Hf. by right.
Qed.

(** A call is refused without effect, runs, or runs and its reply is lost. *)
Lemma Apply_cases a f : tame f → ∃ f1, calm f f1 ∧
  ((∃ e, Fake_Apply a f = (Err e, f1)) ∨ Fake_Apply a f = applyLocked a f1 ∨
   ∃ e, Fake_Apply a f = (Err e, (applyLocked a f1).2) ∧ Effect e ≠ EffectNone).
Proof.
  intros Ht. unfold Fake_Apply, bindM, modifyM. cbv beta iota.
  set (f0 := with_calls _ _ _ f). assert (calm f f0) as Hc by apply calm_calls.
  unfold rateLimited. case_decide.
  { eexists. split; [|left; by eexists]. etrans; [exact Hc|apply calm_rate]. }
  unfold nextFault. destruct (f_applyFaults f0) as [|a0 rest] eqn:Hf; [exists f0; auto|].
  destruct (mem _ _); [|exists f0; auto].
  pose proof (calm_faults f0 rest a0 Hf) as Hc'. exists (with_applyFaults rest f0). split; [by etrans|].
  destruct (af_mutate a0) eqn:Hm; [right; right|left; by eexists]. eexists. split; [done|].
  pose proof (tm_faults _ Ht) as Hall. change (f_applyFaults f) with (f_applyFaults f0) in Hall. rewrite Hf in Hall.
  apply Forall_cons in Hall as [Hall _]. specialize (Hall Hm). unfold Effect. simpl. by rewrite decide_False by done.
Qed.

Lemma Volumes_follow a f : follow_up a → tame f → calm f (Volumes.Apply a f).2.
Proof.
  intros Ha Ht. unfold Volumes.Apply, follow_up in *.
  destruct (mem (ac_Kind a) ["create"%string]) eqn:E1.
  { apply bool_decide_eq_true, list_elem_of_singleton in E1. rewrite E1 in Ha. exfalso. set_solver. }
  clear E1. destruct (mem _ _); [|done]. unfold Volumes.applyDelete. destruct (ac_Ref a) as [ref|]; [|done]. simpl.
  destruct (f_volumes f !! ref_ID ref) as [o|] eqn:E; [|done]. unfold Volumes.put. simpl.
  rewrite (tm_volumes _ Ht _ _ E). split; try done; simpl.
  - intros k x Hk. exists x. auto with lia.
  - intros k x. rewrite lookup_insert_Some. intros [[<- <-]|[_ Hk]]; [|by exists x]. exists o. split_and!; try done. simpl. by rewrite (tm_volumes _ Ht _ _ E).
Qed.

Lemma follow_calm x d a f : driver_at x = Some d → follow_up a → tame f → calm f (Apply d a f).2.
Proof.
  intros Hd Ha Ht. apply driver_cases in Hd as [[_ ->]|[_ ->]]; simpl; [|by apply Volumes_follow].
  destruct (Apply_cases a f Ht) as (f1 & Hc & Hcases). pose proof (calm_tame _ _ Hc Ht) as Ht1.
  assert (calm f (applyLocked a f1).2) as Hrun by (etrans; [exact Hc|by apply applyLocked_follow]).
  destruct Hcases as [[e ->]|[->|(e & -> & _)]]; done.
Qed.

(** What a planned create carries. *)
Lemma planned_machine op a : planned owner (inst, compute.Kind) op a → ∃ j q, ac_Kind a = "create"%string ∧
  ac_ActionID a = op ∧ ac_Params a = Some j ∧ dec_createParams j = Ok q ∧
  cp_Labels q !! LabelOp = Some op ∧ cp_Labels q !! LabelManaged = Some "true"%string ∧
  cp_Labels q !! LabelOwner = Some owner.
Proof.
  intros (d & res & name & spec & labels & a0 & Hd & Hl & Hp & ->).
  apply driver_cases in Hd as [[_ ->]|[? _]]; [|done]. simpl in Hp.
  unfold Fake_Plan in Hp. simpl in Hp. destruct (compute.ParseSpec spec) as [sp|e] eqn:Hs; [|done].
  injection Hp as <-. eexists _, (MkCreateParams name sp labels). split_and!; [done..| | | |].
  { apply createParams_round_trip. by apply RangeFacts.ParseSpec_machine in Hs as [_ ?]. }
  all: by apply (identity_says owner res op).
Qed.
Lemma planned_volume op a : planned owner (inst, volume.Kind) op a → ∃ j q, ac_Kind a = "create"%string ∧
  ac_ActionID a = op ∧ ac_Params a = Some j ∧ Volumes.dec_volParams j = Ok q ∧
  Volumes.vp_Labels q !! LabelOp = Some op.
Proof.
  intros (d & res & name & spec & labels & a0 & Hd & Hl & Hp & ->).
  apply driver_cases in Hd as [[? _]|[_ ->]]; [done|]. simpl in Hp.
  unfold Volumes.Plan in Hp. simpl in Hp. destruct (volume.ParseSpec spec) as [sp|e] eqn:Hs; [|done].
  injection Hp as <-. eexists _, (Volumes.MkVolParams name sp labels). split_and!; [done..| |].
  - apply volParams_round_trip. by eapply ParseSpec_volume.
  - by apply (identity_says owner res op).
Qed.

(** ** Creates *)

(** One machine at most is added, under the label of its create. *)
Definition adds_one (x : address) (op : string) (f f' : Fake) : Prop := ∀ y k,
  (machines f' y k ≤ machines f y k + (if decide ((y, k) = (x, op)) then 1 else 0))%nat.

Lemma ours_other op op' labels : labels !! LabelOp = Some op → op' ≠ op → ours op' labels = false.
Proof.
  intros Hl Hne. unfold ours, map_get. rewrite Hl. simpl. rewrite bool_decide_eq_false_2 by done.
  apply andb_false_r.
Qed.

Lemma add_machine f op o id : tame f → fo_id o = id → fo_listLag o ≤ lag → fo_labels o !! LabelOp = Some op →
  let f' := with_objects (<[id := o]> (f_objects f)) f in
  tame f' ∧ adds_one (inst, compute.Kind) op f f'.
Proof.
  intros [T1 T2 T3 T4 T5 T6 T7] Hid Hlag Hlab. split.
  - split; simpl; try done.
    + intros k x. rewrite lookup_insert_Some. intros [[<- <-]|[_ Hk]]; [done|by eapply T4].
    + intros k x. rewrite lookup_insert_Some. intros [[<- <-]|[_ Hk]]; [done|by apply T5].
  - intros y k. simpl. destruct (decide (y = (inst, compute.Kind))) as [->|Hy].
    + destruct (decide (k = op)) as [->|Hne].
      * rewrite (decide_True (P := (_, op) = _)) by done. apply (count_add _ _ _ id).
        intros j x Hj Hx. rewrite lookup_insert_ne in Hx by done. eauto.
      * rewrite (decide_False (P := (_, k) = _)) by congruence. rewrite Nat.add_0_r. apply count_insert.
        unfold our_machine. by rewrite (ours_other op k _ Hlab Hne), andb_false_r.
    + rewrite (decide_False (P := (y, k) = _)) by congruence. lia.
Qed.

Lemma machine_create f op a : planned owner (inst, compute.Kind) op a → tame f →
  tame (applyLocked a f).2 ∧ adds_one (inst, compute.Kind) op f (applyLocked a f).2 ∧
  (∀ e, (applyLocked a f).1 = Err e → (applyLocked a f).2 = f).
Proof.
  intros Hpl Ht. destruct (planned_machine op a Hpl) as (j & q & Hk & Hid & Hp & Hd & Hop & _).
  rewrite applyLocked_create by done. unfold Fake.applyCreate. rewrite Hp, Hd, Hid.
  destruct (select (byOp op) (f_objects f)) as [|o rest]; simpl.
  2:{ split_and!; [done|intros y k; lia|done]. }
  set (f0 := with_seq _ f). assert (tame f0) as Ht0 by (by destruct Ht).
  assert (∀ st n, let id := machineID (f_seq f0) in
    let o := MkObject id (cp_Name q) st n (ListLagSteps (f_opt f)) (cp_Spec q)
               (cp_Labels q ∪ compute.Labels (cp_Spec q)) machineCapacity in
    tame (put o f0) ∧ adds_one (inst, compute.Kind) op f (put o f0)) as Hadd.
  { intros st n id o. apply (add_machine f0 op o id Ht0); [done|apply (tm_new_lag _ Ht)|].
    by apply lookup_union_Some_l. }
  case_decide; simpl; (split; [apply Hadd|split; [apply Hadd|done]]).
Qed.

Lemma volume_create f op a : planned owner (inst, volume.Kind) op a → tame f →
  tame (Volumes.Apply a f).2 ∧ adds_one (inst, volume.Kind) op f (Volumes.Apply a f).2 ∧
  (∀ e, (Volumes.Apply a f).1 = Err e → (Volumes.Apply a f).2 = f).
Proof.
  intros Hpl Ht. destruct (planned_volume op a Hpl) as (j & q & Hk & Hid & Hp & Hd & Hop).
  unfold Volumes.Apply. rewrite Hk. simpl. unfold Volumes.applyCreate. rewrite Hp, Hd, Hid.
  destruct (select (Volumes.byOp op) (f_volumes f)) as [|o rest]; simpl.
  2:{ split_and!; [done|intros y k; lia|done]. }
  destruct Ht as [T1 T2 T3 T4 T5 T6 T7]. split_and!; [|intros y k|done].
  - split; simpl; try done. intros k x. rewrite lookup_insert_Some. intros [[<- <-]|[_ Hx]]; [done|by apply T6].
  - simpl. destruct (decide (y = (inst, compute.Kind))) as [->|Hy]; [lia|].
    destruct (decide (y = (inst, volume.Kind))) as [->|Hy2]; [|lia].
    destruct (decide (k = op)) as [->|Hne].
    + rewrite (decide_True (P := (_, op) = _)) by done. eapply count_add. intros i x Hi Hx.
      rewrite lookup_insert_ne in Hx by exact (not_eq_sym Hi). eauto.
    + rewrite (decide_False (P := (_, k) = _)) by congruence. rewrite Nat.add_0_r. apply count_insert.
      unfold our_volume. simpl. by rewrite (ours_other op k _ Hop Hne).
Qed.

(** A planned create through the driver. *)
Lemma create_law x d op a f : driver_at x = Some d → planned owner x op a → tame f →
  tame (Apply d a f).2 ∧ adds_one x op f (Apply d a f).2 ∧
  (∀ e, (Apply d a f).1 = Err e → Effect e = EffectNone → fewer f (Apply d a f).2).
Proof.
  intros Hd Hpl Ht. apply driver_cases in Hd as [[-> ->]|[-> ->]]; simpl.
  - destruct (Apply_cases a f Ht) as (f1 & Hc & Hcases). destruct (calm_ok _ _ Hc Ht) as [Ht1 Hf1].
    destruct (machine_create f1 op a Hpl Ht1) as (Ht2 & Hadd & Herr).
    assert (adds_one (inst, compute.Kind) op f (applyLocked a f1).2) as Hadd'.
    { intros y k. specialize (Hadd y k). specialize (Hf1 y k). lia. }
    destruct Hcases as [[e ->]|[->|(e & -> & He)]]; simpl.
    + split_and!; [done|intros y k; specialize (Hf1 y k); lia|done].
    + split_and!; [done|done|]. intros e Hr _. by rewrite (Herr e Hr).
    + split_and!; [done|done|]. intros e' [= <-]. done.
  - destruct (volume_create f op a Hpl Ht) as (Ht2 & Hadd & Herr). split_and!; [done|done|].
    intros e Hr _. rewrite (Herr e Hr). by intros y k.
Qed.

(** ** The search *)

Lemma ours_listed op labels : ours op labels = true →
  owned owner labels = true ∧ labelsMatch labels (dr_Selector (search op)) = true.
Proof.
  intros [Ho Hl]%andb_true_iff. split; [done|]. unfold search. simpl. by rewrite labelsMatch_singleton.
Qed.

Lemma search_law x d op f : driver_at x = Some d → tame f → complete f x op →
  (Discover d (search op) f).1 = Ok [] → machines (Discover d (search op) f).2 x op = 0%nat.
Proof.
  intros Hd Ht Hc. apply driver_cases in Hd as [[-> ->]|[-> ->]]; simpl.
  - unfold Fake_Discover, bindM, modifyM, getsM, rateLimited. case_decide; [done|]. cbn [fst snd].
    set (f1 := with_objects _ _). rewrite (decide_True (P := _ = (inst, compute.Kind))) by done. intros Hr. apply count_zero. intros k o Ho. apply not_true_is_false. intros Hours.
    assert (select (listed (f_ownerID f1) (search op)) (f_objects f1) = []) as Hnone.
    { apply Ok_inj in Hr. revert Hr. destruct (select _ _) as [|y l]; [done|]. case_decide as Hpage; [|done].
      intros Hr. exfalso. revert Hr. apply paginate_nonempty; [apply (tm_page _ Ht)|exact Hpage]. }
    assert (o ∈ select (listed (f_ownerID f1) (search op)) (f_objects f1)) as Hin;
      [|rewrite Hnone in Hin; by apply elem_of_nil in Hin].
    apply elem_of_select. split; [|by exists k]. apply andb_true_iff in Hours as [Hlive Hours].
    destruct (ours_listed _ _ Hours) as [Hown Hsel]. unfold listed. change (f_ownerID f1) with (f_ownerID f).
    rewrite Hlive, (tm_owner _ Ht), Hown, Hsel, orb_true_r.
    simpl in Ho. apply lookup_fmap_Some in Ho as (o0 & <- & Ho0).
    destruct (tickLag_keeps o0) as (_ & Hlab & Hlv). rewrite Hlab in Hours. rewrite Hlv in Hlive.
    specialize (Hc eq_refl k o0 Ho0). unfold our_machine in Hc. rewrite Hlive, Hours in Hc. specialize (Hc eq_refl).
    rewrite bool_decide_eq_false_2; [done|]. unfold tickLag. destruct (decide (0 < fo_listLag o0)); simpl; lia.
  - rewrite decide_False by done. rewrite decide_True by done. unfold Volumes.Discover, getsM. simpl.
    intros [= Hr%fmap_nil_inv]. apply count_zero. intros k o Ho. apply not_true_is_false. intros Hours.
    assert (o ∈ select (Volumes.listed (f_ownerID f) (search op)) (f_volumes f)) as Hin;
      [|rewrite Hr in Hin; by apply elem_of_nil in Hin].
    apply elem_of_select. split; [|by exists k]. apply andb_true_iff in Hours as [Hlive Hours].
    destruct (ours_listed _ _ Hours) as [Hown Hsel]. unfold Volumes.listed.
    by rewrite Hlive, (tm_owner _ Ht), Hown, Hsel, orb_true_r.
Qed.

(** What the clouds do on their own: faults are queued, calls are throttled. *)
Lemma drift_calm f f' : tame f → drifts f f' → tame f' ∧ fewer f f'.
Proof.
  intros Ht (n & class & effect & t & [->|[->| ->]]).
  - split; [|by intros y k]. destruct Ht as [T1 T2 T3 T4 T5 T6 T7]. split; try done. simpl.
    apply Forall_app. split; [done|]. apply Forall_replicate. done.
  - split; [|by intros y k]. destruct Ht as [T1 T2 T3 T4 T5 T6 T7]. split; try done. simpl.
    apply Forall_app. split; [done|]. by repeat constructor.
  - apply calm_ok; [apply calm_rate|done].
Qed.

#[export] Instance fake_honest : HonestClouds owner.
Proof.
  split.
  - intros f f' Ht Hd. by apply drift_calm.
  - intros x d g f Hd Hg Ht. apply calm_ok; [by eapply read_calm|done].
  - intros x d a f Hd Ha Ht. apply calm_ok; [by eapply follow_calm|done].
  - intros x d op a f Hd Hpl Ht. destruct (create_law x d op a f Hd Hpl Ht) as (? & ? & _). done.
  - intros x d op a f e Hd Hpl Ht. apply (create_law x d op a f Hd Hpl Ht).
  - intros x d op f Hd _ Ht Hc. by apply search_law.
Qed.

(** With at most one list pass of lag, whatever is there is listed. *)
Lemma fake_lists f y op : lag ≤ 1 → sane f → complete f y op.
Proof. intros Hl Ht _ k o Ho _. pose proof (tm_lag _ Ht _ _ Ho). lia. Qed.
Lemma New_tame : in64 (PageSize opt) → ListLagSteps opt ≤ lag → sane (New inst owner opt).
Proof. intros Hp Hl. split; simpl; try done; intros k o; by rewrite lookup_empty. Qed.
Lemma New_empty y k : machines (New inst owner opt) y k = 0%nat.
Proof. simpl. repeat case_decide; [..|done]; apply count_zero; intros j o; by rewrite lookup_empty. Qed.
End honest.

(** * A create on the in-memory provider, with a lost reply and with a crash

    The inputs of the witnesses of [Once.v] and [OnceRun.v]: the fake under the
    whole process. *)

#[local] Existing Instances FakeFacts.numbered FakeFacts.fakes Process.steady Process.offline.

Definition shop_boot : Boot :=
  MkBoot (Engine.defaults (Engine.MkConfig 0 0 0 0 0)) (Reconcile.defaults (Reconcile.MkConfig 0 0 0 0))
    (discovery_defaults (MkDiscovery 0 0 "" "")) "own_1" 600000.
(** The reply of the first create is going to be lost. *)
Definition shop : Sys Fake :=
  MkSys (fresh 0) (AcceptButDropResponse (New "lab" "own_1" FakeFacts.opt)) false None false ∅ ∅ ∅ ∅ 0.
Definition ordering : list (Z * Activity) :=
  [(1000, ApiCreate (MkCreateCmd compute.Kind "lab" "m" "" Process.machineSpec ∅ "alice" Demo.Demo.unkeyed)
            (λ _, (202, None)))].
Definition carrying_out : list (Z * Activity) :=
  [(2000, EngineRound); (5000, EngineRound); (9000, EngineRound); (20000, EngineRound); (30000, EngineRound)].

Lemma one_lab name p : Instance_ (P := Fake) name = Some p → name = "lab" ∧ p = Fake_Provider "lab" FakeFacts.opt.
Proof. simpl. case_decide; [|done]. by intros [= <-]. Qed.
#[local] Instance lab_cloud : Cloud Fake := fake_cloud "own_1" "lab" 1.
#[local] Instance lab_honest : HonestClouds "own_1" := fake_honest "own_1" "lab" FakeFacts.opt 1 one_lab.

Example shop_runs : let w := sy_World (Process.run shop_boot (ordering ++ carrying_out) shop) in
  (o_State <$> row w "op_1", r_Phase <$> db_Resources (w_DB w) !! "res_0") = (Some OpSucceeded, Some Ready).
Proof. vm_compute. reflexivity. Qed.

Definition lab_at : address := ("lab", compute.Kind).
Lemma shop_sane : sane (sy_Prov shop).
Proof.
  assert (tame "own_1" 1 (New "lab" "own_1" FakeFacts.opt)) as Ht.
  { apply (New_tame "own_1" "lab" FakeFacts.opt 1); vm_compute; [split|]; discriminate. }
  apply (drift_calm "own_1" "lab" 1 _ _ Ht). exists 0, ErrRetryable, EffectNone, 0. auto.
Qed.
Lemma shop_empty y k : Contract.machines (sy_Prov shop) y k = 0%nat.
Proof. apply (New_empty "own_1" "lab" FakeFacts.opt 1 y k). Qed.
Lemma lab_lists (p : Fake) x k : sane p → complete p x k.
Proof. by apply (fake_lists "own_1" "lab" 1). Qed.

Definition shop_done : Sys Fake := Process.run shop_boot (ordering ++ carrying_out) shop.
Lemma process_creates_once_witness : Contract.machines (sy_Prov shop_done) lab_at "op_1" = 1%nat ∧
  ∃ o, row (sy_World shop_done) "op_1" = Some o ∧ o_Kind o = OpKindCreate ∧ home (sy_World shop_done) o = Some lab_at.
Proof.
  assert (Contract.machines (sy_Prov shop_done) lab_at "op_1" = 1%nat) as Hm by (vm_compute; reflexivity).
  split; [exact Hm|].
  destruct (process_creates_once shop_boot lab_lists 0 (ordering ++ carrying_out) shop eq_refl shop_sane shop_empty
    lab_at "op_1") as [_ Ho].
  change (Process.run shop_boot (ordering ++ carrying_out) shop) with shop_done in Ho. rewrite Hm in Ho.
  destruct (Ho Nat.lt_0_1) as (o & Hr & Hk & _ & Hh). exact (ex_intro _ o (conj Hr (conj Hk Hh))).
Defined.

(** The same create, journaled; its call leaves, the process crashes, and only
    then the call lands. *)
Definition shop_ordered : Sys Fake := Process.run shop_boot ordering shop.
Definition ordered_op : Operation := default (Demo.Demo.createOp "" "") (row (sy_World shop_ordered) "op_1").
Definition ordered_action : Action :=
  match o_Action ordered_op with JVal a => a | _ => MkAction "" "" "" None None false end.
Definition crashed : Conf :=
  MkConf (Tx (dispatchTx "op_1" 99000) (sy_World shop_ordered)).2
    (Fake_Apply ordered_action (sy_Prov shop_ordered)).2 Idle [] [].
Lemma crashed_reached : rtc (cstep "own_1") (start 0 (sy_Prov shop)) crashed.
Proof.
  etrans.
  { apply (run_leads shop_boot ordering shop); [apply lists_in_time, lab_lists|]. apply (Once_start "own_1" 0); [apply shop_sane|apply shop_empty]. }
  fold shop_ordered. eapply rtc_l.
  { apply (C_dispatch "own_1" (sy_World shop_ordered) (sy_Prov shop_ordered) [] [] "op_1" 99000 ordered_op lab_at ordered_action);
      vm_compute; reflexivity. }
  eapply rtc_l; [apply C_crash|]. apply rtc_once.
  apply (C_land "own_1" _ _ Idle [] [] [] lab_at "op_1" ordered_action (Fake.machines "lab")). reflexivity.
Qed.
Lemma create_at_most_once_witness : Contract.machines (cf_Clouds crashed) lab_at "op_1" = 1%nat ∧
  ∃ o, row (cf_World crashed) "op_1" = Some o ∧ home (cf_World crashed) o = Some lab_at.
Proof.
  assert (Contract.machines (cf_Clouds crashed) lab_at "op_1" = 1%nat) as Hm by (vm_compute; reflexivity).
  split; [exact Hm|].
  destruct (create_at_most_once "own_1" 0 (sy_Prov shop) crashed shop_sane shop_empty crashed_reached lab_at "op_1")
    as [_ Ho].
  rewrite Hm in Ho. destruct (Ho Nat.lt_0_1) as (o & Hr & _ & _ & Hh). exact (ex_intro _ o (conj Hr Hh)).
Defined.
