(* ===== verification/HetznerOnce.v ===== *)
(** * Hetzner Cloud keeps the contract

    The driver of [Hetzner.v], over a library and service that do what their
    documentation says: the laws below. Every server the kernel has created at
    one instance is counted under its op label. *)

From stdpp Require Import base gmap strings list sorting pretty relations.
From Stdlib Require Import Ascii QArith_base.
From S2P Require Import Prelude Errors Json Phase SDK Capacity Types Store Kinds Marshal Classes Provision Sys Lease Engine Scheduler Reconcile Discovery App Spec Abs Refine System Via Process Text Auth Once Reads OnceRun Pacer Fake FakeFacts Cloud Calls Contract DriverReads DriverFacts Hetzner.
From S2P Require Demo.

(** ** The service *)

(** The servers of the project; what the service keeps about them; the labels
    it accepts; which servers a listing shows. *)
Class HcloudState (W : Type) := {
  servers : W → gmap Z Server;
  tidy : W → Prop;
  acceptable : string * string → Prop;
  listed : W → Z → Prop
}.

(** No server appears and none changes its labels. *)
Definition quiet `{HcloudState W} (w w' : W) : Prop := tidy w →
  tidy w' ∧ ∀ k srv', servers w' !! k = Some srv' → ∃ srv, servers w !! k = Some srv ∧ sv_Labels srv' = sv_Labels srv.
#[export] Instance quiet_preorder `{HcloudState W} : PreOrder quiet.
Proof.
  split.
  - intros w Ht. split; [done|]. intros k srv Hk. by exists srv.
  - intros w1 w2 w3 H12 H23 H1. destruct (H12 H1) as [H2 S12]. destruct (H23 H2) as [H3 S23]. split; [done|].
    intros k srv3 Hk. destruct (S23 _ _ Hk) as (srv2 & Hk2 & ->). destruct (S12 _ _ Hk2) as (srv1 & Hk1 & ->). by exists srv1.
Qed.

(** The codes with which the API says that it has not done what was asked. *)
Definition refusal (c : ErrorCode) : Prop :=
  match c with
  | ErrorCodeNotFound | ErrorCodeRateLimitExceeded | ErrorCodeResourceLimitExceeded
  | ErrorCodeInvalidInput | ErrorCodeUnauthorized | ErrorCodeForbidden => True
  | _ => False
  end.

Class HcloudLaws (W : Type) `{Ambient W} `{Hcloud W} `{HcloudState W} : Prop := {
  hl_reads : Hetzner_reads quiet;
  hl_delete srv : called quiet (Server_DeleteWithResult srv);
  hl_labels w k srv kv : tidy w → servers w !! k = Some srv → sv_Labels srv !! kv.1 = Some kv.2 → acceptable kv;
  hl_wait w k : listed w k → listed (gate w).2 k;
  (* a create makes one server at most, under the labels asked for *)
  hl_create o w : tidy w → tidy (Server_Create o w).2 ∧
    ∃ new, ∀ k srv', servers (Server_Create o w).2 !! k = Some srv' →
      (∃ srv, servers w !! k = Some srv ∧ sv_Labels srv' = sv_Labels srv) ∨ (k = new ∧ sv_Labels srv' = so_Labels o);
  (* and none when it is refused *)
  hl_refused o w f e : (Server_Create o w).1.1 = inl f → hcloudAs f = Some e → refusal (he_Code e) →
    quiet w (Server_Create o w).2;
  (* a listing by label equalities has every server it shows that has them *)
  hl_list kvs w l k srv : (Server_AllWithOpts (String.concat "," (equality <$> kvs)) w).1.1 = inr l →
    Forall acceptable kvs → servers w !! k = Some srv → listed w k →
    Forall (λ kv, sv_Labels srv !! kv.1 = Some kv.2) kvs → srv ∈ l
}.

(** ** The driver *)

Section honest.
Context {W : Type} `{HcloudLaws W} `{Providers (Link W unit)}.
Context (h : Hetzner).
(** The only instance is this one. *)
Hypothesis one_instance : ∀ name p, Instance_ name = Some p → name = h_instance h ∧ p = Hetzner_Provider h.

Abbreviation owner := (h_ownerID h).

(** The labels a create of [op] is searched by. *)
Definition identity (op : string) : list (string * string) :=
  [(LabelManaged, "true"); (LabelOwner, owner); (LabelOp, op)]%string.
Definition ours (op : string) (srv : Server) : bool :=
  forallb (λ kv, bool_decide (sv_Labels srv !! kv.1 = Some kv.2)) (identity op).

#[export] Instance hetzner_cloud : Cloud (Link W unit) := {|
  Contract.machines p y op := if decide (y = (h_instance h, compute.Kind)) then count (ours op) (servers (ln_world p)) else 0%nat;
  complete p y op := ∀ k srv, servers (ln_world p) !! k = Some srv → ours op srv = true → listed (ln_world p) k;
  sane p := tidy (ln_world p);
  drifts p p' := quiet (ln_world p) (ln_world p')
|}.

Lemma quiet_fewer (p p' : Link W unit) : sane p → quiet (ln_world p) (ln_world p') → sane p' ∧ fewer p p'.
Proof.
  intros Hs Hq. destruct (Hq Hs) as [Ht Hold]. split; [done|]. intros y j. simpl. case_decide; [|done].
  apply count_sub. intros k srv' Hk Ho. destruct (Hold _ _ Hk) as (srv & Hk0 & Hl). exists srv. split; [done|].
  revert Ho. unfold ours. by rewrite Hl.
Qed.
Lemma hetzner_cases x d : driver_at x = Some d → x = (h_instance h, compute.Kind) ∧ d = Hetzner.machines h.
Proof.
  destruct x as [name kind]. unfold driver_at. intros (p & Hp & Hd)%bind_Some. simpl in *.
  destruct (one_instance _ _ Hp) as [-> ->]. simpl in Hd. unfold Hetzner_ResourceDriver in Hd.
  case_decide; [|done]. by simplify_eq.
Qed.

(** What a planned create carries. *)
Lemma hetzner_planned x op a : planned owner x op a → x = (h_instance h, compute.Kind) ∧
  ∃ j q, ac_Kind a = "create"%string ∧ ac_ActionID a = op ∧ ac_Params a = Some j ∧ dec_createParams j = Ok q ∧
  ∀ kv, kv ∈ identity op → cp_Labels q !! kv.1 = Some kv.2.
Proof.
  intros (d & res & name & spec & labels & a0 & Hd & Hl & Hp & ->). apply hetzner_cases in Hd as [-> ->]. split; [done|].
  simpl in Hp. unfold Hetzner_Plan in Hp. simpl in Hp. destruct (compute.ParseSpec spec) as [sp|e] eqn:Hs; [|done].
  injection Hp as <-. eexists _, (MkCreateParams name sp labels). split_and!; [done..| |].
  { apply createParams_round_trip. by apply RangeFacts.ParseSpec_machine in Hs as [_ ?]. }
  destruct (identity_says _ _ _ _ Hl) as (? & ? & ?). intros kv. unfold identity. simpl.
  rewrite !elem_of_cons, elem_of_nil. by intros [->|[->|[->|[]]]].
Qed.

(** ** Creates *)

(** Nothing new, or one server with the labels of the create, which no error
    denies. *)
Definition created {A} (op : string) (r : result A) (w w' : W) : Prop := quiet w w' ∨
  (tidy w → tidy w' ∧ ∃ new, ∀ k srv', servers w' !! k = Some srv' →
     (∃ srv, servers w !! k = Some srv ∧ sv_Labels srv' = sv_Labels srv) ∨
     (k = new ∧ ∀ kv, kv ∈ identity op → sv_Labels srv' !! kv.1 = Some kv.2)) ∧
  ∀ e, r = Err e → Effect e ≠ EffectNone.

Lemma created_after {A} op : after quiet (created (A := A) op).
Proof.
  split; [..|by left].
  - intros r w1 w2 w3 Hq [Hc|[Hc He]]; [left; by etrans|]. right. split; [|done]. intros Ht.
    destruct (Hq Ht) as [Ht2 H12]. destruct (Hc Ht2) as (Ht3 & new & H23). split; [done|]. exists new.
    intros k srv3 Hk. destruct (H23 _ _ Hk) as [(srv2 & Hk2 & ->)|Hn]; [left|by right]. by apply H12.
  - intros r w1 w2 w3 [Hc|[Hc He]] Hq; [left; by etrans|]. right. split; [|done]. intros Ht.
    destruct (Hc Ht) as (Ht2 & new & H12). destruct (Hq Ht2) as [Ht3 H23]. split; [done|]. exists new.
    intros k srv3 Hk. destruct (H23 _ _ Hk) as (srv2 & Hk2 & Hl). rewrite Hl. by apply H12.
Qed.

Lemma mapErr_refusal f s : Effect (mapErr h f EffectMaybe s).1 = EffectNone →
  ∃ e, hcloudAs f = Some e ∧ refusal (he_Code e).
Proof.
  unfold mapErr. destruct (hcloudAs f) as [e|]; [|done]. intros He. exists e. split; [done|].
  by destruct (he_Code e).
Qed.

(** The call itself. *)
Lemma create_call op o : (∀ kv, kv ∈ identity op → so_Labels o !! kv.1 = Some kv.2) →
  outcome (created op) (api h (Server_Create o) EffectMaybe).
Proof.
  intros Hlab s. unfold api. pose proof (hl_create o (ln_world s)) as Hc.
  pose proof (hl_refused o (ln_world s)) as Href. destruct (Server_Create o _) as [[[f|res] resp] w]; simpl in *.
  - set (s1 := observeResp resp _). pose proof (Hetzner_mapErr_world h f EffectMaybe s1) as Hw.
    pose proof (mapErr_refusal f s1) as Hr. destruct (mapErr h f EffectMaybe s1) as [e s2]. simpl in *.
    assert (ln_world s2 = w) as -> by (rewrite Hw; apply observe_rate_world).
    destruct (decide (Effect e = EffectNone)) as [He|He].
    + left. destruct (Hr He) as (v & Hv & Hcode). by apply (Href f v).
    + right. split; [|by intros e' [= <-]]. intros Ht. destruct (Hc Ht) as (Ht' & new & Hold). split; [done|].
      exists new. intros k srv' Hk. destruct (Hold _ _ Hk) as [?|[-> Hl]]; [by left|right]. by rewrite Hl.
  - right. split; [|done]. unfold observeResp. rewrite observe_rate_world. simpl. intros Ht.
    destruct (Hc Ht) as (Ht' & new & Hold). split; [done|]. exists new.
    intros k srv' Hk. destruct (Hold _ _ Hk) as [?|[-> Hl]]; [by left|right]. by rewrite Hl.
Qed.

Lemma create_then {A} op o (f : ServerCreateResult → A) : (∀ kv, kv ∈ identity op → so_Labels o !! kv.1 = Some kv.2) →
  outcome (created op) (res <- api h (Server_Create o) EffectMaybe ;; retM (f res)).
Proof.
  intros Hl s. pose proof (create_call op o Hl s) as Hc. unfold bindM.
  destruct (api h (Server_Create o) EffectMaybe s) as [[res|e] s1]; simpl in *;
    (destruct Hc as [?|[? He]]; [by left|right; split; [done|]]); [done|].
  intros e' [= <-]. by apply He.
Qed.

Lemma create_outcome op a j q : ac_Params a = Some j → dec_createParams j = Ok q →
  (∀ kv, kv ∈ identity op → cp_Labels q !! kv.1 = Some kv.2) → outcome (created op) (applyCreate h a).
Proof.
  intros Hp Hd Hlab. pose proof hl_reads as Hr. pose proof (created_after (A := OperationRef) op) as Haf.
  unfold applyCreate. rewrite Hp, Hd.
  apply (outcome_bind quiet _ _ _ Haf); [apply (leads_try quiet), (Hetzner_Discover_leads quiet h Hr)|intros ex].
  destruct ex as [[|o l]|e]; [|intros s; left; simpl; reflexivity|].
  all: apply (outcome_bind quiet _ _ _ Haf); [apply (Hetzner_serverType_leads quiet h Hr)|intros st].
  all: apply (outcome_bind quiet _ _ _ Haf); [apply (Hetzner_image_leads quiet h Hr)|intros img]; cbv zeta.
  all: apply (outcome_paced quiet (hr_gate quiet Hr) _ _ _ Haf), create_then.
  all: intros kv Hin; by apply lookup_union_Some_l, Hlab.
Qed.

(** ** The contract *)

Lemma Apply_create op a x : planned owner x op a →
  x = (h_instance h, compute.Kind) ∧ outcome (created op) (Hetzner_Apply h a).
Proof.
  intros (-> & j & q & Hk & _ & Hp & Hd & Hlab)%hetzner_planned. split; [done|].
  unfold Hetzner_Apply. rewrite Hk. cbn. by eapply create_outcome.
Qed.

Lemma ours_true op srv : ours op srv = true ↔ ∀ kv, kv ∈ identity op → sv_Labels srv !! kv.1 = Some kv.2.
Proof.
  unfold ours. rewrite forallb_forall. split; intros Ha kv.
  - intros Hin%list_elem_of_In. specialize (Ha kv Hin). by apply bool_decide_eq_true in Ha.
  - intros Hin%list_elem_of_In. apply bool_decide_eq_true. by apply Ha.
Qed.
Lemma ours_one op op' srv : ours op srv = true → ours op' srv = true → op = op'.
Proof.
  rewrite !ours_true. intros Ha Hb. specialize (Ha (LabelOp, op)). specialize (Hb (LabelOp, op')).
  unfold identity in *. simpl in *. rewrite Ha in Hb by set_solver. ospecialize (Hb _); [set_solver|congruence].
Qed.

Lemma created_adds op {A} (r : result A) (p p' : Link W unit) : created op r (ln_world p) (ln_world p') → sane p →
  sane p' ∧ ∀ y j, (Contract.machines p' y j ≤
    Contract.machines p y j + (if decide ((y, j) = ((h_instance h, compute.Kind), op)) then 1 else 0))%nat.
Proof.
  intros [Hq|[Hc _]] Hs.
  { destruct (quiet_fewer p p' Hs Hq) as [? Hf]. split; [done|]. intros y j. specialize (Hf y j). lia. }
  destruct (Hc Hs) as (Ht & new & Hold). split; [done|]. intros y j. simpl.
  destruct (decide (y = _)) as [->|Hy]; [|lia]. destruct (decide (j = op)) as [->|Hj].
  - rewrite decide_True by done. apply (count_add _ _ _ new). intros k srv' Hne Hk Ho.
    destruct (Hold _ _ Hk) as [(srv & Hk0 & Hl)|[? _]]; [|done]. exists srv. split; [done|].
    revert Ho. unfold ours. by rewrite Hl.
  - rewrite decide_False by congruence. rewrite Nat.add_0_r. apply count_sub. intros k srv' Hk Ho.
    destruct (Hold _ _ Hk) as [(srv & Hk0 & Hl)|[_ Hnew]].
    + exists srv. split; [done|]. revert Ho. unfold ours. by rewrite Hl.
    + exfalso. apply Hj. apply (ours_one _ _ srv'); [done|]. by apply ours_true.
Qed.

(** The listing a search asks for is one by the identity's labels. *)
Lemma selector_search op : ∃ kvs, selector h (search op) = String.concat "," (equality <$> kvs) ∧ kvs ≡ₚ identity op.
Proof.
  unfold selector, search. cbn [dr_Scope dr_Selector]. rewrite decide_False by done. rewrite map_to_list_singleton.
  set (l := _ ++ _). assert (l = equality <$> identity op) as -> by done.
  pose proof (merge_sort_Permutation str_le (equality <$> identity op)) as Hp.
  apply Permutation_map_inv in Hp as (kvs & Heq & Hperm). exists kvs. split; [by rewrite Heq|by symmetry].
Qed.

(** A search answered with nothing: the listing was asked for, after the wait
    at the gate, and came back empty. *)
Lemma empty_search rq s : (Hetzner_Discover h rq s).1 = Ok [] →
  let w := (gate (ln_world s)).2 in let a := Server_AllWithOpts (selector h rq) w in
  a.1.1 = inr [] ∧ ln_world (Hetzner_Discover h rq s).2 = a.2.
Proof.
  unfold Hetzner_Discover, paced. destruct (gate (ln_world s)) as [[[wall slot] wait] w]. simpl.
  destruct (Acquire wall slot wait (ln_pacer s)) as [[[]|e] p]; [|done].
  unfold bindM, listing. cbn [ln_world ln_pacer ln_cache].
  destruct (Server_AllWithOpts (selector h rq) w) as [[[f|l] resp] w2]; simpl.
  - by destruct (mapErr h f EffectNone _).
  - intros [= Hn%fmap_nil_inv]. by subst.
Qed.

Lemma search_sees op p : sane p → complete p (h_instance h, compute.Kind) op →
  (Hetzner_Discover h (search op) p).1 = Ok [] →
  count (ours op) (servers (ln_world (Hetzner_Discover h (search op) p).2)) = 0%nat.
Proof.
  intros Hs Hc Hr. destruct (empty_search _ _ Hr) as [Ha ->]. set (w := (gate (ln_world p)).2) in *.
  destruct (hr_gate quiet hl_reads (ln_world p) Hs) as [Ht Hgate]. fold w in Ht, Hgate.
  destruct (hr_list quiet hl_reads (selector h (search op)) w Ht) as [_ Hlist].
  apply count_zero. intros k srv2 Hk2. apply not_true_is_false. intros Ho2.
  destruct (Hlist _ _ Hk2) as (srv & Hk & Hl2). destruct (Hgate _ _ Hk) as (srv0 & Hk0 & Hl0).
  rewrite ours_true, Hl2 in Ho2. destruct (selector_search op) as (kvs & Hsel & Hperm).
  assert (∀ kv, kv ∈ kvs → sv_Labels srv !! kv.1 = Some kv.2) as Hkvs by (intros kv Hin; apply Ho2; by rewrite <-Hperm).
  rewrite Hsel in Ha. apply (hl_list kvs w [] k srv) in Ha; [by apply elem_of_nil in Ha|..|done| |].
  - apply Forall_forall. intros kv Hin. by apply (hl_labels w k srv); [..|apply Hkvs].
  - apply hl_wait, (Hc k srv0 Hk0). apply ours_true. intros kv Hin. rewrite <-Hl0. by apply Ho2.
  - apply Forall_forall. exact Hkvs.
Qed.

#[export] Instance hetzner_honest : HonestClouds owner.
Proof.
  split.
  - intros p p' Hs Hq. by apply quiet_fewer.
  - intros x d f p Hd Hf Hs. apply hetzner_cases in Hd as [_ ->].
    apply quiet_fewer; [done|]. by apply (Hetzner_read_leads quiet h hl_reads).
  - intros x d a p Hd Ha Hs. apply hetzner_cases in Hd as [_ ->]. apply quiet_fewer; [done|].
    apply (Hetzner_follow_leads quiet h hl_reads a Ha). intros. apply hl_delete.
  - intros x d op a p Hd Hpl Hs. apply hetzner_cases in Hd as [_ ->]. destruct (Apply_create _ _ _ Hpl) as [-> Ho].
    by apply (created_adds op (Hetzner_Apply h a p).1).
  - intros x d op a p e Hd Hpl Hs He Heff. apply hetzner_cases in Hd as [_ ->].
    destruct (Apply_create _ _ _ Hpl) as [-> Ho]. destruct (Ho p) as [Hq|[_ Hne]]; [by apply quiet_fewer|].
    by apply Hne in He.
  - intros x d op p Hd _ Hs Hc Hr. pose proof Hd as Hd'. apply hetzner_cases in Hd' as [-> ->]. simpl.
    rewrite decide_True by done. by apply search_sees.
Qed.
End honest.

(** * A create on Hetzner Cloud happens once

    That contract put under the whole process, with a small
    service that keeps the laws as the input of the witnesses. *)

Section once.
Context {W : Type} `{HcloudLaws W} `{ULID} `{Providers (Link W unit)} `{Rand} `{compute.Network}.
Context (b : Boot) (h : Hetzner).
Hypothesis one_instance : ∀ name p, Instance_ name = Some p → name = h_instance h ∧ p = Hetzner_Provider h.
Hypothesis own : bt_Owner b = h_ownerID h.

(** Listings may be behind, for as long as the verify window of a create at
    most: whenever the engine, in this run, looks for a create whose window is
    over, every server of that create is listed. *)
Definition listed_in_time (l : list (Z * Activity)) (s : Sys (Link W unit)) : Prop :=
  in_time (H3 := hetzner_cloud h) b l s.

(** C32: fleetplane alone on a Hetzner project, from an empty database and a
    project without machines of the installation: whatever rounds of goroutines
    and requests run in whatever order, each to its end, with any replies the
    documented API can give and listings that catch up within the verify
    window, two servers never carry the label of one operation, and each
    belongs to a dispatched create of the journal. *)
Theorem hetzner_creates_once now l s :
  listed_in_time l s →
  sy_World s = fresh now → tidy (ln_world (sy_Prov s)) →
  (∀ op k srv, servers (ln_world (sy_Prov s)) !! k = Some srv → ours h op srv = false) →
  let s' := Process.run b l s in let there := servers (ln_world (sy_Prov s')) in
  ∀ op k srv, there !! k = Some srv → ours h op srv = true →
    (∀ k' srv', there !! k' = Some srv' → ours h op srv' = true → k' = k) ∧
    ∃ o, row (sy_World s') op = Some o ∧ o_Kind o = OpKindCreate ∧ o_State o ≠ OpJournaled ∧
         home (sy_World s') o = Some (h_instance h, compute.Kind).
Proof.
  intros Hin Hw Ht Hnone s' there op k srv Hk Ho. set (x := (h_instance h, compute.Kind)).
  pose (hetzner_cloud h) as CL. pose proof (hetzner_honest h one_instance) as HC. rewrite <-own in HC.
  destruct (run_creates_once (H3 := CL) b now l s Hin Hw Ht) with (y := x) (k := op)
    as [Hone Hhome].
  - intros y j. simpl. case_decide; [|done]. apply count_zero. intros i v. apply Hnone.
  - assert (Contract.machines (sy_Prov s') x op = count (ours h op) there) as Hm by (simpl; by rewrite decide_True).
    change (Process.run b l s) with s' in Hone, Hhome. rewrite Hm in Hone, Hhome. split.
    + intros k' srv' Hk' Ho'. by eapply count_le_1.
    + apply Hhome. by eapply count_pos.
Qed.
End once.

(** ** A small service *)

(** Servers run at once; the replies of the next creates can be lost; a new
    server misses the next listing. *)
Record Project := MkProject { pj_servers : gmap Z Server; pj_next : Z; pj_losses : nat; pj_unlisted : gset Z }.

Fixpoint split (s : string) : list string :=
  match s with
  | EmptyString => [""%string]
  | String c s =>
      if decide (c = ","%char) then ""%string :: split s
      else match split s with t :: ts => String c t :: ts | [] => [String c ""] end
  end.
Definition plain (s : string) : bool := bool_decide ("," ∉ String.list_ascii_of_string s)%char.

Definition has (labels : gmap string string) (part : string) : bool := mem part (equality <$> map_to_list labels).
Definition project_list (sel : string) (w : Project) : list Server :=
  filter (λ v, bool_decide (sel = ""%string) || forallb (has (sv_Labels v)) (split sel) = true)
    (map_to_list (filter (λ kv, kv.1 ∉ pj_unlisted w) (pj_servers w))).*2.
Definition small : ServerType := MkServerType "small" "x86" 2 (4 # 1)%Q.
Definition debian : Image := MkImage 1 0.

#[local] Instance project_gate : Ambient Project := {| gate w := ((0, true, true), w); now _ := 0 |}.
#[local] Instance project_api : Hcloud Project := {|
  codeText _ := ""%string; statusText _ := ""%string;
  Location_List w := (inr tt, None, w);
  Server_AllWithOpts sel w := (inr (project_list sel w), None, MkProject (pj_servers w) (pj_next w) (pj_losses w) ∅);
  Server_GetByID i w := (inr (v ← pj_servers w !! i; if decide (sv_ID v = i) then Some v else None), None, w);
  Server_Create o w :=
    if forallb (λ kv, plain (equality kv)) (map_to_list (so_Labels o)) then
      let i := wrap64 (pj_next w) in
      let v := MkServer i StatusRunning (so_Labels o) None false None [] (Some (so_ServerType o)) None in
      let w' := MkProject (<[i := v]> (pj_servers w)) (pj_next w + 1) (pred (pj_losses w)) ({[ i ]} ∪ pj_unlisted w) in
      ((if decide (pj_losses w = 0%nat) then inr (MkServerCreated v None []) else inl (FPlain "EOF")), None, w')
    else (inl (FVendor "invalid input" (MkHError ErrorCodeInvalidInput "labels")), None, w);
  Server_DeleteWithResult v w :=
    (inr None, None, MkProject (delete (sv_ID v) (pj_servers w)) (pj_next w) (pj_losses w) (pj_unlisted w));
  Action_GetByID _ w := (inr None, None, w);
  ServerType_GetByName n w := (inr (if decide (n = "small"%string) then Some small else None), None, w);
  Image_GetByID _ w := (inr (Some debian), None, w);
  Image_AllWithOpts _ w := (inr [debian], None, w)
|}.
#[local] Instance project_state : HcloudState Project := {|
  servers := pj_servers;
  tidy w := ∀ k v kv, pj_servers w !! k = Some v → sv_Labels v !! kv.1 = Some kv.2 → plain (equality kv) = true;
  acceptable kv := plain (equality kv) = true;
  listed w k := k ∉ pj_unlisted w
|}.

Lemma split_plain s : plain s = true → split s = [s].
Proof.
  unfold plain. rewrite bool_decide_eq_true. induction s as [|c s IH]; [done|]. simpl.
  rewrite not_elem_of_cons. intros [Hc Hs]. rewrite decide_False by done. by rewrite IH.
Qed.
Lemma split_comma s t : plain s = true → split (s +:+ String "," t) = s :: split t.
Proof.
  unfold plain. rewrite bool_decide_eq_true. induction s as [|c s IH]; [done|]. simpl.
  rewrite not_elem_of_cons. intros [Hc Hs]. rewrite decide_False by done. by rewrite IH.
Qed.
Lemma split_concat l : l ≠ [] → Forall (λ s, plain s = true) l → split (String.concat "," l) = l.
Proof.
  induction l as [|s l IH]; [done|]. intros _ [Hs Hl]%Forall_cons. destruct l as [|t l]; [by apply split_plain|].
  change (String.concat "," (s :: t :: l)) with (s +:+ String "," (String.concat "," (t :: l))).
  rewrite split_comma by done. by rewrite IH.
Qed.
Lemma same_quiet (w w' : Project) : pj_servers w' = pj_servers w → quiet w w'.
Proof. intros Hs Ht. unfold tidy, servers. simpl. rewrite Hs. split; [exact Ht|]. intros k srv Hk. by exists srv. Qed.
Lemma has_equality labels kv : labels !! kv.1 = Some kv.2 → has labels (equality kv) = true.
Proof.
  intros Hk. apply bool_decide_eq_true, list_elem_of_fmap. exists kv. split; [done|].
  destruct kv. by apply elem_of_map_to_list.
Qed.
#[local] Instance project_laws : HcloudLaws Project.
Proof.
  split.
  - split; intros; first [by apply same_quiet|intros w; by apply same_quiet].
  - intros v w Ht. split; simpl; intros k u; [intros kv|]; rewrite lookup_delete_Some; intros [_ Hk]; [by eapply Ht|by exists u].
  - intros w k v kv Ht. apply Ht.
  - done.
  - intros o w Ht. simpl. destruct (forallb _ _) eqn:Hall; simpl; [|split; [done|exists 0; eauto]]. split.
    + intros k v kv. rewrite lookup_insert_Some. intros [[<- <-]|[_ Hk]]; [|by eapply Ht]. simpl. intros Hkv.
      rewrite forallb_forall in Hall. apply Hall, list_elem_of_In. destruct kv. by apply elem_of_map_to_list.
    + exists (wrap64 (pj_next w)). intros k v. rewrite lookup_insert_Some. intros [[<- <-]|[_ Hk]]; [by right|left; by exists v].
  - intros o w f e. simpl. destruct (forallb _ _); simpl; [|reflexivity].
    case_decide; [done|]. intros [= <-]. done.
  - intros kvs w l k v. simpl. intros [= <-] Hacc Hk Hli Hkvs. unfold project_list. apply list_elem_of_filter. split.
    + destruct (decide (kvs = [])) as [->|Hne]; [done|]. rewrite split_concat.
      * apply orb_true_iff. right. apply forallb_forall. intros part (kv & <- & Hin)%in_map_iff.
        apply has_equality. rewrite Forall_forall in Hkvs. by apply Hkvs, list_elem_of_In.
      * by destruct kvs.
      * by apply Forall_fmap.
    + apply list_elem_of_fmap. exists (k, v). split; [done|]. apply elem_of_map_to_list. by apply map_lookup_filter_Some.
Qed.

(** ** A create whose reply is lost *)

Definition hz : Hetzner := MkHetzner "hz" "own_1" "nbg1" "token" "".
#[local] Instance counted : ULID := pretty.
#[local] Instance hz_only : Providers (Link Project unit) := {|
  Instance_ name := if decide (name = "hz"%string) then Some (Hetzner_Provider hz) else None;
  Billing_ _ kind := (Hetzner.Billing kind, true);
  Parking_ _ kind := zeroPark
|}.
#[local] Existing Instances Process.steady Process.offline.
Lemma hz_alone name p : Instance_ (P := Link Project unit) name = Some p →
  name = h_instance hz ∧ p = Hetzner_Provider hz.
Proof. simpl. case_decide; [|done]. by intros [= <-]. Qed.

Definition hz_boot : Boot :=
  MkBoot (Engine.defaults (Engine.MkConfig 0 0 0 0 0)) (Reconcile.defaults (Reconcile.MkConfig 0 0 0 0))
    (discovery_defaults (MkDiscovery 0 0 "" "")) "own_1" 600000.
Definition hz_spec : raw := RawDoc (JObj [("serverType", JStr "small"); ("image", JStr "name:debian")]%string).
Definition hz_start : Sys (Link Project unit) :=
  MkSys (fresh 0) (MkLink (MkProject ∅ 7 1 ∅) (Pacer.New 1 4) tt) false None false ∅ ∅ ∅ ∅ 0.
Definition hz_rounds : list (Z * Activity) :=
  [(1000, ApiCreate (MkCreateCmd compute.Kind "hz" "m" "" hz_spec ∅ "alice" Demo.Demo.unkeyed) (λ _, (202, None)));
   (2000, EngineRound); (5000, EngineRound); (9000, EngineRound); (20000, EngineRound); (30000, EngineRound)].
Definition hz_end : Sys (Link Project unit) := Process.run hz_boot hz_rounds hz_start.

Lemma hetzner_creates_once_witness :
  (∃ srv, servers (ln_world (sy_Prov hz_end)) !! 7 = Some srv ∧ ours hz "op_1" srv = true) ∧
  (r_Phase <$> db_Resources (w_DB (sy_World hz_end)) !! "res_0") = Some Ready ∧
  (∀ k srv, servers (ln_world (sy_Prov hz_end)) !! k = Some srv → ours hz "op_1" srv = true → k = 7).
Proof.
  assert (from_option (ours hz "op_1") false (servers (ln_world (sy_Prov hz_end)) !! 7) = true) as H7 by (vm_compute; reflexivity).
  destruct (servers (ln_world (sy_Prov hz_end)) !! 7) as [srv|] eqn:Hs; [|discriminate H7]. simpl in H7.
  split; [exact (ex_intro _ srv (conj eq_refl H7))|]. split; [vm_compute; reflexivity|]. intros k srv' Hk Ho.
  refine (proj1 (hetzner_creates_once hz_boot hz hz_alone eq_refl 0 hz_rounds hz_start _ eq_refl _ _ "op_1" 7 srv Hs H7) k srv' Hk Ho).
  - apply (early_in_time (H3 := hetzner_cloud hz)). vm_compute. reflexivity.
  - intros i v kv. unfold hz_start. simpl. rewrite lookup_empty. discriminate.
  - intros op i v. unfold hz_start. simpl. rewrite lookup_empty. discriminate.
Defined.

(** Deleting server 7 leaves the others alone. *)
Definition others_kept (w w' : Project) : Prop := ∀ k, k ≠ 7 → pj_servers w' !! k = pj_servers w !! k.
#[local] Instance others_kept_preorder : PreOrder others_kept.
Proof. split; [by intros w k|]. intros w1 w2 w3 H12 H23 k Hk. by rewrite H23, H12. Qed.
Definition delete_7 : Action := MkAction "op_2" "delete" "res_0" (Some (MkRef "7" ∅)) None true.
Lemma drivers_touch_only_the_named_witness : let p := MkProject (<[7 := MkServer 7 StatusRunning ∅ None false None [] None None]>
    {[ 8 := MkServer 8 StatusRunning ∅ None false None [] None None ]}) 9 0 ∅ in
  let s := MkLink p (Pacer.New 1 4) tt in
  others_kept p (ln_world (Hetzner_Apply hz delete_7 s).2) ∧
  pj_servers (ln_world (Hetzner_Apply hz delete_7 s).2) !! 7 = None.
Proof.
  split; [|vm_compute; reflexivity].
  destruct (drivers_touch_only_the_named others_kept) as [Hz _]. destruct (Hz project_api hz) as [_ Hd].
  - split; intros; first [intros k _; reflexivity|intros w k _; reflexivity].
  - apply (Hd delete_7).
    + unfold follow_up. right. right. left.
    + intros ref sid _ [= <-] Hsid w srv Hs w' k Hk. vm_compute in Hsid. injection Hsid as <-.
      simpl in Hs. injection Hs as Hs. simpl.
      apply bind_Some in Hs as (v & _ & Hs). case_decide as Hv; [|discriminate Hs].
      injection Hs as <-. rewrite Hv, lookup_delete_ne by exact (not_eq_sym Hk). reflexivity.
Defined.

(** An accepted create, observed until it is done. *)
Definition create_7 : Action :=
  MkAction "op_1" "create" "res_0" None
    (Some (enc_createParams (MkCreateParams "m" (compute.MkMachine "small" "name:debian" "" "" ∅ None) ∅))) false.
Lemma project_ids o (w : Project) res : (Server_Create o w).1.1 = inr res →
  in64 (sv_ID (sr_Server res)) ∧ Forall in64 (option_list (sr_Action res) ++ sr_NextActions res).
Proof. simpl. case_match; [|done]. simpl. case_decide; [|done]. intros [= <-]. split; [apply wrap64_range|constructor]. Qed.
Definition create_done : result OperationStatus * Link Project unit :=
  (op <- Apply (Hetzner.machines hz) create_7 ;; ObserveOperation (Hetzner.machines hz) op)
    (MkLink (MkProject ∅ 7 0 ∅) (Pacer.New 1 4) tt).
Lemma success_means_goal_seen_witness : ∃ st, create_done.1 = Ok st ∧ os_State st = PvSucceeded ∧
  ∃ obs, os_Resource st = Some obs ∧ ob_Phase obs = PhaseRunning.
Proof.
  assert ((match create_done.1 with Ok st => os_State st | Err _ => PvFailed end) = PvSucceeded) as Hs
    by (vm_compute; reflexivity).
  destruct create_done as [[st|e] s2] eqn:Hst; [|discriminate Hs]. exists st. split; [reflexivity|]. split; [exact Hs|].
  unfold create_done, bindM in Hst.
  destruct (Apply (Hetzner.machines hz) create_7 _) as [[op|e] s1] eqn:Hop; [|discriminate Hst].
  destruct (success_means_goal_seen (W := Project)) as [Hz _].
  assert (∀ srv (w : Project) act, (Server_DeleteWithResult srv w).1.1 = inr (Some act) → in64 act) as Hids
    by (intros srv w act Ha; discriminate Ha).
  destruct (Hz project_api hz project_ids Hids create_7 _ op (f_equal fst Hop) s1 st s2 Hst Hs)
    as (ref & obs & s & _ & Ho & _ & _ & [Hg|[[Hd _] _]]); [|discriminate Hd].
  exists obs. split; [exact Ho|exact Hg].
Defined.
