(* ===== verification/Conformance.v ===== *)
(** * The driver conformance suite (pkg/sdk/conformance)

    The subtests as programs over a driver: what they plan, apply, poll and
    read, the checks in the order the code makes them, and the cleanups that
    run when a subtest has ended. The messages of failures are cut to their
    literal beginnings; sleeping between polls is left out. *)

From stdpp Require Import base gmap strings list pretty.
From S2P Require Import Prelude Errors Json SDK Kinds Pacer Cloud Fake.
From S2P Require Hetzner Droplets.

(** The six random bytes of [uid], in hex. *)
Class Uids := uid_text : nat → string.

Section conformance.
Context {P : Type} `{Uids}.

(** ** testing.T *)

Inductive stop := Fatal (msg : string) | Skip (msg : string).
Inductive verdict := Passed | Failed (msg : string) | Skipped (msg : string).

(** The provider under test, the checker's counter, the uids drawn; of the
    running subtest whether [Errorf] was called and what its cleanups destroy,
    last registered first. *)
Record T := MkT {
  t_Prov : P; t_n : Z; t_uids : nat; t_errors : option string; t_cleanup : list ExternalRef }.

Definition test (A : Type) : Type := T → (stop + A) * T.
Definition pass {A} (a : A) : test A := λ t, (inr a, t).
Definition fatal {A} (msg : string) : test A := λ t, (inl (Fatal msg), t).
Definition skip {A} (msg : string) : test A := λ t, (inl (Skip msg), t).
Definition bindT {A B} (m : test A) (k : A → test B) : test B := λ t,
  match m t with
  | (inr a, t) => k a t
  | (inl s, t) => (inl s, t)
  end.
Notation "x <~ m ;; k" := (bindT m (λ x, k)) (at level 100, m at next level, right associativity).
Notation "m ~;; k" := (bindT m (λ _, k)) (at level 100, right associativity).

Definition errorf (msg : string) : test unit := λ t,
  (inr tt, MkT (t_Prov t) (t_n t) (t_uids t) (Some (default msg (t_errors t))) (t_cleanup t)).
Definition Cleanup (ref : ExternalRef) : test unit := λ t,
  (inr tt, MkT (t_Prov t) (t_n t) (t_uids t) (t_errors t) (ref :: t_cleanup t)).
Definition next_n : test Z := λ t,
  let n := add64 (t_n t) 1 in (inr n, MkT (t_Prov t) n (t_uids t) (t_errors t) (t_cleanup t)).
Definition uid : test string := λ t,
  (inr (uid_text (t_uids t)), MkT (t_Prov t) (t_n t) (S (t_uids t)) (t_errors t) (t_cleanup t)).
(** A call of the driver, its error as a value. *)
Definition call {A} (m : M P A) : test (result A) := λ t,
  let '(r, p) := m (t_Prov t) in (inr r, MkT p (t_n t) (t_uids t) (t_errors t) (t_cleanup t)).

Definition is_class {A} (r : result A) (c : ErrorClass) : bool :=
  match r with Err e => IsClass e c | Ok _ => false end.

(** ** Harness and checker *)

Record Harness := MkHarness {
  h_Provider : Provider P; h_Kind : string; h_NewSpec : Z → raw; h_InvalidSpec : raw;
  h_OwnerID : string; h_Eventual : bool; h_Expensive : bool; h_MaxSteps : Z }.

(** The checker: harness, driver. *)
Context (h : Harness) (driver : ResourceDriver P).
Definition steps : nat := Z.to_nat (h_MaxSteps h).

Fixpoint pollSteps (n : nat) (op : OperationRef) : test unit :=
  match n with
  | O => fatal "operation did not reach a terminal state"
  | S n =>
      r <~ call (ObserveOperation driver op) ;;
      match r with
      | Err e => if IsClass e ErrRateLimited || IsClass e ErrRetryable then pollSteps n op
                 else fatal "ObserveOperation"
      | Ok st =>
          match os_State st with
          | PvSucceeded => pass tt
          | PvFailed => fatal "operation failed"
          | _ => pollSteps n op
          end
      end
  end.
Definition pollToSuccess (op : OperationRef) : test unit := pollSteps steps op.

Definition delete_action (id res : string) (ref : ExternalRef) : Action :=
  MkAction id "delete" res (Some ref) None true.

Fixpoint destroySteps (n : nat) (op : OperationRef) : test unit :=
  match n with
  | O => pass tt
  | S n =>
      r <~ call (ObserveOperation driver op) ;;
      match r with
      | Err _ => pass tt
      | Ok st => match os_State st with PvSucceeded | PvFailed => pass tt | _ => destroySteps n op end
      end
  end.
Definition destroy (ref : ExternalRef) : test unit :=
  id <~ uid ;;
  r <~ call (Apply driver (delete_action ("op-conf-del-" +:+ id) "cleanup" ref)) ;;
  match r with
  | Err e => if IsClass e ErrNotFound then pass tt else errorf "cleanup delete"
  | Ok op => destroySteps steps op
  end.

(** Plans the [n]th spec under fresh ids: the actions and the op id. *)
Definition planNew (name : string) (n : Z) : test (result (list Action) * string) :=
  res <~ uid ;; op <~ uid ;; nm <~ uid ;;
  let resID := ("res-conf-" +:+ res)%string in
  let opID := ("op-conf-" +:+ op)%string in
  pass (Plan driver (MkPlanReq resID (Some (MkDesired (name +:+ nm) (h_NewSpec h n)
          (IdentityLabels (h_OwnerID h) resID opID))) None), opID).
Definition with_id (id : string) (a : Action) : Action :=
  MkAction id (ac_Kind a) (ac_ResourceID a) (ac_Ref a) (ac_Params a) (ac_Destructive a).

Definition create : test ExternalRef :=
  n <~ next_n ;;
  planned <~ planNew "conf-" n ;;
  match planned.1 with
  | Err _ => fatal "Plan"
  | Ok [a] =>
      if decide (ac_Kind a = ""%string) then fatal "create plan" else
      r <~ call (Apply driver (with_id planned.2 a)) ;;
      match r with
      | Err _ => fatal "Apply"
      | Ok op =>
          match or_Ref op with
          | Some ref =>
              if decide (ref_ID ref = ""%string) then fatal "Apply(create) returned no accept-time ref" else
              Cleanup ref ~;;
              pollToSuccess op ~;;
              pass ref
          | None => fatal "Apply(create) returned no accept-time ref"
          end
      end
  | Ok _ => fatal "create plan"
  end.

(** ** The subtests *)

Definition descriptorDeclaresKind : test unit :=
  if mem (h_Kind h) (de_Kinds (pv_Descriptor (h_Provider h))) then pass tt else fatal "descriptor kinds".

Definition getMissingIsNotFound : test unit :=
  id <~ uid ;;
  r <~ call (Get driver (MkRef ("does-not-exist-" +:+ id) ∅)) ;;
  if is_class r ErrNotFound then pass tt else fatal "Get(missing)".

Definition invalidSpecIsInvalid : test unit :=
  match h_InvalidSpec h with
  | RawEmpty => skip "harness provides no InvalidSpec"
  | spec =>
      match Plan driver (MkPlanReq "res-conf-invalid" (Some (MkDesired "x" spec ∅)) None) with
      | Ok _ => fatal "invalid spec accepted by Plan"
      | Err e =>
          if negb (IsClass e ErrInvalid) then fatal "invalid spec classified"
          else if decide (Effect e = EffectNone) then pass tt
          else fatal "validation failure must be EffectNone"
      end
  end.

Definition lifecycle : test unit :=
  ref <~ create ;;
  r <~ call (Get driver ref) ;;
  match r with
  | Err _ => fatal "Get after create"
  | Ok obs =>
      if negb (bool_decide (ob_Phase obs = PhaseRunning)) then fatal "created resource phase"
      else if is_none (ob_Extensions obs) then fatal "Extensions empty (invariant 6)"
      else
        destroy ref ~;;
        r <~ call (Get driver ref) ;;
        if is_class r ErrNotFound then pass tt else fatal "Get after delete"
  end.

Fixpoint deletedSteps (n : nat) (op : OperationRef) : test unit :=
  match n with
  | O => fatal "delete of deleted never terminal"
  | S n =>
      r <~ call (ObserveOperation driver op) ;;
      if is_class r ErrNotFound then pass tt else
      match r with
      | Err _ => fatal "ObserveOperation"
      | Ok st =>
          match os_State st with
          | PvSucceeded => pass tt
          | PvFailed => fatal "delete of deleted failed"
          | _ => deletedSteps n op
          end
      end
  end.
Definition deleteOfDeleted : test unit :=
  ref <~ create ;;
  destroy ref ~;;
  id <~ uid ;;
  r <~ call (Apply driver (delete_action ("op-conf-dd-" +:+ id) "x" ref)) ;;
  match r with
  | Err e => if IsClass e ErrNotFound then pass tt else fatal "delete of deleted"
  | Ok op => deletedSteps steps op
  end.

(** Indexing an empty plan and reading a missing reference panic. *)
Definition opLabelDedup : test unit :=
  n <~ next_n ;;
  planned <~ planNew "dedup-" n ;;
  match planned.1 with
  | Err _ => fatal "Plan"
  | Ok [] => fatal "panic: index out of range"
  | Ok (a :: _) =>
      let action := with_id planned.2 a in
      r1 <~ call (Apply driver action) ;;
      match r1 with
      | Err _ => fatal "Apply"
      | Ok op1 =>
          match or_Ref op1 with Some ref => Cleanup ref | None => pass tt end ~;;
          r2 <~ call (Apply driver action) ;;
          match r2 with
          | Err _ => fatal "replayed Apply errored"
          | Ok op2 =>
              match or_Ref op1, or_Ref op2 with
              | Some ref1, Some ref2 =>
                  if decide (ref_ID ref1 = ref_ID ref2) then pass tt
                  else fatal "same ActionID produced two resources"
              | _, _ => fatal "panic: nil dereference"
              end
          end
      end
  end.

Definition getBeforeList : test unit :=
  ref <~ create ;;
  r <~ call (Get driver ref) ;;
  match r with Ok _ => pass tt | Err _ => fatal "Get by ref after accepted create" end.

Fixpoint missingLabels (keys : list string) (labels : gmap string string) : test unit :=
  match keys with
  | [] => pass tt
  | k :: keys =>
      (if decide (map_get labels k = ""%string) then errorf ("created resource missing label " +:+ k) else pass tt) ~;;
      missingLabels keys labels
  end.
Definition ownershipApplied : test unit :=
  ref <~ create ;;
  r <~ call (Get driver ref) ;;
  match r with
  | Err _ => fatal "Get"
  | Ok obs =>
      missingLabels [LabelManaged; LabelOwner; LabelID; LabelOp] (ob_Labels obs) ~;;
      if negb (ob_Owned obs) then fatal "created resource not recognized as Owned"
      else if bool_decide (ob_FleetplaneID obs = ""%string) || bool_decide (ob_CreateOpID obs = ""%string)
      then fatal "FleetplaneID/CreateOpID not parsed from labels"
      else pass tt
  end.

Definition owned_scope : DiscoverRequest := MkDiscover ScopeOwned ∅.

(** Lists until the resource is among what was listed so far. *)
Fixpoint seenSteps (n : nat) (id : string) (out : gset string) : test (gset string) :=
  match n with
  | O => fatal "created resource never became discoverable"
  | S n =>
      r <~ call (Discover driver owned_scope) ;;
      match r with
      | Err _ => fatal "Discover"
      | Ok list =>
          let out := out ∪ list_to_set ((λ o, ref_ID (ob_Ref o)) <$> list) in
          if decide (id ∈ out) then pass out else seenSteps n id out
      end
  end.
Definition discoveryStability : test unit :=
  ref <~ create ;;
  first <~ seenSteps steps (ref_ID ref) ∅ ;;
  second <~ seenSteps steps (ref_ID ref) ∅ ;;
  if decide (first ⊆ second) then pass tt else fatal "discovery unstable".

Fixpoint ownedSteps (n : nat) : test unit :=
  match n with
  | O => fatal "ScopeOwned never returned our resources"
  | S n =>
      r <~ call (Discover driver owned_scope) ;;
      match r with
      | Err _ => fatal "Discover"
      | Ok [] => ownedSteps n
      | Ok list => if forallb ob_Owned list then pass tt else fatal "ScopeOwned returned a non-owned resource"
      end
  end.
Definition ownedScopeOnlyOwned : test unit := create ~;; ownedSteps steps.

Definition total : nat := 5.
Fixpoint createAll (n : nat) (refs : gset string) : test (gset string) :=
  match n with
  | O => pass refs
  | S n => ref <~ create ;; createAll n ({[ ref_ID ref ]} ∪ refs)
  end.
(** The deadline is passed after one list more than the steps. *)
Fixpoint allListed (n : nat) (refs : gset string) : test unit :=
  r <~ call (Discover driver owned_scope) ;;
  match r with
  | Err _ => fatal "Discover"
  | Ok list =>
      if decide (length (filter (λ o, ref_ID (ob_Ref o) ∈ refs) list) = total) then pass tt
      else match n with
           | O => fatal "pagination lost resources"
           | S n => allListed n refs
           end
  end.
Definition pagination : test unit := refs <~ createAll total ∅ ;; allListed steps refs.

Definition undeclared : string := "conformance.undeclared/kind".
Definition billing_eqb (a b : BillingPolicy) : bool :=
  bool_decide (MinimumDuration a = MinimumDuration b) && bool_decide (BillingIncrement a = BillingIncrement b) &&
  bool_decide (TerminationBuffer a = TerminationBuffer b).
Definition billingContract : test unit :=
  match pv_Billing (h_Provider h) with
  | None => skip "provider does not implement BillingAware"
  | Some billing =>
      let pol := billing (h_Kind h) in
      if bool_decide (MinimumDuration pol < 0) || bool_decide (BillingIncrement pol < 0) ||
         bool_decide (TerminationBuffer pol < 0)
      then fatal "billing durations must be >= 0"
      else if negb (billing_eqb (billing (h_Kind h)) pol) then fatal "billing policy unstable across calls"
      else if negb (FineGrained (billing undeclared)) then fatal "undeclared kind must return the zero policy"
      else pass tt
  end.

Definition park_eqb (a b : ParkPolicy) : bool :=
  bool_decide (pk_Supported a = pk_Supported b) && bool_decide (pk_StartEstimate a = pk_StartEstimate b).
Definition parkingContract : test unit :=
  match pv_Parking (h_Provider h) with
  | None => skip "provider does not implement ParkAware"
  | Some parking =>
      let pol := parking (h_Kind h) in
      if bool_decide (pk_StartEstimate pol < 0) then fatal "StartEstimate must be >= 0"
      else if negb (park_eqb (parking (h_Kind h)) pol) then fatal "park policy unstable across calls"
      else if pk_Supported (parking undeclared) then fatal "undeclared kind must return the zero policy"
      else pass tt
  end.

(** Applies and polls a stop or start, checks the phase, applies it again. *)
Definition powered (kind id : string) (ref : ExternalRef) (goal : ObservedPhase) : test unit :=
  let action := MkAction id kind "" (Some ref) None false in
  r <~ call (Apply driver action) ;;
  match r with
  | Err _ => fatal kind
  | Ok op =>
      pollToSuccess op ~;;
      g <~ call (Get driver ref) ;;
      match g with
      | Ok obs =>
          if decide (ob_Phase obs = goal) then
            again <~ call (Apply driver action) ;;
            match again with Ok _ => pass tt | Err _ => fatal (kind +:+ " again must succeed") end
          else fatal ("after " +:+ kind)
      | Err _ => fatal ("after " +:+ kind)
      end
  end.
Definition parkingCycle (ref : ExternalRef) : test unit :=
  id <~ uid ;;
  powered "stop" ("op-conf-stop-" +:+ id) ref PhaseStopped ~;;
  b <~ call (Get driver ref) ;;
  match b with
  | Err _ => fatal "Get"
  | Ok before =>
      id <~ uid ;;
      powered "start" ("op-conf-start-" +:+ id) ref PhaseRunning ~;;
      a <~ call (Get driver ref) ;;
      match a with
      | Err _ => fatal "Get"
      | Ok after =>
          if bool_decide (ob_FleetplaneID after = ob_FleetplaneID before) &&
             bool_decide (ob_CreateOpID after = ob_CreateOpID before) && ob_Owned after
          then pass tt
          else fatal "identity must survive the stop/start cycle"
      end
  end.
(** [defer c.destroy(t, ref)] runs however the rest ends. *)
Definition parkingLifecycle : test unit :=
  match pv_Parking (h_Provider h) with
  | Some parking =>
      if negb (pk_Supported (parking (h_Kind h))) then skip "parking not supported" else
      ref <~ create ;;
      (λ t, let '(r, t) := parkingCycle ref t in
            let '(_, t) := destroy ref t in (r, t))
  | None => skip "parking not supported"
  end.

(** ** t.Run *)

(** The cleanups, last registered first. *)
Fixpoint runCleanups (refs : list ExternalRef) : test unit :=
  match refs with
  | [] => pass tt
  | ref :: refs => destroy ref ~;; runCleanups refs
  end.

(** A subtest under its name: the body, its cleanups, the verdict. *)
Definition subtest (body : test unit) (t : T) : verdict * T :=
  let '(r, t) := body (MkT (t_Prov t) (t_n t) (t_uids t) None []) in
  let '(_, t) := runCleanups (t_cleanup t) t in
  (match r, t_errors t with
   | inl (Fatal msg), _ => Failed msg
   | inl (Skip msg), None => Skipped msg
   | _, Some msg => Failed msg
   | inr _, None => Passed
   end, t).

Fixpoint runAll (l : list (string * test unit)) (t : T) : list (string * verdict) * T :=
  match l with
  | [] => ([], t)
  | (name, body) :: l =>
      let '(v, t) := subtest body t in
      let '(vs, t) := runAll l t in
      ((name, v) :: vs, t)
  end.

Definition catalog : list (string * test unit) :=
  [("Descriptor/DeclaresKind", descriptorDeclaresKind);
   ("Errors/GetMissingIsErrNotFound", getMissingIsNotFound);
   ("Errors/InvalidSpecIsErrInvalid", invalidSpecIsInvalid);
   ("Lifecycle/CreateObserveGetDelete", lifecycle);
   ("Lifecycle/DeleteOfDeleted", deleteOfDeleted);
   ("Idempotency/OpLabelDedup", opLabelDedup);
   ("EventualConsistency/GetBeforeList", getBeforeList);
   ("Labels/OwnershipApplied", ownershipApplied);
   ("Discovery/Stability", discoveryStability);
   ("Discovery/OwnedScopeOnlyOwned", ownedScopeOnlyOwned);
   ("Operations/PollingReachesTerminal", lifecycle);
   ("Billing/CapabilityContract", billingContract);
   ("Parking/CapabilityContract", parkingContract);
   ("Parking/StopStartLifecycle", parkingLifecycle)]%string ++
  (if h_Expensive h then [("Pagination/OverOnePage"%string, pagination)] else []).
End conformance.
Arguments Harness P : clear implicits.
Arguments T P : clear implicits.

(** [Run]: [None] is the fatal end of a provider that does not drive the kind. *)
Definition Run {P} `{Uids} (h : Harness P) (p : P) : option (list (string * verdict)) * P :=
  let h := if decide (h_MaxSteps h ≤ 0)
           then MkHarness (h_Provider h) (h_Kind h) (h_NewSpec h) (h_InvalidSpec h) (h_OwnerID h) (h_Eventual h)
                  (h_Expensive h) 200
           else h in
  match pv_ResourceDriver (h_Provider h) (h_Kind h) with
  | None => (None, p)
  | Some driver =>
      let '(vs, t) := runAll h driver (catalog h driver) (MkT p 0 0 None []) in (Some vs, t_Prov t)
  end.

(** * The conformance suite on the repository's own drivers

    The in-memory provider passes every subtest under the options the
    repository tests it with. Hetzner Cloud and DigitalOcean number their
    machines and call the id of the suite's missing machine malformed, so they
    fail [Errors/GetMissingIsErrNotFound] whatever their cloud holds. *)

(** ** The in-memory provider *)

Definition fake_doc (serverType : string) : raw :=
  RawDoc (JObj [("serverType", JStr serverType); ("image", JStr "snapshot:ci=1")]%string).
Definition cpx (i : Z) : string := ("cpx" +:+ pretty (i `mod` 9 + 1) +:+ "1")%string.

(** [TestFakeConformance] and [TestFakeConformanceSynchronous]. *)
Definition hostile : Options := MkOptions 2 1 2 2 ∅ true 2 2 0.
Definition fake_harness : Harness Fake :=
  MkHarness (Fake_Provider "fake-conf" hostile) compute.Kind (λ i, fake_doc (cpx i))
    (RawDoc (JObj [("serverType"%string, JStr "")])) "owner-conf" true true 0.
Definition synchronous : Options := MkOptions 0 0 0 0 ∅ true 0 0 0.
Definition synchronous_harness : Harness Fake :=
  MkHarness (Fake_Provider "fake-conf-sync" synchronous) compute.Kind (λ _, fake_doc "cpx31")
    (RawDoc (JObj [])) "owner-conf" false false 0.

Definition all_passed (run : option (list (string * verdict))) (n : nat) : bool :=
  match run with
  | Some vs => (length vs =? n)%nat && forallb (λ nv, match nv.2 with Passed => true | _ => false end) vs
  | None => false
  end.

(** Every machine the run created is gone. *)
Definition none_left (f : Fake) (n : nat) : bool :=
  (size (f_objects f) =? n)%nat &&
  forallb (λ io, bool_decide (fo_state io.2 = Gone)) (map_to_list (f_objects f)).

(** The in-memory provider passes the full conformance catalog: all fifteen
    subtests with creates, deletes, stops and starts of several steps, lists
    that lag and pages of two, and the fourteen cheap ones when it is
    synchronous; of the machines it created none is left. *)
Theorem fake_passes_conformance (ids : Uids := pretty) :
  let hostile_run := Run fake_harness (New "fake-conf" "owner-conf" hostile) in
  let synchronous_run := Run synchronous_harness (New "fake-conf-sync" "owner-conf" synchronous) in
  all_passed hostile_run.1 15 = true ∧ none_left hostile_run.2 14 = true ∧
  all_passed synchronous_run.1 14 = true ∧ none_left synchronous_run.2 9 = true.
Proof. vm_compute. repeat split. Qed.

(** ** Ids that are numbers *)

Section missing.
Context {P : Type} `{Uids} (h : Harness P) (driver : ResourceDriver P).

(** The driver calls the id of the suite's missing machine something else than
    not found. *)
Definition misnames : Prop := ∀ id p,
  match Get driver (MkRef ("does-not-exist-" +:+ id) ∅) p with
  | (Err e, _) => IsClass e ErrNotFound = false
  | (Ok _, _) => True
  end.
Lemma missing_fails t : misnames → (subtest h driver (getMissingIsNotFound driver) t).1 = Failed "Get(missing)".
Proof.
  intros Hm. unfold subtest, getMissingIsNotFound, uid, call, bindT. simpl.
  specialize (Hm (uid_text (t_uids t)) (t_Prov t)). destruct (Get _ _ _) as [[a|e] p]; simpl in *; [done|].
  by rewrite Hm.
Qed.
Lemma second_verdict a b l t : ∃ v w vs, (runAll h driver (a :: b :: l) t).1 = v :: (b.1, (subtest h driver b.2 w).1) :: vs.
Proof.
  destruct a as [na a], b as [nb b]. cbn [runAll fst snd]. destruct (subtest h driver a t) as [va w] eqn:Ha.
  exists (na, va), w. destruct (subtest h driver b w) as [vb w'] eqn:Hb. destruct (runAll h driver l w') as [vs w''].
  by exists vs.
Qed.
End missing.

Lemma run_missing {P} `{Uids} (h : Harness P) driver p :
  pv_ResourceDriver (h_Provider h) (h_Kind h) = Some driver → misnames driver →
  ∃ vs, (Run h p).1 = Some vs ∧ vs !! 1%nat = Some ("Errors/GetMissingIsErrNotFound"%string, Failed "Get(missing)").
Proof.
  intros Hd Hm. unfold Run. cbv zeta.
  assert (∀ h', h_Provider h' = h_Provider h → h_Kind h' = h_Kind h →
    ∃ vs, (match pv_ResourceDriver (h_Provider h') (h_Kind h') with
           | None => (None, p)
           | Some driver =>
               let '(vs, t) := runAll h' driver (catalog h' driver) (MkT p 0 0 None []) in (Some vs, t_Prov t)
           end).1 = Some vs ∧
      vs !! 1%nat = Some ("Errors/GetMissingIsErrNotFound"%string, Failed "Get(missing)")) as Hall.
  { intros h' -> ->. rewrite Hd. destruct (second_verdict h' driver
      ("Descriptor/DeclaresKind"%string, descriptorDeclaresKind h') ("Errors/GetMissingIsErrNotFound"%string, getMissingIsNotFound driver)
      (drop 2 (catalog h' driver)) (MkT p 0 0 None [])) as (v & w & vs & Hv).
    change (_ :: _ :: drop 2 _) with (catalog h' driver) in Hv.
    destruct (runAll h' driver _ _) as [l t]. cbn [fst snd] in *. subst l. eexists. split; [done|].
    simpl. by rewrite missing_fails. }
  case_decide; by apply Hall.
Qed.

(** On Hetzner Cloud and DigitalOcean the suite fails its subtest
    [Errors/GetMissingIsErrNotFound], with every harness, in every state of the
    cloud and without a request to it: an id that is not a number is called
    malformed, an invalid argument, not a machine that does not exist. *)
Theorem numbered_ids_fail_conformance {W} `{Ambient W} (HA : Hetzner.Hcloud W) (DA : Droplets.Godo W) `{Uids}
    (h : Hetzner.Hetzner) (d : Droplets.DigitalOcean) fuel newSpec invalid owner eventual expensive maxSteps s t :
  (∃ vs, (Run (MkHarness (Hetzner.Hetzner_Provider h) compute.Kind newSpec invalid owner eventual expensive maxSteps) s).1 = Some vs ∧
     vs !! 1%nat = Some ("Errors/GetMissingIsErrNotFound"%string, Failed "Get(missing)")) ∧
  (∃ vs, (Run (MkHarness (Droplets.Droplets_Provider d fuel) compute.Kind newSpec invalid owner eventual expensive maxSteps) t).1 = Some vs ∧
     vs !! 1%nat = Some ("Errors/GetMissingIsErrNotFound"%string, Failed "Get(missing)")).
Proof. split; by eapply run_missing. Qed.
