(* ===== verification/CloudInit.v ===== *)
(** * Bootstrapping an installation (internal/cli/cloudinit.go)

    [fleetplane cloud-init] turns a configuration and the secrets it references
    into user data for a fresh machine. The YAML library is the class [Yaml],
    over values as JSON documents; a configuration as a map keeps the order of
    its document where Go's has none. Random bytes are arguments; the text of
    errors and warnings is cut to what they are about. *)

From stdpp Require Import base gmap strings list sorting.
From Stdlib Require Import Ascii.
From S2P Require Import Prelude Errors Json Kinds Marshal Text App Auth SecretRef Config.

Definition distroPackages : list (string * list string) :=
  [("ubuntu", ["curl"; "tar"; "ca-certificates"]);
   ("debian", ["curl"; "tar"; "ca-certificates"]);
   ("fedora", ["tar"; "ca-certificates"]);
   ("rhel", ["tar"; "ca-certificates"]);
   ("rocky", ["tar"; "ca-certificates"]);
   ("almalinux", ["tar"; "ca-certificates"]);
   ("centos", ["tar"; "ca-certificates"]);
   ("arch", ["curl"; "tar"; "ca-certificates"]);
   ("opensuse", ["curl"; "tar"; "ca-certificates"])]%string.

Definition nl : string := String (byte 10) EmptyString.
Definition lines (l : list string) : string := foldr (λ s acc, s +:+ nl +:+ acc)%string EmptyString l.

Definition systemdUnit : string := lines
  ["[Unit]";
   "Description=Fleetplane control plane";
   "After=network-online.target";
   "Wants=network-online.target";
   "";
   "[Service]";
   "User=fleetplane";
   "Group=fleetplane";
   "EnvironmentFile=/etc/fleetplane/secrets.env";
   "ExecStart=/usr/local/bin/fleetplane serve --config /etc/fleetplane/config.yaml";
   "Restart=always";
   "RestartSec=2";
   "TimeoutStopSec=30";
   "";
   "[Install]";
   "WantedBy=multi-user.target"]%string.

Record cloudInitOpts := MkCloudInit {
  ConfigYAML : string; EnvFiles : list string; Environ : gmap string string;
  Distro : string; Version : string; Token : string; TokenName : string; Perms : list string }.
Inductive Warning := OutsideStorage (path : string) | FileSecret (ref path : string).
Record cloudInitOut := MkCloudInitOut { UserData : string; out_Token : string; Warnings : list Warning }.

(** The library: decoding into a map, encoding plain and with literal block
    style, and decoding a configuration file. *)
Class Yaml := {
  yaml_Unmarshal : string → result (option (list (string * json)));
  yaml_Marshal : json → result string;
  yaml_MarshalLiteral : json → result string;
  yaml_Config : string → result Config.Config
}.

(** ** Environment files *)

(** [bufio.Scanner]: lines without their end, a carriage return before it
    dropped; a line that does not fit the buffer of 64 KiB ends the scan. *)
Fixpoint split_lines (s : string) : list string :=
  match s with
  | EmptyString => []
  | String c s =>
      if decide (c = byte 10) then EmptyString :: split_lines s
      else match split_lines s with
           | l :: ls => String c l :: ls
           | [] => [String c EmptyString]
           end
  end.
Fixpoint dropCR (l : string) : string :=
  match l with
  | EmptyString => EmptyString
  | String c EmptyString => if decide (c = byte 13) then EmptyString else l
  | String c l => String c (dropCR l)
  end.
Fixpoint scanned (ls : list string) : list string :=
  match ls with
  | [] => []
  | l :: ls => if (Z.of_nat (String.length l) <? 65536)%Z then dropCR l :: scanned ls else []
  end.

(** Quotes around a value, if both ends have the same. *)
Fixpoint last_char (c : ascii) (s : string) : ascii :=
  match s with EmptyString => c | String c s => last_char c s end.
Fixpoint but_last (s : string) : string :=
  match s with
  | EmptyString | String _ EmptyString => EmptyString
  | String c s => String c (but_last s)
  end.
Definition unquote (v : string) : string :=
  match v with
  | String c (String d r) =>
      if decide ((c = quote ∨ c = "'"%char) ∧ last_char d r = c) then but_last (String d r) else v
  | _ => v
  end.

Definition parse_line (line : string) (into : gmap string string) : gmap string string :=
  let line := TrimSpace line in
  if bool_decide (line = ""%string) || is_some (CutPrefix "#" line) then into else
  let line := default line (CutPrefix "export " line) in
  match Cut "=" line with
  | None => into
  | Some (k, v) => <[TrimSpace k := unquote (TrimSpace v)]> into
  end.
Definition parseEnvFile (b : string) (into : gmap string string) : gmap string string :=
  foldl (λ into line, parse_line line into) into (scanned (split_lines b)).

(** ** Rendering *)

Fixpoint walkStrings (v : json) : list string :=
  match v with
  | JStr s => [s]
  | JArr l => concat (walkStrings <$> l)
  | JObj fs => concat ((λ kv, walkStrings kv.2) <$> fs)
  | _ => []
  end.

(** What the walk over the configuration gathers. *)
Record Gathered := MkGathered {
  ga_env : gmap string string; ga_seen : gset string; ga_missing : list string; ga_warnings : list Warning }.
Definition gather (environ : gmap string string) (g : Gathered) (s : string) : Gathered :=
  if negb (IsRef s) then g else
  match Split s with
  | Err _ => g
  | Ok (scheme, path) =>
      if mem scheme ["env"%string] then
        if decide (path ∈ ga_seen g) then g else
        let seen := {[ path ]} ∪ ga_seen g in
        if is_some (ga_env g !! path) then MkGathered (ga_env g) seen (ga_missing g) (ga_warnings g)
        else match environ !! path with
             | Some v => MkGathered (<[path := v]> (ga_env g)) seen (ga_missing g) (ga_warnings g)
             | None => MkGathered (ga_env g) seen (ga_missing g ++ [path]) (ga_warnings g)
             end
      else if mem scheme ["file"%string] then
        MkGathered (ga_env g) (ga_seen g) (ga_missing g) (ga_warnings g ++ [FileSecret s path])
      else g
  end.

(** [m[key] = v] and [m[key]] on the map of a document. *)
Definition set_key (key : string) (v : json) (fs : list (string * json)) : list (string * json) :=
  filter (λ kv, kv.1 ≠ key) fs ++ [(key, v)].
Definition get_key (key : string) (fs : list (string * json)) : option json :=
  snd <$> head (filter (λ kv, kv.1 = key) fs).

Definition tokenEntry (rec : TokenRecord) (perms : list string) : json :=
  JObj [("id", JStr (tk_ID rec)); ("name", JStr (tk_Name rec)); ("sha256", JStr (EncodeToString (tk_SHA256 rec)));
        ("permissions", JArr (JStr <$> perms))]%string.
Definition oldTokens (cfg : list (string * json)) : list json :=
  match get_key "auth" cfg with
  | Some (JObj auth) => match get_key "tokens" auth with Some (JArr l) => l | _ => [] end
  | _ => []
  end.
Definition injectToken (rec : TokenRecord) (perms : list string) (cfg : list (string * json)) : list (string * json) :=
  let auth := match get_key "auth" cfg with Some (JObj auth) => auth | _ => [] end in
  set_key "auth" (JObj (set_key "tokens" (JArr (oldTokens cfg ++ [tokenEntry rec perms])) auth)) cfg.

Definition secretsFile (env : gmap string string) : string :=
  lines ((λ kv, kv.1 +:+ "=" +:+ kv.2)%string <$> sorted_entries env).

Definition install (version : string) : string :=
  ("curl -fsSL https://raw.githubusercontent.com/samishal1998/fleetplane/main/install.sh | FLEETPLANE_INSTALL_DIR=/usr/local/bin" +:+
   (if decide (version = ""%string) then "" else " FLEETPLANE_VERSION=" +:+ version) +:+ " sh")%string.
Definition write_file (path mode content : string) : json :=
  JObj [("path", JStr path); ("permissions", JStr mode); ("content", JStr content)]%string.
Definition document (pkgs : list string) (shipped secrets version : string) : json :=
  JObj [("package_update", JBool true);
        ("packages", JArr (JStr <$> pkgs));
        ("write_files", JArr
           [write_file "/etc/fleetplane/config.yaml" "0640" shipped;
            write_file "/etc/fleetplane/secrets.env" "0600" secrets;
            write_file "/etc/systemd/system/fleetplane.service" "0644" systemdUnit]);
        ("runcmd", JArr (JStr <$>
           ["useradd --system --home /var/lib/fleetplane --shell /usr/sbin/nologin fleetplane || true";
            "mkdir -p /var/lib/fleetplane";
            "chown fleetplane:fleetplane /var/lib/fleetplane";
            "chgrp fleetplane /etc/fleetplane/config.yaml";
            install version;
            "systemctl daemon-reload";
            "systemctl enable --now fleetplane"]))]%string.

Section render.
Context `{Yaml}.

(** The token's record, and its text when it is minted here. *)
Definition mint (o : cloudInitOpts) (idb secretB : string) : result (string * TokenRecord) :=
  compute.andThen (NewPermSet (Perms o)) (λ set,
  if decide (Token o = ""%string) then Ok (GenerateToken (TokenName o) set idb secretB)
  else compute.andThen (ParseToken (Token o) (TokenName o) set) (λ rec, Ok (""%string, rec))).

Definition renderCloudInit (o : cloudInitOpts) (idb secretB : string) : result cloudInitOut :=
  match snd <$> head (filter (λ kv, kv.1 = Distro o) distroPackages) with
  | None => Err (EOther "unsupported distro")
  | Some pkgs =>
      compute.andThen (mint o idb secretB) (λ minted,
      compute.andThen (yaml_Unmarshal (ConfigYAML o)) (λ cfg,
      let cfg := injectToken minted.2 (Perms o) (default [] cfg) in
      compute.andThen (yaml_Marshal (JObj cfg)) (λ shipped,
      compute.andThen (yaml_Config shipped) (λ c,
      compute.andThen (Config.Parse c) (λ parsed,
      let warnings := if is_some (CutPrefix "/var/lib/fleetplane/" (c_StoragePath parsed)) then []
                      else [OutsideStorage (c_StoragePath parsed)] in
      let env := foldl (λ env f, parseEnvFile f env) ∅ (EnvFiles o) in
      let g := foldl (gather (Environ o)) (MkGathered env ∅ [] warnings) (walkStrings (JObj cfg)) in
      match ga_missing g with
      | _ :: _ => Err (EOther "config references secret://env but no value was given")
      | [] =>
          compute.andThen (yaml_MarshalLiteral (document pkgs shipped (secretsFile (ga_env g)) (Version o))) (λ body,
          Ok (MkCloudInitOut ("#cloud-config" +:+ nl +:+ body) minted.1 (ga_warnings g)))
      end)))))
  end.
End render.

(** ** The command *)

Record Flags := MkFlags {
  fl_config : string; fl_env : list string; fl_distro : string; fl_version : string; fl_token : string;
  fl_token_name : string; fl_perm : list string; fl_out : string }.
(** The defaults of the flags, for a build of [version]. *)
Definition default_flags (version config : string) : Flags :=
  MkFlags config [] "ubuntu" (if is_some (CutPrefix "v" version) then version else "") "" "admin" ["admin"%string] "".

(** What the run leaves: warnings and the minted token on the error stream,
    the user data on the output or in a file. *)
Record Ran := MkRan { rn_warnings : list Warning; rn_token : option (string * string); rn_file : option string; rn_text : string }.

Section command.
Context `{Yaml} (ReadFile : string → result string) (environ : list string).

Fixpoint read_all (paths : list string) : result (list string) :=
  match paths with
  | [] => Ok []
  | p :: paths => compute.andThen (ReadFile p) (λ b, compute.andThen (read_all paths) (λ l, Ok (b :: l)))
  end.
Definition environment : gmap string string :=
  foldl (λ m kv, match Cut "=" kv with Some (k, v) => <[k := v]> m | None => m end) ∅ environ.
Definition cloudInit_RunE (f : Flags) (idb secretB : string) : result Ran :=
  compute.andThen (ReadFile (fl_config f)) (λ cfg,
  compute.andThen (read_all (fl_env f)) (λ files,
  compute.andThen (renderCloudInit (MkCloudInit cfg files environment (fl_distro f) (fl_version f) (fl_token f)
                     (fl_token_name f) (fl_perm f)) idb secretB) (λ out,
  Ok (MkRan (Warnings out)
        (if decide (out_Token out = ""%string) then None else Some (fl_token_name f, out_Token out))
        (if decide (fl_out f = ""%string) then None else Some (fl_out f)) (UserData out))))).
End command.
