(* ===== verification/CloudInitFacts.v ===== *)
(** * What a rendered installation can rely on

    The token shipped opens the service, every secret named has its value,
    and the environment file reads back to the values it was made of. *)

From stdpp Require Import base gmap strings list sorting.
From Stdlib Require Import Ascii.
From S2P Require Import Prelude Errors Json Kinds Marshal Text App Auth SecretRef Config CloudInit.
From S2P Require TextFacts Labels Discovery.

(** ** The token of a rendered installation *)

Lemma decode_encode s : DecodeString (EncodeToString s) = Some s.
Proof.
  induction s as [|c s IH]; [done|]. cbn [EncodeToString DecodeString].
  pose proof (N_ascii_bounded c) as Hb.
  rewrite !TextFacts.hex_value_digit by (apply N.Div0.div_lt_upper_bound || apply N.mod_lt; lia).
  rewrite IH. do 2 f_equal.
  replace (16 * (N_of_ascii c / 16) + N_of_ascii c mod 16)%N with (N_of_ascii c) by (rewrite <-N.div_mod; lia).
  apply ascii_N_embedding.
Qed.

(** The record matches the plaintext it was made from or with. *)
Lemma mint_proves `{Yaml} o idb secretB text rec : mint o idb secretB = Ok (text, rec) →
  let plain := if decide (Token o = ""%string) then text else Token o in
  NewPermSet (Perms o) = Ok (tk_Perms rec) ∧ tk_Name rec = TokenName o ∧
  ∃ secret, tk_SHA256 rec = Sum256 secret ∧ free_of "." (tk_ID rec) ∧
    TrimSpace plain = ("flp_" +:+ tk_ID rec +:+ "." +:+ secret)%string.
Proof.
  unfold mint. intros Hm. apply RangeFacts.andThen_Ok in Hm as (perms & Hp & Hm). case_decide as Ht.
  - injection Hm as <- <-. split_and!; [done|done|]. exists (base64 secretB). simpl.
    assert (free_of "." (EncodeToString idb)) by apply plain_free, hex_plain. split_and!; [done|done|].
    apply TrimSpace_spaceless. rewrite !spaceless_app.
    by rewrite (plain_spaceless _ (hex_plain idb)), (plain_spaceless _ (base64_plain secretB)).
  - apply RangeFacts.andThen_Ok in Hm as (r & Hr & Hm). injection Hm as <- <-. revert Hr. unfold ParseToken.
    destruct (CutPrefix "flp_" (TrimSpace (Token o))) as [body|] eqn:Hb; [|done].
    destruct (Cut "." body) as [[id secret]|] eqn:Hc; [|done]. destruct (negb _ || _); [done|]. intros [= <-].
    apply CutPrefix_Some in Hb. apply Cut_Some in Hc as [-> Hf]. split_and!; [done|done|].
    exists secret. simpl. split_and!; done.
Qed.

(** Where the entry of the token went. *)
Lemma get_set key v fs : get_key key (set_key key v fs) = Some v.
Proof.
  unfold get_key, set_key. rewrite filter_app. assert (filter (λ kv : string * json, kv.1 = key) (filter (λ kv, kv.1 ≠ key) fs) = []) as ->.
  { induction fs as [|kv fs IH]; [done|]. rewrite filter_cons. case_decide; [|done]. rewrite filter_cons_False; done. }
  by rewrite filter_cons_True.
Qed.
Lemma injected rec perms cfg : oldTokens (injectToken rec perms cfg) = oldTokens cfg ++ [tokenEntry rec perms].
Proof. unfold oldTokens at 1, injectToken. cbv zeta. by rewrite get_set, get_set. Qed.

(** ** The secrets gathered *)

Lemma Split_IsRef s sp : Split s = Ok sp → IsRef s = true.
Proof. unfold Split, IsRef. by destruct (CutPrefix prefix s). Qed.

(** The environment given, extended from the process for what the strings name. *)
Record gathers (environ env0 : gmap string string) (past : list string) (g : Gathered) : Prop := {
  gs_keeps p v : env0 !! p = Some v → ga_env g !! p = Some v;
  gs_from p v : ga_env g !! p = Some v → env0 !! p = Some v ∨ (env0 !! p = None ∧ environ !! p = Some v);
  gs_seen p : p ∈ ga_seen g → is_Some (ga_env g !! p) ∨ p ∈ ga_missing g;
  gs_done s p : s ∈ past → Split s = Ok ("env"%string, p) → p ∈ ga_seen g;
  gs_missing p : p ∈ ga_missing g → ga_env g !! p = None ∧ environ !! p = None
}.
Lemma gather_step environ env0 past g s : gathers environ env0 past g → gathers environ env0 (past ++ [s]) (gather environ g s).
Proof.
  intros [K F S D Mi].
  assert (∀ g', ga_env g' = ga_env g → ga_seen g' = ga_seen g → ga_missing g' = ga_missing g →
    (∀ p, Split s = Ok ("env"%string, p) → p ∈ ga_seen g) → gathers environ env0 (past ++ [s]) g') as Hsame.
  { intros g' He Hs Hm Hd. split; rewrite ?He, ?Hs, ?Hm; try done.
    intros s' p [Hin| ->%list_elem_of_singleton]%elem_of_app Hsp; [by eapply D|by apply Hd]. }
  unfold gather. destruct (negb (IsRef s)) eqn:Href.
  { apply Hsame; try done. intros p Hsp. apply Split_IsRef in Hsp. by rewrite Hsp in Href. }
  destruct (Split s) as [[scheme path]|e] eqn:Hsp; [|by apply Hsame].
  destruct (mem scheme ["env"%string]) eqn:Hsch.
  - apply mem_true, list_elem_of_singleton in Hsch as ->. case_decide as Hin; [apply Hsame; try done; by intros p [= <-]|].
    assert (∀ env missing ws, (∀ p v, ga_env g !! p = Some v → env !! p = Some v) →
      (∀ p v, env !! p = Some v → env0 !! p = Some v ∨ (env0 !! p = None ∧ environ !! p = Some v)) →
      (∀ p, p ∈ ga_missing g → p ∈ missing) → (is_Some (env !! path) ∨ path ∈ missing) →
      (∀ p, p ∈ missing → env !! p = None ∧ environ !! p = None) →
      gathers environ env0 (past ++ [s]) (MkGathered env ({[ path ]} ∪ ga_seen g) missing ws)) as Hnew.
    { intros env missing ws He Hf Hm Hp Hn. split; simpl; [by eauto|done| | |done].
      - intros p [->%elem_of_singleton|Hp']%elem_of_union; [done|].
        destruct (S _ Hp') as [[v Hv]|Hv]; [left; exists v; by apply He|right; by apply Hm].
      - intros s' p [Hin'| ->%list_elem_of_singleton]%elem_of_app Hsp'; [apply elem_of_union_r; by eapply D|].
        rewrite Hsp in Hsp'. injection Hsp' as ->. set_solver. }
    destruct (ga_env g !! path) as [v|] eqn:Hv; simpl; [apply Hnew; eauto|].
    destruct (environ !! path) as [v|] eqn:Hen; apply Hnew; try done.
    + intros p v' Hp. rewrite lookup_insert_ne; [done|congruence].
    + intros p v'. rewrite lookup_insert_Some. intros [[<- <-]|[_ Hp]]; [|by apply F]. right. split; [|done].
      destruct (env0 !! path) as [w|] eqn:H0; [|done]. apply K in H0. congruence.
    + left. rewrite lookup_insert_eq. by eexists.
    + intros p Hp. destruct (Mi _ Hp) as [H1 H2]. split; [|done]. rewrite lookup_insert_ne; [done|congruence].
    + intros p Hp. apply elem_of_app. by left.
    + right. apply elem_of_app. right. by left.
    + intros p [Hp| ->%list_elem_of_singleton]%elem_of_app; [by apply Mi|done].
  - assert (∀ p, Split s = Ok ("env"%string, p) → p ∈ ga_seen g) as Hd.
    { intros p Hsp'. rewrite Hsp in Hsp'. injection Hsp' as -> _. by vm_compute in Hsch. }
    destruct (mem scheme ["file"%string]); apply Hsame; try done; intros p Hp; apply Hd; by rewrite Hsp.
Qed.
Lemma gather_all environ env0 ws l :
  gathers environ env0 l (foldl (gather environ) (MkGathered env0 ∅ [] ws) l).
Proof.
  assert (∀ past g, gathers environ env0 past g → gathers environ env0 (past ++ l) (foldl (gather environ) g l)) as Hall.
  { induction l as [|s l IH]; intros past g Hg; simpl; [by rewrite List.app_nil_r|].
    rewrite cons_middle, List.app_assoc. apply IH. by apply gather_step. }
  apply (Hall []). split; simpl; [done|by left|set_solver|set_solver|set_solver].
Qed.

(** ** The environment file *)

Definition no_nl (s : string) : bool := str_all (λ c, negb (bool_decide (c = byte 10))) s.
(** A key and a value that one line of the file can hold. *)
Definition shippable (kv : string * string) : bool :=
  let '(k, v) := kv in
  no_nl k && no_nl v && str_all (λ c, negb (bool_decide (c = "="%char))) k &&
  bool_decide (TrimSpace k = k) && bool_decide (TrimSpace v = v) && bool_decide (unquote v = v) &&
  is_none (CutPrefix "#" k) && is_none (CutPrefix "export " k) &&
  (Z.of_nat (String.length k + String.length v) <? 65535)%Z.

Lemma trim_right_length s : (String.length (trim_right s) ≤ String.length s)%nat.
Proof. induction s as [|c s IH]; [done|]. cbn [trim_right]. case_match; simpl; lia. Qed.
Lemma trim_left_length s : (String.length (trim_left s) ≤ String.length s)%nat.
Proof. induction s as [|c s IH]; [done|]. cbn [trim_left]. case_match; simpl; lia. Qed.
Lemma trimmed_first c s : TrimSpace (String c s) = String c s → space c = false.
Proof.
  unfold TrimSpace. cbn [trim_left]. destruct (space c); [|done]. intros He. exfalso.
  pose proof (trim_right_length (trim_left s)). pose proof (trim_left_length s). rewrite He in *. simpl in *. lia.
Qed.
Lemma trimmed_right s : TrimSpace s = s → trim_right s = s.
Proof.
  destruct s as [|c s]; [done|]. intros He. pose proof (trimmed_first _ _ He) as Hc.
  unfold TrimSpace in He. cbn [trim_left] in He. by rewrite Hc in He.
Qed.
Lemma blank_app s t : blank (s +:+ t) = blank s && blank t.
Proof. induction s as [|c s IH]; [done|]. rewrite TextFacts.app_cons. simpl. by rewrite IH, andb_assoc. Qed.
Lemma trim_right_app s t : blank t = false → trim_right (s +:+ t) = (s +:+ trim_right t)%string.
Proof.
  intros Ht. induction s as [|c s IH]; [done|]. rewrite !TextFacts.app_cons. cbn [trim_right blank].
  by rewrite blank_app, Ht, !andb_false_r, IH.
Qed.
(** A line is trimmed when both of its ends are. *)
Lemma trimmed_line k v : TrimSpace k = k → TrimSpace v = v → TrimSpace (k +:+ "=" +:+ v) = (k +:+ "=" +:+ v)%string.
Proof.
  intros Hk Hv. assert (trim_left (k +:+ "=" +:+ v) = (k +:+ "=" +:+ v))%string as Hl.
  { destruct k as [|c k]; [done|]. rewrite TextFacts.app_cons. cbn [trim_left]. by rewrite (trimmed_first _ _ Hk). }
  unfold TrimSpace. rewrite Hl, trim_right_app by done.
  change (trim_right ("=" +:+ v)) with (String "=" (trim_right v)). by rewrite (trimmed_right _ Hv).
Qed.
Lemma dropCR_trimmed s : trim_right s = s → dropCR s = s.
Proof.
  induction s as [|c s IH]; [done|]. cbn [trim_right]. destruct (blank (String c s)) eqn:Hb; [done|].
  intros [= Hs]. cbn [dropCR]. destruct s as [|d s]; [|by rewrite IH].
  case_decide as Hc; [|done]. by subst c.
Qed.

Lemma split_line l rest : no_nl l = true → split_lines (l +:+ nl +:+ rest) = l :: split_lines rest.
Proof.
  induction l as [|c l IH]; [done|]. unfold no_nl. cbn [str_all].
  intros [Hc%negb_true_iff%bool_decide_eq_false Hl]%andb_true_iff.
  rewrite TextFacts.app_cons. cbn [split_lines]. by rewrite decide_False, (IH Hl) by done.
Qed.
Lemma no_nl_app s t : no_nl (s +:+ t) = no_nl s && no_nl t.
Proof.
  unfold no_nl. induction s as [|c s IH]; [done|]. rewrite TextFacts.app_cons. cbn [str_all].
  by rewrite IH, andb_assoc.
Qed.
Lemma CutPrefix_before p k t : CutPrefix p k = None → str_all (λ c, negb (bool_decide (c = "="%char))) p = true →
  CutPrefix p (k +:+ String "=" t) = None.
Proof.
  revert k. induction p as [|a p IH]; intros k; [by destruct k|]. cbn [str_all].
  destruct k as [|b k]; intros Hk [Ha%negb_true_iff%bool_decide_eq_false Hp]%andb_true_iff.
  - simpl. by rewrite decide_False.
  - rewrite TextFacts.app_cons. cbn [CutPrefix] in *. case_decide; [by apply IH|done].
Qed.
Lemma Cut_line k v : str_all (λ c, negb (bool_decide (c = "="%char))) k = true → Cut "=" (k +:+ String "=" v) = Some (k, v).
Proof.
  induction k as [|c k IH]; [done|]. cbn [str_all].
  intros [Hc%negb_true_iff%bool_decide_eq_false Hk]%andb_true_iff.
  rewrite TextFacts.app_cons. cbn [Cut]. by rewrite decide_False, IH by done.
Qed.

Definition env_line (kv : string * string) : string := (kv.1 +:+ "=" +:+ kv.2)%string.
Lemma read_line kv : shippable kv = true →
  no_nl (env_line kv) = true ∧ (Z.of_nat (String.length (env_line kv)) <? 65536)%Z = true ∧ dropCR (env_line kv) = env_line kv ∧
  ∀ m, parse_line (env_line kv) m = <[kv.1 := kv.2]> m.
Proof.
  destruct kv as [k v]. unfold shippable, env_line. cbn [fst snd].
  rewrite !andb_true_iff, !bool_decide_eq_true, Z.ltb_lt. intros ((((((((Hk & Hv) & He) & Tk) & Tv) & Uv) & Hh) & Hx) & Hlen).
  rewrite !no_nl_app, Hk, Hv. split_and!; [done| | |].
  - apply Z.ltb_lt. rewrite !TextFacts.app_length. change (String.length "=") with 1%nat. lia.
  - by apply dropCR_trimmed, trimmed_right, trimmed_line.
  - intros m. unfold parse_line. cbv zeta. rewrite trimmed_line by done.
    change ("=" +:+ v)%string with (String "=" v).
    assert (CutPrefix "#" (k +:+ String "=" v) = None) as ->.
    { apply CutPrefix_before; [|done]. by destruct (CutPrefix "#" k). }
    rewrite bool_decide_eq_false_2 by (by destruct k). cbn [is_some is_none negb orb].
    assert (CutPrefix "export " (k +:+ String "=" v) = None) as ->.
    { apply CutPrefix_before; [|done]. by destruct (CutPrefix "export " k). }
    cbn [default]. by rewrite Cut_line, Tk, Tv, Uv by done.
Qed.
Lemma read_lines l m : Forall (λ kv, shippable kv = true) l →
  parseEnvFile (lines (env_line <$> l)) m = foldl (λ m kv, <[kv.1 := kv.2]> m) m l.
Proof.
  intros Hl. unfold parseEnvFile. revert m. induction Hl as [|kv l Hkv _ IH]; intros m; [done|].
  destruct (read_line kv Hkv) as (Hn & Hlen & Hcr & Hp). cbn [fmap list_fmap lines foldr].
  rewrite split_line by done. cbn [scanned]. rewrite Hlen, Hcr. cbn [foldl]. rewrite Hp. apply IH.
Qed.

(** The environment file shipped for values a line can hold reads back to
    exactly those values; quotes around a value and newlines in it are written
    as they are, and such a value comes back as another or not at all. *)
Theorem secrets_file_round_trip env : (∀ k v, env !! k = Some v → shippable (k, v) = true) →
  parseEnvFile (secretsFile env) ∅ = env.
Proof.
  intros Henv. unfold secretsFile. change (λ kv : string * string, _) with env_line. rewrite read_lines.
  - change (Labels.collect fst snd (sorted_entries env) = env). apply map_eq. intros k. apply option_eq. intros v.
    rewrite Labels.collect_lookup.
    + split; [intros ([k' v'] & Hin & <- & <-); by apply Config.sorted_entries_elem|].
      intros Hk. exists (k, v). by rewrite Config.sorted_entries_elem.
    + unfold sorted_entries. rewrite (merge_sort_Permutation key_le). apply NoDup_fst_map_to_list.
  - apply Forall_forall. intros [k v] Hin. by apply Henv, Config.sorted_entries_elem.
Qed.
Lemma secrets_file_round_trip_witness :
  parseEnvFile (secretsFile {[ "HCLOUD_TOKEN" := "a b=c"; "PW" := "" ]}) ∅ = {[ "HCLOUD_TOKEN" := "a b=c"; "PW" := "" ]} ∧
  parseEnvFile (secretsFile {[ "PW" := "'x'" ]}) ∅ = {[ "PW" := "x" ]} ∧
  parseEnvFile (secretsFile {[ "PW" := "x" +:+ nl +:+ "y" ]}) ∅ = {[ "PW" := "x" ]}.
Proof.
  split_and!; [|by vm_compute..]. apply secrets_file_round_trip. apply (map_Forall_to_list (λ k v, shippable (k, v) = true)).
  vm_compute. by repeat constructor.
Defined.

Section facts.
Context `{Yaml}.
(** The library reads back the tokens that were written. *)
Hypothesis tokens_read : ∀ cfg text c rec perms,
  yaml_Marshal (JObj cfg) = Ok text → yaml_Config text = Ok c → tokenEntry rec perms ∈ oldTokens cfg →
  MkToken_ (tk_ID rec) (tk_Name rec) (EncodeToString (tk_SHA256 rec)) perms ∈ c_Tokens c.

(** What a rendering went through. *)
Record rendered (o : cloudInitOpts) (out : cloudInitOut) (rec : TokenRecord) (cfg : list (string * json))
    (shipped : string) (parsed : Config.Config) (g : Gathered) : Prop := {
  rd_tokens : tokenEntry rec (Perms o) ∈ oldTokens cfg;
  rd_shipped : yaml_Marshal (JObj cfg) = Ok shipped;
  rd_parsed : ∃ c, yaml_Config shipped = Ok c ∧ Config.Parse c = Ok parsed;
  rd_gathered : ∃ ws, g = foldl (gather (Environ o))
    (MkGathered (foldl (λ env f, parseEnvFile f env) ∅ (EnvFiles o)) ∅ [] ws) (walkStrings (JObj cfg));
  rd_complete : ga_missing g = [];
  rd_document : ∃ pkgs body, yaml_MarshalLiteral (document pkgs shipped (secretsFile (ga_env g)) (Version o)) = Ok body ∧
    UserData out = ("#cloud-config" +:+ nl +:+ body)%string
}.
Lemma render_Ok o idb secretB out : renderCloudInit o idb secretB = Ok out →
  ∃ rec cfg shipped parsed g, mint o idb secretB = Ok (out_Token out, rec) ∧ rendered o out rec cfg shipped parsed g.
Proof.
  unfold renderCloudInit. destruct (snd <$> head _) as [pkgs|]; [|done]. intros Hr.
  apply RangeFacts.andThen_Ok in Hr as ([text rec] & Hm & Hr). apply RangeFacts.andThen_Ok in Hr as (cfg0 & _ & Hr).
  cbv zeta in Hr. set (cfg := injectToken _ _ _) in Hr. apply RangeFacts.andThen_Ok in Hr as (shipped & Hs & Hr).
  apply RangeFacts.andThen_Ok in Hr as (c & Hc & Hr). apply RangeFacts.andThen_Ok in Hr as (parsed & Hp & Hr).
  set (g := foldl (gather _) _ _) in Hr. destruct (ga_missing g) as [|m ms] eqn:Hmiss; [|done].
  apply RangeFacts.andThen_Ok in Hr as (body & Hb & Hr). injection Hr as <-.
  exists rec, cfg, shipped, parsed, g. split; [exact Hm|]. split; simpl; eauto.
  unfold cfg. rewrite injected. apply elem_of_app. right. by left.
Qed.

Lemma Parse_validate c parsed : Config.Parse c = Ok parsed → validate parsed = true ∧ c_Tokens parsed = c_Tokens c.
Proof. unfold Config.Parse. cbv zeta. destruct (validate _) eqn:Hv; [|done]. by intros [= <-]. Qed.

(** What a cloud-init document writes to a path. *)
Definition written (path : string) (doc : json) : list string :=
  match doc with
  | JObj fs =>
      match get_key "write_files" fs with
      | Some (JArr files) =>
          omap (λ f, match f with
                     | JObj f => match get_key "path" f, get_key "content" f with
                                 | Some (JStr p), Some (JStr content) => if decide (p = path) then Some content else None
                                 | _, _ => None
                                 end
                     | _ => None
                     end) files
      | _ => []
      end
  | _ => []
  end.

(** C35: the token of a rendered installation, minted or given, opens it: the
    configuration that the user data writes to the file the service starts with
    is accepted, and the authenticator made of it admits the plaintext with the
    name and the permissions asked for. *)
Theorem cloud_init_token_admitted o idb secretB out : renderCloudInit o idb secretB = Ok out →
  ∃ doc body shipped c parsed,
    UserData out = ("#cloud-config" +:+ nl +:+ body)%string ∧ yaml_MarshalLiteral doc = Ok body ∧
    written "/etc/fleetplane/config.yaml" doc = [shipped] ∧
    written "/etc/systemd/system/fleetplane.service" doc = [systemdUnit] ∧
    yaml_Config shipped = Ok c ∧ Config.Parse c = Ok parsed ∧
    ∀ rand auth, buildAuth parsed rand = Ok auth →
      let plain := if decide (Token o = ""%string) then out_Token out else Token o in
      ∃ p, Authenticate auth ("Bearer " +:+ plain) = Ok p ∧ pr_Name p = TokenName o ∧
           ∀ perm, perm ∈ pr_Perms p ↔ perm ∈ Perms o.
Proof.
  intros Hr. apply render_Ok in Hr as (rec & cfg & shipped & parsed & g & Hm & [Htok Hship (c & Hc & Hparse) _ _ (pkgs & body & Hdoc & Hud)]).
  eexists _, body, shipped, c, parsed. split; [exact Hud|]. split; [exact Hdoc|]. split; [done|]. split; [done|].
  split_and!; [done|done|]. intros rand auth Hauth.
  destruct (mint_proves _ _ _ _ _ Hm) as (Hperms & Hname & secret & Hsum & Hfree & Htrim). cbv zeta in Htrim |- *.
  destruct (Parse_validate _ _ Hparse) as [Hv Htoks].
  destruct (auth_exact parsed rand auth Hv Hauth) as [Hexact _].
  pose proof (tokens_read _ _ _ _ _ Hship Hc Htok) as Hin. rewrite <-Htoks in Hin.
  assert (∀ p, p ∈ tk_Perms rec ↔ p ∈ Perms o) as Hset.
  { intros p. rewrite (newPermSet_Ok _ _ _ Hperms p). set_solver. }
  assert (byID auth !! tk_ID rec = Some rec) as Hrec.
  { apply Hexact. eexists. split; [exact Hin|]. simpl. split_and!; [done..|apply decode_encode|exact Hset]. }
  exists (MkPrincipal (tk_ID rec) (tk_Name rec) (tk_Perms rec)). split_and!; [|done|exact Hset].
  apply Authenticate_Ok. eexists _, (tk_ID rec), secret, rec. split_and!; [reflexivity|exact Htrim|done..].
Qed.

(** A rendering succeeds only when every secret of the environment that the
    shipped configuration names has a value: the one of the environment files,
    or else of the process. *)
Theorem cloud_init_secrets_complete o idb secretB out : renderCloudInit o idb secretB = Ok out →
  ∃ pkgs cfg shipped env body, yaml_Marshal (JObj cfg) = Ok shipped ∧
    yaml_MarshalLiteral (document pkgs shipped (secretsFile env) (Version o)) = Ok body ∧
    UserData out = ("#cloud-config" +:+ nl +:+ body)%string ∧
    ∀ s path, s ∈ walkStrings (JObj cfg) → Split s = Ok ("env"%string, path) →
      let given := foldl (λ env f, parseEnvFile f env) ∅ (EnvFiles o) in
      ∃ v, env !! path = Some v ∧ (given ∪ Environ o) !! path = Some v.
Proof.
  intros Hr. apply render_Ok in Hr as (rec & cfg & shipped & parsed & g & _ & [_ Hship _ [ws Hg] Hmiss (pkgs & body & Hdoc & Hud)]).
  exists pkgs, cfg, shipped, (ga_env g), body. split_and!; [done..|]. intros s path Hs Hsp.
  set (given := foldl (λ env f, _) _ _). pose proof (gather_all (Environ o) given ws (walkStrings (JObj cfg))) as Hgs.
  unfold given in Hgs. rewrite <-Hg in Hgs. fold given in Hgs.
  destruct (gs_seen _ _ _ _ Hgs path (gs_done _ _ _ _ Hgs s path Hs Hsp)) as [[v Hv]|Hm].
  - exists v. split; [done|]. rewrite lookup_union_Some_raw. by apply (gs_from _ _ _ _ Hgs).
  - rewrite Hmiss in Hm. by apply elem_of_nil in Hm.
Qed.
End facts.

(** ** A library the facts apply to *)

(** JSON is YAML: documents are printed and read as JSON, and a configuration
    is its storage path and its tokens. *)
Section json_library.
Definition str_of (key : string) (fs : list (string * json)) : string :=
  match get_key key fs with Some (JStr s) => s | _ => ""%string end.
Definition strs_of (key : string) (fs : list (string * json)) : list string :=
  match get_key key fs with Some (JArr l) => omap (λ j, match j with JStr s => Some s | _ => None end) l | _ => [] end.
Definition token_of (j : json) : option Config.Token :=
  match j with
  | JObj fs => Some (MkToken_ (str_of "id" fs) (str_of "name" fs) (str_of "sha256" fs) (strs_of "permissions" fs))
  | _ => None
  end.
Definition json_config (fs : list (string * json)) : Config.Config :=
  MkConfig "" "" 0 (match get_key "storage" fs with Some (JObj s) => str_of "path" s | _ => ""%string end)
    ∅ ∅ 0 0 0 0 0 (Discovery.MkDiscovery 0 0 "" "") (omap token_of (oldTokens fs)).
Definition json_text (j : json) : result string :=
  if TextFacts.integral j then Ok (print j) else Err (EOther "not printed").
Definition json_fields (s : string) : result (option (list (string * json))) :=
  match unmarshal s with Ok (JObj fs) => Ok (Some fs) | Ok _ => Ok None | Err e => Err e end.
#[local] Instance json_yaml : Yaml := {|
  yaml_Unmarshal := json_fields;
  yaml_Marshal := json_text;
  yaml_MarshalLiteral := json_text;
  yaml_Config s := compute.andThen (json_fields s) (λ fs, Ok (json_config (default [] fs)))
|}.

Lemma entry_token rec perms : token_of (tokenEntry rec perms) =
  Some (MkToken_ (tk_ID rec) (tk_Name rec) (EncodeToString (tk_SHA256 rec)) perms).
Proof. cbn. do 2 f_equal. induction perms as [|p perms IH]; [done|]. exact (f_equal (cons p) IH). Qed.
Lemma json_tokens_read cfg text c rec perms :
  yaml_Marshal (JObj cfg) = Ok text → yaml_Config text = Ok c → tokenEntry rec perms ∈ oldTokens cfg →
  MkToken_ (tk_ID rec) (tk_Name rec) (EncodeToString (tk_SHA256 rec)) perms ∈ c_Tokens c.
Proof.
  intros Ht Hc Hin. change (json_text (JObj cfg) = Ok text) in Ht. unfold json_text in Ht.
  destruct (TextFacts.integral (JObj cfg)) eqn:Hi; [|done]. injection Ht as <-.
  change (compute.andThen (json_fields (print (JObj cfg))) (λ fs, Ok (json_config (default [] fs))) = Ok c) in Hc.
  unfold json_fields in Hc. rewrite TextFacts.json_round_trip in Hc by exact Hi. injection Hc as <-.
  apply list_elem_of_omap. exists (tokenEntry rec perms). split; [exact Hin|apply entry_token].
Qed.

Definition bootstrap : cloudInitOpts :=
  MkCloudInit (print (JObj [("storage", JObj [("path", JStr "/var/lib/fleetplane/state.db")]);
                            ("providers", JObj [("hz", JObj [("token", JStr "secret://env/HZ")])])]))%string
    ["# keys" +:+ nl +:+ "export PW=1"]%string {[ "HZ"%string := "abc"%string ]} "ubuntu" "v1" "" "ops" ["admin"]%string.
Definition bootstrapped : cloudInitOut := 
  match renderCloudInit bootstrap "abcd" "0123456789" with Ok out => out | Err _ => MkCloudInitOut "" "" [] end.

Lemma cloud_init_token_admitted_witness :
  renderCloudInit bootstrap "abcd" "0123456789" = Ok bootstrapped ∧
  ∃ doc shipped c parsed, written "/etc/fleetplane/config.yaml" doc = [shipped] ∧
    yaml_Config shipped = Ok c ∧ Config.Parse c = Ok parsed ∧
    ∀ rand auth, buildAuth parsed rand = Ok auth →
      ∃ p, Authenticate auth ("Bearer " +:+ "flp_61626364.MDEyMzQ1Njc4OQ") = Ok p ∧ pr_Name p = "ops"%string ∧
           ∀ perm, perm ∈ pr_Perms p ↔ perm ∈ ["admin"%string].
Proof.
  assert (renderCloudInit bootstrap "abcd" "0123456789" = Ok bootstrapped) as Hr by (vm_compute; reflexivity).
  split; [exact Hr|].
  destruct (cloud_init_token_admitted json_tokens_read bootstrap "abcd" "0123456789" bootstrapped Hr)
    as (doc & body & shipped & c & parsed & _ & _ & H0 & _ & H1 & H2 & H3).
  exists doc, shipped, c, parsed. split; [exact H0|]. split; [exact H1|]. split; [exact H2|]. intros rand auth Ha.
  destruct (H3 rand auth Ha) as (p & Hp & Hrest). exists p. split; [|exact Hrest].
  rewrite <-Hp. vm_compute (out_Token _). reflexivity.
Defined.
Lemma cloud_init_secrets_complete_witness :
  ∃ pkgs cfg shipped env body, yaml_Marshal (JObj cfg) = Ok shipped ∧
    yaml_MarshalLiteral (document pkgs shipped (secretsFile env) "v1") = Ok body ∧
    UserData bootstrapped = ("#cloud-config" +:+ nl +:+ body)%string ∧
    ∀ s path, s ∈ walkStrings (JObj cfg) → Split s = Ok ("env"%string, path) →
      ∃ v, env !! path = Some v ∧ ({[ "PW" := "1"; "HZ" := "abc" ]}%string : gmap string string) !! path = Some v.
Proof.
  assert (renderCloudInit bootstrap "abcd" "0123456789" = Ok bootstrapped) as Hr by (vm_compute; reflexivity).
  destruct (cloud_init_secrets_complete bootstrap "abcd" "0123456789" bootstrapped Hr)
    as (pkgs & cfg & shipped & env & body & H1 & H2 & H3 & H4).
  exists pkgs, cfg, shipped, env, body. split; [exact H1|]. split; [exact H2|]. split; [exact H3|].
  intros s path Hs Hsp. destruct (H4 s path Hs Hsp) as (v & Hv & Hg). exists v. split; [exact Hv|].
  rewrite <-Hg. f_equal.
Defined.
End json_library.
